(* ===== verification/_CoqProject ===== *)
-Q . S2P
Prelude.v
Codec.v
Text.v
Contracts.v
Wire.v
ContractFacts.v
Signing.v
Governor.v
GovernorFacts.v
Scheduler.v
SchedulerFacts.v
ModelPlanner.v
ModelPlannerFacts.v
Storage.v
StorageFacts.v
Authority.v
Ledger.v
Float.v
Economics.v
EconomicsFacts.v
Worker.v
WorkerFacts.v
RemoteAssist.v
RemoteAssistFacts.v
Relay.v
RelayFacts.v
Net.v
Mesh.v
MeshFacts.v
Gateway.v
GatewayFacts.v
Process.v
Edge.v
EdgeFacts.v
Discovery.v
Agent.v
Startup.v
ModelWorker.v
ModelWorkerFacts.v
Packing.v
Diagnostics.v
DiagnosticsFacts.v
ControllerState.v
Controller.v
Artifacts.v
Assist.v
Samples.v
ModelGateway.v
ModelGatewayFacts.v
Admission.v
Reports.v
Restore.v
RestoreFacts.v
ControllerFacts.v
HandlersFacts.v
RegistryFacts.v
History.v
ArtifactsFacts.v
ReportsFacts.v
Registration.v
Contribution.v
DiscoveryFacts.v
AgentFacts.v
StartupFacts.v
Pairing.v
PairingFacts.v
PairingSamples.v
Desktop.v
DesktopFacts.v
Project.v
Client.v
Cli.v
CliFacts.v
RelayProcess.v
LocalAi.v
ProcessTree.v
Supervisor.v
SupervisorFacts.v
EdgeApp.v
ControllerFiles.v
