(* ===== verification/Prelude.v ===== *)
(** * Rampage: a verification library for the fabric, from the ledger to the applications

    Rampage joins an owner's machines into one fabric.  A controller
    (crates/rampage-controller) enrolls nodes, keeps their signed resource offers, places
    jobs and shard sets on them, and lets the policy Governor (crates/rampage-policy) sign a
    lease for each placement.  A worker (crates/rampage-agent, or crates/rampage-edge on a
    phone) claims a lease, consumes it once in its content-addressed store
    (crates/rampage-storage), runs an allow-listed adapter and returns a signed receipt.  Every
    decision is an event of a hash-chained ledger (crates/rampage-ledger), from which a
    restarted controller rebuilds its state.  The parts talk over an authenticated mesh
    (crates/rampage-mesh) in the versioned contracts of crates/rampage-protocol, if need be
    through an owner's relay (crates/rampage-relay).  The controller also serves models through
    OpenAI and Anthropic endpoints and opens Remote Assist sessions.  The owner's STOP sets a
    latch and raises the fencing epoch that every lease carries.  A desktop application
    (apps/desktop) decides whether a machine is an owner or a worker, pairs machines and
    supervises their processes; the edge application (apps/edge), the command line
    (crates/rampage-cli) and the SDK (crates/rampage-sdk) are clients.

    ** Foundations

    - [Prelude]: results, machine integers, boolean notations, the tactics [res_inv],
      [rsimpl] and [bool_prop], and lemmas shared by all files.  [Text], [Float] and [Net] are
      the [str], [f64] and address operations of the standard library the sources use.
    - [Codec], [Wire]: serde_json, chrono, sha2, hex and uuid as classes of operations, the
      documented laws the proofs use, and reference instances; [Packing] is a reference
      serializer of the contracts, [Samples] holds the instances most examples share.
    - [Contracts], [ContractFacts]: rampage-protocol, a module per type with its validation
      methods; bounded shard sets, complete promotion evidence, exact chunk partitions.

    ** Authority

    - [Signing]: every signing and verification function of rampage-policy, over the classes
      [Crypto] and [Serializer].  [Governor], [GovernorFacts]: admission and the five minting
      functions; a job is admitted exactly under conditions written down independently of the
      code, each lease is bound, bounded, active in its window and verifiable.
    - [Ledger]: what is written verifies exactly if its payloads read back as they were printed,
      the last hash commits to the history, paged verification is one pass, epochs are
      evidenced.
    - [Scheduler], [SchedulerFacts]: choice of an offer and shard-set planning of
      rampage-controller/src/lib.rs; the choice is optimal and a plan of jobs
      that name each class once never overcommits.  [ModelPlanner], [ModelPlannerFacts]: a ready
      plan fits, and covers the model up to the rounding of a pipeline.
      [Economics], [EconomicsFacts]: dividends, break-even plans and the network autopilot, in
      binary64.

    ** The controller (crates/rampage-controller/src/main.rs)

    - [ControllerState]: [AppState], the surroundings [Env] of a handler (clock, identifiers,
      gate, mesh answers) and the state-and-error monad [M].  [Controller], [Admission]:
      enrollment, revocation, STOP and resume, offers, jobs, shard sets, claims, receipts,
      relay access, promotion canaries.  [Diagnostics], [DiagnosticsFacts]: the report.
      [Artifacts], [ArtifactsFacts]: storage endpoints, replication and repair; what is
      retrieved hashes to its digest.  [Assist]: Remote Assist sessions.  [ModelGateway],
      [ModelGatewayFacts]: the model endpoints; the streamed answer is backed by a receipt, and
      what a worker writes arrives.  [Reports], [ReportsFacts]: reports, dividends and the mesh front
      end; a worker reaches only its routes, in its own name.
    - [Restore], [RestoreFacts]: the replay of the ledger equals one pass over the chain.
      [ControllerFiles]: secrets, mesh port and signed checkpoint on disk; a start from a
      checkpoint is as good as one from the beginning, also for the ledger of any history.
    - [ControllerFacts], [HandlersFacts]: weakest preconditions over [M], and the invariant that
      ties the live assignments, every possible replay and the leases handed out, for every
      handler.  [RegistryFacts]: what is kept under a key belongs to it.  [History]: requests
      and restarts as sequences of steps; a lease is handed out once, a STOP fences what was
      issued before it.

    ** Contributors

    - [Storage], [StorageFacts]: rampage-storage over its tables and directory tree; content
      addressing, round trip, single use of nonces, fencing, quota.  [Authority] is the class
      through which its clients use the store, with its laws; the store is an instance.
    - [Worker], [WorkerFacts]: a lease executes once and a receipt is bound to its claim, whose
      lease is checked under the key the claim carries.  [RemoteAssist], [RemoteAssistFacts]:
      input is authorized and, handled one request after another, applied once.  [Mesh], [MeshFacts]: the
      transport.  [Gateway], [GatewayFacts], [ModelWorker], [ModelWorkerFacts]: what a worker
      does with a stream of its controller; its store changes only under a lease.
    - [Process] is the monad of a process over its surroundings.  [Discovery],
      [DiscoveryFacts], [Agent], [AgentFacts], [Startup], [StartupFacts]: the agent, from its
      files and its machine to the loop that keeps an offer alive.  [Edge], [EdgeFacts]: the
      edge worker; a receipt it owes is never lost.  [Registration], [Contribution]: what the
      controller promises to register, and that the contributors' offers are of that kind; the
      Governor admits on an edge device every job that fits it.
    - [Relay], [RelayFacts]: the allowlist and the counters, which refine the multiset of open
      connections.  [RelayProcess]: the commands of the relay.

    ** Applications and clients

    - [Pairing], [PairingFacts], [PairingSamples]: nearby pairing; both ends agree, nothing of
      an invitation leaves without an approval.  [Desktop], [DesktopFacts]: the role of a
      machine as the files of its directory, with calls of the system that fail, the looks of
      [Path::is_file] and [Path::exists] among them, which then report no file.
      [ProcessTree]: killing a process with its descendants.  [Supervisor], [SupervisorFacts]:
      the two tasks that keep an agent running, interleaved with everything around them, the
      helper processes that commands start without listing them included; both are instances of
      one life cycle of a child.  [LocalAi]: the local model server.
      [EdgeApp]: the edge application.
    - [Project]: project discovery; a fingerprint commits to what was met.  [Client], [Cli],
      [CliFacts]: the SDK and every command; a benchmark that is leased runs to a receipt of
      success.

    A file named [...Facts] holds the theorems of the file before it, and its modules at the end
    the theorems at concrete inputs.

    ** Conventions

    A Rust integer is a [Z] with its overflow written out where the code can reach it, a
    [DateTime] its nanoseconds or microseconds as the file says, a [Uuid] its 128-bit value, a
    string its bytes.  A fallible function returns [result], a panic is [None] (or
    [Failure.Panic] in [M]).  A handler that fails keeps the state it had reached.  The clock,
    random identifiers and the answers of the network are arguments, fields of an [Env] or
    drawn from the [Surroundings] of a process; [HashMap] iteration is any permutation.

    Fuel.  The loops over ledger pages take one more than the number of rows: each page ends at
    a larger sequence number, so [verify_after_is_one_pass] and [restore_is_replay] prove that
    it is never exhausted.  The loop over model frames takes the bytes received
    ([consumption_ends]), the recursion over a process table one more than its length
    ([tree_killed_bottom_up]).  A command that waits takes the number of times it may ask, and
    [wait_ends] bounds it by the deadline.

    The controller's start is one step whose surroundings say what it finds: whether the ledger
    opens, the checkpoint file, the address, the configuration, the secrets, the mesh and the
    store.  A history changes the ledger only by appends and epoch advances ([run_written]).

    Concurrency.  A controller step is one handler from start to end, which the admission gate
    enforces for the handlers that change authority; the latch test those handlers make before
    waiting for the gate is a separate observation ([latch_on_arrival]).  Histories also
    continue after a failed startup, which only adds histories.  The critical sections of
    pairing are one step each.  The supervision tasks are cut wherever another task can run.

    ** What is not modelled

    Crashes in the middle of a controller handler or between its file and database effects, and
    lock poisoning.  Of the controller: the router, the sockets, the accept loops and timers,
    and gateway_capabilities, a constant document.  Of the desktop application: windows, tray,
    autostart registration, the script that sets up the firewall rule (its markers are
    modelled), the screen capture of Windows, and the arguments and variables its processes are
    started with.  The native telemetry plugin of the edge application and the signal handling
    of the relay are platform code.  The intelligence service and the Python and TypeScript SDKs are
    outside the Rust program. *)

From Stdlib Require Export Ascii Lia ZArith.
From stdpp Require Export base tactics numbers list gmap strings sorting finite.

#[export] Set Default Goal Selector "!".
#[global] Open Scope Z_scope.

(** ** Results: Rust's [Result<A, E>] *)

Inductive result (E A : Type) : Type :=
| Ok (a : A)
| Err (e : E).
Arguments Ok {E A} a.
Arguments Err {E A} e.

#[export] Instance result_ret E : MRet (result E) := @Ok E.
#[export] Instance result_bind E : MBind (result E) :=
  λ A B f r, match r with Ok a => f a | Err e => Err e end.
#[export] Instance result_fmap E : FMap (result E) :=
  λ A B f r, match r with Ok a => Ok (f a) | Err e => Err e end.
#[export] Instance result_eq_dec `{EqDecision E, EqDecision A} :
  EqDecision (result E A).
Proof. solve_decision. Defined.

(** [Result::map_err]. *)
Definition map_err {E E' A} (f : E → E') (r : result E A) : result E' A :=
  match r with Ok a => Ok a | Err e => Err (f e) end.

(** [Option::ok_or]. *)
Definition ok_or {E A} (e : E) (o : option A) : result E A :=
  match o with Some a => Ok a | None => Err e end.

Definition is_ok {E A} (r : result E A) : bool :=
  match r with Ok _ => true | Err _ => false end.

(** The loop [for x in l { acc = f(acc, x)?; }]. *)
Fixpoint try_fold {E A B} (f : B → A → result E B) (acc : B) (l : list A) : result E B :=
  match l with
  | [] => Ok acc
  | x :: l => acc' ← f acc x; try_fold f acc' l
  end.

(** [iter.map(f).collect::<Result<Vec<_>, _>>()]. *)
Fixpoint try_map {E A B} (f : A → result E B) (l : list A) : result E (list B) :=
  match l with
  | [] => Ok []
  | x :: l => y ← f x; ys ← try_map f l; Ok (y :: ys)
  end.

(** ** Boolean tests as the source writes them *)

Declare Scope rust_scope.
Delimit Scope rust_scope with rust.
Notation "a == b" := (bool_decide (a = b)) (at level 70, no associativity) : rust_scope.
Notation "a != b" := (negb (bool_decide (a = b))) (at level 70, no associativity) : rust_scope.
#[global] Open Scope rust_scope.

(** [(lo..=hi).contains(&x)]. *)
Definition in_range (lo hi x : Z) : bool := (lo <=? x) && (x <=? hi).

(** [Option::is_none_or] and [Option::is_some_and]. *)
Definition is_none_or {A} (p : A → bool) (o : option A) : bool :=
  match o with None => true | Some a => p a end.
Definition is_some_and {A} (p : A → bool) (o : option A) : bool :=
  match o with None => false | Some a => p a end.
Definition is_some {A} (o : option A) : bool :=
  match o with None => false | Some _ => true end.
Definition is_none {A} (o : option A) : bool := negb (is_some o).

(** ** Machine integers *)

Definition u8_max : Z := 255.
Definition u16_max : Z := 65535.
Definition u32_max : Z := 4294967295.
Definition u64_max : Z := 18446744073709551615.
Definition i64_max : Z := 9223372036854775807.
Definition i64_min : Z := -9223372036854775808.

Definition is_u8 (x : Z) : Prop := 0 ≤ x ≤ u8_max.
Definition is_u16 (x : Z) : Prop := 0 ≤ x ≤ u16_max.
Definition is_u32 (x : Z) : Prop := 0 ≤ x ≤ u32_max.
Definition is_u64 (x : Z) : Prop := 0 ≤ x ≤ u64_max.

(** [u64::saturating_add], [saturating_sub], [saturating_mul], [div_ceil],
    [checked_add], [checked_sub], [checked_mul]. *)
Definition sat_add (a b : Z) : Z := Z.min u64_max (a + b).
Definition sat_sub (a b : Z) : Z := Z.max 0 (a - b).
Definition sat_mul (a b : Z) : Z := Z.min u64_max (a * b).
Definition div_ceil (a b : Z) : Z := (a + b - 1) / b.
Definition checked_add (a b : Z) : option Z :=
  if a + b <=? u64_max then Some (a + b) else None.
Definition checked_sub (a b : Z) : option Z :=
  if b <=? a then Some (a - b) else None.
Definition checked_mul (a b : Z) : option Z :=
  if a * b <=? u64_max then Some (a * b) else None.

Definition zsum (l : list Z) : Z := foldr Z.add 0 l.

(** ** Automation *)

Create HintDb rampage.

(** [crush_ifs H] walks a hypothesis [H : ... = Ok _] down its control flow. *)
Ltac res_inv :=
  repeat (simplify_eq/=; case_match; simplify_eq/=; try done).

(** Reduce the result monad and nothing else. *)
Ltac rsimpl :=
  cbn [mbind result_bind mret result_ret fmap result_fmap try_fold try_map] in *.

(** Turn boolean facts into propositions. *)
Ltac bool_prop :=
  repeat match goal with
  | H : _ && _ = true |- _ => apply andb_prop in H as [? ?]
  | H : _ || _ = false |- _ => apply orb_false_elim in H as [? ?]
  | H : negb _ = true |- _ => apply negb_true_iff in H
  | H : negb _ = false |- _ => apply negb_false_iff in H
  | H : bool_decide _ = true |- _ => apply bool_decide_eq_true in H
  | H : bool_decide _ = false |- _ => apply bool_decide_eq_false in H
  | H : (_ <=? _) = true |- _ => apply Z.leb_le in H
  | H : (_ <=? _) = false |- _ => apply Z.leb_gt in H
  | H : (_ <? _) = true |- _ => apply Z.ltb_lt in H
  | H : (_ <? _) = false |- _ => apply Z.ltb_ge in H
  | H : (_ =? _) = true |- _ => apply Z.eqb_eq in H
  | H : (_ =? _) = false |- _ => apply Z.eqb_neq in H
  end.

(** ** Generic lemmas *)

Lemma bind_ok_inv {E A B} (r : result E A) (f : A → result E B) b :
  (r ≫= f) = Ok b → ∃ a, r = Ok a ∧ f a = Ok b.
Proof. destruct r; naive_solver. Qed.

Lemma forallb_elem {A} (p : A → bool) l x : forallb p l = true → x ∈ l → p x = true.
Proof. rewrite forallb_forall, list_elem_of_In. auto. Qed.

Lemma existsb_elem {A} (p : A → bool) l : existsb p l = true ↔ ∃ x, x ∈ l ∧ p x = true.
Proof.
  rewrite existsb_exists. split; intros (x & Hx & Hp); exists x;
    by rewrite list_elem_of_In in *.
Qed.

Lemma existsb_false {A} (p : A → bool) l :
  existsb p l = false ↔ ∀ x, x ∈ l → p x = false.
Proof.
  split.
  - intros He x Hx. destruct (p x) eqn:E; [|done].
    rewrite (proj2 (existsb_elem p l)) in He by eauto. done.
  - intros H. destruct (existsb p l) eqn:E; [|done].
    apply existsb_elem in E as (x & Hx & Hp). by rewrite H in Hp.
Qed.

Lemma forallb_false {A} (p : A → bool) l :
  forallb p l = false ↔ ∃ x, x ∈ l ∧ p x = false.
Proof.
  induction l as [|y l IH]; cbn.
  - split; [done|]. intros (? & ?%not_elem_of_nil & _). done.
  - rewrite andb_false_iff, IH. setoid_rewrite elem_of_cons. naive_solver.
Qed.

Lemma existsb_none {A} (p : A → bool) l x : existsb p l = false → x ∈ l → p x = false.
Proof.
  intros He Hx. destruct (p x) eqn:E; [|done].
  rewrite (proj2 (existsb_elem p l)) in He by eauto. done.
Qed.

Section results.
Context {E A B : Type}.

(** An early return [if b { return Err(e) }] is passed exactly when its test fails. *)
Lemma guard_ok (b : bool) (e : E) (k : result E A) a :
  (if b then Err e else k) = Ok a ↔ b = false ∧ k = Ok a.
Proof. destruct b; naive_solver. Qed.

Lemma when_ok (b : bool) (r : result E ()) :
  (if b then r else Ok ()) = Ok () ↔ (b = true → r = Ok ()).
Proof. destruct b; naive_solver. Qed.

Lemma bind_unit_ok (r : result E ()) (k : result E A) a :
  (_ ← r; k) = Ok a ↔ r = Ok () ∧ k = Ok a.
Proof. destruct r as [[]|]; naive_solver. Qed.

Lemma map_err_ok {E'} (f : E → E') (r : result E A) a : map_err f r = Ok a ↔ r = Ok a.
Proof. destruct r; naive_solver. Qed.

Lemma try_fold_app (f : B → A → result E B) acc l k :
  try_fold f acc (l ++ k) = try_fold f acc l ≫= λ acc', try_fold f acc' k.
Proof.
  revert acc; induction l as [|x l IH]; intros acc; simpl; [done|].
  destruct (f acc x); simpl; [apply IH|done].
Qed.

Lemma try_map_ok (f : A → result E B) l ys :
  try_map f l = Ok ys ↔ Forall2 (λ x y, f x = Ok y) l ys.
Proof.
  revert ys; induction l as [|x l IH]; intros ys; simpl.
  - split; [intros [= <-]; constructor|by inversion 1].
  - split.
    + intros (y & Hy & (ys' & Hys & [= <-])%bind_ok_inv)%bind_ok_inv.
      constructor; [done|by apply IH].
    + inversion 1 as [|??? ys' Hy Hys]; simplify_eq. simpl. rewrite Hy. simpl.
      apply IH in Hys. by rewrite Hys.
Qed.

Lemma try_map_app (f : A → result E B) l k :
  try_map f (l ++ k) = ys ← try_map f l; zs ← try_map f k; Ok (ys ++ zs).
Proof.
  induction l as [|x l IH]; simpl; [by destruct (try_map f k)|].
  destruct (f x); simpl; [|done]. rewrite IH.
  destruct (try_map f l); simpl; [|done]. by destruct (try_map f k).
Qed.

Lemma try_map_total (f : A → result E B) g l :
  (∀ x, x ∈ l → f x = Ok (g x)) → try_map f l = Ok (g <$> l).
Proof.
  intros Hf. induction l as [|x l IH]; simpl; [done|].
  rewrite Hf by set_solver. simpl. rewrite IH by set_solver. done.
Qed.
End results.

(** ** Byte strings *)

Definition chars (s : string) : list ascii := String.list_ascii_of_string s.

Section strings.
Lemma chars_app s t : chars (s +:+ t) = chars s ++ chars t.
Proof. unfold chars. induction s as [|c s IH]; simpl; [done|]. by rewrite <-IH. Qed.

Lemma chars_inj s t : chars s = chars t → s = t.
Proof.
  intros H. rewrite <-(String.string_of_list_ascii_of_string s).
  rewrite <-(String.string_of_list_ascii_of_string t). by f_equal.
Qed.

Lemma length_chars s : length (chars s) = String.length s.
Proof. unfold chars. induction s; simpl; congruence. Qed.

(** Equal-length prefixes of equal strings are equal. *)
Lemma app_inj_length (a b c d : string) :
  String.length a = String.length b → a +:+ c = b +:+ d → a = b ∧ c = d.
Proof.
  intros Hlen H%(f_equal chars). rewrite !chars_app in H.
  apply app_inj_1 in H as [Hab Hcd]; [|by rewrite !length_chars].
  split; by apply chars_inj.
Qed.

(** A separator absent from both prefixes splits uniquely. *)
Lemma app_inj_separator (sep : ascii) (a b c d : string) :
  sep ∉ chars a → sep ∉ chars b →
  a +:+ String sep c = b +:+ String sep d → a = b ∧ c = d.
Proof.
  revert b. induction a as [|x a IH]; intros [|y b] Ha Hb H; simpl in *; simplify_eq.
  - done.
  - exfalso. apply Hb. apply elem_of_cons. by left.
  - exfalso. apply Ha. apply elem_of_cons. by left.
  - apply not_elem_of_cons in Ha as [_ Ha], Hb as [_ Hb].
    destruct (IH b Ha Hb) as [-> ->]; done.
Qed.
End strings.

Section arith.
Lemma div_ceil_bounds a b : 0 < b → 0 ≤ a → a ≤ b * div_ceil a b < a + b.
Proof. intros. unfold div_ceil. pose proof (Z.div_mod (a + b - 1) b). pose proof (Z.mod_pos_bound (a + b - 1) b). lia. Qed.

Lemma div_ceil_lt_iff a b i : 0 < b → 0 ≤ a → i < div_ceil a b ↔ i * b < a.
Proof. intros. pose proof (div_ceil_bounds a b). nia. Qed.

Lemma sat_add_u64 a b : is_u64 a → is_u64 b → is_u64 (sat_add a b).
Proof. unfold is_u64, sat_add. lia. Qed.
End arith.
#[export] Hint Resolve sat_add_u64 : rampage.

Section sums.
Lemma zsum_app l k : zsum (l ++ k) = zsum l + zsum k.
Proof. unfold zsum. induction l as [|x l IH]; cbn; [lia|]. rewrite IH. lia. Qed.

Lemma zsum_snoc l z : zsum (l ++ [z]) = zsum l + z.
Proof. rewrite zsum_app. cbn. lia. Qed.

#[global] Instance zsum_perm : Proper ((≡ₚ) ==> (=)) zsum.
Proof. intros l k H. unfold zsum. induction H; cbn; lia. Qed.

Lemma zsum_nonneg l : Forall (λ x, 0 ≤ x) l → 0 ≤ zsum l.
Proof. unfold zsum. induction 1; cbn; lia. Qed.

Lemma zsum_elem l x : Forall (λ x, 0 ≤ x) l → x ∈ l → x ≤ zsum l.
Proof.
  induction 1 as [|y l Hy Hl IH]; [by intros ?%not_elem_of_nil|].
  apply zsum_nonneg in Hl. intros [->|Hx]%elem_of_cons; unfold zsum in *; cbn; [lia|].
  specialize (IH Hx). lia.
Qed.

(** A saturating fold is the exact sum cut off at [u64::MAX]. *)
Lemma foldl_sat_add acc l :
  is_u64 acc → Forall (λ x, 0 ≤ x) l → foldl sat_add acc l = Z.min u64_max (acc + zsum l).
Proof.
  unfold is_u64. intros Ha Hl. revert acc Ha. induction Hl as [|x l Hx Hl IH]; intros acc Ha.
  - unfold zsum. cbn [foldl foldr]. lia.
  - apply zsum_nonneg in Hl. cbn [foldl]. rewrite IH by (unfold sat_add; lia).
    unfold zsum in *. cbn [foldr]. unfold sat_add. lia.
Qed.
End sums.

(** [iter().filter(p)] of two orders of the same elements. *)
#[global] Instance bool_filter_perm {A} (p : A → bool) : Proper ((≡ₚ) ==> (≡ₚ)) (List.filter p).
Proof.
  intros l k H. induction H as [|x l k _ IH|x y l|l k m _ IH1 _ IH2]; cbn.
  - done.
  - destruct (p x); by rewrite IH.
  - destruct (p x), (p y); try done. apply Permutation_swap.
  - by etrans.
Qed.

(** ** Hash maps *)

(** The iteration order of a [HashMap], any permutation of its entries. *)
Class HashOrder := {
  hash_order {A : Type} : list A → list A;
  hash_order_perm {A} (l : list A) : hash_order l ≡ₚ l
}.

(** [map.values()] of a [HashMap]. *)
Definition values `{HashOrder} `{Countable K} {V} (m : gmap K V) : list V :=
  hash_order (map_to_list m).*2.
Definition keys `{HashOrder} `{Countable K} {V} (m : gmap K V) : list K :=
  hash_order (map_to_list m).*1.

Section hash_order.
Context {order : HashOrder} `{Countable K} {V : Type}.
Implicit Type m : gmap K V.

Lemma elem_of_values m v : v ∈ values m ↔ ∃ k, m !! k = Some v.
Proof.
  unfold values. rewrite hash_order_perm, list_elem_of_fmap. setoid_rewrite <-elem_of_map_to_list.
  split; [intros ([k v'] & -> & Hk); by exists k|]. intros [k Hk]. by exists (k, v).
Qed.
Lemma elem_of_keys m k : k ∈ keys m ↔ is_Some (m !! k).
Proof.
  unfold keys. rewrite hash_order_perm, list_elem_of_fmap. unfold is_Some. setoid_rewrite <-elem_of_map_to_list.
  split; [intros ([k' v] & -> & Hk); by exists v|]. intros [v Hk]. by exists (k, v).
Qed.
End hash_order.
