(* ===== verification/Codec.v ===== *)
(** * Third-party codecs: serde_json, chrono, sha2 and hex

    The operations of the crates the sources only call, as the class [Codec]; the
    documented behaviour the proofs rely on, as the class [CodecLaws]; and
    [reference_codec], a concrete instance of both at which the hypotheses of
    the theorems are discharged. *)

From S2P Require Import Prelude.

(** [serde_json::Value]. *)
Inductive Value : Type :=
| VNull
| VBool (b : bool)
| VInt (n : Z)
| VFloat (bits : Z)
| VString (s : string)
| VArray (l : list Value)
| VObject (m : list (string * Value)).

Class Codec := {
  json_to_string : Value → string;            (* serde_json::to_string *)
  json_from_str : string → option Value;      (* serde_json::from_str *)
  to_rfc3339 : Z → string;                    (* DateTime::to_rfc3339 *)
  to_rfc3339_nanos : Z → string;              (* to_rfc3339_opts(Nanos, true) *)
  parse_rfc3339 : string → option Z;          (* DateTime::parse_from_rfc3339 *)
  sha256 : string → string;                   (* Sha256::digest *)
  hex_encode : string → string                (* hex::encode *)
}.

(** The base64 crate's standard engine. *)
Class Base64 := { base64_encode : string → string; base64_decode : string → option string }.

(** Instants (nanoseconds since the epoch) whose year has four digits, the range
    in which RFC 3339 text has a fixed width. *)
Definition four_digit_year (t : Z) : Prop :=
  -62167219200 * 1000000000 ≤ t < 253402300800 * 1000000000.

Definition no_nul (s : string) : Prop := "000"%char ∉ chars s.

(** A payload that survives being stored as text.  serde_json guarantees this for
    its own numbers, strings and containers, not for every binary64 value. *)
Definition json_stable `{Codec} (v : Value) : Prop :=
  json_from_str (json_to_string v) = Some v.

Class CodecLaws (c : Codec) : Prop := {
  int_field_stable key n : json_stable (VObject [(key, VInt n)]);
  json_no_nul v : no_nul (json_to_string v);
  rfc3339_roundtrip t : four_digit_year t → parse_rfc3339 (to_rfc3339 t) = Some t;
  nanos_width t : four_digit_year t → String.length (to_rfc3339_nanos t) = 30%nat;
  nanos_inj t u : four_digit_year t → four_digit_year u →
    to_rfc3339_nanos t = to_rfc3339_nanos u → t = u;
  hex_encode_length s : String.length (hex_encode s) = (2 * String.length s)%nat;
  hex_encode_inj s t : hex_encode s = hex_encode t → s = t
}.

(** ** A concrete instance *)

Module Reference.

(** Values as trees, hence as positive numbers, hence as strings of two letters. *)
Definition leaf : Type := bool + Z + Z + string.

Fixpoint to_tree (v : Value) : gen_tree leaf :=
  match v with
  | VNull => GenNode 0 []
  | VBool b => GenLeaf (inl (inl (inl b)))
  | VInt n => GenLeaf (inl (inl (inr n)))
  | VFloat n => GenLeaf (inl (inr n))
  | VString s => GenLeaf (inr s)
  | VArray l => GenNode 1 (to_tree <$> l)
  | VObject m => GenNode 2 ((λ '(k, v), GenNode 3 [GenLeaf (inr k); to_tree v]) <$> m)
  end.

Fixpoint of_tree (t : gen_tree leaf) : option Value :=
  match t with
  | GenNode 0 [] => Some VNull
  | GenLeaf (inl (inl (inl b))) => Some (VBool b)
  | GenLeaf (inl (inl (inr n))) => Some (VInt n)
  | GenLeaf (inl (inr n)) => Some (VFloat n)
  | GenLeaf (inr s) => Some (VString s)
  | GenNode 1 l => VArray <$> mapM of_tree l
  | GenNode 2 l =>
      VObject <$> mapM (λ t, match t with
                             | GenNode 3 [GenLeaf (inr k); v] => pair k <$> of_tree v
                             | _ => None
                             end) l
  | _ => None
  end.

Fixpoint bits (p : positive) : string :=
  match p with xH => "" | xO p => String "0" (bits p) | xI p => String "1" (bits p) end.
Fixpoint of_bits (s : string) : option positive :=
  match s with
  | "" => Some xH
  | String "0" s => xO <$> of_bits s
  | String "1" s => xI <$> of_bits s
  | _ => None
  end.

Fixpoint digits (k : nat) (n : Z) : string :=
  match k with
  | O => ""
  | S k => String (ascii_of_N (Z.to_N (48 + n `mod` 10))) (digits k (n `div` 10))
  end.

Definition hex_digit (n : N) : ascii :=
  if (n <? 10)%N then ascii_of_N (48 + n) else ascii_of_N (87 + n).
Fixpoint hex (s : string) : string :=
  match s with
  | "" => ""
  | String c s =>
      String (hex_digit (N_of_ascii c / 16)%N) (String (hex_digit (N_of_ascii c mod 16)%N) (hex s))
  end.

Definition era_offset : Z := 62167219200 * 1000000000.

#[export] Instance reference_codec : Codec := {|
  json_to_string v := bits (encode (to_tree v));
  json_from_str s := p ← of_bits s; t ← decode (A:=gen_tree leaf) p; of_tree t;
  to_rfc3339 t := bits (encode t);
  to_rfc3339_nanos t := digits 30 (t + era_offset);
  parse_rfc3339 s := p ← of_bits s; decode (A:=Z) p;
  sha256 s := s;
  hex_encode := hex
|}.

Lemma of_bits_bits p : of_bits (bits p) = Some p.
Proof. induction p as [p IH|p IH|]; simpl; rewrite ?IH; done. Qed.

Lemma bits_no_nul p : no_nul (bits p).
Proof.
  unfold no_nul. induction p as [p IH|p IH|]; simpl; [..|by apply not_elem_of_nil];
    (apply not_elem_of_cons; split; [done|apply IH]).
Qed.

Lemma digits_length k n : String.length (digits k n) = k.
Proof. revert n. induction k as [|k IH]; intros n; simpl; [done|by rewrite IH]. Qed.

Lemma ascii_of_N_inj a b :
  (a < 256)%N → (b < 256)%N → ascii_of_N a = ascii_of_N b → a = b.
Proof.
  intros Ha Hb H. rewrite <-(N_ascii_embedding a Ha), <-(N_ascii_embedding b Hb).
  by rewrite H.
Qed.

Lemma digits_inj k n m :
  0 ≤ n < 10 ^ Z.of_nat k → 0 ≤ m < 10 ^ Z.of_nat k → digits k n = digits k m → n = m.
Proof.
  revert n m. induction k as [|k IH]; intros n m Hn Hm; simpl; [lia|].
  intros [= Hd Hr]. rewrite Nat2Z.inj_succ, Z.pow_succ_r in Hn, Hm by lia.
  pose proof (Z.mod_pos_bound n 10). pose proof (Z.mod_pos_bound m 10).
  apply ascii_of_N_inj in Hd; [|lia..].
  apply IH in Hr; [|split; [apply Z.div_pos; lia|apply Z.div_lt_upper_bound; lia]..].
  rewrite (Z.div_mod n 10), (Z.div_mod m 10) by lia. lia.
Qed.

Lemma hex_digit_inj a b : (a < 16)%N → (b < 16)%N → hex_digit a = hex_digit b → a = b.
Proof.
  unfold hex_digit. intros Ha Hb.
  destruct (N.ltb_spec a 10), (N.ltb_spec b 10); intros Hab%ascii_of_N_inj; lia.
Qed.

Lemma hex_length s : String.length (hex s) = (2 * String.length s)%nat.
Proof. induction s as [|c s IH]; cbn [hex String.length]; [done|]. rewrite IH. lia. Qed.

Lemma hex_inj s t : hex s = hex t → s = t.
Proof.
  revert t. induction s as [|c s IH]; intros [|d t]; simpl; try done.
  intros [= H1 H2 H3]. f_equal; [|by apply IH].
  pose proof (N_ascii_bounded c) as Hc. pose proof (N_ascii_bounded d) as Hd.
  apply hex_digit_inj in H1; [|apply N.Div0.div_lt_upper_bound; lia..].
  apply hex_digit_inj in H2; [|apply N.mod_lt; lia..].
  rewrite <-(ascii_N_embedding c), <-(ascii_N_embedding d). f_equal.
  rewrite (N.div_mod' (N_of_ascii c) 16), (N.div_mod' (N_of_ascii d) 16). congruence.
Qed.

Lemma mapM_map_Some {A B} (f : B → option A) (g : A → B) (l : list A) :
  Forall (λ x, f (g x) = Some x) l → mapM f (g <$> l) = Some l.
Proof. induction 1 as [|x l Hx _ IH]; cbn; [done|]. rewrite Hx. cbn. by rewrite IH. Qed.

Fixpoint of_to_tree (v : Value) : of_tree (to_tree v) = Some v.
Proof.
  destruct v as [|b|n|n|s|l|m]; try reflexivity; cbn [to_tree of_tree].
  - rewrite mapM_map_Some; [done|].
    induction l as [|v l IH]; constructor; [apply of_to_tree|apply IH].
  - rewrite mapM_map_Some; [done|].
    induction m as [|[k v] m IH]; constructor; [|apply IH].
    cbn. by rewrite of_to_tree.
Qed.

(** Every payload is stable for this instance. *)
Lemma reference_stable v : json_stable v.
Proof.
  unfold json_stable. cbn [json_from_str json_to_string reference_codec].
  rewrite of_bits_bits. cbn [mbind option_bind]. rewrite decode_encode.
  cbn [mbind option_bind]. apply of_to_tree.
Qed.

#[export] Instance reference_laws : CodecLaws reference_codec.
Proof.
  split.
  - intros key n. apply reference_stable.
  - intros v. apply bits_no_nul.
  - intros t _. cbn [parse_rfc3339 to_rfc3339 reference_codec].
    rewrite of_bits_bits. cbn [mbind option_bind]. apply decode_encode.
  - intros t _. apply digits_length.
  - intros t u Ht Hu H. unfold four_digit_year, to_rfc3339_nanos, reference_codec in *.
    apply digits_inj in H; unfold era_offset in *; lia.
  - apply hex_length.
  - apply hex_inj.
Qed.

End Reference.
