(* ===== verification/Text.v ===== *)
(** * The [str] methods the contracts use

    A Rust [String] is its UTF-8 bytes, here a [string] of 8-bit characters; the
    methods below are the ones the sources call on it. *)

From S2P Require Import Prelude.

Module Text.

(** [s.len()], in bytes. *)
Definition len (s : string) : Z := Z.of_nat (String.length s).
Definition is_empty (s : string) : bool := match s with "" => true | _ => false end.

(** [s.bytes().all(p)] on byte values. *)
Definition all_bytes (p : N → bool) (s : string) : bool :=
  forallb (λ c, p (N_of_ascii c)) (chars s).

Definition between (lo hi b : N) : bool := ((lo <=? b) && (b <=? hi))%N.
Definition is_ascii (s : string) : bool := all_bytes (λ b, b <? 128)%N s.
Definition is_ascii_digit (b : N) : bool := between 48 57 b.
(** [byte.is_ascii_digit() || (b'a'..=b'f').contains(&byte)]. *)
Definition lower_hex_byte (b : N) : bool := is_ascii_digit b || between 97 102 b.
Definition is_ascii_hexdigit (b : N) : bool :=
  is_ascii_digit b || between 97 102 b || between 65 70 b.
Definition is_ascii_alphanumeric (b : N) : bool :=
  is_ascii_digit b || between 97 122 b || between 65 90 b.

Fixpoint strip_prefix (p s : string) : option string :=
  match p, s with
  | "", _ => Some s
  | String a p, String b s => if (a == b)%rust then strip_prefix p s else None
  | _, "" => None
  end.
Definition starts_with (p s : string) : bool := is_some (strip_prefix p s).

Fixpoint ends_with (p s : string) : bool :=
  (p == s)%rust || match s with "" => false | String _ s => ends_with p s end.
Fixpoint contains (p s : string) : bool :=
  starts_with p s || match s with "" => false | String _ s => contains p s end.

(** [s.trim().is_empty()]: every character is Unicode [White_Space], recognised
    on its UTF-8 encoding. *)
Fixpoint blank (s : string) : bool :=
  match s with
  | "" => true
  | String a s1 =>
      let x := N_of_ascii a in
      if between 9 13 x || (x =? 32)%N then blank s1
      else match s1 with
      | "" => false
      | String b s2 =>
          let y := N_of_ascii b in
          if (x =? 194)%N && ((y =? 133)%N || (y =? 160)%N) then blank s2
          else match s2 with
          | "" => false
          | String c s3 =>
              let z := N_of_ascii c in
              if ((x =? 225)%N && (y =? 154)%N && (z =? 128)%N)
                 || ((x =? 226)%N && (y =? 128)%N
                     && (between 128 138 z || (z =? 168)%N || (z =? 169)%N || (z =? 175)%N))
                 || ((x =? 226)%N && (y =? 129)%N && (z =? 159)%N)
                 || ((x =? 227)%N && (y =? 128)%N && (z =? 128)%N)
              then blank s3 else false
          end
      end
  end.

(** [s.trim_start()] and [s.trim()].  A blank suffix starts at a character boundary,
    since no white-space character starts with a continuation byte. *)
Fixpoint trim_start (s : string) : string :=
  match s with
  | "" => ""
  | String a s1 =>
      let x := N_of_ascii a in
      if between 9 13 x || (x =? 32)%N then trim_start s1
      else match s1 with
      | "" => s
      | String b s2 =>
          let y := N_of_ascii b in
          if (x =? 194)%N && ((y =? 133)%N || (y =? 160)%N) then trim_start s2
          else match s2 with
          | "" => s
          | String c s3 =>
              if blank (String a (String b (String c ""))) then trim_start s3 else s
          end
      end
  end.
Fixpoint trim_end (s : string) : string :=
  if blank s then "" else match s with "" => "" | String c s => String c (trim_end s) end.
Definition trim (s : string) : string := trim_end (trim_start s).

(** [s.chars().any(char::is_control)]: U+0000-1F, U+007F and U+0080-9F. *)
Fixpoint any_control (s : string) : bool :=
  match s with
  | "" => false
  | String a s1 =>
      let x := N_of_ascii a in
      (x <? 32)%N || (x =? 127)%N ||
      match s1 with
      | "" => false
      | String b _ => (x =? 194)%N && between 128 159 (N_of_ascii b)
      end || any_control s1
  end.

Definition to_ascii_lowercase_byte (c : ascii) : ascii :=
  if between 65 90 (N_of_ascii c) then ascii_of_N (N_of_ascii c + 32) else c.
Fixpoint map_bytes (f : ascii → ascii) (s : string) : string :=
  match s with "" => "" | String c s => String (f c) (map_bytes f s) end.
Definition to_ascii_lowercase : string → string := map_bytes to_ascii_lowercase_byte.
(** [s.replace(from, to)] for single bytes. *)
Definition replace_byte (from to : ascii) : string → string :=
  map_bytes (λ c, if (c == from)%rust then to else c).

(** [s.split(p)]: the segments between separators, at least one. *)
Fixpoint split (p : ascii → bool) (s : string) : list string :=
  match s with
  | "" => [""]
  | String c s =>
      if p c then "" :: split p s
      else match split p s with
           | [] => [String c ""]
           | seg :: segs => String c seg :: segs
           end
  end.

(** [s.split_at(n)]. *)
Fixpoint split_at (n : nat) (s : string) : string * string :=
  match n, s with
  | S n, String c s => let '(a, b) := split_at n s in (String c a, b)
  | _, _ => ("", s)
  end.

(** [String::from_utf8(bytes).is_ok()]. *)
Definition is_trail (lo hi : N) (a : ascii) : bool := between lo hi (N_of_ascii a).
Fixpoint is_utf8 (s : string) : bool :=
  match s with
  | "" => true
  | String a s1 =>
      let x := N_of_ascii a in
      if (x <? 128)%N then is_utf8 s1
      else match s1 with
           | "" => false
           | String b s2 =>
               if between 194 223 x then is_trail 128 191 b && is_utf8 s2
               else match s2 with
                    | "" => false
                    | String c s3 =>
                        if between 224 239 x then
                          is_trail (if (x =? 224)%N then 160 else 128) (if (x =? 237)%N then 159 else 191) b
                          && is_trail 128 191 c && is_utf8 s3
                        else match s3 with
                             | "" => false
                             | String d s4 =>
                                 between 240 244 x
                                 && is_trail (if (x =? 240)%N then 144 else 128) (if (x =? 244)%N then 143 else 191) b
                                 && is_trail 128 191 c && is_trail 128 191 d && is_utf8 s4
                             end
                    end
           end
  end.

(** [is_sha256_digest] of rampage-protocol, [valid_digest] of rampage-policy and
    the digest test of rampage-storage. *)
Definition is_sha256_digest (value : string) : bool :=
  is_some_and (λ hex, (len hex =? 64) && all_bytes lower_hex_byte hex)
    (strip_prefix "sha256:" value).

(** ** Lemmas *)

Lemma strip_prefix_spec p s t : strip_prefix p s = Some t ↔ s = p +:+ t.
Proof.
  revert s. induction p as [|a p IH]; intros s; simpl.
  - split; [by intros [= ->]|by intros ->].
  - destruct s as [|b s]; [done|]. destruct (decide (a = b)) as [->|].
    + rewrite bool_decide_true, IH by done. split; [by intros ->|by intros [= ->]].
    + rewrite bool_decide_false by done. split; [done|]. intros [= -> _]. done.
Qed.

Lemma starts_with_spec p s : starts_with p s = true ↔ ∃ t, s = p +:+ t.
Proof.
  unfold starts_with. destruct (strip_prefix p s) as [t|] eqn:E; simpl.
  - apply strip_prefix_spec in E. split; eauto.
  - split; [done|]. intros [t Ht%strip_prefix_spec]. congruence.
Qed.

Lemma ends_with_spec p s : ends_with p s = true ↔ ∃ t, s = t +:+ p.
Proof.
  induction s as [|c s IH]; cbn [ends_with].
  - rewrite orb_false_r, bool_decide_eq_true. split; [intros ->; by exists ""|].
    intros [[|d t] Ht]; [exact (eq_sym Ht)|discriminate Ht].
  - rewrite orb_true_iff, bool_decide_eq_true, IH. split.
    + intros [->|[t ->]]; [by exists ""|by exists (String c t)].
    + intros [[|d t] Ht]; [left; exact (eq_sym Ht)|]. injection Ht as <- ->. right. by exists t.
Qed.

Lemma length_append_string s t : String.length (s +:+ t) = (String.length s + String.length t)%nat.
Proof.
  rewrite <-!length_chars, chars_app. apply length_app.
Qed.

Lemma chars_map_bytes f s : chars (map_bytes f s) = f <$> chars s.
Proof. unfold chars. induction s; simpl; [done|]. by f_equal. Qed.

Lemma map_bytes_length f s : String.length (map_bytes f s) = String.length s.
Proof. rewrite <-!length_chars, chars_map_bytes. apply length_fmap. Qed.

(** A digest is the prefix followed by 64 lower-case hexadecimal digits. *)
Lemma split_at_app n s : (split_at n s).1 +:+ (split_at n s).2 = s.
Proof.
  revert s. induction n as [|n IH]; intros [|c s]; cbn [split_at]; try done.
  specialize (IH s). destruct (split_at n s) as [a b]. cbn [fst snd] in *.
  change (String c (a +:+ b) = String c s). by rewrite IH.
Qed.

Lemma split_at_length n s : String.length (split_at n s).1 = Nat.min n (String.length s).
Proof.
  revert s. induction n as [|n IH]; intros [|c s]; cbn [split_at]; try done.
  specialize (IH s). destruct (split_at n s) as [a b]. cbn in *. by rewrite IH.
Qed.

Lemma is_sha256_digest_spec value :
  is_sha256_digest value = true ↔
  ∃ hex, value = "sha256:" +:+ hex ∧ len hex = 64 ∧ all_bytes lower_hex_byte hex = true.
Proof.
  unfold is_sha256_digest. destruct (strip_prefix "sha256:" value) as [hex|] eqn:E; cbn.
  - apply strip_prefix_spec in E. rewrite andb_true_iff, Z.eqb_eq. subst value. split.
    + intros [? ?]. by exists hex.
    + intros (hex' & [_ <-]%app_inj_length & ?); done.
  - split; [done|]. intros (hex & Hv%strip_prefix_spec & _). congruence.
Qed.

Lemma is_sha256_digest_len value : is_sha256_digest value = true → len value = 71.
Proof.
  intros (hex & -> & Hlen & _)%is_sha256_digest_spec. unfold len in *.
  rewrite length_append_string. simpl. lia.
Qed.

End Text.
