(* ===== verification/Contracts.v ===== *)
(** * The versioned contracts (crates/rampage-protocol)

    The enums, structs and validation methods of rampage-protocol, a module per
    type with the source's constructor, field and method names.  [DateTime<Utc>] is
    nanoseconds since the epoch, a [Uuid] its 128-bit value, [BTreeSet] and
    [BTreeMap] stdpp's [gset] and [gmap], and an integer field a [Z] in the range
    of its Rust type. *)

From S2P Require Import Prelude.
From S2P Require Import Codec.
From S2P Require Import Text.
From Stdlib Require Import SpecFloat.
Import Text.

Definition Uuid : Type := Z.
Definition nil_uuid : Uuid := 0.
Definition DateTime : Type := Z.

(** [Duration::seconds] and [Duration::minutes], and [num_seconds], which truncates. *)
Definition seconds (n : Z) : Z := n * 1000000000.
Definition minutes (n : Z) : Z := seconds (60 * n).
Definition num_seconds (d : Z) : Z := Z.quot d 1000000000.
(** [DateTime::timestamp_millis]. *)
Definition timestamp_millis (t : DateTime) : Z := t `div` 1000000.

Definition MAX_ARTIFACT_TRANSFER_BYTES : Z := 64 * 1024 * 1024.
Definition LINK_BENCHMARK_TRANSFER_BYTES : Z := 256 * 1024.
Definition MAX_SHARDS_PER_SET : Z := 256.
Definition MAX_MODEL_SESSION_NODES : Z := 64.
Definition MAX_MODEL_SESSION_BYTES : Z := 16 * 1024 * 1024 * 1024 * 1024.
Definition MAX_MODEL_PROMPT_BYTES : Z := 1024 * 1024.
Definition MAX_MODEL_OUTPUT_BYTES : Z := 16 * 1024 * 1024.
Definition MAX_MODEL_OUTPUT_TOKENS : Z := 32 * 1024.
Definition MAX_REMOTE_DESKTOP_FRAME_BYTES : Z := 4 * 1024 * 1024.
Definition MAX_REMOTE_DESKTOP_INPUT_EVENTS : Z := 64.
Definition MAX_REMOTE_DESKTOP_DIMENSION : Z := 4096.
Definition MAX_REMOTE_DESKTOP_FPS : Z := 15.
Definition MAX_REMOTE_DESKTOP_LEASE_SECONDS : Z := 30.
Definition MAX_RELAY_ENDPOINTS : Z := 4096.
Definition MAX_LEASE_CLOCK_SKEW_SECONDS : Z := 5.
Definition ARTIFACT_TRANSFER_CHUNK_BYTES : Z := 4 * 1024 * 1024.

Definition lease_has_started (issued_at now : DateTime) : bool :=
  issued_at <=? now + seconds MAX_LEASE_CLOCK_SKEW_SECONDS.

Definition zlen {A} (l : list A) : Z := Z.of_nat (length l).
Definition no_elems {A} (l : list A) : bool := match l with [] => true | _ => false end.
(** [1..=max] text limits shared by the nonce and label checks. *)
Definition bounded_ascii (max : Z) (s : string) : bool :=
  negb (is_empty s) && (len s <=? max) && is_ascii s.

(** ** Enums *)

(** [ResourceClass]; [Codec_] is the source constructor [Codec]. *)
Module ResourceClass.
Inductive t : Set :=
| CpuCompute
| GpuCompute
| NpuCompute
| GpuMemory
| RamWorkingSet
| RamCache
| StorageCache
| StorageScratch
| ProtectedStore
| NetworkFetch
| NetworkRelay
| Toolchain
| Runtime
| Codec_
| LicensedService.
#[global] Instance eq_dec : EqDecision t.
Proof. solve_decision. Defined.
#[global] Instance finite : Finite t.
Proof.
  refine {| enum := [CpuCompute; GpuCompute; NpuCompute; GpuMemory; RamWorkingSet; RamCache; StorageCache; StorageScratch; ProtectedStore; NetworkFetch; NetworkRelay; Toolchain; Runtime; Codec_; LicensedService] |}.
  - apply (bool_decide_unpack _). vm_compute. exact I.
  - intros []; apply (bool_decide_unpack _); vm_compute; exact I.
Defined.
End ResourceClass.

(** [StorageClass]. *)
Module StorageClass.
Inductive t : Set :=
| Cache
| Scratch
| Protected.
#[global] Instance eq_dec : EqDecision t.
Proof. solve_decision. Defined.
End StorageClass.

(** [ArtifactTransferOperation]. *)
Module ArtifactTransferOperation.
Inductive t : Set :=
| Put
| Get.
#[global] Instance eq_dec : EqDecision t.
Proof. solve_decision. Defined.
End ArtifactTransferOperation.

(** [DeviceKind]. *)
Module DeviceKind.
Inductive t : Set :=
| Desktop
| Laptop
| Server
| SteamDeck
| Phone
| Tablet
| Console.
#[global] Instance eq_dec : EqDecision t.
Proof. solve_decision. Defined.
End DeviceKind.

(** [PromotionRiskV1]. *)
Module PromotionRiskV1.
Inductive t : Set :=
| R0Configuration
| R1AllowlistedSource
| R2ProtectedChange
| R3AuthorityCritical.
#[global] Instance eq_dec : EqDecision t.
Proof. solve_decision. Defined.
End PromotionRiskV1.

(** [WorkloadDomain]. *)
Module WorkloadDomain.
Inductive t : Set :=
| AiInference
| AiEvaluation
| Gaming
| CreativeProduction
| SoftwareBuild
| ScientificComputing
| DataProcessing
| Storage
| EdgeUtility.
#[global] Instance eq_dec : EqDecision t.
Proof. solve_decision. Defined.
End WorkloadDomain.

(** [ExecutionPattern]. *)
Module ExecutionPattern.
Inductive t : Set :=
| WholeWorkload
| IndependentShard
| Replica
| StreamingService
| ApplicationNativeDistributed
| TensorParallel
| PipelineParallel.
#[global] Instance eq_dec : EqDecision t.
Proof. solve_decision. Defined.
#[global] Instance finite : Finite t.
Proof.
  refine {| enum := [WholeWorkload; IndependentShard; Replica; StreamingService; ApplicationNativeDistributed; TensorParallel; PipelineParallel] |}.
  - apply (bool_decide_unpack _). vm_compute. exact I.
  - intros []; apply (bool_decide_unpack _); vm_compute; exact I.
Defined.
End ExecutionPattern.

(** [WorkloadIsolation]. *)
Module WorkloadIsolation.
Inductive t : Set :=
| AllowlistedInProcess
| DedicatedProcess
| Container
| WasmSandbox
| ExternalService
| VendorWorker.
#[global] Instance eq_dec : EqDecision t.
Proof. solve_decision. Defined.
End WorkloadIsolation.

(** [WorkloadCapabilityStatus]. *)
Module WorkloadCapabilityStatus.
Inductive t : Set :=
| Shipped
| Qualified
| Candidate.
#[global] Instance eq_dec : EqDecision t.
Proof. solve_decision. Defined.
End WorkloadCapabilityStatus.

(** [ComputeStrategy]. *)
Module ComputeStrategy.
Inductive t : Set :=
| MaximumModelSize
| SpeedBoost
| MaximumThroughput
| Efficiency
| AutonomousBalanced.
#[global] Instance eq_dec : EqDecision t.
Proof. solve_decision. Defined.
End ComputeStrategy.

(** [ModelBackend]. *)
Module ModelBackend.
Inductive t : Set :=
| LocalOllama
| ExoMlx
| VllmRay.
#[global] Instance eq_dec : EqDecision t.
Proof. solve_decision. Defined.
#[global] Instance finite : Finite t.
Proof.
  refine {| enum := [LocalOllama; ExoMlx; VllmRay] |}.
  - apply (bool_decide_unpack _). vm_compute. exact I.
  - intros []; apply (bool_decide_unpack _); vm_compute; exact I.
Defined.
End ModelBackend.

(** [ModelParallelism]. *)
Module ModelParallelism.
Inductive t : Set :=
| WholeModel
| Pipeline
| Tensor
| Replica
| Speculative.
#[global] Instance eq_dec : EqDecision t.
Proof. solve_decision. Defined.
#[global] Instance finite : Finite t.
Proof.
  refine {| enum := [WholeModel; Pipeline; Tensor; Replica; Speculative] |}.
  - apply (bool_decide_unpack _). vm_compute. exact I.
  - intros []; apply (bool_decide_unpack _); vm_compute; exact I.
Defined.
End ModelParallelism.

(** [ModelMemoryKind]. *)
Module ModelMemoryKind.
Inductive t : Set :=
| DedicatedGpu
| Unified
| Host
| Hybrid.
#[global] Instance eq_dec : EqDecision t.
Proof. solve_decision. Defined.
End ModelMemoryKind.

(** [ModelRuntimeStatus]. *)
Module ModelRuntimeStatus.
Inductive t : Set :=
| ShippedLocal
| Candidate
| Qualified.
#[global] Instance eq_dec : EqDecision t.
Proof. solve_decision. Defined.
End ModelRuntimeStatus.

(** [JobState]; [Admitted_] is the source constructor [Admitted]. *)
Module JobState.
Inductive t : Set :=
| Proposed
| Admitted_
| Prepared
| Running
| Succeeded
| Failed
| Ambiguous
| Cancelled
| Fenced.
#[global] Instance eq_dec : EqDecision t.
Proof. solve_decision. Defined.
End JobState.

(** [WorkloadTrust]. *)
Module WorkloadTrust.
Inductive t : Set :=
| NativeTrusted
| GeneratedSandboxed
| ExternalUntrusted.
#[global] Instance eq_dec : EqDecision t.
Proof. solve_decision. Defined.
End WorkloadTrust.

(** [ObservedLinkPathV1]. *)
Module ObservedLinkPathV1.
Inductive t : Set :=
| Direct
| OwnerRelay.
#[global] Instance eq_dec : EqDecision t.
Proof. solve_decision. Defined.
End ObservedLinkPathV1.

(** [RemoteDesktopModeV1]. *)
Module RemoteDesktopModeV1.
Inductive t : Set :=
| View
| Control.
#[global] Instance eq_dec : EqDecision t.
Proof. solve_decision. Defined.
End RemoteDesktopModeV1.

(** [RemoteDesktopActionV1]. *)
Module RemoteDesktopActionV1.
Inductive t : Set :=
| Frame
| Input
| Heartbeat
| Close.
#[global] Instance eq_dec : EqDecision t.
Proof. solve_decision. Defined.
End RemoteDesktopActionV1.

(** [RemoteMouseButtonV1]. *)
Module RemoteMouseButtonV1.
Inductive t : Set :=
| Left
| Right
| Middle.
#[global] Instance eq_dec : EqDecision t.
Proof. solve_decision. Defined.
End RemoteMouseButtonV1.

(** [ModelInvocationFrameKind]. *)
Module ModelInvocationFrameKind.
Inductive t : Set :=
| Delta
| Complete
| Error.
#[global] Instance eq_dec : EqDecision t.
Proof. solve_decision. Defined.
End ModelInvocationFrameKind.

(** [CapabilityState]. *)
Module CapabilityState.
Inductive t : Set :=
| Full
| LocalReduced
| DeterministicOnly
| ReadOnly
| Blocked.
#[global] Instance eq_dec : EqDecision t.
Proof. solve_decision. Defined.
End CapabilityState.

(** [ArtifactTransferActionV2]. *)
Module ArtifactTransferActionV2.
Inductive t : Set :=
| Begin
| Status
| PutChunk
| Commit
| GetChunk
| Head.
#[global] Instance eq_dec : EqDecision t.
Proof. solve_decision. Defined.
End ArtifactTransferActionV2.

(** ** Contract errors *)

Module ContractError.
Inductive t :=
| WrongSchema (expected actual : string)
| DeadlineExpired
| InvalidResourceRange
| EmptyIdempotencyKey
| InvalidShardCount
| InvalidSuccessThreshold
| DuplicateShardIdentity
| ShardOwnershipMismatch
| UnsafeShardLifecycle
| EmptyModelId
| InvalidModelSize
| InvalidContextTokens
| InvalidModelNodeCount.
#[global] Instance eq_dec : EqDecision t.
Proof. solve_decision. Defined.
(** The [#[error(...)]] texts. *)
Definition to_string (self : t) : string :=
  match self with
  | WrongSchema expected actual => "unexpected schema " +:+ actual +:+ "; expected " +:+ expected
  | DeadlineExpired => "deadline has expired"
  | InvalidResourceRange => "resource request minimum exceeds preferred"
  | EmptyIdempotencyKey => "idempotency key is empty"
  | InvalidShardCount => "shard set must contain between 1 and 256 jobs"
  | InvalidSuccessThreshold => "minimum successes must be between 1 and the shard count"
  | DuplicateShardIdentity => "shard identifiers and idempotency keys must be unique"
  | ShardOwnershipMismatch => "every shard must belong to the shard set project and submitter"
  | UnsafeShardLifecycle =>
      "every shard must be restart tolerant and expire no later than its shard set"
  | EmptyModelId => "model identifier is empty"
  | InvalidModelSize => "model session size is zero or exceeds the protocol limit"
  | InvalidContextTokens => "model context token count must be positive"
  | InvalidModelNodeCount => "model session node count must be between 1 and 64"
  end.
End ContractError.

(** ** Structs *)

(** [PromotionEvidenceGateV1]. *)
Module PromotionEvidenceGateV1.
Record t := mk {
  name : string;
  passed : bool;
  evidence_digest : string;
  independent : bool
}.
End PromotionEvidenceGateV1.

(** [PromotionCandidateV1]. *)
Module PromotionCandidateV1.
Record t := mk {
  schema : string;
  proposal_id : Uuid;
  project_id : Uuid;
  base_revision : string;
  candidate_digest : string;
  changed_paths : list string;
  risk : PromotionRiskV1.t;
  gates : list PromotionEvidenceGateV1.t;
  requested_at : DateTime;
  expires_at : DateTime
}.

Definition SCHEMA : string := "rampage.promotion-candidate.v1".
Definition REQUIRED_GATES : list string :=
  ["g0_schema_policy_static"; "g1_deterministic_replay"; "g2_quality_reliability_cost";
   "g3_sealed_holdout"; "g4_adversarial_security"; "g5_independent_replication";
   "g6_shadow"; "g7_canary_rollback"].

Definition is_separator (c : ascii) : bool := (c == "/"%char) || (c == "\"%char).
Definition path_ok (path : string) : bool :=
  negb (is_empty path) && (len path <=? 260) && is_ascii path
  && negb (starts_with "/" path || starts_with "\" path)
  && negb (contains ":" path)
  && forallb (λ seg, negb (is_empty seg) && (seg != ".") && (seg != ".."))
       (split is_separator path).
Definition gate_ok (gate : PromotionEvidenceGateV1.t) : bool :=
  PromotionEvidenceGateV1.passed gate
  && is_sha256_digest (PromotionEvidenceGateV1.evidence_digest gate)
  && ((PromotionEvidenceGateV1.name gate != "g5_independent_replication")
      || PromotionEvidenceGateV1.independent gate).

Definition is_valid_at (self : t) (now : DateTime) : bool :=
  let names : gset string := list_to_set (PromotionEvidenceGateV1.name <$> gates self) in
  (schema self == SCHEMA)
  && negb (is_empty (base_revision self)) && (len (base_revision self) <=? 128)
  && is_ascii (base_revision self)
  && is_sha256_digest (candidate_digest self)
  && negb (no_elems (changed_paths self)) && (zlen (changed_paths self) <=? 32)
  && forallb path_ok (changed_paths self)
  && (requested_at self <=? now) && (now <? expires_at self)
  && (num_seconds (expires_at self - requested_at self) <=? 1800)
  && (zlen (gates self) =? zlen REQUIRED_GATES)
  && (Z.of_nat (size names) =? zlen REQUIRED_GATES)
  && forallb (λ required, bool_decide (required ∈ names)) REQUIRED_GATES
  && forallb gate_ok (gates self).
End PromotionCandidateV1.

(** [PromotionCanaryLeaseV1]. *)
Module PromotionCanaryLeaseV1.
Record t := mk {
  schema : string;
  canary_id : Uuid;
  proposal_id : Uuid;
  project_id : Uuid;
  candidate_digest : string;
  risk : PromotionRiskV1.t;
  max_traffic_basis_points : Z;
  max_error_regression_basis_points : Z;
  max_latency_regression_basis_points : Z;
  max_cost_regression_basis_points : Z;
  issued_at : DateTime;
  expires_at : DateTime;
  nonce : string;
  fencing_epoch : Z;
  signature : string
}.

Definition with_signature (s : string) (self : t) : t :=
    mk (self.(schema)) (self.(canary_id)) (self.(proposal_id)) (self.(project_id))
    (self.(candidate_digest)) (self.(risk)) (self.(max_traffic_basis_points))
    (self.(max_error_regression_basis_points)) (self.(max_latency_regression_basis_points))
    (self.(max_cost_regression_basis_points)) (self.(issued_at)) (self.(expires_at))
    (self.(nonce)) (self.(fencing_epoch)) s.

Definition SCHEMA : string := "rampage.promotion-canary-lease.v1".
Definition is_active_at (self : t) (now : DateTime) (epoch : Z) : bool :=
  (schema self == SCHEMA) && lease_has_started (issued_at self) now && (now <? expires_at self)
  && (fencing_epoch self =? epoch) && is_sha256_digest (candidate_digest self)
  && in_range 1 1000 (max_traffic_basis_points self)
  && (max_error_regression_basis_points self <=? 500)
  && (max_latency_regression_basis_points self <=? 1000)
  && (max_cost_regression_basis_points self <=? 1000)
  && bounded_ascii 128 (nonce self) && negb (is_empty (signature self)).
End PromotionCanaryLeaseV1.

(** [WorkloadCapabilityV1]. *)
Module WorkloadCapabilityV1.
Record t := mk {
  schema : string;
  adapter : string;
  domain : WorkloadDomain.t;
  operations : gset string;
  execution_patterns : gset ExecutionPattern.t;
  resource_classes : gset ResourceClass.t;
  isolation : WorkloadIsolation.t;
  runtime_digest : string;
  checkpointable : bool;
  preemptible : bool;
  network_allowlist_required : bool;
  status : WorkloadCapabilityStatus.t;
  qualification_digest : option string
}.

Definition SCHEMA : string := "rampage.workload-capability.v1".
Definition is_valid (self : t) : bool :=
  (schema self == SCHEMA) && bounded_ascii 128 (adapter self)
  && negb (bool_decide (operations self = ∅)) && (Z.of_nat (size (operations self)) <=? 32)
  && forallb (bounded_ascii 64) (elements (operations self))
  && negb (bool_decide (execution_patterns self = ∅))
  && negb (bool_decide (resource_classes self = ∅))
  && bounded_ascii 200 (runtime_digest self)
  && match status self with
     | WorkloadCapabilityStatus.Qualified => is_some_and is_sha256_digest (qualification_digest self)
     | WorkloadCapabilityStatus.Shipped | WorkloadCapabilityStatus.Candidate =>
         is_none (qualification_digest self)
     end.
Definition authorizes (self : t) (adapter_ operation : string) : bool :=
  is_valid self && (adapter self == adapter_) && bool_decide (operation ∈ operations self)
  && (status self != WorkloadCapabilityStatus.Candidate).
End WorkloadCapabilityV1.

(** [InstalledModelV1]. *)
Module InstalledModelV1.
Record t := mk {
  schema : string;
  model_id : string;
  artifact_digest : string;
  artifact_size_bytes : Z
}.

Definition SCHEMA : string := "rampage.installed-model.v1".
#[global] Instance eq_dec : EqDecision t.
Proof. solve_decision. Defined.
Definition is_valid (self : t) : bool :=
  (schema self == SCHEMA) && negb (blank (model_id self)) && (len (model_id self) <=? 200)
  && is_ascii (model_id self) && is_sha256_digest (artifact_digest self)
  && (0 <? artifact_size_bytes self) && (artifact_size_bytes self <=? MAX_MODEL_SESSION_BYTES).
End InstalledModelV1.

(** [ModelRuntimeOfferV1]. *)
Module ModelRuntimeOfferV1.
Record t := mk {
  schema : string;
  adapter : string;
  backend : ModelBackend.t;
  runtime_version : string;
  runtime_digest : string;
  compatibility_key : string;
  memory_kind : ModelMemoryKind.t;
  available_model_bytes : Z;
  supported_parallelism : gset ModelParallelism.t;
  status : ModelRuntimeStatus.t;
  installed_models : list InstalledModelV1.t;
  certification_digest : option string
}.

Definition SCHEMA : string := "rampage.model-runtime-offer.v1".
Definition is_qualified_for_distributed (self : t) : bool :=
  (schema self == SCHEMA) && (status self == ModelRuntimeStatus.Qualified)
  && is_some_and is_sha256_digest (certification_digest self)
  && is_sha256_digest (runtime_digest self) && negb (blank (compatibility_key self))
  && (0 <? available_model_bytes self)
  && (bool_decide (ModelParallelism.Pipeline ∈ supported_parallelism self)
      || bool_decide (ModelParallelism.Tensor ∈ supported_parallelism self)).
End ModelRuntimeOfferV1.

(** [NodeIdentityV1]. *)
Module NodeIdentityV1.
Record t := mk {
  schema : string;
  node_id : Uuid;
  owner_id : Uuid;
  display_name : string;
  device_kind : DeviceKind.t;
  platform : string;
  public_key : string;
  enrolled_at : DateTime;
  fencing_epoch : Z
}.

Definition SCHEMA : string := "rampage.node-identity.v1".
Definition is_valid_for_enrollment (self : t) : bool :=
  (schema self == SCHEMA) && (node_id self != nil_uuid) && (owner_id self != nil_uuid)
  && negb (blank (display_name self)) && (len (display_name self) <=? 80)
  && negb (any_control (display_name self))
  && bounded_ascii 100 (platform self)
  && (len (public_key self) =? 64) && all_bytes is_ascii_hexdigit (public_key self)
  && (fencing_epoch self =? 0).
End NodeIdentityV1.

(** [ResourceQuantityV1]. *)
Module ResourceQuantityV1.
Record t := mk {
  class : ResourceClass.t;
  capacity : Z;
  available : Z;
  unit : string;
  labels : gmap string string
}.
End ResourceQuantityV1.

(** [AvailabilityV1]. *)
Module AvailabilityV1.
Record t := mk {
  on_ac_power : bool;
  battery_percent : option Z;
  thermal_headroom_percent : Z;
  foreground_allowed : bool;
  owner_idle : bool
}.
End AvailabilityV1.

(** [LinkBenchmarkV1]. *)
Module LinkBenchmarkV1.
Record t := mk {
  schema : string;
  controller_endpoint_id : string;
  observed_at : DateTime;
  expires_at : DateTime;
  rtt_micros_p50 : Z;
  uplink_bps : Z;
  downlink_bps : Z;
  transfer_bytes : Z;
  samples : Z;
  transport : string;
  observed_path : option ObservedLinkPathV1.t
}.

Definition SCHEMA : string := "rampage.link-benchmark.v1".
Definition is_valid_for (self : t) (endpoint : string) (offer_observed_at offer_expires_at : DateTime)
    : bool :=
  (schema self == SCHEMA) && (controller_endpoint_id self == endpoint)
  && (observed_at self <=? offer_observed_at) && (offer_expires_at <=? expires_at self)
  && (0 <? rtt_micros_p50 self) && (0 <? uplink_bps self) && (0 <? downlink_bps self)
  && (transfer_bytes self =? LINK_BENCHMARK_TRANSFER_BYTES) && (3 <=? samples self)
  && (transport self == "authenticated_quic").
End LinkBenchmarkV1.

(** [MeshEndpointRecordV1]. *)
Module MeshEndpointRecordV1.
Record t := mk {
  schema : string;
  endpoint_id : string;
  direct_addresses : list string;
  relay_urls : list string;
  issued_at : DateTime;
  expires_at : DateTime;
  signature : string
}.

Definition with_signature (s : string) (self : t) : t :=
    mk (self.(schema)) (self.(endpoint_id)) (self.(direct_addresses)) (self.(relay_urls))
    (self.(issued_at)) (self.(expires_at)) s.

Definition SCHEMA : string := "rampage.mesh-endpoint.v1".
End MeshEndpointRecordV1.

(** [ResourceOfferV1]. *)
Module ResourceOfferV1.
Record t := mk {
  schema : string;
  offer_id : Uuid;
  node_id : Uuid;
  observed_at : DateTime;
  expires_at : DateTime;
  resources : list ResourceQuantityV1.t;
  availability : AvailabilityV1.t;
  adapters : gset string;
  workload_capabilities : list WorkloadCapabilityV1.t;
  model_runtimes : list ModelRuntimeOfferV1.t;
  link_benchmark : option LinkBenchmarkV1.t;
  mesh_endpoint : option MeshEndpointRecordV1.t;
  signature : string
}.

Definition with_signature (s : string) (self : t) : t :=
    mk (self.(schema)) (self.(offer_id)) (self.(node_id)) (self.(observed_at)) (self.(expires_at))
    (self.(resources)) (self.(availability)) (self.(adapters)) (self.(workload_capabilities))
    (self.(model_runtimes)) (self.(link_benchmark)) (self.(mesh_endpoint)) s.
End ResourceOfferV1.

(** [ModelSessionRequestV1]. *)
Module ModelSessionRequestV1.
Record t := mk {
  schema : string;
  session_id : Uuid;
  model_id : string;
  estimated_weight_bytes : Z;
  kv_cache_bytes : Z;
  context_tokens : Z;
  strategy : ComputeStrategy.t;
  max_nodes : Z;
  deadline : DateTime;
  idempotency_key : string
}.

Definition SCHEMA : string := "rampage.model-session-request.v1".
Definition required_bytes (self : t) : Z := sat_add (estimated_weight_bytes self) (kv_cache_bytes self).
Definition validate_at (self : t) (now : DateTime) : result ContractError.t () :=
  if schema self != SCHEMA then Err (ContractError.WrongSchema SCHEMA (schema self))
  else if deadline self <=? now then Err ContractError.DeadlineExpired
  else if blank (idempotency_key self) then Err ContractError.EmptyIdempotencyKey
  else if blank (model_id self) then Err ContractError.EmptyModelId
  else if (estimated_weight_bytes self =? 0) || (MAX_MODEL_SESSION_BYTES <? required_bytes self)
  then Err ContractError.InvalidModelSize
  else if context_tokens self =? 0 then Err ContractError.InvalidContextTokens
  else if (max_nodes self =? 0) || (MAX_MODEL_SESSION_NODES <? max_nodes self)
  then Err ContractError.InvalidModelNodeCount
  else Ok ().
End ModelSessionRequestV1.

(** [ModelSessionLeaseV1]. *)
Module ModelSessionLeaseV1.
Record t := mk {
  schema : string;
  lease_id : Uuid;
  session_id : Uuid;
  node_id : Uuid;
  controller_endpoint_id : string;
  model_id : string;
  model_digest : string;
  backend : ModelBackend.t;
  runtime_digest : string;
  parallelism : ModelParallelism.t;
  max_prompt_bytes : Z;
  max_output_tokens : Z;
  issued_at : DateTime;
  expires_at : DateTime;
  nonce : string;
  fencing_epoch : Z;
  signature : string
}.

Definition with_signature (s : string) (self : t) : t :=
    mk (self.(schema)) (self.(lease_id)) (self.(session_id)) (self.(node_id))
    (self.(controller_endpoint_id)) (self.(model_id)) (self.(model_digest)) (self.(backend))
    (self.(runtime_digest)) (self.(parallelism)) (self.(max_prompt_bytes))
    (self.(max_output_tokens)) (self.(issued_at)) (self.(expires_at)) (self.(nonce))
    (self.(fencing_epoch)) s.

Definition SCHEMA : string := "rampage.model-session-lease.v1".
Definition is_active_at (self : t) (now : DateTime) (current_epoch : Z) : bool :=
  (schema self == SCHEMA) && lease_has_started (issued_at self) now && (now <? expires_at self)
  && (fencing_epoch self =? current_epoch) && (backend self == ModelBackend.LocalOllama)
  && (parallelism self == ModelParallelism.WholeModel)
  && negb (is_empty (controller_endpoint_id self)) && is_ascii (controller_endpoint_id self)
  && negb (blank (model_id self)) && is_sha256_digest (model_digest self)
  && negb (blank (runtime_digest self)) && bounded_ascii 128 (nonce self)
  && (0 <? max_prompt_bytes self) && (max_prompt_bytes self <=? MAX_MODEL_PROMPT_BYTES)
  && (0 <? max_output_tokens self) && (max_output_tokens self <=? MAX_MODEL_OUTPUT_TOKENS)
  && negb (is_empty (signature self)).
End ModelSessionLeaseV1.

(** [ModelChatMessageV1]. *)
Module ModelChatMessageV1.
Record t := mk {
  role : string;
  content : string
}.
End ModelChatMessageV1.

(** binary32 values, as the Standard Library's specification floats. *)
Definition f32_finite (f : spec_float) : bool :=
  match f with S754_zero _ | S754_finite _ _ _ => true | _ => false end.
Definition f32_one : spec_float := S754_finite false 8388608 (-23).
Definition f32_two : spec_float := S754_finite false 8388608 (-22).
(** [value.is_finite() && (0.0..=max).contains(&value)]. *)
Definition f32_within (max f : spec_float) : bool :=
  f32_finite f && SFleb (S754_zero false) f && SFleb f max.

(** [ModelInvocationRequestV1]. *)
Module ModelInvocationRequestV1.
Record t := mk {
  schema : string;
  request_id : Uuid;
  lease : ModelSessionLeaseV1.t;
  messages : list ModelChatMessageV1.t;
  max_output_tokens : Z;
  stream : bool;
  temperature : option spec_float;
  top_p : option spec_float
}.

Definition SCHEMA : string := "rampage.model-invocation-request.v1".
Definition prompt_bytes (self : t) : Z :=
  foldl (λ total m, sat_add (sat_add total (len (ModelChatMessageV1.role m)))
                      (len (ModelChatMessageV1.content m))) 0 (messages self).
Definition message_ok (m : ModelChatMessageV1.t) : bool :=
  bool_decide (ModelChatMessageV1.role m ∈ ["system"; "user"; "assistant"])
  && negb (is_empty (ModelChatMessageV1.content m)).
Definition is_valid_for (self : t) (node_id : Uuid) (controller_endpoint_id : string) : bool :=
  (schema self == SCHEMA) && (ModelSessionLeaseV1.node_id (lease self) == node_id)
  && (ModelSessionLeaseV1.controller_endpoint_id (lease self) == controller_endpoint_id)
  && negb (no_elems (messages self)) && (zlen (messages self) <=? 256)
  && forallb message_ok (messages self)
  && (prompt_bytes self <=? ModelSessionLeaseV1.max_prompt_bytes (lease self))
  && (0 <? max_output_tokens self)
  && (max_output_tokens self <=? ModelSessionLeaseV1.max_output_tokens (lease self))
  && is_none_or (f32_within f32_two) (temperature self)
  && is_none_or (f32_within f32_one) (top_p self).
End ModelInvocationRequestV1.

(** [RemoteDesktopLeaseV1]. *)
Module RemoteDesktopLeaseV1.
Record t := mk {
  schema : string;
  lease_id : Uuid;
  session_id : Uuid;
  node_id : Uuid;
  controller_endpoint_id : string;
  mode : RemoteDesktopModeV1.t;
  max_width : Z;
  max_height : Z;
  max_fps : Z;
  issued_at : DateTime;
  expires_at : DateTime;
  nonce : string;
  fencing_epoch : Z;
  signature : string
}.

Definition with_signature (s : string) (self : t) : t :=
    mk (self.(schema)) (self.(lease_id)) (self.(session_id)) (self.(node_id))
    (self.(controller_endpoint_id)) (self.(mode)) (self.(max_width)) (self.(max_height))
    (self.(max_fps)) (self.(issued_at)) (self.(expires_at)) (self.(nonce)) (self.(fencing_epoch))
    s.

Definition SCHEMA : string := "rampage.remote-desktop-lease.v1".
Definition is_active_at (self : t) (now : DateTime) (current_epoch : Z) : bool :=
  (schema self == SCHEMA) && lease_has_started (issued_at self) now && (now <? expires_at self)
  && (num_seconds (expires_at self - issued_at self) <=? MAX_REMOTE_DESKTOP_LEASE_SECONDS)
  && (fencing_epoch self =? current_epoch)
  && negb (is_empty (controller_endpoint_id self)) && is_ascii (controller_endpoint_id self)
  && in_range 1 MAX_REMOTE_DESKTOP_DIMENSION (max_width self)
  && in_range 1 MAX_REMOTE_DESKTOP_DIMENSION (max_height self)
  && in_range 1 MAX_REMOTE_DESKTOP_FPS (max_fps self)
  && bounded_ascii 128 (nonce self) && negb (is_empty (signature self)).
End RemoteDesktopLeaseV1.

(** [RemoteInputEventV1]. *)
Module RemoteInputEventV1.
Inductive t :=
| MouseMove (x y : Z)
| MouseButton (button : RemoteMouseButtonV1.t) (pressed : bool)
| MouseWheel (delta : Z)
| Key (virtual_key : Z) (pressed : bool).
Definition is_valid (self : t) : bool :=
  match self with
  | MouseMove _ _ | MouseButton _ _ => true
  | MouseWheel delta => (delta != 0) && in_range (-1920) 1920 delta
  | Key virtual_key _ => in_range 1 254 virtual_key
  end.
End RemoteInputEventV1.

(** [RemoteDesktopRequestV1]. *)
Module RemoteDesktopRequestV1.
Record t := mk {
  schema : string;
  request_id : Uuid;
  lease : RemoteDesktopLeaseV1.t;
  action : RemoteDesktopActionV1.t;
  input_sequence : option Z;
  events : list RemoteInputEventV1.t
}.

Definition SCHEMA : string := "rampage.remote-desktop-request.v1".
Definition is_valid_for (self : t) (node_id : Uuid) (controller_endpoint_id : string) : bool :=
  let input_shape :=
    match action self with
    | RemoteDesktopActionV1.Input =>
        (RemoteDesktopLeaseV1.mode (lease self) == RemoteDesktopModeV1.Control)
        && is_some_and (λ sequence, 0 <? sequence) (input_sequence self)
        && negb (no_elems (events self))
        && (zlen (events self) <=? MAX_REMOTE_DESKTOP_INPUT_EVENTS)
        && forallb RemoteInputEventV1.is_valid (events self)
    | _ => is_none (input_sequence self) && no_elems (events self)
    end in
  (schema self == SCHEMA) && (RemoteDesktopLeaseV1.node_id (lease self) == node_id)
  && (RemoteDesktopLeaseV1.controller_endpoint_id (lease self) == controller_endpoint_id)
  && input_shape.
End RemoteDesktopRequestV1.

(** [RemoteDesktopFrameV1]. *)
Module RemoteDesktopFrameV1.
Record t := mk {
  sequence : Z;
  captured_at : DateTime;
  width : Z;
  height : Z;
  media_type : string;
  payload_size : Z;
  payload_digest : string
}.

Definition is_valid_for (self : t) (lease : RemoteDesktopLeaseV1.t) : bool :=
  (0 <? sequence self)
  && (0 <? width self) && (width self <=? RemoteDesktopLeaseV1.max_width lease)
  && (0 <? height self) && (height self <=? RemoteDesktopLeaseV1.max_height lease)
  && (media_type self == "image/jpeg")
  && (0 <? payload_size self) && (payload_size self <=? MAX_REMOTE_DESKTOP_FRAME_BYTES)
  && is_sha256_digest (payload_digest self).
End RemoteDesktopFrameV1.

(** [RemoteDesktopResponseV1]. *)
Module RemoteDesktopResponseV1.
Record t := mk {
  schema : string;
  request_id : Uuid;
  status : Z;
  frame : option RemoteDesktopFrameV1.t;
  applied_events : Z;
  error : option string
}.

Definition SCHEMA : string := "rampage.remote-desktop-response.v1".
End RemoteDesktopResponseV1.

(** [EnrollmentInviteV1]. *)
Module EnrollmentInviteV1.
Record t := mk {
  schema : string;
  invite_id : Uuid;
  enrollment_code : string;
  expires_at : DateTime;
  controller_mesh : option MeshEndpointRecordV1.t;
  governor_public_key : option string
}.
End EnrollmentInviteV1.

(** [RelayAccessManifestV1]. *)
Module RelayAccessManifestV1.
Record t := mk {
  schema : string;
  fabric_id : string;
  generation : Z;
  allowed_endpoint_ids : gset string;
  issued_at : DateTime;
  expires_at : DateTime;
  signature : string
}.

Definition with_signature (s : string) (self : t) : t :=
    mk (self.(schema)) (self.(fabric_id)) (self.(generation)) (self.(allowed_endpoint_ids))
    (self.(issued_at)) (self.(expires_at)) s.

Definition SCHEMA : string := "rampage.relay-access-manifest.v1".
Definition endpoint_ok (endpoint : string) : bool :=
  (len endpoint =? 64) && all_bytes is_ascii_hexdigit endpoint.
Definition is_valid_at (self : t) (now : DateTime) : bool :=
  (schema self == SCHEMA) && is_sha256_digest (fabric_id self) && (0 <? generation self)
  && negb (bool_decide (allowed_endpoint_ids self = ∅))
  && (Z.of_nat (size (allowed_endpoint_ids self)) <=? MAX_RELAY_ENDPOINTS)
  && forallb endpoint_ok (elements (allowed_endpoint_ids self))
  && (issued_at self <=? now) && (now <? expires_at self)
  && (expires_at self - issued_at self <=? minutes 15)
  && negb (is_empty (signature self)).
End RelayAccessManifestV1.

(** [MeshControlRequestV1]. *)
Module MeshControlRequestV1.
Record t := mk {
  schema : string;
  request_id : Uuid;
  method : string;
  path : string;
  body : option Value
}.

Definition SCHEMA : string := "rampage.mesh-control-request.v1".
End MeshControlRequestV1.

(** [StorageLeaseV1]. *)
Module StorageLeaseV1.
Record t := mk {
  schema : string;
  lease_id : Uuid;
  node_id : Uuid;
  digest : string;
  operation : ArtifactTransferOperation.t;
  storage_class : StorageClass.t;
  size_bytes : Z;
  issued_at : DateTime;
  expires_at : DateTime;
  nonce : string;
  fencing_epoch : Z;
  signature : string
}.

Definition with_signature (s : string) (self : t) : t :=
    mk (self.(schema)) (self.(lease_id)) (self.(node_id)) (self.(digest)) (self.(operation))
    (self.(storage_class)) (self.(size_bytes)) (self.(issued_at)) (self.(expires_at))
    (self.(nonce)) (self.(fencing_epoch)) s.

Definition SCHEMA : string := "rampage.storage-lease.v1".
Definition is_active_at (self : t) (now : DateTime) (current_epoch : Z) : bool :=
  (schema self == SCHEMA) && lease_has_started (issued_at self) now && (now <? expires_at self)
  && (fencing_epoch self =? current_epoch) && (size_bytes self <=? MAX_ARTIFACT_TRANSFER_BYTES)
  && negb (is_empty (signature self)).
End StorageLeaseV1.

Definition expected_artifact_chunk_size (size_bytes chunk_size chunk_index : Z) : option Z :=
  if (size_bytes =? 0) || (chunk_size =? 0) then None
  else
    offset ← checked_mul chunk_index chunk_size;
    if size_bytes <=? offset then None else Some (Z.min (size_bytes - offset) chunk_size).

(** [ArtifactTransferRequestV2]. *)
Module ArtifactTransferRequestV2.
Record t := mk {
  schema : string;
  request_id : Uuid;
  session_id : Uuid;
  lease : StorageLeaseV1.t;
  media_type : string;
  action : ArtifactTransferActionV2.t;
  chunk_size : Z;
  chunk_index : option Z;
  chunk_digest : option string;
  payload_size : Z;
  challenge_nonce : string
}.

Definition SCHEMA : string := "rampage.artifact-transfer-request.v2".
Definition is_valid (self : t) : bool :=
  let l := lease self in
  if (schema self != SCHEMA) || (request_id self == nil_uuid) || (session_id self == nil_uuid)
     || (StorageLeaseV1.schema l != StorageLeaseV1.SCHEMA)
     || (StorageLeaseV1.size_bytes l =? 0)
     || (MAX_ARTIFACT_TRANSFER_BYTES <? StorageLeaseV1.size_bytes l)
     || is_empty (media_type self) || (255 <? len (media_type self))
     || negb (is_ascii (media_type self))
     || (chunk_size self != ARTIFACT_TRANSFER_CHUNK_BYTES)
     || is_empty (challenge_nonce self) || (128 <? len (challenge_nonce self))
     || negb (is_ascii (challenge_nonce self))
  then false
  else
    let chunk_count := div_ceil (StorageLeaseV1.size_bytes l) (chunk_size self) in
    match action self with
    | ArtifactTransferActionV2.Begin | ArtifactTransferActionV2.Status
    | ArtifactTransferActionV2.Commit =>
        (StorageLeaseV1.operation l == ArtifactTransferOperation.Put)
        && is_none (chunk_index self) && is_none (chunk_digest self) && (payload_size self =? 0)
    | ArtifactTransferActionV2.Head =>
        (StorageLeaseV1.operation l == ArtifactTransferOperation.Get)
        && is_none (chunk_index self) && is_none (chunk_digest self) && (payload_size self =? 0)
    | ArtifactTransferActionV2.PutChunk =>
        (StorageLeaseV1.operation l == ArtifactTransferOperation.Put)
        && is_some_and (λ index, index <? chunk_count) (chunk_index self)
        && is_some_and is_sha256_digest (chunk_digest self)
        && (payload_size self =?
              default 0 (expected_artifact_chunk_size (StorageLeaseV1.size_bytes l)
                           (chunk_size self) (default 0 (chunk_index self))))
    | ArtifactTransferActionV2.GetChunk =>
        (StorageLeaseV1.operation l == ArtifactTransferOperation.Get)
        && is_some_and (λ index, index <? chunk_count) (chunk_index self)
        && is_none (chunk_digest self) && (payload_size self =? 0)
    end.
End ArtifactTransferRequestV2.

(** [ArtifactTransferProgressV1]. *)
Module ArtifactTransferProgressV1.
Record t := mk {
  schema : string;
  session_id : Uuid;
  digest : string;
  size_bytes : Z;
  chunk_size : Z;
  chunk_count : Z;
  received_chunks : list Z;
  missing_chunks : list Z;
  complete : bool
}.

Definition SCHEMA : string := "rampage.artifact-transfer-progress.v1".
Definition is_valid (self : t) : bool :=
  (schema self == SCHEMA) && (session_id self != nil_uuid) && is_sha256_digest (digest self)
  && (0 <? size_bytes self) && (size_bytes self <=? MAX_ARTIFACT_TRANSFER_BYTES)
  && (chunk_size self =? ARTIFACT_TRANSFER_CHUNK_BYTES)
  && (chunk_count self =?
        (let n := div_ceil (size_bytes self) (chunk_size self) in
         if n <=? u32_max then n else 0))
  && forallb (λ index, index <? chunk_count self) (received_chunks self ++ missing_chunks self).
End ArtifactTransferProgressV1.

(** [ArtifactReplicaReceiptV1]. *)
Module ArtifactReplicaReceiptV1.
Record t := mk {
  schema : string;
  receipt_id : Uuid;
  session_id : Uuid;
  lease_id : Uuid;
  node_id : Uuid;
  digest : string;
  size_bytes : Z;
  storage_class : StorageClass.t;
  challenge_nonce : string;
  verified_at : DateTime;
  expires_at : DateTime;
  fencing_epoch : Z;
  signature : string
}.

Definition with_signature (s : string) (self : t) : t :=
    mk (self.(schema)) (self.(receipt_id)) (self.(session_id)) (self.(lease_id)) (self.(node_id))
    (self.(digest)) (self.(size_bytes)) (self.(storage_class)) (self.(challenge_nonce))
    (self.(verified_at)) (self.(expires_at)) (self.(fencing_epoch)) s.

Definition SCHEMA : string := "rampage.artifact-replica-receipt.v1".
Definition is_valid_at (self : t) (now : DateTime) : bool :=
  (schema self == SCHEMA) && (receipt_id self != nil_uuid) && (session_id self != nil_uuid)
  && (lease_id self != nil_uuid) && (node_id self != nil_uuid) && is_sha256_digest (digest self)
  && (0 <? size_bytes self) && (size_bytes self <=? MAX_ARTIFACT_TRANSFER_BYTES)
  && bounded_ascii 128 (challenge_nonce self)
  && (verified_at self <=? now) && (now <? expires_at self)
  && (expires_at self - verified_at self <=? minutes 15)
  && negb (is_empty (signature self)).
End ArtifactReplicaReceiptV1.

(** [EnrollmentRequestV1]. *)
Module EnrollmentRequestV1.
Record t := mk {
  schema : string;
  invite_id : Uuid;
  enrollment_code : string;
  identity : NodeIdentityV1.t;
  signature : string
}.

Definition with_signature (s : string) (self : t) : t :=
    mk (self.(schema)) (self.(invite_id)) (self.(enrollment_code)) (self.(identity)) s.
End EnrollmentRequestV1.

(** [ResourceRequestV1]. *)
Module ResourceRequestV1.
Record t := mk {
  class : ResourceClass.t;
  minimum : Z;
  preferred : Z;
  unit : string;
  required_labels : gmap string string
}.
#[global] Instance eq_dec : EqDecision t.
Proof. solve_decision. Defined.
End ResourceRequestV1.

(** [ArtifactRefV1]. *)
Module ArtifactRefV1.
Record t := mk {
  schema : string;
  digest : string;
  size_bytes : Z;
  media_type : string;
  storage_class : StorageClass.t;
  encrypted : bool
}.
#[global] Instance eq_dec : EqDecision t.
Proof. solve_decision. Defined.
End ArtifactRefV1.

(** [JobSpecV1]. *)
Module JobSpecV1.
Record t := mk {
  schema : string;
  job_id : Uuid;
  project_id : Uuid;
  submitted_by : Uuid;
  adapter : string;
  operation : string;
  arguments : gmap string string;
  inputs : list ArtifactRefV1.t;
  requests : list ResourceRequestV1.t;
  trust : WorkloadTrust.t;
  restart_tolerant : bool;
  network_allowlist : gset string;
  deadline : DateTime;
  idempotency_key : string
}.

Definition SCHEMA : string := "rampage.job-spec.v1".
#[global] Instance eq_dec : EqDecision t.
Proof. solve_decision. Defined.
Definition validate_at (self : t) (now : DateTime) : result ContractError.t () :=
  if schema self != SCHEMA then Err (ContractError.WrongSchema SCHEMA (schema self))
  else if deadline self <=? now then Err ContractError.DeadlineExpired
  else if blank (idempotency_key self) then Err ContractError.EmptyIdempotencyKey
  else if existsb (λ r, ResourceRequestV1.preferred r <? ResourceRequestV1.minimum r) (requests self)
  then Err ContractError.InvalidResourceRange
  else Ok ().
End JobSpecV1.

(** [ShardSetV1]. *)
Module ShardSetV1.
Record t := mk {
  schema : string;
  set_id : Uuid;
  project_id : Uuid;
  submitted_by : Uuid;
  shards : list JobSpecV1.t;
  minimum_successes : Z;
  deadline : DateTime;
  idempotency_key : string
}.

Definition SCHEMA : string := "rampage.shard-set.v1".
(** The body of the [for shard in &self.shards] loop; the accumulator holds the
    [job_ids] and [idempotency_keys] seen so far. *)
Definition check_shard (self : t) (now : DateTime) (acc : gset Uuid * gset string)
    (shard : JobSpecV1.t) : result ContractError.t (gset Uuid * gset string) :=
  let '(job_ids, keys) := acc in
  _ ← JobSpecV1.validate_at shard now;
  if (JobSpecV1.project_id shard != project_id self)
     || (JobSpecV1.submitted_by shard != submitted_by self)
  then Err ContractError.ShardOwnershipMismatch
  else if negb (JobSpecV1.restart_tolerant shard) || (deadline self <? JobSpecV1.deadline shard)
  then Err ContractError.UnsafeShardLifecycle
  else if bool_decide (JobSpecV1.job_id shard ∈ job_ids)
          || bool_decide (JobSpecV1.idempotency_key shard ∈ keys)
  then Err ContractError.DuplicateShardIdentity
  else Ok ({[JobSpecV1.job_id shard]} ∪ job_ids, {[JobSpecV1.idempotency_key shard]} ∪ keys).
Definition validate_at (self : t) (now : DateTime) : result ContractError.t () :=
  if schema self != SCHEMA then Err (ContractError.WrongSchema SCHEMA (schema self))
  else if deadline self <=? now then Err ContractError.DeadlineExpired
  else if blank (idempotency_key self) then Err ContractError.EmptyIdempotencyKey
  else if no_elems (shards self) || (MAX_SHARDS_PER_SET <? zlen (shards self))
  then Err ContractError.InvalidShardCount
  else if (minimum_successes self =? 0) || (zlen (shards self) <? minimum_successes self)
  then Err ContractError.InvalidSuccessThreshold
  else
    _ ← try_fold (check_shard self now) (∅, ∅) (shards self);
    Ok ().
End ShardSetV1.

(** [CapabilityLeaseV1]. *)
Module CapabilityLeaseV1.
Record t := mk {
  schema : string;
  lease_id : Uuid;
  job_id : Uuid;
  node_id : Uuid;
  project_id : Uuid;
  adapter : string;
  operation : string;
  input_digests : gset string;
  granted : list ResourceQuantityV1.t;
  network_allowlist : gset string;
  issued_at : DateTime;
  expires_at : DateTime;
  nonce : string;
  fencing_epoch : Z;
  signature : string
}.

Definition with_signature (s : string) (self : t) : t :=
    mk (self.(schema)) (self.(lease_id)) (self.(job_id)) (self.(node_id)) (self.(project_id))
    (self.(adapter)) (self.(operation)) (self.(input_digests)) (self.(granted))
    (self.(network_allowlist)) (self.(issued_at)) (self.(expires_at)) (self.(nonce))
    (self.(fencing_epoch)) s.

Definition SCHEMA : string := "rampage.capability-lease.v1".
Definition is_active_at (self : t) (now : DateTime) (current_epoch : Z) : bool :=
  (schema self == SCHEMA) && lease_has_started (issued_at self) now && (now <? expires_at self)
  && (fencing_epoch self =? current_epoch) && negb (is_empty (signature self)).
End CapabilityLeaseV1.

(** [ExecutionReceiptV1]. *)
Module ExecutionReceiptV1.
Record t := mk {
  schema : string;
  receipt_id : Uuid;
  lease_id : Uuid;
  job_id : Uuid;
  node_id : Uuid;
  state : JobState.t;
  started_at : DateTime;
  finished_at : DateTime;
  outputs : list ArtifactRefV1.t;
  metrics : gmap string spec_float;
  stdout_digest : option string;
  stderr_digest : option string;
  result : option Value;
  signature : string
}.

Definition with_signature (s : string) (self : t) : t :=
    mk (self.(schema)) (self.(receipt_id)) (self.(lease_id)) (self.(job_id)) (self.(node_id))
    (self.(state)) (self.(started_at)) (self.(finished_at)) (self.(outputs)) (self.(metrics))
    (self.(stdout_digest)) (self.(stderr_digest)) (self.(result)) s.
End ExecutionReceiptV1.

(** [WorkClaimV1]. *)
Module WorkClaimV1.
Record t := mk {
  schema : string;
  job : JobSpecV1.t;
  lease : CapabilityLeaseV1.t;
  governor_public_key : string
}.

Definition SCHEMA : string := "rampage.work-claim.v1".
End WorkClaimV1.

(** [ModelUsageV1]. *)
Module ModelUsageV1.
Record t := mk {
  prompt_tokens : Z;
  completion_tokens : Z
}.
End ModelUsageV1.

(** [ModelExecutionReceiptV1]. *)
Module ModelExecutionReceiptV1.
Record t := mk {
  schema : string;
  receipt_id : Uuid;
  lease_id : Uuid;
  session_id : Uuid;
  request_id : Uuid;
  node_id : Uuid;
  state : JobState.t;
  started_at : DateTime;
  finished_at : DateTime;
  output_digest : string;
  output_bytes : Z;
  usage : option ModelUsageV1.t;
  error : option string;
  signature : string
}.

Definition with_signature (s : string) (self : t) : t :=
    mk (self.(schema)) (self.(receipt_id)) (self.(lease_id)) (self.(session_id))
    (self.(request_id)) (self.(node_id)) (self.(state)) (self.(started_at)) (self.(finished_at))
    (self.(output_digest)) (self.(output_bytes)) (self.(usage)) (self.(error)) s.

Definition SCHEMA : string := "rampage.model-execution-receipt.v1".
End ModelExecutionReceiptV1.

(** [ModelInvocationFrameV1]. *)
Module ModelInvocationFrameV1.
Record t := mk {
  schema : string;
  request_id : Uuid;
  sequence : Z;
  kind : ModelInvocationFrameKind.t;
  content : string;
  finish_reason : option string;
  error : option string;
  receipt : option ModelExecutionReceiptV1.t
}.

Definition SCHEMA : string := "rampage.model-invocation-frame.v1".
End ModelInvocationFrameV1.

(** [MeshControlResponseV1]. *)
Module MeshControlResponseV1.
Record t := mk {
  schema : string;
  request_id : Uuid;
  status : Z;
  body : Value
}.

Definition SCHEMA : string := "rampage.mesh-control-response.v1".
End MeshControlResponseV1.

(** [ArtifactTransferRequestV1]. *)
Module ArtifactTransferRequestV1.
Record t := mk {
  schema : string;
  request_id : Uuid;
  lease : StorageLeaseV1.t;
  media_type : string
}.

Definition SCHEMA : string := "rampage.artifact-transfer-request.v1".
End ArtifactTransferRequestV1.

(** [ArtifactTransferResponseV1]. *)
Module ArtifactTransferResponseV1.
Record t := mk {
  schema : string;
  request_id : Uuid;
  status : Z;
  artifact : option ArtifactRefV1.t;
  payload_size : Z;
  error : option string
}.

Definition SCHEMA : string := "rampage.artifact-transfer-response.v1".
End ArtifactTransferResponseV1.

(** [ArtifactTransferResponseV2]. *)
Module ArtifactTransferResponseV2.
Record t := mk {
  schema : string;
  request_id : Uuid;
  status : Z;
  artifact : option ArtifactRefV1.t;
  progress : option ArtifactTransferProgressV1.t;
  chunk_index : option Z;
  chunk_digest : option string;
  payload_size : Z;
  replica_receipt : option ArtifactReplicaReceiptV1.t;
  error : option string
}.

Definition SCHEMA : string := "rampage.artifact-transfer-response.v2".
End ArtifactTransferResponseV2.

(** [EvidenceBundleV1]. *)
Module EvidenceBundleV1.
Record t := mk {
  schema : string;
  evidence_id : Uuid;
  subject_digest : string;
  preregistration_digest : string;
  receipts : list ExecutionReceiptV1.t;
  holdout_digest : option string;
  replication_node_ids : gset Uuid;
  gates_passed : gset string;
  created_at : DateTime
}.
End EvidenceBundleV1.

