(* ===== verification/Wire.v ===== *)
(** * JSON values of the contracts, and the text of identifiers

    [Wire] is [serde_json::to_value] and [from_value] through the derived serializers of a
    contract, [Render] the text forms of identifiers and timestamps.  [JsonLaws] and
    [FaithfulWire] state what serde_json documents about values that are printed and parsed
    again, which is what a ledger payload goes through between [append] and a query. *)

From S2P Require Import Prelude.
From S2P Require Import Codec.
From S2P Require Import Contracts.

#[global] Instance value_eq_dec : EqDecision Value.
Proof.
  intros a b. destruct (decide (Reference.to_tree a = Reference.to_tree b)) as [H|H].
  - left. apply (f_equal Reference.of_tree) in H. rewrite !Reference.of_to_tree in H. by injection H.
  - right. by intros ->.
Defined.

(** [Value::get(key)] and [Value::as_str]. *)
Definition field (key : string) (v : Value) : option Value :=
  match v with
  | VObject m => snd <$> List.find (λ kv, kv.1 == key) m
  | _ => None
  end.
Definition as_array (v : Value) : option (list Value) := match v with VArray l => Some l | _ => None end.
Definition as_str (v : Value) : option string :=
  match v with VString s => Some s | _ => None end.

(** [v.get(key).and_then(Value::as_str)]. *)
Definition field_str (key : string) (v : Value) : option string :=
  match field key v with Some v => as_str v | None => None end.
(** [Value::as_u64]. *)
Definition as_u64 (v : Value) : option Z :=
  match v with VInt n => if in_range 0 u64_max n then Some n else None | _ => None end.

(** Text of a [Uuid] (hyphenated), its parser, and the JSON text of a [DateTime<Utc>]. *)
Class Render := {
  uuid_to_string : Uuid → string;
  uuid_parse : string → option Uuid;
  datetime_to_json : DateTime → string
}.

Class RenderLaws (render : Render) : Prop := {
  uuid_roundtrip u : uuid_parse (uuid_to_string u) = Some u
}.

Class Wire (A : Type) := {
  to_value : A → Value;
  from_value : Value → option A
}.

Section wire.
Context {codec : Codec}.

(** What a payload reads back as. *)
Definition reparse (v : Value) : option Value := json_from_str (json_to_string v).

Class JsonLaws : Prop := {
  json_object_inv m v : NoDup m.*1 → reparse (VObject m) = Some v →
    ∃ m', v = VObject m' ∧ ∀ key, field key (VObject m') = (field key (VObject m) ≫= reparse);
  json_array_inv l v : reparse (VArray l) = Some v →
    ∃ l', v = VArray l' ∧ Forall2 (λ v v', reparse v = Some v') l l'
}.

(** A derived serializer: what a printed contract reads back as is that contract. *)
Class FaithfulWire (A : Type) {w : Wire A} : Prop :=
  wire_faithful (x y : A) v : reparse (to_value x) = Some v → from_value v = Some y → y = x.

(** [serde_json::from_value::<Vec<A>>]. *)
Definition list_from_value `{Wire A} (v : Value) : option (list A) :=
  match v with VArray l => mapM from_value l | _ => None end.
Definition list_to_value `{Wire A} (l : list A) : Value := VArray (to_value <$> l).

Lemma list_faithful {laws : JsonLaws} `{FaithfulWire A} (l k : list A) v :
  reparse (list_to_value l) = Some v → list_from_value v = Some k → k = l.
Proof.
  intros (vs & -> & Hvs)%json_array_inv. cbn. rewrite mapM_Some. intros Hk.
  revert vs Hvs k Hk. induction l as [|x l IH]; intros vs Hvs k Hk.
  - apply Forall2_nil_inv_l in Hvs as ->. by apply Forall2_nil_inv_l in Hk.
  - apply Forall2_cons_inv_l in Hvs as (v & vs' & Hv & Hvs & ->).
    apply Forall2_cons_inv_l in Hk as (y & k' & Hy & Hk & ->).
    f_equal; [by eapply wire_faithful|by eapply IH].
Qed.
End wire.
Arguments JsonLaws codec : clear implicits.

(** ** A concrete instance *)

Module ReferenceWire.
Import Reference.

Lemma reference_reparse v : reparse (codec := reference_codec) v = Some v.
Proof. apply reference_stable. Qed.

#[export] Instance reference_json_laws : JsonLaws reference_codec.
Proof.
  split.
  - intros m v _. rewrite reference_reparse. intros [= <-]. exists m. split; [done|].
    intros key. destruct (field key (VObject m)) as [v|]; [|done]. symmetry. apply reference_reparse.
  - intros l v. rewrite reference_reparse. intros [= <-]. exists l. split; [done|].
    apply Forall2_same_length_lookup_2; [done|]. intros i x y Hx Hy. rewrite reference_reparse. congruence.
Qed.
End ReferenceWire.
