(* ===== verification/ContractFacts.v ===== *)
(** * What the contract validators guarantee

    Facts about rampage-protocol's validation methods: a shard set that validates
    is a bounded set of distinct, owned, retry-safe jobs; a promotion candidate that
    validates carries each required gate exactly once; the chunk sizes of a transfer
    partition the artifact. *)

From S2P Require Import Prelude.
From S2P Require Import Text.
From S2P Require Import Contracts.
Import Text.

(** ** Specifications *)

(** A job a shard set may contain. *)
Definition shard_ok (set : ShardSetV1.t) (now : DateTime) (shard : JobSpecV1.t) : Prop :=
  JobSpecV1.validate_at shard now = Ok () ∧
  JobSpecV1.project_id shard = ShardSetV1.project_id set ∧
  JobSpecV1.submitted_by shard = ShardSetV1.submitted_by set ∧
  JobSpecV1.restart_tolerant shard = true ∧
  JobSpecV1.deadline shard ≤ ShardSetV1.deadline set.

(** The declared sizes of all chunks of an artifact. *)
Definition chunk_sizes (size chunk : Z) : list Z :=
  (λ i, default 0 (expected_artifact_chunk_size size chunk i)) <$> seqZ 0 (div_ceil size chunk).

(** ** Jobs and shard sets *)

Lemma job_deadline job now : JobSpecV1.validate_at job now = Ok () → now < JobSpecV1.deadline job.
Proof. unfold JobSpecV1.validate_at. rewrite !guard_ok, Z.leb_gt. tauto. Qed.

Lemma check_shard_ok set now ids keys shard acc :
  ShardSetV1.check_shard set now (ids, keys) shard = Ok acc ↔
  shard_ok set now shard ∧ JobSpecV1.job_id shard ∉ ids ∧
  JobSpecV1.idempotency_key shard ∉ keys ∧
  acc = ({[JobSpecV1.job_id shard]} ∪ ids, {[JobSpecV1.idempotency_key shard]} ∪ keys).
Proof.
  unfold ShardSetV1.check_shard, shard_ok. split.
  - intros ([] & Hv & H)%bind_ok_inv. repeat (case_match; [done|]). bool_prop.
    injection H as <-. by split_and!.
  - intros ((Hv & Hp & Hs & Hr & Hd) & Hid & Hkey & ->). rewrite Hv. cbn [mbind result_bind].
    rewrite !bool_decide_true by done. cbn [negb orb]. rewrite Hr. cbn [negb orb].
    rewrite (proj2 (Z.ltb_ge _ _)) by lia. by rewrite !bool_decide_false by done.
Qed.

Lemma check_shards_ok set now ids keys shards acc :
  try_fold (ShardSetV1.check_shard set now) (ids, keys) shards = Ok acc →
  Forall (shard_ok set now) shards ∧
  NoDup (JobSpecV1.job_id <$> shards) ∧ NoDup (JobSpecV1.idempotency_key <$> shards) ∧
  Forall (λ s, JobSpecV1.job_id s ∉ ids ∧ JobSpecV1.idempotency_key s ∉ keys) shards.
Proof.
  revert ids keys. induction shards as [|s shards IH]; intros ids keys; [by repeat constructor|].
  cbn [try_fold]. intros ([ids' keys'] & Hs & Hrest)%bind_ok_inv.
  apply check_shard_ok in Hs as (Hok & Hid & Hkey & [= -> ->]).
  apply IH in Hrest as (Hall & Hids & Hkeys & Hfresh).
  split_and!; [by constructor| | |].
  1,2: constructor; [|done]; intros (s' & Heq & Hs')%list_elem_of_fmap;
    rewrite Forall_forall in Hfresh; specialize (Hfresh s' Hs'); set_solver.
  constructor; [done|]. eapply Forall_impl; [done|]. set_solver.
Qed.

Lemma check_shards_complete set now ids keys shards :
  Forall (shard_ok set now) shards →
  NoDup (JobSpecV1.job_id <$> shards) → NoDup (JobSpecV1.idempotency_key <$> shards) →
  Forall (λ s, JobSpecV1.job_id s ∉ ids ∧ JobSpecV1.idempotency_key s ∉ keys) shards →
  is_ok (try_fold (ShardSetV1.check_shard set now) (ids, keys) shards) = true.
Proof.
  revert ids keys. induction shards as [|s shards IH]; intros ids keys; [done|].
  rewrite !fmap_cons, !NoDup_cons, !Forall_cons.
  intros [Hs Hall] [Hid Hids] [Hkey Hkeys] [[Hi Hk] Hfresh]. cbn [try_fold].
  rewrite (proj2 (check_shard_ok set now ids keys s _)) by eauto. cbn [mbind result_bind].
  apply IH; [done..|]. rewrite Forall_forall in *. intros s' Hs'.
  specialize (Hfresh s' Hs'). rewrite !not_elem_of_union, !not_elem_of_singleton.
  destruct Hfresh as [? ?].
  split; (split; [intros Heq|done]); [apply Hid|apply Hkey]; rewrite <-Heq;
    by apply list_elem_of_fmap_2.
Qed.

Lemma shard_set_spec set now :
  ShardSetV1.validate_at set now = Ok () ↔
  ShardSetV1.schema set = ShardSetV1.SCHEMA ∧ now < ShardSetV1.deadline set ∧
  blank (ShardSetV1.idempotency_key set) = false ∧
  1 ≤ zlen (ShardSetV1.shards set) ≤ MAX_SHARDS_PER_SET ∧
  ShardSetV1.minimum_successes set ≠ 0 ∧
  ShardSetV1.minimum_successes set ≤ zlen (ShardSetV1.shards set) ∧
  Forall (shard_ok set now) (ShardSetV1.shards set) ∧
  NoDup (JobSpecV1.job_id <$> ShardSetV1.shards set) ∧
  NoDup (JobSpecV1.idempotency_key <$> ShardSetV1.shards set).
Proof.
  unfold ShardSetV1.validate_at. split.
  - intros H. repeat (case_match; [done|]). bool_prop.
    apply bind_ok_inv in H as ([ids keys] & H & _).
    apply check_shards_ok in H as (? & ? & ? & _). split_and!; try done.
    destruct (ShardSetV1.shards set); [done|]. unfold zlen. simpl. lia.
  - intros (Hs & Hd & Hk & Hn & Hm & Hm' & Hall & Hids & Hkeys).
    rewrite bool_decide_true by done. cbn [negb].
    rewrite (proj2 (Z.leb_gt _ _)) by lia. rewrite Hk.
    destruct (ShardSetV1.shards set) as [|s shards] eqn:E; [unfold zlen in Hn; simpl in Hn; lia|].
    cbn [no_elems orb]. rewrite (proj2 (Z.ltb_ge _ _)) by lia.
    rewrite (proj2 (Z.eqb_neq _ _)) by lia. cbn [orb]. rewrite (proj2 (Z.ltb_ge _ _)) by lia.
    pose proof (check_shards_complete set now ∅ ∅ (s :: shards) Hall Hids Hkeys) as H.
    destruct (try_fold _ _ _); [done|]. discriminate H.
    rewrite Forall_forall. set_solver.
Qed.

(** [ShardSetV1::validate_at] accepts exactly the sets whose schema, deadline, key,
    size and threshold are in bounds, whose jobs each validate, belong to the set's owner,
    are restart tolerant and expire no later than the set, and whose job ids and
    idempotency keys are pairwise distinct. *)
Theorem shard_set_validate_iff set now :
  ShardSetV1.validate_at set now = Ok () ↔
  ShardSetV1.schema set = ShardSetV1.SCHEMA ∧ now < ShardSetV1.deadline set ∧
  blank (ShardSetV1.idempotency_key set) = false ∧
  1 ≤ zlen (ShardSetV1.shards set) ≤ MAX_SHARDS_PER_SET ∧
  ShardSetV1.minimum_successes set ≠ 0 ∧
  ShardSetV1.minimum_successes set ≤ zlen (ShardSetV1.shards set) ∧
  Forall (shard_ok set now) (ShardSetV1.shards set) ∧
  NoDup (JobSpecV1.job_id <$> ShardSetV1.shards set) ∧
  NoDup (JobSpecV1.idempotency_key <$> ShardSetV1.shards set).
Proof. apply shard_set_spec. Qed.

(** ** Promotion candidates *)

Lemma covers_permutation (names required : list string) :
  NoDup required → length names = length required →
  (∀ r, r ∈ required → r ∈ names) → names ≡ₚ required.
Proof.
  intros Hnd Hlen Hin. symmetry. apply submseteq_length_Permutation; [|lia].
  by apply NoDup_submseteq.
Qed.

(** A promotion candidate that validates carries each of the eight required gates
    exactly once and nothing else, every gate passed with a SHA-256 evidence digest, and
    the replication gate is independent. *)
Theorem candidate_gates_exact c now :
  PromotionCandidateV1.is_valid_at c now = true →
  (PromotionEvidenceGateV1.name <$> PromotionCandidateV1.gates c)
    ≡ₚ PromotionCandidateV1.REQUIRED_GATES ∧
  ∀ g, g ∈ PromotionCandidateV1.gates c →
    PromotionEvidenceGateV1.passed g = true ∧
    is_sha256_digest (PromotionEvidenceGateV1.evidence_digest g) = true ∧
    (PromotionEvidenceGateV1.name g = "g5_independent_replication" →
     PromotionEvidenceGateV1.independent g = true).
Proof.
  unfold PromotionCandidateV1.is_valid_at. intros H. bool_prop. split.
  - apply covers_permutation; [apply (bool_decide_unpack _); vm_compute; exact I| |].
    + rewrite length_fmap. unfold zlen in *. lia.
    + intros r Hr.
      match goal with H : forallb _ PromotionCandidateV1.REQUIRED_GATES = true |- _ =>
        apply (forallb_elem _ _ _ H) in Hr end.
      bool_prop. by apply elem_of_list_to_set in Hr.
  - intros g Hg. eapply forallb_elem in Hg; [|done].
    unfold PromotionCandidateV1.gate_ok in Hg. apply andb_prop in Hg as [Hg Hi].
    apply andb_prop in Hg as [? ?]. split_and!; [done..|]. intros Hname.
    by rewrite bool_decide_true in Hi.
Qed.

(** ** Chunk sizes *)

Lemma expected_chunk_some size chunk i :
  0 < size ≤ MAX_ARTIFACT_TRANSFER_BYTES → 0 < chunk → 0 ≤ i < div_ceil size chunk →
  expected_artifact_chunk_size size chunk i = Some (Z.min (size - i * chunk) chunk).
Proof.
  intros Hs Hc Hi. unfold expected_artifact_chunk_size, checked_mul.
  assert (i * chunk < size) as Hlt by (apply div_ceil_lt_iff; lia).
  rewrite (proj2 (Z.eqb_neq size 0)), (proj2 (Z.eqb_neq chunk 0)) by lia. cbn [orb].
  unfold MAX_ARTIFACT_TRANSFER_BYTES, u64_max in *.
  rewrite (proj2 (Z.leb_le (i * chunk) _)) by lia. cbn.
  by rewrite (proj2 (Z.leb_gt _ _)) by lia.
Qed.

Lemma seqZ_snoc n : 0 ≤ n → seqZ 0 (n + 1) = seqZ 0 n ++ [n].
Proof. intros Hn. rewrite seqZ_app by lia. rewrite (seqZ_cons (0 + n)), (seqZ_nil (Z.succ _)) by lia. done. Qed.

Lemma zsum_chunks size chunk n :
  0 < chunk → (Z.of_nat n - 1) * chunk < size → (0 < n)%nat →
  zsum ((λ i, Z.min (size - i * chunk) chunk) <$> seqZ 0 (Z.of_nat n)) =
    Z.min size (Z.of_nat n * chunk).
Proof.
  intros Hc. induction n as [|n IH]; [lia|]. intros Hs _.
  rewrite Nat2Z.inj_succ, <-Z.add_1_r, seqZ_snoc, fmap_app, fmap_cons, fmap_nil, zsum_snoc by lia.
  destruct n as [|n]; [rewrite (seqZ_nil 0 (Z.of_nat 0)) by lia; cbn; lia|].
  assert ((Z.of_nat (S n) - 1) * chunk < size) as Hn by nia.
  rewrite IH by first [exact Hn|lia]. rewrite Z.mul_add_distr_r.
  assert (Z.of_nat (S n) * chunk < size) by (revert Hs; rewrite !Nat2Z.inj_succ; nia). lia.
Qed.

(** The chunk sizes of an artifact within the transfer limit partition it: each
    index below the chunk count has a size in [1, chunk], only the last may be short, and
    the sizes sum to the artifact size; an index at or above the count has none. *)
Theorem chunk_sizes_partition size chunk :
  0 < size ≤ MAX_ARTIFACT_TRANSFER_BYTES → 0 < chunk ≤ u32_max →
  zsum (chunk_sizes size chunk) = size ∧
  (∀ i, 0 ≤ i < div_ceil size chunk → ∃ n, expected_artifact_chunk_size size chunk i = Some n ∧
     0 < n ≤ chunk ∧ (i + 1 < div_ceil size chunk → n = chunk)) ∧
  (∀ i, div_ceil size chunk ≤ i ≤ u32_max → expected_artifact_chunk_size size chunk i = None).
Proof.
  intros Hs Hc. pose proof (div_ceil_bounds size chunk) as Hb.
  assert (0 < div_ceil size chunk) by nia. split_and!.
  - unfold chunk_sizes.
    rewrite (list_fmap_ext _ (λ i, Z.min (size - i * chunk) chunk)).
    + rewrite <-(Z2Nat.id (div_ceil size chunk)) by lia. rewrite zsum_chunks; [|nia..].
      rewrite Z2Nat.id by lia. nia.
    + intros k i Hi. apply lookup_seqZ in Hi as [-> ?].
      by rewrite expected_chunk_some by lia.
  - intros i Hi. exists (Z.min (size - i * chunk) chunk).
    split; [apply expected_chunk_some; lia|].
    assert (i * chunk < size) by (apply div_ceil_lt_iff; lia). split; [lia|].
    intros Hlast. assert ((i + 1) * chunk < size) by (apply div_ceil_lt_iff; lia). nia.
  - intros i Hi. unfold expected_artifact_chunk_size, checked_mul.
    rewrite (proj2 (Z.eqb_neq size 0)), (proj2 (Z.eqb_neq chunk 0)) by lia. cbn [orb].
    destruct (i * chunk <=? u64_max); cbn; [|done].
    rewrite (proj2 (Z.leb_le _ _)); [done|]. nia.
Qed.

(** ** Concrete instances *)

Module Witness.

Definition digest : string :=
  "sha256:0123456789abcdef0123456789abcdef0123456789abcdef0123456789abcdef".

Definition candidate : PromotionCandidateV1.t :=
  PromotionCandidateV1.mk PromotionCandidateV1.SCHEMA 1 2 "main" digest ["prompts/a.txt"]
    PromotionRiskV1.R0Configuration
    ((λ n, PromotionEvidenceGateV1.mk n true digest true) <$>
       reverse PromotionCandidateV1.REQUIRED_GATES)
    0 (minutes 20).

Lemma candidate_gates_exact_witness :
  PromotionCandidateV1.is_valid_at candidate 5 = true ∧
  (PromotionEvidenceGateV1.name <$> PromotionCandidateV1.gates candidate)
    ≡ₚ PromotionCandidateV1.REQUIRED_GATES.
Proof.
  split; [vm_compute; reflexivity|].
  apply (candidate_gates_exact candidate 5). vm_compute. reflexivity.
Defined.

Lemma chunk_sizes_partition_witness :
  zsum (chunk_sizes (10 * 1024 * 1024) ARTIFACT_TRANSFER_CHUNK_BYTES) = 10 * 1024 * 1024 ∧
  expected_artifact_chunk_size (10 * 1024 * 1024) ARTIFACT_TRANSFER_CHUNK_BYTES 3 = None.
Proof.
  destruct (chunk_sizes_partition (10 * 1024 * 1024) ARTIFACT_TRANSFER_CHUNK_BYTES)
    as (Hsum & _ & Hnone).
  - unfold MAX_ARTIFACT_TRANSFER_BYTES. lia.
  - unfold ARTIFACT_TRANSFER_CHUNK_BYTES, u32_max. lia.
  - split; [exact Hsum|]. apply Hnone.
    unfold div_ceil, ARTIFACT_TRANSFER_CHUNK_BYTES, u32_max. vm_compute. split; discriminate.
Defined.

End Witness.
