(* ===== verification/Signing.v ===== *)
(** * Signed contracts (crates/rampage-policy, signature functions)

    ed25519-dalek, hex, uuid and the derived serializers are parameters: the classes
    [Crypto] and [Serializer], with the documented behaviour in [CryptoLaws].  The
    class [Contract] is what every signed struct has in common, a signature field that
    is cleared before the contract is hashed. *)

From S2P Require Import Prelude.
From S2P Require Import Codec.
From S2P Require Import Text.
From S2P Require Import Contracts.
Import Text.

(** [Denial]. *)
Module Denial.
Inductive t :=
| KillLatch
| AdapterDenied
| OfferAdapterMismatch
| WorkloadCapabilityMismatch
| OfferResourceMismatch
| AdapterResourceDenied
| OfferExpired
| InvalidJob (error : string)
| NodeMismatch
| MobileRequiresRestartTolerance
| MobileAdapterDenied
| MobileForegroundRequired
| MobileBatteryDenied
| MobileThermalDenied
| DeadlineTooFar
| AutonomousAuthorityDenied
| AutopilotNotEnabled
| DiagnosticActionDenied
| InvalidPromotionEvidence
| PromotionRiskMismatch
| InvalidSignature
| InvalidIdentity
| InvalidArtifact
| StorageCapacityDenied
| ModelRuntimeDenied
| InvalidModelSession
| RemoteDesktopDenied
| InvalidRemoteDesktopLimits.
#[global] Instance eq_dec : EqDecision t.
Proof. solve_decision. Defined.
End Denial.

(** ** Parameters *)

Class Crypto := {
  SigningKey : Type;
  verifying_key : SigningKey → string;             (* signing_key.verifying_key().to_bytes() *)
  key_from_bytes : string → bool;                  (* VerifyingKey::from_bytes succeeds *)
  sign_bytes : SigningKey → string → string;       (* signing_key.sign(m).to_bytes() *)
  verify_bytes : string → string → string → bool;  (* verifying_key.verify(m, signature) *)
  hex_decode : string → option string;             (* hex::decode *)
  uuid_simple : Uuid → string                      (* uuid.simple().to_string() *)
}.

Class CryptoLaws (codec : Codec) (crypto : Crypto) : Prop := {
  verifying_key_length k : String.length (verifying_key k) = 32%nat;
  verifying_key_valid k : key_from_bytes (verifying_key k) = true;
  signature_length k m : String.length (sign_bytes k m) = 64%nat;
  verify_sign k m : verify_bytes (verifying_key k) m (sign_bytes k m) = true;
  hex_decode_encode s : hex_decode (hex_encode s) = Some s;
  hex_length s : String.length (hex_encode s) = (2 * String.length s)%nat;
  hex_digits s : all_bytes lower_hex_byte (hex_encode s) = true;
  sha256_length s : String.length (sha256 s) = 32%nat;
  uuid_simple_length u : String.length (uuid_simple u) = 32%nat;
  uuid_simple_ascii u : is_ascii (uuid_simple u) = true
}.

(** [serde_json::to_vec] at each signed contract, through its derived [Serialize]. *)
Class Serializer := {
  ser_canary : PromotionCanaryLeaseV1.t → string;
  ser_mesh : MeshEndpointRecordV1.t → string;
  ser_offer : ResourceOfferV1.t → string;
  ser_model_lease : ModelSessionLeaseV1.t → string;
  ser_desktop_lease : RemoteDesktopLeaseV1.t → string;
  ser_manifest : RelayAccessManifestV1.t → string;
  ser_storage_lease : StorageLeaseV1.t → string;
  ser_replica : ArtifactReplicaReceiptV1.t → string;
  ser_enrollment : EnrollmentRequestV1.t → string;
  ser_lease : CapabilityLeaseV1.t → string;
  ser_receipt : ExecutionReceiptV1.t → string;
  ser_model_receipt : ModelExecutionReceiptV1.t → string
}.

(** ** What the signed structs share *)

Class Contract (T : Type) := {
  signature_of : T → string;
  set_signature : string → T → T;
  to_vec : T → string;
  signature_set s c : signature_of (set_signature s c) = s;
  set_set s s' c : set_signature s (set_signature s' c) = set_signature s c
}.

Section contracts.
Context {ser : Serializer}.
#[local] Ltac contract sig set ser :=
  by refine {| signature_of := sig; set_signature := set; to_vec := ser |}.
#[global] Instance canary_contract : Contract PromotionCanaryLeaseV1.t.
Proof. contract PromotionCanaryLeaseV1.signature PromotionCanaryLeaseV1.with_signature ser_canary. Defined.
#[global] Instance mesh_contract : Contract MeshEndpointRecordV1.t.
Proof. contract MeshEndpointRecordV1.signature MeshEndpointRecordV1.with_signature ser_mesh. Defined.
#[global] Instance offer_contract : Contract ResourceOfferV1.t.
Proof. contract ResourceOfferV1.signature ResourceOfferV1.with_signature ser_offer. Defined.
#[global] Instance model_lease_contract : Contract ModelSessionLeaseV1.t.
Proof. contract ModelSessionLeaseV1.signature ModelSessionLeaseV1.with_signature ser_model_lease. Defined.
#[global] Instance desktop_lease_contract : Contract RemoteDesktopLeaseV1.t.
Proof. contract RemoteDesktopLeaseV1.signature RemoteDesktopLeaseV1.with_signature ser_desktop_lease. Defined.
#[global] Instance manifest_contract : Contract RelayAccessManifestV1.t.
Proof. contract RelayAccessManifestV1.signature RelayAccessManifestV1.with_signature ser_manifest. Defined.
#[global] Instance storage_lease_contract : Contract StorageLeaseV1.t.
Proof. contract StorageLeaseV1.signature StorageLeaseV1.with_signature ser_storage_lease. Defined.
#[global] Instance replica_contract : Contract ArtifactReplicaReceiptV1.t.
Proof. contract ArtifactReplicaReceiptV1.signature ArtifactReplicaReceiptV1.with_signature ser_replica. Defined.
#[global] Instance enrollment_contract : Contract EnrollmentRequestV1.t.
Proof. contract EnrollmentRequestV1.signature EnrollmentRequestV1.with_signature ser_enrollment. Defined.
#[global] Instance lease_contract : Contract CapabilityLeaseV1.t.
Proof. contract CapabilityLeaseV1.signature CapabilityLeaseV1.with_signature ser_lease. Defined.
#[global] Instance receipt_contract : Contract ExecutionReceiptV1.t.
Proof. contract ExecutionReceiptV1.signature ExecutionReceiptV1.with_signature ser_receipt. Defined.
#[global] Instance model_receipt_contract : Contract ModelExecutionReceiptV1.t.
Proof. contract ModelExecutionReceiptV1.signature ModelExecutionReceiptV1.with_signature ser_model_receipt. Defined.
End contracts.

Section signing.
Context {codec : Codec} {crypto : Crypto} {ser : Serializer}.

(** ** Messages and raw verification *)

Definition contract_message `{Contract T} (contract : T) : string := sha256 (to_vec contract).

(** [let mut unsigned = c.clone(); unsigned.signature.clear(); contract_message(&unsigned)],
    the shape of [lease_message] and of the other message functions. *)
Definition unsigned_message `{Contract T} (contract : T) : string :=
  contract_message (set_signature "" contract).

Definition verify_contract_signature (public_key signature message : string)
    : result Denial.t () :=
  key ← ok_or Denial.InvalidSignature (hex_decode public_key);
  if negb (len key =? 32) then Err Denial.InvalidSignature
  else if negb (key_from_bytes key) then Err Denial.InvalidSignature
  else
    sig ← ok_or Denial.InvalidSignature (hex_decode signature);
    if negb (len sig =? 64) then Err Denial.InvalidSignature
    else if verify_bytes key message sig then Ok () else Err Denial.InvalidSignature.

(** The body of every [sign_*] function: clear the signature, sign, store it. *)
Definition sign_contract `{Contract T} (key : SigningKey) (contract : T) : T :=
  let cleared := set_signature "" contract in
  set_signature (hex_encode (sign_bytes key (contract_message cleared))) cleared.

(** The tail of every [verify_*] function. *)
Definition verify_contract `{Contract T} (public_key : string) (contract : T)
    : result Denial.t () :=
  verify_contract_signature public_key (signature_of contract) (unsigned_message contract).

(** ** The signing and verification functions *)

Definition sign_offer : SigningKey → ResourceOfferV1.t → ResourceOfferV1.t := sign_contract.
Definition verify_offer (identity : NodeIdentityV1.t) (offer : ResourceOfferV1.t)
    : result Denial.t () :=
  if NodeIdentityV1.node_id identity != ResourceOfferV1.node_id offer
  then Err Denial.NodeMismatch
  else verify_contract (NodeIdentityV1.public_key identity) offer.

Definition verify_lease_with_key : string → CapabilityLeaseV1.t → result Denial.t () :=
  verify_contract.
Definition verify_storage_lease_with_key : string → StorageLeaseV1.t → result Denial.t () :=
  verify_contract.
Definition verify_model_session_lease_with_key
    : string → ModelSessionLeaseV1.t → result Denial.t () := verify_contract.
Definition verify_remote_desktop_lease_with_key
    : string → RemoteDesktopLeaseV1.t → result Denial.t () := verify_contract.
Definition verify_promotion_canary_with_key
    : string → PromotionCanaryLeaseV1.t → result Denial.t () := verify_contract.

Definition sign_artifact_replica_receipt
    : SigningKey → ArtifactReplicaReceiptV1.t → ArtifactReplicaReceiptV1.t := sign_contract.
Definition verify_artifact_replica_receipt (now : DateTime) (identity : NodeIdentityV1.t)
    (receipt : ArtifactReplicaReceiptV1.t) : result Denial.t () :=
  if (NodeIdentityV1.node_id identity != ArtifactReplicaReceiptV1.node_id receipt)
     || negb (ArtifactReplicaReceiptV1.is_valid_at receipt now)
  then Err Denial.InvalidArtifact
  else verify_contract (NodeIdentityV1.public_key identity) receipt.

Definition sign_mesh_endpoint : SigningKey → MeshEndpointRecordV1.t → MeshEndpointRecordV1.t :=
  sign_contract.
Definition verify_pinned_mesh_endpoint_with_key (public_key : string)
    (endpoint : MeshEndpointRecordV1.t) : result Denial.t () :=
  if MeshEndpointRecordV1.schema endpoint != MeshEndpointRecordV1.SCHEMA
  then Err Denial.InvalidSignature
  else verify_contract public_key endpoint.
(** The two readings of the clock are the arguments [now] and [now']. *)
Definition verify_mesh_endpoint_with_key (now now' : DateTime) (public_key : string)
    (endpoint : MeshEndpointRecordV1.t) : result Denial.t () :=
  if (MeshEndpointRecordV1.schema endpoint != MeshEndpointRecordV1.SCHEMA)
     || (MeshEndpointRecordV1.expires_at endpoint <=? now)
     || (now' <? MeshEndpointRecordV1.issued_at endpoint)
  then Err Denial.InvalidSignature
  else verify_pinned_mesh_endpoint_with_key public_key endpoint.

Definition relay_fabric_id (public_key : string) : result Denial.t string :=
  key ← ok_or Denial.InvalidSignature (hex_decode public_key);
  if negb (len key =? 32) then Err Denial.InvalidSignature
  else Ok ("sha256:" +:+ hex_encode (sha256 key)).

Definition with_fabric_id (fabric_id : string) (m : RelayAccessManifestV1.t)
    : RelayAccessManifestV1.t :=
  RelayAccessManifestV1.mk (RelayAccessManifestV1.schema m) fabric_id
    (RelayAccessManifestV1.generation m) (RelayAccessManifestV1.allowed_endpoint_ids m)
    (RelayAccessManifestV1.issued_at m) (RelayAccessManifestV1.expires_at m)
    (RelayAccessManifestV1.signature m).

(** [None] is the panic of [expect] on an invalid key. *)
Definition sign_relay_access_manifest (key : SigningKey) (manifest : RelayAccessManifestV1.t)
    : option RelayAccessManifestV1.t :=
  match relay_fabric_id (hex_encode (verifying_key key)) with
  | Ok fabric_id => Some (sign_contract key (with_fabric_id fabric_id manifest))
  | Err _ => None
  end.
Definition verify_relay_access_manifest_with_key (now : DateTime) (public_key : string)
    (manifest : RelayAccessManifestV1.t) : result Denial.t () :=
  if negb (RelayAccessManifestV1.is_valid_at manifest now) then Err Denial.InvalidSignature
  else
    fabric_id ← relay_fabric_id public_key;
    if RelayAccessManifestV1.fabric_id manifest != fabric_id then Err Denial.InvalidSignature
    else verify_contract public_key manifest.

Definition sign_receipt : SigningKey → ExecutionReceiptV1.t → ExecutionReceiptV1.t :=
  sign_contract.
Definition verify_receipt (identity : NodeIdentityV1.t) (receipt : ExecutionReceiptV1.t)
    : result Denial.t () :=
  if NodeIdentityV1.node_id identity != ExecutionReceiptV1.node_id receipt
  then Err Denial.NodeMismatch
  else verify_contract (NodeIdentityV1.public_key identity) receipt.

Definition sign_model_receipt
    : SigningKey → ModelExecutionReceiptV1.t → ModelExecutionReceiptV1.t := sign_contract.
Definition verify_model_receipt (identity : NodeIdentityV1.t)
    (receipt : ModelExecutionReceiptV1.t) : result Denial.t () :=
  if NodeIdentityV1.node_id identity != ModelExecutionReceiptV1.node_id receipt
  then Err Denial.NodeMismatch
  else verify_contract (NodeIdentityV1.public_key identity) receipt.

Definition sign_enrollment : SigningKey → EnrollmentRequestV1.t → EnrollmentRequestV1.t :=
  sign_contract.
Definition verify_enrollment (request : EnrollmentRequestV1.t) : result Denial.t () :=
  if (EnrollmentRequestV1.schema request != "rampage.enrollment-request.v1")
     || (EnrollmentRequestV1.invite_id request == nil_uuid)
     || negb (len (EnrollmentRequestV1.enrollment_code request) =? 32)
     || negb (all_bytes is_ascii_hexdigit (EnrollmentRequestV1.enrollment_code request))
     || negb (NodeIdentityV1.is_valid_for_enrollment (EnrollmentRequestV1.identity request))
  then Err Denial.InvalidIdentity
  else verify_contract (NodeIdentityV1.public_key (EnrollmentRequestV1.identity request)) request.

(** ** Lemmas *)

Context {laws : CryptoLaws codec crypto}.

Lemma verify_contract_signature_ok k m :
  verify_contract_signature (hex_encode (verifying_key k)) (hex_encode (sign_bytes k m)) m = Ok ().
Proof.
  unfold verify_contract_signature, len.
  rewrite !hex_decode_encode. cbn [ok_or mbind result_bind].
  rewrite verifying_key_length, verifying_key_valid, signature_length, verify_sign. done.
Qed.

(** Whatever [sign_*] signs verifies under the signer's public key. *)
Lemma verify_sign_contract `{Contract T} k (c : T) :
  verify_contract (hex_encode (verifying_key k)) (sign_contract k c) = Ok ().
Proof.
  unfold verify_contract, sign_contract, unsigned_message.
  rewrite signature_set, !set_set. apply verify_contract_signature_ok.
Qed.

Lemma hex_signature_not_empty k m : is_empty (hex_encode (sign_bytes k m)) = false.
Proof.
  pose proof (hex_length (sign_bytes k m)) as Hl. rewrite signature_length in Hl.
  by destruct (hex_encode _).
Qed.

Lemma signature_not_empty `{Contract T} k (c : T) :
  is_empty (signature_of (sign_contract k c)) = false.
Proof. unfold sign_contract. rewrite signature_set. apply hex_signature_not_empty. Qed.

Lemma nonce_bounded u : bounded_ascii 128 (uuid_simple u) = true.
Proof.
  unfold bounded_ascii, len. rewrite uuid_simple_length, uuid_simple_ascii.
  pose proof (uuid_simple_length u). by destruct (uuid_simple u).
Qed.

Lemma relay_fabric_id_ok k :
  relay_fabric_id (hex_encode (verifying_key k)) =
    Ok ("sha256:" +:+ hex_encode (sha256 (verifying_key k))).
Proof.
  unfold relay_fabric_id, len. rewrite hex_decode_encode. cbn [ok_or mbind result_bind].
  by rewrite verifying_key_length.
Qed.

Lemma fabric_id_digest s : is_sha256_digest ("sha256:" +:+ hex_encode (sha256 s)) = true.
Proof.
  apply is_sha256_digest_spec. eexists. split_and!; [done| |apply hex_digits].
  unfold len. by rewrite hex_length, sha256_length.
Qed.
End signing.
#[export] Hint Resolve verify_sign_contract nonce_bounded : rampage.

(** ** A concrete instance *)

Module ReferenceCrypto.

(** The first [n] bytes, padded with NUL. *)
Fixpoint fit (n : nat) (s : string) : string :=
  match n, s with
  | O, _ => ""
  | S n, "" => String "000" (fit n "")
  | S n, String c s => String c (fit n s)
  end.

Definition nibble (c : ascii) : option N :=
  let b := N_of_ascii c in
  if is_ascii_digit b then Some (b - 48)%N
  else if between 97 102 b then Some (b - 87)%N
  else if between 65 70 b then Some (b - 55)%N else None.
Fixpoint unhex (s : string) : option string :=
  match s with
  | "" => Some ""
  | String a (String b s) =>
      x ← nibble a; y ← nibble b; rest ← unhex s; Some (String (ascii_of_N (16 * x + y)) rest)
  | _ => None
  end.

#[export] Instance sized_codec : Codec := {|
  json_to_string := @json_to_string Reference.reference_codec;
  json_from_str := @json_from_str Reference.reference_codec;
  to_rfc3339 := @to_rfc3339 Reference.reference_codec;
  to_rfc3339_nanos := @to_rfc3339_nanos Reference.reference_codec;
  parse_rfc3339 := @parse_rfc3339 Reference.reference_codec;
  sha256 := fit 32;
  hex_encode := Reference.hex
|}.

#[export] Instance reference_crypto : Crypto := {|
  SigningKey := string;
  verifying_key := fit 32;
  key_from_bytes key := len key =? 32;
  sign_bytes key m := fit 64 (fit 32 key +:+ m);
  verify_bytes key m signature := signature == fit 64 (key +:+ m);
  hex_decode := unhex;
  uuid_simple := Reference.digits 32
|}.

#[export] Instance reference_serializer : Serializer := {|
  ser_canary c := PromotionCanaryLeaseV1.nonce c;
  ser_mesh c := MeshEndpointRecordV1.endpoint_id c;
  ser_offer c := ResourceOfferV1.schema c;
  ser_model_lease c := ModelSessionLeaseV1.nonce c;
  ser_desktop_lease c := RemoteDesktopLeaseV1.nonce c;
  ser_manifest c := RelayAccessManifestV1.fabric_id c;
  ser_storage_lease c := StorageLeaseV1.nonce c;
  ser_replica c := ArtifactReplicaReceiptV1.digest c;
  ser_enrollment c := EnrollmentRequestV1.enrollment_code c;
  ser_lease c := CapabilityLeaseV1.nonce c;
  ser_receipt c := ExecutionReceiptV1.schema c;
  ser_model_receipt c := ModelExecutionReceiptV1.output_digest c
|}.

Lemma fit_length n s : String.length (fit n s) = n.
Proof. revert s. induction n as [|n IH]; intros [|c s]; simpl; by rewrite ?IH. Qed.

Lemma unhex_hex s : unhex (Reference.hex s) = Some s.
Proof.
  induction s as [|c s IH]; [done|]. cbn [Reference.hex unhex]. rewrite IH.
  destruct c as [[] [] [] [] [] [] [] []]; reflexivity.
Qed.

Lemma hex_lower s : all_bytes lower_hex_byte (Reference.hex s) = true.
Proof.
  unfold all_bytes, chars. induction s as [|c s IH]; [done|].
  cbn [Reference.hex String.list_ascii_of_string forallb]. rewrite IH.
  destruct c as [[] [] [] [] [] [] [] []]; reflexivity.
Qed.

Lemma digits_ascii k n : is_ascii (Reference.digits k n) = true.
Proof.
  unfold is_ascii, all_bytes, chars. revert n. induction k as [|k IH]; intros n; [done|].
  cbn [Reference.digits String.list_ascii_of_string forallb]. rewrite IH, andb_true_r.
  pose proof (Z.mod_pos_bound n 10). rewrite N_ascii_embedding by lia. apply N.ltb_lt. lia.
Qed.

#[export] Instance reference_crypto_laws : CryptoLaws sized_codec reference_crypto.
Proof.
  split; intros; cbn [verifying_key key_from_bytes sign_bytes verify_bytes hex_decode uuid_simple
    sha256 hex_encode sized_codec reference_crypto];
    eauto using fit_length, unhex_hex, hex_lower, digits_ascii, Reference.hex_length,
      Reference.digits_length.
  - unfold len. by rewrite fit_length.
  - by apply bool_decide_true.
Qed.

End ReferenceCrypto.
