(* ===== verification/Governor.v ===== *)
(** * The policy Governor (crates/rampage-policy)

    Every decision of the Governor and every lease it mints.  The clock and the two
    random identifiers a minting function draws are arguments ([now], [lease_id] for
    [Uuid::now_v7()], [nonce_id] for [Uuid::new_v4()]); the panic of [expect] is [None]. *)

From S2P Require Import Prelude.
From S2P Require Import Codec.
From S2P Require Import Text.
From S2P Require Import Contracts.
From S2P Require Import Signing.
Import Text.

(** [RiskClass]. *)
Module RiskClass.
Inductive t : Set :=
| R0Configuration
| R1AllowlistedSource
| R2ProtectedChange
| R3AuthorityCritical.
#[global] Instance eq_dec : EqDecision t.
Proof. solve_decision. Defined.
End RiskClass.

(** [GovernorConfig]. *)
Module GovernorConfig.
Record t := mk {
  lease_ttl_seconds : Z;
  max_job_ttl_seconds : Z;
  trusted_adapters : gset string;
  mobile_adapters : gset string;
  trusted_autopilot_projects : gset Uuid;
  autonomous_protected_projects : gset Uuid;
  mobile_min_battery_percent : Z;
  mobile_min_thermal_headroom_percent : Z;
  killed : bool
}.

Definition default : t :=
  mk 120 3600
    (list_to_set ["rampage.echo.v1"; "rampage.hash.v1"; "rampage.eval-shard.v1";
       "rampage.benchmark.v1"; "rampage.ollama.v1"; "rampage.artifact-hash.v1";
       "rampage.remote-assist.v1"])
    (list_to_set ["rampage.hash.v1"; "rampage.eval-shard.v1"; "rampage.artifact-hash.v1"])
    ∅ ∅ 40 35 false.
Definition with_killed (b : bool) (c : t) : t :=
  mk (lease_ttl_seconds c) (max_job_ttl_seconds c) (trusted_adapters c) (mobile_adapters c)
    (trusted_autopilot_projects c) (autonomous_protected_projects c)
    (mobile_min_battery_percent c) (mobile_min_thermal_headroom_percent c) b.
End GovernorConfig.

(** [ModelSessionLimits] and [RemoteDesktopLimits]. *)
Module ModelSessionLimits.
Record t := mk { max_prompt_bytes : Z; max_output_tokens : Z }.
End ModelSessionLimits.
Module RemoteDesktopLimits.
Record t := mk { max_width : Z; max_height : Z; max_fps : Z }.
End RemoteDesktopLimits.

Definition adapter_allows_resource (adapter : string) (class : ResourceClass.t) : bool :=
  if bool_decide (adapter ∈ ["rampage.echo.v1"; "rampage.hash.v1"; "rampage.eval-shard.v1"]) then
    match class with
    | ResourceClass.CpuCompute | ResourceClass.RamWorkingSet | ResourceClass.RamCache => true
    | _ => false
    end
  else if adapter == "rampage.benchmark.v1" then class == ResourceClass.CpuCompute
  else if adapter == "rampage.ollama.v1" then
    match class with
    | ResourceClass.CpuCompute | ResourceClass.GpuCompute | ResourceClass.GpuMemory
    | ResourceClass.RamWorkingSet | ResourceClass.RamCache | ResourceClass.StorageCache => true
    | _ => false
    end
  else if adapter == "rampage.artifact-hash.v1" then
    match class with
    | ResourceClass.CpuCompute | ResourceClass.RamWorkingSet | ResourceClass.RamCache
    | ResourceClass.StorageCache => true
    | _ => false
    end
  else false.

Definition promotion_risk (risk : PromotionRiskV1.t) : RiskClass.t :=
  match risk with
  | PromotionRiskV1.R0Configuration => RiskClass.R0Configuration
  | PromotionRiskV1.R1AllowlistedSource => RiskClass.R1AllowlistedSource
  | PromotionRiskV1.R2ProtectedChange => RiskClass.R2ProtectedChange
  | PromotionRiskV1.R3AuthorityCritical => RiskClass.R3AuthorityCritical
  end.

(** [path.replace('\\', "/").to_ascii_lowercase()]. *)
Definition normalize_path (path : string) : string :=
  to_ascii_lowercase (replace_byte "\" "/" path).

Definition authority_critical : list string :=
  ["crates/rampage-policy/"; "crates/rampage-protocol/"; "crates/rampage-controller/";
   "crates/rampage-agent/"; "crates/rampage-mesh/"; "crates/rampage-storage/"; "policies/";
   "evals/holdouts/"; "signing/"; "updater/";
   "services/intelligence/src/rampage_intelligence/promotion.py"; ".github/workflows/"].

Definition classify_promotion_paths (paths : list string) : RiskClass.t :=
  let normalized := normalize_path <$> paths in
  if existsb (λ path, existsb (λ prefix, starts_with prefix path) authority_critical) normalized
  then RiskClass.R3AuthorityCritical
  else if existsb (λ path, ends_with "pyproject.toml" path || ends_with "Cargo.toml" path
                           || ends_with "package.json" path || contains "/migrations/" path
                           || starts_with "contracts/" path) normalized
  then RiskClass.R2ProtectedChange
  else if forallb (λ path, starts_with "prompts/" path || starts_with "routing/" path
                           || starts_with "cache/" path) normalized
  then RiskClass.R0Configuration
  else RiskClass.R1AllowlistedSource.

(** [a < b] on [Option<u8>]: [None] is below every [Some]. *)
Definition option_ltb (a b : option Z) : bool :=
  match a, b with
  | None, Some _ => true
  | Some a, Some b => a <? b
  | _, None => false
  end.

Definition device_kind_label (kind : DeviceKind.t) : string :=
  match kind with
  | DeviceKind.Desktop => "desktop"
  | DeviceKind.Laptop => "laptop"
  | DeviceKind.Server => "server"
  | DeviceKind.SteamDeck => "steam_deck"
  | DeviceKind.Phone => "phone"
  | DeviceKind.Tablet => "tablet"
  | DeviceKind.Console => "console"
  end.

Module Governor.
Section governor.
Context {codec : Codec} {crypto : Crypto} {ser : Serializer}.

Record t := mk { config : GovernorConfig.t; signing_key : SigningKey }.

Definition from_signing_key (config : GovernorConfig.t) (key : SigningKey) : t := mk config key.

(** The governor's verifying key, in the hexadecimal form workers hold. *)
Definition public_key (self : t) : string := hex_encode (verifying_key (signing_key self)).

(** ** Jobs *)

(** The test of [offer.resources.iter().all(..)] on one resource. *)
Definition resource_rejects (request : ResourceRequestV1.t) (resource : ResourceQuantityV1.t)
    : bool :=
  (ResourceQuantityV1.class resource != ResourceRequestV1.class request)
  || (ResourceQuantityV1.unit resource != ResourceRequestV1.unit request)
  || (ResourceQuantityV1.available resource <? ResourceRequestV1.minimum request)
  || existsb (λ '(key, value), ResourceQuantityV1.labels resource !! key != Some value)
       (map_to_list (ResourceRequestV1.required_labels request)).

Definition is_mobile_kind (kind : option string) : bool :=
  is_some_and (λ k, bool_decide (k ∈ ["phone"; "tablet"; "console"])) kind.

Definition offer_device_kind (offer : ResourceOfferV1.t) : option string :=
  resource ← head (ResourceOfferV1.resources offer);
  ResourceQuantityV1.labels resource !! "device_kind".

Definition check_mobile (self : t) (job : JobSpecV1.t) (offer : ResourceOfferV1.t)
    : result Denial.t () :=
  let availability := ResourceOfferV1.availability offer in
  if negb (JobSpecV1.restart_tolerant job) then Err Denial.MobileRequiresRestartTolerance
  else if negb (bool_decide
                  (JobSpecV1.adapter job ∈ GovernorConfig.mobile_adapters (config self)))
  then Err Denial.MobileAdapterDenied
  else if negb (AvailabilityV1.foreground_allowed availability)
  then Err Denial.MobileForegroundRequired
  else if negb (AvailabilityV1.on_ac_power availability)
          && option_ltb (AvailabilityV1.battery_percent availability)
               (Some (GovernorConfig.mobile_min_battery_percent (config self)))
  then Err Denial.MobileBatteryDenied
  else if AvailabilityV1.thermal_headroom_percent availability
          <? GovernorConfig.mobile_min_thermal_headroom_percent (config self)
  then Err Denial.MobileThermalDenied
  else Ok ().

Definition check_job_at (self : t) (job : JobSpecV1.t) (offer : ResourceOfferV1.t)
    (selected_node : Uuid) (now : DateTime) : result Denial.t () :=
  if GovernorConfig.killed (config self) then Err Denial.KillLatch
  else
    _ ← map_err (λ error, Denial.InvalidJob (ContractError.to_string error))
          (JobSpecV1.validate_at job now);
    if negb (bool_decide (JobSpecV1.adapter job ∈ GovernorConfig.trusted_adapters (config self)))
    then Err Denial.AdapterDenied
    else if existsb (λ request, negb (adapter_allows_resource (JobSpecV1.adapter job)
                                        (ResourceRequestV1.class request)))
              (JobSpecV1.requests job)
    then Err Denial.AdapterResourceDenied
    else if negb (bool_decide (JobSpecV1.adapter job ∈ ResourceOfferV1.adapters offer))
    then Err Denial.OfferAdapterMismatch
    else if negb (no_elems (ResourceOfferV1.workload_capabilities offer))
            && negb (existsb (λ capability, WorkloadCapabilityV1.authorizes capability
                                (JobSpecV1.adapter job) (JobSpecV1.operation job))
                       (ResourceOfferV1.workload_capabilities offer))
    then Err Denial.WorkloadCapabilityMismatch
    else if existsb (λ request, forallb (resource_rejects request)
                                  (ResourceOfferV1.resources offer))
              (JobSpecV1.requests job)
    then Err Denial.OfferResourceMismatch
    else if ResourceOfferV1.expires_at offer <=? now then Err Denial.OfferExpired
    else if ResourceOfferV1.node_id offer != selected_node then Err Denial.NodeMismatch
    else if now + seconds (GovernorConfig.max_job_ttl_seconds (config self))
            <? JobSpecV1.deadline job
    then Err Denial.DeadlineTooFar
    else if is_mobile_kind (offer_device_kind offer) then check_mobile self job offer
    else Ok ().

(** [now + Duration::seconds(self.config.lease_ttl_seconds.max(1))]. *)
Definition ttl_end (self : t) (now : DateTime) : DateTime :=
  now + seconds (Z.max (GovernorConfig.lease_ttl_seconds (config self)) 1).

(** The grant for one request; [None] is the panic of the [expect]. *)
Definition grant (offer : ResourceOfferV1.t) (request : ResourceRequestV1.t)
    : option ResourceQuantityV1.t :=
  offered ← List.find (λ resource, ResourceQuantityV1.class resource == ResourceRequestV1.class request)
              (ResourceOfferV1.resources offer);
  Some (ResourceQuantityV1.mk (ResourceRequestV1.class request) (ResourceRequestV1.minimum request)
          (ResourceRequestV1.minimum request) (ResourceRequestV1.unit request)
          (ResourceQuantityV1.labels offered)).

Definition sign_lease (self : t) (lease : CapabilityLeaseV1.t) : string :=
  hex_encode (sign_bytes (signing_key self) (unsigned_message lease)).

Definition authorize_job_at_epoch (self : t) (job : JobSpecV1.t) (offer : ResourceOfferV1.t)
    (selected_node : Uuid) (fencing_epoch : Z) (now : DateTime) (lease_id nonce_id : Uuid)
    : option (result Denial.t CapabilityLeaseV1.t) :=
  match check_job_at self job offer selected_node now with
  | Err e => Some (Err e)
  | Ok _ =>
      granted ← mapM (grant offer) (JobSpecV1.requests job);
      let lease :=
        CapabilityLeaseV1.mk CapabilityLeaseV1.SCHEMA lease_id (JobSpecV1.job_id job)
          selected_node (JobSpecV1.project_id job) (JobSpecV1.adapter job)
          (JobSpecV1.operation job)
          (list_to_set (ArtifactRefV1.digest <$> JobSpecV1.inputs job))
          granted (JobSpecV1.network_allowlist job) now
          (Z.min (JobSpecV1.deadline job) (ttl_end self now))
          (uuid_simple nonce_id) fencing_epoch "" in
      Some (Ok (CapabilityLeaseV1.with_signature (sign_lease self lease) lease))
  end.
Definition authorize_job (self : t) (job : JobSpecV1.t) (offer : ResourceOfferV1.t)
    (selected_node : Uuid) : DateTime → Uuid → Uuid → option (result Denial.t CapabilityLeaseV1.t) :=
  authorize_job_at_epoch self job offer selected_node 0.

(** ** Promotion and diagnostics *)

Definition authorize_promotion (self : t) (project_id : Uuid) (risk : RiskClass.t)
    : result Denial.t () :=
  match risk with
  | RiskClass.R0Configuration => Ok ()
  | RiskClass.R1AllowlistedSource =>
      if bool_decide (project_id ∈ GovernorConfig.trusted_autopilot_projects (config self))
      then Ok () else Err Denial.AutopilotNotEnabled
  | RiskClass.R2ProtectedChange =>
      if bool_decide (project_id ∈ GovernorConfig.autonomous_protected_projects (config self))
      then Ok () else Err Denial.AutonomousAuthorityDenied
  | RiskClass.R3AuthorityCritical => Err Denial.AutonomousAuthorityDenied
  end.

Definition authorize_diagnostic_action (self : t) (action : string) : result Denial.t () :=
  if GovernorConfig.killed (config self) then Err Denial.KillLatch
  else if bool_decide (action ∈ ["suppress_thermally_constrained_node";
                                 "suppress_low_battery_node"; "suppress_unroutable_node"])
  then Ok () else Err Denial.DiagnosticActionDenied.

Definition canary_traffic (risk : PromotionRiskV1.t) : result Denial.t Z :=
  match risk with
  | PromotionRiskV1.R0Configuration => Ok 1000
  | PromotionRiskV1.R1AllowlistedSource => Ok 500
  | PromotionRiskV1.R2ProtectedChange => Ok 100
  | PromotionRiskV1.R3AuthorityCritical => Err Denial.AutonomousAuthorityDenied
  end.

Definition authorize_promotion_canary_at_epoch (self : t) (candidate : PromotionCandidateV1.t)
    (fencing_epoch : Z) (now : DateTime) (canary_id nonce_id : Uuid)
    : result Denial.t PromotionCanaryLeaseV1.t :=
  if negb (PromotionCandidateV1.is_valid_at candidate now)
  then Err Denial.InvalidPromotionEvidence
  else
    let classified := classify_promotion_paths (PromotionCandidateV1.changed_paths candidate) in
    let declared := promotion_risk (PromotionCandidateV1.risk candidate) in
    if declared != classified then Err Denial.PromotionRiskMismatch
    else
      _ ← authorize_promotion self (PromotionCandidateV1.project_id candidate) declared;
      traffic ← canary_traffic (PromotionCandidateV1.risk candidate);
      let lease :=
        PromotionCanaryLeaseV1.mk PromotionCanaryLeaseV1.SCHEMA canary_id
          (PromotionCandidateV1.proposal_id candidate) (PromotionCandidateV1.project_id candidate)
          (PromotionCandidateV1.candidate_digest candidate) (PromotionCandidateV1.risk candidate)
          traffic 100 500 500 now
          (Z.min (PromotionCandidateV1.expires_at candidate) (now + minutes 10))
          (uuid_simple nonce_id) fencing_epoch "" in
      Ok (PromotionCanaryLeaseV1.with_signature
            (hex_encode (sign_bytes (signing_key self) (unsigned_message lease))) lease).

(** ** Model sessions, remote desktops and storage *)

Definition exact_runtime (offer : ResourceOfferV1.t) (runtime : ModelRuntimeOfferV1.t)
    (model : InstalledModelV1.t) : bool :=
  existsb (λ candidate,
      (ModelRuntimeOfferV1.schema candidate == ModelRuntimeOfferV1.SCHEMA)
      && (ModelRuntimeOfferV1.adapter candidate == ModelRuntimeOfferV1.adapter runtime)
      && (ModelRuntimeOfferV1.backend candidate == ModelRuntimeOfferV1.backend runtime)
      && (ModelRuntimeOfferV1.runtime_digest candidate == ModelRuntimeOfferV1.runtime_digest runtime)
      && (ModelRuntimeOfferV1.compatibility_key candidate
            == ModelRuntimeOfferV1.compatibility_key runtime)
      && (ModelRuntimeOfferV1.status candidate == ModelRuntimeOfferV1.status runtime)
      && existsb (λ m, m == model) (ModelRuntimeOfferV1.installed_models candidate))
    (ResourceOfferV1.model_runtimes offer).

Definition authorize_model_session_at_epoch (self : t) (offer : ResourceOfferV1.t)
    (runtime : ModelRuntimeOfferV1.t) (model : InstalledModelV1.t)
    (controller_endpoint_id : string) (limits : ModelSessionLimits.t) (fencing_epoch : Z)
    (now : DateTime) (lease_id session_id nonce_id : Uuid)
    : result Denial.t ModelSessionLeaseV1.t :=
  let availability := ResourceOfferV1.availability offer in
  if GovernorConfig.killed (config self) then Err Denial.KillLatch
  else if ResourceOfferV1.expires_at offer <=? now then Err Denial.OfferExpired
  else if (ModelSessionLimits.max_prompt_bytes limits =? 0)
          || (MAX_MODEL_PROMPT_BYTES <? ModelSessionLimits.max_prompt_bytes limits)
          || (ModelSessionLimits.max_output_tokens limits =? 0)
          || (MAX_MODEL_OUTPUT_TOKENS <? ModelSessionLimits.max_output_tokens limits)
  then Err Denial.InvalidModelSession
  else
    let guarded_model_bytes :=
      sat_add (InstalledModelV1.artifact_size_bytes model)
        (InstalledModelV1.artifact_size_bytes model `div` 5) in
    if is_empty controller_endpoint_id
       || negb (is_ascii controller_endpoint_id)
       || is_none (ResourceOfferV1.mesh_endpoint offer)
       || negb (bool_decide ("rampage.ollama.v1" ∈ ResourceOfferV1.adapters offer))
       || (ModelRuntimeOfferV1.adapter runtime != "rampage.ollama.v1")
       || (ModelRuntimeOfferV1.backend runtime != ModelBackend.LocalOllama)
       || (ModelRuntimeOfferV1.status runtime != ModelRuntimeStatus.ShippedLocal)
       || negb (bool_decide (ModelParallelism.WholeModel
                               ∈ ModelRuntimeOfferV1.supported_parallelism runtime))
       || negb (InstalledModelV1.is_valid model)
       || (ModelRuntimeOfferV1.available_model_bytes runtime <? guarded_model_bytes)
       || negb (exact_runtime offer runtime model)
       || negb (AvailabilityV1.foreground_allowed availability)
       || (AvailabilityV1.thermal_headroom_percent availability <? 15)
       || (negb (AvailabilityV1.on_ac_power availability)
           && (default 100 (AvailabilityV1.battery_percent availability) <? 50))
    then Err Denial.ModelRuntimeDenied
    else
      let lease :=
        ModelSessionLeaseV1.mk ModelSessionLeaseV1.SCHEMA lease_id session_id
          (ResourceOfferV1.node_id offer) controller_endpoint_id
          (InstalledModelV1.model_id model) (InstalledModelV1.artifact_digest model)
          (ModelRuntimeOfferV1.backend runtime) (ModelRuntimeOfferV1.runtime_digest runtime)
          ModelParallelism.WholeModel (ModelSessionLimits.max_prompt_bytes limits)
          (ModelSessionLimits.max_output_tokens limits) now (ttl_end self now)
          (uuid_simple nonce_id) fencing_epoch "" in
      Ok (ModelSessionLeaseV1.with_signature
            (hex_encode (sign_bytes (signing_key self) (unsigned_message lease))) lease).

Definition remote_desktop_operation (mode : RemoteDesktopModeV1.t) : string :=
  match mode with
  | RemoteDesktopModeV1.View => "view"
  | RemoteDesktopModeV1.Control => "control"
  end.

Definition authorize_remote_desktop_at_epoch (self : t) (offer : ResourceOfferV1.t)
    (controller_endpoint_id : string) (session_id : Uuid) (mode : RemoteDesktopModeV1.t)
    (limits : RemoteDesktopLimits.t) (fencing_epoch : Z)
    (now : DateTime) (lease_id nonce_id : Uuid) : result Denial.t RemoteDesktopLeaseV1.t :=
  if GovernorConfig.killed (config self) then Err Denial.KillLatch
  else if ResourceOfferV1.expires_at offer <=? now then Err Denial.OfferExpired
  else if negb (in_range 1 MAX_REMOTE_DESKTOP_DIMENSION (RemoteDesktopLimits.max_width limits))
          || negb (in_range 1 MAX_REMOTE_DESKTOP_DIMENSION (RemoteDesktopLimits.max_height limits))
          || negb (in_range 1 MAX_REMOTE_DESKTOP_FPS (RemoteDesktopLimits.max_fps limits))
  then Err Denial.InvalidRemoteDesktopLimits
  else
    let operation := remote_desktop_operation mode in
    let capability_advertised :=
      existsb (λ capability,
          (WorkloadCapabilityV1.status capability == WorkloadCapabilityStatus.Shipped)
          && WorkloadCapabilityV1.is_valid capability
          && WorkloadCapabilityV1.authorizes capability "rampage.remote-assist.v1" operation)
        (ResourceOfferV1.workload_capabilities offer) in
    if is_empty controller_endpoint_id
       || negb (is_ascii controller_endpoint_id)
       || is_none (ResourceOfferV1.mesh_endpoint offer)
       || negb (bool_decide ("rampage.remote-assist.v1" ∈ ResourceOfferV1.adapters offer))
       || negb capability_advertised
       || negb (AvailabilityV1.foreground_allowed (ResourceOfferV1.availability offer))
    then Err Denial.RemoteDesktopDenied
    else
      let ttl := Z.min MAX_REMOTE_DESKTOP_LEASE_SECONDS
                   (Z.max 1 (GovernorConfig.lease_ttl_seconds (config self))) in
      let lease :=
        RemoteDesktopLeaseV1.mk RemoteDesktopLeaseV1.SCHEMA lease_id session_id
          (ResourceOfferV1.node_id offer) controller_endpoint_id mode
          (RemoteDesktopLimits.max_width limits) (RemoteDesktopLimits.max_height limits)
          (RemoteDesktopLimits.max_fps limits) now (now + seconds ttl)
          (uuid_simple nonce_id) fencing_epoch "" in
      Ok (RemoteDesktopLeaseV1.with_signature
            (hex_encode (sign_bytes (signing_key self) (unsigned_message lease))) lease).

Definition required_storage_class (storage_class : StorageClass.t) : ResourceClass.t :=
  match storage_class with
  | StorageClass.Cache => ResourceClass.StorageCache
  | StorageClass.Scratch => ResourceClass.StorageScratch
  | StorageClass.Protected => ResourceClass.ProtectedStore
  end.

Definition authorize_storage_at_epoch (self : t) (offer : ResourceOfferV1.t) (digest : string)
    (size_bytes : Z) (storage_class : StorageClass.t) (operation : ArtifactTransferOperation.t)
    (fencing_epoch : Z) (now : DateTime) (lease_id nonce_id : Uuid)
    : result Denial.t StorageLeaseV1.t :=
  if GovernorConfig.killed (config self) then Err Denial.KillLatch
  else if ResourceOfferV1.expires_at offer <=? now then Err Denial.OfferExpired
  else if negb (is_sha256_digest digest) || (MAX_ARTIFACT_TRANSFER_BYTES <? size_bytes)
  then Err Denial.InvalidArtifact
  else if (operation == ArtifactTransferOperation.Put)
          && negb (existsb (λ resource,
                       (ResourceQuantityV1.class resource == required_storage_class storage_class)
                       && (size_bytes <=? ResourceQuantityV1.available resource))
                     (ResourceOfferV1.resources offer))
  then Err Denial.StorageCapacityDenied
  else
    let lease :=
      StorageLeaseV1.mk StorageLeaseV1.SCHEMA lease_id (ResourceOfferV1.node_id offer) digest
        operation storage_class size_bytes now (ttl_end self now)
        (uuid_simple nonce_id) fencing_epoch "" in
    Ok (StorageLeaseV1.with_signature
          (hex_encode (sign_bytes (signing_key self) (unsigned_message lease))) lease).
Definition authorize_storage (self : t) (offer : ResourceOfferV1.t) (digest : string)
    (size_bytes : Z) (storage_class : StorageClass.t) (operation : ArtifactTransferOperation.t)
    : DateTime → Uuid → Uuid → result Denial.t StorageLeaseV1.t :=
  authorize_storage_at_epoch self offer digest size_bytes storage_class operation 0.

(** ** Verification and signing by the governor itself *)

Definition verify_lease (self : t) (lease : CapabilityLeaseV1.t) : result Denial.t () :=
  sig ← ok_or Denial.InvalidSignature (hex_decode (CapabilityLeaseV1.signature lease));
  if negb (len sig =? 64) then Err Denial.InvalidSignature
  else if verify_bytes (verifying_key (signing_key self)) (unsigned_message lease) sig
  then Ok () else Err Denial.InvalidSignature.
Definition governor_sign_mesh_endpoint (self : t) : MeshEndpointRecordV1.t → MeshEndpointRecordV1.t :=
  sign_contract (signing_key self).
Definition governor_sign_relay_access_manifest (self : t)
    : RelayAccessManifestV1.t → option RelayAccessManifestV1.t :=
  sign_relay_access_manifest (signing_key self).

End governor.
End Governor.
