(* ===== verification/GovernorFacts.v ===== *)
(** * What the Governor guarantees

    Which jobs it admits, that every lease it mints is active, bounded and verifiable,
    that the kill latch refuses all of them, and that a change to the authority plane
    never receives an autonomous canary. *)

From S2P Require Import Prelude.
From S2P Require Import Codec.
From S2P Require Import Text.
From S2P Require Import Contracts.
From S2P Require Import ContractFacts.
From S2P Require Import Signing.
From S2P Require Import Governor.
Import Text Governor.

Section facts.
Context {codec : Codec} {crypto : Crypto} {ser : Serializer} {laws : CryptoLaws codec crypto}.

#[local] Arguments is_ascii : simpl never.
#[local] Arguments blank : simpl never.
#[local] Arguments in_range : simpl never.

(** ** Specification *)

(** A resource that can serve a request. *)
Definition supplies (request : ResourceRequestV1.t) (resource : ResourceQuantityV1.t) : Prop :=
  ResourceQuantityV1.class resource = ResourceRequestV1.class request ∧
  ResourceQuantityV1.unit resource = ResourceRequestV1.unit request ∧
  ResourceRequestV1.minimum request ≤ ResourceQuantityV1.available resource ∧
  ResourceRequestV1.required_labels request ⊆ ResourceQuantityV1.labels resource.

(** The extra conditions on a phone, tablet or console. *)
Definition mobile_safe (self : t) (job : JobSpecV1.t) (offer : ResourceOfferV1.t) : Prop :=
  let a := ResourceOfferV1.availability offer in
  JobSpecV1.restart_tolerant job = true ∧
  JobSpecV1.adapter job ∈ GovernorConfig.mobile_adapters (config self) ∧
  AvailabilityV1.foreground_allowed a = true ∧
  (AvailabilityV1.on_ac_power a = true ∨
   ∃ battery, AvailabilityV1.battery_percent a = Some battery ∧
     GovernorConfig.mobile_min_battery_percent (config self) ≤ battery) ∧
  GovernorConfig.mobile_min_thermal_headroom_percent (config self) ≤
    AvailabilityV1.thermal_headroom_percent a.

(** Which resource classes the jobs of an adapter may ask for, as a table; a pair that is not in
    the table, and every class of an adapter that is not, is out of reach. *)
Definition entitlements : list (string * ResourceClass.t) :=
  [("rampage.echo.v1", ResourceClass.CpuCompute);
   ("rampage.echo.v1", ResourceClass.RamWorkingSet);
   ("rampage.echo.v1", ResourceClass.RamCache);
   ("rampage.hash.v1", ResourceClass.CpuCompute);
   ("rampage.hash.v1", ResourceClass.RamWorkingSet);
   ("rampage.hash.v1", ResourceClass.RamCache);
   ("rampage.eval-shard.v1", ResourceClass.CpuCompute);
   ("rampage.eval-shard.v1", ResourceClass.RamWorkingSet);
   ("rampage.eval-shard.v1", ResourceClass.RamCache);
   ("rampage.benchmark.v1", ResourceClass.CpuCompute);
   ("rampage.ollama.v1", ResourceClass.CpuCompute);
   ("rampage.ollama.v1", ResourceClass.GpuCompute);
   ("rampage.ollama.v1", ResourceClass.GpuMemory);
   ("rampage.ollama.v1", ResourceClass.RamWorkingSet);
   ("rampage.ollama.v1", ResourceClass.RamCache);
   ("rampage.ollama.v1", ResourceClass.StorageCache);
   ("rampage.artifact-hash.v1", ResourceClass.CpuCompute);
   ("rampage.artifact-hash.v1", ResourceClass.RamWorkingSet);
   ("rampage.artifact-hash.v1", ResourceClass.RamCache);
   ("rampage.artifact-hash.v1", ResourceClass.StorageCache)].

(** A job contract that is in order at [now]. *)
Definition in_order (job : JobSpecV1.t) (now : DateTime) : Prop :=
  JobSpecV1.schema job = "rampage.job-spec.v1" ∧ now < JobSpecV1.deadline job ∧
  blank (JobSpecV1.idempotency_key job) = false ∧
  (∀ r, r ∈ JobSpecV1.requests job → ResourceRequestV1.minimum r ≤ ResourceRequestV1.preferred r).

(** The first resource of an offer says it comes from a phone, a tablet or a console. *)
Definition handheld (offer : ResourceOfferV1.t) : Prop :=
  ∃ q rest, ResourceOfferV1.resources offer = q :: rest ∧
    (ResourceQuantityV1.labels q !! "device_kind" = Some "phone" ∨
     ResourceQuantityV1.labels q !! "device_kind" = Some "tablet" ∨
     ResourceQuantityV1.labels q !! "device_kind" = Some "console").

(** What the owner's policy lets through, stated without the Governor's code. *)
Definition admissible (self : t) (job : JobSpecV1.t) (offer : ResourceOfferV1.t) (node : Uuid)
    (now : DateTime) : Prop :=
  GovernorConfig.killed (config self) = false ∧
  in_order job now ∧
  JobSpecV1.adapter job ∈ GovernorConfig.trusted_adapters (config self) ∧
  (∀ r, r ∈ JobSpecV1.requests job →
     (JobSpecV1.adapter job, ResourceRequestV1.class r) ∈ entitlements) ∧
  JobSpecV1.adapter job ∈ ResourceOfferV1.adapters offer ∧
  (ResourceOfferV1.workload_capabilities offer = [] ∨
   ∃ c, c ∈ ResourceOfferV1.workload_capabilities offer ∧
     WorkloadCapabilityV1.is_valid c = true ∧
     WorkloadCapabilityV1.adapter c = JobSpecV1.adapter job ∧
     JobSpecV1.operation job ∈ WorkloadCapabilityV1.operations c ∧
     WorkloadCapabilityV1.status c ≠ WorkloadCapabilityStatus.Candidate) ∧
  (∀ r, r ∈ JobSpecV1.requests job →
     ∃ q, q ∈ ResourceOfferV1.resources offer ∧ supplies r q) ∧
  now < ResourceOfferV1.expires_at offer ∧
  ResourceOfferV1.node_id offer = node ∧
  JobSpecV1.deadline job ≤ now + seconds (GovernorConfig.max_job_ttl_seconds (config self)) ∧
  (handheld offer → mobile_safe self job offer).

(** ** Admission *)

Lemma resource_rejects_false request resource :
  resource_rejects request resource = false ↔ supplies request resource.
Proof.
  unfold resource_rejects, supplies.
  rewrite !orb_false_iff, !negb_false_iff, !bool_decide_eq_true, Z.ltb_ge, existsb_false.
  rewrite map_subseteq_spec.
  assert ((∀ kv, kv ∈ map_to_list (ResourceRequestV1.required_labels request) →
             (let '(k, v) := kv in ResourceQuantityV1.labels resource !! k != Some v) = false) ↔
          (∀ k v, ResourceRequestV1.required_labels request !! k = Some v →
             ResourceQuantityV1.labels resource !! k = Some v)) as ->; [|tauto].
  split.
  - intros H k v Hk. specialize (H (k, v)). rewrite elem_of_map_to_list in H.
    specialize (H Hk). cbn in H. by bool_prop.
  - intros H [k v] Hk%elem_of_map_to_list. apply negb_false_iff, bool_decide_eq_true. eauto.
Qed.

Lemma option_ltb_some a b :
  option_ltb a (Some b) = false ↔ ∃ x, a = Some x ∧ b ≤ x.
Proof.
  destruct a as [x|]; cbn.
  - rewrite Z.ltb_ge. split; [eauto|]. by intros (? & [= ->] & ?).
  - split; [done|]. by intros (? & ? & _).
Qed.

Lemma check_mobile_ok self job offer :
  check_mobile self job offer = Ok () ↔ mobile_safe self job offer.
Proof.
  unfold check_mobile, mobile_safe. rewrite !guard_ok, !negb_false_iff, bool_decide_eq_true.
  rewrite andb_false_iff, negb_false_iff, option_ltb_some, Z.ltb_ge. tauto.
Qed.

(** The table is the code's case distinction. *)
Lemma entitlements_spec adapter class :
  adapter_allows_resource adapter class = true ↔ (adapter, class) ∈ entitlements.
Proof.
  clear laws.
  rewrite <-(bool_decide_eq_true ((adapter, class) ∈ entitlements)).
  assert (adapter_allows_resource adapter class = bool_decide ((adapter, class) ∈ entitlements)) as ->; [|done].
  destruct (decide (adapter ∈ entitlements.*1)) as [Hin|Hout].
  - unfold entitlements in Hin. cbn in Hin.
    repeat (apply elem_of_cons in Hin as [->|Hin]; [destruct class; vm_compute; reflexivity|]).
    by apply not_elem_of_nil in Hin.
  - trans false.
    + unfold adapter_allows_resource. rewrite !bool_decide_eq_false_2; [done|..]; intros H; apply Hout;
        unfold entitlements; cbn; set_solver.
    + symmetry. apply bool_decide_eq_false_2. intros H. apply Hout, list_elem_of_fmap. by exists (adapter, class).
Qed.

Lemma validate_in_order job now : JobSpecV1.validate_at job now = Ok () ↔ in_order job now.
Proof.
  unfold JobSpecV1.validate_at, in_order. rewrite !guard_ok, Z.leb_gt, existsb_false.
  setoid_rewrite Z.ltb_ge. rewrite negb_false_iff, bool_decide_eq_true. tauto.
Qed.

Lemma handheld_spec offer : is_mobile_kind (offer_device_kind offer) = true ↔ handheld offer.
Proof.
  clear laws.
  unfold is_mobile_kind, offer_device_kind, handheld.
  destruct (ResourceOfferV1.resources offer) as [|q rest]; cbn.
  { split; [done|]. by intros (? & ? & ? & _). }
  destruct (ResourceQuantityV1.labels q !! "device_kind") as [kind|] eqn:Hkind; cbn.
  - rewrite bool_decide_eq_true. set_unfold. naive_solver.
  - split; [done|]. naive_solver.
Qed.

Lemma capability_guard offer adapter operation :
  negb (no_elems (ResourceOfferV1.workload_capabilities offer))
  && negb (existsb (λ c, WorkloadCapabilityV1.authorizes c adapter operation)
             (ResourceOfferV1.workload_capabilities offer)) = false ↔
  ResourceOfferV1.workload_capabilities offer = [] ∨
  ∃ c, c ∈ ResourceOfferV1.workload_capabilities offer ∧
     WorkloadCapabilityV1.is_valid c = true ∧ WorkloadCapabilityV1.adapter c = adapter ∧
     operation ∈ WorkloadCapabilityV1.operations c ∧
     WorkloadCapabilityV1.status c ≠ WorkloadCapabilityStatus.Candidate.
Proof.
  rewrite andb_false_iff, !negb_false_iff, existsb_elem.
  assert (∀ c, WorkloadCapabilityV1.authorizes c adapter operation = true ↔
    WorkloadCapabilityV1.is_valid c = true ∧ WorkloadCapabilityV1.adapter c = adapter ∧
    operation ∈ WorkloadCapabilityV1.operations c ∧
    WorkloadCapabilityV1.status c ≠ WorkloadCapabilityStatus.Candidate) as Hauth.
  { intros c. unfold WorkloadCapabilityV1.authorizes. rewrite !andb_true_iff, !bool_decide_eq_true, negb_true_iff, bool_decide_eq_false. tauto. }
  setoid_rewrite Hauth. destruct (ResourceOfferV1.workload_capabilities offer); cbn; naive_solver.
Qed.

Lemma requests_guard job offer :
  existsb (λ r, forallb (resource_rejects r) (ResourceOfferV1.resources offer))
    (JobSpecV1.requests job) = false ↔
  ∀ r, r ∈ JobSpecV1.requests job → ∃ q, q ∈ ResourceOfferV1.resources offer ∧ supplies r q.
Proof.
  rewrite existsb_false. setoid_rewrite forallb_false. by setoid_rewrite resource_rejects_false.
Qed.

Lemma check_job_spec self job offer node now :
  check_job_at self job offer node now = Ok () ↔ admissible self job offer node now.
Proof.
  unfold check_job_at, admissible.
  rewrite guard_ok, bind_unit_ok, map_err_ok, !guard_ok, capability_guard, requests_guard.
  rewrite !negb_false_iff, !bool_decide_eq_true, Z.leb_gt, Z.ltb_ge, existsb_false.
  setoid_rewrite negb_false_iff. setoid_rewrite entitlements_spec.
  rewrite when_ok, check_mobile_ok, handheld_spec, validate_in_order. tauto.
Qed.

(** [C12] The Governor admits a job exactly when the owner latch is open, the contract is in
    order and not past its deadline, the adapter is trusted and offered, the table of
    entitlements lists the adapter with every class that is asked for, the offer lists no
    capability or a valid one, not a candidate, of this adapter with this operation, every
    request is served by some offered resource, the offer is current and of the selected node,
    the deadline is within the authority window, and, where the first resource is labelled as a
    phone, tablet or console, the job is restart tolerant and of a mobile adapter and the device
    is foregrounded, powered and cool enough. *)
Theorem check_job_iff_admissible self job offer node now :
  check_job_at self job offer node now = Ok () ↔ admissible self job offer node now.
Proof. apply check_job_spec. Qed.

(** ** Job leases *)

Lemma grant_some offer request :
  (∃ q, q ∈ ResourceOfferV1.resources offer ∧ supplies request q) →
  ∃ g, grant offer request = Some g.
Proof.
  intros (q & Hq & Hclass & _). unfold grant.
  destruct (List.find _ _) as [o|] eqn:E; [by eexists|].
  eapply List.find_none in E; [|by apply list_elem_of_In]. cbn in E. by bool_prop.
Qed.

Lemma grant_spec offer request g :
  grant offer request = Some g →
  ResourceQuantityV1.class g = ResourceRequestV1.class request ∧
  ResourceQuantityV1.capacity g = ResourceRequestV1.minimum request ∧
  ResourceQuantityV1.available g = ResourceRequestV1.minimum request ∧
  ResourceQuantityV1.unit g = ResourceRequestV1.unit request.
Proof. unfold grant. intros (o & _ & [= <-])%bind_Some. done. Qed.

(** Minting a job lease never panics: the [expect] on the offered resource is
    unreachable, a refused job yields the denial of the check and an admitted job a lease. *)
Theorem authorize_job_total self job offer node epoch now lease_id nonce_id :
  ∃ r, authorize_job_at_epoch self job offer node epoch now lease_id nonce_id = Some r ∧
    match check_job_at self job offer node now with
    | Ok _ => is_ok r = true
    | Err e => r = Err e
    end.
Proof.
  unfold authorize_job_at_epoch.
  destruct (check_job_at self job offer node now) as [[]|e] eqn:E; [|by eexists].
  apply check_job_spec in E as (_ & _ & _ & _ & _ & _ & Hreq & _).
  destruct (mapM (grant offer) (JobSpecV1.requests job)) as [granted|] eqn:Hm; [by eexists|].
  exfalso. apply eq_None_not_Some in Hm. apply Hm, mapM_is_Some_2, Forall_forall.
  intros r Hr. by apply grant_some, Hreq.
Qed.

Lemma started now at_ : now - seconds 5 ≤ at_ → lease_has_started now at_ = true.
Proof. unfold lease_has_started, MAX_LEASE_CLOCK_SKEW_SECONDS. intros. apply Z.leb_le. lia. Qed.

Lemma ttl_end_later self now : now < ttl_end self now.
Proof. unfold ttl_end, seconds. lia. Qed.

(** A minted lease verifies under the Governor's key and is active where it should be. *)
Lemma minted_lease_usable self job offer node epoch now lease_id nonce_id lease :
  authorize_job_at_epoch self job offer node epoch now lease_id nonce_id = Some (Ok lease) →
  CapabilityLeaseV1.job_id lease = JobSpecV1.job_id job ∧
  CapabilityLeaseV1.project_id lease = JobSpecV1.project_id job ∧
  CapabilityLeaseV1.adapter lease = JobSpecV1.adapter job ∧
  CapabilityLeaseV1.operation lease = JobSpecV1.operation job ∧
  verify_lease_with_key (public_key self) lease = Ok () ∧
  (∀ at_ e, now - seconds 5 ≤ at_ →
     CapabilityLeaseV1.is_active_at lease at_ e = true ↔
     at_ < CapabilityLeaseV1.expires_at lease ∧ e = epoch).
Proof.
  unfold authorize_job_at_epoch. destruct (check_job_at self job offer node now) as [[]|]; [|done].
  intros (granted & _ & H)%bind_Some. apply (inj Some) in H. injection H as <-. cbn. split_and!; try done.
  - apply (verify_contract_signature_ok (signing_key self)).
  - intros at_ e Hat. unfold CapabilityLeaseV1.is_active_at. cbn.
    rewrite bool_decide_true, started by done. cbn [andb].
    unfold sign_lease. rewrite hex_signature_not_empty. cbn.
    rewrite andb_true_r, andb_true_iff, Z.ltb_lt, Z.eqb_eq. intuition.
Qed.

(** [C11] A minted job lease names exactly the job, project, adapter, operation and inputs it
    was asked for, grants each request its minimum in its own class and unit, expires after
    its issue and no later than the job's deadline and the lease time-to-live, verifies under
    the Governor's key, and is active at its epoch from five seconds before its issue until
    its expiry, and at no other epoch or later instant. *)
Theorem job_lease_sound self job offer node epoch now lease_id nonce_id lease :
  authorize_job_at_epoch self job offer node epoch now lease_id nonce_id = Some (Ok lease) →
  admissible self job offer node now ∧
  CapabilityLeaseV1.job_id lease = JobSpecV1.job_id job ∧
  CapabilityLeaseV1.node_id lease = ResourceOfferV1.node_id offer ∧
  CapabilityLeaseV1.project_id lease = JobSpecV1.project_id job ∧
  CapabilityLeaseV1.adapter lease = JobSpecV1.adapter job ∧
  CapabilityLeaseV1.operation lease = JobSpecV1.operation job ∧
  (∀ d, d ∈ CapabilityLeaseV1.input_digests lease ↔
        ∃ a, a ∈ JobSpecV1.inputs job ∧ ArtifactRefV1.digest a = d) ∧
  Forall2 (λ r g, ResourceQuantityV1.class g = ResourceRequestV1.class r ∧
                  ResourceQuantityV1.available g = ResourceRequestV1.minimum r ∧
                  ResourceQuantityV1.unit g = ResourceRequestV1.unit r)
    (JobSpecV1.requests job) (CapabilityLeaseV1.granted lease) ∧
  now < CapabilityLeaseV1.expires_at lease ≤ Z.min (JobSpecV1.deadline job) (ttl_end self now) ∧
  verify_lease self lease = Ok () ∧ verify_lease_with_key (public_key self) lease = Ok () ∧
  (∀ at_ e, now - seconds 5 ≤ at_ →
     CapabilityLeaseV1.is_active_at lease at_ e = true ↔
     at_ < CapabilityLeaseV1.expires_at lease ∧ e = epoch).
Proof.
  intros Hminted. destruct (minted_lease_usable _ _ _ _ _ _ _ _ _ Hminted) as (_ & _ & _ & _ & Hverify & Hactive).
  revert Hminted Hverify Hactive. unfold authorize_job_at_epoch.
  destruct (check_job_at self job offer node now) as [[]|] eqn:E; [|done].
  apply check_job_spec in E. intros (granted & Hg & H)%bind_Some.
  apply (inj Some) in H. injection H as <-. intros Hverify Hactive.
  pose proof E as (_ & Hv & _ & _ & _ & _ & _ & _ & Hnode & _).
  apply proj2, proj1 in Hv. pose proof (ttl_end_later self now).
  cbn. split_and!; try done.
  - intros d. rewrite elem_of_list_to_set, list_elem_of_fmap. naive_solver.
  - apply mapM_Some in Hg. eapply Forall2_impl; [done|].
    intros r g (? & ? & ? & ?)%grant_spec. done.
  - lia.
  - unfold verify_lease, sign_lease, len. cbn [CapabilityLeaseV1.signature CapabilityLeaseV1.with_signature].
    rewrite hex_decode_encode. cbn [ok_or mbind result_bind]. rewrite signature_length.
    by rewrite verify_sign.
Qed.

(** ** The kill latch *)

(** While the owner's kill latch is set the Governor mints no job, model-session,
    remote-desktop or storage lease and authorises no diagnostic action, whatever the
    request: each is refused with [KillLatch] before any other check. *)
Theorem kill_latch_refuses self :
  GovernorConfig.killed (config self) = true →
  (∀ job offer node epoch now id nonce,
     authorize_job_at_epoch self job offer node epoch now id nonce = Some (Err Denial.KillLatch)) ∧
  (∀ offer runtime model endpoint limits epoch now id sid nonce,
     authorize_model_session_at_epoch self offer runtime model endpoint limits epoch now id sid nonce
       = Err Denial.KillLatch) ∧
  (∀ offer endpoint sid mode limits epoch now id nonce,
     authorize_remote_desktop_at_epoch self offer endpoint sid mode limits epoch now id nonce
       = Err Denial.KillLatch) ∧
  (∀ offer digest size class operation epoch now id nonce,
     authorize_storage_at_epoch self offer digest size class operation epoch now id nonce
       = Err Denial.KillLatch) ∧
  (∀ action, authorize_diagnostic_action self action = Err Denial.KillLatch).
Proof.
  intros Hk. unfold authorize_job_at_epoch, check_job_at, authorize_model_session_at_epoch,
    authorize_remote_desktop_at_epoch, authorize_storage_at_epoch, authorize_diagnostic_action.
  by rewrite Hk.
Qed.

(** ** Promotion canaries *)

(** What the risk of the changed paths entitles a candidate to. *)
Definition canary_entitlement (self : t) (c : PromotionCandidateV1.t) (traffic : Z) : Prop :=
  match classify_promotion_paths (PromotionCandidateV1.changed_paths c) with
  | RiskClass.R0Configuration => traffic = 1000
  | RiskClass.R1AllowlistedSource => traffic = 500 ∧
      PromotionCandidateV1.project_id c ∈ GovernorConfig.trusted_autopilot_projects (config self)
  | RiskClass.R2ProtectedChange => traffic = 100 ∧
      PromotionCandidateV1.project_id c ∈ GovernorConfig.autonomous_protected_projects (config self)
  | RiskClass.R3AuthorityCritical => False
  end.

Lemma authorize_canary_inv self c epoch now id nonce lease :
  authorize_promotion_canary_at_epoch self c epoch now id nonce = Ok lease →
  PromotionCandidateV1.is_valid_at c now = true ∧
  ∃ traffic, canary_entitlement self c traffic ∧ 1 ≤ traffic ≤ 1000 ∧
    lease = sign_contract (signing_key self)
      (PromotionCanaryLeaseV1.mk PromotionCanaryLeaseV1.SCHEMA id
          (PromotionCandidateV1.proposal_id c) (PromotionCandidateV1.project_id c)
          (PromotionCandidateV1.candidate_digest c) (PromotionCandidateV1.risk c)
          traffic 100 500 500 now
          (Z.min (PromotionCandidateV1.expires_at c) (now + minutes 10))
          (uuid_simple nonce) epoch "").
Proof.
  unfold authorize_promotion_canary_at_epoch, canary_entitlement.
  rewrite !guard_ok, !negb_false_iff, bool_decide_eq_true. intros (Hv & Hrisk & H).
  rewrite <-Hrisk in *. apply bind_unit_ok in H as [Hauth H].
  apply bind_ok_inv in H as (traffic & Ht & [= <-]). split; [done|]. exists traffic.
  destruct (PromotionCandidateV1.risk c) eqn:E; cbn in *; simplify_eq/=;
    try (case_bool_decide; [|done]); (split_and!; try done; lia).
Qed.

Lemma canary_candidate_facts c now :
  PromotionCandidateV1.is_valid_at c now = true →
  is_sha256_digest (PromotionCandidateV1.candidate_digest c) = true ∧
  now < PromotionCandidateV1.expires_at c.
Proof. unfold PromotionCandidateV1.is_valid_at. intros H. bool_prop. split; done. Qed.

(** A canary lease is bound to the proposal, project and digest of a candidate whose
    evidence validates, verifies under the Governor's key, is active from its issue to its
    expiry at its epoch only, lives at most ten minutes and never beyond the candidate, and
    carries the traffic its changed paths entitle it to: 10% for configuration, 5% for
    source of an autopilot project, 1% for a protected change of an enabled project. *)
Theorem canary_lease_sound self c epoch now id nonce lease :
  authorize_promotion_canary_at_epoch self c epoch now id nonce = Ok lease →
  PromotionCandidateV1.is_valid_at c now = true ∧
  PromotionCanaryLeaseV1.proposal_id lease = PromotionCandidateV1.proposal_id c ∧
  PromotionCanaryLeaseV1.project_id lease = PromotionCandidateV1.project_id c ∧
  PromotionCanaryLeaseV1.candidate_digest lease = PromotionCandidateV1.candidate_digest c ∧
  now < PromotionCanaryLeaseV1.expires_at lease
    ≤ Z.min (PromotionCandidateV1.expires_at c) (now + minutes 10) ∧
  canary_entitlement self c (PromotionCanaryLeaseV1.max_traffic_basis_points lease) ∧
  verify_promotion_canary_with_key (public_key self) lease = Ok () ∧
  (∀ at_ e, now - seconds 5 ≤ at_ →
     PromotionCanaryLeaseV1.is_active_at lease at_ e = true ↔
     at_ < PromotionCanaryLeaseV1.expires_at lease ∧ e = epoch).
Proof.
  intros (Hv & traffic & Hent & Htr & ->)%authorize_canary_inv.
  pose proof (canary_candidate_facts c now Hv) as [Hd He]. unfold minutes, seconds.
  split_and!; try done; [cbn; lia|apply verify_sign_contract|].
  intros at_ e Hat. unfold PromotionCanaryLeaseV1.is_active_at.
  match goal with |- context [sign_contract ?k ?l] =>
    pose proof (signature_not_empty k l) as Hs end.
  cbn [signature_of canary_contract] in Hs. rewrite Hs. cbn.
  rewrite bool_decide_true, started, Hd, nonce_bounded by done. unfold in_range.
  rewrite (proj2 (Z.leb_le 1 traffic)), (proj2 (Z.leb_le traffic 1000)) by lia.
  rewrite !andb_true_r. cbn. rewrite andb_true_iff, Z.ltb_lt, Z.eqb_eq. intuition.
Qed.

(** No Governor configuration lets a candidate that touches the authority plane (the
    policy, protocol, controller, agent, mesh or storage crates, policies, hold-outs, signing,
    the updater, the promotion service or the workflows, in any letter case and with either
    path separator) obtain a canary lease. *)
Theorem authority_plane_never_autonomous self c epoch now id nonce path prefix :
  path ∈ PromotionCandidateV1.changed_paths c → prefix ∈ authority_critical →
  starts_with prefix (normalize_path path) = true →
  is_ok (authorize_promotion_canary_at_epoch self c epoch now id nonce) = false.
Proof.
  intros Hpath Hprefix Hs.
  destruct (authorize_promotion_canary_at_epoch self c epoch now id nonce) as [l|] eqn:E; [|done].
  apply authorize_canary_inv in E as (_ & traffic & Hent & _). exfalso.
  unfold canary_entitlement, classify_promotion_paths in Hent.
  rewrite (proj2 (existsb_elem _ _)) in Hent; [done|].
  exists (normalize_path path). split; [by apply list_elem_of_fmap_2|].
  apply existsb_elem. eauto.
Qed.

(** ** Session and storage leases *)

Lemma remote_ttl self :
  1 ≤ Z.min MAX_REMOTE_DESKTOP_LEASE_SECONDS
        (Z.max 1 (GovernorConfig.lease_ttl_seconds (config self))) ≤ 30.
Proof. unfold MAX_REMOTE_DESKTOP_LEASE_SECONDS. lia. Qed.

Lemma num_seconds_seconds n : num_seconds (seconds n) = n.
Proof. unfold num_seconds, seconds. apply Z.quot_mul. lia. Qed.

(** A remote-desktop lease is minted only for a current offer of a foregrounded worker
    that advertises a shipped, valid remote-assist capability for that very mode; it is bound
    to the offer's node and the calling endpoint, lives between one and thirty seconds
    whatever the configured time-to-live, verifies, and is active until its expiry. *)
Theorem remote_desktop_lease_sound self offer endpoint sid mode limits epoch now id nonce lease :
  authorize_remote_desktop_at_epoch self offer endpoint sid mode limits epoch now id nonce = Ok lease →
  now < ResourceOfferV1.expires_at offer ∧
  AvailabilityV1.foreground_allowed (ResourceOfferV1.availability offer) = true ∧
  (∃ cap, cap ∈ ResourceOfferV1.workload_capabilities offer ∧
     WorkloadCapabilityV1.status cap = WorkloadCapabilityStatus.Shipped ∧
     WorkloadCapabilityV1.authorizes cap "rampage.remote-assist.v1"
       (remote_desktop_operation mode) = true) ∧
  RemoteDesktopLeaseV1.node_id lease = ResourceOfferV1.node_id offer ∧
  RemoteDesktopLeaseV1.controller_endpoint_id lease = endpoint ∧
  RemoteDesktopLeaseV1.mode lease = mode ∧
  now + seconds 1 ≤ RemoteDesktopLeaseV1.expires_at lease ≤ now + seconds 30 ∧
  verify_remote_desktop_lease_with_key (public_key self) lease = Ok () ∧
  (∀ at_ e, now - seconds 5 ≤ at_ →
     RemoteDesktopLeaseV1.is_active_at lease at_ e = true ↔
     at_ < RemoteDesktopLeaseV1.expires_at lease ∧ e = epoch).
Proof.
  unfold authorize_remote_desktop_at_epoch. rewrite !guard_ok.
  intros (_ & Hexp & Hlim & Hcap & H). bool_prop. injection H as <-.
  pose proof (remote_ttl self) as Httl. set (ttl := Z.min _ _) in *.
  match goal with H : existsb _ _ = true |- _ =>
    apply existsb_elem in H as (cap & Hin & Hc) end. bool_prop.
  split_and!; try done; [by exists cap|cbn; unfold seconds; lia|cbn; unfold seconds; lia| |].
  { apply (verify_contract_signature_ok (signing_key self)). }
  intros at_ e Hat. unfold RemoteDesktopLeaseV1.is_active_at. cbn.
  rewrite bool_decide_true, started, nonce_bounded by done. cbn [andb].
  replace (now + seconds ttl - now) with (seconds ttl) by lia. rewrite num_seconds_seconds.
  rewrite (proj2 (Z.leb_le ttl _)) by (unfold MAX_REMOTE_DESKTOP_LEASE_SECONDS; lia).
  repeat match goal with H : ?b = _ |- context [?b] => rewrite H end. cbn.
  rewrite hex_signature_not_empty. cbn.
  rewrite !andb_true_r, andb_true_iff, Z.ltb_lt, Z.eqb_eq. intuition.
Qed.

(** A model-session lease is minted only for a model installed on a shipped local
    runtime of a current offer with a fifth of the model's size to spare; it is bound to that
    model's digest, verifies, and is active from its issue to its expiry. *)
Theorem model_session_lease_sound self offer runtime model endpoint limits epoch now id sid nonce lease :
  authorize_model_session_at_epoch self offer runtime model endpoint limits epoch now id sid nonce
    = Ok lease →
  blank (ModelRuntimeOfferV1.runtime_digest runtime) = false →
  0 ≤ ModelSessionLimits.max_prompt_bytes limits → 0 ≤ ModelSessionLimits.max_output_tokens limits →
  InstalledModelV1.is_valid model = true ∧
  (∃ r, r ∈ ResourceOfferV1.model_runtimes offer ∧
     model ∈ ModelRuntimeOfferV1.installed_models r ∧
     ModelRuntimeOfferV1.status r = ModelRuntimeStatus.ShippedLocal ∧
     ModelRuntimeOfferV1.runtime_digest r = ModelSessionLeaseV1.runtime_digest lease) ∧
  sat_add (InstalledModelV1.artifact_size_bytes model)
    (InstalledModelV1.artifact_size_bytes model `div` 5)
    ≤ ModelRuntimeOfferV1.available_model_bytes runtime ∧
  ModelSessionLeaseV1.node_id lease = ResourceOfferV1.node_id offer ∧
  ModelSessionLeaseV1.model_digest lease = InstalledModelV1.artifact_digest model ∧
  verify_model_session_lease_with_key (public_key self) lease = Ok () ∧
  (∀ at_ e, now - seconds 5 ≤ at_ →
     ModelSessionLeaseV1.is_active_at lease at_ e = true ↔
     at_ < ModelSessionLeaseV1.expires_at lease ∧ e = epoch).
Proof.
  unfold authorize_model_session_at_epoch, exact_runtime. rewrite !guard_ok.
  intros (_ & Hexp & Hlim & Hcap & H) Hrd Hp Ho. bool_prop. injection H as <-.
  match goal with H : existsb _ (ResourceOfferV1.model_runtimes _) = true |- _ =>
    apply existsb_elem in H as (r & Hin & Hr) end. bool_prop.
  match goal with H : existsb _ (ModelRuntimeOfferV1.installed_models _) = true |- _ =>
    apply existsb_elem in H as (m & Hm & Heq) end. bool_prop. subst m.
  split_and!; try done.
  - exists r. split_and!; [done..|congruence|done].
  - apply (verify_contract_signature_ok (signing_key self)).
  - match goal with H : InstalledModelV1.is_valid model = true |- _ =>
      unfold InstalledModelV1.is_valid in H end. bool_prop.
    intros at_ e Hat. unfold ModelSessionLeaseV1.is_active_at. cbn.
    rewrite bool_decide_true, started, nonce_bounded by done. cbn [andb].
    repeat match goal with H : ?b = _ |- context [?b] => rewrite H end.
    rewrite (proj2 (Z.ltb_lt 0 (ModelSessionLimits.max_prompt_bytes limits))),
      (proj2 (Z.ltb_lt 0 (ModelSessionLimits.max_output_tokens limits))),
      !(proj2 (Z.leb_le _ _)) by lia.
    rewrite hex_signature_not_empty. cbn.
    rewrite !andb_true_r, andb_true_iff, Z.ltb_lt, Z.eqb_eq. intuition.
Qed.

(** A storage lease names a well-formed digest and at most the transfer limit, a write
    lease is minted only where the offer has that much of the matching storage class, and the
    lease verifies and is active from its issue to its expiry. *)
Theorem storage_lease_sound self offer digest size class operation epoch now id nonce lease :
  authorize_storage_at_epoch self offer digest size class operation epoch now id nonce = Ok lease →
  is_sha256_digest digest = true ∧ size ≤ MAX_ARTIFACT_TRANSFER_BYTES ∧
  (operation = ArtifactTransferOperation.Put →
   ∃ q, q ∈ ResourceOfferV1.resources offer ∧
     ResourceQuantityV1.class q = required_storage_class class ∧
     size ≤ ResourceQuantityV1.available q) ∧
  StorageLeaseV1.node_id lease = ResourceOfferV1.node_id offer ∧
  StorageLeaseV1.digest lease = digest ∧ StorageLeaseV1.size_bytes lease = size ∧
  verify_storage_lease_with_key (public_key self) lease = Ok () ∧
  (∀ at_ e, now - seconds 5 ≤ at_ →
     StorageLeaseV1.is_active_at lease at_ e = true ↔
     at_ < StorageLeaseV1.expires_at lease ∧ e = epoch).
Proof.
  unfold authorize_storage_at_epoch. rewrite !guard_ok.
  intros (_ & Hexp & Hart & Hput & H). bool_prop. injection H as <-.
  split_and!; try done.
  - intros ->. rewrite bool_decide_true in Hput by done. cbn [andb] in Hput. bool_prop. apply existsb_elem in Hput as (q & Hq & Hc).
    bool_prop. by exists q.
  - apply (verify_contract_signature_ok (signing_key self)).
  - intros at_ e Hat. unfold StorageLeaseV1.is_active_at. cbn.
    rewrite bool_decide_true, started, (proj2 (Z.leb_le size _)) by done. cbn [andb].
    rewrite hex_signature_not_empty. cbn.
    rewrite !andb_true_r, andb_true_iff, Z.ltb_lt, Z.eqb_eq. intuition.
Qed.

(** ** Signatures *)

(** A node's registered identity holds the key it signs with. *)
Definition identity_of (identity : NodeIdentityV1.t) (key : SigningKey) (node : Uuid) : Prop :=
  NodeIdentityV1.public_key identity = hex_encode (verifying_key key) ∧
  NodeIdentityV1.node_id identity = node.

(** What a node signs, its registered identity verifies: offers, execution receipts,
    model receipts and (while valid) artifact possession receipts, and an endpoint record
    signed by a key verifies as a pinned endpoint under that key at any time. *)
Theorem signed_contracts_verify key identity now :
  (∀ offer, identity_of identity key (ResourceOfferV1.node_id offer) →
     verify_offer identity (sign_offer key offer) = Ok ()) ∧
  (∀ r, identity_of identity key (ExecutionReceiptV1.node_id r) →
     verify_receipt identity (sign_receipt key r) = Ok ()) ∧
  (∀ r, identity_of identity key (ModelExecutionReceiptV1.node_id r) →
     verify_model_receipt identity (sign_model_receipt key r) = Ok ()) ∧
  (∀ r, identity_of identity key (ArtifactReplicaReceiptV1.node_id r) →
     ArtifactReplicaReceiptV1.is_valid_at (sign_artifact_replica_receipt key r) now = true →
     verify_artifact_replica_receipt now identity (sign_artifact_replica_receipt key r) = Ok ()) ∧
  (∀ e, MeshEndpointRecordV1.schema e = MeshEndpointRecordV1.SCHEMA →
     verify_pinned_mesh_endpoint_with_key (hex_encode (verifying_key key))
       (sign_mesh_endpoint key e) = Ok ()).
Proof.
  split_and!.
  - intros offer [Hk Hn]. unfold verify_offer. cbn [ResourceOfferV1.node_id sign_offer].
    rewrite Hk. rewrite bool_decide_true by done. apply verify_sign_contract.
  - intros r [Hk Hn]. unfold verify_receipt.
    rewrite Hk. rewrite bool_decide_true by done. apply verify_sign_contract.
  - intros r [Hk Hn]. unfold verify_model_receipt.
    rewrite Hk. rewrite bool_decide_true by done. apply verify_sign_contract.
  - intros r [Hk Hn] Hv. unfold verify_artifact_replica_receipt.
    rewrite Hk, Hv. rewrite bool_decide_true by done. apply verify_sign_contract.
  - intros e He. unfold verify_pinned_mesh_endpoint_with_key.
    rewrite bool_decide_true by done. apply verify_sign_contract.
Qed.

Lemma manifest_valid_signed key m now fabric :
  is_sha256_digest fabric = true → RelayAccessManifestV1.is_valid_at m now = true →
  RelayAccessManifestV1.is_valid_at (sign_contract key (with_fabric_id fabric m)) now = true.
Proof.
  unfold RelayAccessManifestV1.is_valid_at. intros Hf H.
  pose proof (signature_not_empty key (with_fabric_id fabric m)) as Hs.
  cbn [signature_of manifest_contract] in Hs. rewrite Hs. cbn in *. bool_prop.
  repeat (apply andb_true_intro; split); try done; try (by apply bool_decide_eq_true);
    try (by apply Z.leb_le); try (by apply Z.ltb_lt).
  by apply negb_true_iff, bool_decide_eq_false.
Qed.

(** Signing a relay access manifest never panics, stamps it with the fabric identity of
    the signing key, and the result verifies under that key; under any other key whose fabric
    identity differs it is refused. *)
Theorem relay_manifest_roundtrip key m now :
  RelayAccessManifestV1.is_valid_at m now = true →
  ∃ signed, sign_relay_access_manifest key m = Some signed ∧
    relay_fabric_id (hex_encode (verifying_key key)) = Ok (RelayAccessManifestV1.fabric_id signed) ∧
    RelayAccessManifestV1.allowed_endpoint_ids signed = RelayAccessManifestV1.allowed_endpoint_ids m ∧
    RelayAccessManifestV1.generation signed = RelayAccessManifestV1.generation m ∧
    verify_relay_access_manifest_with_key now (hex_encode (verifying_key key)) signed = Ok () ∧
    ∀ other, relay_fabric_id other ≠ relay_fabric_id (hex_encode (verifying_key key)) →
      verify_relay_access_manifest_with_key now other signed = Err Denial.InvalidSignature.
Proof.
  intros Hv. unfold sign_relay_access_manifest. rewrite relay_fabric_id_ok. eexists. split; [done|].
  pose proof (manifest_valid_signed key m now _ (fabric_id_digest (verifying_key key)) Hv) as Hs.
  split_and!; [done..| |].
  - unfold verify_relay_access_manifest_with_key. rewrite Hs, relay_fabric_id_ok.
    cbn [negb mbind result_bind]. rewrite bool_decide_true by done. apply verify_sign_contract.
  - intros other Ho. unfold verify_relay_access_manifest_with_key. rewrite Hs. cbn [negb].
    assert (∀ e, relay_fabric_id other = Err e → e = Denial.InvalidSignature) as He.
    { unfold relay_fabric_id. intros e. destruct (hex_decode other); cbn; [case_match|]; congruence. }
    destruct (relay_fabric_id other) as [f|e]; cbn [mbind result_bind]; [|by rewrite (He e)].
    rewrite bool_decide_false; [done|]. intros Heq. apply Ho. rewrite <-Heq. done.
Qed.

End facts.

(** ** Concrete instances *)

Module Witness.
Import ReferenceCrypto.

Definition digest : string :=
  "sha256:0123456789abcdef0123456789abcdef0123456789abcdef0123456789abcdef".
Definition owner_key : @SigningKey reference_crypto := "owner".
Definition node_key : @SigningKey reference_crypto := "node".
Definition governor : Governor.t := from_signing_key GovernorConfig.default owner_key.
Definition stopped : Governor.t :=
  from_signing_key (GovernorConfig.with_killed true GovernorConfig.default) owner_key.

Definition cpu (labels : gmap string string) (n : Z) : ResourceQuantityV1.t :=
  ResourceQuantityV1.mk ResourceClass.CpuCompute 8 n "cores" labels.
Definition cache : ResourceQuantityV1.t :=
  ResourceQuantityV1.mk ResourceClass.StorageCache 1000 1000 "bytes" ∅.
Definition assist : WorkloadCapabilityV1.t :=
  WorkloadCapabilityV1.mk WorkloadCapabilityV1.SCHEMA "rampage.remote-assist.v1"
    WorkloadDomain.EdgeUtility {["view"]} {[ExecutionPattern.WholeWorkload]}
    {[ResourceClass.CpuCompute]} WorkloadIsolation.AllowlistedInProcess "v1" false true false
    WorkloadCapabilityStatus.Shipped None.
Definition hashing : WorkloadCapabilityV1.t :=
  WorkloadCapabilityV1.mk WorkloadCapabilityV1.SCHEMA "rampage.hash.v1"
    WorkloadDomain.DataProcessing {["hash"]} {[ExecutionPattern.WholeWorkload]}
    {[ResourceClass.CpuCompute]} WorkloadIsolation.AllowlistedInProcess "v1" false true false
    WorkloadCapabilityStatus.Shipped None.
Definition model : InstalledModelV1.t :=
  InstalledModelV1.mk InstalledModelV1.SCHEMA "llama" digest 1000.
Definition runtime : ModelRuntimeOfferV1.t :=
  ModelRuntimeOfferV1.mk ModelRuntimeOfferV1.SCHEMA "rampage.ollama.v1" ModelBackend.LocalOllama
    "0.9" digest "x86" ModelMemoryKind.Host 2000 {[ModelParallelism.WholeModel]}
    ModelRuntimeStatus.ShippedLocal [model] None.
Definition endpoint : MeshEndpointRecordV1.t :=
  MeshEndpointRecordV1.mk MeshEndpointRecordV1.SCHEMA "ep" [] [] 0 (minutes 60) "".
Definition offer_with (resources : list ResourceQuantityV1.t) : ResourceOfferV1.t :=
  ResourceOfferV1.mk "rampage.resource-offer.v1" 5 7 0 (minutes 1) resources
    (AvailabilityV1.mk true None 80 true true)
    (list_to_set ["rampage.hash.v1"; "rampage.ollama.v1"; "rampage.remote-assist.v1"])
    [assist; hashing] [runtime] None (Some endpoint) "".
Definition offer : ResourceOfferV1.t := offer_with [cpu ∅ 4; cache].

Definition request (labels : gmap string string) : ResourceRequestV1.t :=
  ResourceRequestV1.mk ResourceClass.CpuCompute 2 4 "cores" labels.
Definition job_with (r : ResourceRequestV1.t) : JobSpecV1.t :=
  JobSpecV1.mk JobSpecV1.SCHEMA 11 12 13 "rampage.hash.v1" "hash" ∅
    [ArtifactRefV1.mk "rampage.artifact-ref.v1" digest 10 "text/plain" StorageClass.Cache false]
    [r] WorkloadTrust.NativeTrusted true ∅ (minutes 10) "key".
Definition job : JobSpecV1.t := job_with (request ∅).
Definition candidate_of (path : string) (risk : PromotionRiskV1.t) : PromotionCandidateV1.t :=
  PromotionCandidateV1.mk PromotionCandidateV1.SCHEMA 1 2 "main" digest [path] risk
    ((λ n, PromotionEvidenceGateV1.mk n true digest true) <$> PromotionCandidateV1.REQUIRED_GATES)
    0 (minutes 20).

Lemma job_lease_sound_witness :
  ∃ lease, authorize_job_at_epoch governor job offer 7 3 100 21 22 = Some (Ok lease) ∧
    verify_lease_with_key (public_key governor) lease = Ok () ∧
    CapabilityLeaseV1.expires_at lease ≤ minutes 2 + 100.
Proof.
  destruct (authorize_job_at_epoch governor job offer 7 3 100 21 22) as [[l|]|] eqn:E;
    [|vm_compute in E; discriminate E..].
  exists l. split; [done|].
  destruct (job_lease_sound _ _ _ _ _ _ _ _ _ E) as (_ & _ & _ & _ & _ & _ & _ & _ & Hexp & _ & Hv & _).
  split; [exact Hv|]. revert Hexp. unfold ttl_end, minutes, seconds. cbn. lia.
Defined.

Lemma kill_latch_refuses_witness :
  authorize_job_at_epoch stopped job offer 7 3 100 21 22 = Some (Err Denial.KillLatch).
Proof. apply (kill_latch_refuses stopped). reflexivity. Defined.

Lemma canary_lease_sound_witness :
  ∃ lease, authorize_promotion_canary_at_epoch governor
             (candidate_of "prompts/a.txt" PromotionRiskV1.R0Configuration) 3 100 21 22 = Ok lease ∧
    PromotionCanaryLeaseV1.max_traffic_basis_points lease = 1000.
Proof.
  destruct (authorize_promotion_canary_at_epoch governor
    (candidate_of "prompts/a.txt" PromotionRiskV1.R0Configuration) 3 100 21 22) as [l|] eqn:E;
    [|vm_compute in E; discriminate E].
  exists l. split; [done|].
  destruct (canary_lease_sound _ _ _ _ _ _ _ E) as (_ & _ & _ & _ & _ & Hent & _).
  exact Hent.
Defined.

Lemma authority_plane_never_autonomous_witness :
  is_ok (authorize_promotion_canary_at_epoch governor
           (candidate_of "Crates\Rampage-Policy\src\lib.rs" PromotionRiskV1.R0Configuration)
           3 100 21 22) = false.
Proof.
  apply (authority_plane_never_autonomous _ _ _ _ _ _ "Crates\Rampage-Policy\src\lib.rs"
           "crates/rampage-policy/"); [| |vm_compute; reflexivity].
  - apply list_elem_of_singleton. reflexivity.
  - apply list_elem_of_here.
Defined.

Lemma remote_desktop_lease_sound_witness :
  ∃ lease, authorize_remote_desktop_at_epoch governor offer "owner-endpoint" 31
             RemoteDesktopModeV1.View (RemoteDesktopLimits.mk 1920 1080 10) 3 100 21 22 = Ok lease ∧
    RemoteDesktopLeaseV1.expires_at lease ≤ 100 + seconds 30.
Proof.
  destruct (authorize_remote_desktop_at_epoch governor offer "owner-endpoint" 31
    RemoteDesktopModeV1.View (RemoteDesktopLimits.mk 1920 1080 10) 3 100 21 22) as [l|] eqn:E;
    [|vm_compute in E; discriminate E].
  exists l. split; [done|].
  destruct (remote_desktop_lease_sound _ _ _ _ _ _ _ _ _ _ _ E)
    as (_ & _ & _ & _ & _ & _ & [_ Hexp] & _). exact Hexp.
Defined.

Lemma model_session_lease_sound_witness :
  ∃ lease, authorize_model_session_at_epoch governor offer runtime model "owner-endpoint"
             (ModelSessionLimits.mk 4096 512) 3 100 21 22 23 = Ok lease ∧
    ModelSessionLeaseV1.model_digest lease = digest.
Proof.
  destruct (authorize_model_session_at_epoch governor offer runtime model "owner-endpoint"
    (ModelSessionLimits.mk 4096 512) 3 100 21 22 23) as [l|] eqn:E;
    [|vm_compute in E; discriminate E].
  exists l. split; [done|].
  assert (blank (ModelRuntimeOfferV1.runtime_digest runtime) = false) as Hb by (vm_compute; reflexivity).
  destruct (model_session_lease_sound _ _ _ _ _ _ _ _ _ _ _ _ E Hb) as (_ & _ & _ & _ & Hd & _);
    [cbn; lia|cbn; lia|exact Hd].
Defined.

Lemma storage_lease_sound_witness :
  ∃ lease, authorize_storage_at_epoch governor offer digest 500 StorageClass.Cache
             ArtifactTransferOperation.Put 3 100 21 22 = Ok lease ∧
    verify_storage_lease_with_key (public_key governor) lease = Ok ().
Proof.
  destruct (authorize_storage_at_epoch governor offer digest 500 StorageClass.Cache
    ArtifactTransferOperation.Put 3 100 21 22) as [l|] eqn:E; [|vm_compute in E; discriminate E].
  exists l. split; [done|].
  destruct (storage_lease_sound _ _ _ _ _ _ _ _ _ _ _ E) as (_ & _ & _ & _ & _ & _ & Hv & _).
  exact Hv.
Defined.

Definition identity : NodeIdentityV1.t :=
  NodeIdentityV1.mk NodeIdentityV1.SCHEMA 7 8 "worker" DeviceKind.Desktop "linux"
    (hex_encode (verifying_key node_key)) 0 0.

Lemma signed_contracts_verify_witness :
  verify_offer identity (sign_offer node_key offer) = Ok ().
Proof. apply (signed_contracts_verify node_key identity 0). split; reflexivity. Defined.

Definition manifest : RelayAccessManifestV1.t :=
  RelayAccessManifestV1.mk RelayAccessManifestV1.SCHEMA digest 1
    {["0123456789abcdef0123456789abcdef0123456789abcdef0123456789abcdef"]} 0 (minutes 10) "unsigned".

Lemma relay_manifest_roundtrip_witness :
  ∃ signed, sign_relay_access_manifest owner_key manifest = Some signed ∧
    verify_relay_access_manifest_with_key 100 (hex_encode (verifying_key owner_key))
      signed = Ok ().
Proof.
  destruct (relay_manifest_roundtrip owner_key manifest 100)
    as (signed & Hs & _ & _ & _ & Hv & _); [vm_compute; reflexivity|].
  exists signed. split; [exact Hs|exact Hv].
Defined.

(** The lower-cased path never ends in [Cargo.toml]: a manifest change outside the listed
    crates is classified as allow-listed source, unlike [package.json]. *)
Example cargo_toml_is_not_protected :
  classify_promotion_paths ["crates/rampage-cli/Cargo.toml"] = RiskClass.R1AllowlistedSource ∧
  classify_promotion_paths ["apps/desktop/package.json"] = RiskClass.R2ProtectedChange.
Proof. split; vm_compute; reflexivity. Qed.

(** The grant copies the labels of the first resource of the class, also when another one
    satisfied the request. *)
Example grant_labels_of_first_resource :
  ∃ lease, authorize_job_at_epoch governor (job_with (request {["zone" := "b"]}))
             (offer_with [cpu {["zone" := "a"]} 4; cpu {["zone" := "b"]} 4]) 7 3 100 21 22
           = Some (Ok lease) ∧
    (ResourceQuantityV1.labels <$> CapabilityLeaseV1.granted lease) = [{["zone" := "a"]}].
Proof.
  match goal with |- ∃ _, ?a = _ ∧ _ => destruct a as [[l|]|] eqn:E end;
    [|vm_compute in E; discriminate E..].
  exists l. split; [done|]. vm_compute in E. injection E as <-. vm_compute. reflexivity.
Qed.
End Witness.
