(* ===== verification/Scheduler.v ===== *)
(** * OnePool admission and scheduling (crates/rampage-controller/src/lib.rs)

    Scoring of offers against the reservation book, choice of an offer, and planning of
    a shard set.  [u64] sums written with [.sum()] wrap as in a release build; the ones
    written with [saturating_add] saturate. *)

From S2P Require Import Prelude.
From S2P Require Import Codec.
From S2P Require Import Text.
From S2P Require Import Contracts.
From stdpp Require Import pretty.
#[local] Open Scope Z_scope.
Import Text.

(** [as u64], and [iter.sum::<u64>()] in a release build. *)
Definition wrap_u64 (x : Z) : Z := x `mod` 18446744073709551616.
Definition sum_u64 (l : list Z) : Z := foldl (λ acc x, wrap_u64 (acc + x)) 0 l.

(** [PlacementScore]. *)
Module PlacementScore.
Record t := mk {
  node_id : Uuid;
  satisfies : bool;
  data_local_inputs : Z;
  missing_input_bytes : Z;
  capacity_headroom : Z;
  capacity_fit_milli : Z;
  link_rtt_micros : Z;
  link_downlink_bps : Z;
  estimated_transfer_millis : Z;
  utility_milli : Z;
  topology_confidence : string;
  reason : string
}.
End PlacementScore.

(** [AdmissionPolicy]. *)
Module AdmissionPolicy.
Record t := mk {
  protected_owner_reserve : gmap ResourceClass.t Z;
  safety_guardband_percent : Z
}.
Definition default : t :=
  mk {[ResourceClass.CpuCompute := 1; ResourceClass.RamWorkingSet := 512 * 1024 * 1024]} 10.
End AdmissionPolicy.

(** [ResourceReservation]. *)
Module ResourceReservation.
Record t := mk {
  job_id : Uuid;
  node_id : Uuid;
  class : ResourceClass.t;
  amount : Z;
  expires_at : DateTime
}.
End ResourceReservation.

(** [ShardPlacement]. *)
Module ShardPlacement.
Record t := mk { job_id : Uuid; node_id : Uuid; score : PlacementScore.t }.
End ShardPlacement.

(** [ShardPlanningFailure]. *)
Module ShardPlanningFailure.
Record t := mk { blocked_job_id : Uuid; planned_shards : Z; reason : string }.
End ShardPlanningFailure.

(** [{:?}] of a resource class. *)
Definition class_debug (class : ResourceClass.t) : string :=
  match class with
  | ResourceClass.CpuCompute => "CpuCompute"
  | ResourceClass.GpuCompute => "GpuCompute"
  | ResourceClass.NpuCompute => "NpuCompute"
  | ResourceClass.GpuMemory => "GpuMemory"
  | ResourceClass.RamWorkingSet => "RamWorkingSet"
  | ResourceClass.RamCache => "RamCache"
  | ResourceClass.StorageCache => "StorageCache"
  | ResourceClass.StorageScratch => "StorageScratch"
  | ResourceClass.ProtectedStore => "ProtectedStore"
  | ResourceClass.NetworkFetch => "NetworkFetch"
  | ResourceClass.NetworkRelay => "NetworkRelay"
  | ResourceClass.Toolchain => "Toolchain"
  | ResourceClass.Runtime => "Runtime"
  | ResourceClass.Codec_ => "Codec"
  | ResourceClass.LicensedService => "LicensedService"
  end.

Module Scheduler.

Definition denied_score (node_id : Uuid) (reason : string) : PlacementScore.t :=
  PlacementScore.mk node_id false 0 0 0 0 0 0 0 i64_min "inadmissible" reason.

(** ** Admission *)

(** [resources.get(&(class as u8))] after collecting into a map: the last one wins. *)
Definition resource_of_class (offer : ResourceOfferV1.t) (class : ResourceClass.t)
    : option ResourceQuantityV1.t :=
  List.find (λ r, ResourceQuantityV1.class r == class) (reverse (ResourceOfferV1.resources offer)).

(** The live reservations of a node and class. *)
Definition holds (node : Uuid) (class : ResourceClass.t) (now : DateTime)
    (r : ResourceReservation.t) : bool :=
  (ResourceReservation.node_id r == node) && (ResourceReservation.class r == class)
  && (now <? ResourceReservation.expires_at r).
Definition pending (reservations : list ResourceReservation.t) (node : Uuid)
    (class : ResourceClass.t) (now : DateTime) : Z :=
  foldl sat_add 0
    (ResourceReservation.amount <$> List.filter (holds node class now) reservations).

Definition owner_reserve (policy : AdmissionPolicy.t) (class : ResourceClass.t) : Z :=
  default 0 (AdmissionPolicy.protected_owner_reserve policy !! class).
Definition guardband (policy : AdmissionPolicy.t) (resource : ResourceQuantityV1.t) : Z :=
  sat_mul (ResourceQuantityV1.capacity resource)
    (Z.min (AdmissionPolicy.safety_guardband_percent policy) 100) `div` 100.
Definition admissible (reservations : list ResourceReservation.t) (policy : AdmissionPolicy.t)
    (now : DateTime) (node : Uuid) (class : ResourceClass.t) (resource : ResourceQuantityV1.t) : Z :=
  sat_sub (sat_sub (sat_sub (ResourceQuantityV1.available resource)
                            (pending reservations node class now))
                   (owner_reserve policy class))
          (guardband policy resource).

Definition labels_match (request : ResourceRequestV1.t) (resource : ResourceQuantityV1.t) : bool :=
  forallb (λ '(key, value), ResourceQuantityV1.labels resource !! key == Some value)
    (map_to_list (ResourceRequestV1.required_labels request)).

(** The body of [for request in &job.requests]; the accumulator is
    [(headroom, capacity_fit_milli)] and an error is the reason of the denial. *)
Definition score_request (offer : ResourceOfferV1.t) (reservations : list ResourceReservation.t)
    (policy : AdmissionPolicy.t) (now : DateTime) (acc : Z * Z) (request : ResourceRequestV1.t)
    : result string (Z * Z) :=
  let '(headroom, capacity_fit_milli) := acc in
  let class := ResourceRequestV1.class request in
  match resource_of_class offer class with
  | None => Err ("missing resource " +:+ class_debug class)
  | Some resource =>
      let room := admissible reservations policy now (ResourceOfferV1.node_id offer) class resource in
      if negb (labels_match request resource) || (room <? ResourceRequestV1.minimum request)
         || (ResourceQuantityV1.unit resource != ResourceRequestV1.unit request)
      then Err ("insufficient or incompatible " +:+ class_debug class)
      else
        let preferred :=
          Z.max (Z.max (ResourceRequestV1.preferred request) (ResourceRequestV1.minimum request)) 1 in
        let fit := sat_mul room 1000 `div` preferred in
        Ok (sat_add headroom (room - ResourceRequestV1.minimum request),
            Z.min capacity_fit_milli (Z.min fit 4000))
  end.

Definition score_offer_with_admission (job : JobSpecV1.t) (offer : ResourceOfferV1.t)
    (reservations : list ResourceReservation.t) (policy : AdmissionPolicy.t) (now : DateTime)
    : PlacementScore.t :=
  let node := ResourceOfferV1.node_id offer in
  if negb (bool_decide (JobSpecV1.adapter job ∈ ResourceOfferV1.adapters offer))
  then denied_score node "required adapter is unavailable"
  else
    match try_fold (score_request offer reservations policy now) (0, u64_max)
            (JobSpecV1.requests job) with
    | Err reason => denied_score node reason
    | Ok (headroom, fit) =>
        let capacity_fit_milli := if fit =? u64_max then 1000 else fit in
        PlacementScore.mk node true 0 (sum_u64 (ArtifactRefV1.size_bytes <$> JobSpecV1.inputs job))
          headroom capacity_fit_milli 0 0 0 capacity_fit_milli "unmeasured"
          "whole-workload placement satisfies hard constraints"
    end.

Definition score_offer (job : JobSpecV1.t) (offer : ResourceOfferV1.t) (now : DateTime)
    : PlacementScore.t :=
  score_offer_with_admission job offer [] (AdmissionPolicy.mk ∅ 0) now.

(** ** Topology *)

(** The link the score uses: [(rtt_micros, downlink_bps, confidence)]. *)
Definition link_of (offer : ResourceOfferV1.t) (now : DateTime) : Z * Z * string :=
  if is_none (ResourceOfferV1.mesh_endpoint offer) then (0, u64_max, "controller_local")
  else
    match ResourceOfferV1.link_benchmark offer with
    | Some link =>
        if (LinkBenchmarkV1.schema link == LinkBenchmarkV1.SCHEMA)
           && (now <? LinkBenchmarkV1.expires_at link) && (0 <? LinkBenchmarkV1.downlink_bps link)
        then (LinkBenchmarkV1.rtt_micros_p50 link, LinkBenchmarkV1.downlink_bps link, "measured")
        else (50000, 20000000, "conservative_fallback")
    | None => (50000, 20000000, "conservative_fallback")
    end.

Definition score_offer_with_topology (job : JobSpecV1.t) (offer : ResourceOfferV1.t)
    (reservations : list ResourceReservation.t) (policy : AdmissionPolicy.t) (now : DateTime)
    (local_input_digests : gset string) : PlacementScore.t :=
  let score := score_offer_with_admission job offer reservations policy now in
  if negb (PlacementScore.satisfies score) then score
  else
    let is_local input := bool_decide (ArtifactRefV1.digest input ∈ local_input_digests) in
    let data_local_inputs := zlen (List.filter is_local (JobSpecV1.inputs job)) `mod` 4294967296 in
    let missing :=
      foldl sat_add 0 (ArtifactRefV1.size_bytes <$>
                         List.filter (λ input, negb (is_local input)) (JobSpecV1.inputs job)) in
    let '(rtt, downlink, confidence) := link_of offer now in
    let estimated :=
      if missing =? 0 then 0
      else sat_add (div_ceil (sat_mul (sat_mul missing 8) 1000) (Z.max downlink 1))
                   (div_ceil rtt 1000) in
    let transfer_penalty := Z.min (div_ceil estimated 10) 10000 in
    PlacementScore.mk (PlacementScore.node_id score) true data_local_inputs missing
      (PlacementScore.capacity_headroom score) (PlacementScore.capacity_fit_milli score)
      rtt downlink estimated (PlacementScore.capacity_fit_milli score - transfer_penalty) confidence
      ("admissible; " +:+ pretty data_local_inputs +:+ " of " +:+ pretty (zlen (JobSpecV1.inputs job))
       +:+ " inputs local; estimated staging " +:+ pretty estimated +:+ " ms; topology "
       +:+ confidence).

(** ** Choice *)

(** The key of [placement_rank], compared lexicographically; [Reverse] is negation. *)
Definition placement_rank (score : PlacementScore.t) : list Z :=
  [PlacementScore.utility_milli score; PlacementScore.data_local_inputs score;
   PlacementScore.capacity_fit_milli score; - PlacementScore.estimated_transfer_millis score;
   PlacementScore.capacity_headroom score].
Fixpoint lex_leb (a b : list Z) : bool :=
  match a, b with
  | [], _ => true
  | _ :: _, [] => false
  | x :: a, y :: b => (x <? y) || ((x =? y) && lex_leb a b)
  end.

(** [Iterator::max_by_key]: among equal keys the last element. *)
Definition max_by_key {A} (key : A → list Z) (l : list A) : option A :=
  foldl (λ best x, match best with
                   | None => Some x
                   | Some b => if lex_leb (key b) (key x) then Some x else Some b
                   end) None l.

Definition choose_scored (scored : list (ResourceOfferV1.t * PlacementScore.t))
    : option (ResourceOfferV1.t * PlacementScore.t) :=
  max_by_key (λ p, placement_rank p.2) (List.filter (λ p, PlacementScore.satisfies p.2) scored).

Definition choose_offer_with_admission (job : JobSpecV1.t) (offers : list ResourceOfferV1.t)
    (reservations : list ResourceReservation.t) (policy : AdmissionPolicy.t) (now : DateTime)
    : option (ResourceOfferV1.t * PlacementScore.t) :=
  choose_scored ((λ o, (o, score_offer_with_admission job o reservations policy now)) <$> offers).

Definition choose_offer_with_topology (job : JobSpecV1.t) (offers : list ResourceOfferV1.t)
    (reservations : list ResourceReservation.t) (policy : AdmissionPolicy.t) (now : DateTime)
    (local_inputs_by_node : gmap Uuid (gset string))
    : option (ResourceOfferV1.t * PlacementScore.t) :=
  choose_scored
    ((λ o, (o, score_offer_with_topology job o reservations policy now
                 (default ∅ (local_inputs_by_node !! ResourceOfferV1.node_id o)))) <$> offers).

Definition choose_offer (job : JobSpecV1.t) (offers : list ResourceOfferV1.t) (now : DateTime)
    : option (ResourceOfferV1.t * PlacementScore.t) :=
  choose_scored ((λ o, (o, score_offer job o now)) <$> offers).

(** ** Shard sets *)

(** The locality map of one job, collected over the offers. *)
Definition locality (job : JobSpecV1.t) (offers : list ResourceOfferV1.t)
    (by_job_and_node : gmap (Uuid * Uuid) (gset string)) : gmap Uuid (gset string) :=
  foldl (λ m o, <[ResourceOfferV1.node_id o :=
                    default ∅ (by_job_and_node !! (JobSpecV1.job_id job, ResourceOfferV1.node_id o))]> m)
    ∅ offers.

Definition reserve (set : ShardSetV1.t) (job : JobSpecV1.t) (node : Uuid)
    (request : ResourceRequestV1.t) : ResourceReservation.t :=
  ResourceReservation.mk (JobSpecV1.job_id job) node (ResourceRequestV1.class request)
    (ResourceRequestV1.minimum request) (Z.min (ShardSetV1.deadline set) (JobSpecV1.deadline job)).

(** The body of [for job in &set.shards]; the accumulator is [(provisional, placements)]. *)
Definition place_shard (set : ShardSetV1.t) (offers : list ResourceOfferV1.t)
    (policy : AdmissionPolicy.t) (now : DateTime)
    (by_job_and_node : gmap (Uuid * Uuid) (gset string))
    (acc : list ResourceReservation.t * list ShardPlacement.t) (job : JobSpecV1.t)
    : result ShardPlanningFailure.t (list ResourceReservation.t * list ShardPlacement.t) :=
  let '(provisional, placements) := acc in
  match choose_offer_with_topology job offers provisional policy now
          (locality job offers by_job_and_node) with
  | None =>
      Err (ShardPlanningFailure.mk (JobSpecV1.job_id job) (zlen placements)
             "no admissible offer after provisional shard reservations")
  | Some (offer, score) =>
      let node := ResourceOfferV1.node_id offer in
      Ok (provisional ++ (reserve set job node <$> JobSpecV1.requests job),
          placements ++ [ShardPlacement.mk (JobSpecV1.job_id job) node score])
  end.

Definition plan_shard_set (set : ShardSetV1.t) (offers : list ResourceOfferV1.t)
    (reservations : list ResourceReservation.t) (policy : AdmissionPolicy.t) (now : DateTime)
    (by_job_and_node : gmap (Uuid * Uuid) (gset string))
    : result ShardPlanningFailure.t (list ShardPlacement.t) :=
  let live := List.filter (λ r, now <? ResourceReservation.expires_at r) reservations in
  '(_, placements) ← try_fold (place_shard set offers policy now by_job_and_node) (live, [])
                       (ShardSetV1.shards set);
  Ok placements.

End Scheduler.
