(* ===== verification/SchedulerFacts.v ===== *)
(** * What admission and scheduling guarantee

    The chosen offer is admissible and of maximal rank, admission is exactly the stated
    conditions on every request, and a planned shard set never commits more of a node's
    resource than it has after live reservations, the owner's reserve and the guard band. *)

From S2P Require Import Prelude.
From S2P Require Import Codec.
From S2P Require Import Text.
From S2P Require Import Contracts.
From S2P Require Import ContractFacts.
From S2P Require Import Scheduler.
Import Text Scheduler.

(** ** Choosing an offer *)

Lemma lex_leb_refl a : lex_leb a a = true.
Proof. induction a as [|x a IH]; cbn; [done|]. by rewrite Z.eqb_refl, IH, orb_true_r. Qed.

Lemma lex_leb_cons x y a b :
  lex_leb (x :: a) (y :: b) = true ↔ x < y ∨ x = y ∧ lex_leb a b = true.
Proof. cbn. rewrite orb_true_iff, andb_true_iff, Z.ltb_lt, Z.eqb_eq. done. Qed.

Lemma lex_leb_trans a b c : lex_leb a b = true → lex_leb b c = true → lex_leb a c = true.
Proof.
  revert b c. induction a as [|x a IH]; intros [|y b] [|z c]; try done.
  rewrite !lex_leb_cons. intros [?|[-> ?]] [?|[-> ?]]; [left; lia..|right]. eauto.
Qed.

Lemma lex_leb_total a b : length a = length b → lex_leb a b = false → lex_leb b a = true.
Proof.
  revert b. induction a as [|x a IH]; intros [|y b]; [done..|].
  intros [= Hlen] H. apply not_true_iff_false in H. rewrite lex_leb_cons in *.
  destruct (lex_leb a b) eqn:E; [|specialize (IH b Hlen E)];
    destruct (Z.lt_trichotomy x y) as [?|[->|?]]; tauto.
Qed.

Section max_by_key.
Context {A : Type} (key : A → list Z) (n : nat) (key_length : ∀ x, length (key x) = n).

Lemma max_by_key_snoc l x :
  max_by_key key (l ++ [x]) =
    match max_by_key key l with
    | None => Some x
    | Some b => if lex_leb (key b) (key x) then Some x else Some b
    end.
Proof. unfold max_by_key. by rewrite foldl_app. Qed.

Lemma max_by_key_none l : max_by_key key l = None ↔ l = [].
Proof.
  destruct l as [|y l _] using rev_ind; [done|]. rewrite max_by_key_snoc. split.
  - destruct (max_by_key key l); [case_match|]; done.
  - intros H. by destruct l.
Qed.

Lemma max_by_key_some l b :
  max_by_key key l = Some b → b ∈ l ∧ ∀ x, x ∈ l → lex_leb (key x) (key b) = true.
Proof.
  revert b. induction l as [|y l IH] using rev_ind; intros b; [done|].
  rewrite max_by_key_snoc. destruct (max_by_key key l) as [b'|] eqn:E.
  - destruct (IH b' eq_refl) as [Hin Hmax].
    destruct (lex_leb (key b') (key y)) eqn:El; intros [= <-];
      (split; [apply elem_of_app; rewrite list_elem_of_singleton; tauto|]);
      intros x [Hx| ->%list_elem_of_singleton]%elem_of_app.
    + eauto using lex_leb_trans.
    + apply lex_leb_refl.
    + auto.
    + apply lex_leb_total; [by rewrite !key_length|done].
  - apply max_by_key_none in E as ->. intros [= <-]. split; [set_solver|].
    intros x ->%list_elem_of_singleton. apply lex_leb_refl.
Qed.
End max_by_key.

Lemma elem_of_filter_list {A} (p : A → bool) l x : x ∈ List.filter p l ↔ x ∈ l ∧ p x = true.
Proof. rewrite !list_elem_of_In. apply List.filter_In. Qed.

Lemma choose_scored_spec scored :
  match choose_scored scored with
  | Some (o, s) => (o, s) ∈ scored ∧ PlacementScore.satisfies s = true ∧
      ∀ o' s', (o', s') ∈ scored → PlacementScore.satisfies s' = true →
        lex_leb (placement_rank s') (placement_rank s) = true
  | None => ∀ o s, (o, s) ∈ scored → PlacementScore.satisfies s = false
  end.
Proof.
  unfold choose_scored. destruct (max_by_key _ _) as [[o s]|] eqn:E.
  - apply (max_by_key_some _ 5) in E as [Hin Hmax]; [|done].
    apply elem_of_filter_list in Hin as [Hin Hs]. split_and!; [done..|].
    intros o' s' Hin' Hs'. apply (Hmax (o', s')). by apply elem_of_filter_list.
  - apply max_by_key_none in E. intros o s Hin.
    destruct (PlacementScore.satisfies s) eqn:Hs; [|done].
    assert ((o, s) ∈ List.filter (λ p, PlacementScore.satisfies p.2) scored) as Hf
      by by apply elem_of_filter_list.
    rewrite E in Hf. by apply not_elem_of_nil in Hf.
Qed.

Lemma choose_topology_spec job offers reservations policy now locals :
  match choose_offer_with_topology job offers reservations policy now locals with
  | Some (o, s) =>
      o ∈ offers ∧
      s = score_offer_with_topology job o reservations policy now
            (default ∅ (locals !! ResourceOfferV1.node_id o)) ∧
      PlacementScore.satisfies s = true ∧
      ∀ o', o' ∈ offers →
        let s' := score_offer_with_topology job o' reservations policy now
                    (default ∅ (locals !! ResourceOfferV1.node_id o')) in
        PlacementScore.satisfies s' = true →
        lex_leb (placement_rank s') (placement_rank s) = true
  | None => ∀ o, o ∈ offers →
      PlacementScore.satisfies (score_offer_with_topology job o reservations policy now
        (default ∅ (locals !! ResourceOfferV1.node_id o))) = false
  end.
Proof.
  unfold choose_offer_with_topology.
  match goal with |- context [choose_scored ?l] => pose proof (choose_scored_spec l) as H end.
  destruct (choose_scored _) as [[o s]|].
  - destruct H as (Hin & Hs & Hmax). apply list_elem_of_fmap in Hin as (o0 & [= -> ->] & Hin).
    split_and!; [done..|]. cbn zeta. intros o' Ho' Hs'. eapply Hmax; [|done].
    apply list_elem_of_fmap. by exists o'.
  - intros o Ho. eapply H. apply list_elem_of_fmap. by exists o.
Qed.

(** [C37] The scheduler picks an admissible offer of maximal rank (utility, then local
    inputs, then fit, then shortest staging, then headroom), scored with that node's local
    inputs; it answers none exactly when no offer is admissible. *)
Theorem choose_offer_optimal job offers reservations policy now locals :
  let score o := score_offer_with_topology job o reservations policy now
                   (default ∅ (locals !! ResourceOfferV1.node_id o)) in
  match choose_offer_with_topology job offers reservations policy now locals with
  | Some (o, s) =>
      o ∈ offers ∧ s = score o ∧ PlacementScore.satisfies s = true ∧
      ∀ o', o' ∈ offers → PlacementScore.satisfies (score o') = true →
        lex_leb (placement_rank (score o')) (placement_rank s) = true
  | None => ∀ o, o ∈ offers → PlacementScore.satisfies (score o) = false
  end.
Proof. exact (choose_topology_spec job offers reservations policy now locals). Qed.

(** ** Admission *)

(** A request the offer can serve next to the reservations, reserve and guard band. *)
Definition serves (offer : ResourceOfferV1.t) (reservations : list ResourceReservation.t)
    (policy : AdmissionPolicy.t) (now : DateTime) (request : ResourceRequestV1.t) : Prop :=
  ∃ q, resource_of_class offer (ResourceRequestV1.class request) = Some q ∧
    ResourceRequestV1.required_labels request ⊆ ResourceQuantityV1.labels q ∧
    ResourceQuantityV1.unit q = ResourceRequestV1.unit request ∧
    ResourceRequestV1.minimum request ≤
      admissible reservations policy now (ResourceOfferV1.node_id offer)
        (ResourceRequestV1.class request) q.

Lemma labels_match_spec request q :
  labels_match request q = true ↔
  ResourceRequestV1.required_labels request ⊆ ResourceQuantityV1.labels q.
Proof.
  unfold labels_match. rewrite map_subseteq_spec, forallb_forall. split.
  - intros H k v Hk. specialize (H (k, v)). rewrite <-list_elem_of_In, elem_of_map_to_list in H.
    specialize (H Hk). cbn in H. by bool_prop.
  - intros H [k v]. rewrite <-list_elem_of_In, elem_of_map_to_list. intros Hk.
    apply bool_decide_eq_true. auto.
Qed.

Lemma score_request_ok offer reservations policy now acc request :
  is_ok (score_request offer reservations policy now acc request) = true ↔
  serves offer reservations policy now request.
Proof.
  destruct acc as [h f]. unfold score_request, serves.
  destruct (resource_of_class _ _) as [q|]; [|naive_solver].
  destruct (labels_match request q) eqn:Hl; cbn [negb orb].
  - apply labels_match_spec in Hl. destruct (_ <? _) eqn:Hm; bool_prop; cbn [orb].
    + split; [done|]. intros (? & [= <-] & _ & _ & ?). lia.
    + case_bool_decide; cbn; split; try done; [naive_solver|].
      intros (? & [= <-] & _ & ? & _). done.
  - split; [done|]. intros (? & [= <-] & Hs%labels_match_spec & _). congruence.
Qed.

Lemma score_requests_ok offer reservations policy now acc requests :
  is_ok (try_fold (score_request offer reservations policy now) acc requests) = true ↔
  Forall (serves offer reservations policy now) requests.
Proof.
  revert acc. induction requests as [|r requests IH]; intros acc; cbn [try_fold]; [done|].
  rewrite Forall_cons, <-(score_request_ok _ _ _ _ acc).
  destruct (score_request _ _ _ _ acc r) as [acc'|]; cbn; [rewrite IH; naive_solver|naive_solver].
Qed.

Lemma satisfies_spec job offer reservations policy now :
  PlacementScore.satisfies (score_offer_with_admission job offer reservations policy now) = true ↔
  JobSpecV1.adapter job ∈ ResourceOfferV1.adapters offer ∧
  Forall (serves offer reservations policy now) (JobSpecV1.requests job).
Proof.
  unfold score_offer_with_admission. case_bool_decide as Ha; cbn [negb].
  - rewrite <-(score_requests_ok _ _ _ _ (0, u64_max)).
    destruct (try_fold _ _ _) as [[h f]|]; cbn; naive_solver.
  - cbn. naive_solver.
Qed.

Lemma topology_satisfies job offer reservations policy now locals :
  PlacementScore.satisfies (score_offer_with_topology job offer reservations policy now locals) =
  PlacementScore.satisfies (score_offer_with_admission job offer reservations policy now).
Proof.
  unfold score_offer_with_topology.
  destruct (PlacementScore.satisfies (score_offer_with_admission _ _ _ _ _)) eqn:E; cbn [negb]; [|done].
  destruct (link_of offer now) as [[??]?]. done.
Qed.

(** An offer satisfies a job exactly when it has the adapter and, for every request, its
    (last) resource of the class has the labels and unit and at least the minimum left after
    live reservations, the owner's reserve and the safety guard band. *)
Theorem placement_satisfies_iff job offer reservations policy now locals :
  PlacementScore.satisfies (score_offer_with_topology job offer reservations policy now locals)
    = true ↔
  JobSpecV1.adapter job ∈ ResourceOfferV1.adapters offer ∧
  Forall (serves offer reservations policy now) (JobSpecV1.requests job).
Proof. rewrite topology_satisfies. apply satisfies_spec. Qed.

(** ** No overcommitment *)

(** Exact sums of what is reserved and what a plan places. *)
Definition held (reservations : list ResourceReservation.t) (node : Uuid)
    (class : ResourceClass.t) (now : DateTime) : Z :=
  zsum (ResourceReservation.amount <$> List.filter (holds node class now) reservations).
Definition demand (job : JobSpecV1.t) (class : ResourceClass.t) : Z :=
  zsum (ResourceRequestV1.minimum <$>
    List.filter (λ r, ResourceRequestV1.class r == class) (JobSpecV1.requests job)).
Fixpoint placed (jobs : list JobSpecV1.t) (placements : list ShardPlacement.t) (node : Uuid)
    (class : ResourceClass.t) : Z :=
  match jobs, placements with
  | job :: jobs, p :: placements =>
      (if ShardPlacement.node_id p == node then demand job class else 0)
      + placed jobs placements node class
  | _, _ => 0
  end.

Definition nonneg_book (l : list ResourceReservation.t) : Prop :=
  Forall (λ r, 0 ≤ ResourceReservation.amount r) l.
Definition nonneg_job (job : JobSpecV1.t) : Prop :=
  Forall (λ r, 0 ≤ ResourceRequestV1.minimum r) (JobSpecV1.requests job).
Definition nonneg_policy (policy : AdmissionPolicy.t) : Prop :=
  (∀ class, 0 ≤ owner_reserve policy class) ∧
  0 ≤ AdmissionPolicy.safety_guardband_percent policy.

Lemma Forall_filter_list {A} (P : A → Prop) p l : Forall P l → Forall P (List.filter p l).
Proof. rewrite !Forall_forall. setoid_rewrite elem_of_filter_list. naive_solver. Qed.

Lemma pending_held l node class now :
  nonneg_book l → pending l node class now = Z.min u64_max (held l node class now).
Proof.
  intros Hl. unfold pending, held. rewrite foldl_sat_add; [f_equal| |].
  - unfold is_u64, u64_max. lia.
  - apply Forall_fmap, Forall_filter_list. done.
Qed.

Lemma held_app l k node class now :
  held (l ++ k) node class now = held l node class now + held k node class now.
Proof. unfold held. by rewrite List.filter_app, fmap_app, zsum_app. Qed.

Lemma held_nonneg l node class now : nonneg_book l → 0 ≤ held l node class now.
Proof. intros Hl. apply zsum_nonneg, Forall_fmap, Forall_filter_list. done. Qed.

Lemma demand_nonneg job class : nonneg_job job → 0 ≤ demand job class.
Proof. intros Hj. apply zsum_nonneg, Forall_fmap, Forall_filter_list. done. Qed.

Lemma placed_nonneg jobs placements node class :
  Forall nonneg_job jobs → 0 ≤ placed jobs placements node class.
Proof.
  intros Hj. revert placements. induction Hj as [|job jobs Hjob Hj IH]; intros [|p ps]; cbn; try done.
  specialize (IH ps). pose proof (demand_nonneg job class Hjob). case_bool_decide; lia.
Qed.

Lemma held_reserved set job node node' class now :
  now < Z.min (ShardSetV1.deadline set) (JobSpecV1.deadline job) →
  held (reserve set job node <$> JobSpecV1.requests job) node' class now =
    if node == node' then demand job class else 0.
Proof.
  intros Hd. unfold held, demand. induction (JobSpecV1.requests job) as [|r rs IH].
  - cbn. by case_bool_decide.
  - rewrite fmap_cons. cbn [List.filter]. unfold holds at 1.
    cbn [reserve ResourceReservation.node_id ResourceReservation.class ResourceReservation.expires_at].
    rewrite (proj2 (Z.ltb_lt _ _)) by done. rewrite andb_true_r.
    destruct (bool_decide_reflect (node = node')) as [->|Hn]; cbn [andb].
    + case_bool_decide; [|done]. rewrite !fmap_cons. unfold zsum in *. cbn [foldr]. by rewrite IH.
    + done.
Qed.

Lemma demand_single job class :
  NoDup (ResourceRequestV1.class <$> JobSpecV1.requests job) →
  demand job class = 0 ∨
  ∃ r, r ∈ JobSpecV1.requests job ∧ ResourceRequestV1.class r = class ∧
    demand job class = ResourceRequestV1.minimum r.
Proof.
  unfold demand. induction (JobSpecV1.requests job) as [|r rs IH]; [by left|].
  rewrite fmap_cons, NoDup_cons. intros [Hr Hnd]. cbn [List.filter].
  case_bool_decide as Hc.
  - right. exists r. split_and!; [set_solver|done|]. rewrite fmap_cons.
    assert (List.filter (λ r, ResourceRequestV1.class r == class) rs = []) as ->; [|unfold zsum; cbn; lia].
    destruct (List.filter _ rs) as [|x l] eqn:E; [done|].
    assert (x ∈ x :: l) as Hx by set_solver. rewrite <-E in Hx.
    apply elem_of_filter_list in Hx as [Hx Hxc]. bool_prop. exfalso. apply Hr.
    apply list_elem_of_fmap. exists x. by split; [congruence|].
  - destruct (IH Hnd) as [?|(x & Hx & ?)]; [by left|]. right. exists x. set_solver.
Qed.

Definition typed_resource (q : ResourceQuantityV1.t) : Prop :=
  0 ≤ ResourceQuantityV1.capacity q ∧ ResourceQuantityV1.available q ≤ u64_max.

Lemma guardband_nonneg policy q :
  nonneg_policy policy → typed_resource q → 0 ≤ guardband policy q.
Proof.
  intros [_ Hp] [Hc _]. unfold guardband, sat_mul. apply Z.div_pos; [|lia].
  unfold u64_max. apply Z.min_glb; [lia|]. apply Z.mul_nonneg_nonneg; lia.
Qed.

(** What is admissible fits next to everything else. *)
Lemma admissible_bound l policy now node class q m :
  nonneg_book l → nonneg_policy policy → typed_resource q → 0 < m →
  m ≤ admissible l policy now node class q →
  held l node class now + m + owner_reserve policy class + guardband policy q
    ≤ ResourceQuantityV1.available q.
Proof.
  intros Hl Hp Hq Hm. unfold admissible. rewrite pending_held by done.
  pose proof (guardband_nonneg policy q Hp Hq). destruct Hp as [Hr _]. specialize (Hr class).
  destruct Hq as [_ Ha]. unfold sat_sub. lia.
Qed.

Lemma resource_of_class_elem offer class q :
  resource_of_class offer class = Some q → q ∈ ResourceOfferV1.resources offer.
Proof.
  intros [H _]%List.find_some. apply list_elem_of_In in H. by rewrite elem_of_reverse in H.
Qed.

Section no_overcommit.
Context (set : ShardSetV1.t) (offers : list ResourceOfferV1.t) (policy : AdmissionPolicy.t).
Context (now : DateTime) (locals : gmap (Uuid * Uuid) (gset string)).
Context (offers_nodup : NoDup (ResourceOfferV1.node_id <$> offers)).
Context (offers_typed : ∀ o, o ∈ offers → Forall typed_resource (ResourceOfferV1.resources o)).
Context (policy_ok : nonneg_policy policy).

(** A job whose reservations outlive the planning instant and name each class once. *)
Definition plannable (job : JobSpecV1.t) : Prop :=
  nonneg_job job ∧ NoDup (ResourceRequestV1.class <$> JobSpecV1.requests job) ∧
  now < Z.min (ShardSetV1.deadline set) (JobSpecV1.deadline job).

Definition fits (book : list ResourceReservation.t) (offer : ResourceOfferV1.t)
    (class : ResourceClass.t) : Prop :=
  ∃ q, resource_of_class offer class = Some q ∧
    held book (ResourceOfferV1.node_id offer) class now + owner_reserve policy class
      + guardband policy q ≤ ResourceQuantityV1.available q.

Lemma same_node o o' :
  o ∈ offers → o' ∈ offers → ResourceOfferV1.node_id o = ResourceOfferV1.node_id o' → o = o'.
Proof.
  intros Ho Ho' Heq.
  apply list_elem_of_lookup in Ho as [i Hi], Ho' as [j Hj].
  assert (i = j) as ->; [|congruence].
  apply (NoDup_lookup _ i j (ResourceOfferV1.node_id o) offers_nodup);
    rewrite list_lookup_fmap; [by rewrite Hi|rewrite Hj; cbn; by rewrite Heq].
Qed.

Lemma nonneg_reserved job node : nonneg_job job → nonneg_book (reserve set job node <$> JobSpecV1.requests job).
Proof. intros Hj. apply Forall_fmap. eapply Forall_impl; [done|]. done. Qed.

(** One placement: the book grows by the job's demand on the chosen node, and every class
    it takes something of still fits there. *)
Lemma place_shard_step book placements job book' placements' :
  nonneg_book book → plannable job →
  place_shard set offers policy now locals (book, placements) job = Ok (book', placements') →
  ∃ p o, placements' = placements ++ [p] ∧ ShardPlacement.job_id p = JobSpecV1.job_id job ∧
    o ∈ offers ∧ ShardPlacement.node_id p = ResourceOfferV1.node_id o ∧ nonneg_book book' ∧
    (∀ node class, held book' node class now =
       held book node class now + if ShardPlacement.node_id p == node then demand job class else 0) ∧
    (∀ class, 0 < demand job class → fits book' o class).
Proof.
  intros Hbook (Hj & Hnd & Hd). unfold place_shard.
  pose proof (choose_topology_spec job offers book policy now (locality job offers locals)) as Hc.
  destruct (choose_offer_with_topology _ _ _ _ _ _) as [[o s]|]; [|done].
  destruct Hc as (Ho & -> & Hs & _). rewrite topology_satisfies, satisfies_spec in Hs.
  destruct Hs as [_ Hserves]. intros [= <- <-]. eexists _, o. split_and!; try done; cbn.
  - apply Forall_app. split; [done|]. by apply nonneg_reserved.
  - intros node class. by rewrite held_app, held_reserved.
  - intros class Hpos. destruct (demand_single job class Hnd) as [?|(r & Hr & <- & Hdem)]; [lia|].
    rewrite Forall_forall in Hserves. destruct (Hserves r Hr) as (q & Hq & _ & _ & Hm).
    exists q. split; [done|]. rewrite held_app, held_reserved, bool_decide_true by done.
    pose proof (offers_typed o Ho) as Ht. rewrite Forall_forall in Ht.
    pose proof (admissible_bound book policy now (ResourceOfferV1.node_id o)
      (ResourceRequestV1.class r) q (ResourceRequestV1.minimum r) Hbook policy_ok
      (Ht q (resource_of_class_elem _ _ _ Hq)) ltac:(lia) Hm). lia.
Qed.

Lemma place_shards book placements jobs book' placements' :
  nonneg_book book → Forall plannable jobs →
  try_fold (place_shard set offers policy now locals) (book, placements) jobs
    = Ok (book', placements') →
  ∃ new, placements' = placements ++ new ∧
    Forall2 (λ job p, ShardPlacement.job_id p = JobSpecV1.job_id job ∧
               ∃ o, o ∈ offers ∧ ShardPlacement.node_id p = ResourceOfferV1.node_id o) jobs new ∧
    (∀ node class, held book' node class now = held book node class now + placed jobs new node class) ∧
    (∀ o class, o ∈ offers → 0 < placed jobs new (ResourceOfferV1.node_id o) class →
       fits book' o class).
Proof.
  intros Hbook Hjobs. revert book placements Hbook.
  induction Hjobs as [|job jobs Hjob Hjobs IH]; intros book placements Hbook; cbn [try_fold].
  - intros [= <- <-]. exists []. rewrite app_nil_r. split_and!; [done|done| |].
    + intros. cbn. lia.
    + intros o class _. cbn. lia.
  - intros ([book1 placements1] & Hstep & Hrest)%bind_ok_inv.
    destruct (place_shard_step _ _ _ _ _ Hbook Hjob Hstep)
      as (p & o & -> & Hid & Ho & Hnode & Hbook1 & Hheld & Hfit).
    destruct (IH book1 _ Hbook1 Hrest) as (new & -> & Hall & Hheld' & Hfit').
    exists (p :: new). rewrite <-app_assoc. split_and!; [done|constructor; eauto| |].
    + intros node class. rewrite Hheld', Hheld. cbn. lia.
    + intros o' class Ho' Hpos. cbn in Hpos.
      destruct (decide (0 < placed jobs new (ResourceOfferV1.node_id o') class)) as [?|Hz]; [auto|].
      pose proof (placed_nonneg jobs new (ResourceOfferV1.node_id o') class) as Hnn.
      rewrite Forall_forall in Hnn. setoid_rewrite Forall_forall in Hjobs.
      assert (0 ≤ placed jobs new (ResourceOfferV1.node_id o') class) as Hnn'
        by (apply Hnn; intros j Hj; by destruct (Hjobs j Hj)).
      case_bool_decide as Heq; [|lia]. rewrite Hnode in Heq.
      apply (same_node o o' Ho Ho') in Heq as ->.
      destruct (Hfit class ltac:(lia)) as (q & Hq & Hb). exists q. split; [done|].
      rewrite Hheld'. lia.
Qed.
End no_overcommit.

Lemma held_live l node class now :
  held (List.filter (λ r, now <? ResourceReservation.expires_at r) l) node class now =
  held l node class now.
Proof.
  unfold held. do 2 f_equal. induction l as [|r l IH]; [done|]. cbn [List.filter].
  destruct (now <? ResourceReservation.expires_at r) eqn:E; cbn [List.filter]; [by rewrite IH|].
  assert (holds node class now r = false) as ->; [|done].
  unfold holds. by rewrite E, andb_false_r.
Qed.

(** [C13] A shard-set plan never overcommits. Let the set be valid, each of its jobs name each
    resource class at most once, the offers be of distinct nodes, and all amounts of the offers,
    jobs, policy and reservations be nonnegative. Then a plan places every shard, in order, on a
    node of some offer; and on each offer and class it takes something of, the live
    reservations, the placed minimums of the whole set, the owner's reserve and the guard band
    together fit in what the node has available. *)
Theorem shard_plan_never_overcommits set offers reservations policy now locals placements :
  plan_shard_set set offers reservations policy now locals = Ok placements →
  ShardSetV1.validate_at set now = Ok () →
  NoDup (ResourceOfferV1.node_id <$> offers) →
  (∀ o, o ∈ offers → Forall typed_resource (ResourceOfferV1.resources o)) →
  nonneg_policy policy → nonneg_book reservations →
  (∀ job, job ∈ ShardSetV1.shards set →
     nonneg_job job ∧ NoDup (ResourceRequestV1.class <$> JobSpecV1.requests job)) →
  Forall2 (λ job p, ShardPlacement.job_id p = JobSpecV1.job_id job ∧
             ∃ o, o ∈ offers ∧ ShardPlacement.node_id p = ResourceOfferV1.node_id o)
    (ShardSetV1.shards set) placements ∧
  ∀ o class, o ∈ offers →
    let total := placed (ShardSetV1.shards set) placements (ResourceOfferV1.node_id o) class in
    0 < total →
    ∃ q, resource_of_class o class = Some q ∧
      held reservations (ResourceOfferV1.node_id o) class now + total
        + owner_reserve policy class + guardband policy q ≤ ResourceQuantityV1.available q.
Proof.
  intros Hplan Hvalid Hnd Htyped Hpolicy Hbook Hjobs. unfold plan_shard_set in Hplan.
  apply bind_ok_inv in Hplan as ([book' ps] & Hfold & [= ->]).
  apply shard_set_spec in Hvalid as (_ & Hdl & _ & _ & _ & _ & Hok & _).
  assert (Forall (plannable set now) (ShardSetV1.shards set)) as Hplannable.
  { rewrite Forall_forall in *. intros job Hjob. destruct (Hok job Hjob) as (Hv & _).
    destruct (Hjobs job Hjob) as [? ?]. split_and!; [done..|].
    apply job_deadline in Hv. lia. }
  apply (place_shards set offers policy now locals Hnd Htyped Hpolicy) in Hfold
    as (new & Heq & Hall & Hheld & Hfits); [|by apply Forall_filter_list|done].
  cbn in Heq. subst placements. split; [done|]. intros o class Ho total Htotal.
  destruct (Hfits o class Ho Htotal) as (q & Hq & Hb). exists q. split; [done|].
  rewrite Hheld, held_live in Hb. unfold total. lia.
Qed.

(** ** Concrete instances *)

Module Witness.

Definition cpu (n : Z) : ResourceQuantityV1.t :=
  ResourceQuantityV1.mk ResourceClass.CpuCompute n n "cores" ∅.
Definition offer (node n : Z) : ResourceOfferV1.t :=
  ResourceOfferV1.mk "rampage.resource-offer.v1" (100 + node) node 0 (minutes 1) [cpu n]
    (AvailabilityV1.mk true None 80 true true) {["rampage.hash.v1"]} [] [] None None "".
Definition request (n : Z) : ResourceRequestV1.t :=
  ResourceRequestV1.mk ResourceClass.CpuCompute n n "cores" ∅.
Definition job (id : Z) (key : string) (requests : list ResourceRequestV1.t) : JobSpecV1.t :=
  JobSpecV1.mk JobSpecV1.SCHEMA id 12 13 "rampage.hash.v1" "hash" ∅ [] requests
    WorkloadTrust.NativeTrusted true ∅ (minutes 10) key.
Definition set (jobs : list JobSpecV1.t) : ShardSetV1.t :=
  ShardSetV1.mk ShardSetV1.SCHEMA 1 12 13 jobs 1 (minutes 10) "set".
Definition two : ShardSetV1.t := set [job 1 "a" [request 4]; job 2 "b" [request 4]].
Definition book : list ResourceReservation.t :=
  [ResourceReservation.mk 9 7 ResourceClass.CpuCompute 2 (minutes 5)].

Lemma shard_plan_never_overcommits_witness :
  ∃ ps, plan_shard_set two [offer 7 10; offer 8 10] book AdmissionPolicy.default 100 ∅ = Ok ps ∧
    Forall2 (λ j p, ShardPlacement.job_id p = JobSpecV1.job_id j) (ShardSetV1.shards two) ps.
Proof.
  destruct (plan_shard_set two [offer 7 10; offer 8 10] book AdmissionPolicy.default 100 ∅)
    as [ps|] eqn:E; [|vm_compute in E; discriminate E].
  exists ps. split; [done|].
  destruct (shard_plan_never_overcommits _ _ _ _ _ _ _ E) as [Hall _].
  - vm_compute. reflexivity.
  - apply (bool_decide_unpack _). vm_compute. exact I.
  - intros o [->|[->|[]%not_elem_of_nil]%elem_of_cons]%elem_of_cons;
      (constructor; [|constructor]); vm_compute; split; discriminate.
  - split; [intros []; vm_compute; discriminate|vm_compute; discriminate].
  - constructor; [vm_compute; discriminate|constructor].
  - intros j [->|[->|[]%not_elem_of_nil]%elem_of_cons]%elem_of_cons;
      (split; [constructor; [vm_compute; discriminate|constructor]|]);
      apply (bool_decide_unpack _); vm_compute; exact I.
  - eapply Forall2_impl; [exact Hall|]. intros j p [H _]. exact H.
Defined.

(** Two requests of one class are each checked against the whole of what is left: a job
    asking twice for 6 of 10 cores is placed. *)
Example repeated_class_overcommits :
  is_ok (plan_shard_set (set [job 1 "a" [request 6; request 6]]) [offer 7 10] []
           (AdmissionPolicy.mk ∅ 0) 100 ∅) = true.
Proof. vm_compute. reflexivity. Qed.
End Witness.
