(* ===== verification/ModelPlanner.v ===== *)
(** * Model-session planning (crates/rampage-controller/src/lib.rs)

    The read-only placement preview: which runtimes are candidates, how they are grouped
    and ranked, the selection of each strategy, and the placement of the selection.
    [None] is the panic of an index out of range. *)

From S2P Require Import Prelude.
From S2P Require Import Codec.
From S2P Require Import Text.
From S2P Require Import Contracts.
From S2P Require Import Scheduler.
From stdpp Require Import pretty.
Import Text.
#[local] Open Scope Z_scope.

(** [ModelPlanState]. *)
Module ModelPlanState.
Inductive t : Set := Ready | QualificationRequired | CapacityBlocked.
#[global] Instance eq_dec : EqDecision t.
Proof. solve_decision. Defined.
End ModelPlanState.

(** [ModelNodePlacement]. *)
Module ModelNodePlacement.
Record t := mk {
  node_id : Uuid;
  rank : Z;
  assigned_bytes : Z;
  available_model_bytes : Z;
  role : string;
  topology_confidence : string
}.
End ModelNodePlacement.

(** [ModelSessionPlan]. *)
Module ModelSessionPlan.
Record t := mk {
  schema : string;
  session_id : Uuid;
  strategy : ComputeStrategy.t;
  state : ModelPlanState.t;
  backend : option ModelBackend.t;
  parallelism : option ModelParallelism.t;
  distributed : bool;
  required_bytes : Z;
  observed_fabric_bytes : Z;
  maximum_supported_bytes : Z;
  predicted_speedup_milli : Z;
  placements : list ModelNodePlacement.t;
  blockers : list string;
  warnings : list string;
  proposed_local_endpoint : option string;
  execution_authority : string;
  reason : string
}.
Definition SCHEMA : string := "rampage.model-session-plan.v1".
End ModelSessionPlan.

(** [RuntimeCandidate]. *)
Module RuntimeCandidate.
Record t := mk {
  offer : ResourceOfferV1.t;
  runtime : ModelRuntimeOfferV1.t;
  available_bytes : Z
}.
End RuntimeCandidate.

Module ModelPlanner.
Abbreviation candidate := RuntimeCandidate.t.
Abbreviation bytes := RuntimeCandidate.available_bytes.

(** ** Capacity and topology of a candidate *)

Definition resource_available (offer : ResourceOfferV1.t) (class : ResourceClass.t) : Z :=
  match List.find (λ r, (ResourceQuantityV1.class r == class) && (ResourceQuantityV1.unit r == "byte"))
          (ResourceOfferV1.resources offer) with
  | Some r => ResourceQuantityV1.available r
  | None => 0
  end.
Definition observed_model_memory (offer : ResourceOfferV1.t) : Z :=
  Z.max (resource_available offer ResourceClass.GpuMemory)
    (resource_available offer ResourceClass.RamWorkingSet).
Definition runtime_capacity (offer : ResourceOfferV1.t) (runtime : ModelRuntimeOfferV1.t) : Z :=
  let observed :=
    match ModelRuntimeOfferV1.memory_kind runtime with
    | ModelMemoryKind.DedicatedGpu => resource_available offer ResourceClass.GpuMemory
    | ModelMemoryKind.Unified | ModelMemoryKind.Host =>
        resource_available offer ResourceClass.RamWorkingSet
    | ModelMemoryKind.Hybrid =>
        sat_add (resource_available offer ResourceClass.GpuMemory)
          (resource_available offer ResourceClass.RamWorkingSet)
    end in
  Z.min (ModelRuntimeOfferV1.available_model_bytes runtime) observed.

Definition topology_confidence (offer : ResourceOfferV1.t) : string :=
  if is_none (ResourceOfferV1.mesh_endpoint offer) then "controller_local"
  else if is_some (ResourceOfferV1.link_benchmark offer) then "measured" else "unmeasured".

Definition link_within (rtt bps : Z) (c : candidate) : bool :=
  let offer := RuntimeCandidate.offer c in
  is_none (ResourceOfferV1.mesh_endpoint offer)
  || is_some_and (λ link, (LinkBenchmarkV1.rtt_micros_p50 link <=? rtt)
                          && (bps <=? LinkBenchmarkV1.uplink_bps link)
                          && (bps <=? LinkBenchmarkV1.downlink_bps link))
       (ResourceOfferV1.link_benchmark offer).
Definition topology_ready : candidate → bool := link_within 25000 250000000.
Definition speed_topology_ready : candidate → bool := link_within 5000 1000000000.

Definition links (candidates : list candidate) : list LinkBenchmarkV1.t :=
  omap (λ c, ResourceOfferV1.link_benchmark (RuntimeCandidate.offer c)) candidates.
Definition predicted_tensor_speedup_milli (candidates : list candidate) : Z :=
  if (zlen candidates <? 2) || negb (forallb speed_topology_ready candidates) then 1000
  else
    let worst_rtt := foldr Z.max 0 (LinkBenchmarkV1.rtt_micros_p50 <$> links candidates) in
    let slowest_link :=
      foldr Z.min u64_max
        ((λ l, Z.min (LinkBenchmarkV1.uplink_bps l) (LinkBenchmarkV1.downlink_bps l))
           <$> links candidates) in
    let efficiency_milli :=
      if (worst_rtt <=? 1000) && (10000000000 <=? slowest_link) then 850
      else if (worst_rtt <=? 2500) && (2500000000 <=? slowest_link) then 650 else 400 in
    Z.max (sat_mul (zlen candidates) efficiency_milli) 1000.

(** ** Placement *)

Definition total_bytes (candidates : list candidate) : Z := sum_u64 (bytes <$> candidates).

Definition placement (role : string) (index : Z) (assigned : Z) (c : candidate)
    : ModelNodePlacement.t :=
  ModelNodePlacement.mk (ResourceOfferV1.node_id (RuntimeCandidate.offer c)) (index `mod` 65536)
    assigned (bytes c) role (topology_confidence (RuntimeCandidate.offer c)).

(** [((required as u128) * (available as u128) / total.max(1) as u128) as u64]. *)
Definition proportional (required total available : Z) : Z :=
  wrap_u64 ((required * available) `div` Z.max total 1).

(** The [map] over the enumerated candidates, with [remaining] as its captured state. *)
Fixpoint allocate (required total : Z) (index : Z) (remaining : Z) (candidates : list candidate)
    : list ModelNodePlacement.t :=
  match candidates with
  | [] => []
  | c :: rest =>
      let assigned :=
        if no_elems rest then Z.min remaining (bytes c)
        else Z.min (Z.min (proportional required total (bytes c)) (bytes c)) remaining in
      placement (if index =? 0 then "coordinator_rank" else "model_rank") index assigned c
        :: allocate required total (index + 1) (sat_sub remaining assigned) rest
  end.
Definition allocate_pipeline (candidates : list candidate) (required_bytes : Z)
    : list ModelNodePlacement.t :=
  allocate required_bytes (total_bytes candidates) 0 required_bytes candidates.

Definition shard_bytes (required : Z) (candidates : list candidate) : Z :=
  div_ceil required (Z.max (zlen candidates) 1).

Definition place_replicas (required : Z) (selected : list candidate) : list ModelNodePlacement.t :=
  omap (λ '(i, c), if required <=? bytes c
                   then Some (placement "replica" (Z.of_nat i) required c) else None)
    (imap pair selected).
Definition place_tensor (required : Z) (selected : list candidate) : list ModelNodePlacement.t :=
  imap (λ i c, placement (if (i =? 0)%nat then "coordinator_rank" else "tensor_rank") (Z.of_nat i)
                 (shard_bytes required selected) c) selected.

(** ** Candidate groups *)

Definition group_key : Type := ModelBackend.t * string.
Definition backend_rank (b : ModelBackend.t) : Z :=
  match b with ModelBackend.LocalOllama => 0 | ModelBackend.ExoMlx => 1 | ModelBackend.VllmRay => 2 end.
(** The derived order of the map's key. *)
Definition key_compare (a b : group_key) : comparison :=
  match Z.compare (backend_rank a.1) (backend_rank b.1) with
  | Eq => String.compare a.2 b.2
  | c => c
  end.
(** [groups.entry(key).or_default().push(candidate)] on the ordered map. *)
Fixpoint group_push (key : group_key) (c : candidate) (groups : list (group_key * list candidate))
    : list (group_key * list candidate) :=
  match groups with
  | [] => [(key, [c])]
  | (k, cs) :: rest =>
      match key_compare key k with
      | Lt => (key, [c]) :: groups
      | Eq => (k, cs ++ [c]) :: rest
      | Gt => (k, cs) :: group_push key c rest
      end
  end.

Definition is_live (now : DateTime) (offer : ResourceOfferV1.t) : bool :=
  let a := ResourceOfferV1.availability offer in
  (now <? ResourceOfferV1.expires_at offer) && AvailabilityV1.foreground_allowed a
  && (15 <=? AvailabilityV1.thermal_headroom_percent a)
  && (AvailabilityV1.on_ac_power a || (50 <=? default 100 (AvailabilityV1.battery_percent a))).

(** The candidates one offer contributes, in order. *)
Definition offer_candidates (offer : ResourceOfferV1.t) : list (group_key * candidate) :=
  omap (λ runtime,
      if (ModelRuntimeOfferV1.schema runtime != ModelRuntimeOfferV1.SCHEMA)
         || (ModelRuntimeOfferV1.available_model_bytes runtime =? 0)
         || negb (bool_decide (ModelRuntimeOfferV1.adapter runtime ∈ ResourceOfferV1.adapters offer))
      then None
      else
        let available := runtime_capacity offer runtime in
        if available =? 0 then None
        else Some ((ModelRuntimeOfferV1.backend runtime, ModelRuntimeOfferV1.compatibility_key runtime),
                   RuntimeCandidate.mk offer runtime available))
    (ResourceOfferV1.model_runtimes offer).

Definition build_groups (live : list ResourceOfferV1.t) : list (group_key * list candidate) :=
  foldl (λ groups '(key, c), group_push key c groups) [] (mjoin (offer_candidates <$> live)).

(** [sort_by_key(|x| Reverse(key(x)))], a stable sort. *)
Fixpoint insert_desc {A} (key : A → Z) (x : A) (l : list A) : list A :=
  match l with
  | [] => [x]
  | y :: l' => if key x <? key y then y :: insert_desc key x l' else x :: l
  end.
Definition sort_desc {A} (key : A → Z) (l : list A) : list A := foldr (insert_desc key) [] l.

Definition rank_groups (max_nodes : Z) (groups : list (group_key * list candidate))
    : list (group_key * list candidate) :=
  sort_desc (λ g, total_bytes g.2)
    ((λ g, (g.1, take (Z.to_nat max_nodes) (sort_desc bytes g.2))) <$> groups).

(** ** Strategies *)

Definition selection : Type := group_key * list candidate * ModelParallelism.t * Z.

(** [ranked.remove(0)]. *)
Definition first_group (ranked : list (group_key * list candidate))
    : option (group_key * list candidate) := head ranked.

Definition select_maximum_model_size (ranked : list (group_key * list candidate)) : option selection :=
  '(key, candidates) ← first_group ranked;
  let parallelism :=
    if (1 <? zlen candidates)
       && forallb (λ c, bool_decide (ModelParallelism.Pipeline ∈
                          ModelRuntimeOfferV1.supported_parallelism (RuntimeCandidate.runtime c)))
            candidates
    then ModelParallelism.Pipeline else ModelParallelism.WholeModel in
  Some (key, candidates, parallelism, 1000).

Definition fitting (required : Z) (c : candidate) : bool := required <=? bytes c.

(** The loop of [SpeedBoost]; the accumulator is [(best_single, best_distributed)]. *)
Definition speed_step (required : Z)
    (acc : option (group_key * candidate) * option (group_key * list candidate * Z))
    (group : group_key * list candidate)
    : option (group_key * candidate) * option (group_key * list candidate * Z) :=
  let '(best_single, best_distributed) := acc in
  let '(key, candidates) := group in
  let best_single :=
    match List.find (fitting required) candidates with
    | Some c => if is_none_or (λ '(_, current), bytes current <? bytes c) best_single
                then Some (key, c) else best_single
    | None => best_single
    end in
  let best_distributed :=
    if (1 <? zlen candidates)
       && forallb (λ c, bool_decide (ModelParallelism.Tensor ∈
                          ModelRuntimeOfferV1.supported_parallelism (RuntimeCandidate.runtime c))
                        && ModelRuntimeOfferV1.is_qualified_for_distributed (RuntimeCandidate.runtime c))
            candidates
    then
      let speedup := predicted_tensor_speedup_milli candidates in
      let shard := div_ceil required (zlen candidates) in
      if (1100 <? speedup) && forallb (fitting shard) candidates
         && is_none_or (λ '(_, _, current), current <? speedup) best_distributed
      then Some (key, candidates, speedup) else best_distributed
    else best_distributed in
  (best_single, best_distributed).
Definition select_speed_boost (required : Z) (ranked : list (group_key * list candidate))
    : option selection :=
  match foldl (speed_step required) (None, None) ranked with
  | (_, Some (key, candidates, speedup)) => Some (key, candidates, ModelParallelism.Tensor, speedup)
  | (Some (key, c), None) => Some (key, [c], ModelParallelism.WholeModel, 1000)
  | (None, None) =>
      '(key, candidates) ← first_group ranked;
      Some (key, candidates, ModelParallelism.Pipeline, 1000)
  end.

Definition select_maximum_throughput (required : Z) (ranked : list (group_key * list candidate))
    : option selection :=
  let replicas := (λ g, (g.1, List.filter (fitting required) g.2)) <$> ranked in
  best ← match Scheduler.max_by_key (λ g, [zlen g.2]) replicas with
         | Some best => Some best
         | None => first_group ranked
         end;
  best ← if no_elems best.2 then first_group ranked else Some best;
  Some (best.1, best.2, ModelParallelism.Replica, Z.max (zlen best.2) 1 * 1000).

(** [Iterator::min_by_key]: among equal keys the first element. *)
Definition min_by_key {A} (key : A → Z) (l : list A) : option A :=
  foldl (λ best x, match best with
                   | None => Some x
                   | Some b => if key x <? key b then Some x else Some b
                   end) None l.

Definition select_efficiency (required : Z) (ranked : list (group_key * list candidate))
    : option selection :=
  let all := mjoin ((λ g, pair g.1 <$> List.filter (fitting required) g.2) <$> ranked) in
  '(key, c) ← match min_by_key (λ p, bytes p.2) all with
              | Some best => Some best
              | None => '(key, candidates) ← head ranked; c ← head candidates; Some (key, c)
              end;
  Some (key, [c], ModelParallelism.WholeModel, 1000).

Fixpoint find_fitting (required : Z) (ranked : list (group_key * list candidate))
    : option (group_key * candidate) :=
  match ranked with
  | [] => None
  | (key, candidates) :: rest =>
      match List.find (fitting required) candidates with
      | Some c => Some (key, c)
      | None => find_fitting required rest
      end
  end.
Definition select_autonomous_balanced (required : Z) (ranked : list (group_key * list candidate))
    : option selection :=
  match find_fitting required ranked with
  | Some (key, c) => Some (key, [c], ModelParallelism.WholeModel, 1000)
  | None =>
      '(key, candidates) ← first_group ranked;
      Some (key, candidates, ModelParallelism.Pipeline, 1000)
  end.

Definition select (strategy : ComputeStrategy.t) (required : Z)
    (ranked : list (group_key * list candidate)) : option selection :=
  match strategy with
  | ComputeStrategy.MaximumModelSize => select_maximum_model_size ranked
  | ComputeStrategy.SpeedBoost => select_speed_boost required ranked
  | ComputeStrategy.MaximumThroughput => select_maximum_throughput required ranked
  | ComputeStrategy.Efficiency => select_efficiency required ranked
  | ComputeStrategy.AutonomousBalanced => select_autonomous_balanced required ranked
  end.

(** ** The plan *)

Definition maximum_supported (parallelism : ModelParallelism.t) (selected : list candidate) : Z :=
  match parallelism with
  | ModelParallelism.Replica => foldr Z.max 0 (bytes <$> selected)
  | _ => total_bytes selected
  end.
Definition capacity_fits (parallelism : ModelParallelism.t) (required : Z) (selected : list candidate)
    : bool :=
  match parallelism with
  | ModelParallelism.Replica | ModelParallelism.WholeModel => existsb (fitting required) selected
  | ModelParallelism.Tensor => forallb (fitting (shard_bytes required selected)) selected
  | _ => required <=? maximum_supported parallelism selected
  end.
Definition is_distributed (parallelism : ModelParallelism.t) (selected : list candidate) : bool :=
  (1 <? zlen selected) && (parallelism != ModelParallelism.Replica).
Definition is_qualified (distributed : bool) (selected : list candidate) : bool :=
  if distributed then
    forallb (λ c, ModelRuntimeOfferV1.is_qualified_for_distributed (RuntimeCandidate.runtime c)
                  && topology_ready c) selected
  else
    forallb (λ c, match ModelRuntimeOfferV1.status (RuntimeCandidate.runtime c) with
                  | ModelRuntimeStatus.ShippedLocal | ModelRuntimeStatus.Qualified => true
                  | ModelRuntimeStatus.Candidate => false
                  end) selected.

Definition place (parallelism : ModelParallelism.t) (required : Z) (selected : list candidate)
    : list ModelNodePlacement.t :=
  let selected :=
    match parallelism with ModelParallelism.WholeModel => take 1 selected | _ => selected end in
  match parallelism with
  | ModelParallelism.Replica => place_replicas required selected
  | ModelParallelism.Tensor => place_tensor required selected
  | _ => allocate_pipeline selected required
  end.

Definition plan_state (fits qualified : bool) : ModelPlanState.t :=
  if negb fits then ModelPlanState.CapacityBlocked
  else if qualified then ModelPlanState.Ready else ModelPlanState.QualificationRequired.

(** [{:.2}] of [milli as f64 / 1000.0], exact for the multiples of ten that occur. *)
Definition format_speedup (milli : Z) : string :=
  let hundredths := milli `div` 10 in
  pretty (hundredths `div` 100) +:+ "." +:+ pretty (hundredths `mod` 100 `div` 10)
    +:+ pretty (hundredths `mod` 10).

Definition plan_reason (strategy : ComputeStrategy.t) (state : ModelPlanState.t) (distributed : bool)
    (speedup : Z) : string :=
  match state with
  | ModelPlanState.CapacityBlocked =>
      "No compatible placement can fit the requested model and KV cache."
  | ModelPlanState.QualificationRequired =>
      "The capacity fits in theory, but backend or topology evidence is incomplete."
  | ModelPlanState.Ready =>
      match strategy with
      | ComputeStrategy.MaximumModelSize =>
          "Largest compatible qualified memory group selected for model fit."
      | ComputeStrategy.SpeedBoost =>
          if distributed
          then "Low-latency tensor group passed the conservative " +:+ format_speedup speedup
                 +:+ "x speedup gate."
          else "Fastest safe whole-model node selected; slower links were excluded."
      | ComputeStrategy.MaximumThroughput =>
          "Independent whole-model replicas selected for concurrent request throughput."
      | ComputeStrategy.Efficiency =>
          "Smallest qualified whole-model placement that fits was selected."
      | ComputeStrategy.AutonomousBalanced =>
          "A qualified whole-model placement was preferred before distributed complexity."
      end
  end.

Definition plan_blockers (fits distributed qualified : bool) (maximum required : Z) : list string :=
  (if fits then []
   else ["The best compatible runtime group exposes " +:+ pretty maximum
           +:+ " bytes, below the requested " +:+ pretty required +:+ " bytes."])
  ++ (if distributed && negb qualified
      then ["Distributed launch is fenced until every selected runtime and measured topology has a valid qualification digest."]
      else []).
Definition plan_warnings (strategy : ComputeStrategy.t) (parallelism : ModelParallelism.t)
    (speedup : Z) : list string :=
  (if (strategy == ComputeStrategy.SpeedBoost) && (speedup =? 1000)
   then ["No distributed topology cleared the speedup gate; the plan avoids claiming that more nodes are faster."]
   else [])
  ++ (if parallelism == ModelParallelism.Replica
      then ["Replica placement increases concurrent throughput; it does not make one model request faster or larger."]
      else []).

(** The plan returned when no compatible runtime is advertised. *)
Definition empty_plan (request : ModelSessionRequestV1.t) (observed : Z) : ModelSessionPlan.t :=
  ModelSessionPlan.mk ModelSessionPlan.SCHEMA (ModelSessionRequestV1.session_id request)
    (ModelSessionRequestV1.strategy request) ModelPlanState.CapacityBlocked None None false
    (ModelSessionRequestV1.required_bytes request) observed 0 1000 []
    ["No signed model runtime profiles are advertised; install or qualify a governed backend bundle."]
    (if 0 <? observed
     then ["Raw RAM/VRAM is visible, but memory is not combinable without one compatible distributed runtime."]
     else [])
    None "none_preview_only" "The fabric has resources but no compatible model runtime group.".

Definition plan_selection (request : ModelSessionRequestV1.t) (observed : Z) (s : selection)
    : ModelSessionPlan.t :=
  let '(key, selected, parallelism, speedup) := s in
  let required := ModelSessionRequestV1.required_bytes request in
  let strategy := ModelSessionRequestV1.strategy request in
  let fits := capacity_fits parallelism required selected in
  let distributed := is_distributed parallelism selected in
  let qualified := is_qualified distributed selected in
  let maximum := maximum_supported parallelism selected in
  let state := plan_state fits qualified in
  ModelSessionPlan.mk ModelSessionPlan.SCHEMA (ModelSessionRequestV1.session_id request) strategy
    state (Some key.1) (Some parallelism) distributed required observed maximum speedup
    (place parallelism required selected) (plan_blockers fits distributed qualified maximum required)
    (plan_warnings strategy parallelism speedup) None "none_preview_only"
    (plan_reason strategy state distributed speedup).

Definition plan_model_session (request : ModelSessionRequestV1.t) (offers : list ResourceOfferV1.t)
    (now : DateTime) : option ModelSessionPlan.t :=
  let required := ModelSessionRequestV1.required_bytes request in
  let live := List.filter (is_live now) offers in
  let observed := sum_u64 (observed_model_memory <$> live) in
  let groups := build_groups live in
  if no_elems groups then Some (empty_plan request observed)
  else
    plan_selection request observed <$>
      select (ModelSessionRequestV1.strategy request) required
        (rank_groups (ModelSessionRequestV1.max_nodes request) groups).

End ModelPlanner.
