(* ===== verification/ModelPlannerFacts.v ===== *)
(** * What a model-session plan guarantees

    Planning is total for a request with a positive node count; a plan that reports
    [Ready] is backed by live offers, assigns no node more than its runtime holds, and
    covers the model in the way its parallelism requires; the proportional pipeline split
    never exceeds the request and falls short by at most a byte per middle rank. *)

From S2P Require Import Prelude.
From S2P Require Import Codec.
From S2P Require Import Text.
From S2P Require Import Contracts.
From S2P Require Import Scheduler.
From S2P Require Import SchedulerFacts.
From S2P Require Import ModelPlanner.
Import ModelPlanner.

(** ** Stable descending sort *)

Section sort_desc.
Context {A : Type} (key : A → Z).
Let desc : relation A := λ x y, key y ≤ key x.

Lemma insert_desc_perm x l : insert_desc key x l ≡ₚ x :: l.
Proof.
  induction l as [|y l IH]; cbn; [done|]. case_match; [|done].
  rewrite IH. apply Permutation_swap.
Qed.

Lemma sort_desc_perm l : sort_desc key l ≡ₚ l.
Proof. induction l as [|x l IH]; cbn; [done|]. by rewrite insert_desc_perm, IH. Qed.

Lemma insert_desc_sorted x l : StronglySorted desc l → StronglySorted desc (insert_desc key x l).
Proof.
  induction 1 as [|y l Hs IH Hy]; cbn; [by repeat constructor|].
  destruct (key x <? key y) eqn:E; bool_prop; constructor; try done.
  - rewrite insert_desc_perm. constructor; [unfold desc; lia|done].
  - by constructor.
  - constructor; [unfold desc; lia|]. eapply Forall_impl; [done|]. unfold desc. lia.
Qed.

Lemma sort_desc_sorted l : StronglySorted desc (sort_desc key l).
Proof. induction l as [|x l IH]; cbn; [constructor|by apply insert_desc_sorted]. Qed.
End sort_desc.

Lemma StronglySorted_take {A} (R : relation A) n l : StronglySorted R l → StronglySorted R (take n l).
Proof.
  intros H. revert n. induction H as [|x l Hs IH Hx]; intros [|n]; cbn; constructor; auto.
  by apply Forall_take.
Qed.

Lemma StronglySorted_filter_list {A} (R : relation A) p l :
  StronglySorted R l → StronglySorted R (List.filter p l).
Proof.
  induction 1 as [|x l Hs IH Hx]; cbn; [constructor|]. case_match; [|done].
  constructor; [done|]. by apply Forall_filter_list.
Qed.

(** ** Where candidates come from *)

Section plan.
Context (offers : list ResourceOfferV1.t) (now : DateTime).

(** A candidate backed by a live offer and one of its advertised runtimes. *)
Definition backed (c : candidate) : Prop :=
  RuntimeCandidate.offer c ∈ offers ∧ is_live now (RuntimeCandidate.offer c) = true ∧
  RuntimeCandidate.runtime c ∈ ResourceOfferV1.model_runtimes (RuntimeCandidate.offer c) ∧
  bytes c = runtime_capacity (RuntimeCandidate.offer c) (RuntimeCandidate.runtime c).

Definition desc : relation candidate := λ x y, bytes y ≤ bytes x.

Lemma group_push_good (P : candidate → Prop) key c groups :
  P c → Forall (λ g : group_key * list candidate, g.2 ≠ [] ∧ Forall P g.2) groups →
  group_push key c groups ≠ [] ∧
  Forall (λ g : group_key * list candidate, g.2 ≠ [] ∧ Forall P g.2) (group_push key c groups).
Proof.
  intros Hc. induction 1 as [|[k cs] groups [Hne Hall] Hg IH]; cbn.
  - split; [done|]. by repeat constructor.
  - cbn in *. destruct (key_compare key k); (split; [done|]).
    + constructor; [|done]. cbn. split; [by destruct cs|]. apply Forall_app. auto.
    + constructor; [|by constructor]. by repeat constructor.
    + constructor; [done|]. apply IH.
Qed.

Lemma build_groups_good :
  Forall (λ g : group_key * list candidate, g.2 ≠ [] ∧ Forall backed g.2)
    (build_groups (List.filter (is_live now) offers)).
Proof.
  unfold build_groups.
  assert (Forall (λ p : group_key * candidate, backed p.2)
            (mjoin (offer_candidates <$> List.filter (is_live now) offers))) as H.
  { apply Forall_join, Forall_fmap, Forall_forall. intros o [Ho Hlive]%elem_of_filter_list.
    apply Forall_forall. intros [k c] (r & Hr & Hc)%list_elem_of_omap.
    destruct (_ || _ || _); [done|]. cbn zeta in Hc. destruct (runtime_capacity o r =? 0); [done|].
    injection Hc as <- <-. by split_and!. }
  assert (Forall (λ g : group_key * list candidate, g.2 ≠ [] ∧ Forall backed g.2) []) as Hacc by done.
  revert Hacc. generalize (@nil (group_key * list candidate)) as acc.
  induction H as [|[k c] l Hc Hl IH]; intros acc Hacc; cbn; [done|].
  apply IH. by apply group_push_good.
Qed.

(** A ranked group: non-empty, backed, in descending order, within the node limit. *)
Definition good_group (max : Z) (cs : list candidate) : Prop :=
  cs ≠ [] ∧ Forall backed cs ∧ StronglySorted desc cs ∧ zlen cs ≤ max.

Lemma rank_groups_good max groups :
  1 ≤ max → Forall (λ g : group_key * list candidate, g.2 ≠ [] ∧ Forall backed g.2) groups →
  Forall (λ g, good_group max g.2) (rank_groups max groups).
Proof.
  intros Hmax Hg. unfold rank_groups. rewrite sort_desc_perm. apply Forall_fmap.
  eapply Forall_impl; [done|]. intros [k cs] [Hne Hall]. cbn [fst snd] in Hne, Hall.
  change (good_group max (take (Z.to_nat max) (sort_desc bytes cs))). split_and!.
  - destruct (sort_desc bytes cs) as [|x l] eqn:Hs.
    + exfalso. apply Hne. pose proof (sort_desc_perm bytes cs) as Hp. rewrite Hs in Hp.
      by apply Permutation_nil_l in Hp.
    + destruct (Z.to_nat max) eqn:E; [lia|]. intros H. discriminate H.
  - apply Forall_take. by rewrite sort_desc_perm.
  - apply StronglySorted_take. apply (sort_desc_sorted bytes).
  - unfold zlen. rewrite length_take. lia.
Qed.

Lemma good_singleton max cs c : good_group max cs → c ∈ cs → good_group max [c].
Proof.
  intros (_ & Hall & _ & Hlen) Hc. rewrite Forall_forall in Hall.
  assert (1 ≤ zlen cs) by (destruct cs; [by apply not_elem_of_nil in Hc|unfold zlen; cbn; lia]).
  split_and!; [done|constructor; [auto|done]|by repeat constructor|]. unfold zlen in *. cbn. lia.
Qed.

Lemma good_filter max cs p : good_group max cs → List.filter p cs ≠ [] → good_group max (List.filter p cs).
Proof.
  intros (_ & Hall & Hs & Hlen) Hne. split_and!; [done|by apply Forall_filter_list| |].
  - by apply StronglySorted_filter_list.
  - unfold zlen in *. pose proof (List.filter_length_le p cs). lia.
Qed.

Lemma find_elem {A} (p : A → bool) l x : List.find p l = Some x → x ∈ l ∧ p x = true.
Proof. intros [? ?]%List.find_some. by rewrite list_elem_of_In. Qed.

Definition good_selection (max : Z) (s : selection) : Prop := good_group max s.1.1.2.

Lemma speed_step_good max required acc g :
  (∀ k c, acc.1 = Some (k, c) → good_group max [c]) →
  (∀ k cs n, acc.2 = Some (k, cs, n) → good_group max cs) → good_group max g.2 →
  (∀ k c, (speed_step required acc g).1 = Some (k, c) → good_group max [c]) ∧
  (∀ k cs n, (speed_step required acc g).2 = Some (k, cs, n) → good_group max cs).
Proof.
  destruct acc as [single dist], g as [key cs]; cbn. intros Hs Hd Hg. split.
  - intros k c. destruct (List.find _ cs) as [c'|] eqn:E; [|apply Hs].
    apply find_elem in E as [? _]. case_match; [|apply Hs]. intros [= <- <-].
    by eapply good_singleton.
  - intros k cs' n. repeat (case_match; [|by eauto]). intros [= <- <- <-]. done.
Qed.

Lemma speed_fold_good max required ranked acc :
  (∀ k c, acc.1 = Some (k, c) → good_group max [c]) →
  (∀ k cs n, acc.2 = Some (k, cs, n) → good_group max cs) →
  Forall (λ g, good_group max g.2) ranked →
  (∀ k c, (foldl (speed_step required) acc ranked).1 = Some (k, c) → good_group max [c]) ∧
  (∀ k cs n, (foldl (speed_step required) acc ranked).2 = Some (k, cs, n) → good_group max cs).
Proof.
  intros Hs Hd Hall. revert acc Hs Hd. induction Hall as [|g ranked Hg Hall IH]; intros acc Hs Hd; [done|].
  cbn [foldl]. destruct (speed_step_good max required acc g Hs Hd Hg). by apply IH.
Qed.

Lemma min_by_key_elem {A} (key : A → Z) l x : min_by_key key l = Some x → x ∈ l.
Proof.
  unfold min_by_key. revert x. induction l as [|y l IH] using rev_ind; intros x; [done|].
  rewrite foldl_app. cbn [foldl]. rewrite elem_of_app, list_elem_of_singleton.
  destruct (foldl _ None l) as [b|]; [case_match|]; intros [= <-]; auto.
Qed.

Lemma find_fitting_elem required ranked k c :
  find_fitting required ranked = Some (k, c) → ∃ g, g ∈ ranked ∧ c ∈ g.2.
Proof.
  induction ranked as [|[k' cs] ranked IH]; cbn; [done|].
  destruct (List.find _ cs) as [c'|] eqn:E.
  - intros [= <- <-]. apply find_elem in E as [? _]. exists (k', cs). set_solver.
  - intros H. destruct (IH H) as (g & ? & ?). exists g. set_solver.
Qed.

Lemma select_good strategy max required ranked :
  Forall (λ g, good_group max g.2) ranked → ranked ≠ [] →
  ∃ s, select strategy required ranked = Some s ∧ good_selection max s.
Proof.
  intros Hall Hne. destruct ranked as [|[k0 cs0] ranked]; [done|].
  assert (good_group max cs0) as H0 by by inversion Hall.
  set (gs := (k0, cs0) :: ranked) in *. pose proof Hall as Hall'. rewrite Forall_forall in Hall'.
  unfold good_selection. destruct strategy; cbn [select].
  - eexists. by split.
  - unfold select_speed_boost.
    destruct (speed_fold_good max required gs (None, None)) as [Hs Hd]; [done..|].
    destruct (foldl _ _ _) as [[[k c]|] [[[k' cs'] n]|]]; eexists; (split; [done|]);
      [by eapply Hd|by eapply Hs|by eapply Hd|exact H0].
  - unfold select_maximum_throughput.
    set (replicas := (λ g : group_key * list candidate, (g.1, List.filter (fitting required) g.2)) <$> gs).
    destruct (Scheduler.max_by_key _ replicas) as [[k cs]|] eqn:E.
    + apply (max_by_key_some _ 1) in E as [Hin _]; [|done].
      apply list_elem_of_fmap in Hin as (g & [= -> ->] & Hg). cbn.
      destruct (List.filter (fitting required) g.2) as [|c cs] eqn:Ef; cbn; eexists; (split; [done|]); [done|].
      cbn. rewrite <-Ef. apply good_filter; [by apply Hall'|by rewrite Ef].
    + apply max_by_key_none in E. done.
  - unfold select_efficiency. set (all := mjoin _).
    destruct (min_by_key _ all) as [[k c]|] eqn:E.
    + eexists. split; [done|]. cbn. apply min_by_key_elem in E.
      apply list_elem_of_join in E as (l & Hc & Hl).
      apply list_elem_of_fmap in Hl as (g & -> & Hg).
      apply list_elem_of_fmap in Hc as (c' & [= -> ->] & Hc).
      apply elem_of_filter_list in Hc as [Hc _]. by apply (good_singleton max g.2); [apply Hall'|].
    + unfold gs. cbn. destruct H0 as (Hne0 & ?). destruct cs0 as [|c cs0]; [done|].
      eexists. split; [done|]. cbn. apply (good_singleton max (c :: cs0)); [|set_solver].
      by apply (Hall' (k0, c :: cs0)), elem_of_cons; left.
  - unfold select_autonomous_balanced.
    destruct (find_fitting required gs) as [[k c]|] eqn:E.
    + eexists. split; [done|]. cbn. apply find_fitting_elem in E as (g & Hg & Hc).
      by apply (good_singleton max g.2); [apply Hall'|].
    + eexists. split; [done|]. done.
Qed.
End plan.

(** ** Pipeline allocation *)

Lemma sum_u64_exact l : Forall (λ x, 0 ≤ x) l → zsum l ≤ u64_max → sum_u64 l = zsum l.
Proof.
  intros Hl Hmax. unfold sum_u64.
  assert (∀ acc, 0 ≤ acc → acc + zsum l ≤ u64_max →
            foldl (λ acc x, wrap_u64 (acc + x)) acc l = acc + zsum l) as H; [|rewrite H; lia].
  clear Hmax. induction Hl as [|x l Hx Hl IH]; intros acc Hacc Hmax.
  - unfold zsum. cbn [foldl foldr]. lia.
  - apply zsum_nonneg in Hl. unfold zsum in *. cbn [foldl foldr] in *.
    unfold wrap_u64. rewrite Z.mod_small by (unfold u64_max in *; lia). rewrite IH by lia. lia.
Qed.

Definition assigned_sum (ps : list ModelNodePlacement.t) : Z :=
  zsum (ModelNodePlacement.assigned_bytes <$> ps).

(** A placement on a candidate, within what it holds. *)
Definition placed_on (p : ModelNodePlacement.t) (c : candidate) : Prop :=
  ModelNodePlacement.node_id p = ResourceOfferV1.node_id (RuntimeCandidate.offer c) ∧
  ModelNodePlacement.available_model_bytes p = bytes c ∧
  0 ≤ ModelNodePlacement.assigned_bytes p ≤ bytes c.

Lemma proportional_nonneg required total b : 0 ≤ proportional required total b.
Proof. unfold proportional, wrap_u64. apply Z.mod_pos_bound. lia. Qed.

Lemma allocate_bounds required total index remaining cs :
  0 ≤ remaining → Forall (λ c, 0 ≤ bytes c) cs →
  Forall2 placed_on (allocate required total index remaining cs) cs ∧
  assigned_sum (allocate required total index remaining cs) ≤ remaining.
Proof.
  intros Hr Hcs. revert index remaining Hr. induction Hcs as [|c cs Hc Hcs IH]; intros index remaining Hr.
  - cbn. by split.
  - cbn [allocate]. set (assigned := if no_elems cs then _ else _).
    assert (0 ≤ assigned ≤ Z.min remaining (bytes c)) as Ha.
    { pose proof (proportional_nonneg required total (bytes c)). unfold assigned. case_match; lia. }
    assert (sat_sub remaining assigned = remaining - assigned) as -> by (unfold sat_sub; lia).
    destruct (IH (index + 1) (remaining - assigned)) as [Hall Hsum]; [lia|].
    split; [constructor; [|done]; split_and!; cbn; first [done|lia]|].
    unfold assigned_sum, zsum in *. rewrite fmap_cons. cbn [foldr placement ModelNodePlacement.assigned_bytes].
    lia.
Qed.

Lemma proportional_floor required total b :
  0 ≤ required ≤ total → 0 < total → 0 ≤ b ≤ u64_max →
  ∃ e, total * proportional required total b = required * b - e ∧ 0 ≤ e < total ∧
    proportional required total b ≤ b.
Proof.
  intros Hr Ht Hb. unfold proportional, wrap_u64. rewrite Z.max_l by lia.
  assert (0 ≤ (required * b) `div` total ≤ b) as Hq.
  { split; [apply Z.div_pos; nia|apply Z.div_le_upper_bound; nia]. }
  rewrite Z.mod_small by (unfold u64_max in *; lia).
  exists ((required * b) `mod` total). pose proof (Z.mod_pos_bound (required * b) total).
  pose proof (Z.div_mod (required * b) total). lia.
Qed.

(** Before the last rank the unassigned remainder stays within [k] of the exact share of
    the remaining ranks, [k] being the number of ranks already served. *)
Lemma allocate_covers required total k index remaining cs :
  0 ≤ required ≤ total → 0 < total → 0 ≤ k →
  Forall (λ c, 0 ≤ bytes c ≤ u64_max) cs → cs ≠ [] →
  let share := required * zsum (bytes <$> cs) in
  share ≤ total * remaining ≤ share + k * (total - 1) →
  remaining ≤ assigned_sum (allocate required total index remaining cs)
    + Z.max 0 (k + zlen cs - 2).
Proof.
  intros Hr Ht Hk Hcs. revert k index remaining Hk.
  induction Hcs as [|c cs Hc Hcs IH]; intros k index remaining Hk Hne share Hinv; [done|].
  assert (0 ≤ zsum (bytes <$> cs)) as Hz.
  { apply zsum_nonneg, Forall_fmap. eapply Forall_impl; [done|]. cbn. lia. }
  unfold share, zsum in Hinv. rewrite fmap_cons in Hinv. cbn [foldr] in Hinv. fold (zsum (bytes <$> cs)) in Hinv.
  cbn [allocate]. unfold assigned_sum, zsum. rewrite fmap_cons.
  cbn [foldr placement ModelNodePlacement.assigned_bytes]. destruct cs as [|c' cs].
  - cbn [no_elems allocate]. rewrite fmap_nil. cbn [foldr]. unfold zsum in Hinv. cbn in Hinv. unfold zlen. cbn.
    destruct (Z.le_gt_cases remaining (bytes c)); [lia|].
    assert (remaining - bytes c < k ∨ k = 0 ∧ remaining ≤ bytes c) as [|[]]; [|lia..].
    destruct (Z.eq_dec k 0) as [->|]; [right; nia|left; nia].
  - cbn [no_elems]. set (cs' := c' :: cs) in *.
    destruct (proportional_floor required total (bytes c)) as (e & He & Hb & Hle); [lia..|].
    pose proof (proportional_nonneg required total (bytes c)) as Hnn.
    set (q := proportional required total (bytes c)) in *.
    assert (q ≤ remaining) as Hqr by nia.
    rewrite (Z.min_l q (bytes c)), (Z.min_l q remaining) by lia.
    unfold sat_sub. rewrite Z.max_r by lia.
    specialize (IH (k + 1) (index + 1) (remaining - q) ltac:(lia) ltac:(done)).
    cbn zeta in IH. match type of IH with ?P → _ => assert P as HP by nia; specialize (IH HP) end.
    unfold assigned_sum, zsum in IH. unfold zlen in *. cbn [length] in *. lia.
Qed.

Lemma pipeline_split candidates required :
  candidates ≠ [] → Forall (λ c, 0 ≤ bytes c) candidates →
  0 ≤ required ≤ zsum (bytes <$> candidates) → zsum (bytes <$> candidates) ≤ u64_max →
  let ps := allocate_pipeline candidates required in
  Forall2 placed_on ps candidates ∧
  assigned_sum ps ≤ required ≤ assigned_sum ps + Z.max 0 (zlen candidates - 2).
Proof.
  intros Hne Hcs Hr Hmax ps. unfold ps, allocate_pipeline, total_bytes.
  rewrite sum_u64_exact by (rewrite ?Forall_fmap; done).
  destruct (allocate_bounds required (zsum (bytes <$> candidates)) 0 required candidates) as [Hall Hsum];
    [lia|done|]. split_and!; [done..|].
  destruct (Z.eq_dec (zsum (bytes <$> candidates)) 0) as [Hz|Hz].
  - assert (0 ≤ assigned_sum (allocate required (zsum (bytes <$> candidates)) 0 required candidates)); [|lia].
    apply zsum_nonneg, Forall_fmap, Forall_forall. intros p Hp.
    apply list_elem_of_lookup in Hp as [i Hp]. eapply Forall2_lookup_l in Hp as (c & _ & Hp); [|done].
    apply Hp.
  - apply (allocate_covers _ _ 0); [lia|lia|lia| |done|lia].
    apply Forall_forall. intros c Hc. rewrite Forall_forall in Hcs. split; [auto|].
    etrans; [|exact Hmax]. apply zsum_elem; [|by apply list_elem_of_fmap_2].
    apply Forall_fmap, Forall_forall. auto.
Qed.

(** Splitting a model over a pipeline that can hold it never assigns a rank more than it
    holds, never assigns more than the request in total, and leaves at most one byte
    unassigned per rank beyond the second (so nothing with one or two ranks). *)
Theorem pipeline_split_bounds candidates required :
  candidates ≠ [] → Forall (λ c, 0 ≤ bytes c) candidates →
  0 ≤ required ≤ zsum (bytes <$> candidates) → zsum (bytes <$> candidates) ≤ u64_max →
  let ps := allocate_pipeline candidates required in
  Forall2 placed_on ps candidates ∧
  assigned_sum ps ≤ required ≤ assigned_sum ps + Z.max 0 (zlen candidates - 2).
Proof. exact (pipeline_split candidates required). Qed.

(** ** Plans *)

Definition typed_runtime (offer : ResourceOfferV1.t) : Prop :=
  Forall (λ q, 0 ≤ ResourceQuantityV1.available q) (ResourceOfferV1.resources offer) ∧
  Forall (λ r, 0 ≤ ModelRuntimeOfferV1.available_model_bytes r) (ResourceOfferV1.model_runtimes offer).

Lemma runtime_capacity_nonneg offer runtime :
  typed_runtime offer → runtime ∈ ResourceOfferV1.model_runtimes offer →
  0 ≤ runtime_capacity offer runtime.
Proof.
  intros [Hq Hr] Hin. rewrite Forall_forall in Hr. specialize (Hr runtime Hin).
  assert (∀ class, 0 ≤ resource_available offer class) as Hav.
  { intros class. unfold resource_available. destruct (List.find _ _) as [q|] eqn:E; [|done].
    apply find_elem in E as [Hin' _]. rewrite Forall_forall in Hq. auto. }
  unfold runtime_capacity, sat_add. pose proof (Hav ResourceClass.GpuMemory).
  pose proof (Hav ResourceClass.RamWorkingSet).
  destruct (ModelRuntimeOfferV1.memory_kind runtime); unfold u64_max; lia.
Qed.

(** How the placements of each parallelism cover the request. *)
Definition covers (parallelism : ModelParallelism.t) (required : Z)
    (ps : list ModelNodePlacement.t) : Prop :=
  match parallelism with
  | ModelParallelism.WholeModel => ∃ p, ps = [p] ∧ ModelNodePlacement.assigned_bytes p = required
  | ModelParallelism.Replica =>
      ps ≠ [] ∧ Forall (λ p, ModelNodePlacement.assigned_bytes p = required) ps
  | ModelParallelism.Tensor => required ≤ assigned_sum ps
  | _ => assigned_sum ps ≤ required ∧
      (zsum (ModelNodePlacement.available_model_bytes <$> ps) ≤ u64_max →
       required ≤ assigned_sum ps + Z.max 0 (zlen ps - 2))
  end.

Lemma zsum_const {A} (f : A → Z) v l : Forall (λ x, f x = v) l → zsum (f <$> l) = zlen l * v.
Proof.
  unfold zsum, zlen. induction 1 as [|x l Hx Hl IH]; [done|]. rewrite fmap_cons. cbn [foldr length].
  rewrite Hx, IH. lia.
Qed.

Lemma place_tensor_spec required selected :
  selected ≠ [] → 0 ≤ required → forallb (fitting (shard_bytes required selected)) selected = true →
  Forall2 placed_on (place_tensor required selected) selected ∧
  required ≤ assigned_sum (place_tensor required selected).
Proof.
  intros Hne Hr Hfit. unfold place_tensor.
  assert (1 ≤ zlen selected) as Hlen by (destruct selected; [done|unfold zlen; cbn; lia]).
  assert (0 ≤ shard_bytes required selected) as Hs.
  { unfold shard_bytes. pose proof (div_ceil_bounds required (Z.max (zlen selected) 1)). nia. }
  split.
  - apply Forall2_same_length_lookup. split; [by rewrite length_imap|].
    intros i p c Hp Hc. rewrite list_lookup_imap, Hc in Hp. cbn in Hp. injection Hp as <-.
    apply list_elem_of_lookup_2 in Hc. apply (forallb_elem _ _ _ Hfit) in Hc.
    unfold fitting in Hc. bool_prop. by split_and!.
  - unfold assigned_sum. rewrite (zsum_const _ (shard_bytes required selected)).
    + unfold zlen. rewrite length_imap. fold (zlen selected). unfold shard_bytes.
      rewrite Z.max_l by lia. pose proof (div_ceil_bounds required (zlen selected)). lia.
    + apply Forall_forall. intros p [i Hp]%list_elem_of_lookup.
      rewrite list_lookup_imap in Hp. destruct (selected !! i); [|done]. by injection Hp as <-.
Qed.

Lemma place_replicas_spec required selected :
  0 ≤ required → existsb (fitting required) selected = true →
  (∀ p, p ∈ place_replicas required selected → ∃ c, c ∈ selected ∧ placed_on p c) ∧
  place_replicas required selected ≠ [] ∧
  Forall (λ p, ModelNodePlacement.assigned_bytes p = required) (place_replicas required selected).
Proof.
  intros Hr Hfit. unfold place_replicas.
  assert (∀ p, p ∈ omap (λ '(i, c), if required <=? bytes c
                   then Some (placement "replica" (Z.of_nat i) required c) else None)
                 (imap pair selected) →
          ∃ c, c ∈ selected ∧ placed_on p c ∧ ModelNodePlacement.assigned_bytes p = required) as H.
  { intros p ([i c] & Hic & Hp)%list_elem_of_omap. apply list_elem_of_lookup in Hic as [j Hj].
    rewrite list_lookup_imap in Hj. destruct (selected !! j) as [c'|] eqn:E; [|done].
    injection Hj as <- ->. apply list_elem_of_lookup_2 in E.
    destruct (required <=? bytes c) eqn:Hle; [|done]. bool_prop. injection Hp as <-.
    exists c. by split_and!. }
  split_and!.
  - intros p Hp. destruct (H p Hp) as (c & ? & ? & _). eauto.
  - apply existsb_elem in Hfit as (c & [i Hc]%list_elem_of_lookup & Hf).
    intros Hnil. apply (not_elem_of_nil (A:=ModelNodePlacement.t) (placement "replica" (Z.of_nat i) required c)).
    rewrite <-Hnil. apply list_elem_of_omap. exists (i, c). unfold fitting in Hf. rewrite Hf. split; [|done].
    apply (list_elem_of_lookup_2 _ i). by rewrite list_lookup_imap, Hc.
  - apply Forall_forall. intros p Hp. by destruct (H p Hp) as (c & _ & _ & ?).
Qed.

Lemma Forall2_placed_elem ps cs p :
  Forall2 placed_on ps cs → p ∈ ps → ∃ c, c ∈ cs ∧ placed_on p c.
Proof.
  intros Hall [i Hp]%list_elem_of_lookup. eapply Forall2_lookup_l in Hall as (c & Hc & ?); [|done].
  exists c. eauto using list_elem_of_lookup_2.
Qed.

Lemma placed_available ps cs :
  Forall2 placed_on ps cs → ModelNodePlacement.available_model_bytes <$> ps = bytes <$> cs.
Proof. induction 1 as [|p c ps cs (_ & Ha & _) _ IH]; cbn; [done|]. by rewrite Ha, IH. Qed.

Lemma pipeline_covers required selected :
  selected ≠ [] → Forall (λ c, 0 ≤ bytes c) selected → 0 ≤ required →
  required ≤ total_bytes selected →
  Forall2 placed_on (allocate_pipeline selected required) selected ∧
  covers ModelParallelism.Pipeline required (allocate_pipeline selected required).
Proof.
  intros Hne Hb Hr Hfit.
  destruct (allocate_bounds required (total_bytes selected) 0 required selected) as [Hall Hsum]; [done..|].
  split; [done|]. split; [done|]. intros Hmax. change (allocate _ _ _ _ _) with
    (allocate_pipeline selected required) in Hall. rewrite (placed_available _ _ Hall) in Hmax.
  unfold zlen at 1. rewrite (Forall2_length _ _ _ Hall). fold (zlen selected).
  apply pipeline_split; try done. split; [done|]. unfold total_bytes in Hfit.
  rewrite sum_u64_exact in Hfit by (rewrite ?Forall_fmap; done). done.
Qed.

Lemma whole_model_covers required c cs :
  StronglySorted desc (c :: cs) → 0 ≤ required →
  existsb (fitting required) (c :: cs) = true →
  Forall2 placed_on (allocate_pipeline [c] required) [c] ∧
  covers ModelParallelism.WholeModel required (allocate_pipeline [c] required).
Proof.
  intros Hs Hr (x & Hx & Hfit)%existsb_elem. unfold fitting in Hfit. bool_prop.
  assert (required ≤ bytes c) as Hc.
  { apply elem_of_cons in Hx as [->|Hx]; [done|]. inversion_clear Hs as [|? ? _ Hall].
    rewrite Forall_forall in Hall. specialize (Hall x Hx). unfold desc in Hall. lia. }
  cbn. rewrite Z.min_l by lia. split; [|by eexists].
  constructor; [|constructor]. by split_and!.
Qed.

Lemma place_spec parallelism required selected :
  selected ≠ [] → StronglySorted desc selected → Forall (λ c, 0 ≤ bytes c) selected → 0 ≤ required →
  capacity_fits parallelism required selected = true →
  (∀ p, p ∈ place parallelism required selected → ∃ c, c ∈ selected ∧ placed_on p c) ∧
  covers parallelism required (place parallelism required selected).
Proof.
  intros Hne Hs Hb Hr Hfit. destruct selected as [|c cs]; [done|]. set (sel := c :: cs) in *.
  destruct parallelism; cbn [place capacity_fits maximum_supported] in *; bool_prop.
  - destruct (whole_model_covers required c cs Hs Hr Hfit) as [Hall Hcov]. split; [|done].
    intros p Hp. destruct (Forall2_placed_elem _ _ _ Hall Hp) as (x & Hx & ?). exists x.
    split; [|done]. apply list_elem_of_singleton in Hx as ->. set_solver.
  - destruct (pipeline_covers required sel) as [Hall Hcov]; [done..|]. eauto using Forall2_placed_elem.
  - destruct (place_tensor_spec required sel) as [Hall Hcov]; [done..|]. eauto using Forall2_placed_elem.
  - destruct (place_replicas_spec required sel) as (? & ? & ?); [done..|]. by split.
  - destruct (pipeline_covers required sel) as [Hall Hcov]; [done..|]. eauto using Forall2_placed_elem.
Qed.

Lemma ranked_not_empty max groups : groups ≠ [] → rank_groups max groups ≠ [].
Proof.
  intros Hne Hnil. pose proof (sort_desc_perm (λ g : group_key * list candidate, total_bytes g.2)
    ((λ g : group_key * list candidate, (g.1, take (Z.to_nat max) (sort_desc bytes g.2))) <$> groups)) as Hp.
  unfold rank_groups in Hnil. rewrite Hnil in Hp. apply Permutation_nil_l in Hp. by destruct groups.
Qed.

Lemma plan_cases request offers now :
  1 ≤ ModelSessionRequestV1.max_nodes request →
  let observed := sum_u64 (observed_model_memory <$> List.filter (is_live now) offers) in
  plan_model_session request offers now = Some (empty_plan request observed) ∨
  ∃ s, plan_model_session request offers now = Some (plan_selection request observed s) ∧
    good_selection offers now (ModelSessionRequestV1.max_nodes request) s.
Proof.
  intros Hmax. unfold plan_model_session.
  pose proof (build_groups_good offers now) as Hg.
  destruct (build_groups _) as [|g groups] eqn:E; [by left|]. right. cbn [no_elems].
  destruct (select_good offers now (ModelSessionRequestV1.strategy request)
    (ModelSessionRequestV1.max_nodes request) (ModelSessionRequestV1.required_bytes request)
    (rank_groups (ModelSessionRequestV1.max_nodes request) (g :: groups))) as (s & Hs & Hgood).
  - by apply rank_groups_good.
  - by apply ranked_not_empty.
  - exists s. rewrite Hs. done.
Qed.

(** Planning is total: with a positive node limit no index is out of range, so every
    request gets a plan, and every plan is a preview without execution authority. *)
Theorem plan_total request offers now :
  1 ≤ ModelSessionRequestV1.max_nodes request →
  ∃ plan, plan_model_session request offers now = Some plan ∧
    ModelSessionPlan.execution_authority plan = "none_preview_only" ∧
    ModelSessionPlan.proposed_local_endpoint plan = None.
Proof.
  intros Hmax. destruct (plan_cases request offers now Hmax) as [H|([[[k cs] par] sp] & H & _)];
    eexists; by split.
Qed.

(** The evidence a placement of a ready plan rests on. *)
Definition evidenced (offers : list ResourceOfferV1.t) (now : DateTime) (distributed : bool)
    (p : ModelNodePlacement.t) : Prop :=
  ∃ c, backed offers now c ∧ placed_on p c ∧
    if distributed
    then ModelRuntimeOfferV1.is_qualified_for_distributed (RuntimeCandidate.runtime c) = true ∧
         topology_ready c = true
    else ModelRuntimeOfferV1.status (RuntimeCandidate.runtime c) ≠ ModelRuntimeStatus.Candidate.

Lemma is_qualified_elem distributed selected c :
  is_qualified distributed selected = true → c ∈ selected →
  if distributed
  then ModelRuntimeOfferV1.is_qualified_for_distributed (RuntimeCandidate.runtime c) = true ∧
       topology_ready c = true
  else ModelRuntimeOfferV1.status (RuntimeCandidate.runtime c) ≠ ModelRuntimeStatus.Candidate.
Proof.
  unfold is_qualified. destruct distributed; intros H Hc; apply (forallb_elem _ _ _ H) in Hc.
  - by bool_prop.
  - intros He. by rewrite He in Hc.
Qed.

(** [C38] A plan that reports [Ready] puts every placement on a live offer's advertised runtime,
    within that runtime's capacity, with qualification and link evidence when it is distributed.
    Its placements are one whole copy of the model, whole replicas of it, tensor shards that add
    up to it, or a pipeline, whose parts may fall short of the model by up to one byte per
    middle rank. *)
Theorem ready_plan_sound request offers now plan :
  plan_model_session request offers now = Some plan →
  ModelSessionPlan.state plan = ModelPlanState.Ready →
  1 ≤ ModelSessionRequestV1.max_nodes request →
  0 ≤ ModelSessionRequestV1.required_bytes request → (∀ o, o ∈ offers → typed_runtime o) →
  Forall (evidenced offers now (ModelSessionPlan.distributed plan)) (ModelSessionPlan.placements plan) ∧
  ∃ parallelism, ModelSessionPlan.parallelism plan = Some parallelism ∧
    covers parallelism (ModelSessionRequestV1.required_bytes request) (ModelSessionPlan.placements plan).
Proof.
  intros Hplan Hready Hmax Hreq Htyped.
  destruct (plan_cases request offers now Hmax) as [H|([[[k sel] par] sp] & H & Hgood)];
    rewrite H in Hplan; injection Hplan as <-; [done|].
  destruct Hgood as (Hne & Hback & Hsort & Hlen). cbn in Hne, Hback, Hsort, Hlen.
  cbn [plan_selection ModelSessionPlan.state ModelSessionPlan.distributed ModelSessionPlan.placements
    ModelSessionPlan.parallelism] in *.
  unfold plan_state in Hready. destruct (capacity_fits _ _ _) eqn:Hfit; [|done].
  destruct (is_qualified _ _) eqn:Hq; [|done].
  assert (Forall (λ c, 0 ≤ bytes c) sel) as Hb.
  { eapply Forall_impl; [done|]. intros c (Ho & _ & Hr & ->). by apply runtime_capacity_nonneg; [auto|]. }
  destruct (place_spec par (ModelSessionRequestV1.required_bytes request) sel) as [Hon Hcov]; [done..|].
  split; [|by exists par]. apply Forall_forall. intros p Hp. destruct (Hon p Hp) as (c & Hc & Hpc).
  exists c. rewrite Forall_forall in Hback. split_and!; [auto|done|].
  eapply is_qualified_elem; done.
Qed.

(** ** Concrete instances *)

Module Witness.

Definition digest : string :=
  "sha256:0123456789abcdef0123456789abcdef0123456789abcdef0123456789abcdef".
Definition runtime (n : Z) : ModelRuntimeOfferV1.t :=
  ModelRuntimeOfferV1.mk ModelRuntimeOfferV1.SCHEMA "rampage.exo.v1" ModelBackend.ExoMlx
    "0.9" digest "mlx" ModelMemoryKind.Unified n {[ModelParallelism.Pipeline]}
    ModelRuntimeStatus.Qualified [] (Some digest).
Definition offer (node n : Z) : ResourceOfferV1.t :=
  ResourceOfferV1.mk "rampage.resource-offer.v1" (100 + node) node 0 (minutes 1)
    [ResourceQuantityV1.mk ResourceClass.RamWorkingSet n n "byte" ∅]
    (AvailabilityV1.mk true None 80 true true) {["rampage.exo.v1"]} [] [runtime n] None None "".
Definition request (n : Z) : ModelSessionRequestV1.t :=
  ModelSessionRequestV1.mk ModelSessionRequestV1.SCHEMA 1 "m" n 0 4096
    ComputeStrategy.MaximumModelSize 8 (minutes 1) "k".
Definition three : list ResourceOfferV1.t := [offer 1 10; offer 2 10; offer 3 10].

Definition candidates : list candidate :=
  (λ o, RuntimeCandidate.mk o (runtime 10) 10) <$> three.

Lemma pipeline_split_bounds_witness :
  assigned_sum (allocate_pipeline candidates 30) ≤ 30 ≤
    assigned_sum (allocate_pipeline candidates 30) + 1.
Proof.
  refine (proj2 (pipeline_split_bounds candidates 30 _ _ _ _)).
  - discriminate.
  - repeat (constructor; [vm_compute; discriminate|]). constructor.
  - vm_compute. split; discriminate.
  - vm_compute. discriminate.
Defined.

Lemma plan_total_witness :
  ∃ plan, plan_model_session (request 30) three 100 = Some plan ∧
    ModelSessionPlan.execution_authority plan = "none_preview_only".
Proof.
  destruct (plan_total (request 30) three 100) as (plan & H & Ha & _); [vm_compute; discriminate|].
  exists plan. split; [exact H|exact Ha].
Defined.

Lemma ready_plan_sound_witness :
  ∃ plan, plan_model_session (request 30) three 100 = Some plan ∧
    Forall (evidenced three 100 (ModelSessionPlan.distributed plan)) (ModelSessionPlan.placements plan).
Proof.
  destruct (plan_model_session (request 30) three 100) as [plan|] eqn:E; [|vm_compute in E; discriminate E].
  exists plan. split; [done|].
  destruct (ready_plan_sound _ _ _ _ E) as [H _].
  - vm_compute in E. injection E as <-. vm_compute. reflexivity.
  - vm_compute. discriminate.
  - vm_compute. discriminate.
  - intros o [->|[->|[->|[]%not_elem_of_nil]%elem_of_cons]%elem_of_cons]%elem_of_cons;
      (split; (constructor; [vm_compute; discriminate|constructor])).
  - exact H.
Defined.

(** A ready three-rank pipeline for 29 bytes assigns 28. *)
Example ready_pipeline_short :
  (λ plan, (ModelSessionPlan.state plan, assigned_sum (ModelSessionPlan.placements plan)))
    <$> plan_model_session (request 29) three 100 = Some (ModelPlanState.Ready, 28).
Proof. vm_compute. reflexivity. Qed.
End Witness.
