(* ===== verification/Storage.v ===== *)
(** * Content-addressed storage (crates/rampage-storage)

    The store is its SQLite tables and its directory tree: [objects] and [transfers] map
    a digest or session id to the files of that directory, whatever their content.  Every
    mutating operation returns its result together with the store it leaves behind, so an
    error keeps the file-system effects the code performed before it and loses those of
    the rolled-back transaction.  The clock and the random nonces are arguments; AES-GCM
    and the length of a serialized manifest are the class [Vault].  Failures of the
    operating system other than a missing file are not modelled. *)

From S2P Require Import Prelude.
From S2P Require Import Codec.
From S2P Require Import Text.
From S2P Require Import Contracts.
From S2P Require Import Signing.
Import Text.

Definition DEFAULT_CHUNK_SIZE : Z := 4 * 1024 * 1024.
Definition MAX_MANIFEST_BYTES : Z := 1024 * 1024.
Definition MAX_ENCRYPTED_CHUNK_BYTES : Z := DEFAULT_CHUNK_SIZE + 64.
Definition RESUMABLE_CHUNK_SIZE : Z := DEFAULT_CHUNK_SIZE.

(** [StorageLimits]. *)
Module StorageLimits.
Record t := mk { cache_bytes : Z; scratch_bytes : Z; protected_bytes : Z }.
Definition for_class (self : t) (storage_class : StorageClass.t) : Z :=
  match storage_class with
  | StorageClass.Cache => cache_bytes self
  | StorageClass.Scratch => scratch_bytes self
  | StorageClass.Protected => protected_bytes self
  end.
End StorageLimits.

(** [ResumablePutSpec]. *)
Module ResumablePutSpec.
Record t := mk {
  session_id : string;
  lease_id : string;
  authority_scope : string;
  fencing_epoch : Z;
  authority_nonce : string;
  expires_at : DateTime;
  digest : string;
  size_bytes : Z;
  media_type : string;
  storage_class : StorageClass.t;
  required_replicas : Z;
  chunk_size : Z
}.
End ResumablePutSpec.

(** [ResumablePutStatus]. *)
Module ResumablePutStatus.
Record t := mk {
  session_id : string;
  digest : string;
  size_bytes : Z;
  chunk_size : Z;
  chunk_count : Z;
  received_chunks : list Z;
  missing_chunks : list Z;
  complete : bool
}.
End ResumablePutStatus.

(** [ArtifactChunkLayout]. *)
Module ArtifactChunkLayout.
Record t := mk { digest : string; size_bytes : Z; chunk_count : Z }.
End ArtifactChunkLayout.

(** [PutOptions]. *)
Module PutOptions.
Record t := mk { media_type : string; storage_class : StorageClass.t; required_replicas : Z }.
Definition default : t := mk "application/octet-stream" StorageClass.Cache 1.
End PutOptions.

(** [ChunkRecord]. *)
Module ChunkRecord.
Record t := mk { index : Z; nonce : string; plaintext_size : Z; ciphertext_digest : string }.
#[global] Instance eq_dec : EqDecision t.
Proof. solve_decision. Defined.
End ChunkRecord.

(** [Manifest]. *)
Module Manifest.
Record t := mk {
  schema : string;
  plaintext_digest : string;
  plaintext_size : Z;
  media_type : string;
  storage_class : StorageClass.t;
  required_replicas : Z;
  created_at : DateTime;
  chunks : list ChunkRecord.t
}.
End Manifest.

(** [ArtifactContract]. *)
Module ArtifactContract.
Record t := mk { artifact : ArtifactRefV1.t; required_replicas : Z }.
End ArtifactContract.

(** [StorageError]; an [Io] error carries its kind and a [Manifest] error is opaque. *)
Module IoErrorKind.
Inductive t : Set := NotFound | UnexpectedEof | InvalidData | Other.
#[global] Instance eq_dec : EqDecision t.
Proof. solve_decision. Defined.
End IoErrorKind.
Module StorageError.
Inductive t :=
| Io (kind : IoErrorKind.t)
| Database
| ManifestJson
| InvalidManifest
| Crypto
| NotFound (digest : string)
| DigestMismatch
| ArtifactConflict
| StorageQuotaExceeded
| InvalidDigest
| ProtectedRequiresReplication
| InvalidAuthority
| ExpiredAuthority
| ReplayedAuthorityNonce
| StaleFencingEpoch (current supplied : Z)
| InvalidTransfer
| TransferNotFound (session_id : string)
| TransferConflict
| TransferExpired
| ChunkOutOfRange
| ChunkSizeMismatch
| ChunkDigestMismatch
| TransferIncomplete
| Poisoned.
#[global] Instance eq_dec : EqDecision t.
Proof. solve_decision. Defined.
End StorageError.

(** [DurablePutSession], a row of [resumable_put_sessions]. *)
Module DurablePutSession.
Record t := mk {
  lease_id : string;
  authority_scope : string;
  fencing_epoch : Z;
  authority_nonce : string;
  expires_at_millis : Z;
  digest : string;
  size_bytes : Z;
  media_type : string;
  storage_class : string;
  required_replicas : Z;
  chunk_size : Z;
  chunk_count : Z;
  state : string
}.
Definition renew (s : t) (lease_id : string) (epoch : Z) (nonce : string) (expires : Z) : t :=
  mk lease_id (authority_scope s) epoch nonce expires (digest s) (size_bytes s) (media_type s)
    (storage_class s) (required_replicas s) (chunk_size s) (chunk_count s) (state s).
Definition complete (s : t) : t :=
  mk (lease_id s) (authority_scope s) (fencing_epoch s) (authority_nonce s) (expires_at_millis s)
    (digest s) (size_bytes s) (media_type s) (storage_class s) (required_replicas s)
    (chunk_size s) (chunk_count s) "complete".
End DurablePutSession.

(** Rows of [resumable_put_chunks] and [artifacts]. *)
Module ChunkRow.
Record t := mk {
  plaintext_size : Z; plaintext_digest : string; nonce : string; ciphertext_digest : string }.
End ChunkRow.
Module ArtifactRow.
Record t := mk { size_bytes : Z; media_type : string; storage_class : string; required_replicas : Z }.
#[global] Instance eq_dec : EqDecision t.
Proof. solve_decision. Defined.
End ArtifactRow.

(** ** Helpers without state *)

Definition storage_class_name (class : StorageClass.t) : string :=
  match class with
  | StorageClass.Cache => "cache"
  | StorageClass.Scratch => "scratch"
  | StorageClass.Protected => "protected"
  end.
Definition parse_storage_class (value : string) : result StorageError.t StorageClass.t :=
  if value == "cache" then Ok StorageClass.Cache
  else if value == "scratch" then Ok StorageClass.Scratch
  else if value == "protected" then Ok StorageClass.Protected
  else Err StorageError.InvalidTransfer.

Definition is_lower_hex (value : string) : bool := all_bytes lower_hex_byte value.
(** The test of [transfer_dir]. *)
Definition is_session_id (session_id : string) : bool :=
  (len session_id =? 32) && is_lower_hex session_id.

Definition chunk_count (size_bytes chunk_size : Z) : result StorageError.t Z :=
  if (size_bytes =? 0) || (chunk_size =? 0) then Err StorageError.InvalidTransfer
  else
    let n := div_ceil size_bytes chunk_size in
    if n <=? u32_max then Ok n else Err StorageError.InvalidTransfer.

Definition expected_chunk_size (size_bytes chunk_size index : Z) : result StorageError.t Z :=
  count ← chunk_count size_bytes chunk_size;
  if count <=? index then Err StorageError.ChunkOutOfRange
  else Ok (Z.min (size_bytes - index * chunk_size) chunk_size).

Definition validate_resumable_spec (spec : ResumablePutSpec.t) : result StorageError.t () :=
  let bad max s := is_empty s || (max <? len s) || negb (is_ascii s) in
  if bad 128 (ResumablePutSpec.lease_id spec)
     || bad 128 (ResumablePutSpec.authority_scope spec)
     || bad 128 (ResumablePutSpec.authority_nonce spec)
     || bad 255 (ResumablePutSpec.media_type spec)
     || (ResumablePutSpec.size_bytes spec =? 0)
     || (MAX_ARTIFACT_TRANSFER_BYTES <? ResumablePutSpec.size_bytes spec)
     || (ResumablePutSpec.chunk_size spec =? 0)
     || (RESUMABLE_CHUNK_SIZE <? ResumablePutSpec.chunk_size spec)
     || (ResumablePutSpec.required_replicas spec =? 0)
     || ((ResumablePutSpec.storage_class spec == StorageClass.Protected)
         && (ResumablePutSpec.required_replicas spec <? 2))
  then Err StorageError.InvalidTransfer
  else if negb (is_session_id (ResumablePutSpec.session_id spec)) then Err StorageError.InvalidTransfer
  else
    _ ← chunk_count (ResumablePutSpec.size_bytes spec) (ResumablePutSpec.chunk_size spec);
    Ok ().

Definition ensure_session_contract (existing : DurablePutSession.t) (spec : ResumablePutSpec.t)
    (count : Z) : result StorageError.t () :=
  if (DurablePutSession.authority_scope existing != ResumablePutSpec.authority_scope spec)
     || (DurablePutSession.digest existing != ResumablePutSpec.digest spec)
     || (DurablePutSession.size_bytes existing != ResumablePutSpec.size_bytes spec)
     || (DurablePutSession.media_type existing != ResumablePutSpec.media_type spec)
     || (DurablePutSession.storage_class existing
           != storage_class_name (ResumablePutSpec.storage_class spec))
     || (DurablePutSession.required_replicas existing != ResumablePutSpec.required_replicas spec)
     || (DurablePutSession.chunk_size existing != ResumablePutSpec.chunk_size spec)
     || (DurablePutSession.chunk_count existing != count)
  then Err StorageError.TransferConflict else Ok ().

Definition artifact_contract_from_manifest (digest : string) (m : Manifest.t) : ArtifactContract.t :=
  ArtifactContract.mk
    (ArtifactRefV1.mk "rampage.artifact-ref.v1" digest (Manifest.plaintext_size m)
       (Manifest.media_type m) (Manifest.storage_class m) true)
    (Manifest.required_replicas m).

Definition ensure_artifact_contract (existing : ArtifactContract.t) (size_bytes : Z)
    (media_type : string) (storage_class : StorageClass.t) (required_replicas : Z)
    : result StorageError.t () :=
  let a := ArtifactContract.artifact existing in
  if (ArtifactRefV1.size_bytes a != size_bytes) || (ArtifactRefV1.media_type a != media_type)
     || (ArtifactRefV1.storage_class a != storage_class)
     || (ArtifactContract.required_replicas existing != required_replicas)
  then Err StorageError.ArtifactConflict else Ok ().

Definition is_repairable_object_error (error : StorageError.t) : bool :=
  match error with
  | StorageError.DigestMismatch | StorageError.InvalidManifest | StorageError.ManifestJson
  | StorageError.NotFound _ => true
  | StorageError.Io kind =>
      match kind with
      | IoErrorKind.NotFound | IoErrorKind.UnexpectedEof | IoErrorKind.InvalidData => true
      | IoErrorKind.Other => false
      end
  | _ => false
  end.

(** The chunk loop of [validate_manifest]: [index] and [total] are the loop state,
    [count] the number of chunks. *)
Fixpoint validate_chunks (size nominal count index total : Z) (chunks : list ChunkRecord.t)
    : result StorageError.t Z :=
  match chunks with
  | [] => Ok total
  | c :: rest =>
      remaining ← ok_or StorageError.InvalidManifest (checked_sub size total);
      let is_last := index + 1 =? count in
      if is_last && (nominal <? remaining) then Err StorageError.InvalidManifest
      else
        let expected_size := if is_last then remaining else nominal in
        if (ChunkRecord.index c != index `mod` 4294967296)
           || (ChunkRecord.plaintext_size c =? 0)
           || (ChunkRecord.plaintext_size c != expected_size)
           || negb (len (ChunkRecord.nonce c) =? 24) || negb (is_lower_hex (ChunkRecord.nonce c))
           || negb (len (ChunkRecord.ciphertext_digest c) =? 64)
           || negb (is_lower_hex (ChunkRecord.ciphertext_digest c))
        then Err StorageError.InvalidManifest
        else
          total ← ok_or StorageError.InvalidManifest
                    (checked_add total (ChunkRecord.plaintext_size c));
          validate_chunks size nominal count (index + 1) total rest
  end.

Definition validate_manifest (expected_digest : string) (m : Manifest.t) : result StorageError.t () :=
  if (Manifest.schema m != "rampage.cas-manifest.v1")
     || (Manifest.plaintext_digest m != expected_digest)
     || (MAX_ARTIFACT_TRANSFER_BYTES <? Manifest.plaintext_size m)
     || is_empty (Manifest.media_type m) || (255 <? len (Manifest.media_type m))
     || negb (is_ascii (Manifest.media_type m))
     || (Manifest.required_replicas m =? 0)
     || ((Manifest.storage_class m == StorageClass.Protected) && (Manifest.required_replicas m <? 2))
     || negb (Bool.eqb (Manifest.plaintext_size m =? 0) (no_elems (Manifest.chunks m)))
  then Err StorageError.InvalidManifest
  else
    let nominal := match Manifest.chunks m with c :: _ => ChunkRecord.plaintext_size c | [] => 0 end in
    if DEFAULT_CHUNK_SIZE <? nominal then Err StorageError.InvalidManifest
    else
      total ← validate_chunks (Manifest.plaintext_size m) nominal (zlen (Manifest.chunks m)) 0 0
                (Manifest.chunks m);
      if total != Manifest.plaintext_size m then Err StorageError.InvalidManifest else Ok ().

(** [bytes.chunks(size)]: full chunks and a shorter last one; [left] bytes may still
    join the chunk being built. *)
Fixpoint chunks_go (size left : Z) (s : string) : string * list string :=
  match s with
  | "" => ("", [])
  | String c s =>
      if left <=? 0
      then let '(first, rest) := chunks_go size (size - 1) s in ("", String c first :: rest)
      else let '(first, rest) := chunks_go size (left - 1) s in (String c first, rest)
  end.
Definition chunks (size : Z) (s : string) : list string := (chunks_go size 0 s).2.

(** Concatenation of decrypted chunks. *)
Definition concat_bytes (l : list string) : string := foldr String.append "" l.

(** ** Parameters *)

Class Vault := {
  encrypt : string → string → option string;   (* cipher.encrypt(nonce, plaintext) *)
  decrypt : string → string → option string;   (* cipher.decrypt(nonce, ciphertext) *)
  manifest_len : Manifest.t → Z                (* serde_json::to_vec_pretty(manifest).len() *)
}.

(** AES-256-GCM decrypts what it encrypted under a 96-bit nonce and appends a 16-byte
    tag; encryption fails only beyond its 64 GiB message limit.  A valid manifest of at
    most sixteen chunks, all of whose texts are bounded, serializes within a mebibyte. *)
Class VaultLaws (vault : Vault) : Prop := {
  encrypt_total nonce p : String.length nonce = 12%nat → len p ≤ MAX_ARTIFACT_TRANSFER_BYTES →
    is_Some (encrypt nonce p);
  decrypt_encrypt nonce p c : encrypt nonce p = Some c → decrypt nonce c = Some p;
  encrypt_length nonce p c : encrypt nonce p = Some c → len c = len p + 16;
  manifest_small digest m : is_sha256_digest digest = true → validate_manifest digest m = Ok () →
    zlen (Manifest.chunks m) ≤ 16 → manifest_len m ≤ MAX_MANIFEST_BYTES
}.

Module CasStore.
Section store.
Context {codec : Codec} {crypto : Crypto} {vault : Vault}.

(** ** State *)

(** A directory of an object or a transfer: its [manifest.json], if it is a file, with
    what parsing it yields, and its numbered chunk files. *)
Record dir := Dir {
  manifest_file : option (result StorageError.t Manifest.t);
  chunk_files : gmap Z string
}.

Record t := mk {
  objects : gmap string dir;
  transfers : gmap string dir;
  artifacts : gmap string ArtifactRow.t;
  authority_fences : gmap string Z;
  consumed_authority_nonces : gmap (string * string) Z;
  resumable_put_sessions : gmap string DurablePutSession.t;
  resumable_put_chunks : gmap (string * Z) ChunkRow.t;
  chunk_size : Z;
  limits : option StorageLimits.t
}.

Definition open_with_limits (limits : option StorageLimits.t) : t :=
  mk ∅ ∅ ∅ ∅ ∅ ∅ ∅ DEFAULT_CHUNK_SIZE limits.

Definition set_objects (f : gmap string dir → gmap string dir) (s : t) : t :=
  mk (f (objects s)) (transfers s) (artifacts s) (authority_fences s)
    (consumed_authority_nonces s) (resumable_put_sessions s) (resumable_put_chunks s)
    (chunk_size s) (limits s).
Definition set_transfers (f : gmap string dir → gmap string dir) (s : t) : t :=
  mk (objects s) (f (transfers s)) (artifacts s) (authority_fences s)
    (consumed_authority_nonces s) (resumable_put_sessions s) (resumable_put_chunks s)
    (chunk_size s) (limits s).
Definition set_artifacts (f : gmap string ArtifactRow.t → gmap string ArtifactRow.t) (s : t) : t :=
  mk (objects s) (transfers s) (f (artifacts s)) (authority_fences s)
    (consumed_authority_nonces s) (resumable_put_sessions s) (resumable_put_chunks s)
    (chunk_size s) (limits s).
Definition set_authority (fences : gmap string Z) (nonces : gmap (string * string) Z) (s : t) : t :=
  mk (objects s) (transfers s) (artifacts s) fences nonces (resumable_put_sessions s)
    (resumable_put_chunks s) (chunk_size s) (limits s).
Definition set_sessions
    (f : gmap string DurablePutSession.t → gmap string DurablePutSession.t) (s : t) : t :=
  mk (objects s) (transfers s) (artifacts s) (authority_fences s)
    (consumed_authority_nonces s) (f (resumable_put_sessions s)) (resumable_put_chunks s)
    (chunk_size s) (limits s).
Definition set_chunks
    (f : gmap (string * Z) ChunkRow.t → gmap (string * Z) ChunkRow.t) (s : t) : t :=
  mk (objects s) (transfers s) (artifacts s) (authority_fences s)
    (consumed_authority_nonces s) (resumable_put_sessions s) (f (resumable_put_chunks s))
    (chunk_size s) (limits s).

(** ** Reading objects *)

Definition sha256_hex (bytes : string) : string := hex_encode (sha256 bytes).
Definition sha256_digest (bytes : string) : string := "sha256:" +:+ sha256_hex bytes.

(** [object_dir(digest)] succeeds exactly on well-formed digests. *)
Definition object_dir (digest : string) : result StorageError.t () :=
  if is_sha256_digest digest then Ok () else Err StorageError.InvalidDigest.
Definition transfer_dir (session_id : string) : result StorageError.t () :=
  if is_session_id session_id then Ok () else Err StorageError.InvalidTransfer.

(** [read_regular_file_bounded(dir/{index:08}.chunk, MAX_ENCRYPTED_CHUNK_BYTES)]. *)
Definition read_chunk_file (d : dir) (index : Z) : result StorageError.t string :=
  match chunk_files d !! index with
  | None => Err (StorageError.Io IoErrorKind.NotFound)
  | Some bytes =>
      if MAX_ENCRYPTED_CHUNK_BYTES <? len bytes then Err StorageError.InvalidManifest else Ok bytes
  end.

(** Reading and parsing an existing [manifest.json]. *)
Definition read_manifest_file (file : result StorageError.t Manifest.t)
    : result StorageError.t Manifest.t :=
  m ← file;
  if MAX_MANIFEST_BYTES <? manifest_len m then Err StorageError.InvalidManifest else Ok m.

Definition read_manifest (self : t) (digest : string) : result StorageError.t (dir * Manifest.t) :=
  _ ← object_dir digest;
  match objects self !! digest with
  | None => Err (StorageError.NotFound digest)
  | Some d =>
      match manifest_file d with
      | None => Err (StorageError.NotFound digest)
      | Some file =>
          m ← read_manifest_file file;
          _ ← validate_manifest digest m;
          Ok (d, m)
      end
  end.

Definition decode_nonce (encoded : string) : result StorageError.t string :=
  bytes ← ok_or StorageError.Crypto (hex_decode encoded);
  if len bytes =? 12 then Ok bytes else Err StorageError.Crypto.

(** Authenticate and decrypt one recorded chunk. *)
Definition read_chunk (d : dir) (record : ChunkRecord.t) : result StorageError.t string :=
  ciphertext ← read_chunk_file d (ChunkRecord.index record);
  if sha256_hex ciphertext != ChunkRecord.ciphertext_digest record
  then Err StorageError.DigestMismatch
  else
    nonce ← decode_nonce (ChunkRecord.nonce record);
    plaintext ← ok_or StorageError.Crypto (decrypt nonce ciphertext);
    if len plaintext != ChunkRecord.plaintext_size record then Err StorageError.DigestMismatch
    else Ok plaintext.

Definition get (self : t) (digest : string) : result StorageError.t string :=
  '(d, m) ← read_manifest self digest;
  parts ← try_map (read_chunk d) (Manifest.chunks m);
  let plaintext := concat_bytes parts in
  if (sha256_digest plaintext != digest) || (sha256_digest plaintext != Manifest.plaintext_digest m)
  then Err StorageError.DigestMismatch else Ok plaintext.

(** [checked_add] over the chunk lengths. *)
Definition checked_total (parts : list string) : option Z :=
  foldl (λ total p, total ≫= λ n, checked_add n (len p)) (Some 0) parts.

Definition verify_object (self : t) (digest : string) : result StorageError.t ArtifactContract.t :=
  '(d, m) ← read_manifest self digest;
  parts ← try_map (read_chunk d) (Manifest.chunks m);
  total ← ok_or StorageError.InvalidManifest (checked_total parts);
  if (sha256_digest (concat_bytes parts) != digest) || (total != Manifest.plaintext_size m)
  then Err StorageError.DigestMismatch
  else Ok (artifact_contract_from_manifest digest m).

Definition head (self : t) (digest : string) : result StorageError.t ArtifactRefV1.t :=
  '(_, m) ← read_manifest self digest;
  let contract := artifact_contract_from_manifest digest m in
  row ← ok_or (StorageError.NotFound digest) (artifacts self !! digest);
  class ← parse_storage_class (ArtifactRow.storage_class row);
  _ ← ensure_artifact_contract contract (ArtifactRow.size_bytes row) (ArtifactRow.media_type row)
        class (ArtifactRow.required_replicas row);
  Ok (ArtifactContract.artifact contract).

Definition verify (self : t) (digest : string) : result StorageError.t ArtifactRefV1.t :=
  verified ← verify_object self digest;
  _ ← head self digest;
  Ok (ArtifactContract.artifact verified).

Definition chunk_layout (self : t) (digest : string) : result StorageError.t ArtifactChunkLayout.t :=
  '(_, m) ← read_manifest self digest;
  Ok (ArtifactChunkLayout.mk (Manifest.plaintext_digest m) (Manifest.plaintext_size m)
        (zlen (Manifest.chunks m) `mod` 4294967296)).

Definition get_chunk (self : t) (digest : string) (index : Z) : result StorageError.t string :=
  '(d, m) ← read_manifest self digest;
  match Manifest.chunks m !! Z.to_nat index with
  | Some record =>
      if ChunkRecord.index record == index then read_chunk d record
      else Err StorageError.ChunkOutOfRange
  | None => Err StorageError.ChunkOutOfRange
  end.

(** ** Authority *)

Definition ensure_epoch_is_current (self : t) (scope : string) (fencing_epoch : Z)
    : result StorageError.t () :=
  match authority_fences self !! scope with
  | Some current =>
      if fencing_epoch <? current then Err (StorageError.StaleFencingEpoch current fencing_epoch)
      else Ok ()
  | None => Ok ()
  end.

(** The transaction's effect; an error rolls it back. *)
Definition accept_authority_in_transaction (self : t) (scope : string) (fencing_epoch : Z)
    (nonce : string) (expires_at_millis now_millis : Z) : result StorageError.t t :=
  _ ← ensure_epoch_is_current self scope fencing_epoch;
  let live := filter (λ kv, now_millis < kv.2) (consumed_authority_nonces self) in
  match live !! (scope, nonce) with
  | Some _ => Err StorageError.ReplayedAuthorityNonce
  | None =>
      if i64_max <? fencing_epoch then Err StorageError.InvalidAuthority
      else
        let fence := Z.max (default fencing_epoch (authority_fences self !! scope)) fencing_epoch in
        Ok (set_authority (<[scope := fence]> (authority_fences self))
              (<[(scope, nonce) := expires_at_millis]> live) self)
  end.

(** Commit a transaction, or roll it back. *)
Definition commit {A} (self : t) (r : result StorageError.t (A * t)) : result StorageError.t A * t :=
  match r with Ok (a, s) => (Ok a, s) | Err e => (Err e, self) end.

Definition accept_authority (self : t) (scope : string) (fencing_epoch : Z) (nonce : string)
    (expires_at now : DateTime) : result StorageError.t () * t :=
  if is_empty scope || (128 <? len scope) || is_empty nonce || (128 <? len nonce)
     || negb (is_ascii scope) || negb (is_ascii nonce)
  then (Err StorageError.InvalidAuthority, self)
  else if timestamp_millis expires_at <=? timestamp_millis now
  then (Err StorageError.ExpiredAuthority, self)
  else
    commit self
      (s ← accept_authority_in_transaction self scope fencing_epoch nonce
             (timestamp_millis expires_at) (timestamp_millis now);
       Ok ((), s)).

(** ** Quota and index *)

Definition used_bytes (self : t) (class excluded : string) : Z :=
  zsum ((λ kv, ArtifactRow.size_bytes kv.2) <$>
    List.filter (λ kv, (ArtifactRow.storage_class kv.2 == class) && (kv.1 != excluded))
      (map_to_list (artifacts self))).
Definition reserved_bytes (self : t) (class : string) : Z :=
  zsum ((λ kv, DurablePutSession.size_bytes kv.2) <$>
    List.filter (λ kv, (DurablePutSession.storage_class kv.2 == class)
                       && (DurablePutSession.state kv.2 == "active"))
      (map_to_list (resumable_put_sessions self))).
Definition already_indexed (self : t) (class digest : string) : bool :=
  is_some_and (λ row, ArtifactRow.storage_class row == class) (artifacts self !! digest).

Definition ensure_storage_capacity (self : t) (storage_class : StorageClass.t) (requested_bytes : Z)
    (replacing_digest : option string) : result StorageError.t () :=
  match limits self with
  | None => Ok ()
  | Some l =>
      let limit := StorageLimits.for_class l storage_class in
      let class := storage_class_name storage_class in
      let excluded := default "" replacing_digest in
      let total :=
        total ← checked_add (used_bytes self class excluded) (reserved_bytes self class);
        checked_add total (if already_indexed self class excluded then 0 else requested_bytes) in
      if is_none_or (λ total, limit <? total) total then Err StorageError.StorageQuotaExceeded
      else Ok ()
  end.

Definition index_artifact_in_transaction (self : t) (artifact : ArtifactRefV1.t)
    (required_replicas : Z) : result StorageError.t t :=
  let digest := ArtifactRefV1.digest artifact in
  let row := ArtifactRow.mk (ArtifactRefV1.size_bytes artifact) (ArtifactRefV1.media_type artifact)
               (storage_class_name (ArtifactRefV1.storage_class artifact)) required_replicas in
  match artifacts self !! digest with
  | None => Ok (set_artifacts (insert digest row) self)
  | Some indexed => if indexed == row then Ok self else Err StorageError.ArtifactConflict
  end.

Definition quarantine_object (self : t) (digest : string) : t := set_objects (delete digest) self.

(** ** Whole-artifact writes *)

(** One pass of the chunk loop of [put]: encrypt, write the file, push the record. *)
Definition put_chunk_at (nonces : nat → string) (index : nat) (chunk : string)
    : result StorageError.t (string * ChunkRecord.t) :=
  ciphertext ← ok_or StorageError.Crypto (encrypt (nonces index) chunk);
  Ok (ciphertext, ChunkRecord.mk (Z.of_nat index `mod` 4294967296) (hex_encode (nonces index))
                    (len chunk) (sha256_hex ciphertext)).

Definition write_chunks (nonces : nat → string) (plaintext : string) (size : Z)
    : result StorageError.t (list (string * ChunkRecord.t)) :=
  try_map (λ p, put_chunk_at nonces p.1 p.2) (imap pair (chunks size plaintext)).

Definition chunk_dir (parts : list (string * ChunkRecord.t)) : gmap Z string :=
  list_to_map (imap (λ i p, (Z.of_nat i, p.1)) parts).

Definition index_artifact (self : t) (artifact : ArtifactRefV1.t) (required_replicas : Z)
    : result StorageError.t t :=
  index_artifact_in_transaction self artifact required_replicas.

(** The part of [put] after the existing object, if any, has been dealt with. *)
Definition put_new (self : t) (plaintext : string) (options : PutOptions.t) (digest : string)
    (nonces : nat → string) (now : DateTime) : result StorageError.t ArtifactRefV1.t * t :=
  match ensure_storage_capacity self (PutOptions.storage_class options) (len plaintext)
          (Some digest) with
  | Err e => (Err e, self)
  | Ok _ =>
      match write_chunks nonces plaintext (chunk_size self) with
      | Err e => (Err e, self)
      | Ok parts =>
          let manifest :=
            Manifest.mk "rampage.cas-manifest.v1" digest (len plaintext)
              (PutOptions.media_type options) (PutOptions.storage_class options)
              (PutOptions.required_replicas options) now (parts.*2) in
          let stored := set_objects (insert digest (Dir (Some (Ok manifest)) (chunk_dir parts))) self in
          commit stored
            (committed ← verify_object stored digest;
             _ ← ensure_artifact_contract committed (len plaintext) (PutOptions.media_type options)
                   (PutOptions.storage_class options) (PutOptions.required_replicas options);
             s ← index_artifact stored (ArtifactContract.artifact committed)
                   (ArtifactContract.required_replicas committed);
             Ok (ArtifactContract.artifact committed, s))
      end
  end.

Definition put (self : t) (plaintext : string) (options : PutOptions.t) (nonces : nat → string)
    (now : DateTime) : result StorageError.t ArtifactRefV1.t * t :=
  if (PutOptions.storage_class options == StorageClass.Protected)
     && (PutOptions.required_replicas options <? 2)
  then (Err StorageError.ProtectedRequiresReplication, self)
  else
    let digest := sha256_digest plaintext in
    match object_dir digest with
    | Err e => (Err e, self)
    | Ok _ =>
        match objects self !! digest with
        | None => put_new self plaintext options digest nonces now
        | Some _ =>
            match verify_object self digest with
            | Ok existing =>
                commit self
                  (_ ← ensure_artifact_contract existing (len plaintext)
                         (PutOptions.media_type options) (PutOptions.storage_class options)
                         (PutOptions.required_replicas options);
                   s ← index_artifact self (ArtifactContract.artifact existing)
                         (PutOptions.required_replicas options);
                   Ok (ArtifactContract.artifact existing, s))
            | Err e =>
                if is_repairable_object_error e
                then put_new (quarantine_object self digest) plaintext options digest nonces now
                else (Err e, self)
            end
        end
    end.

(** ** Resumable writes *)

(** [SELECT ... FROM resumable_put_chunks WHERE session_id = ?1 ORDER BY chunk_index]. *)
Definition by_index : relation (Z * ChunkRow.t) := λ a b, a.1 ≤ b.1.
#[global] Instance by_index_dec : RelDecision by_index.
Proof. intros a b. unfold by_index. apply _. Defined.
Definition session_rows (self : t) (session_id : string) : list (Z * ChunkRow.t) :=
  merge_sort by_index
    (omap (λ '((id, index), row), if id == session_id then Some (index, row) else None)
       (map_to_list (resumable_put_chunks self))).

(** The recorded indices whose chunk file exists. *)
Definition received_chunks (self : t) (session_id : string) : list Z :=
  List.filter (λ index,
      is_some_and (λ d, is_some (chunk_files d !! index)) (transfers self !! session_id))
    (session_rows self session_id).*1.

Definition resumable_put_status (self : t) (session_id : string)
    : result StorageError.t ResumablePutStatus.t :=
  _ ← transfer_dir session_id;
  session ← ok_or (StorageError.TransferNotFound session_id)
              (resumable_put_sessions self !! session_id);
  let count := DurablePutSession.chunk_count session in
  let received := received_chunks self session_id in
  if negb (in_range 0 u32_max count) then Err StorageError.InvalidTransfer
  else
    Ok (ResumablePutStatus.mk session_id (DurablePutSession.digest session)
          (DurablePutSession.size_bytes session) (DurablePutSession.chunk_size session) count
          received (List.filter (λ index, negb (bool_decide (index ∈ received))) (seqZ 0 count))
          (DurablePutSession.state session == "complete")).

Definition new_session (spec : ResumablePutSpec.t) (count : Z) : DurablePutSession.t :=
  DurablePutSession.mk (ResumablePutSpec.lease_id spec) (ResumablePutSpec.authority_scope spec)
    (ResumablePutSpec.fencing_epoch spec) (ResumablePutSpec.authority_nonce spec)
    (timestamp_millis (ResumablePutSpec.expires_at spec)) (ResumablePutSpec.digest spec)
    (ResumablePutSpec.size_bytes spec) (ResumablePutSpec.media_type spec)
    (storage_class_name (ResumablePutSpec.storage_class spec))
    (ResumablePutSpec.required_replicas spec) (ResumablePutSpec.chunk_size spec) count "active".

(** The transaction of [begin_resumable_put]. *)
Definition begin_in_transaction (self : t) (spec : ResumablePutSpec.t) (count now_millis : Z)
    : result StorageError.t t :=
  let id := ResumablePutSpec.session_id spec in
  let epoch := ResumablePutSpec.fencing_epoch spec in
  let expires := timestamp_millis (ResumablePutSpec.expires_at spec) in
  let accept :=
    accept_authority_in_transaction self (ResumablePutSpec.authority_scope spec) epoch
      (ResumablePutSpec.authority_nonce spec) expires now_millis in
  match resumable_put_sessions self !! id with
  | Some existing =>
      _ ← ensure_session_contract existing spec count;
      if DurablePutSession.state existing == "complete" then Ok self
      else if (DurablePutSession.lease_id existing != ResumablePutSpec.lease_id spec)
              || (DurablePutSession.authority_nonce existing != ResumablePutSpec.authority_nonce spec)
              || (DurablePutSession.fencing_epoch existing != epoch)
              || (DurablePutSession.expires_at_millis existing != expires)
      then
        s ← accept;
        Ok (set_sessions (insert id
              (DurablePutSession.renew existing (ResumablePutSpec.lease_id spec) epoch
                 (ResumablePutSpec.authority_nonce spec) expires)) s)
      else
        _ ← ensure_epoch_is_current self (ResumablePutSpec.authority_scope spec) epoch;
        Ok self
  | None =>
      _ ← ensure_storage_capacity self (ResumablePutSpec.storage_class spec)
            (ResumablePutSpec.size_bytes spec) (Some (ResumablePutSpec.digest spec));
      s ← accept;
      Ok (set_sessions (insert id (new_session spec count)) s)
  end.

(** [fs::create_dir_all(transfer_dir)]. *)
Definition create_transfer_dir (session_id : string) (self : t) : t :=
  set_transfers (λ m, match m !! session_id with
                      | Some _ => m
                      | None => <[session_id := Dir None ∅]> m
                      end) self.

Definition is_complete (self : t) (session_id : string) : bool :=
  is_some_and (λ s, DurablePutSession.state s == "complete") (resumable_put_sessions self !! session_id).

Definition begin_resumable_put (self : t) (spec : ResumablePutSpec.t) (now : DateTime)
    : result StorageError.t ResumablePutStatus.t * t :=
  let id := ResumablePutSpec.session_id spec in
  match validate_resumable_spec spec;; object_dir (ResumablePutSpec.digest spec) with
  | Err e => (Err e, self)
  | Ok _ =>
      if timestamp_millis (ResumablePutSpec.expires_at spec) <=? timestamp_millis now
      then (Err StorageError.TransferExpired, self)
      else if i64_max <? ResumablePutSpec.fencing_epoch spec
      then (Err StorageError.InvalidAuthority, self)
      else if i64_max <? ResumablePutSpec.size_bytes spec
      then (Err StorageError.InvalidTransfer, self)
      else
        match chunk_count (ResumablePutSpec.size_bytes spec) (ResumablePutSpec.chunk_size spec) with
        | Err e => (Err e, self)
        | Ok count =>
            match begin_in_transaction self spec count (timestamp_millis now) with
            | Err e => (Err e, self)
            | Ok s =>
                let s := if is_complete self id then s else create_transfer_dir id s in
                (resumable_put_status s id, s)
            end
        end
  end.

(** Writing one encrypted chunk file and its row. *)
Definition store_chunk (self : t) (session_id : string) (index : Z) (plaintext digest nonce : string)
    : result StorageError.t ResumablePutStatus.t * t :=
  let made := create_transfer_dir session_id self in
  match encrypt nonce plaintext with
  | None => (Err StorageError.Crypto, made)
  | Some ciphertext =>
      let written :=
        set_transfers (alter (λ d, Dir (manifest_file d) (<[index := ciphertext]> (chunk_files d)))
                         session_id) made in
      let s :=
        set_chunks (insert (session_id, index)
          (ChunkRow.mk (len plaintext) digest (hex_encode nonce) (sha256_hex ciphertext))) written in
      (resumable_put_status s session_id, s)
  end.

Definition put_resumable_chunk (self : t) (session_id : string) (index : Z)
    (declared_digest plaintext nonce : string) (now : DateTime)
    : result StorageError.t ResumablePutStatus.t * t :=
  match transfer_dir session_id;;
        ok_or (StorageError.TransferNotFound session_id) (resumable_put_sessions self !! session_id) with
  | Err e => (Err e, self)
  | Ok session =>
      if DurablePutSession.state session == "complete"
      then (resumable_put_status self session_id, self)
      else if DurablePutSession.expires_at_millis session <=? timestamp_millis now
      then (Err StorageError.TransferExpired, self)
      else
        match ensure_epoch_is_current self (DurablePutSession.authority_scope session)
                (DurablePutSession.fencing_epoch session) with
        | Err e => (Err e, self)
        | Ok _ =>
            let count := DurablePutSession.chunk_count session in
            if negb (in_range 0 u32_max count) then (Err StorageError.InvalidTransfer, self)
            else if count <=? index then (Err StorageError.ChunkOutOfRange, self)
            else
              match expected_chunk_size (DurablePutSession.size_bytes session)
                      (DurablePutSession.chunk_size session) index with
              | Err e => (Err e, self)
              | Ok expected_size =>
                  if len plaintext != expected_size then (Err StorageError.ChunkSizeMismatch, self)
                  else
                    let actual_digest := sha256_digest plaintext in
                    if actual_digest != declared_digest
                    then (Err StorageError.ChunkDigestMismatch, self)
                    else
                      match resumable_put_chunks self !! (session_id, index) with
                      | None => store_chunk self session_id index plaintext actual_digest nonce
                      | Some row =>
                          if (ChunkRow.plaintext_size row != expected_size)
                             || (ChunkRow.plaintext_digest row != actual_digest)
                          then (Err StorageError.TransferConflict, self)
                          else
                            match transfers self !! session_id ≫= λ d, chunk_files d !! index with
                            | None => store_chunk self session_id index plaintext actual_digest nonce
                            | Some bytes =>
                                if MAX_ENCRYPTED_CHUNK_BYTES <? len bytes
                                then (Err StorageError.InvalidManifest, self)
                                else if sha256_hex bytes == ChunkRow.ciphertext_digest row
                                then (resumable_put_status self session_id, self)
                                else store_chunk self session_id index plaintext actual_digest nonce
                            end
                      end
              end
        end
  end.

(** Authenticate, decrypt and check one recorded transfer chunk. *)
Definition commit_chunk (d : dir) (expected_index : Z) (index : Z) (row : ChunkRow.t)
    : result StorageError.t (string * ChunkRecord.t) :=
  if index != expected_index `mod` 4294967296 then Err StorageError.TransferIncomplete
  else
    ciphertext ← read_chunk_file d index;
    if sha256_hex ciphertext != ChunkRow.ciphertext_digest row then Err StorageError.DigestMismatch
    else
      nonce ← decode_nonce (ChunkRow.nonce row);
      plaintext ← ok_or StorageError.Crypto (decrypt nonce ciphertext);
      if (len plaintext != ChunkRow.plaintext_size row)
         || (sha256_digest plaintext != ChunkRow.plaintext_digest row)
      then Err StorageError.DigestMismatch
      else Ok (plaintext, ChunkRecord.mk index (ChunkRow.nonce row) (ChunkRow.plaintext_size row)
                            (ChunkRow.ciphertext_digest row)).

Definition complete_session (session_id : string) (self : t) : t :=
  set_sessions (alter DurablePutSession.complete session_id) self.

(** The manifest already left in the transfer directory must agree with the new one. *)
Definition check_left_manifest (digest : string) (m : Manifest.t)
    (file : option (result StorageError.t Manifest.t)) : result StorageError.t Manifest.t :=
  match file with
  | None => Ok m
  | Some file =>
      existing ← read_manifest_file file;
      _ ← validate_manifest digest existing;
      if (Manifest.plaintext_digest existing != Manifest.plaintext_digest m)
         || (Manifest.plaintext_size existing != Manifest.plaintext_size m)
         || (Manifest.media_type existing != Manifest.media_type m)
         || (Manifest.storage_class existing != Manifest.storage_class m)
         || (Manifest.required_replicas existing != Manifest.required_replicas m)
         || (Manifest.chunks existing != Manifest.chunks m)
      then Err StorageError.TransferConflict
      else Ok existing
  end.

(** Index the verified object and complete the session, as one transaction. *)
Definition finish_commit (self : t) (session_id : string) (session : DurablePutSession.t)
    (class : StorageClass.t) (verified : ArtifactContract.t)
    : result StorageError.t (ArtifactRefV1.t * t) :=
  _ ← ensure_artifact_contract verified (DurablePutSession.size_bytes session)
        (DurablePutSession.media_type session) class
        (DurablePutSession.required_replicas session `mod` 256);
  s ← index_artifact_in_transaction self (ArtifactContract.artifact verified)
        (ArtifactContract.required_replicas verified);
  Ok (ArtifactContract.artifact verified, complete_session session_id s).

(** The checks on the uploaded chunks and the manifest they yield. *)
Definition assemble (self : t) (session_id : string) (session : DurablePutSession.t)
    (class : StorageClass.t) (now : DateTime) : result StorageError.t (dir * Manifest.t) :=
  if DurablePutSession.state session == "complete" then Err StorageError.DigestMismatch
  else if DurablePutSession.expires_at_millis session <=? timestamp_millis now
  then Err StorageError.TransferExpired
  else
    _ ← ensure_epoch_is_current self (DurablePutSession.authority_scope session)
          (DurablePutSession.fencing_epoch session);
    let rows := session_rows self session_id in
    if zlen rows != DurablePutSession.chunk_count session then Err StorageError.TransferIncomplete
    else
      let d := default (Dir None ∅) (transfers self !! session_id) in
      parts ← try_map (λ '(i, (index, row)), commit_chunk d (Z.of_nat i) index row) (imap pair rows);
      let plaintext := concat_bytes parts.*1 in
      let plaintext_size := foldl sat_add 0 (len <$> parts.*1) in
      if (sha256_digest plaintext != DurablePutSession.digest session)
         || (plaintext_size != DurablePutSession.size_bytes session)
      then Err StorageError.DigestMismatch
      else
        m ← check_left_manifest (DurablePutSession.digest session)
              (Manifest.mk "rampage.cas-manifest.v1" (DurablePutSession.digest session) plaintext_size
                 (DurablePutSession.media_type session) class
                 (DurablePutSession.required_replicas session `mod` 256) now parts.*2)
              (manifest_file d);
        Ok (d, m).

(** Promotion of the transfer directory into the CAS namespace. *)
Definition promote (self : t) (session_id : string) (session : DurablePutSession.t)
    (class : StorageClass.t) (now : DateTime) : result StorageError.t ArtifactRefV1.t * t :=
  let digest := DurablePutSession.digest session in
  match assemble self session_id session class now with
  | Err e => (Err e, self)
  | Ok (d, m) =>
      let moved :=
        set_objects (insert digest (Dir (Some (Ok m)) (chunk_files d)))
          (set_transfers (delete session_id) self) in
      commit moved
        (verified ← verify_object moved digest;
         finish_commit moved session_id session class verified)
  end.

Definition commit_resumable_put (self : t) (session_id : string) (now : DateTime)
    : result StorageError.t ArtifactRefV1.t * t :=
  match transfer_dir session_id;;
        ok_or (StorageError.TransferNotFound session_id) (resumable_put_sessions self !! session_id) with
  | Err e => (Err e, self)
  | Ok session =>
      match parse_storage_class (DurablePutSession.storage_class session) with
      | Err e => (Err e, self)
      | Ok class =>
          let digest := DurablePutSession.digest session in
          match object_dir digest with
          | Err e => (Err e, self)
          | Ok _ =>
              match objects self !! digest with
              | None => promote self session_id session class now
              | Some _ =>
                  match verify_object self digest with
                  | Ok existing => commit self (finish_commit self session_id session class existing)
                  | Err e =>
                      if is_repairable_object_error e
                      then promote (quarantine_object self digest) session_id session class now
                      else (Err e, self)
                  end
              end
          end
      end
  end.

End store.
End CasStore.
