(* ===== verification/StorageFacts.v ===== *)
(** * What the content-addressed store guarantees

    Whatever the files hold, a committed artifact reads back as bytes that hash to its
    address; a written artifact reads back as what was written; an authority nonce is
    accepted once in its lifetime and fencing epochs never go back; active reservations
    stay within the class quota. *)

From S2P Require Import Prelude.
From S2P Require Import Codec.
From S2P Require Import Text.
From S2P Require Import Contracts.
From S2P Require Import Signing.
From S2P Require Import Storage.
Import Text CasStore.

Section facts.
Context {codec : Codec} {crypto : Crypto} {vault : Vault}.

(** ** Reading *)

Lemma len_app a b : len (a +:+ b) = len a + len b.
Proof. unfold len. rewrite length_append_string. lia. Qed.

Lemma len_concat l : len (concat_bytes l) = zsum (len <$> l).
Proof.
  unfold concat_bytes, zsum. induction l as [|x l IH]; [done|]. cbn. rewrite len_app, IH. done.
Qed.

Lemma len_nonneg s : 0 ≤ len s.
Proof. unfold len. lia. Qed.

Lemma checked_total_sum parts total :
  checked_total parts = Some total → total = zsum (len <$> parts).
Proof.
  unfold checked_total.
  assert (∀ acc, foldl (λ total p, total ≫= λ n, checked_add n (len p)) (Some acc) parts = Some total →
            total = acc + zsum (len <$> parts)) as H; [|intros Hf; apply H in Hf; lia].
  induction parts as [|p parts IH]; intros acc; cbn.
  - intros [= ->]. unfold zsum. cbn. lia.
  - unfold checked_add at 2. case_match.
    + intros ->%IH. unfold zsum. cbn. lia.
    + intros Hf. exfalso. clear -Hf. induction parts; cbn in Hf; [done|auto].
Qed.

Lemma checked_total_exact parts total :
  zsum (len <$> parts) = total → total ≤ u64_max → checked_total parts = Some total.
Proof.
  intros <- Hmax. unfold checked_total.
  assert (∀ acc, 0 ≤ acc → acc + zsum (len <$> parts) ≤ u64_max →
            foldl (λ total p, total ≫= λ n, checked_add n (len p)) (Some acc) parts
              = Some (acc + zsum (len <$> parts))) as H; [|by rewrite H by lia].
  clear Hmax. induction parts as [|p parts IH]; intros acc Ha Hmax.
  - unfold zsum. cbn. by rewrite Z.add_0_r.
  - rewrite fmap_cons in *. unfold zsum in Hmax. cbn [foldr] in Hmax. fold (zsum (len <$> parts)) in Hmax.
    assert (0 ≤ zsum (len <$> parts)).
    { apply zsum_nonneg, Forall_fmap, Forall_forall. intros x _. apply len_nonneg. }
    pose proof (len_nonneg p). cbn [foldl mbind option_bind]. unfold checked_add at 2.
    rewrite (proj2 (Z.leb_le _ _)) by lia. rewrite IH by lia. f_equal. unfold zsum. cbn [foldr]. lia.
Qed.

(** Authentication of the whole object implies it can be read, and that it is its address. *)
Lemma verify_object_get self digest c :
  verify_object self digest = Ok c →
  ArtifactRefV1.digest (ArtifactContract.artifact c) = digest ∧
  ∃ p, get self digest = Ok p ∧ sha256_digest p = digest ∧
    len p = ArtifactRefV1.size_bytes (ArtifactContract.artifact c).
Proof.
  unfold verify_object, get. intros ([d m] & Hm & H)%bind_ok_inv. rewrite Hm. cbn [mbind result_bind].
  apply bind_ok_inv in H as (parts & Hparts & H). rewrite Hparts. cbn [mbind result_bind].
  apply bind_ok_inv in H as (total & Htotal & H). apply guard_ok in H as [Hg [= <-]].
  bool_prop. split; [done|]. exists (concat_bytes parts).
  assert (Manifest.plaintext_digest m = digest) as Hd.
  { unfold read_manifest in Hm. apply bind_ok_inv in Hm as ([] & _ & Hm).
    destruct (objects self !! digest) as [d0|]; [|done]. destruct (manifest_file d0); [|done].
    apply bind_ok_inv in Hm as (m0 & _ & Hm). apply bind_ok_inv in Hm as ([] & Hv & [= <- <-]).
    unfold validate_manifest in Hv. apply guard_ok in Hv as [Hv _]. by bool_prop. }
  rewrite Hd, !bool_decide_true by done. cbn. split_and!; [done..|].
  destruct (checked_total parts) eqn:E; [|done]. injection Htotal as ->.
  apply checked_total_sum in E. rewrite len_concat. cbn. congruence.
Qed.

Lemma get_objects self self' digest :
  objects self !! digest = objects self' !! digest → get self digest = get self' digest.
Proof. intros H. unfold get, read_manifest. by rewrite H. Qed.

(** ** Commit *)

Lemma index_objects self a n s :
  index_artifact_in_transaction self a n = Ok s → objects s = objects self.
Proof. unfold index_artifact_in_transaction. repeat case_match; naive_solver. Qed.

Lemma index_row self a n s :
  index_artifact_in_transaction self a n = Ok s →
  artifacts s !! ArtifactRefV1.digest a =
    Some (ArtifactRow.mk (ArtifactRefV1.size_bytes a) (ArtifactRefV1.media_type a)
            (storage_class_name (ArtifactRefV1.storage_class a)) n) ∧
  resumable_put_sessions s = resumable_put_sessions self.
Proof.
  unfold index_artifact_in_transaction. destruct (artifacts self !! _) as [row|] eqn:E.
  - case_bool_decide; [|done]. intros [= <-]. split; congruence.
  - intros [= <-]. cbn. by rewrite lookup_insert_eq.
Qed.

(** What a successful commit or promotion establishes. *)
Definition committed (session : DurablePutSession.t) (session_id : string) (a : ArtifactRefV1.t)
    (s : t) : Prop :=
  ArtifactRefV1.digest a = DurablePutSession.digest session ∧
  ArtifactRefV1.size_bytes a = DurablePutSession.size_bytes session ∧
  ArtifactRefV1.media_type a = DurablePutSession.media_type session ∧
  (∃ p, get s (ArtifactRefV1.digest a) = Ok p ∧ sha256_digest p = ArtifactRefV1.digest a ∧
     len p = ArtifactRefV1.size_bytes a) ∧
  is_Some (artifacts s !! ArtifactRefV1.digest a) ∧ is_complete s session_id = true.

Lemma finish_commit_sound self session_id session class verified a s :
  resumable_put_sessions self !! session_id = Some session →
  verify_object self (DurablePutSession.digest session) = Ok verified →
  finish_commit self session_id session class verified = Ok (a, s) →
  committed session session_id a s.
Proof.
  intros Hses Hv Hf. unfold finish_commit in Hf.
  apply bind_unit_ok in Hf as [Hc Hf]. apply bind_ok_inv in Hf as (s0 & Hi & [= <- <-]).
  unfold ensure_artifact_contract in Hc. apply guard_ok in Hc as [Hc _]. bool_prop.
  apply verify_object_get in Hv as (Hd & p & Hp & Hsha & Hlen).
  pose proof (index_objects _ _ _ _ Hi) as Ho. pose proof (index_row _ _ _ _ Hi) as [Hrow Hs].
  unfold committed. rewrite Hd in *. split_and!; [done..| | |].
  - exists p. split_and!; [|done..]. rewrite <-Hp. apply get_objects. cbn. by rewrite Ho.
  - by eexists.
  - unfold is_complete, complete_session. cbn. rewrite Hs, lookup_alter_eq, Hses. cbn.
    by apply bool_decide_eq_true.
Qed.

Lemma commit_inv {A} self (r : result StorageError.t (A * t)) a s :
  commit self r = (Ok a, s) → r = Ok (a, s).
Proof. unfold commit. destruct r as [[]|]; naive_solver. Qed.

Lemma promote_sound self session_id session class now a s :
  resumable_put_sessions self !! session_id = Some session →
  promote self session_id session class now = (Ok a, s) → committed session session_id a s.
Proof.
  intros Hses. unfold promote. destruct (assemble _ _ _ _ _) as [[d m]|]; [|done].
  intros H%commit_inv. apply bind_ok_inv in H as (verified & Hv & Hf).
  eapply finish_commit_sound; [|done|done]. done.
Qed.

Lemma commit_sound self session_id now a s :
  commit_resumable_put self session_id now = (Ok a, s) →
  ∃ session, resumable_put_sessions self !! session_id = Some session ∧
    committed session session_id a s.
Proof.
  unfold commit_resumable_put. destruct (transfer_dir session_id) as [[]|]; [|done]. cbn [mbind result_bind].
  destruct (resumable_put_sessions self !! session_id) as [session|] eqn:Hses; [|done]. cbn [ok_or].
  destruct (parse_storage_class _) as [class|]; [|done]. destruct (object_dir _) as [[]|]; [|done].
  intros H. exists session. split; [done|]. destruct (objects self !! _) as [d|].
  - destruct (verify_object _ _) as [verified|e] eqn:Hv.
    + apply commit_inv in H. by eapply finish_commit_sound.
    + destruct (is_repairable_object_error e); [|done].
      by eapply (promote_sound (quarantine_object self (DurablePutSession.digest session))).
  - by eapply promote_sound.
Qed.

(** [C14] Whatever the database and the files hold, a successful commit binds the artifact to
    its session's digest, size and media type, leaves it indexed and the session complete,
    and the store then reads it back as bytes of exactly that size that hash to its address. *)
Theorem commit_is_content_addressed self session_id now a s :
  commit_resumable_put self session_id now = (Ok a, s) →
  ∃ session, resumable_put_sessions self !! session_id = Some session ∧
    committed session session_id a s.
Proof. apply commit_sound. Qed.

(** ** Authority *)

(** The operations of the store, run with clocks of at most [T] milliseconds. *)
Inductive step (T : Z) : t → t → Prop :=
| step_put s plaintext options nonces now r s' :
    put s plaintext options nonces now = (r, s') → step T s s'
| step_accept s scope epoch nonce expires now r s' :
    timestamp_millis now ≤ T → accept_authority s scope epoch nonce expires now = (r, s') → step T s s'
| step_begin s spec now r s' :
    timestamp_millis now ≤ T → begin_resumable_put s spec now = (r, s') → step T s s'
| step_chunk s session_id index digest plaintext nonce now r s' :
    put_resumable_chunk s session_id index digest plaintext nonce now = (r, s') → step T s s'
| step_commit s session_id now r s' :
    commit_resumable_put s session_id now = (r, s') → step T s s'.

(** Epochs only grow, and a nonce that outlives [T] stays consumed. *)
Record authority_le (T : Z) (s s' : t) : Prop := {
  fences_grow scope e : authority_fences s !! scope = Some e →
    ∃ e', authority_fences s' !! scope = Some e' ∧ e ≤ e';
  nonces_stay k x : consumed_authority_nonces s !! k = Some x → T < x →
    consumed_authority_nonces s' !! k = Some x
}.

#[local] Instance authority_le_preorder T : PreOrder (authority_le T).
Proof.
  split.
  - intros s. split; [|done]. intros scope e ?. exists e. split; [done|lia].
  - intros s1 s2 s3 [Hf Hn] [Hf' Hn']. split; [|eauto].
    intros scope e (e' & He' & ?)%Hf. apply Hf' in He' as (e'' & ? & ?). exists e''. split; [done|lia].
Qed.

Lemma authority_le_eq T s s' :
  authority_fences s' = authority_fences s →
  consumed_authority_nonces s' = consumed_authority_nonces s → authority_le T s s'.
Proof.
  intros Hf Hn. split; rewrite ?Hf, ?Hn; [|done]. intros scope e ?. exists e. split; [done|lia].
Qed.

Lemma accept_inv self scope epoch nonce expires now s :
  accept_authority_in_transaction self scope epoch nonce expires now = Ok s →
  (∀ e, authority_fences self !! scope = Some e → e ≤ epoch) ∧
  (∀ x, consumed_authority_nonces self !! (scope, nonce) = Some x → x ≤ now) ∧
  authority_fences s !! scope = Some epoch ∧
  consumed_authority_nonces s !! (scope, nonce) = Some expires ∧
  (∀ T, now ≤ T → authority_le T self s) ∧
  resumable_put_sessions s = resumable_put_sessions self.
Proof.
  unfold accept_authority_in_transaction, ensure_epoch_is_current. intros ([] & He & H)%bind_ok_inv.
  assert (∀ e, authority_fences self !! scope = Some e → e ≤ epoch) as Hle.
  { intros e Hs. rewrite Hs in He. apply guard_ok in He as [He _]. bool_prop. lia. }
  destruct (filter _ _ !! (scope, nonce)) eqn:Hf; [done|]. apply guard_ok in H as [_ [= <-]].
  assert (∀ x, consumed_authority_nonces self !! (scope, nonce) = Some x → x ≤ now) as Hx.
  { intros x Hs. apply map_lookup_filter_None in Hf as [Hf|Hf]; [congruence|].
    specialize (Hf x Hs). cbn in Hf. lia. }
  cbn. split_and!; [done|done| | | |done].
  - rewrite lookup_insert_eq. f_equal. destruct (authority_fences self !! scope) eqn:E; cbn; [|lia].
    specialize (Hle _ eq_refl). lia.
  - by rewrite lookup_insert_eq.
  - intros T HT. split; cbn.
    + intros scope' e' Hs. destruct (decide (scope' = scope)) as [->|].
      * rewrite lookup_insert_eq. eexists. split; [done|]. rewrite Hs. cbn. lia.
      * rewrite lookup_insert_ne by done. exists e'. split; [done|lia].
    + intros k x Hk HTx. destruct (decide (k = (scope, nonce))) as [->|].
      * specialize (Hx x Hk). lia.
      * rewrite lookup_insert_ne by done. apply map_lookup_filter_Some. cbn. split; [done|lia].
Qed.

Lemma index_authority T self a n s :
  index_artifact_in_transaction self a n = Ok s → authority_le T self s.
Proof.
  unfold index_artifact_in_transaction. destruct (artifacts self !! _).
  - case_match; [|done]. by intros [= <-].
  - intros [= <-]. by apply authority_le_eq.
Qed.

Lemma commit_authority {A} T self s0 (r : result StorageError.t (A * t)) res s' :
  authority_le T self s0 → (∀ a s, r = Ok (a, s) → authority_le T self s) →
  commit s0 r = (res, s') → authority_le T self s'.
Proof. intros H0 H. unfold commit. destruct r as [[a s]|]; intros [= <- <-]; eauto. Qed.

Lemma put_new_authority T self plaintext options digest nonces now r s' :
  put_new self plaintext options digest nonces now = (r, s') → authority_le T self s'.
Proof.
  unfold put_new. destruct (ensure_storage_capacity _ _ _ _); [|by intros [= _ <-]].
  destruct (write_chunks _ _ _) as [parts|]; [|by intros [= _ <-]].
  apply commit_authority; [by apply authority_le_eq|].
  intros a' s (c & _ & H)%bind_ok_inv. apply bind_unit_ok in H as [_ H].
  apply bind_ok_inv in H as (s0 & Hi & [= _ <-]). apply (index_authority T) in Hi.
  etrans; [|exact Hi]. by apply authority_le_eq.
Qed.

Lemma put_authority T self plaintext options nonces now r s' :
  put self plaintext options nonces now = (r, s') → authority_le T self s'.
Proof.
  unfold put. destruct (_ && _); [by intros [= _ <-]|]. destruct (object_dir _); [|by intros [= _ <-]].
  destruct (objects self !! _); [|by apply put_new_authority].
  destruct (verify_object _ _) as [c|e].
  - apply commit_authority; [done|]. intros a' s [_ H]%bind_unit_ok.
    apply bind_ok_inv in H as (s0 & Hi & [= _ <-]). by apply (index_authority T) in Hi.
  - destruct (is_repairable_object_error e); [|by intros [= _ <-]]. intros Hp%(put_new_authority T).
    etrans; [|exact Hp]. by apply authority_le_eq.
Qed.

Lemma begin_transaction_authority T self spec count now s :
  now ≤ T → begin_in_transaction self spec count now = Ok s → authority_le T self s.
Proof.
  intros HT. unfold begin_in_transaction. destruct (resumable_put_sessions self !! _) as [existing|].
  - intros [_ H]%bind_unit_ok. case_match; [by injection H as <-|]. case_match.
    + apply bind_ok_inv in H as (s0 & Ha & [= <-]). apply accept_inv in Ha as (_ & _ & _ & _ & Hle & _).
      etrans; [by apply Hle|]. by apply authority_le_eq.
    + by apply bind_unit_ok in H as [_ [= <-]].
  - intros [_ H]%bind_unit_ok. apply bind_ok_inv in H as (s0 & Ha & [= <-]).
    apply accept_inv in Ha as (_ & _ & _ & _ & Hle & _).
    etrans; [by apply Hle|]. by apply authority_le_eq.
Qed.

Lemma begin_authority T self spec now r s' :
  timestamp_millis now ≤ T → begin_resumable_put self spec now = (r, s') → authority_le T self s'.
Proof.
  intros HT. unfold begin_resumable_put. destruct (_ ;; _); [|by intros [= _ <-]].
  do 3 (case_match; [by intros [= _ <-]|]). destruct (chunk_count _ _); [|by intros [= _ <-]].
  destruct (begin_in_transaction _ _ _ _) as [s|] eqn:E; [|by intros [= _ <-]].
  intros [= _ <-]. apply (begin_transaction_authority T) in E; [|done].
  case_match; [done|]. etrans; [exact E|]. by apply authority_le_eq.
Qed.

Lemma store_chunk_authority T self id index plaintext digest nonce r s' :
  store_chunk self id index plaintext digest nonce = (r, s') → authority_le T self s'.
Proof. unfold store_chunk. destruct (encrypt _ _); intros [= _ <-]; by apply authority_le_eq. Qed.

Lemma chunk_authority T self id index digest plaintext nonce now r s' :
  put_resumable_chunk self id index digest plaintext nonce now = (r, s') → authority_le T self s'.
Proof.
  unfold put_resumable_chunk. intros H.
  repeat (case_match; [try (injection H as _ <-; done)|try (injection H as _ <-; done)]);
    try (injection H as _ <-; done); by eapply store_chunk_authority.
Qed.

Lemma finish_authority T self id session class c a s :
  finish_commit self id session class c = Ok (a, s) → authority_le T self s.
Proof.
  unfold finish_commit. intros [_ H]%bind_unit_ok. apply bind_ok_inv in H as (s0 & Hi & [= _ <-]).
  apply (index_authority T) in Hi. etrans; [exact Hi|]. by apply authority_le_eq.
Qed.

Lemma promote_authority T self id session class now r s' :
  promote self id session class now = (r, s') → authority_le T self s'.
Proof.
  unfold promote. destruct (assemble _ _ _ _ _) as [[d m]|]; [|by intros [= _ <-]].
  apply commit_authority; [by apply authority_le_eq|]. intros a' s (c & _ & H)%bind_ok_inv.
  apply (finish_authority T) in H. etrans; [|exact H]. by apply authority_le_eq.
Qed.

Lemma commit_put_authority T self id now r s' :
  commit_resumable_put self id now = (r, s') → authority_le T self s'.
Proof.
  unfold commit_resumable_put. destruct (_ ;; _) as [session|]; [|by intros [= _ <-]].
  destruct (parse_storage_class _); [|by intros [= _ <-]]. destruct (object_dir _); [|by intros [= _ <-]].
  destruct (objects self !! _); [|by apply promote_authority]. destruct (verify_object _ _) as [c|e].
  - apply commit_authority; [done|]. intros a' s. apply finish_authority.
  - destruct (is_repairable_object_error e); [|by intros [= _ <-]]. intros Hp%(promote_authority T).
    etrans; [|exact Hp]. by apply authority_le_eq.
Qed.

Lemma step_authority T s s' : step T s s' → authority_le T s s'.
Proof.
  destruct 1 as [???????|s scope epoch nonce expires now r s' HT H|? ? ? ? ? ? H|??????????|?????];
    eauto using put_authority, begin_authority, chunk_authority, commit_put_authority.
  revert H. unfold accept_authority. case_match; [by intros [= _ <-]|].
  case_match; [by intros [= _ <-]|]. apply commit_authority; [done|].
  intros a s0 (s1 & Ha & [= _ <-])%bind_ok_inv. apply accept_inv in Ha as (_ & _ & _ & _ & Hle & _).
  by apply Hle.
Qed.

Lemma steps_authority T s s' : rtc (step T) s s' → authority_le T s s'.
Proof. induction 1; [done|]. etrans; [by apply step_authority|done]. Qed.

Lemma accept_authority_inv self scope epoch nonce expires now s :
  accept_authority self scope epoch nonce expires now = (Ok (), s) →
  accept_authority_in_transaction self scope epoch nonce (timestamp_millis expires)
    (timestamp_millis now) = Ok s.
Proof.
  unfold accept_authority. case_match; [done|]. case_match; [done|].
  intros Hc%commit_inv. by apply bind_ok_inv in Hc as (s0 & ? & [= <-]).
Qed.

(** A refused lease leaves the store as it was. *)
Lemma accept_refused_unchanged self scope epoch nonce expires now e s :
  accept_authority self scope epoch nonce expires now = (Err e, s) → s = self.
Proof.
  unfold accept_authority. case_match; [by intros [= _ ->]|]. case_match; [by intros [= _ ->]|].
  unfold commit. destruct (_ ≫= _) as [[]|]; [done|]. by intros [= _ ->].
Qed.

(** An accepted lease has not expired, at the resolution of a millisecond. *)
Lemma accept_unexpired self scope epoch nonce expires now s :
  accept_authority self scope epoch nonce expires now = (Ok (), s) →
  timestamp_millis now < timestamp_millis expires.
Proof. unfold accept_authority. case_match; [done|]. case_match; [done|]. bool_prop. lia. Qed.

Lemma accept_nonce_spent s0 scope epoch nonce expires now s1 s2 T epoch' expires' now' s3 :
  accept_authority s0 scope epoch nonce expires now = (Ok (), s1) →
  authority_le T s1 s2 → T < timestamp_millis expires → timestamp_millis now' ≤ T →
  accept_authority s2 scope epoch' nonce expires' now' ≠ (Ok (), s3).
Proof.
  intros Ha [_ Hstay] HT Hnow E. apply accept_authority_inv, accept_inv in Ha as (_ & _ & _ & Hn & _).
  apply Hstay in Hn; [|done]. apply accept_authority_inv, accept_inv in E as (_ & Hx & _).
  apply Hx in Hn. lia.
Qed.

Lemma accept_epoch_fenced s0 scope epoch nonce expires now s1 s2 T epoch' nonce' expires' now' s3 :
  accept_authority s0 scope epoch nonce expires now = (Ok (), s1) →
  authority_le T s1 s2 → epoch' < epoch →
  accept_authority s2 scope epoch' nonce' expires' now' ≠ (Ok (), s3).
Proof.
  intros Ha [Hgrow _] Hlt E. apply accept_authority_inv, accept_inv in Ha as (_ & _ & Hf & _).
  apply Hgrow in Hf as (e & Hf & He). apply accept_authority_inv, accept_inv in E as (Hle & _).
  apply Hle in Hf. lia.
Qed.

(** Replay and rollback protection.  After an authority lease is accepted, and however
    the store is used in between while that lease has not expired (restarts included, since
    the state is durable), the same nonce in the same scope is refused, and so is every
    other lease of the scope with an older fencing epoch. *)
Theorem authority_accepted_once s0 scope epoch nonce expires now s1 s2 T :
  accept_authority s0 scope epoch nonce expires now = (Ok (), s1) →
  rtc (step T) s1 s2 → T < timestamp_millis expires →
  ∀ epoch' nonce' expires' now', timestamp_millis now' ≤ T →
    nonce' = nonce ∨ epoch' < epoch →
    is_ok (accept_authority s2 scope epoch' nonce' expires' now').1 = false ∧
    (accept_authority s2 scope epoch' nonce' expires' now').2 = s2.
Proof.
  intros Ha Hsteps%steps_authority HT epoch' nonce' expires' now' Hnow Hcase.
  destruct (accept_authority s2 scope epoch' nonce' expires' now') as [[[]|] s3] eqn:E; cbn.
  - exfalso. destruct Hcase as [->|?].
    + by eapply (accept_nonce_spent s0 _ _ _ _ _ s1 s2 T).
    + by eapply (accept_epoch_fenced s0 _ _ _ _ _ s1 s2 T).
  - split; [done|]. by eapply accept_refused_unchanged.
Qed.

(** ** Manifests *)

(** Chunks of [n] bytes with a last one that may be shorter. *)
Fixpoint chunk_shape (n : Z) (sizes : list Z) : Prop :=
  match sizes with
  | [] => True
  | [x] => 0 < x ≤ n
  | x :: rest => x = n ∧ 0 < n ∧ chunk_shape n rest
  end.

Definition record_ok (index : Z) (c : ChunkRecord.t) : Prop :=
  ChunkRecord.index c = index `mod` 4294967296 ∧
  len (ChunkRecord.nonce c) = 24 ∧ is_lower_hex (ChunkRecord.nonce c) = true ∧
  len (ChunkRecord.ciphertext_digest c) = 64 ∧ is_lower_hex (ChunkRecord.ciphertext_digest c) = true.

Fixpoint records_ok (index : Z) (cs : list ChunkRecord.t) : Prop :=
  match cs with [] => True | c :: cs => record_ok index c ∧ records_ok (index + 1) cs end.

Lemma record_guard index expected c :
  (ChunkRecord.index c != index `mod` 4294967296) || (ChunkRecord.plaintext_size c =? 0)
  || (ChunkRecord.plaintext_size c != expected)
  || negb (len (ChunkRecord.nonce c) =? 24) || negb (is_lower_hex (ChunkRecord.nonce c))
  || negb (len (ChunkRecord.ciphertext_digest c) =? 64)
  || negb (is_lower_hex (ChunkRecord.ciphertext_digest c)) = false ↔
  record_ok index c ∧ ChunkRecord.plaintext_size c ≠ 0 ∧ ChunkRecord.plaintext_size c = expected.
Proof.
  unfold record_ok. rewrite !orb_false_iff, !negb_false_iff, !bool_decide_eq_true, !Z.eqb_eq, Z.eqb_neq.
  tauto.
Qed.

Lemma ok_or_ok {E A} (e : E) o (a : A) : ok_or e o = Ok a ↔ o = Some a.
Proof. destruct o; cbn; naive_solver. Qed.

(** The chunk loop accepts exactly the well-formed records whose sizes have the shape of a
    split of the remaining bytes. *)
Lemma validate_chunks_ok size nominal count index total cs r :
  0 ≤ total ≤ size → size ≤ u64_max → 0 ≤ nominal → count = index + zlen cs →
  validate_chunks size nominal count index total cs = Ok r →
  records_ok index cs ∧ chunk_shape nominal (ChunkRecord.plaintext_size <$> cs) ∧
  r = total + zsum (ChunkRecord.plaintext_size <$> cs).
Proof.
  intros Ht Hs Hn. revert index total Ht. induction cs as [|c cs IH]; intros index total Ht Hc.
  - cbn. intros [= <-]. split_and!; [done..|]. unfold zsum. cbn. lia.
  - cbn [validate_chunks]. intros (remaining & Hrem%ok_or_ok & H)%bind_ok_inv.
    unfold checked_sub in Hrem. rewrite (proj2 (Z.leb_le _ _)) in Hrem by lia. injection Hrem as <-.
    apply guard_ok in H as [Hlast H]. apply guard_ok in H as [Hrec H].
    apply record_guard in Hrec as (Hok & Hnz & Hsz).
    apply bind_ok_inv in H as (total' & Htot%ok_or_ok & H). unfold checked_add in Htot.
    case_match; [|done]. injection Htot as <-.
    unfold zlen in Hc. cbn [length] in Hc.
    destruct (decide (cs = [])) as [->|Hne].
    + rewrite (proj2 (Z.eqb_eq _ _)) in Hlast, Hsz by (cbn in Hc; lia). cbn [andb] in Hlast. bool_prop.
      cbn in H. injection H as <-. unfold zsum. cbn. split; [done|]. lia.
    + assert (length cs ≠ 0%nat) by (by destruct cs).
      rewrite (proj2 (Z.eqb_neq _ _)) in Hlast, Hsz by lia.
      destruct (decide (total + ChunkRecord.plaintext_size c ≤ size)) as [Hle|Hgt].
      * apply IH in H as (Hr & Hshape & ->); [|lia|unfold zlen; lia].
        split; [by split|]. split; [|unfold zsum; cbn; lia].
        rewrite fmap_cons. destruct cs; [done|]. cbn in *. split; [done|]. split; [lia|done].
      * exfalso. destruct cs as [|c' cs]; [done|]. cbn [validate_chunks] in H.
        apply bind_ok_inv in H as (? & Hrem%ok_or_ok & _). unfold checked_sub in Hrem.
        rewrite (proj2 (Z.leb_gt _ _)) in Hrem by lia. done.
Qed.

Lemma validate_chunks_complete size nominal count index total cs :
  0 ≤ total → size ≤ u64_max → 0 ≤ nominal → count = index + zlen cs → records_ok index cs →
  chunk_shape nominal (ChunkRecord.plaintext_size <$> cs) →
  size = total + zsum (ChunkRecord.plaintext_size <$> cs) →
  validate_chunks size nominal count index total cs = Ok size.
Proof.
  intros Ht Hs Hn. revert index total Ht. induction cs as [|c cs IH]; intros index total Ht Hc Hrec Hshape Hsum.
  - cbn. f_equal. unfold zsum in Hsum. cbn in Hsum. lia.
  - destruct Hrec as [Hc0 Hrec]. rewrite fmap_cons in *. unfold zsum in Hsum. cbn [foldr] in Hsum.
    fold (zsum (ChunkRecord.plaintext_size <$> cs)) in Hsum. unfold zlen in Hc. cbn [length] in Hc.
    cbn [validate_chunks]. unfold checked_sub, checked_add.
    destruct (decide (cs = [])) as [->|Hne].
    + cbn in Hshape, Hc, Hsum. unfold zsum in Hsum. cbn in Hsum.
      rewrite (proj2 (Z.leb_le total size)) by lia. cbn [ok_or mbind result_bind].
      rewrite (proj2 (Z.eqb_eq _ _)) by lia. cbn [andb]. rewrite (proj2 (Z.ltb_ge _ _)) by lia.
      rewrite (proj2 (record_guard index (size - total) c)) by (split_and!; [done|lia|lia]).
      rewrite (proj2 (Z.leb_le _ _)) by lia. cbn. f_equal. lia.
    + assert (0 ≤ zsum (ChunkRecord.plaintext_size <$> cs)) as Hz.
      { clear -Hshape Hne. apply zsum_nonneg. destruct cs as [|c' cs]; [done|]. destruct Hshape as (_ & Hn & Hs).
        revert c' Hs Hne. induction cs as [|c'' cs IH]; intros c' Hs Hne.
        - cbn in Hs. repeat constructor. lia.
        - destruct Hs as (Hx & _ & Hs). constructor; [lia|]. by apply IH. }
      assert (length cs ≠ 0%nat) by (by destruct cs).
      assert (ChunkRecord.plaintext_size c = nominal ∧ 0 < nominal ∧
              chunk_shape nominal (ChunkRecord.plaintext_size <$> cs)) as (Hcn & Hpos & Hshape')
        by by destruct cs.
      rewrite (proj2 (Z.leb_le total size)) by lia. cbn [ok_or mbind result_bind].
      rewrite (proj2 (Z.eqb_neq _ _)) by lia. cbn [andb].
      rewrite (proj2 (record_guard index nominal c)) by (split_and!; [done|lia|lia]).
      rewrite (proj2 (Z.leb_le _ _)) by lia. cbn [ok_or mbind result_bind].
      apply IH; [lia|unfold zlen; lia|done|done|lia].
Qed.

(** A manifest that validates describes a split of its artifact: its records are
    numbered from zero with well-formed nonces and digests, every chunk but the last has the
    size of the first, none exceeds the chunk limit, and the sizes add up to the artifact. *)
Theorem manifest_describes_split digest m :
  0 ≤ Manifest.plaintext_size m → Forall (λ c, 0 ≤ ChunkRecord.plaintext_size c) (Manifest.chunks m) →
  validate_manifest digest m = Ok () →
  Manifest.plaintext_digest m = digest ∧ records_ok 0 (Manifest.chunks m) ∧
  zsum (ChunkRecord.plaintext_size <$> Manifest.chunks m) = Manifest.plaintext_size m ∧
  ∃ nominal, nominal ≤ DEFAULT_CHUNK_SIZE ∧
    chunk_shape nominal (ChunkRecord.plaintext_size <$> Manifest.chunks m).
Proof.
  intros Hnn Hall. unfold validate_manifest. rewrite !guard_ok. intros (Hhead & Hnom & H).
  apply bind_ok_inv in H as (total & Hv & H). apply guard_ok in H as [Heq _]. bool_prop.
  set (nominal := match Manifest.chunks m with c :: _ => _ | [] => 0 end) in *.
  apply validate_chunks_ok in Hv as (Hrec & Hshape & ->).
  - split_and!; [done|done|lia|]. exists nominal. by split.
  - lia.
  - unfold MAX_ARTIFACT_TRANSFER_BYTES, u64_max in *. lia.
  - unfold nominal. destruct Hall; lia.
  - lia.
Qed.

(** ** Writing and reading back *)

Lemma chunks_go_spec size left s first rest :
  1 ≤ size → 0 ≤ left ≤ size → chunks_go size left s = (first, rest) →
  first +:+ concat_bytes rest = s ∧ len first ≤ left ∧ (rest ≠ [] → len first = left) ∧
  chunk_shape size (len <$> rest).
Proof.
  intros Hs. revert left first rest. induction s as [|c s IH]; intros left first rest Hl; cbn [chunks_go].
  - intros [= <- <-]. split_and!; [done|unfold len; cbn; lia|done|done].
  - destruct (left <=? 0) eqn:E; bool_prop.
    + destruct (chunks_go size (size - 1) s) as [f r] eqn:Eg. intros [= <- <-].
      apply IH in Eg as (Hc & Hlen & Hfull & Hshape); [|lia].
      assert (len (String c f) = 1 + len f) as Hcf by (unfold len; cbn; lia).
      pose proof (len_nonneg f). split_and!; [cbn; by rewrite <-Hc|unfold len; cbn; lia|
        unfold len; cbn; lia|]. rewrite fmap_cons, Hcf. destruct r as [|x r]; [cbn; lia|].
      cbn in *. rewrite Hfull by done. split; [lia|]. split; [lia|done].
    + destruct (chunks_go size (left - 1) s) as [f r] eqn:Eg. intros [= <- <-].
      apply IH in Eg as (Hc & Hlen & Hfull & Hshape); [|lia].
      assert (len (String c f) = 1 + len f) as -> by (unfold len; cbn; lia).
      split_and!; [cbn; by rewrite <-Hc|lia| |done]. intros Hr. specialize (Hfull Hr). lia.
Qed.

Lemma chunks_spec size s :
  1 ≤ size → concat_bytes (chunks size s) = s ∧ chunk_shape size (len <$> chunks size s).
Proof.
  intros Hs. unfold chunks. destruct (chunks_go size 0 s) as [first rest] eqn:E.
  apply chunks_go_spec in E as (Hc & Hlen & _ & Hshape); [|lia..].
  destruct first as [|c first]; [done|]. unfold len in Hlen. cbn in Hlen. lia.
Qed.

Lemma shape_nominal n l : chunk_shape n l → chunk_shape (match l with x :: _ => x | [] => 0 end) l.
Proof. destruct l as [|x [|y l]]; cbn; [done|lia|]. by intros [-> ?]. Qed.

Lemma shape_bounds n l : chunk_shape n l → Forall (λ x, 0 < x ≤ n) l.
Proof.
  induction l as [|x [|y l] IH]; intros Hs; [constructor|repeat constructor; apply Hs|].
  destruct Hs as (-> & ? & Hs). constructor; [lia|auto].
Qed.

Lemma shape_count n l : chunk_shape n l → l ≠ [] → (zlen l - 1) * n < zsum l.
Proof.
  unfold zlen, zsum. induction l as [|x [|y l] IH]; intros Hs Hne; [done|cbn in *; lia|].
  destruct Hs as (-> & ? & Hs). specialize (IH Hs ltac:(done)). cbn [length foldr] in *. lia.
Qed.

Lemma try_map_exists {E A B} (f : A → result E B) l :
  (∀ x, x ∈ l → ∃ y, f x = Ok y) → ∃ ys, try_map f l = Ok ys.
Proof.
  induction l as [|x l IH]; intros H; cbn; [by eexists|].
  destruct (H x) as [y ->]; [set_solver|]. destruct IH as [ys ->]; [set_solver|]. by eexists.
Qed.

Lemma chunk_dir_lookup parts i p :
  parts !! i = Some p → chunk_dir parts !! Z.of_nat i = Some p.1.
Proof.
  intros Hp. unfold chunk_dir. apply elem_of_list_to_map_1.
  - apply NoDup_alt. intros j k z. rewrite !list_lookup_fmap, !list_lookup_imap.
    destruct (parts !! j), (parts !! k); cbn; naive_solver lia.
  - apply (list_elem_of_lookup_2 _ i). by rewrite list_lookup_imap, Hp.
Qed.

Lemma records_ok_lookup k cs :
  (∀ i c, cs !! i = Some c → record_ok (k + Z.of_nat i) c) → records_ok k cs.
Proof.
  revert k. induction cs as [|c cs IH]; intros k H; cbn; [done|]. split.
  - specialize (H 0%nat c eq_refl). by rewrite Z.add_0_r in H.
  - apply IH. intros i c' Hi. specialize (H (S i) c' Hi). by rewrite Nat2Z.inj_succ, <-Z.add_1_l, Z.add_assoc in H.
Qed.

Section roundtrip.
Context {laws : CryptoLaws codec crypto} {vault_laws : VaultLaws vault}.
Context (nonces : nat → string) (nonces_ok : ∀ i, String.length (nonces i) = 12%nat).

Lemma sha256_hex_ok b : len (sha256_hex b) = 64 ∧ is_lower_hex (sha256_hex b) = true.
Proof.
  unfold sha256_hex, len, is_lower_hex. rewrite hex_length, sha256_length. split; [done|apply hex_digits].
Qed.

(** What [put] writes for one chunk can be authenticated and decrypted again. *)
Lemma put_chunk_readable parts mf i chunk ct rec :
  put_chunk_at nonces i chunk = Ok (ct, rec) → parts !! i = Some (ct, rec) →
  Z.of_nat i < 4294967296 → len chunk ≤ DEFAULT_CHUNK_SIZE →
  record_ok (Z.of_nat i) rec ∧ ChunkRecord.plaintext_size rec = len chunk ∧
  read_chunk (Dir mf (chunk_dir parts)) rec = Ok chunk.
Proof.
  intros Hput Hi Hsmall Hlen. unfold put_chunk_at in Hput.
  apply bind_ok_inv in Hput as (c & Henc%ok_or_ok & [= -> <-]).
  pose proof (sha256_hex_ok ct) as [Hdl Hdh]. split_and!; cbn.
  - split_and!; cbn; [done| |apply hex_digits|done|done].
    unfold len. by rewrite hex_length, nonces_ok.
  - done.
  - unfold read_chunk, read_chunk_file. cbn [ChunkRecord.index chunk_files].
    rewrite Z.mod_small by lia. rewrite (chunk_dir_lookup _ _ _ Hi). cbn [fst].
    pose proof (encrypt_length _ _ _ Henc). unfold MAX_ENCRYPTED_CHUNK_BYTES.
    rewrite (proj2 (Z.ltb_ge _ _)) by lia. cbn [mbind result_bind]. rewrite bool_decide_true by done.
    cbn [negb]. unfold decode_nonce. cbn [ChunkRecord.nonce]. rewrite hex_decode_encode.
    cbn [ok_or mbind result_bind].
    assert (len (nonces i) = 12) as -> by (unfold len; by rewrite nonces_ok).
    cbn [Z.eqb Pos.eqb mbind result_bind].
    rewrite (decrypt_encrypt _ _ _ Henc). cbn [ok_or mbind result_bind]. by rewrite bool_decide_true.
Qed.

Lemma write_chunks_spec plaintext size mf :
  1 ≤ size ≤ DEFAULT_CHUNK_SIZE → len plaintext ≤ MAX_ARTIFACT_TRANSFER_BYTES →
  ∃ parts, write_chunks nonces plaintext size = Ok parts ∧
    records_ok 0 parts.*2 ∧
    (ChunkRecord.plaintext_size <$> parts.*2) = (len <$> chunks size plaintext) ∧
    try_map (read_chunk (Dir mf (chunk_dir parts))) parts.*2 = Ok (chunks size plaintext).
Proof.
  intros Hsize Hmax. destruct (chunks_spec size plaintext) as [Hconcat Hshape]; [lia|].
  pose proof (shape_bounds _ _ Hshape) as Hbounds. rewrite Forall_fmap, Forall_forall in Hbounds.
  assert (zlen (chunks size plaintext) ≤ len plaintext) as Hcount.
  { destruct (decide (chunks size plaintext = [])) as [->|Hne]; [unfold zlen; cbn; apply len_nonneg|].
    pose proof (shape_count _ _ Hshape) as Hc. rewrite <-len_concat, Hconcat in Hc.
    specialize (Hc ltac:(by destruct (chunks size plaintext))). unfold zlen in *.
    rewrite length_fmap in Hc.
    assert (length (chunks size plaintext) ≠ 0%nat) by (by destruct (chunks size plaintext)). nia. }
  destruct (try_map_exists (λ p, put_chunk_at nonces p.1 p.2) (imap pair (chunks size plaintext)))
    as [parts Hparts].
  { intros [i chunk] [j Hj]%list_elem_of_lookup. rewrite list_lookup_imap in Hj. cbn.
    destruct (chunks size plaintext !! j) as [c|] eqn:E; [|done]. injection Hj as -> ->.
    apply list_elem_of_lookup_2, Hbounds in E. cbn in E. unfold put_chunk_at.
    destruct (encrypt_total (nonces i) chunk) as [ct ->]; [done| |by eexists].
    unfold DEFAULT_CHUNK_SIZE, MAX_ARTIFACT_TRANSFER_BYTES in *. lia. }
  exists parts. split; [done|]. apply try_map_ok in Hparts.
  assert (∀ i p, parts !! i = Some p → ∃ chunk, chunks size plaintext !! i = Some chunk ∧
            record_ok (Z.of_nat i) p.2 ∧ ChunkRecord.plaintext_size p.2 = len chunk ∧
            read_chunk (Dir mf (chunk_dir parts)) p.2 = Ok chunk) as Hread.
  { intros i [ct rec] Hp. eapply Forall2_lookup_r in Hparts as ([j chunk] & Hj & Hput); [|done].
    rewrite list_lookup_imap in Hj. destruct (chunks size plaintext !! i) as [c|] eqn:E; [|done].
    injection Hj as <- <-. exists c. split; [done|].
    pose proof (lookup_lt_Some _ _ _ E). pose proof (list_elem_of_lookup_2 _ _ _ E) as Hin.
    apply Hbounds in Hin. cbn in Hin. eapply (put_chunk_readable parts mf i c ct rec); [exact Hput|done| |].
    - unfold zlen, MAX_ARTIFACT_TRANSFER_BYTES in *. lia.
    - lia. }
  assert (length parts = length (chunks size plaintext)) as Hlen.
  { rewrite <-(Forall2_length _ _ _ Hparts). by rewrite length_imap. }
  split_and!.
  - apply records_ok_lookup. intros i c Hi. rewrite list_lookup_fmap in Hi.
    destruct (parts !! i) as [p|] eqn:E; [|done]. injection Hi as <-.
    by destruct (Hread i p E) as (? & _ & ? & _).
  - apply list_eq. intros i. rewrite !list_lookup_fmap. destruct (parts !! i) as [p|] eqn:E; cbn.
    + destruct (Hread i p E) as (chunk & -> & _ & Hsz & _). cbn. by rewrite Hsz.
    + apply lookup_ge_None in E. rewrite (proj2 (lookup_ge_None _ _)); [done|lia].
  - apply try_map_ok, Forall2_same_length_lookup. split; [by rewrite length_fmap|].
    intros i c chunk Hc Hchunk. rewrite list_lookup_fmap in Hc.
    destruct (parts !! i) as [p|] eqn:E; [|done]. injection Hc as <-.
    destruct (Hread i p E) as (chunk' & Hc' & _ & _ & Hr). congruence.
Qed.

Definition valid_options (options : PutOptions.t) : Prop :=
  bounded_ascii 255 (PutOptions.media_type options) = true ∧
  1 ≤ PutOptions.required_replicas options ∧
  (PutOptions.storage_class options = StorageClass.Protected →
   2 ≤ PutOptions.required_replicas options).

Definition put_manifest (plaintext : string) (options : PutOptions.t) (now : DateTime)
    (parts : list (string * ChunkRecord.t)) : Manifest.t :=
  Manifest.mk "rampage.cas-manifest.v1" (sha256_digest plaintext) (len plaintext)
    (PutOptions.media_type options) (PutOptions.storage_class options)
    (PutOptions.required_replicas options) now parts.*2.

Lemma zsum_chunks_len size plaintext : 1 ≤ size → zsum (len <$> chunks size plaintext) = len plaintext.
Proof. intros Hs. destruct (chunks_spec size plaintext Hs) as [Hc _]. by rewrite <-len_concat, Hc. Qed.

Lemma put_manifest_valid plaintext options now parts size :
  valid_options options → 1 ≤ size ≤ DEFAULT_CHUNK_SIZE → len plaintext ≤ MAX_ARTIFACT_TRANSFER_BYTES →
  records_ok 0 parts.*2 →
  (ChunkRecord.plaintext_size <$> parts.*2) = (len <$> chunks size plaintext) →
  validate_manifest (sha256_digest plaintext) (put_manifest plaintext options now parts) = Ok ().
Proof.
  intros (Hmt & Hrep & Hprot) Hsize Hmax Hrec Hsz.
  destruct (chunks_spec size plaintext) as [_ Hshape]; [lia|]. pose proof (zsum_chunks_len size plaintext) as Hsum.
  pose proof (shape_bounds _ _ Hshape) as Hb. pose proof (len_nonneg plaintext) as Hnn.
  unfold validate_manifest, put_manifest. cbn [Manifest.schema Manifest.plaintext_digest
    Manifest.plaintext_size Manifest.media_type Manifest.required_replicas Manifest.storage_class
    Manifest.chunks].
  unfold bounded_ascii in Hmt. bool_prop. rewrite !bool_decide_true by done. cbn [negb orb].
  rewrite (proj2 (Z.ltb_ge _ (len plaintext))) by lia.
  repeat match goal with H : ?b = _ |- context [?b] => rewrite H end. cbn [negb orb].
  rewrite (proj2 (Z.ltb_ge _ (len _))) by done. rewrite (proj2 (Z.eqb_neq _ _)) by lia. cbn [orb].
  assert ((PutOptions.storage_class options == StorageClass.Protected)
          && (PutOptions.required_replicas options <? 2) = false) as ->.
  { destruct (decide (PutOptions.storage_class options = StorageClass.Protected)) as [He|He].
    - rewrite (proj2 (Z.ltb_ge _ _)) by auto. by rewrite andb_false_r.
    - by rewrite bool_decide_false. }
  assert (Bool.eqb (len plaintext =? 0) (no_elems parts.*2) = true) as ->.
  { rewrite <-Hsum by lia. rewrite <-Hsz in *. destruct parts.*2 as [|c cs]; [done|].
    rewrite fmap_cons in *. apply Forall_cons in Hb as [Hc Hb]. unfold zsum. cbn [foldr no_elems].
    rewrite (proj2 (Z.eqb_neq _ _)); [done|].
    assert (0 ≤ foldr Z.add 0 (ChunkRecord.plaintext_size <$> cs)); [|lia].
    apply zsum_nonneg. eapply Forall_impl; [done|]. cbn. lia. }
  cbn [negb orb]. rewrite <-Hsz in Hshape. pose proof (shape_nominal _ _ Hshape) as Hnom.
  set (nominal := match parts.*2 with c :: _ => ChunkRecord.plaintext_size c | [] => 0 end).
  assert (chunk_shape nominal (ChunkRecord.plaintext_size <$> parts.*2)) as Hnom'
    by by destruct parts.*2.
  assert (0 ≤ nominal ≤ DEFAULT_CHUNK_SIZE) as Hnb.
  { unfold nominal. rewrite <-Hsz in Hb. destruct parts.*2 as [|c cs]; [lia|].
    rewrite fmap_cons in Hb. apply Forall_cons in Hb as [? _]. lia. }
  rewrite (proj2 (Z.ltb_ge _ _)) by lia.
  rewrite (validate_chunks_complete (len plaintext)); try done.
  - cbn [mbind result_bind]. by rewrite bool_decide_true.
  - unfold MAX_ARTIFACT_TRANSFER_BYTES, u64_max in *. lia.
  - lia.
  - by rewrite Hsz, Hsum by lia.
Qed.

(** The object [put] leaves behind is readable and authentic. *)
Lemma written_object_reads self plaintext options now parts :
  valid_options options → len plaintext ≤ MAX_ARTIFACT_TRANSFER_BYTES →
  records_ok 0 parts.*2 →
  (ChunkRecord.plaintext_size <$> parts.*2) = (len <$> chunks DEFAULT_CHUNK_SIZE plaintext) →
  let m := put_manifest plaintext options now parts in
  let d := Dir (Some (Ok m)) (chunk_dir parts) in
  try_map (read_chunk d) parts.*2 = Ok (chunks DEFAULT_CHUNK_SIZE plaintext) →
  objects self !! sha256_digest plaintext = Some d →
  get self (sha256_digest plaintext) = Ok plaintext ∧
  verify_object self (sha256_digest plaintext)
    = Ok (artifact_contract_from_manifest (sha256_digest plaintext) m) ∧
  read_manifest self (sha256_digest plaintext) = Ok (d, m).
Proof.
  intros Hopt Hmax Hrec Hsz m d Hread Hobj.
  assert (1 ≤ DEFAULT_CHUNK_SIZE ≤ DEFAULT_CHUNK_SIZE) as Hd by (unfold DEFAULT_CHUNK_SIZE; lia).
  destruct (chunks_spec DEFAULT_CHUNK_SIZE plaintext) as [Hconcat Hshape]; [lia|].
  pose proof (put_manifest_valid plaintext options now parts _ Hopt Hd Hmax Hrec Hsz) as Hval.
  assert (is_sha256_digest (sha256_digest plaintext) = true) as Hdig by apply fabric_id_digest.
  assert (zlen (Manifest.chunks m) ≤ 16) as Hcount.
  { cbn. unfold zlen. rewrite <-(length_fmap ChunkRecord.plaintext_size), Hsz.
    destruct (decide (chunks DEFAULT_CHUNK_SIZE plaintext = [])) as [->|Hne]; [cbn; lia|].
    pose proof (shape_count _ _ Hshape) as Hc. rewrite zsum_chunks_len in Hc by lia.
    specialize (Hc ltac:(by destruct (chunks DEFAULT_CHUNK_SIZE plaintext))). unfold zlen in Hc.
    unfold DEFAULT_CHUNK_SIZE, MAX_ARTIFACT_TRANSFER_BYTES in *. lia. }
  assert (read_manifest self (sha256_digest plaintext) = Ok (d, m)) as Hm.
  { unfold read_manifest, object_dir. rewrite Hdig, Hobj. cbn [mbind result_bind manifest_file d].
    unfold read_manifest_file. cbn [mbind result_bind].
    rewrite (proj2 (Z.ltb_ge _ _)) by by eapply manifest_small. cbn [mbind result_bind].
    fold m in Hval. rewrite Hval. done. }
  split_and!; [| |done].
  - unfold get. rewrite Hm. cbn [mbind result_bind Manifest.chunks m put_manifest]. rewrite Hread.
    cbn [mbind result_bind Manifest.plaintext_digest]. rewrite Hconcat. by rewrite !bool_decide_true.
  - unfold verify_object. rewrite Hm. cbn [mbind result_bind Manifest.chunks m put_manifest]. rewrite Hread.
    cbn [mbind result_bind Manifest.plaintext_size].
    assert (checked_total (chunks DEFAULT_CHUNK_SIZE plaintext) = Some (len plaintext)) as ->.
    { apply checked_total_exact; [by apply zsum_chunks_len|].
      unfold MAX_ARTIFACT_TRANSFER_BYTES, u64_max in *. lia. }
    cbn [ok_or mbind result_bind]. rewrite Hconcat. by rewrite !bool_decide_true.
Qed.

Lemma digest_has_dir plaintext : object_dir (sha256_digest plaintext) = Ok ().
Proof. unfold object_dir. by rewrite (fabric_id_digest plaintext : is_sha256_digest (sha256_digest plaintext) = true). Qed.
Lemma enough_replicas options :
  valid_options options →
  (PutOptions.storage_class options == StorageClass.Protected) && (PutOptions.required_replicas options <? 2) = false.
Proof.
  intros (_ & _ & Hp). destruct (bool_decide_reflect (PutOptions.storage_class options = StorageClass.Protected)); [|done].
  rewrite (proj2 (Z.ltb_ge _ _)) by auto. done.
Qed.
Definition options_row (plaintext : string) (options : PutOptions.t) : ArtifactRow.t :=
  ArtifactRow.mk (len plaintext) (PutOptions.media_type options) (storage_class_name (PutOptions.storage_class options))
    (PutOptions.required_replicas options).
Lemma manifest_contract plaintext options now parts :
  ensure_artifact_contract (artifact_contract_from_manifest (sha256_digest plaintext) (put_manifest plaintext options now parts))
    (len plaintext) (PutOptions.media_type options) (PutOptions.storage_class options) (PutOptions.required_replicas options) = Ok ().
Proof. unfold ensure_artifact_contract. cbn. by rewrite !bool_decide_true. Qed.
(** Once an artifact is written and indexed, it verifies, and writing it again changes nothing. *)
Lemma indexed_object_settled s plaintext options now parts :
  let digest := sha256_digest plaintext in
  let m := put_manifest plaintext options now parts in
  let d := Dir (Some (Ok m)) (chunk_dir parts) in
  let a := ArtifactContract.artifact (artifact_contract_from_manifest digest m) in
  valid_options options → objects s !! digest = Some d → artifacts s !! digest = Some (options_row plaintext options) →
  verify_object s digest = Ok (artifact_contract_from_manifest digest m) → read_manifest s digest = Ok (d, m) →
  verify s digest = Ok a ∧ ∀ nonces' now', put s plaintext options nonces' now' = (Ok a, s).
Proof.
  intros digest m d a Hopt Hobj Hrow Hv Hman. pose proof (manifest_contract plaintext options now parts) as Hcon. fold digest m in Hcon. split.
  - unfold verify. rewrite Hv. cbn [mbind result_bind]. unfold head. rewrite Hman, Hrow. cbn [mbind result_bind ok_or].
    assert (parse_storage_class (ArtifactRow.storage_class (options_row plaintext options)) = Ok (PutOptions.storage_class options)) as ->
      by (cbn; by destruct (PutOptions.storage_class options)).
    cbn [mbind result_bind options_row ArtifactRow.size_bytes ArtifactRow.media_type ArtifactRow.required_replicas]. by rewrite Hcon.
  - intros nonces' now'. unfold put. rewrite enough_replicas by done. fold digest. rewrite (digest_has_dir plaintext : object_dir digest = Ok ()), Hobj, Hv, Hcon.
    cbn [mbind result_bind commit]. unfold index_artifact, index_artifact_in_transaction.
    change (ArtifactRefV1.digest (ArtifactContract.artifact (artifact_contract_from_manifest digest m))) with digest. rewrite Hrow.
    cbn. by rewrite bool_decide_true.
Qed.

(** [C39] Writing a new artifact within its bounds and quota succeeds; the store then reads
    back exactly the bytes written, verifies the artifact as the one returned, and writing
    the same bytes again returns the same artifact and changes nothing. *)
Theorem put_get_roundtrip self plaintext options now :
  let digest := sha256_digest plaintext in
  chunk_size self = DEFAULT_CHUNK_SIZE → objects self !! digest = None →
  artifacts self !! digest = None → len plaintext ≤ MAX_ARTIFACT_TRANSFER_BYTES →
  valid_options options →
  ensure_storage_capacity self (PutOptions.storage_class options) (len plaintext) (Some digest) = Ok () →
  ∃ a s, put self plaintext options nonces now = (Ok a, s) ∧
    ArtifactRefV1.digest a = digest ∧ ArtifactRefV1.size_bytes a = len plaintext ∧
    get s digest = Ok plaintext ∧ verify s digest = Ok a ∧
    ∀ nonces' now', put s plaintext options nonces' now' = (Ok a, s).
Proof.
  intros digest Hchunk Hobj Hart Hmax Hopt Hcap.
  assert (1 ≤ DEFAULT_CHUNK_SIZE ≤ DEFAULT_CHUNK_SIZE) as Hd by (unfold DEFAULT_CHUNK_SIZE; lia).
  destruct (write_chunks_spec plaintext DEFAULT_CHUNK_SIZE None Hd Hmax) as (parts & Hw & Hrec & Hsz & _).
  set (m := put_manifest plaintext options now parts).
  destruct (write_chunks_spec plaintext DEFAULT_CHUNK_SIZE (Some (Ok m)) Hd Hmax)
    as (parts' & Hw' & _ & _ & Hread). rewrite Hw in Hw'. injection Hw' as <-.
  set (stored := set_objects (insert digest (Dir (Some (Ok m)) (chunk_dir parts))) self).
  set (c := artifact_contract_from_manifest digest m).
  assert (∀ s, objects s = objects stored → get s digest = Ok plaintext ∧ verify_object s digest = Ok c ∧
            read_manifest s digest = Ok (Dir (Some (Ok m)) (chunk_dir parts), m)) as Hreads.
  { intros s Hs. apply (written_object_reads s plaintext options now parts); try done.
    rewrite Hs. apply lookup_insert_eq. }
  set (final := set_artifacts (insert digest (options_row plaintext options)) stored).
  exists (ArtifactContract.artifact c), final. destruct (Hreads final eq_refl) as (Hget & Hv & Hman).
  split_and!; [|done|done|exact Hget|apply (indexed_object_settled final plaintext options now parts); try done; apply lookup_insert_eq..].
  unfold put. rewrite enough_replicas by done. fold digest. rewrite (digest_has_dir plaintext : object_dir digest = Ok ()), Hobj. unfold put_new. rewrite Hcap, Hchunk, Hw.
  cbn zeta. match goal with |- commit ?x _ = _ => change x with stored end. rewrite (proj1 (proj2 (Hreads stored eq_refl))).
  cbn [mbind result_bind commit]. rewrite (manifest_contract plaintext options now parts : ensure_artifact_contract c _ _ _ _ = Ok ()). cbn [mbind result_bind].
  unfold index_artifact, index_artifact_in_transaction. cbn. by rewrite Hart.
Qed.
End roundtrip.

(** ** Quota *)

(** Everything a class holds: indexed artifacts and active reservations. *)
Definition class_total (self : t) (class : string) : Z :=
  zsum ((λ kv, ArtifactRow.size_bytes kv.2) <$>
    List.filter (λ kv, ArtifactRow.storage_class kv.2 == class) (map_to_list (artifacts self)))
  + reserved_bytes self class.

#[local] Instance filter_list_perm {A} (p : A → bool) : Proper ((≡ₚ) ==> (≡ₚ)) (List.filter p).
Proof.
  intros l k H. induction H as [|x l k _ IH|x y l|l k j _ IH1 _ IH2]; cbn; [done| | |by etrans].
  - case_match; [by f_equiv|done].
  - repeat case_match; try done. apply Permutation_swap.
Qed.

Lemma used_not_indexed self class digest :
  already_indexed self class digest = false →
  used_bytes self class digest = zsum ((λ kv, ArtifactRow.size_bytes kv.2) <$>
    List.filter (λ kv, ArtifactRow.storage_class kv.2 == class) (map_to_list (artifacts self))).
Proof.
  intros Hni. unfold used_bytes. do 2 f_equal. apply List.filter_ext_in. intros [k row] Hin.
  apply list_elem_of_In, elem_of_map_to_list in Hin. cbn.
  destruct (bool_decide_reflect (ArtifactRow.storage_class row = class)) as [Hc|]; [|done]. cbn.
  apply negb_true_iff, bool_decide_eq_false. intros ->. unfold already_indexed in Hni.
  rewrite Hin in Hni. cbn in Hni. by bool_prop.
Qed.

(** A new upload session is admitted only if the class quota still holds everything the
    class has: its indexed artifacts, its active reservations and the new one.  The content
    is not already indexed in the class. *)
Theorem reservation_within_quota self spec count now s l :
  begin_in_transaction self spec count now = Ok s →
  resumable_put_sessions self !! ResumablePutSpec.session_id spec = None → limits self = Some l →
  let class := storage_class_name (ResumablePutSpec.storage_class spec) in
  already_indexed self class (ResumablePutSpec.digest spec) = false →
  class_total s class = class_total self class + ResumablePutSpec.size_bytes spec ∧
  class_total s class ≤ StorageLimits.for_class l (ResumablePutSpec.storage_class spec).
Proof.
  intros Hb Hnew Hl class Hni. unfold begin_in_transaction in Hb. rewrite Hnew in Hb.
  apply bind_unit_ok in Hb as [Hcap Hb]. apply bind_ok_inv in Hb as (s0 & Ha & [= <-]).
  assert (artifacts s0 = artifacts self ∧ resumable_put_sessions s0 = resumable_put_sessions self)
    as [Har Hss].
  { unfold accept_authority_in_transaction in Ha. apply bind_unit_ok in Ha as [_ Ha].
    destruct (filter _ _ !! _); [done|]. apply guard_ok in Ha as [_ [= <-]]. done. }
  assert (class_total (set_sessions (insert (ResumablePutSpec.session_id spec) (new_session spec count)) s0)
            class = class_total self class + ResumablePutSpec.size_bytes spec) as Htot.
  { unfold class_total, reserved_bytes. cbn. rewrite Har, Hss. rewrite map_to_list_insert by done.
    cbn [List.filter]. cbn [snd new_session DurablePutSession.storage_class DurablePutSession.state].
    rewrite !bool_decide_true by done. cbn [andb]. unfold zsum at 2. cbn. unfold zsum. lia. }
  split; [exact Htot|]. rewrite Htot. unfold ensure_storage_capacity in Hcap. rewrite Hl in Hcap.
  cbn zeta in Hcap. change (default "" (Some (ResumablePutSpec.digest spec))) with
    (ResumablePutSpec.digest spec) in Hcap.
  fold class in Hcap. rewrite Hni in Hcap. apply guard_ok in Hcap as [Hcap _].
  rewrite (used_not_indexed _ _ _ Hni) in Hcap. unfold class_total.
  unfold checked_add in Hcap. destruct (_ <=? u64_max); cbn in Hcap; [|done].
  destruct (_ <=? u64_max); cbn in Hcap; [|done]. bool_prop. lia.
Qed.

End facts.

(** ** Concrete instances *)

Module Witness.
Import ReferenceCrypto.

Definition tag : string := "0123456789abcdef".
#[export] Instance reference_vault : Vault := {|
  encrypt _ p := Some (tag +:+ p);
  decrypt _ c := strip_prefix tag c;
  manifest_len _ := 0
|}.
#[export] Instance reference_vault_laws : VaultLaws reference_vault.
Proof.
  split; cbn [encrypt decrypt manifest_len reference_vault].
  - intros. by eexists.
  - intros n p c Hc. injection Hc as <-. by apply strip_prefix_spec.
  - intros n p c Hc. injection Hc as <-. rewrite len_app. change (len tag) with 16. lia.
  - intros. unfold MAX_MANIFEST_BYTES. lia.
Qed.

Definition store : t := open_with_limits (Some (StorageLimits.mk 1000 100 0)).
Definition nonces (i : nat) : string := "123456789012".

Lemma put_get_roundtrip_witness :
  ∃ a s, put store "hello" PutOptions.default nonces 100 = (Ok a, s) ∧
    get s (sha256_digest "hello") = Ok "hello".
Proof.
  destruct (put_get_roundtrip nonces (λ _, eq_refl) store "hello" PutOptions.default 100)
    as (a & s & Hput & _ & _ & Hget & _).
  - reflexivity.
  - reflexivity.
  - reflexivity.
  - vm_compute. discriminate.
  - split; [vm_compute; reflexivity|]. split; [vm_compute; discriminate|]. vm_compute. discriminate.
  - vm_compute. reflexivity.
  - exists a, s. split; [exact Hput|exact Hget].
Defined.

Lemma authority_accepted_once_witness :
  ∃ s, accept_authority store "node" 3 "n1" (seconds 100) 0 = (Ok (), s) ∧
    is_ok (accept_authority s "node" 3 "n1" (seconds 200) (seconds 10)).1 = false.
Proof.
  destruct (accept_authority store "node" 3 "n1" (seconds 100) 0) as [[[]|] s] eqn:E;
    [|vm_compute in E; discriminate E].
  exists s. split; [done|].
  refine (proj1 (authority_accepted_once _ _ _ _ _ _ _ s 50000 E _ _ 3 "n1" (seconds 200) (seconds 10) _ _)).
  - apply rtc_refl.
  - vm_compute. reflexivity.
  - vm_compute. discriminate.
  - left. reflexivity.
Defined.

Definition payload : string := "hello world".
Definition spec (class : StorageClass.t) (bytes : string) (size : Z) : ResumablePutSpec.t :=
  ResumablePutSpec.mk "0123456789abcdef0123456789abcdef" "lease" "node" 3 "n1" (seconds 100)
    (sha256_digest bytes) size "text/plain" class 1 8.

(** An upload of two chunks from [begin] to [commit]. *)
Definition uploaded : t :=
  let id := "0123456789abcdef0123456789abcdef" in
  let s := (begin_resumable_put store (spec StorageClass.Cache payload 11) 0).2 in
  let s := (put_resumable_chunk s id 1 (sha256_digest "rld") "rld" (nonces 1) 0).2 in
  (put_resumable_chunk s id 0 (sha256_digest "hello wo") "hello wo" (nonces 0) 0).2.

Lemma commit_is_content_addressed_witness :
  ∃ a s, commit_resumable_put uploaded "0123456789abcdef0123456789abcdef" 0 = (Ok a, s) ∧
    ∃ p, get s (ArtifactRefV1.digest a) = Ok p ∧ sha256_digest p = ArtifactRefV1.digest a.
Proof.
  destruct (commit_resumable_put uploaded "0123456789abcdef0123456789abcdef" 0) as [[a|] s] eqn:E;
    [|vm_compute in E; discriminate E].
  exists a, s. split; [done|].
  destruct (commit_is_content_addressed _ _ _ _ _ E) as (session & _ & _ & _ & _ & (p & Hg & Hs & _) & _).
  exists p. split; [exact Hg|exact Hs].
Defined.

Definition manifest : Manifest.t :=
  Manifest.mk "rampage.cas-manifest.v1" "d" 11 "text/plain" StorageClass.Cache 1 0
    [ChunkRecord.mk 0 "0123456789abcdef01234567" 8
       "0123456789abcdef0123456789abcdef0123456789abcdef0123456789abcdef";
     ChunkRecord.mk 1 "0123456789abcdef01234567" 3
       "0123456789abcdef0123456789abcdef0123456789abcdef0123456789abcdef"].

Lemma manifest_describes_split_witness :
  validate_manifest "d" manifest = Ok () ∧
  zsum (ChunkRecord.plaintext_size <$> Manifest.chunks manifest) = 11.
Proof.
  split; [vm_compute; reflexivity|].
  destruct (manifest_describes_split "d" manifest) as (_ & _ & Hsum & _).
  - vm_compute. discriminate.
  - repeat (constructor; [vm_compute; discriminate|]). constructor.
  - vm_compute. reflexivity.
  - exact Hsum.
Defined.

Lemma reservation_within_quota_witness :
  ∃ s, begin_in_transaction store (spec StorageClass.Scratch payload 90) 12 0 = Ok s ∧
    class_total s "scratch" ≤ 100.
Proof.
  destruct (begin_in_transaction store (spec StorageClass.Scratch payload 90) 12 0) as [s|] eqn:E;
    [|vm_compute in E; discriminate E].
  exists s. split; [done|].
  refine (proj2 (reservation_within_quota _ _ _ _ _ (StorageLimits.mk 1000 100 0) E _ _ _));
    vm_compute; reflexivity.
Defined.

(** A session for content that is already indexed is not counted against the quota: the
    scratch class, limited to 100 bytes, holds 80 indexed and 80 reserved bytes. *)
Definition eighty : string := concat_bytes (replicate 10 "12345678").
Example indexed_content_exceeds_quota :
  let s := (put store eighty (PutOptions.mk "text/plain" StorageClass.Scratch 1) nonces 0).2 in
  let s := (begin_resumable_put s (spec StorageClass.Scratch eighty 80) 0).2 in
  class_total s "scratch" = 160.
Proof. vm_compute. reflexivity. Qed.

(** A completed session is never filled again: when the object is lost afterwards, the same
    session takes every chunk without storing it and its commit fails. *)
Example completed_session_not_refilled :
  let id := "0123456789abcdef0123456789abcdef" in
  let lost := quarantine_object (commit_resumable_put uploaded id 0).2 (sha256_digest payload) in
  let s := (begin_resumable_put lost (spec StorageClass.Cache payload 11) 0).2 in
  let '(r0, s) := put_resumable_chunk s id 0 (sha256_digest "hello wo") "hello wo" (nonces 0) 0 in
  let '(r1, s) := put_resumable_chunk s id 1 (sha256_digest "rld") "rld" (nonces 1) 0 in
  (is_ok r0, is_ok r1, (commit_resumable_put s id 0).1) = (true, true, Err StorageError.DigestMismatch).
Proof. vm_compute. reflexivity. Qed.

(** The two-chunk upload reads back as the payload. *)
Example upload_reads_back :
  let '(r, s) := commit_resumable_put uploaded "0123456789abcdef0123456789abcdef" 0 in
  is_ok r = true ∧ get s (sha256_digest payload) = Ok payload.
Proof. vm_compute. split; reflexivity. Qed.
End Witness.
