(* ===== verification/Authority.v ===== *)
(** * One-shot authority: the interface between the store and its clients

    A worker consumes a signed lease by handing its scope, epoch, nonce and expiry to a
    durable store.  [Authority] is that operation together with the evolution of the store
    between two uses; [AuthorityLaws] is what the clients rely on.  [cas_authority] is the
    content-addressed store, and [lease_spent] the consequence the clients use. *)

From S2P Require Import Prelude.
From S2P Require Import Codec.
From S2P Require Import Contracts.
From S2P Require Import Signing.
From S2P Require Import Storage.
From S2P Require Import StorageFacts.

Class Authority (S : Type) := {
  (* [store.accept_authority(scope, epoch, nonce, expires_at)] at a reading of the clock *)
  accept : S → string → Z → string → DateTime → DateTime → result StorageError.t () * S;
  (* any use of the store with clock readings of at most so many milliseconds *)
  evolves : Z → S → S → Prop
}.

Class AuthorityLaws {S : Type} (authority : Authority S) : Prop := {
  evolves_preorder T :: PreOrder (evolves T);
  evolves_mono T T' s s' : T ≤ T' → evolves T s s' → evolves T' s s';
  accept_evolves T s scope epoch nonce expires now r s' :
    accept s scope epoch nonce expires now = (r, s') → timestamp_millis now ≤ T → evolves T s s';
  refused_unchanged s scope epoch nonce expires now e s' :
    accept s scope epoch nonce expires now = (Err e, s') → s' = s;
  accepted_unexpired s scope epoch nonce expires now s' :
    accept s scope epoch nonce expires now = (Ok (), s') →
    timestamp_millis now < timestamp_millis expires;
  nonce_spent s scope epoch nonce expires now s1 s2 T epoch' expires' now' s3 :
    accept s scope epoch nonce expires now = (Ok (), s1) →
    evolves T s1 s2 → T < timestamp_millis expires → timestamp_millis now' ≤ T →
    accept s2 scope epoch' nonce expires' now' ≠ (Ok (), s3);
  epoch_fenced s scope epoch nonce expires now s1 s2 T epoch' nonce' expires' now' s3 :
    accept s scope epoch nonce expires now = (Ok (), s1) →
    evolves T s1 s2 → epoch' < epoch →
    accept s2 scope epoch' nonce' expires' now' ≠ (Ok (), s3)
}.

(** ** The content-addressed store implements the interface *)

Section cas.
Context {codec : Codec} {crypto : Crypto} {vault : Vault}.

#[global] Instance cas_authority : Authority CasStore.t := {|
  accept := CasStore.accept_authority;
  evolves T := rtc (StorageFacts.step T)
|}.

Lemma step_mono T T' s s' : T ≤ T' → StorageFacts.step T s s' → StorageFacts.step T' s s'.
Proof.
  intros HT. destruct 1; [by eapply step_put|eapply step_accept; [|done]; lia|
    eapply step_begin; [|done]; lia|by eapply step_chunk|by eapply step_commit].
Qed.

#[global] Instance cas_authority_laws : AuthorityLaws cas_authority.
Proof.
  split; cbn [accept evolves cas_authority].
  - intros T. split; apply _.
  - intros T T' s s' HT. induction 1; [apply rtc_refl|]. eapply rtc_l; [by eapply step_mono|done].
  - intros T s scope epoch nonce expires now r s' H HT. apply rtc_once. by eapply step_accept.
  - intros *. apply accept_refused_unchanged.
  - intros *. apply accept_unexpired.
  - intros * Ha He%steps_authority. by eapply accept_nonce_spent.
  - intros * Ha He%steps_authority. by eapply accept_epoch_fenced.
Qed.
End cas.

(** ** What clients use *)

Section clients.
Context {S : Type} {authority : Authority S} {laws : AuthorityLaws authority}.

(** An accepted lease is spent for good: however the store was used since, and whenever
    that is, the lease itself and every lease of an older epoch are refused. *)
Lemma lease_spent s scope epoch nonce expires now s1 s2 epoch' nonce' expires' now' :
  accept s scope epoch nonce expires now = (Ok (), s1) →
  evolves (timestamp_millis now') s1 s2 →
  (nonce' = nonce ∧ expires' = expires) ∨ epoch' < epoch →
  ∃ e, accept s2 scope epoch' nonce' expires' now' = (Err e, s2).
Proof.
  intros Ha He Hcase.
  destruct (accept s2 scope epoch' nonce' expires' now') as [[[]|e] s3] eqn:E.
  - exfalso. destruct Hcase as [[-> ->]|Hlt]; [|exact (epoch_fenced _ _ _ _ _ _ _ _ _ _ _ _ _ _ Ha He Hlt E)].
    eapply nonce_spent; [exact Ha|exact He| |reflexivity|exact E]. by eapply accepted_unexpired.
  - exists e. by rewrite (refused_unchanged _ _ _ _ _ _ _ _ E).
Qed.
End clients.
