(* ===== verification/Ledger.v ===== *)
(** * The evidence ledger (crates/rampage-ledger)

    The append-only, hash-chained event table and the durable fencing epochs of
    [Ledger], as a state passed through one function per method.  The SQLite
    table is the list of its rows in primary-key order; a method that fails drops
    its transaction, so an [Err] carries no new state.  chrono, serde_json,
    SHA-256 and hex are the operations of [Codec]. *)

From S2P Require Import Prelude.
From S2P Require Import Codec.

Module Ledger.

(** ** Data *)

Definition GENESIS_HASH : string := "GENESIS".

Record LedgerEvent := mkLedgerEvent {
  sequence : Z;
  recorded_at : Z;
  event_type : string;
  subject_id : string;
  payload : Value;
  previous_hash : string;
  event_hash : string
}.

Inductive DbError := TableFull | UniqueViolation | ToSqlConversion.

Inductive LedgerError :=
| Database (e : DbError)
| Serialization
| BrokenLink (sequence : Z) (expected actual : string)
| HashMismatch (sequence : Z)
| FencingEpochOverflow (scope : string).

(** One row of [ledger_events], as the text columns hold it. *)
Record row := mkRow {
  row_sequence : Z;
  row_recorded_at : string;
  row_event_type : string;
  row_subject_id : string;
  row_payload_json : string;
  row_previous_hash : string;
  row_event_hash : string
}.

(** The database: [ledger_events] in key order, the AUTOINCREMENT counter, and
    [authority_epochs]. *)
Record t := mkLedger {
  ledger_events : list row;
  sqlite_sequence : Z;
  authority_epochs : gmap string Z
}.

(** [Ledger::open] on a fresh path. *)
Definition open : t := mkLedger [] 0 ∅.

Section operations.
Context {codec : Codec}.

(** [u64::to_be_bytes]. *)
Definition byte_of (z : Z) : ascii := ascii_of_N (Z.to_N (z `mod` 256)).
Definition to_be_bytes (n : Z) : string :=
  String.string_of_list_ascii
    ((λ k, byte_of (n ≫ (8 * k))) <$> [7; 6; 5; 4; 3; 2; 1; 0]).

Definition nul : string := String "000" "".

(** The bytes [calculate_hash] feeds to SHA-256. *)
Definition hash_input (sequence recorded_at : Z)
    (event_type subject_id payload_json previous_hash : string) : string :=
  to_be_bytes sequence +:+ to_rfc3339_nanos recorded_at +:+
  event_type +:+ nul +:+ subject_id +:+ nul +:+ payload_json +:+ nul +:+ previous_hash.

Definition calculate_hash (sequence recorded_at : Z)
    (event_type subject_id payload_json previous_hash : string) : string :=
  hex_encode (sha256 (hash_input sequence recorded_at event_type subject_id
                        payload_json previous_hash)).

(** Reading a row back: the closures shared by every query. *)
Definition decode_row (r : row) : result LedgerError LedgerEvent :=
  match parse_rfc3339 (row_recorded_at r) with
  | None => Err Serialization
  | Some at_ =>
      match json_from_str (row_payload_json r) with
      | None => Err Serialization
      | Some v =>
          Ok (mkLedgerEvent (row_sequence r) at_ (row_event_type r) (row_subject_id r) v
                (row_previous_hash r) (row_event_hash r))
      end
  end.

(** [INSERT INTO ledger_events ...]: AUTOINCREMENT never reuses a key and the
    hash column is UNIQUE. *)
Definition last_sequence (l : t) : Z :=
  match last (ledger_events l) with Some r => row_sequence r | None => 0 end.

Definition insert_row (l : t) (mk : Z → row) : result LedgerError t :=
  let rowid := Z.max (sqlite_sequence l) (last_sequence l) + 1 in
  let r := mk rowid in
  if i64_max <? rowid then Err (Database TableFull)
  else if existsb (λ r', row_event_hash r' == row_event_hash r) (ledger_events l)
  then Err (Database UniqueViolation)
  else Ok (mkLedger (ledger_events l ++ [r]) rowid (authority_epochs l)).

(** [append_in_transaction]; [now] is the reading of [Utc::now()]. *)
Definition append_in_transaction (now : Z) (event_type subject_id : string) (payload : Value)
    (l : t) : result LedgerError (t * LedgerEvent) :=
  let payload_json := json_to_string payload in
  let previous := (λ r, (row_sequence r, row_event_hash r)) <$> last (ledger_events l) in
  let sequence := match previous with Some (s, _) => s + 1 | None => 1 end in
  let previous_hash := match previous with Some (_, h) => h | None => GENESIS_HASH end in
  let event_hash :=
    calculate_hash sequence now event_type subject_id payload_json previous_hash in
  l' ← insert_row l (λ rowid,
         mkRow rowid (to_rfc3339 now) event_type subject_id payload_json
           previous_hash event_hash);
  Ok (l', mkLedgerEvent sequence now event_type subject_id payload previous_hash event_hash).

Definition append (now : Z) (event_type subject_id : string) (payload : Value) (l : t)
    : result LedgerError (t * LedgerEvent) :=
  append_in_transaction now event_type subject_id payload l.

Definition EPOCH_EVENT : string := "authority.epoch.advanced".

Definition advance_fencing_epoch (now : Z) (scope : string) (l : t)
    : result LedgerError (t * Z) :=
  let current := authority_epochs l !! scope in
  let bumped := checked_add (default 0 current) 1 in
  match bumped with
  | Some next =>
      if next <=? i64_max then
        let l1 := mkLedger (ledger_events l) (sqlite_sequence l)
                    (<[scope := next]> (authority_epochs l)) in
        '(l2, _) ← append_in_transaction now EPOCH_EVENT scope
                     (VObject [("fencing_epoch", VInt next)]) l1;
        Ok (l2, next)
      else Err (FencingEpochOverflow scope)
  | None => Err (FencingEpochOverflow scope)
  end.

Definition current_fencing_epoch (scope : string) (l : t) : Z :=
  default 0 (authority_epochs l !! scope).

(** ** Queries *)

Definition after (n : Z) (rows : list row) : list row :=
  filter (λ r, n < row_sequence r) rows.
Definition of_type (ty : string) (rows : list row) : list row :=
  filter (λ r, row_event_type r = ty) rows.
Definition of_subject (s : string) (rows : list row) : list row :=
  filter (λ r, row_subject_id r = s) rows.

(** A u64 that does not fit the column type is refused by rusqlite. *)
Definition bind_u64 {A} (n : Z) (k : result LedgerError A) : result LedgerError A :=
  if n <=? i64_max then k else Err (Database ToSqlConversion).

Definition events (after_sequence limit : Z) (l : t) : result LedgerError (list LedgerEvent) :=
  bind_u64 after_sequence
    (try_map decode_row
       (take (Z.to_nat (Z.min limit 10000)) (after after_sequence (ledger_events l)))).

(** [ORDER BY sequence DESC LIMIT n], then [events.reverse()]. *)
Definition newest (n : Z) (rows : list row) : list row :=
  take (Z.to_nat n) (reverse rows).

Definition latest_events (limit : Z) (l : t) : result LedgerError (list LedgerEvent) :=
  evs ← try_map decode_row (newest (Z.min limit 10000) (ledger_events l));
  Ok (reverse evs).

Definition event (seq : Z) (l : t) : result LedgerError (option LedgerEvent) :=
  if seq =? 0 then Ok None
  else bind_u64 seq
    (match list_find (λ r, row_sequence r = seq) (ledger_events l) with
     | None => Ok None
     | Some (_, r) => e ← decode_row r; Ok (Some e)
     end).

Definition latest_events_of_type (ty : string) (limit : Z) (l : t)
    : result LedgerError (list LedgerEvent) :=
  evs ← try_map decode_row (newest (Z.min limit 10000) (of_type ty (ledger_events l)));
  Ok (reverse evs).

Definition events_of_type (ty : string) (after_sequence limit : Z) (l : t)
    : result LedgerError (list LedgerEvent) :=
  bind_u64 after_sequence
    (try_map decode_row
       (take (Z.to_nat (Z.min (Z.max limit 1) 10000))
          (after after_sequence (of_type ty (ledger_events l))))).

Definition newest_one (rows : list row) : result LedgerError (option LedgerEvent) :=
  match newest 1 rows with
  | [] => Ok None
  | r :: _ => e ← decode_row r; Ok (Some e)
  end.

Definition latest_event_of_type (ty : string) (l : t)
    : result LedgerError (option LedgerEvent) :=
  newest_one (of_type ty (ledger_events l)).

Definition latest_event_for_subject_of_type (subject ty : string) (l : t)
    : result LedgerError (option LedgerEvent) :=
  newest_one (of_type ty (of_subject subject (ledger_events l))).

Definition events_for_subject (subject : string) (limit : Z) (l : t)
    : result LedgerError (list LedgerEvent) :=
  try_map decode_row
    (take (Z.to_nat (Z.min limit 10000)) (of_subject subject (ledger_events l))).

(** ** Verification *)

(** The body of the [for event in &events] loop: the accumulator is
    [(expected_previous, verified)]. *)
Definition verify_event (acc : string * Z) (e : LedgerEvent) : result LedgerError (string * Z) :=
  let '(expected_previous, verified) := acc in
  if previous_hash e != expected_previous
  then Err (BrokenLink (sequence e) expected_previous (previous_hash e))
  else
    let expected_hash :=
      calculate_hash (sequence e) (recorded_at e) (event_type e) (subject_id e)
        (json_to_string (payload e)) (previous_hash e) in
    if expected_hash != event_hash e then Err (HashMismatch (sequence e))
    else Ok (event_hash e, verified + 1).

(** The [loop { ... }] of [verify_after], a page of 10,000 events per turn;
    [None] is fuel exhausted. *)
Fixpoint verify_loop (fuel : nat) (after_sequence : Z) (acc : string * Z) (l : t)
    : option (result LedgerError Z) :=
  match fuel with
  | O => None
  | S fuel =>
      match events after_sequence 10000 l with
      | Err e => Some (Err e)
      | Ok page =>
          match last page with
          | None => Some (Ok (snd acc))
          | Some e =>
              match try_fold verify_event acc page with
              | Err e => Some (Err e)
              | Ok acc' => verify_loop fuel (sequence e) acc' l
              end
          end
      end
  end.

Definition verify_after (after_sequence : Z) (expected_previous : string) (l : t)
    : option (result LedgerError Z) :=
  verify_loop (S (length (ledger_events l))) after_sequence (expected_previous, 0) l.

Definition verify (l : t) : option (result LedgerError Z) :=
  verify_after 0 GENESIS_HASH l.

(** ** Specifications *)

(** Rows in key order, above [lo]. *)
Fixpoint ascending (lo : Z) (rows : list row) : Prop :=
  match rows with
  | [] => True
  | r :: rows => lo < row_sequence r ≤ i64_max ∧ ascending (row_sequence r) rows
  end.

(** Verification in one pass, without paging. *)
Definition check_rows (acc : string * Z) (rows : list row) : result LedgerError (string * Z) :=
  evs ← try_map decode_row rows; try_fold verify_event acc evs.

(** [links seq prev r e]: row [r] stores event [e], the successor of the event
    numbered [seq] whose hash is [prev]. *)
Definition links (seq : Z) (prev : string) (r : row) (e : LedgerEvent) : Prop :=
  decode_row r = Ok e ∧ row_sequence r = seq + 1 ∧ previous_hash e = prev ∧
  four_digit_year (recorded_at e) ∧
  json_to_string (payload e) = row_payload_json r ∧
  event_hash e = calculate_hash (sequence e) (recorded_at e) (event_type e) (subject_id e)
                   (json_to_string (payload e)) (previous_hash e).

Fixpoint chained (seq : Z) (prev : string) (rows : list row) : Prop :=
  match rows with
  | [] => True
  | r :: rows =>
      (∃ e, links seq prev r e) ∧ seq < i64_max ∧ chained (row_sequence r) (row_event_hash r) rows
  end.

Definition last_hash (prev : string) (rows : list row) : string :=
  match last rows with Some r => row_event_hash r | None => prev end.

Definition epoch_payload (n : Z) : Value := VObject [("fencing_epoch", VInt n)].

(** The newest epoch event of a scope records the scope's epoch row. *)
Definition epoch_evidenced (l : t) (scope : string) : Prop :=
  match last (of_type EPOCH_EVENT (of_subject scope (ledger_events l))) with
  | None => authority_epochs l !! scope = None
  | Some r =>
      ∃ n, authority_epochs l !! scope = Some n ∧ 1 ≤ n ≤ i64_max ∧
           row_payload_json r = json_to_string (epoch_payload n)
  end.

Record wf (l : t) : Prop := {
  wf_chain : chained 0 GENESIS_HASH (ledger_events l);
  wf_counter : sqlite_sequence l = last_sequence l;
  wf_epochs scope : epoch_evidenced l scope
}.

(** The transitions a client can make, with any payload.  The clock stays within the years
    RFC 3339 writes with four digits, and only an advance records the type of an advance. *)
Inductive step : t → t → Prop :=
| step_append now ty sid v l l' e :
    ty ≠ EPOCH_EVENT → four_digit_year now →
    append now ty sid v l = Ok (l', e) → step l l'
| step_advance now scope l l' n :
    four_digit_year now → advance_fencing_epoch now scope l = Ok (l', n) → step l l'.

(** The ledgers that can have been written. *)
Definition written (l : t) : Prop := rtc step open l.

(** A text that reads back as a value which prints as the same text.  What serde_json prints
    without a binary64 number is one; a printed binary64 number need not be, as the parser is
    not exact without the feature [float_roundtrip]. *)
Definition rereads (text : string) : Prop :=
  ∃ v, json_from_str text = Some v ∧ json_to_string v = text.

(** The ledgers that can have been written and whose payloads read back as printed. *)
Definition reachable (l : t) : Prop :=
  written l ∧ Forall (λ r, rereads (row_payload_json r)) (ledger_events l).

(** [inscribed now v seq prev r]: row [r] is what an append of payload [v] at [now] leaves
    after the event numbered [seq] whose hash is [prev]. *)
Definition inscribed (now : Z) (v : Value) (seq : Z) (prev : string) (r : row) : Prop :=
  four_digit_year now ∧ row_sequence r = seq + 1 ∧ row_recorded_at r = to_rfc3339 now ∧
  row_payload_json r = json_to_string v ∧ row_previous_hash r = prev ∧
  row_event_hash r = calculate_hash (seq + 1) now (row_event_type r) (row_subject_id r)
                       (json_to_string v) prev.

(** The fields of an event carry no NUL, so that NUL separates them. *)
Definition nul_free (e : LedgerEvent) : Prop :=
  no_nul (event_type e) ∧ no_nul (subject_id e).

Definition datable (e : LedgerEvent) : Prop :=
  nul_free e ∧ four_digit_year (recorded_at e) ∧ is_u64 (sequence e).

(** Two distinct inputs with one SHA-256 digest. *)
Definition sha256_collision : Prop := ∃ x y, x ≠ y ∧ sha256 x = sha256 y.

End operations.

(** ** Paging *)

Section paging.
Context {codec : Codec}.
Implicit Types (rows : list row) (r : row).

Lemma ascending_weaken lo lo' rows : lo' ≤ lo → ascending lo rows → ascending lo' rows.
Proof. destruct rows; simpl; [done|]. intros ? [[] ?]. split; [lia|done]. Qed.

Lemma ascending_Forall lo rows : ascending lo rows → Forall (λ r, lo < row_sequence r) rows.
Proof.
  revert lo. induction rows as [|r rows IH]; intros lo; simpl; [constructor|].
  intros [[? ?] ?]. constructor; [done|].
  eapply Forall_impl; [by apply IH|]. simpl. lia.
Qed.

Lemma ascending_elem lo rows r :
  ascending lo rows → r ∈ rows → lo < row_sequence r ≤ i64_max.
Proof.
  revert lo. induction rows as [|r' rows IH]; intros lo; [by intros _ ?%not_elem_of_nil|].
  intros [[] Hasc] [->|Hin]%elem_of_cons; [lia|]. specialize (IH _ Hasc Hin). lia.
Qed.

Lemma after_all lo n rows : n ≤ lo → ascending lo rows → after n rows = rows.
Proof.
  intros Hn Hasc%ascending_Forall. unfold after.
  induction Hasc as [|r rows Hr Hasc IH]; [done|].
  rewrite filter_cons_True by lia. by rewrite IH.
Qed.

Lemma after_app n p q : after n (p ++ q) = after n p ++ after n q.
Proof. apply filter_app. Qed.

Lemma ascending_app lo p q r :
  ascending lo (p ++ q) → last p = Some r →
  Forall (λ r', row_sequence r' ≤ row_sequence r) p ∧ ascending (row_sequence r) q.
Proof.
  revert lo. induction p as [|r' p IH]; intros lo; simpl; [done|].
  intros [[? ?] Hasc] Hlast. destruct p as [|r'' p].
  - simplify_eq/=. split; [|done]. by repeat constructor.
  - destruct (IH _ Hasc Hlast) as [Hle ?]. split; [|done]. constructor; [|done].
    inversion Hle as [|? ? Hr'']; simplify_eq. destruct Hasc as [[]]. lia.
Qed.

(** Skipping past the last row of a page leaves exactly the rest. *)
Lemma ascending_snoc lo rows r :
  ascending lo rows →
  match last rows with Some r' => row_sequence r' | None => lo end < row_sequence r ≤ i64_max →
  ascending lo (rows ++ [r]).
Proof.
  revert lo. induction rows as [|r' rows IH]; intros lo; [by cbn|]. intros [Hr' Hasc] Hr.
  split; [done|]. apply IH; [done|]. rewrite last_cons in Hr. by destruct (last rows).
Qed.

Lemma after_page lo p q r :
  ascending lo (p ++ q) → last p = Some r → after (row_sequence r) (p ++ q) = q.
Proof.
  intros Hasc Hlast. destruct (ascending_app _ _ _ _ Hasc Hlast) as [Hle Hq].
  rewrite after_app, (after_all (row_sequence r) _ q) by (done || lia).
  assert (after (row_sequence r) p = []) as ->; [|done].
  unfold after. clear -Hle. induction Hle as [|r' p Hr Hle IH]; [done|].
  rewrite filter_cons_False by lia. done.
Qed.

Lemma ascending_after lo n rows : ascending lo rows → ascending (Z.max lo n) (after n rows).
Proof.
  revert lo. unfold after. induction rows as [|r rows IH]; intros lo; [done|].
  simpl. intros [[? ?] Hasc]. rewrite filter_cons. case_decide.
  - simpl. split; [lia|]. specialize (IH _ Hasc).
    eapply ascending_weaken; [|apply IH]. lia.
  - eapply ascending_weaken; [|by apply IH]. lia.
Qed.

Lemma after_after m n rows : m ≤ n → after n (after m rows) = after n rows.
Proof.
  intros. unfold after. rewrite list_filter_filter. apply list_filter_iff.
  intros r. lia.
Qed.

Lemma decode_row_sequence r e : decode_row r = Ok e → sequence e = row_sequence r.
Proof. unfold decode_row. intros. by res_inv. Qed.

Lemma Forall2_last_l {A B} (P : A → B → Prop) l k y :
  Forall2 P l k → last k = Some y → ∃ x, last l = Some x ∧ P x y.
Proof.
  intros HP Hk. destruct (last l) as [x|] eqn:Hl.
  - exists x. split; [done|].
    apply last_Some in Hl as [l' ->], Hk as [k' ->].
    apply Forall2_app_inv in HP as [_ HP]; [by inversion HP|].
    apply Forall2_length in HP. rewrite !length_app in HP. simpl in HP. lia.
  - apply last_None in Hl as ->. inversion HP; simplify_eq.
Qed.

Definition page_size : nat := Z.to_nat (Z.min 10000 10000).

Lemma page_size_pos : (0 < page_size)%nat.
Proof. unfold page_size. lia. Qed.

(** One turn of the verification loop, seen on the unread rows. *)
Lemma verify_loop_ok fuel a acc l :
  ascending 0 (ledger_events l) → 0 ≤ a ≤ i64_max →
  (length (after a (ledger_events l)) < fuel)%nat →
  ∃ res, verify_loop fuel a acc l = Some res ∧
    ∀ n, res = Ok n ↔ ∃ h, check_rows acc (after a (ledger_events l)) = Ok (h, n).
Proof.
  intros Hasc. revert a acc. induction fuel as [|fuel IH]; intros a acc Ha Hfuel; [lia|].
  cbn [verify_loop]. unfold events, bind_u64.
  rewrite (proj2 (Z.leb_le a i64_max)) by lia. fold page_size.
  set (rest := after a (ledger_events l)) in *.
  pose proof (ascending_after 0 a _ Hasc) as Hrest. fold rest in Hrest.
  pose proof page_size_pos as Hpos. generalize dependent page_size. intros k Hpos.
  assert (check_rows acc rest =
    evs ← (ys ← try_map decode_row (take k rest); zs ← try_map decode_row (drop k rest);
           Ok (ys ++ zs)); try_fold verify_event acc evs) as ->.
  { unfold check_rows. by rewrite <-try_map_app, take_drop. }
  destruct (try_map decode_row (take k rest)) as [page|e] eqn:Hpage; cycle 1.
  { exists (Err e). split; [done|]. intros n. split; [done|]. by intros [h [=]]. }
  cbn. apply try_map_ok in Hpage. destruct (last page) as [e|] eqn:Hlast; cycle 1.
  { apply last_None in Hlast as ->. apply Forall2_nil_inv_r in Hpage.
    destruct rest as [|r rest]; [|by destruct k; [lia|]].
    rewrite drop_nil. destruct acc as [h n]. exists (Ok n). split; [done|].
    intros n'. cbn. split; [intros [= <-]; by exists h|]. by intros [h' [= _ <-]]. }
  destruct (Forall2_last_l _ _ _ _ Hpage Hlast) as (r & Hr & He%decode_row_sequence).
  rewrite <-(take_drop k rest) in Hrest.
  destruct (ascending_app _ _ _ _ Hrest Hr) as [Hle Hq].
  assert (a < row_sequence r ≤ i64_max) as Hra.
  { pose proof (ascending_elem _ _ r Hrest) as Hr'. rewrite elem_of_app in Hr'.
    specialize (Hr' (or_introl (last_Some_elem_of _ _ Hr))). lia. }
  assert (after (sequence e) (ledger_events l) = drop k rest) as Hafter.
  { rewrite He, <-(after_after a) by lia. fold rest.
    pose proof (after_page _ _ _ _ Hrest Hr) as Hp. by rewrite take_drop in Hp. }
  destruct (try_fold verify_event acc page) as [acc'|err] eqn:Hfold; cycle 1.
  { exists (Err err). split; [done|]. intros n. split; [done|].
    intros (h & (ys & (zs & _ & [= <-])%bind_ok_inv & Hz)%bind_ok_inv).
    rewrite try_fold_app, Hfold in Hz. done. }
  destruct (IH (sequence e) acc') as (res & Hres & Hiff).
  { lia. }
  { rewrite Hafter, length_drop.
    assert (rest ≠ []) by (by intros Hnil; rewrite Hnil, take_nil in Hr).
    destruct rest; [done|]. simpl in *. lia. }
  exists res. split; [done|]. intros n. rewrite Hiff, Hafter. unfold check_rows.
  f_equiv. intros h. destruct (try_map decode_row (drop k rest)); cbn; [|done].
  by rewrite try_fold_app, Hfold.
Qed.

End paging.

(** ** The chain invariant *)

Section chain.
Context {codec : Codec} {laws : CodecLaws codec}.
Implicit Types (rows : list row) (r : row).

Lemma chained_ascending seq prev rows : chained seq prev rows → ascending seq rows.
Proof.
  revert seq prev. induction rows as [|r rows IH]; intros seq prev; [done|].
  intros ((e & _ & Hseq & _) & ? & Hrows). split; [lia|]. by eapply IH.
Qed.

Lemma links_verify seq prev r e n :
  links seq prev r e → verify_event (prev, n) e = Ok (row_event_hash r, n + 1).
Proof.
  intros (Hdec & _ & Hprev & _ & _ & Hhash). unfold verify_event.
  rewrite bool_decide_true by done. simpl. rewrite bool_decide_true by congruence. simpl.
  unfold decode_row in Hdec. by res_inv.
Qed.

Lemma chained_check seq prev rows n :
  chained seq prev rows →
  check_rows (prev, n) rows = Ok (last_hash prev rows, n + Z.of_nat (length rows)).
Proof.
  unfold check_rows. revert seq prev n. induction rows as [|r rows IH]; intros seq prev n.
  - simpl. intros _. do 2 f_equal. lia.
  - intros ((e & He) & _ & Hrows). cbn [try_map].
    specialize (IH _ _ (n + 1) Hrows). pose proof He as (Hdec & _). rewrite Hdec.
    destruct (try_map decode_row rows) as [evs|err] eqn:Hevs; [|done]. rsimpl.
    rewrite (links_verify _ _ _ _ _ He). rsimpl. rewrite IH.
    unfold last_hash. destruct rows as [|r' rows]; [simpl; do 2 f_equal; lia|].
    rewrite last_cons_cons. destruct (last (r' :: rows)) eqn:Hl; [do 2 f_equal; simpl; lia|].
    by apply last_None in Hl.
Qed.

Lemma chained_snoc seq prev rows r e :
  chained seq prev rows →
  links (seq + Z.of_nat (length rows)) (last_hash prev rows) r e →
  seq + Z.of_nat (length rows) < i64_max → chained seq prev (rows ++ [r]).
Proof.
  revert seq prev. induction rows as [|r' rows IH]; intros seq prev; simpl.
  - rewrite Z.add_0_r. intros _ He ?. repeat split; eauto.
  - intros (Hr' & ? & Hrows) He Hmax. split; [done|]. split; [done|].
    destruct Hr' as (e' & _ & Hseq & _). rewrite Hseq in *. apply IH; [done| |lia].
    replace (seq + 1 + Z.of_nat (length rows)) with (seq + Z.of_nat (S (length rows))) by lia.
    unfold last_hash in *. destruct rows; [done|]. rewrite last_cons_cons in He.
    destruct (last (_ :: rows)) eqn:Hl; [done|]. by apply last_None in Hl.
Qed.

Lemma chained_last seq prev rows :
  chained seq prev rows →
  match last rows with Some r => row_sequence r | None => seq end
    = seq + Z.of_nat (length rows).
Proof.
  revert seq prev. induction rows as [|r rows IH]; intros seq prev; [simpl; lia|].
  intros ((e & _ & Hseq & _) & _ & Hrows). specialize (IH _ _ Hrows).
  destruct rows as [|r' rows]; [simpl in *; lia|]. rewrite last_cons_cons.
  cbn [length] in *. destruct (last (r' :: rows)) eqn:Hl; [lia|by apply last_None in Hl].
Qed.

Lemma wf_last_sequence l : wf l → last_sequence l = Z.of_nat (length (ledger_events l)).
Proof. intros Hwf. unfold last_sequence. rewrite (chained_last 0 GENESIS_HASH); [lia|apply Hwf]. Qed.

(** The row a committed append leaves behind. *)
Lemma append_row now ty sid v l l' e :
  sqlite_sequence l = last_sequence l → four_digit_year now →
  append_in_transaction now ty sid v l = Ok (l', e) →
  ∃ r, ledger_events l' = ledger_events l ++ [r] ∧
       inscribed now v (last_sequence l) (last_hash GENESIS_HASH (ledger_events l)) r ∧
       last_sequence l < i64_max ∧
       sqlite_sequence l' = row_sequence r ∧ authority_epochs l' = authority_epochs l ∧
       row_event_type r = ty ∧ row_subject_id r = sid.
Proof.
  intros Hcount Hnow. unfold append_in_transaction, insert_row.
  intros (l1 & Hins & [= <- <-])%bind_ok_inv. rewrite Hcount, Z.max_id in Hins.
  destruct (Z.ltb_spec i64_max (last_sequence l + 1)); [done|].
  destruct existsb in Hins; [done|]. injection Hins as <-. cbn [ledger_events sqlite_sequence authority_epochs].
  eexists. split_and!; try reflexivity; [|lia]. unfold inscribed, last_sequence, last_hash. cbn.
  by destruct (last (ledger_events l)).
Qed.

(** Such a row holds the next event of the chain if its payload reads back as printed. *)
Lemma inscribed_links now v seq prev r :
  inscribed now v seq prev r → rereads (row_payload_json r) →
  ∃ e, links seq prev r e ∧ (json_stable v → payload e = v).
Proof.
  intros (Hnow & Hseq & Hat & Hv & Hprev & Hhash) (v' & Hread & Hprint).
  exists (mkLedgerEvent (row_sequence r) now (row_event_type r) (row_subject_id r) v'
            (row_previous_hash r) (row_event_hash r)).
  unfold links, decode_row. rewrite Hat, (rfc3339_roundtrip _ Hnow), Hread. cbn.
  rewrite Hprint, Hprev, Hseq. split.
  - split_and!; try done. congruence.
  - unfold json_stable. congruence.
Qed.

Lemma epoch_evidenced_other l r scope epochs c :
  epoch_evidenced l scope →
  row_event_type r ≠ EPOCH_EVENT ∨ row_subject_id r ≠ scope →
  epochs !! scope = authority_epochs l !! scope →
  epoch_evidenced (mkLedger (ledger_events l ++ [r]) c epochs) scope.
Proof.
  intros Hev Hr Hep. unfold epoch_evidenced, of_type, of_subject in *. cbn.
  rewrite !filter_app, Hep. rewrite filter_cons, filter_nil.
  case_decide; [|by rewrite filter_nil, app_nil_r].
  rewrite (filter_cons_False _ _ []), filter_nil, app_nil_r by naive_solver. done.
Qed.

Lemma epoch_evidenced_new l r scope epochs c n :
  row_event_type r = EPOCH_EVENT → row_subject_id r = scope →
  row_payload_json r = json_to_string (epoch_payload n) →
  epochs !! scope = Some n → 1 ≤ n ≤ i64_max →
  epoch_evidenced (mkLedger (ledger_events l ++ [r]) c epochs) scope.
Proof.
  intros. unfold epoch_evidenced, of_type, of_subject. cbn.
  rewrite !filter_app, filter_cons_True, filter_nil by done.
  rewrite filter_cons_True, filter_nil by done. rewrite last_snoc. eauto.
Qed.

(** The shape of a committed epoch advance. *)
Lemma advance_spec now scope l l' n :
  wf l → four_digit_year now → advance_fencing_epoch now scope l = Ok (l', n) →
  n = current_fencing_epoch scope l + 1 ∧ 1 ≤ n ≤ i64_max ∧
  authority_epochs l' = <[scope := n]> (authority_epochs l) ∧
  ∃ r e, ledger_events l' = ledger_events l ++ [r] ∧
    links (Z.of_nat (length (ledger_events l))) (last_hash GENESIS_HASH (ledger_events l)) r e ∧
    Z.of_nat (length (ledger_events l)) < i64_max ∧ sqlite_sequence l' = row_sequence r ∧
    row_event_type r = EPOCH_EVENT ∧ row_subject_id r = scope ∧
    row_payload_json r = json_to_string (epoch_payload n) ∧ payload e = epoch_payload n.
Proof.
  intros Hwf Hnow. unfold advance_fencing_epoch, checked_add, current_fencing_epoch.
  set (cur := default 0 (authority_epochs l !! scope)).
  assert (0 ≤ cur) as Hcur.
  { pose proof (wf_epochs l Hwf scope) as He. unfold epoch_evidenced in He. subst cur.
    destruct (last _); [|by rewrite He]. destruct He as (m & -> & ? & _). simpl. lia. }
  destruct (cur + 1 <=? u64_max); [|done]. destruct (Z.leb_spec (cur + 1) i64_max); [|done].
  intros ([l2 e] & Happ & [= <- <-])%bind_ok_inv.
  apply append_row in Happ as (r & Hev & Hr & Hmax & Hseq & Hep & Hty & Hsid); [|apply Hwf|done].
  pose proof (wf_last_sequence l Hwf) as Hlast. unfold last_sequence in *. cbn [ledger_events authority_epochs] in *.
  pose proof (int_field_stable "fencing_epoch" (cur + 1)) as Hstable.
  destruct (inscribed_links _ _ _ _ _ Hr) as (e' & Hl & Hpay).
  { destruct Hr as (_ & _ & _ & -> & _). eexists. split; [exact Hstable|done]. }
  rewrite Hlast in *. split; [done|]. split; [lia|]. split; [done|]. exists r, e'.
  split_and!; try done; [apply Hr|by apply Hpay].
Qed.

Lemma step_wf l l' :
  wf l → Forall (λ r, rereads (row_payload_json r)) (ledger_events l') → step l l' → wf l'.
Proof.
  intros Hwf Hread. pose proof (wf_last_sequence l Hwf) as Hseq.
  destruct 1 as [??????? Hty Hnow Happ|????? Hnow Hadv].
  - apply append_row in Happ as (r & Hev & Hr & Hmax & Hcnt & Hep & Hrty & _); [|apply Hwf|done].
    destruct l' as [ev' c' ep']. cbn in *. subst ev' ep'. rewrite Hseq in *.
    apply Forall_app in Hread as [_ [Hread _]%Forall_cons].
    destruct (inscribed_links _ _ _ _ _ Hr Hread) as (e' & Hl & _). split; cbn.
    + eapply chained_snoc; [apply Hwf|by rewrite Z.add_0_l|lia].
    + unfold last_sequence. cbn. by rewrite last_snoc.
    + intros scope. apply epoch_evidenced_other; [apply Hwf|left; congruence|done].
  - apply advance_spec in Hadv as (Hn & Hb & Hep & r & e & Hev & Hl & Hmax & Hcnt & Hrty & Hrs & Hpj & _);
      [|done|done].
    destruct l' as [ev' c' ep']. cbn in *. subst ev' ep'. split; cbn.
    + eapply chained_snoc; [apply Hwf|by rewrite Z.add_0_l|lia].
    + unfold last_sequence. cbn. by rewrite last_snoc.
    + intros scope'. destruct (decide (scope' = scope)) as [->|].
      * eapply epoch_evidenced_new; eauto. by rewrite lookup_insert_eq.
      * apply epoch_evidenced_other; [apply Hwf|right; congruence|].
        by rewrite lookup_insert_ne.
Qed.

Lemma open_wf : wf open.
Proof. split; [done|done|]. intros scope. done. Qed.

(** What holds of every ledger that was written, whatever the payloads. *)
Definition penned (l : t) : Prop :=
  sqlite_sequence l = last_sequence l ∧ ascending 0 (ledger_events l) ∧
  Forall (λ r, ∃ now v prev, inscribed now v (row_sequence r - 1) prev r) (ledger_events l).

Lemma step_penned l l' :
  penned l → step l l' → penned l' ∧ ∃ r, ledger_events l' = ledger_events l ++ [r].
Proof.
  intros (Hcnt & Hasc & Hrows) Hstep.
  assert (∃ r now v, ledger_events l' = ledger_events l ++ [r] ∧
    inscribed now v (last_sequence l) (last_hash GENESIS_HASH (ledger_events l)) r ∧
    last_sequence l < i64_max ∧ sqlite_sequence l' = row_sequence r) as (r & now & v & Hev & Hr & Hmax & Hc).
  { destruct Hstep as [now ty sid v l l' e Hty Hnow Happ|now scope l l' n Hnow Hadv].
    - apply append_row in Happ as (r & ? & ? & ? & ? & _); [|done..]. by exists r, now, v.
    - unfold advance_fencing_epoch in Hadv. destruct (checked_add _ _); [|done]. destruct (_ <=? _); [|done].
      apply bind_ok_inv in Hadv as ([l2 e] & Happ & [= <- _]).
      apply append_row in Happ as (r & ? & ? & ? & ? & _); [|done..]. by eexists r, now, _. }
  split; [|by exists r]. unfold penned, last_sequence. rewrite Hev, last_snoc.
  pose proof Hr as (_ & Hs & _). split; [done|]. split.
  - apply ascending_snoc; [done|]. unfold last_sequence in *. lia.
  - apply Forall_app. split; [done|]. apply Forall_singleton. eexists now, v, _. rewrite Hs. by rewrite Z.add_simpl_r.
Qed.

Lemma written_penned l : written l → penned l.
Proof.
  intros Hw. unfold written in Hw. assert (penned open) as Hp by (repeat split; constructor).
  induction Hw; eauto. apply IHHw. by eapply step_penned.
Qed.

Lemma reachable_wf l : reachable l → wf l.
Proof.
  intros [Hw Hread]. revert l Hw Hread.
  refine (rtc_ind_r _ _ _ _); [intros _; apply open_wf|]. intros l l' Hw Hstep IH Hread.
  destruct (step_penned l l' (written_penned l Hw) Hstep) as [_ [r Hev]].
  eapply step_wf; [|exact Hread|exact Hstep]. apply IH. rewrite Hev in Hread. by apply Forall_app in Hread as [? _].
Qed.

Lemma verify_after_ok a prev l :
  ascending 0 (ledger_events l) → 0 ≤ a ≤ i64_max →
  ∃ res, verify_after a prev l = Some res ∧
    ∀ n, res = Ok n ↔ ∃ h, check_rows (prev, 0) (after a (ledger_events l)) = Ok (h, n).
Proof.
  intros. apply verify_loop_ok; [done..|].
  pose proof (length_filter (λ r, a < row_sequence r) (ledger_events l)). unfold after. lia.
Qed.

Lemma wf_verify l :
  wf l → verify l = Some (Ok (Z.of_nat (length (ledger_events l)))).
Proof.
  intros Hwf. pose proof (chained_ascending _ _ _ (wf_chain l Hwf)) as Hasc.
  unfold verify. destruct (verify_after_ok 0 GENESIS_HASH l) as (res & -> & Hres); [done| |].
  { unfold i64_max. lia. }
  f_equal. apply Hres. rewrite (after_all 0) by (done || lia).
  eexists. rewrite (chained_check _ _ _ _ (wf_chain l Hwf)). do 2 f_equal.
Qed.

End chain.

(** ** Binding: the head hash commits the whole history *)

Section binding.
Context {codec : Codec} {laws : CodecLaws codec}.

Lemma byte_of_inj a b : byte_of a = byte_of b → a `mod` 256 = b `mod` 256.
Proof.
  intros H%Reference.ascii_of_N_inj;
    pose proof (Z.mod_pos_bound a 256); pose proof (Z.mod_pos_bound b 256); lia.
Qed.

Lemma byte_step n k : 0 ≤ k →
  n ≫ (8 * k) = 256 * (n ≫ (8 * (k + 1))) + (n ≫ (8 * k)) `mod` 256.
Proof.
  intros. replace (8 * (k + 1)) with (8 * k + 8) by lia.
  rewrite <-Z.shiftr_shiftr by lia. rewrite (Z.shiftr_div_pow2 (n ≫ (8 * k)) 8) by lia.
  change (2 ^ 8) with 256. apply Z.div_mod. lia.
Qed.

Lemma to_be_bytes_inj n m : is_u64 n → is_u64 m → to_be_bytes n = to_be_bytes m → n = m.
Proof.
  unfold is_u64, u64_max. intros Hn Hm H.
  apply (f_equal String.list_ascii_of_string) in H. unfold to_be_bytes in H.
  rewrite !String.list_ascii_of_string_of_list_ascii in H.
  cbn [fmap list_fmap] in H. injection H as H7 H6 H5 H4 H3 H2 H1 H0.
  assert (n ≫ (8 * 8) = m ≫ (8 * 8)) as E.
  { rewrite !Z.shiftr_div_pow2, !Z.div_small by (simpl; lia). done. }
  do 8 match goal with
  | Hb : byte_of (n ≫ (8 * ?k)) = byte_of _, E : n ≫ (8 * ?k') = _ |- _ =>
      let Hn := fresh in let Hm := fresh in
      pose proof (byte_step n k ltac:(lia)) as Hn; pose proof (byte_step m k ltac:(lia)) as Hm;
      change (k + 1) with k' in Hn, Hm; apply byte_of_inj in Hb;
      rewrite E, Hb, <-Hm in Hn; clear E Hb Hm; rename Hn into E
  end.
  by rewrite !Z.shiftr_0_r in E.
Qed.

Lemma hash_input_inj s t et sid v ph s' t' et' sid' v' ph' :
  is_u64 s → is_u64 s' → four_digit_year t → four_digit_year t' →
  no_nul et → no_nul et' → no_nul sid → no_nul sid' →
  hash_input s t et sid (json_to_string v) ph = hash_input s' t' et' sid' (json_to_string v') ph' →
  s = s' ∧ t = t' ∧ et = et' ∧ sid = sid' ∧ json_to_string v = json_to_string v' ∧ ph = ph'.
Proof.
  intros Hs Hs' Ht Ht' ???? H. unfold hash_input, nul in H.
  apply app_inj_length in H as [Es%to_be_bytes_inj H]; [|done..].
  apply app_inj_length in H as [Et%nanos_inj H]; [|by rewrite ?nanos_width..].
  apply app_inj_separator in H as [Eet H]; [|done..]. simpl in H.
  apply app_inj_separator in H as [Esid H]; [|done..]. simpl in H.
  apply app_inj_separator in H as [Ev H]; [|apply json_no_nul..]. simpl in H. done.
Qed.

Lemma verify_snoc prev n evs e h m :
  try_fold verify_event (prev, n) (evs ++ [e]) = Ok (h, m) →
  try_fold verify_event (prev, n) evs = Ok (previous_hash e, m - 1) ∧ h = event_hash e ∧
  event_hash e = calculate_hash (sequence e) (recorded_at e) (event_type e) (subject_id e)
                   (json_to_string (payload e)) (previous_hash e).
Proof.
  rewrite try_fold_app. intros ([h' m'] & Hevs & He)%bind_ok_inv. rewrite Hevs.
  rsimpl. apply bind_ok_inv in He as ([h'' m''] & He & [= <- <-]).
  unfold verify_event in He. res_inv. bool_prop. split_and!; [do 2 f_equal; [done|lia]|done|done].
Qed.

Lemma hash_not_genesis x : hex_encode x ≠ GENESIS_HASH.
Proof.
  intros H%(f_equal String.length). rewrite hex_encode_length in H.
  unfold GENESIS_HASH in H. simpl in H. lia.
Qed.

Lemma heads_commit evs1 evs2 h n1 n2 :
  Forall datable evs1 → Forall datable evs2 →
  try_fold verify_event (GENESIS_HASH, 0) evs1 = Ok (h, n1) →
  try_fold verify_event (GENESIS_HASH, 0) evs2 = Ok (h, n2) →
  Forall2 (λ e1 e2, sequence e1 = sequence e2 ∧ recorded_at e1 = recorded_at e2 ∧
     event_type e1 = event_type e2 ∧ subject_id e1 = subject_id e2 ∧
     json_to_string (payload e1) = json_to_string (payload e2)) evs1 evs2 ∨ sha256_collision.
Proof.
  intros H1. revert evs2 h n1 n2.
  induction evs1 as [|e1 evs1 IH] using rev_ind; intros evs2 h n1 n2 H2 V1 V2;
    destruct evs2 as [|e2 evs2 _] using rev_ind.
  1: by left.
  - apply verify_snoc in V2 as (_ & -> & E2). simplify_eq/=. rewrite E2 in *.
    exfalso. by eapply hash_not_genesis.
  - apply verify_snoc in V1 as (_ & -> & E1). simplify_eq/=. rewrite E1 in *.
    exfalso. by eapply hash_not_genesis.
  - apply verify_snoc in V1 as (V1 & -> & E1), V2 as (V2 & E & E2).
    apply Forall_app in H1 as [H1 [D1 _]%Forall_cons], H2 as [H2 [D2 _]%Forall_cons].
    rewrite E1, E2 in E. unfold calculate_hash in E. apply hex_encode_inj in E.
    destruct D1 as ([? ?] & ? & ?), D2 as ([? ?] & ? & ?).
    match type of E with sha256 ?x = sha256 ?y =>
      destruct (decide (x = y)) as [Heq|Hne]; [|right; by exists x, y] end.
    apply hash_input_inj in Heq as (Es & Et & Ety & Esid & Ev & Eph); [|done..].
    rewrite Eph in V1. destruct (IH H1 evs2 _ _ _ H2 V1 V2) as [Hall|]; [|by right].
    left. apply Forall2_app; [done|]. by repeat constructor.
Qed.

Lemma check_last_hash prev n rows evs h m :
  try_map decode_row rows = Ok evs → try_fold verify_event (prev, n) evs = Ok (h, m) →
  h = last_hash prev rows.
Proof.
  intros Hd Hf. apply try_map_ok in Hd. unfold last_hash.
  destruct rows as [|r rows _] using rev_ind.
  { inversion Hd; simplify_eq/=. done. }
  apply Forall2_app_inv_l in Hd as (evs1 & evs2 & _ & Hd & ->).
  inversion Hd as [|? e ? ? He Hnil]; simplify_eq. inversion Hnil; simplify_eq.
  apply verify_snoc in Hf as (_ & -> & _). rewrite last_snoc.
  unfold decode_row in He. by res_inv.
Qed.

Lemma verify_event_shift prev n e k :
  verify_event (prev, n + k) e = (λ '(h, m), (h, m + k)) <$> verify_event (prev, n) e.
Proof. unfold verify_event. repeat case_match; [done..|]. simpl. do 2 f_equal. lia. Qed.

Lemma verify_shift prev n evs k :
  try_fold verify_event (prev, n + k) evs =
    (λ '(h, m), (h, m + k)) <$> try_fold verify_event (prev, n) evs.
Proof.
  revert prev n. induction evs as [|e evs IH]; intros prev n; [done|].
  cbn [try_fold]. rewrite verify_event_shift.
  destruct (verify_event (prev, n) e) as [[h m]|]; [apply IH|done].
Qed.

(** Verifying [p ++ q] is verifying [p] and then [q] from the last hash of [p]. *)
Lemma check_rows_split prev p q r n :
  last p = Some r →
  (∃ n2, check_rows (prev, 0) p = Ok (row_event_hash r, n - n2) ∧
         ∃ h, check_rows (row_event_hash r, 0) q = Ok (h, n2)) ↔
  ∃ h, check_rows (prev, 0) (p ++ q) = Ok (h, n).
Proof.
  intros Hr. unfold check_rows. rewrite try_map_app.
  destruct (try_map decode_row p) as [ps|] eqn:Hp; rsimpl; [|naive_solver].
  destruct (try_map decode_row q) as [qs|] eqn:Hq; rsimpl; [|naive_solver].
  rewrite try_fold_app.
  destruct (try_fold verify_event (prev, 0) ps) as [[h1 m1]|] eqn:Hf; rsimpl; [|naive_solver].
  assert (h1 = row_event_hash r) as ->.
  { rewrite (check_last_hash _ _ _ _ _ _ Hp Hf). unfold last_hash. by rewrite Hr. }
  rewrite <-(Z.add_0_l m1), verify_shift.
  destruct (try_fold verify_event _ qs) as [[h2 m2]|]; rsimpl; [|naive_solver].
  split.
  - intros (n2 & [= ?] & h & [= -> ->]). exists h. do 2 f_equal. lia.
  - intros (h & [= -> <-]). exists m2. split; [do 2 f_equal; lia|eauto].
Qed.

(** What verification establishes of each event. *)
Definition sealed (e : LedgerEvent) : Prop :=
  event_hash e = calculate_hash (sequence e) (recorded_at e) (event_type e) (subject_id e)
                   (json_to_string (payload e)) (previous_hash e).

Lemma verify_sealed evs acc acc' : try_fold verify_event acc evs = Ok acc' → Forall sealed evs.
Proof.
  revert acc. induction evs as [|e evs IH]; intros [h n] H; [constructor|]. cbn [try_fold] in H.
  apply bind_ok_inv in H as ([h' n'] & He & H). constructor; [|by eapply IH].
  unfold verify_event in He. res_inv. bool_prop. unfold sealed. congruence.
Qed.

(** A row whose event verifies reads back as it was printed. *)
Lemma sealed_rereads now v seq prev r e :
  inscribed now v seq prev r → decode_row r = Ok e → sealed e →
  rereads (row_payload_json r) ∨ sha256_collision.
Proof.
  intros (Hnow & Hseq & Hat & Hv & Hprev & Hhash) Hdec Hs. unfold decode_row in Hdec.
  rewrite Hat, (rfc3339_roundtrip _ Hnow) in Hdec.
  destruct (json_from_str (row_payload_json r)) as [v'|] eqn:Hread; [|done]. injection Hdec as <-.
  unfold sealed in Hs. cbn in Hs. rewrite Hhash, Hprev, Hseq in Hs. apply hex_encode_inj in Hs.
  match type of Hs with sha256 ?x = sha256 ?y =>
    destruct (decide (x = y)) as [Heq|Hne]; [|right; by exists x, y] end.
  left. exists v'. split; [done|]. unfold hash_input in Heq.
  repeat (apply (inj (String.append _)) in Heq). unfold nul in Heq. cbn [String.append] in Heq.
  rewrite Hv. by apply app_inj_separator in Heq as [Heq _]; [|apply json_no_nul..].
Qed.

Lemma verified_rereads l n :
  penned l → verify l = Some (Ok n) →
  Forall (λ r, rereads (row_payload_json r)) (ledger_events l) ∨ sha256_collision.
Proof.
  intros (_ & Hasc & Hrows) Hv. unfold verify in Hv.
  destruct (verify_after_ok 0 GENESIS_HASH l) as (res & Hres & Hiff); [done|unfold i64_max; lia|].
  rewrite Hres in Hv. injection Hv as ->. destruct (proj1 (Hiff n) eq_refl) as [h Hc].
  rewrite (after_all 0) in Hc by (done || lia). unfold check_rows in Hc.
  apply bind_ok_inv in Hc as (evs & Hdec%try_map_ok & Hs%verify_sealed). clear Hiff Hasc Hres.
  revert Hrows Hs. induction Hdec as [|r e rows evs Hd _ IH]; intros Hrows Hs; [by left; constructor|].
  apply Forall_cons in Hrows as [(now & v & prev & Hr) Hrows], Hs as [He Hs].
  destruct (sealed_rereads _ _ _ _ _ _ Hr Hd He), (IH Hrows Hs); [left; by constructor|by right..].
Qed.

End binding.

(** ** Properties *)

Section properties.
Context {codec : Codec} {laws : CodecLaws codec}.

(** [C9] Whatever sequence of appends and epoch advances wrote a ledger, with any payloads and
    the clock in a year of four digits, [verify] accepts it and reports exactly the number of its
    events if every stored payload reads back as a value that prints as the same text; and if
    [verify] accepts it, every stored payload does, or two texts are a SHA-256 collision. *)
Theorem reachable_verifies l :
  written l →
  (Forall (λ r, rereads (row_payload_json r)) (ledger_events l) →
     verify l = Some (Ok (Z.of_nat (length (ledger_events l))))) ∧
  (∀ n, verify l = Some (Ok n) →
     Forall (λ r, rereads (row_payload_json r)) (ledger_events l) ∨ sha256_collision).
Proof.
  intros Hw. split; [intros Hr; by apply wf_verify, reachable_wf|].
  intros n Hv. eapply verified_rereads; [by apply written_penned|exact Hv].
Qed.

(** On any table in key order, tampered or not, the paged loop of [verify_after]
    terminates, and it accepts exactly when a single pass over the rows after the
    given sequence does, with the same count. *)
Theorem verify_after_is_one_pass a prev l :
  ascending 0 (ledger_events l) → 0 ≤ a ≤ i64_max →
  ∃ res, verify_after a prev l = Some res ∧
    ∀ n, res = Ok n ↔ ∃ h, check_rows (prev, 0) (after a (ledger_events l)) = Ok (h, n).
Proof. apply verify_after_ok. Qed.

(** [C36] The hash of the last event commits the whole history: of two tables in key order whose
    events have no NUL in their type or subject, a date in a year of four digits and a number
    that fits in u64, and which both pass [verify] and end in the same hash, the events agree
    one by one in number, date, type, subject and printed payload, or two texts are a SHA-256
    collision. *)
Theorem head_commits_history l1 l2 evs1 evs2 n1 n2 :
  ascending 0 (ledger_events l1) → ascending 0 (ledger_events l2) →
  try_map decode_row (ledger_events l1) = Ok evs1 →
  try_map decode_row (ledger_events l2) = Ok evs2 →
  Forall datable evs1 → Forall datable evs2 →
  verify l1 = Some (Ok n1) → verify l2 = Some (Ok n2) →
  last_hash GENESIS_HASH (ledger_events l1) = last_hash GENESIS_HASH (ledger_events l2) →
  Forall2 (λ e1 e2, sequence e1 = sequence e2 ∧ recorded_at e1 = recorded_at e2 ∧
     event_type e1 = event_type e2 ∧ subject_id e1 = subject_id e2 ∧
     json_to_string (payload e1) = json_to_string (payload e2)) evs1 evs2 ∨ sha256_collision.
Proof.
  intros A1 A2 D1 D2 P1 P2 V1 V2 Hh.
  assert (∀ l evs n, ascending 0 (ledger_events l) → try_map decode_row (ledger_events l) = Ok evs →
    verify l = Some (Ok n) →
    try_fold verify_event (GENESIS_HASH, 0) evs = Ok (last_hash GENESIS_HASH (ledger_events l), n))
    as Hfold; [|by eapply heads_commit; eauto; rewrite Hh; eauto].
  clear. intros l evs n Hasc Hdec Hv. unfold verify in Hv.
  destruct (verify_after_ok 0 GENESIS_HASH l) as (res & Hres & Hiff); [done|unfold i64_max; lia|].
  rewrite Hres in Hv. injection Hv as ->. destruct (proj1 (Hiff n) eq_refl) as [h Hc].
  rewrite (after_all 0) in Hc by (done || lia). unfold check_rows in Hc. rewrite Hdec in Hc. rsimpl.
  rewrite Hc. do 2 f_equal. by eapply check_last_hash.
Qed.

(** A signed checkpoint loses nothing: with the prefix up to row [r] verified, tail
    verification from [r]'s sequence and hash accepts exactly when full verification
    does, and the counts add up. *)
Theorem checkpoint_sound_complete l p q r n :
  ascending 0 (ledger_events l) → ledger_events l = p ++ q → last p = Some r →
  verify l = Some (Ok n) ↔
  ∃ n2, check_rows (GENESIS_HASH, 0) p = Ok (row_event_hash r, n - n2) ∧
        verify_after (row_sequence r) (row_event_hash r) l = Some (Ok n2).
Proof.
  intros Hasc Hpq Hr.
  assert (0 < row_sequence r ≤ i64_max) as Hseq.
  { eapply ascending_elem; [done|]. rewrite Hpq. apply elem_of_app. left.
    by apply last_Some_elem_of. }
  destruct (verify_after_ok 0 GENESIS_HASH l) as (res & Hres & Hiff); [done|lia|].
  destruct (verify_after_ok (row_sequence r) (row_event_hash r) l) as (res2 & Hres2 & Hiff2);
    [done|lia|].
  unfold verify. rewrite Hres, Hres2. rewrite (after_all 0) in Hiff by (done || lia).
  rewrite Hpq in *. rewrite (after_page 0) in Hiff2 by done.
  transitivity (res = Ok n); [naive_solver|]. rewrite Hiff.
  setoid_rewrite (inj_iff Some). setoid_rewrite Hiff2.
  rewrite <-(check_rows_split _ _ _ _ _ Hr). naive_solver.
Qed.

(** Advancing a fencing epoch adds exactly one, touches no other scope, never
    exceeds the SQLite integer range, and the newest evidence event of the scope records
    the very epoch that was committed. *)
Theorem advance_is_evidenced now scope l l' n :
  reachable l → four_digit_year now → advance_fencing_epoch now scope l = Ok (l', n) →
  n = current_fencing_epoch scope l + 1 ∧ current_fencing_epoch scope l' = n ∧ n ≤ i64_max ∧
  (∀ other, other ≠ scope → current_fencing_epoch other l' = current_fencing_epoch other l) ∧
  ∃ e, latest_event_for_subject_of_type scope EPOCH_EVENT l' = Ok (Some e) ∧
       payload e = epoch_payload n.
Proof.
  intros Hr Hnow Hadv. apply advance_spec in Hadv; [|by apply reachable_wf|done].
  destruct Hadv as (Hn & Hb & Hep & r & e & Hev & (Hdec & _) & _ & _ & Hty & Hs & _ & Hpay).
  unfold current_fencing_epoch. rewrite Hep. split_and!; [done| |lia| |].
  - by rewrite lookup_insert_eq.
  - intros other Hne. by rewrite lookup_insert_ne.
  - exists e. split; [|done]. unfold latest_event_for_subject_of_type, newest_one, newest.
    rewrite Hev. unfold of_type, of_subject. rewrite !filter_app.
    rewrite (filter_cons_True _ r), filter_nil by done.
    rewrite (filter_cons_True _ r), filter_nil by done.
    rewrite reverse_snoc. change (Z.to_nat 1) with 1%nat. cbn [take]. by rewrite Hdec.
Qed.

(** The newest-window query returns, in chronological order, the decoded last
    [min limit 10000] rows of the table. *)
Theorem latest_events_window limit l evs :
  latest_events limit l = Ok evs →
  try_map decode_row
    (drop (length (ledger_events l) - Z.to_nat (Z.min limit 10000)) (ledger_events l)) = Ok evs.
Proof.
  unfold latest_events, newest. intros (evs' & Hd & [= <-])%bind_ok_inv.
  apply try_map_ok in Hd. apply try_map_ok. apply Forall2_reverse in Hd.
  rewrite take_reverse, reverse_involutive in Hd. done.
Qed.

End properties.

(** ** The properties at a concrete ledger *)

Module Witness.
Import Reference.

Definition state_of {A} (r : result LedgerError (t * A)) : t :=
  match r with Ok (l, _) => l | Err _ => open end.
Definition demo1 : t := state_of (append 1 "node.enrolled" "node-1" VNull open).
Definition demo2 : t := state_of (advance_fencing_epoch 2 "controller" demo1).
Definition demo3 : t := state_of (advance_fencing_epoch 3 "controller" demo2).

Lemma early : ∀ t, 0 ≤ t < 10 → four_digit_year t.
Proof. unfold four_digit_year. lia. Qed.

Lemma step_demo1 : step open demo1.
Proof.
  destruct (append 1 "node.enrolled" "node-1" VNull open) as [[l e]|] eqn:E; [|by vm_compute in E].
  replace demo1 with l by (unfold demo1; by rewrite E).
  eapply step_append; [| |exact E]; [done|apply early; lia].
Qed.

Lemma step_demo2 : step demo1 demo2.
Proof.
  destruct (advance_fencing_epoch 2 "controller" demo1) as [[l e]|] eqn:E; [|by vm_compute in E].
  replace demo2 with l by (unfold demo2; by rewrite E).
  eapply step_advance; [|exact E]. apply early. lia.
Qed.

Lemma demo2_written : written demo2.
Proof. eapply rtc_l; [apply step_demo1|]. apply rtc_once, step_demo2. Qed.
Lemma demo2_rereads : Forall (λ r, rereads (row_payload_json r)) (ledger_events demo2).
Proof. repeat (constructor; [eexists; split; vm_compute; reflexivity|]). constructor. Qed.
Lemma demo2_reachable : reachable demo2.
Proof. split; [apply demo2_written|apply demo2_rereads]. Qed.

Lemma demo2_ascending : ascending 0 (ledger_events demo2).
Proof. eapply chained_ascending, wf_chain, reachable_wf, demo2_reachable. Qed.

Lemma reachable_verifies_witness : verify demo2 = Some (Ok 2).
Proof. exact (proj1 (reachable_verifies demo2 demo2_written) demo2_rereads). Defined.

Lemma verify_after_is_one_pass_witness :
  ∃ res, verify_after 1 "x" demo2 = Some res ∧
    ∀ n, res = Ok n ↔ ∃ h, check_rows ("x", 0) (after 1 (ledger_events demo2)) = Ok (h, n).
Proof. apply (verify_after_is_one_pass 1 "x" demo2); [apply demo2_ascending|unfold i64_max; lia]. Defined.

Definition demo2_events : list LedgerEvent :=
  match try_map decode_row (ledger_events demo2) with Ok evs => evs | Err _ => [] end.

Lemma demo2_decodes : try_map decode_row (ledger_events demo2) = Ok demo2_events.
Proof. vm_compute. reflexivity. Qed.

Lemma demo2_datable : Forall datable demo2_events.
Proof.
  apply (Forall_impl (λ e, event_type e ∈ ["node.enrolled"; EPOCH_EVENT] ∧
    subject_id e ∈ ["node-1"; "controller"] ∧ 0 ≤ recorded_at e < 10 ∧ 0 ≤ sequence e < 10)).
  - apply (bool_decide_unpack _). vm_compute. exact I.
  - intros e (Ht & Hs & Hr & Hq). split; [split|split].
    + revert Ht. rewrite list_elem_of_In. intros [<-|[<-|[]]]; apply (bool_decide_unpack _); vm_compute; exact I.
    + revert Hs. rewrite list_elem_of_In. intros [<-|[<-|[]]]; apply (bool_decide_unpack _); vm_compute; exact I.
    + by apply early.
    + unfold is_u64, u64_max. lia.
Qed.

(** Another database with these events: its counter has moved on and its epochs are lost. *)
Definition copied : t := mkLedger (ledger_events demo2) 9 ∅.

Lemma head_commits_history_witness :
  demo2 ≠ copied ∧
  (Forall2 (λ e1 e2, sequence e1 = sequence e2 ∧ recorded_at e1 = recorded_at e2 ∧
     event_type e1 = event_type e2 ∧ subject_id e1 = subject_id e2 ∧
     json_to_string (payload e1) = json_to_string (payload e2)) demo2_events demo2_events
  ∨ sha256_collision).
Proof.
  split; [by intros H%(f_equal sqlite_sequence)|].
  apply (head_commits_history demo2 copied demo2_events demo2_events 2 2);
    first [apply demo2_ascending | apply demo2_decodes | apply demo2_datable |
           vm_compute; reflexivity].
Defined.

Lemma checkpoint_sound_complete_witness :
  verify demo2 = Some (Ok 2) ↔
  ∃ n2, check_rows (GENESIS_HASH, 0) (take 1 (ledger_events demo2)) =
          Ok (last_hash "" (take 1 (ledger_events demo2)), 2 - n2) ∧
        verify_after 1 (last_hash "" (take 1 (ledger_events demo2))) demo2 = Some (Ok n2).
Proof.
  destruct (last (take 1 (ledger_events demo2))) as [r|] eqn:Hr; [|by vm_compute in Hr].
  assert (row_sequence r = 1 ∧ row_event_hash r = last_hash "" (take 1 (ledger_events demo2)))
    as [<- <-].
  { unfold last_hash. rewrite Hr. split; [|done]. vm_compute in Hr. by injection Hr as <-. }
  apply (checkpoint_sound_complete demo2 (take 1 (ledger_events demo2))
           (drop 1 (ledger_events demo2)) r 2);
    [apply demo2_ascending|by rewrite take_drop|done].
Defined.

Lemma advance_is_evidenced_witness : current_fencing_epoch "controller" demo3 = 2.
Proof.
  destruct (advance_fencing_epoch 3 "controller" demo2) as [[l n]|] eqn:E; [|by vm_compute in E].
  replace demo3 with l by (unfold demo3; by rewrite E).
  destruct (advance_is_evidenced 3 "controller" demo2 l n demo2_reachable) as (Hn & -> & _);
    [apply early; lia|exact E|]. rewrite Hn. vm_compute. reflexivity.
Defined.

Lemma latest_events_window_witness :
  try_map decode_row (drop 1 (ledger_events demo2)) = Ok (drop 1 demo2_events).
Proof. apply (latest_events_window 1 demo2). vm_compute. reflexivity. Defined.

End Witness.

End Ledger.
