(* ===== verification/Float.v ===== *)
(** * Binary64 numbers and the number syntax of the standard library

    [f64] is the specification float of precision 53 and exponent bound 1024, with
    the arithmetic, parsing, rounding and printing the worker adapters use: [parse]
    and [format!("{:.12}")] are correctly rounded, and [as u64] saturates. *)

From Stdlib Require Export SpecFloat.
From S2P Require Import Prelude.
From S2P Require Import Text.
From stdpp Require Import pretty.
Import Text.
#[local] Open Scope Z_scope.

(** ** Integer syntax *)

Definition digit (c : ascii) : option Z :=
  if is_ascii_digit (N_of_ascii c) then Some (Z.of_N (N_of_ascii c) - 48) else None.

(** The longest prefix of decimal digits: its value, its length and the rest. *)
Fixpoint take_digits (acc : Z) (count : nat) (s : string) : Z * nat * string :=
  match s with
  | String c s' =>
      match digit c with
      | Some d => take_digits (10 * acc + d) (S count) s'
      | None => (acc, count, s)
      end
  | "" => (acc, count, s)
  end.

(** [s.parse::<uN>()]: an optional plus sign, then digits only, within [max]. *)
Definition parse_unsigned (max : Z) (s : string) : option Z :=
  let body := match s with String "+" s' => s' | _ => s end in
  match take_digits 0 0 body with
  | (n, S _, "") => if n <=? max then Some n else None
  | _ => None
  end.

(** A printed number reads back. *)

Lemma digit_pretty n : (n < 10)%N → digit (pretty_N_char n) = Some (Z.of_N n).
Proof.
  intros Hn. assert (n = 0 ∨ n = 1 ∨ n = 2 ∨ n = 3 ∨ n = 4 ∨ n = 5 ∨ n = 6 ∨ n = 7 ∨ n = 8 ∨ n = 9)%N as H by lia.
  by repeat destruct H as [->|H]; [..|subst].
Qed.
Lemma take_digits_pretty n s : ∃ k, take_digits 0 0 (pretty_N_go n s) = take_digits (Z.of_N n) k s ∧ ((0 < n)%N → (0 < k)%nat).
Proof.
  revert s. induction (N.lt_wf_0 n) as [n _ IH]; intros s. assert (n = 0 ∨ 0 < n)%N as [->|Hn] by lia.
  - exists 0%nat. by rewrite pretty_N_go_0.
  - rewrite pretty_N_go_step by done. destruct (IH (n `div` 10)%N (N.div_lt n 10 Hn eq_refl) (String (pretty_N_char (n `mod` 10)) s))
      as (k & -> & _). exists (S k). split; [|lia]. cbn [take_digits]. rewrite digit_pretty by (apply N.mod_lt; done). f_equal.
    pose proof (N.div_mod n 10 ltac:(done)). lia.
Qed.
Lemma parse_pretty max n : 0 ≤ n ≤ max → parse_unsigned max (pretty n) = Some n.
Proof.
  intros Hn. assert (take_digits 0 0 (pretty n) = (n, 1%nat, "") ∨ ∃ k, take_digits 0 0 (pretty n) = (n, S k, "")) as Hdigits.
  { destruct n as [|p|p]; [by left| |lia]. right. change (pretty (Z.pos p)) with (pretty (N.pos p)). unfold pretty, pretty_N.
    rewrite decide_False by done. destruct (take_digits_pretty (N.pos p) "") as ([|k] & -> & Hk); [lia|]. by exists k. }
  assert (∃ k, take_digits 0 0 (pretty n) = (n, S k, "")) as (k & Hk) by (destruct Hdigits; eauto).
  unfold parse_unsigned. destruct (pretty n) as [|c s] eqn:E; [done|].
  assert (c ≠ "+"%char) as Hc by (intros ->; done).
  assert (match String c s with String "+" s' => s' | _ => String c s end = String c s) as ->.
  { destruct c as [[] [] [] [] [] [] [] []]; try done. }
  rewrite Hk, (proj2 (Z.leb_le n max)) by lia. done.
Qed.

Module F64.

Definition t : Set := spec_float.
Definition prec : Z := 53.
Definition emax : Z := 1024.

(** ** Arithmetic *)

(** [n as f64]. *)
Definition of_Z (n : Z) : t := binary_normalize prec emax n 0 false.
Definition add : t → t → t := SFadd prec emax.
Definition sub : t → t → t := SFsub prec emax.
Definition mul : t → t → t := SFmul prec emax.
Definition div : t → t → t := SFdiv prec emax.
(** [a.max(b)] for a [b] that is not a NaN. *)
Definition max (a b : t) : t := if SFltb a b then b else match a with S754_nan => b | _ => a end.
Definition abs : t → t := SFabs.
Definition is_finite (f : t) : bool :=
  match f with S754_zero _ | S754_finite _ _ _ => true | _ => false end.
(** [f.ceil()]. *)
Definition ceil (f : t) : t :=
  match f with
  | S754_finite s m e =>
      if 0 <=? e then f
      else
        let magnitude := if s then Z.shiftr (Z.pos m) (- e) else - Z.shiftr (- Z.pos m) (- e) in
        if magnitude =? 0 then S754_zero s
        else binary_normalize prec emax (if s then - magnitude else magnitude) 0 s
  | _ => f
  end.
(** [f as u64]: towards zero, saturating, and 0 for a NaN. *)
Definition as_u64 (f : t) : Z :=
  match f with
  | S754_zero _ | S754_nan | S754_finite true _ _ | S754_infinity true => 0
  | S754_infinity false => u64_max
  | S754_finite false m e =>
      Z.min u64_max (if 0 <=? e then Z.shiftl (Z.pos m) e else Z.shiftr (Z.pos m) (- e))
  end.
(** [f64::EPSILON], two to the power -52. *)
Definition EPSILON : t := S754_finite false 4503599627370496 (-104).

(** The IEEE 754 encoding, the representation of a JSON float. *)
Definition to_bits (f : t) : Z :=
  let sign (s : bool) := if s then Z.shiftl 1 63 else 0 in
  match f with
  | S754_zero s => sign s
  | S754_infinity s => sign s + Z.shiftl 2047 52
  | S754_nan => Z.shiftl 4095 51
  | S754_finite s m e =>
      sign s + (if Z.pos m <? Z.shiftl 1 52 then Z.pos m
                else Z.shiftl (e + 1075) 52 + (Z.pos m - Z.shiftl 1 52))
  end.
(** [f64::from_bits]. *)
Definition from_bits (bits : Z) : t :=
  let sign := Z.testbit bits 63 in
  let e := Z.land (Z.shiftr bits 52) 2047 in
  let m := Z.land bits (2 ^ 52 - 1) in
  if e =? 2047 then (if m =? 0 then S754_infinity sign else S754_nan)
  else if e =? 0
  then match m with Zpos p => S754_finite sign p (-1074) | _ => S754_zero sign end
  else match m + 2 ^ 52 with Zpos p => S754_finite sign p (e - 1075) | _ => S754_zero sign end.

(** [f.round() as u64]: half away from zero, then saturating. *)
Definition round_u64 (f : t) : Z :=
  match f with
  | S754_zero _ | S754_nan | S754_finite true _ _ | S754_infinity true => 0
  | S754_infinity false => u64_max
  | S754_finite false m e =>
      Z.min u64_max
        (if 0 <=? e then Z.shiftl (Z.pos m) e
         else Z.shiftr (Z.pos m + Z.shiftl 1 (- e - 1)) (- e))
  end.

(** ** Parsing *)

(** The binary64 number nearest to [m * 10 ^ e]. *)
Definition of_decimal (sign : bool) (m e : Z) : t :=
  match m with
  | Z.pos p =>
      if 0 <=? e
      then binary_round prec emax sign (p * Z.to_pos (10 ^ e)) 0
      else
        let '(q, x, l) := SFdiv_core_binary prec emax m 0 (10 ^ (- e)) 0 in
        binary_round_aux prec emax sign q x l
  | _ => S754_zero sign
  end.

(** The exponent part: [e] or [E], an optional sign and at least one digit. *)
Definition parse_exponent (s : string) : option Z :=
  match s with
  | "" => Some 0
  | String c s' =>
      if (c == "e"%char) || (c == "E"%char) then
        let '(negative, s'') :=
          match s' with
          | String "-" r => (true, r)
          | String "+" r => (false, r)
          | _ => (false, s')
          end in
        match take_digits 0 0 s'' with
        | (n, S _, "") => Some (if negative : bool then - n else n)
        | _ => None
        end
      else None
  end.

(** [s.parse::<f64>()]. *)
Definition parse (s : string) : option t :=
  let '(sign, body) :=
    match s with
    | String "-" r => (true, r)
    | String "+" r => (false, r)
    | _ => (false, s)
    end in
  let word := to_ascii_lowercase body in
  if (word == "inf") || (word == "infinity") then Some (S754_infinity sign)
  else if word == "nan" then Some S754_nan
  else
    let '(whole, n1, rest) := take_digits 0 0 body in
    let '(mantissa, n2, rest') :=
      match rest with
      | String "." r => take_digits whole 0 r
      | _ => (whole, O, rest)
      end in
    if (n1 + n2 =? 0)%nat then None
    else
      e ← parse_exponent rest';
      Some (of_decimal sign mantissa (e - Z.of_nat n2)).

(** ** Printing *)

(** Division rounded to nearest, ties to even. *)
Definition div_nearest (a b : Z) : Z :=
  let q := a / b in
  let r := a mod b in
  if 2 * r <? b then q else if b <? 2 * r then q + 1 else if Z.even q then q else q + 1.

Fixpoint zeros (n : nat) : string := match n with O => "" | S n => String "0" (zeros n) end.

(** [format!("{:.digits$}", f)] for a positive number of digits. *)
Definition to_fixed (digits : nat) (f : t) : string :=
  let minus (s : bool) := if s then "-" else "" in
  let print (s : bool) (scaled : Z) :=
    let unit := 10 ^ Z.of_nat digits in
    let fraction := pretty (scaled mod unit) in
    minus s +:+ pretty (scaled / unit) +:+ "." +:+
      zeros (digits - String.length fraction) +:+ fraction in
  match f with
  | S754_nan => "NaN"
  | S754_infinity s => minus s +:+ "inf"
  | S754_zero s => print s 0
  | S754_finite s m e =>
      let scaled := Z.pos m * 10 ^ Z.of_nat digits in
      print s (if 0 <=? e then Z.shiftl scaled e else div_nearest scaled (Z.shiftl 1 (- e)))
  end.

(** ** Examples *)

Example parse_tenth : to_bits <$> parse "0.1" = Some 4591870180066957722.
Proof. vm_compute. reflexivity. Qed.
Example parse_forms :
  (λ s, to_bits <$> parse s) <$> ["1"; "+1."; ".5e1"; "5E0"; "-0"; "1e400"; "4.9e-324"; "."; ""; "1e"] =
  [Some 4607182418800017408; Some 4607182418800017408; Some 4617315517961601024;
   Some 4617315517961601024; Some 9223372036854775808; Some 9218868437227405312; Some 1;
   None; None; None].
Proof. vm_compute. reflexivity. Qed.
Example print_third : to_fixed 12 (div (of_Z 10) (of_Z 3)) = "3.333333333333".
Proof. vm_compute. reflexivity. Qed.
Example print_tie : to_fixed 1 (div (of_Z 1) (of_Z 4)) = "0.2".
Proof. vm_compute. reflexivity. Qed.
Example ceilings :
  as_u64 <$> (ceil <$> [div (of_Z 10) (of_Z 4); of_Z 7; div (of_Z (-1)) (of_Z 2); div (of_Z 1) (of_Z 10)]) = [3; 7; 0; 1].
Proof. vm_compute. reflexivity. Qed.
Example from_bits_values :
  (λ f, from_bits (to_bits f)) <$> [EPSILON; of_Z 0; of_Z (-7); div (of_Z 1) (of_Z 3); S754_infinity true] =
  [EPSILON; of_Z 0; of_Z (-7); div (of_Z 1) (of_Z 3); S754_infinity true].
Proof. vm_compute. reflexivity. Qed.
Example epsilon_bits : to_bits EPSILON = 4372995238176751616.
Proof. vm_compute. reflexivity. Qed.
Example rounding : round_u64 <$> [div (of_Z 5) (of_Z 2); of_Z (2 ^ 70); of_Z (-3)] = [3; u64_max; 0].
Proof. vm_compute. reflexivity. Qed.

End F64.
