(* ===== verification/Economics.v ===== *)
(** * Compute dividends, break-even planning and the network autopilot

    The measured-throughput contracts of rampage-protocol ([FabricBenchmarkResultV1] and the
    break-even and autopilot types) and the two planners of crates/rampage-controller/src/lib.rs
    that read them, in binary64 arithmetic. *)

From S2P Require Import Prelude.
From S2P Require Import Text.
From S2P Require Import Float.
From S2P Require Import Contracts.
From S2P Require Import Scheduler.
From stdpp Require Import pretty.
Import Text.
#[local] Open Scope Z_scope.

(** [a as f64 / b as f64] and decimal literals. *)
Definition ratio (a b : Z) : F64.t := F64.div (F64.of_Z a) (F64.of_Z b).
Definition lit (m e : Z) : F64.t := F64.of_decimal false m e.
Definition one : F64.t := F64.of_Z 1.
Definition hundred : F64.t := F64.of_Z 100.

Module FabricBenchmarkNodeV1.
Record t := mk {
  job_id : Uuid; node_id : Uuid; name : string; receipt_id : Uuid; lanes : Z; total_hashes : Z;
  elapsed_ms : F64.t; hashes_per_second : Z; result_digest : string
}.
(** What the loop refuses a node for, duplicates apart. *)
Definition malformed (node : t) : bool :=
  (job_id node == nil_uuid) || (node_id node == nil_uuid) || (receipt_id node == nil_uuid)
  || blank (name node) || (80 <? len (name node)) || any_control (name node)
  || (lanes node =? 0) || (total_hashes node =? 0)
  || negb (F64.is_finite (elapsed_ms node)) || SFleb (elapsed_ms node) (F64.of_Z 0)
  || (hashes_per_second node =? 0) || negb (is_sha256_digest (result_digest node)).
End FabricBenchmarkNodeV1.

Definition approximately_equal (actual expected : F64.t) : bool :=
  F64.is_finite actual && F64.is_finite expected
  && SFleb (F64.abs (F64.sub actual expected))
       (F64.mul (F64.max (F64.abs expected) one) (lit 1 (-9))).

Module FabricBenchmarkResultV1.
Record t := mk {
  schema : string; set_id : Uuid; status : string; nodes : list FabricBenchmarkNodeV1.t;
  fabric_hashes_per_second : Z; fastest_node_hashes_per_second : Z;
  effective_scale_over_fastest_node : F64.t; verified_extra_capacity_percent : F64.t;
  estimated_time_saved_percent : F64.t; time_returned_hours_per_100 : F64.t;
  proof_basis : string; applicability : string; all_results_signed : bool
}.
Definition SCHEMA : string := "rampage.fabric-benchmark-result.v1".
Definition PROOF_BASIS : string := "concurrent_signed_sustained_cpu_receipts".
Definition APPLICABILITY : string := "matching_fully_divisible_cpu_work_only".

(** The loop over the nodes: the identifiers seen, and the total and fastest rate. *)
Fixpoint tally (jobs ids receipts : list Uuid) (total fastest : Z) (nodes : list FabricBenchmarkNodeV1.t)
    : option (Z * Z) :=
  match nodes with
  | [] => Some (total, fastest)
  | node :: nodes =>
      if FabricBenchmarkNodeV1.malformed node
         || bool_decide (FabricBenchmarkNodeV1.job_id node ∈ jobs)
         || bool_decide (FabricBenchmarkNodeV1.node_id node ∈ ids)
         || bool_decide (FabricBenchmarkNodeV1.receipt_id node ∈ receipts)
      then None
      else
        tally (FabricBenchmarkNodeV1.job_id node :: jobs) (FabricBenchmarkNodeV1.node_id node :: ids)
          (FabricBenchmarkNodeV1.receipt_id node :: receipts)
          (sat_add total (FabricBenchmarkNodeV1.hashes_per_second node))
          (Z.max fastest (FabricBenchmarkNodeV1.hashes_per_second node)) nodes
  end.

Definition is_internally_consistent (self : t) : bool :=
  if (schema self != SCHEMA) || (set_id self == nil_uuid) || (status self != "succeeded")
     || no_elems (nodes self) || (MAX_SHARDS_PER_SET <? zlen (nodes self))
     || (fabric_hashes_per_second self =? 0) || (fastest_node_hashes_per_second self =? 0)
     || (proof_basis self != PROOF_BASIS) || (applicability self != APPLICABILITY)
     || negb (all_results_signed self)
  then false
  else
    match tally [] [] [] 0 0 (nodes self) with
    | None => false
    | Some (total_rate, fastest_rate) =>
        let expected_scale := ratio total_rate (Z.max fastest_rate 1) in
        let expected_extra := F64.mul (F64.max (F64.sub expected_scale one) (F64.of_Z 0)) hundred in
        let expected_saved :=
          F64.mul (F64.max (F64.sub one (F64.div one expected_scale)) (F64.of_Z 0)) hundred in
        (total_rate =? fabric_hashes_per_second self)
        && (fastest_rate =? fastest_node_hashes_per_second self)
        && approximately_equal (effective_scale_over_fastest_node self) expected_scale
        && approximately_equal (verified_extra_capacity_percent self) expected_extra
        && approximately_equal (estimated_time_saved_percent self) expected_saved
        && approximately_equal (time_returned_hours_per_100 self) expected_saved
    end.
End FabricBenchmarkResultV1.

Module FabricDividendRecordV1.
Record t := mk {
  schema : string; ledger_sequence : Z; recorded_at : DateTime; result : FabricBenchmarkResultV1.t;
  previous_effective_scale : option F64.t; scale_change_percent : option F64.t
}.
Definition SCHEMA : string := "rampage.fabric-dividend-record.v1".
End FabricDividendRecordV1.

Module WorkloadClassV1.
Inductive t : Set := InteractiveAi | BatchAi | BuildTest | RenderTranscode | ArtifactMovement.
#[global] Instance eq_dec : EqDecision t.
Proof. solve_decision. Defined.
End WorkloadClassV1.

Module BreakEvenRequestV1.
Record t := mk {
  schema : string; workload_class : WorkloadClassV1.t; fastest_node_compute_ms : Z; input_bytes : Z;
  output_bytes : Z; startup_ms : Z; restart_tolerant : bool; minimum_gain_percent : F64.t
}.
Definition SCHEMA : string := "rampage.break-even-request.v1".
Definition is_valid (self : t) : bool :=
  (schema self == SCHEMA)
  && (0 <? fastest_node_compute_ms self) && (fastest_node_compute_ms self <=? 7 * 24 * 60 * 60 * 1000)
  && (input_bytes self <=? MAX_MODEL_SESSION_BYTES) && (output_bytes self <=? MAX_MODEL_SESSION_BYTES)
  && (startup_ms self <=? 60 * 60 * 1000)
  && F64.is_finite (minimum_gain_percent self)
  && SFleb (F64.of_Z 0) (minimum_gain_percent self) && SFleb (minimum_gain_percent self) (F64.of_Z 90).
End BreakEvenRequestV1.

Module BreakEvenDecisionV1.
Inductive t : Set := UseFabric | StayOnFastestNode | InsufficientEvidence.
End BreakEvenDecisionV1.

Module BreakEvenPlanV1.
Record t := mk {
  schema : string; decision : BreakEvenDecisionV1.t; workload_class : WorkloadClassV1.t;
  baseline_node_id : option Uuid; selected_node_ids : list Uuid; p90_baseline_ms : Z;
  p90_fabric_ms : option Z; estimated_gain_percent : option F64.t; required_gain_percent : F64.t;
  evidence_set_id : option Uuid; evidence_age_seconds : option Z; topology_confidence : string;
  reason : string; claim_boundary : string
}.
Definition SCHEMA : string := "rampage.break-even-plan.v1".
Definition CLAIM_BOUNDARY : string :=
  "projection_for_matching_divisible_cpu_work_not_a_general_speed_guarantee".
End BreakEvenPlanV1.

Module NetworkPathKindV1.
Inductive t : Set :=
  ControllerLocal | DirectMeasured | OwnerRelayMeasured | DirectCandidate | OwnerRelayBootstrap | Recovering.
#[global] Instance eq_dec : EqDecision t.
Proof. solve_decision. Defined.
End NetworkPathKindV1.

Module TrafficClassV1.
Inductive t : Set := AuthorityControl | InteractiveAi | RemoteMedia | Artifact | BulkBackground.
#[global] Instance eq_dec : EqDecision t.
Proof. solve_decision. Defined.
End TrafficClassV1.

Module TrafficAdmissionV1.
Record t := mk { traffic_class : TrafficClassV1.t; admitted : bool; reason : string }.
End TrafficAdmissionV1.

Module NetworkNodeAutopilotV1.
Record t := mk {
  node_id : Uuid; preferred_path : NetworkPathKindV1.t; evidence : string; direct_candidates : Z;
  owner_relays : Z; rtt_millis_p50 : option F64.t; uplink_mbps : option F64.t;
  downlink_mbps : option F64.t; link_expires_at : option DateTime; traffic : list TrafficAdmissionV1.t
}.
End NetworkNodeAutopilotV1.

Module NetworkAutopilotStatusV1.
Record t := mk {
  schema : string; generated_at : DateTime; mode : string; nodes : list NetworkNodeAutopilotV1.t;
  policy : string
}.
Definition SCHEMA : string := "rampage.network-autopilot-status.v1".
Definition POLICY : string := "authority_first_then_measured_interactive_and_bulk_admission".
End NetworkAutopilotStatusV1.

(** ** Break-even planning *)

Section break_even.
Implicit Types (request : BreakEvenRequestV1.t) (offer : ResourceOfferV1.t) (link : LinkBenchmarkV1.t).

Definition conservative_baseline_ms request : Z :=
  F64.as_u64 (F64.max (F64.ceil
    (F64.add (F64.mul (F64.of_Z (BreakEvenRequestV1.fastest_node_compute_ms request)) (lit 12 (-1)))
       (F64.mul (F64.of_Z (BreakEvenRequestV1.startup_ms request)) (lit 11 (-1))))) one).

Definition transfer_millis (bytes bits_per_second : Z) : Z :=
  div_ceil (sat_mul (sat_mul bytes 8) 1000) (Z.max bits_per_second 1).

Definition default_minimum_gain (class : WorkloadClassV1.t) : F64.t :=
  F64.of_Z match class with
           | WorkloadClassV1.InteractiveAi => 20
           | WorkloadClassV1.BatchAi => 10
           | WorkloadClassV1.BuildTest => 12
           | WorkloadClassV1.RenderTranscode => 8
           | WorkloadClassV1.ArtifactMovement => 5
           end.

(** The factors for compute, startup, network and retry. *)
Definition p90_factors (class : WorkloadClassV1.t) : F64.t * F64.t * F64.t * F64.t :=
  match class with
  | WorkloadClassV1.InteractiveAi => (lit 125 (-2), lit 16 (-1), lit 20 (-1), lit 10 (-2))
  | WorkloadClassV1.BatchAi => (lit 12 (-1), lit 14 (-1), lit 16 (-1), lit 8 (-2))
  | WorkloadClassV1.BuildTest => (lit 12 (-1), lit 135 (-2), lit 15 (-1), lit 8 (-2))
  | WorkloadClassV1.RenderTranscode => (lit 12 (-1), lit 13 (-1), lit 14 (-1), lit 6 (-2))
  | WorkloadClassV1.ArtifactMovement => (lit 12 (-1), lit 13 (-1), lit 14 (-1), lit 6 (-2))
  end.

(** A benchmark that is fresh and measured something. *)
Definition usable_link (now : DateTime) link : bool :=
  (now <? LinkBenchmarkV1.expires_at link) && (0 <? LinkBenchmarkV1.rtt_micros_p50 link)
  && (0 <? LinkBenchmarkV1.uplink_bps link) && (0 <? LinkBenchmarkV1.downlink_bps link).
Definition fresh_link (now : DateTime) offer : option LinkBenchmarkV1.t :=
  match ResourceOfferV1.link_benchmark offer with
  | Some link => if usable_link now link then Some link else None
  | None => None
  end.

(** [offers.iter().filter(fresh).collect::<HashMap<_, _>>()]: the last offer of a node. *)
Definition offers_by_node (now : DateTime) (offers : list ResourceOfferV1.t) : gmap Uuid ResourceOfferV1.t :=
  foldl (λ m offer, if now <? ResourceOfferV1.expires_at offer
                    then <[ResourceOfferV1.node_id offer := offer]> m else m) ∅ offers.

(** The time one participant needs for its inputs, outputs and two round trips; an error is
    the reason the plan gives. *)
Definition node_transfer request (now : DateTime) (by_node : gmap Uuid ResourceOfferV1.t) (worst : Z)
    (node : FabricBenchmarkNodeV1.t) : result string Z :=
  match by_node !! FabricBenchmarkNodeV1.node_id node with
  | None =>
      Err (FabricBenchmarkNodeV1.name node
           +:+ " no longer has a fresh signed resource offer; the measured topology changed.")
  | Some offer =>
      if is_none (ResourceOfferV1.mesh_endpoint offer) then Ok worst
      else
        match fresh_link now offer with
        | None =>
            Err (FabricBenchmarkNodeV1.name node
                 +:+ " lacks a fresh signed link benchmark; unknown topology cannot justify distribution.")
        | Some link =>
            let input_ms :=
              transfer_millis (BreakEvenRequestV1.input_bytes request) (LinkBenchmarkV1.downlink_bps link) in
            let output_ms :=
              transfer_millis (BreakEvenRequestV1.output_bytes request) (LinkBenchmarkV1.uplink_bps link) in
            let round_trips_ms := sat_mul (div_ceil (LinkBenchmarkV1.rtt_micros_p50 link) 1000) 2 in
            Ok (Z.max worst (sat_add (sat_add input_ms output_ms) round_trips_ms))
        end
  end.

Definition p90_fabric request (scale : F64.t) (max_transfer_ms : Z) : Z :=
  let '(compute_factor, startup_factor, network_factor, retry_factor) :=
    p90_factors (BreakEvenRequestV1.workload_class request) in
  let distributed_compute_ms := F64.div (F64.of_Z (BreakEvenRequestV1.fastest_node_compute_ms request)) scale in
  let before_retry :=
    F64.add (F64.add (F64.mul distributed_compute_ms compute_factor)
               (F64.mul (F64.of_Z (BreakEvenRequestV1.startup_ms request)) startup_factor))
      (F64.mul (F64.of_Z max_transfer_ms) network_factor) in
  F64.as_u64 (F64.max (F64.ceil (F64.mul before_retry (F64.add one retry_factor))) one).

Definition required_gain request : F64.t :=
  F64.max (BreakEvenRequestV1.minimum_gain_percent request)
    (default_minimum_gain (BreakEvenRequestV1.workload_class request)).

(** A plan without a projection: what is known of the evidence and the baseline so far. *)
Definition no_projection request (decision : BreakEvenDecisionV1.t) (evidence : option (Uuid * Z))
    (baseline : option Uuid) (selected : list Uuid) (confidence reason : string) : BreakEvenPlanV1.t :=
  BreakEvenPlanV1.mk BreakEvenPlanV1.SCHEMA decision (BreakEvenRequestV1.workload_class request) baseline
    selected (conservative_baseline_ms request) None None (required_gain request) (fst <$> evidence)
    (snd <$> evidence) confidence reason BreakEvenPlanV1.CLAIM_BOUNDARY.
Definition insufficient request (evidence : option (Uuid * Z)) (baseline : option Uuid) (reason : string) :=
  no_projection request BreakEvenDecisionV1.InsufficientEvidence evidence baseline [] "insufficient" reason.

Definition no_dividend : string :=
  "No recent signed Compute Dividend is available; run the sustained benchmark first.".

Definition project request (evidence : Uuid * Z) (dividend : FabricBenchmarkResultV1.t)
    (baseline : FabricBenchmarkNodeV1.t) (max_transfer_ms : Z) : BreakEvenPlanV1.t :=
  let p90_baseline_ms := conservative_baseline_ms request in
  let p90_fabric_ms :=
    p90_fabric request (FabricBenchmarkResultV1.effective_scale_over_fastest_node dividend) max_transfer_ms in
  let gain := F64.mul (F64.sub one (ratio p90_fabric_ms (Z.max p90_baseline_ms 1))) hundred in
  let required := required_gain request in
  let plan decision selected reason :=
    BreakEvenPlanV1.mk BreakEvenPlanV1.SCHEMA decision (BreakEvenRequestV1.workload_class request)
      (Some (FabricBenchmarkNodeV1.node_id baseline)) selected p90_baseline_ms (Some p90_fabric_ms)
      (Some gain) required (Some evidence.1) (Some evidence.2)
      "fresh_signed_compute_and_link_evidence" reason BreakEvenPlanV1.CLAIM_BOUNDARY in
  if SFleb required gain && (p90_fabric_ms <? p90_baseline_ms)
  then
    plan BreakEvenDecisionV1.UseFabric
      (FabricBenchmarkNodeV1.node_id <$> FabricBenchmarkResultV1.nodes dividend)
      ("Conservative p90 clears the " +:+ F64.to_fixed 1 required +:+ "% gain threshold with "
         +:+ F64.to_fixed 1 gain +:+ "% projected headroom.")
  else
    plan BreakEvenDecisionV1.StayOnFastestNode [FabricBenchmarkNodeV1.node_id baseline]
      ("Distribution projects " +:+ F64.to_fixed 1 gain +:+ "% gain, below the "
         +:+ F64.to_fixed 1 required +:+ "% safety threshold; stay on the fastest node.").

Definition plan_break_even request (dividend : option (FabricBenchmarkResultV1.t * DateTime))
    (offers : list ResourceOfferV1.t) (now : DateTime) : BreakEvenPlanV1.t :=
  if negb (BreakEvenRequestV1.is_valid request)
  then insufficient request None None "The break-even request is outside its bounded planning contract."
  else if BreakEvenRequestV1.workload_class request == WorkloadClassV1.ArtifactMovement
  then insufficient request None None
         "Artifact movement is network-bound and cannot use a CPU dividend as performance evidence."
  else if negb (BreakEvenRequestV1.restart_tolerant request)
  then insufficient request None None
         "This workload is not restart tolerant, so automatic multi-node execution is fenced."
  else
    match dividend with
    | None => insufficient request None None no_dividend
    | Some (dividend, recorded_at) =>
        if negb (FabricBenchmarkResultV1.is_internally_consistent dividend)
        then insufficient request None None "The latest Compute Dividend failed contract validation."
        else
          let evidence_age := Z.max 0 (num_seconds (now - recorded_at)) in
          let evidence := (FabricBenchmarkResultV1.set_id dividend, evidence_age) in
          if 24 * 60 * 60 <? evidence_age
          then insufficient request (Some evidence) None
                 "The latest Compute Dividend is older than 24 hours; remeasure before changing placement."
          else
            let nodes := FabricBenchmarkResultV1.nodes dividend in
            match Scheduler.max_by_key (λ node, [FabricBenchmarkNodeV1.hashes_per_second node]) nodes with
            | None => insufficient request (Some evidence) None no_dividend
            | Some baseline =>
                let baseline_id := FabricBenchmarkNodeV1.node_id baseline in
                if zlen nodes <? 2
                then no_projection request BreakEvenDecisionV1.StayOnFastestNode (Some evidence)
                       (Some baseline_id) [baseline_id] "measured_single_node"
                       "Only one node contributed verified work, so there is no measured fabric gain to use."
                else
                  match try_fold (node_transfer request now (offers_by_node now offers)) 0 nodes with
                  | Err reason => insufficient request (Some evidence) (Some baseline_id) reason
                  | Ok max_transfer_ms => project request evidence dividend baseline max_transfer_ms
                  end
            end
    end.
End break_even.

(** ** Network autopilot *)

Section autopilot.
Implicit Types (offer : ResourceOfferV1.t) (link : LinkBenchmarkV1.t).

(** The bounds a class asks of a measured link. *)
Definition class_bounds (class : TrafficClassV1.t) (rtt_ms up_mbps down_mbps : F64.t) : bool * string :=
  let at_most (a : F64.t) (n : Z) := SFleb a (F64.of_Z n) in
  let at_least (a : F64.t) (n : Z) := SFleb (F64.of_Z n) a in
  match class with
  | TrafficClassV1.AuthorityControl => (false, "")
  | TrafficClassV1.InteractiveAi =>
      (at_most rtt_ms 75 && at_least up_mbps 2 && at_least down_mbps 10,
       "requires p50 RTT <= 75 ms, uplink >= 2 Mbps, and downlink >= 10 Mbps")
  | TrafficClassV1.RemoteMedia =>
      (at_most rtt_ms 50 && at_least up_mbps 10 && at_least down_mbps 5,
       "requires p50 RTT <= 50 ms, uplink >= 10 Mbps, and downlink >= 5 Mbps")
  | TrafficClassV1.Artifact =>
      (at_least up_mbps 5 && at_least down_mbps 5, "requires bidirectional throughput >= 5 Mbps")
  | TrafficClassV1.BulkBackground =>
      (at_least up_mbps 20 && at_least down_mbps 20, "requires bidirectional throughput >= 20 Mbps")
  end.

Definition admit_traffic (class : TrafficClassV1.t) (path : NetworkPathKindV1.t)
    (link : option LinkBenchmarkV1.t) (has_candidate : bool) : TrafficAdmissionV1.t :=
  if path == NetworkPathKindV1.ControllerLocal
  then TrafficAdmissionV1.mk class true "controller-local path"
  else if class == TrafficClassV1.AuthorityControl
  then TrafficAdmissionV1.mk class has_candidate
         (if has_candidate then "bounded authority traffic may use any authenticated candidate"
          else "no authenticated path candidate")
  else
    match link with
    | None => TrafficAdmissionV1.mk class false "performance traffic waits for a fresh signed link benchmark"
    | Some link =>
        let '(admitted, reason) :=
          class_bounds class (ratio (LinkBenchmarkV1.rtt_micros_p50 link) 1000)
            (ratio (LinkBenchmarkV1.uplink_bps link) 1000000)
            (ratio (LinkBenchmarkV1.downlink_bps link) 1000000) in
        TrafficAdmissionV1.mk class admitted reason
    end.

Definition preferred_path offer (link : option LinkBenchmarkV1.t) (direct_candidates owner_relays : Z)
    : NetworkPathKindV1.t * string :=
  let observed path := is_some_and (λ link, LinkBenchmarkV1.observed_path link == Some path) link in
  if is_none (ResourceOfferV1.mesh_endpoint offer)
  then (NetworkPathKindV1.ControllerLocal, "controller-local offer; no network hop required")
  else if observed ObservedLinkPathV1.Direct
  then (NetworkPathKindV1.DirectMeasured,
        "transport reports an active direct path and the end-to-end benchmark is fresh")
  else if observed ObservedLinkPathV1.OwnerRelay
  then (NetworkPathKindV1.OwnerRelayMeasured,
        "transport reports an active owner relay path and the end-to-end benchmark is fresh")
  else if is_some link && (0 <? direct_candidates)
  then (NetworkPathKindV1.DirectCandidate, "fresh signed link benchmark and signed direct candidate")
  else if 0 <? owner_relays
  then (NetworkPathKindV1.OwnerRelayBootstrap,
        "owner-operated relay retained while direct-path evidence is unavailable")
  else (NetworkPathKindV1.Recovering,
        "signed endpoint exists but no fresh measured path or owner relay is available").

Definition traffic_classes : list TrafficClassV1.t :=
  [TrafficClassV1.AuthorityControl; TrafficClassV1.InteractiveAi; TrafficClassV1.RemoteMedia;
   TrafficClassV1.Artifact; TrafficClassV1.BulkBackground].

Definition node_status (now : DateTime) offer : NetworkNodeAutopilotV1.t :=
  let routes f := match ResourceOfferV1.mesh_endpoint offer with Some e => zlen (f e) | None => 0 end in
  let direct_candidates := routes MeshEndpointRecordV1.direct_addresses in
  let owner_relays := routes MeshEndpointRecordV1.relay_urls in
  let link := fresh_link now offer in
  let '(path, evidence) := preferred_path offer link direct_candidates owner_relays in
  NetworkNodeAutopilotV1.mk (ResourceOfferV1.node_id offer) path evidence direct_candidates owner_relays
    ((λ link, ratio (LinkBenchmarkV1.rtt_micros_p50 link) 1000) <$> link)
    ((λ link, ratio (LinkBenchmarkV1.uplink_bps link) 1000000) <$> link)
    ((λ link, ratio (LinkBenchmarkV1.downlink_bps link) 1000000) <$> link)
    (LinkBenchmarkV1.expires_at <$> link)
    ((λ class, admit_traffic class path link (0 <? direct_candidates + owner_relays)) <$> traffic_classes).

Definition by_node_id : relation NetworkNodeAutopilotV1.t := λ x y,
  NetworkNodeAutopilotV1.node_id x ≤ NetworkNodeAutopilotV1.node_id y.
#[global] Instance by_node_id_dec : RelDecision by_node_id.
Proof. intros x y. unfold by_node_id. apply _. Defined.

Definition network_autopilot_status (offers : list ResourceOfferV1.t) (now : DateTime)
    : NetworkAutopilotStatusV1.t :=
  NetworkAutopilotStatusV1.mk NetworkAutopilotStatusV1.SCHEMA now "automatic_evidence_gated"
    (merge_sort by_node_id
       (node_status now <$> List.filter (λ offer, now <? ResourceOfferV1.expires_at offer) offers))
    NetworkAutopilotStatusV1.POLICY.
End autopilot.
