(* ===== verification/EconomicsFacts.v ===== *)
(** * Facts about dividends, break-even plans and the autopilot

    What a consistent dividend says about its nodes, what a plan that uses the fabric rests
    on, and what performance traffic waits for. *)

From S2P Require Import Prelude.
From S2P Require Import Text.
From S2P Require Import Float.
From S2P Require Import Contracts.
From S2P Require Import Scheduler.
From S2P Require Import Economics.

(** ** Dividends *)

Module ResultFacts.
Import FabricBenchmarkResultV1.

(** The loop accepts exactly the well-formed nodes with identifiers of their own, and sums
    their rates, saturating. *)
Lemma tally_some jobs ids receipts total fastest nodes r :
  tally jobs ids receipts total fastest nodes = Some r ↔
  Forall (λ node, FabricBenchmarkNodeV1.malformed node = false ∧
                  FabricBenchmarkNodeV1.job_id node ∉ jobs ∧ FabricBenchmarkNodeV1.node_id node ∉ ids ∧
                  FabricBenchmarkNodeV1.receipt_id node ∉ receipts) nodes ∧
  NoDup (FabricBenchmarkNodeV1.job_id <$> nodes) ∧ NoDup (FabricBenchmarkNodeV1.node_id <$> nodes) ∧
  NoDup (FabricBenchmarkNodeV1.receipt_id <$> nodes) ∧
  r = (foldl sat_add total (FabricBenchmarkNodeV1.hashes_per_second <$> nodes),
       foldl Z.max fastest (FabricBenchmarkNodeV1.hashes_per_second <$> nodes)).
Proof.
  revert jobs ids receipts total fastest. induction nodes as [|node nodes IH]; intros jobs ids receipts total fastest.
  - cbn. split; [intros [= <-]; repeat constructor|]. by intros (_ & _ & _ & _ & ->).
  - cbn [tally fmap list_fmap foldl]. rewrite !NoDup_cons, Forall_cons.
    destruct (FabricBenchmarkNodeV1.malformed node); [naive_solver|]. cbn [orb].
    do 3 (case_bool_decide; cbn [orb]; [naive_solver|]).
    rewrite IH. setoid_rewrite not_elem_of_cons. rewrite !list_elem_of_fmap, !Forall_forall. split.
    + intros (Hall & Hj & Hn & Hr & ->). repeat split; try done; try naive_solver.
    + intros [[? Hall] [[? ?] [[? ?] [[? ?] ->]]]]. repeat split; try done; try naive_solver.
Qed.

Lemma foldl_max_elem acc l x : acc ≤ foldl Z.max acc l ∧ (x ∈ l → x ≤ foldl Z.max acc l).
Proof.
  revert acc. induction l as [|y l IH]; intros acc; cbn [foldl].
  - split; [lia|]. by intros ?%not_elem_of_nil.
  - destruct (IH (Z.max acc y)) as [Ha Hx]. split; [lia|]. intros [->|?]%elem_of_cons; [lia|auto].
Qed.

(** A dividend that passes its own check cannot exaggerate: every node is well formed
    and counted once, with a job and a receipt of its own, the claimed fabric rate is the sum
    of the nodes' rates (cut off at [u64::MAX]), and no node is faster than the claimed
    fastest one. *)
Theorem consistent_result_adds_up (self : t) :
  Forall (λ node, 0 ≤ FabricBenchmarkNodeV1.hashes_per_second node) (nodes self) →
  is_internally_consistent self = true →
  NoDup (FabricBenchmarkNodeV1.node_id <$> nodes self) ∧
  NoDup (FabricBenchmarkNodeV1.job_id <$> nodes self) ∧
  NoDup (FabricBenchmarkNodeV1.receipt_id <$> nodes self) ∧
  Forall (λ node, FabricBenchmarkNodeV1.malformed node = false ∧
                  FabricBenchmarkNodeV1.hashes_per_second node ≤ fastest_node_hashes_per_second self)
    (nodes self) ∧
  fabric_hashes_per_second self
    = Z.min u64_max (zsum (FabricBenchmarkNodeV1.hashes_per_second <$> nodes self)).
Proof.
  intros Hnonneg. unfold is_internally_consistent. case_match; [done|].
  destruct (tally _ _ _ _ _ _) as [[total fastest]|] eqn:Ht; [|done]. intros Hc.
  apply tally_some in Ht as (Hall & Hj & Hn & Hr & [= Htotal Hfast]). bool_prop. subst.
  split_and!; [done..| |].
  - rewrite Forall_forall in Hall |- *. intros node Hin. split; [by apply Hall|].
    replace (fastest_node_hashes_per_second self)
      with (foldl Z.max 0 (FabricBenchmarkNodeV1.hashes_per_second <$> nodes self)) by lia.
    apply foldl_max_elem. by apply list_elem_of_fmap_2.
  - replace (fabric_hashes_per_second self)
      with (foldl sat_add 0 (FabricBenchmarkNodeV1.hashes_per_second <$> nodes self)) by lia.
    rewrite foldl_sat_add; [done|unfold is_u64, u64_max; lia|by apply Forall_fmap].
Qed.
End ResultFacts.

(** ** Break-even plans *)

Section plans.
Implicit Types (request : BreakEvenRequestV1.t) (offer : ResourceOfferV1.t).

Lemma offers_by_node_fresh now offers k offer :
  offers_by_node now offers !! k = Some offer →
  offer ∈ offers ∧ ResourceOfferV1.node_id offer = k ∧ now < ResourceOfferV1.expires_at offer.
Proof.
  unfold offers_by_node. induction offers as [|x offers IH] using rev_ind; [done|].
  rewrite foldl_snoc. destruct (Z.ltb_spec now (ResourceOfferV1.expires_at x)) as [Hf|Hf].
  - intros [[<- ->]|[_ H]]%lookup_insert_Some; [set_solver|]. destruct (IH H) as (? & ? & ?). set_solver.
  - intros H. destruct (IH H) as (? & ? & ?). set_solver.
Qed.

(** A participant whose transfer time is known has a fresh offer, and a fresh link unless it
    is local to the controller. *)
Definition evidenced (now : DateTime) (offers : list ResourceOfferV1.t) (node : FabricBenchmarkNodeV1.t) : Prop :=
  ∃ offer, offer ∈ offers ∧ ResourceOfferV1.node_id offer = FabricBenchmarkNodeV1.node_id node ∧
    now < ResourceOfferV1.expires_at offer ∧
    (ResourceOfferV1.mesh_endpoint offer = None ∨ is_Some (fresh_link now offer)).

Lemma transfers_evidenced request now offers worst nodes r :
  try_fold (node_transfer request now (offers_by_node now offers)) worst nodes = Ok r →
  worst ≤ r ∧ Forall (evidenced now offers) nodes.
Proof.
  revert worst. induction nodes as [|node nodes IH]; intros worst; cbn [try_fold].
  - intros [= <-]. split; [lia|constructor].
  - intros (w & Hw & H)%bind_ok_inv. apply IH in H as [Hle Hall]. unfold node_transfer in Hw.
    destruct (offers_by_node _ _ !! _) as [offer|] eqn:Ho; [|done].
    apply offers_by_node_fresh in Ho as (Hin & Hid & Hexp).
    assert (worst ≤ w ∧ (ResourceOfferV1.mesh_endpoint offer = None ∨ is_Some (fresh_link now offer))) as [Hw' He].
    { destruct (ResourceOfferV1.mesh_endpoint offer); cbn in Hw; [|simplify_eq; split; [lia|by left]].
      destruct (fresh_link now offer); [|done]. simplify_eq. split; [lia|right; by eexists]. }
    split; [lia|]. constructor; [|done]. by exists offer.
Qed.

(** A plan distributes work only on evidence: the request is within its contract and
    restart tolerant, the newest dividend passes its check and is at most 24 hours old, at
    least two nodes took part and all of them are selected, each with an unexpired offer and,
    if remote, a fresh measured link, and the projected p90 beats the baseline by the
    required gain. *)
Theorem use_fabric_is_evidenced request dividend offers now plan :
  plan_break_even request dividend offers now = plan →
  BreakEvenPlanV1.decision plan = BreakEvenDecisionV1.UseFabric →
  ∃ result recorded_at fabric_ms gain,
    dividend = Some (result, recorded_at) ∧
    BreakEvenRequestV1.is_valid request = true ∧ BreakEvenRequestV1.restart_tolerant request = true ∧
    FabricBenchmarkResultV1.is_internally_consistent result = true ∧
    num_seconds (now - recorded_at) ≤ 24 * 60 * 60 ∧
    2 ≤ zlen (FabricBenchmarkResultV1.nodes result) ∧
    Forall (evidenced now offers) (FabricBenchmarkResultV1.nodes result) ∧
    BreakEvenPlanV1.selected_node_ids plan
      = FabricBenchmarkNodeV1.node_id <$> FabricBenchmarkResultV1.nodes result ∧
    BreakEvenPlanV1.p90_fabric_ms plan = Some fabric_ms ∧
    fabric_ms < BreakEvenPlanV1.p90_baseline_ms plan ∧
    BreakEvenPlanV1.estimated_gain_percent plan = Some gain ∧
    SFleb (BreakEvenPlanV1.required_gain_percent plan) gain = true.
Proof.
  intros <-. unfold plan_break_even.
  destruct (BreakEvenRequestV1.is_valid request) eqn:Hv; [|done]. cbn [negb].
  destruct (_ == _) eqn:?; [done|].
  destruct (BreakEvenRequestV1.restart_tolerant request) eqn:Hr; [|done]. cbn [negb].
  destruct dividend as [[result recorded_at]|]; [|done].
  destruct (FabricBenchmarkResultV1.is_internally_consistent result) eqn:Hc; [|done]. cbn [negb].
  destruct (Z.ltb_spec (24 * 60 * 60) (Z.max 0 (num_seconds (now - recorded_at)))) as [|Hage]; [done|].
  destruct (Scheduler.max_by_key _ _) as [baseline|]; [|done].
  destruct (Z.ltb_spec (zlen (FabricBenchmarkResultV1.nodes result)) 2) as [|Htwo]; [done|].
  destruct (try_fold _ _ _) as [worst|] eqn:Hf; [|done]. apply transfers_evidenced in Hf as [_ Hall].
  unfold project. destruct (_ && _) eqn:Hgain; [|done]. intros _. bool_prop.
  eexists result, recorded_at, _, _. cbn. split_and!; try done. lia.
Qed.

(** Traffic other than the control plane's is admitted to a remote node only over a fresh
    measured link. *)
Lemma performance_needs_link class path link has_candidate :
  path ≠ NetworkPathKindV1.ControllerLocal → class ≠ TrafficClassV1.AuthorityControl →
  TrafficAdmissionV1.admitted (admit_traffic class path link has_candidate) = true → is_Some link.
Proof.
  intros Hp Hc. unfold admit_traffic. rewrite !bool_decide_eq_false_2 by done. by destruct link.
Qed.
End plans.

(** ** A measured pair of nodes *)

Module EconomicsWitness.
Import Text.

Definition hex_zero : string := "0000000000000000000000000000000000000000000000000000000000000000".
Definition node (id rate : Z) (name : string) : FabricBenchmarkNodeV1.t :=
  FabricBenchmarkNodeV1.mk (10 + id) id name (20 + id) 4 1000 (F64.of_Z 500) rate ("sha256:" +:+ hex_zero).
Definition result : FabricBenchmarkResultV1.t :=
  FabricBenchmarkResultV1.mk FabricBenchmarkResultV1.SCHEMA 5 "succeeded" [node 1 300 "a"; node 2 300 "b"]
    600 300 (F64.of_Z 2) hundred (F64.of_Z 50) (F64.of_Z 50) FabricBenchmarkResultV1.PROOF_BASIS
    FabricBenchmarkResultV1.APPLICABILITY true.
Definition offer (id : Uuid) : ResourceOfferV1.t :=
  ResourceOfferV1.mk "rampage.resource-offer.v1" (30 + id) id 0 (minutes 1) []
    (AvailabilityV1.mk true None 80 true true) ∅ [] [] None None "".
Definition request : BreakEvenRequestV1.t :=
  BreakEvenRequestV1.mk BreakEvenRequestV1.SCHEMA WorkloadClassV1.BatchAi 100000 1024 1024 100 true (F64.of_Z 10).
Definition plan : BreakEvenPlanV1.t :=
  plan_break_even request (Some (result, 0)) [offer 1; offer 2] (seconds 10).

Lemma result_consistent : FabricBenchmarkResultV1.is_internally_consistent result = true.
Proof. vm_compute. reflexivity. Qed.
Lemma plan_uses_fabric : BreakEvenPlanV1.decision plan = BreakEvenDecisionV1.UseFabric.
Proof. vm_compute. reflexivity. Qed.

Lemma consistent_result_adds_up_witness :
  FabricBenchmarkResultV1.fabric_hashes_per_second result
    = Z.min u64_max (zsum (FabricBenchmarkNodeV1.hashes_per_second <$> FabricBenchmarkResultV1.nodes result)).
Proof.
  apply (ResultFacts.consistent_result_adds_up result); [|exact result_consistent].
  repeat constructor; cbn; lia.
Defined.

Lemma use_fabric_is_evidenced_witness :
  ∃ result' recorded_at, Some (result, 0) = Some (result', recorded_at) ∧
    BreakEvenPlanV1.selected_node_ids plan
      = FabricBenchmarkNodeV1.node_id <$> FabricBenchmarkResultV1.nodes result'.
Proof.
  destruct (use_fabric_is_evidenced request (Some (result, 0)) [offer 1; offer 2] (seconds 10) plan)
    as (r & t & _ & _ & Hr & _ & _ & _ & _ & _ & _ & Hsel & _); [reflexivity|exact plan_uses_fabric|].
  exists r, t. split; [exact Hr|exact Hsel].
Defined.
End EconomicsWitness.
