(* ===== verification/Worker.v ===== *)
(** * Worker execution (crates/rampage-agent/src/lib.rs)

    The fail-closed execution of a claimed job: the checks on the claim and its lease,
    the durable consumption of the lease, the native adapters, and the signed receipt.
    Readings of the clock, random identifiers and the answer of the local Ollama server
    are the record [Env]; the texts of foreign errors are the class [Display]. *)

From S2P Require Import Prelude.
From S2P Require Import Codec.
From S2P Require Import Text.
From S2P Require Import Float.
From S2P Require Import Contracts.
From S2P Require Import Signing.
From S2P Require Import Storage.
From stdpp Require Import pretty.
Import Text.
#[local] Open Scope Z_scope.

(** ** Errors *)

(** Messages of the errors the standard library, SQLite and serde_json raise. *)
Class Display := {
  io_message : IoErrorKind.t → string;
  database_message : string;
  manifest_message : string
}.

Section display.
Context {display : Display}.

(** [StorageError::to_string]. *)
Definition storage_error_to_string (error : StorageError.t) : string :=
  match error with
  | StorageError.Io kind => "I/O error: " +:+ io_message kind
  | StorageError.Database => "database error: " +:+ database_message
  | StorageError.ManifestJson => "manifest error: " +:+ manifest_message
  | StorageError.InvalidManifest => "artifact manifest is malformed or outside storage bounds"
  | StorageError.Crypto => "encryption or authentication failed"
  | StorageError.NotFound digest => "artifact " +:+ digest +:+ " is not present"
  | StorageError.DigestMismatch => "artifact digest mismatch"
  | StorageError.ArtifactConflict => "artifact metadata conflicts with the existing content address"
  | StorageError.StorageQuotaExceeded =>
      "artifact exceeds the owner-contributed storage-class quota"
  | StorageError.InvalidDigest => "invalid artifact digest"
  | StorageError.ProtectedRequiresReplication =>
      "protected storage requires at least two declared replicas"
  | StorageError.InvalidAuthority => "invalid authority scope, nonce, or fencing epoch"
  | StorageError.ExpiredAuthority => "authority lease has expired"
  | StorageError.ReplayedAuthorityNonce => "authority nonce has already been consumed"
  | StorageError.StaleFencingEpoch current supplied =>
      "stale authority fencing epoch " +:+ pretty supplied +:+ "; current epoch is "
        +:+ pretty current
  | StorageError.InvalidTransfer => "invalid resumable transfer contract"
  | StorageError.TransferNotFound session_id =>
      "resumable transfer " +:+ session_id +:+ " is not present"
  | StorageError.TransferConflict =>
      "resumable transfer conflicts with its durable session binding"
  | StorageError.TransferExpired => "resumable transfer lease has expired"
  | StorageError.ChunkOutOfRange => "chunk index is outside the transfer contract"
  | StorageError.ChunkSizeMismatch => "chunk size does not match the transfer contract"
  | StorageError.ChunkDigestMismatch => "chunk digest does not match its payload"
  | StorageError.TransferIncomplete => "resumable transfer is incomplete"
  | StorageError.Poisoned => "storage lock is poisoned"
  end.
End display.

Module ExecutionError.
Inductive t :=
| WrongSchema
| WrongNode
| LeaseMismatch
| InactiveLease
| InvalidLease
| AuthorityState (message : string)
| UnsupportedAdapter
| MissingArgument (name : string)
| InvalidArgument (name : string)
| BackendUnavailable (message : string).
#[global] Instance eq_dec : EqDecision t.
Proof. solve_decision. Defined.

Definition to_string (error : t) : string :=
  match error with
  | WrongSchema => "unsupported work-claim schema"
  | WrongNode => "claim is addressed to another node"
  | LeaseMismatch => "job and lease do not describe the same authority"
  | InactiveLease => "lease is expired or fenced"
  | InvalidLease => "lease signature is invalid"
  | AuthorityState message => "durable authority state rejected the lease: " +:+ message
  | UnsupportedAdapter => "adapter or operation is not implemented by this worker"
  | MissingArgument name => "required argument " +:+ name +:+ " is absent"
  | InvalidArgument name => "adapter argument is invalid: " +:+ name
  | BackendUnavailable message => "local adapter backend is unavailable: " +:+ message
  end.
End ExecutionError.

Module AdapterOutput.
Record t := mk { text : string; artifacts : list ArtifactRefV1.t }.
Definition of_text (value : string) : t := mk value [].
End AdapterOutput.

Module Worker.
Section worker.
Context {codec : Codec} {crypto : Crypto} {ser : Serializer} {vault : Vault} {display : Display}.

(** What one execution draws from its surroundings. *)
Record Env := mkEnv {
  now : DateTime;                 (* [let now = Utc::now()] *)
  accept_now : DateTime;          (* the clock of [accept_authority] *)
  started_at : DateTime;
  finished_at : DateTime;
  put_now : DateTime;             (* the clock and nonces of [put] *)
  put_nonces : nat → string;
  elapsed : Z;                    (* [started.elapsed()], in nanoseconds *)
  receipt_id : Uuid;
  (* the answer of the local Ollama server to [model], [prompt] and [num_predict] *)
  ollama : string → string → Z → result string Value
}.

Abbreviation Result A := (result ExecutionError.t A).

Definition argument (claim : WorkClaimV1.t) (name : string) : option string :=
  JobSpecV1.arguments (WorkClaimV1.job claim) !! name.
Definition required (claim : WorkClaimV1.t) (name : string) : Result string :=
  ok_or (ExecutionError.MissingArgument name) (argument claim name).

(** ** Scores *)

(** The loop over [values.split(',')]: the running count and sum. *)
Definition score_step (acc : Z * F64.t) (value : string) : Result (Z * F64.t) :=
  let '(count, sum) := acc in
  f ← ok_or ExecutionError.UnsupportedAdapter (F64.parse (trim value));
  Ok (count + 1, F64.add sum f).

Definition eval_shard (claim : WorkClaimV1.t) : Result string :=
  values ← required claim "values";
  '(count, sum) ← try_fold score_step (0, S754_zero false) (split (λ c, c == ","%char) values);
  if count =? 0 then Err (ExecutionError.MissingArgument "values")
  else Ok (F64.to_fixed 12 (F64.div sum (F64.of_Z count))).

(** ** Benchmark *)

Definition MAX_LANES : Z := 64.
Definition MAX_ITERATIONS_PER_LANE : Z := 20000000.
Definition MAX_TOTAL_ITERATIONS : Z := 400000000.

(** [n.to_le_bytes()] at [k] bytes, and [uuid.as_bytes()]. *)
Fixpoint to_le_bytes (k : nat) (n : Z) : string :=
  match k with
  | O => ""
  | S k => String (ascii_of_N (Z.to_N (n mod 256))) (to_le_bytes k (n / 256))
  end.
Fixpoint to_be_bytes (k : nat) (n : Z) : string :=
  match k with
  | O => ""
  | S k => to_be_bytes k (n / 256) +:+ String (ascii_of_N (Z.to_N (n mod 256))) ""
  end.
Definition nul : string := String "000" "".

(** One lane: [n] rounds from round [iteration] on. *)
Fixpoint hash_chain (lane : Z) (n : nat) (iteration : Z) (digest : string) : string :=
  match n with
  | O => digest
  | S n =>
      hash_chain lane n (iteration + 1)
        (sha256 (digest +:+ to_le_bytes 8 lane +:+ to_le_bytes 8 iteration))
  end.
Definition lane_digest (job_id : Uuid) (iterations_per_lane lane : Z) : string :=
  hash_chain lane (Z.to_nat iterations_per_lane) 0
    (sha256 ("rampage.cpu-benchmark.v1" +:+ nul +:+ to_be_bytes 16 job_id
               +:+ to_le_bytes 8 lane)).

(** The grant the lanes are taken from. *)
Definition benchmark_lanes (claim : WorkClaimV1.t) : Result Z :=
  let granted :=
    List.find (λ resource,
        (ResourceQuantityV1.class resource == ResourceClass.CpuCompute)
        && (ResourceQuantityV1.unit resource == "logical_core"))
      (CapabilityLeaseV1.granted (WorkClaimV1.lease claim)) in
  match ResourceQuantityV1.available <$> granted with
  | Some lanes =>
      if in_range 1 MAX_LANES lanes then Ok lanes
      else Err (ExecutionError.InvalidArgument "benchmark CPU grant")
  | None => Err (ExecutionError.InvalidArgument "benchmark CPU grant")
  end.

(** [Duration::as_secs_f64]. *)
Definition as_secs_f64 (nanos : Z) : F64.t :=
  F64.add (F64.of_Z (nanos / 1000000000))
    (F64.div (F64.of_Z (nanos mod 1000000000)) (F64.of_Z 1000000000)).

Definition run_cpu_benchmark (env : Env) (claim : WorkClaimV1.t) : Result string :=
  lanes ← benchmark_lanes claim;
  text ← required claim "iterations_per_lane";
  iterations_per_lane ← ok_or (ExecutionError.InvalidArgument "iterations_per_lane")
                          (parse_unsigned u64_max text);
  if negb (in_range 1 MAX_ITERATIONS_PER_LANE iterations_per_lane)
     || (MAX_TOTAL_ITERATIONS <? sat_mul lanes iterations_per_lane)
  then Err (ExecutionError.InvalidArgument "iterations_per_lane")
  else
    let job_id := JobSpecV1.job_id (WorkClaimV1.job claim) in
    let lane_digests :=
      (λ lane, lane_digest job_id iterations_per_lane (Z.of_nat lane)) <$> seq 0 (Z.to_nat lanes) in
    let total_hashes := sat_mul lanes iterations_per_lane in
    let elapsed_seconds := F64.max (as_secs_f64 (elapsed env)) F64.EPSILON in
    let hashes_per_second := F64.round_u64 (F64.div (F64.of_Z total_hashes) elapsed_seconds) in
    let result_digest :=
      "sha256:" +:+ hex_encode (sha256 ("rampage.cpu-benchmark-result.v1" +:+ nul
                                          +:+ foldr String.append "" lane_digests)) in
    (* a [serde_json] object prints its keys in order *)
    Ok (json_to_string (VObject
          [("elapsed_ms",
             VFloat (F64.to_bits (F64.mul (as_secs_f64 (elapsed env)) (F64.of_Z 1000))));
           ("hashes_per_second", VInt hashes_per_second);
           ("iterations_per_lane", VInt iterations_per_lane);
           ("lanes", VInt lanes);
           ("result_digest", VString result_digest);
           ("schema", VString "rampage.cpu-benchmark-result.v1");
           ("total_hashes", VInt total_hashes)])).

(** ** Ollama *)

Definition required_ollama_response (body : Value) : Result string :=
  let response :=
    match body with
    | VObject m => snd <$> List.find (λ kv, kv.1 == "response") m
    | _ => None
    end in
  match response with
  | Some (VString value) =>
      if blank value
      then Err (ExecutionError.BackendUnavailable
                  "Ollama completed without user-visible answer text")
      else Ok value
  | _ => Err (ExecutionError.BackendUnavailable
                "Ollama completed without user-visible answer text")
  end.

Definition model_character (b : N) : bool :=
  is_ascii_alphanumeric b
  || existsb (λ c, (b =? N_of_ascii c)%N) ["."; ":"; "_"; "/"; "-"]%char.

Definition run_ollama (env : Env) (claim : WorkClaimV1.t) : Result string :=
  model ← required claim "model";
  prompt ← required claim "prompt";
  if is_empty model || (200 <? len model) || negb (all_bytes model_character model)
  then Err (ExecutionError.InvalidArgument "model")
  else if 128 * 1024 <? len prompt then Err (ExecutionError.InvalidArgument "prompt")
  else
    max_tokens ← match argument claim "max_tokens" with
                 | None => Ok 512
                 | Some value =>
                     ok_or (ExecutionError.InvalidArgument "max_tokens")
                       (parse_unsigned u32_max value)
                 end;
    let num_predict := Z.min 4096 (Z.max 1 max_tokens) in
    body ← map_err ExecutionError.BackendUnavailable (ollama env model prompt num_predict);
    required_ollama_response body.

(** ** Artifacts *)

Definition unavailable (error : StorageError.t) : ExecutionError.t :=
  ExecutionError.BackendUnavailable (storage_error_to_string error).

Definition hash_artifact (env : Env) (claim : WorkClaimV1.t) (store : CasStore.t)
    : Result AdapterOutput.t * CasStore.t :=
  match JobSpecV1.inputs (WorkClaimV1.job claim) with
  | [input] =>
      let digest := ArtifactRefV1.digest input in
      let checked :=
        stored ← map_err unavailable (CasStore.head store digest);
        if (ArtifactRefV1.size_bytes stored != ArtifactRefV1.size_bytes input)
           || (ArtifactRefV1.media_type stored != ArtifactRefV1.media_type input)
        then Err (ExecutionError.InvalidArgument "input artifact metadata")
        else
          payload ← map_err unavailable (CasStore.get store digest);
          let observed_digest := CasStore.sha256_digest payload in
          if observed_digest != digest
          then Err (ExecutionError.InvalidArgument "input artifact digest")
          else
            Ok (json_to_string (VObject
                  [("input_digest", VString digest);
                   ("input_size_bytes", VInt (ArtifactRefV1.size_bytes input));
                   ("observed_digest", VString observed_digest);
                   ("schema", VString "rampage.artifact-hash-result.v1")])) in
      match checked with
      | Err e => (Err e, store)
      | Ok report =>
          let '(r, store') :=
            CasStore.put store report (PutOptions.mk "application/json" StorageClass.Cache 1)
              (put_nonces env) (put_now env) in
          (match r with
           | Ok output => Ok (AdapterOutput.mk report [output])
           | Err e => Err (unavailable e)
           end, store')
      end
  | _ => (Err (ExecutionError.MissingArgument "one input artifact"), store)
  end.

(** ** Dispatch *)

Definition run_adapter (env : Env) (claim : WorkClaimV1.t) (store : option CasStore.t)
    : Result AdapterOutput.t * option CasStore.t :=
  let adapter := JobSpecV1.adapter (WorkClaimV1.job claim) in
  let operation := JobSpecV1.operation (WorkClaimV1.job claim) in
  let selects (a o : string) := (adapter == a) && (operation == o) in
  if selects "rampage.echo.v1" "echo"
  then (AdapterOutput.of_text <$> required claim "value", store)
  else if selects "rampage.hash.v1" "hash"
  then ((λ value, AdapterOutput.of_text (CasStore.sha256_hex value)) <$> required claim "value", store)
  else if selects "rampage.eval-shard.v1" "score"
  then (AdapterOutput.of_text <$> eval_shard claim, store)
  else if selects "rampage.benchmark.v1" "sha256_chain"
  then (AdapterOutput.of_text <$> run_cpu_benchmark env claim, store)
  else if selects "rampage.ollama.v1" "generate"
  then (AdapterOutput.of_text <$> run_ollama env claim, store)
  else if selects "rampage.artifact-hash.v1" "hash_artifact"
  then match store with
       | None => (Err (ExecutionError.BackendUnavailable "artifact store is unavailable"), store)
       | Some s => let '(r, s') := hash_artifact env claim s in (r, Some s')
       end
  else (Err ExecutionError.UnsupportedAdapter, store).

(** ** Execution *)

(** The checks before the lease is consumed. *)
Definition check_claim (env : Env) (claim : WorkClaimV1.t) (node_id : Uuid) (fencing_epoch : Z)
    : Result () :=
  let lease := WorkClaimV1.lease claim in
  let job := WorkClaimV1.job claim in
  if WorkClaimV1.schema claim != WorkClaimV1.SCHEMA then Err ExecutionError.WrongSchema
  else if CapabilityLeaseV1.node_id lease != node_id then Err ExecutionError.WrongNode
  else if (CapabilityLeaseV1.job_id lease != JobSpecV1.job_id job)
          || (CapabilityLeaseV1.project_id lease != JobSpecV1.project_id job)
          || (CapabilityLeaseV1.adapter lease != JobSpecV1.adapter job)
          || (CapabilityLeaseV1.operation lease != JobSpecV1.operation job)
  then Err ExecutionError.LeaseMismatch
  else
    _ ← map_err (λ _, ExecutionError.InvalidLease)
          (verify_lease_with_key (WorkClaimV1.governor_public_key claim) lease);
    if negb (CapabilityLeaseV1.is_active_at lease (now env) fencing_epoch)
    then Err ExecutionError.InactiveLease
    else Ok ().

Definition consume_lease (env : Env) (claim : WorkClaimV1.t) (store : option CasStore.t)
    : Result () * option CasStore.t :=
  match store with
  | None => (Ok (), None)
  | Some s =>
      let lease := WorkClaimV1.lease claim in
      let '(r, s') :=
        CasStore.accept_authority s "governor" (CapabilityLeaseV1.fencing_epoch lease)
          (CapabilityLeaseV1.nonce lease) (CapabilityLeaseV1.expires_at lease) (accept_now env) in
      (map_err (λ error, ExecutionError.AuthorityState (storage_error_to_string error)) r, Some s')
  end.

(** [(finished_at - started_at).num_microseconds().unwrap_or(0)]. *)
Definition num_microseconds (nanos : Z) : Z :=
  let micros := Z.quot nanos 1000 in
  if in_range i64_min i64_max micros then micros else 0.

(** The unsigned receipt of an execution. *)
Definition receipt_of (env : Env) (claim : WorkClaimV1.t) (node_id : Uuid)
    (execution : Result AdapterOutput.t) : ExecutionReceiptV1.t :=
  let '(state, result, stdout_digest, stderr_digest, output_bytes, outputs) :=
    match execution with
    | Ok output =>
        (JobState.Succeeded, Some (VString (AdapterOutput.text output)),
         Some (CasStore.sha256_digest (AdapterOutput.text output)), None,
         len (AdapterOutput.text output), AdapterOutput.artifacts output)
    | Err error =>
        (JobState.Failed, None, None,
         Some (CasStore.sha256_digest (ExecutionError.to_string error)), 0, [])
    end in
  let metrics : gmap string spec_float :=
    <["output_bytes" := F64.of_Z output_bytes]>
      {["wall_time_ms" := F64.div (F64.of_Z (num_microseconds (finished_at env - started_at env)))
                            (F64.of_Z 1000)]} in
  ExecutionReceiptV1.mk "rampage.execution-receipt.v1" (receipt_id env)
    (CapabilityLeaseV1.lease_id (WorkClaimV1.lease claim)) (JobSpecV1.job_id (WorkClaimV1.job claim))
    node_id state (started_at env) (finished_at env) outputs metrics stdout_digest stderr_digest
    result "".

Definition execute_claim_inner (env : Env) (claim : WorkClaimV1.t) (node_id : Uuid)
    (fencing_epoch : Z) (signing_key : SigningKey) (store : option CasStore.t)
    : Result ExecutionReceiptV1.t * option CasStore.t :=
  match check_claim env claim node_id fencing_epoch with
  | Err e => (Err e, store)
  | Ok _ =>
      match consume_lease env claim store with
      | (Err e, store') => (Err e, store')
      | (Ok _, store') =>
          let '(execution, store'') := run_adapter env claim store' in
          (Ok (sign_receipt signing_key (receipt_of env claim node_id execution)), store'')
      end
  end.

Definition execute_claim (env : Env) (claim : WorkClaimV1.t) (node_id : Uuid) (fencing_epoch : Z)
    (signing_key : SigningKey) : Result ExecutionReceiptV1.t :=
  (execute_claim_inner env claim node_id fencing_epoch signing_key None).1.

Definition execute_claim_with_store (env : Env) (claim : WorkClaimV1.t) (node_id : Uuid)
    (fencing_epoch : Z) (signing_key : SigningKey) (store : CasStore.t)
    : Result ExecutionReceiptV1.t * CasStore.t :=
  let '(r, s) := execute_claim_inner env claim node_id fencing_epoch signing_key (Some store) in
  (r, default store s).

End worker.
End Worker.
