(* ===== verification/WorkerFacts.v ===== *)
(** * What worker execution guarantees

    A claim runs only under an active lease for this node and this job that verifies under
    the key the claim carries; the
    receipt is bound to that lease, verifies under the worker's identity and commits to
    the result; a lease that has executed never executes again. *)

From S2P Require Import Prelude.
From S2P Require Import Codec.
From S2P Require Import Text.
From S2P Require Import Float.
From S2P Require Import Contracts.
From S2P Require Import Signing.
From S2P Require Import Storage.
From S2P Require Import StorageFacts.
From S2P Require Import Authority.
From S2P Require Import Worker.
Import Text Worker.

Section facts.
Context {codec : Codec} {crypto : Crypto} {ser : Serializer} {vault : Vault} {display : Display}.

(** ** The store *)

Lemma hash_artifact_evolves T env claim s r s' :
  hash_artifact env claim s = (r, s') → evolves T s s'.
Proof.
  unfold hash_artifact. destruct (JobSpecV1.inputs _) as [|input [|]]; [by intros [= _ <-]| |by intros [= _ <-]].
  cbn zeta. destruct (_ ≫= _) as [report|e]; [|by intros [= _ <-]].
  destruct (CasStore.put _ _ _ _ _) as [r0 s0] eqn:Hp. intros [= _ <-].
  apply rtc_once. by eapply step_put.
Qed.

Lemma run_adapter_evolves T env claim s r s' :
  run_adapter env claim (Some s) = (r, s') → ∃ s1, s' = Some s1 ∧ evolves T s s1.
Proof.
  unfold run_adapter. cbn zeta. intros H.
  repeat (match type of H with (if ?b then _ else _) = _ => destruct b end;
    [first [injection H as _ <-; by exists s | idtac]|]).
  - destruct (hash_artifact env claim s) as [r0 s0] eqn:Hh. injection H as _ <-.
    exists s0. split; [done|]. by eapply hash_artifact_evolves.
  - injection H as _ <-. by exists s.
Qed.

(** A successful execution, taken apart. *)
Lemma execute_ok_inv env claim node_id epoch key s receipt s' :
  execute_claim_with_store env claim node_id epoch key s = (Ok receipt, s') →
  ∃ sa execution,
    check_claim env claim node_id epoch = Ok () ∧
    CasStore.accept_authority s "governor"
      (CapabilityLeaseV1.fencing_epoch (WorkClaimV1.lease claim))
      (CapabilityLeaseV1.nonce (WorkClaimV1.lease claim))
      (CapabilityLeaseV1.expires_at (WorkClaimV1.lease claim)) (accept_now env) = (Ok (), sa) ∧
    run_adapter env claim (Some sa) = (execution, Some s') ∧
    (∀ T, evolves T sa s') ∧
    receipt = sign_receipt key (receipt_of env claim node_id execution).
Proof.
  unfold execute_claim_with_store, execute_claim_inner.
  destruct (check_claim _ _ _ _) as [[]|]; [|done]. unfold consume_lease.
  destruct (CasStore.accept_authority _ _ _ _ _ _) as [[[]|] sa] eqn:Ha; [|done]. cbn [map_err].
  destruct (run_adapter env claim (Some sa)) as [execution s1] eqn:Hr. intros [= <- <-].
  destruct (run_adapter_evolves 0 _ _ _ _ _ Hr) as (s2 & -> & _).
  exists sa, execution. split_and!; [done..| |done].
  intros T. destruct (run_adapter_evolves T _ _ _ _ _ Hr) as (s3 & [= <-] & ?). done.
Qed.

(** An execution, successful or not, is one of the uses of the store. *)
Lemma execution_evolves T env claim node_id epoch key s r s' :
  execute_claim_with_store env claim node_id epoch key s = (r, s') →
  timestamp_millis (accept_now env) ≤ T → evolves T s s'.
Proof.
  unfold execute_claim_with_store, execute_claim_inner. intros H HT.
  destruct (check_claim _ _ _ _) as [[]|]; [|injection H as _ <-; apply rtc_refl].
  unfold consume_lease in H.
  destruct (CasStore.accept_authority _ _ _ _ _ _) as [[[]|] sa] eqn:Ha; cbn [map_err] in H.
  - apply (accept_evolves (authority := cas_authority) T) in Ha; [|done]. etrans; [exact Ha|].
    destruct (run_adapter env claim (Some sa)) as [execution s1] eqn:Hr. injection H as _ <-.
    by destruct (run_adapter_evolves T _ _ _ _ _ Hr) as (s2 & -> & ?).
  - injection H as _ <-. by apply (accept_evolves (authority := cas_authority) T) in Ha.
Qed.

(** ** At most once *)

(** [C15] The same signed lease never executes twice.  After an execution, however the store is
    used in between (other executions, transfers and restarts included) and at any later
    time, a claim whose lease has the same nonce and expiry is refused without effect, and so is a
    claim under an older fencing epoch. *)
Theorem lease_executes_once env claim node_id epoch key s receipt s1 s2
    env' claim' node_id' epoch' key' :
  execute_claim_with_store env claim node_id epoch key s = (Ok receipt, s1) →
  evolves (timestamp_millis (accept_now env')) s1 s2 →
  let lease := WorkClaimV1.lease claim in
  let lease' := WorkClaimV1.lease claim' in
  (CapabilityLeaseV1.nonce lease' = CapabilityLeaseV1.nonce lease ∧
   CapabilityLeaseV1.expires_at lease' = CapabilityLeaseV1.expires_at lease) ∨
  CapabilityLeaseV1.fencing_epoch lease' < CapabilityLeaseV1.fencing_epoch lease →
  ∃ e, execute_claim_with_store env' claim' node_id' epoch' key' s2 = (Err e, s2).
Proof.
  intros (sa & execution & _ & Ha & _ & Hev & _)%execute_ok_inv Hs lease lease' Hcase.
  edestruct (lease_spent (authority := cas_authority)) as [e He];
    [exact Ha|etrans; [apply Hev|exact Hs]|exact Hcase|].
  unfold execute_claim_with_store, execute_claim_inner.
  destruct (check_claim _ _ _ _) as [[]|]; [|by eexists].
  unfold consume_lease. cbn [accept cas_authority] in He. fold lease'. rewrite He.
  cbn [map_err default]. by eexists.
Qed.

(** ** Receipts *)

Lemma check_claim_ok env claim node_id epoch :
  check_claim env claim node_id epoch = Ok () →
  let lease := WorkClaimV1.lease claim in
  let job := WorkClaimV1.job claim in
  CapabilityLeaseV1.node_id lease = node_id ∧
  CapabilityLeaseV1.job_id lease = JobSpecV1.job_id job ∧
  CapabilityLeaseV1.project_id lease = JobSpecV1.project_id job ∧
  CapabilityLeaseV1.adapter lease = JobSpecV1.adapter job ∧
  CapabilityLeaseV1.operation lease = JobSpecV1.operation job ∧
  verify_lease_with_key (WorkClaimV1.governor_public_key claim) lease = Ok () ∧
  CapabilityLeaseV1.is_active_at lease (now env) epoch = true.
Proof.
  unfold check_claim. cbn zeta. intros [_ [Hn [Hm H]%guard_ok]%guard_ok]%guard_ok.
  apply bind_unit_ok in H as [Hv%map_err_ok Ha]. apply guard_ok in Ha as [Ha _].
  bool_prop. done.
Qed.

(** What the store gives back for an artifact it returned from [put]. *)
Lemma put_readable s plaintext options nonces now a s' :
  CasStore.put s plaintext options nonces now = (Ok a, s') →
  ArtifactRefV1.digest a = CasStore.sha256_digest plaintext ∧
  ∃ bytes, CasStore.get s' (ArtifactRefV1.digest a) = Ok bytes ∧
    CasStore.sha256_digest bytes = ArtifactRefV1.digest a.
Proof.
  assert (∀ s0 c n s1,
    CasStore.verify_object s0 (CasStore.sha256_digest plaintext) = Ok c →
    CasStore.index_artifact_in_transaction s0 (ArtifactContract.artifact c) n = Ok s1 →
    ArtifactRefV1.digest (ArtifactContract.artifact c) = CasStore.sha256_digest plaintext ∧
    ∃ bytes, CasStore.get s1 (ArtifactRefV1.digest (ArtifactContract.artifact c)) = Ok bytes ∧
      CasStore.sha256_digest bytes = ArtifactRefV1.digest (ArtifactContract.artifact c)) as Hread.
  { intros s0 c n s1 (Hd & p & Hg & Hp & _)%verify_object_get Hi%index_objects. split; [done|].
    exists p. rewrite Hd. split; [|done]. rewrite <-Hg. apply get_objects. by rewrite Hi. }
  assert (∀ s0 a0 s1, CasStore.put_new s0 plaintext options (CasStore.sha256_digest plaintext) nonces now
            = (Ok a0, s1) →
    ArtifactRefV1.digest a0 = CasStore.sha256_digest plaintext ∧
    ∃ bytes, CasStore.get s1 (ArtifactRefV1.digest a0) = Ok bytes ∧
      CasStore.sha256_digest bytes = ArtifactRefV1.digest a0) as Hnew.
  { intros s0 a0 s1. unfold CasStore.put_new. destruct (CasStore.ensure_storage_capacity _ _ _ _); [|done].
    destruct (CasStore.write_chunks _ _ _); [|done]. intros H%commit_inv.
    apply bind_ok_inv in H as (c & Hv & H). apply bind_unit_ok in H as [_ H].
    apply bind_ok_inv in H as (s2 & Hi & [= <- <-]). by eapply Hread. }
  unfold CasStore.put. destruct (_ && _); [done|]. destruct (CasStore.object_dir _); [|done].
  destruct (CasStore.objects s !! _); [|by apply Hnew].
  destruct (CasStore.verify_object s _) as [c|e] eqn:Hv; [|destruct (is_repairable_object_error e); [apply Hnew|done]].
  intros H%commit_inv. apply bind_unit_ok in H as [_ H].
  apply bind_ok_inv in H as (s2 & Hi & [= <- <-]). by eapply Hread.
Qed.

(** Artifacts an adapter returns are in the store, under the digest of its text. *)
Lemma adapter_outputs_readable env claim s output s' a :
  run_adapter env claim (Some s) = (Ok output, Some s') → a ∈ AdapterOutput.artifacts output →
  ArtifactRefV1.digest a = CasStore.sha256_digest (AdapterOutput.text output) ∧
  ∃ bytes, CasStore.get s' (ArtifactRefV1.digest a) = Ok bytes ∧
    CasStore.sha256_digest bytes = ArtifactRefV1.digest a.
Proof.
  assert (∀ (r : result ExecutionError.t string) g, (AdapterOutput.of_text ∘ g) <$> r = Ok output →
            a ∉ AdapterOutput.artifacts output) as Htext.
  { intros [v|] g; cbn; [|done]. intros [= <-]. apply not_elem_of_nil. }
  unfold run_adapter. cbn zeta. intros H Hin.
  repeat (match type of H with (if ?b then _ else _) = _ => destruct b end;
    [try (injection H as H _; exfalso; first [by eapply (Htext _ id) | by eapply (Htext _ CasStore.sha256_hex)])|]);
    [|done].
  unfold hash_artifact in H. destruct (JobSpecV1.inputs _) as [|input [|]]; [done| |done].
  cbn zeta in H. destruct (_ ≫= _) as [report|e]; [|done].
  destruct (CasStore.put _ _ _ _ _) as [[out|] s0] eqn:Hp; [|done]. injection H as <- <-.
  cbn in Hin. apply list_elem_of_singleton in Hin as ->. by eapply put_readable.
Qed.

Context {laws : CryptoLaws codec crypto}.

(** [C16] A receipt is bound to one claim and what came of it. The claim was for this node, its
    job and lease agree, and the lease verified under the Governor key that the claim itself
    carries and was active at the epoch the caller passed; whether this key is that
    of the node's own Governor is not checked here. The receipt names that lease, job and node and
    verifies under the identity that holds the worker's key; a success commits to the result
    text by its digest, and each artifact it lists is in the store and hashes to its address; a
    failure carries no output. *)
Theorem receipt_sound env claim node_id epoch key s receipt s' identity :
  execute_claim_with_store env claim node_id epoch key s = (Ok receipt, s') →
  NodeIdentityV1.node_id identity = node_id →
  NodeIdentityV1.public_key identity = hex_encode (verifying_key key) →
  let lease := WorkClaimV1.lease claim in
  let job := WorkClaimV1.job claim in
  (CapabilityLeaseV1.node_id lease = node_id ∧
   CapabilityLeaseV1.job_id lease = JobSpecV1.job_id job ∧
   CapabilityLeaseV1.project_id lease = JobSpecV1.project_id job ∧
   CapabilityLeaseV1.adapter lease = JobSpecV1.adapter job ∧
   CapabilityLeaseV1.operation lease = JobSpecV1.operation job ∧
   verify_lease_with_key (WorkClaimV1.governor_public_key claim) lease = Ok () ∧
   CapabilityLeaseV1.is_active_at lease (now env) epoch = true) ∧
  verify_receipt identity receipt = Ok () ∧
  ExecutionReceiptV1.lease_id receipt = CapabilityLeaseV1.lease_id lease ∧
  ExecutionReceiptV1.job_id receipt = JobSpecV1.job_id job ∧
  ExecutionReceiptV1.node_id receipt = node_id ∧
  ((∃ text, ExecutionReceiptV1.state receipt = JobState.Succeeded ∧
      ExecutionReceiptV1.result receipt = Some (VString text) ∧
      ExecutionReceiptV1.stdout_digest receipt = Some (CasStore.sha256_digest text) ∧
      ExecutionReceiptV1.stderr_digest receipt = None ∧
      ∀ a, a ∈ ExecutionReceiptV1.outputs receipt →
        ArtifactRefV1.digest a = CasStore.sha256_digest text ∧
        ∃ bytes, CasStore.get s' (ArtifactRefV1.digest a) = Ok bytes ∧
          CasStore.sha256_digest bytes = ArtifactRefV1.digest a) ∨
   (∃ error, ExecutionReceiptV1.state receipt = JobState.Failed ∧
      ExecutionReceiptV1.result receipt = None ∧ ExecutionReceiptV1.outputs receipt = [] ∧
      ExecutionReceiptV1.stdout_digest receipt = None ∧
      ExecutionReceiptV1.stderr_digest receipt =
        Some (CasStore.sha256_digest (ExecutionError.to_string error)))).
Proof.
  intros (sa & execution & Hc & _ & Hr & _ & ->)%execute_ok_inv Hid Hkey lease job.
  apply check_claim_ok in Hc. split; [exact Hc|].
  assert (verify_receipt identity (sign_receipt key (receipt_of env claim node_id execution)) = Ok ()) as Hv.
  { unfold verify_receipt. rewrite Hkey, Hid, bool_decide_true; [apply verify_sign_contract|].
    by destruct execution. }
  split; [exact Hv|]. destruct execution as [output|error]; cbn.
  - split_and!; [done..|]. left. exists (AdapterOutput.text output). split_and!; [done..|].
    intros a Ha. by eapply adapter_outputs_readable.
  - split_and!; [done..|]. right. by exists error.
Qed.

End facts.

(** ** Concrete instances *)

Module Witness.
Import ReferenceCrypto StorageFacts.Witness.

#[export] Instance reference_display : Display := {|
  io_message _ := "io"; database_message := "sqlite"; manifest_message := "json"
|}.

Definition governor_key : @SigningKey reference_crypto := "governor".
Definition worker_key : @SigningKey reference_crypto := "worker".
Definition other_key : @SigningKey reference_crypto := "attacker".

Definition input : ArtifactRefV1.t :=
  ArtifactRefV1.mk "rampage.artifact-ref.v1" (CasStore.sha256_digest "hello") 5
    "application/octet-stream" StorageClass.Cache true.
Definition job (adapter operation : string) (arguments : gmap string string) : JobSpecV1.t :=
  JobSpecV1.mk JobSpecV1.SCHEMA 7 8 9 adapter operation arguments [input] []
    WorkloadTrust.NativeTrusted true ∅ (seconds 50) "key".
Definition lease (adapter operation : string) : CapabilityLeaseV1.t :=
  sign_contract (T := CapabilityLeaseV1.t) governor_key
    (CapabilityLeaseV1.mk CapabilityLeaseV1.SCHEMA 21 7 3 8 adapter operation ∅ [] ∅ 0 (seconds 50)
       "nonce" 4 "").
Definition claim (adapter operation : string) (arguments : gmap string string) : WorkClaimV1.t :=
  WorkClaimV1.mk WorkClaimV1.SCHEMA (job adapter operation arguments) (lease adapter operation)
    (hex_encode (verifying_key governor_key)).
Definition env (at_ : DateTime) : Env :=
  mkEnv at_ at_ at_ (at_ + 2500000) at_ nonces 0 33 (λ _ _ _, Err "offline").
Definition worker : NodeIdentityV1.t :=
  NodeIdentityV1.mk "rampage.node-identity.v1" 3 9 "worker" DeviceKind.Desktop "linux"
    (hex_encode (verifying_key worker_key)) 0 0.
Definition stocked : CasStore.t :=
  (CasStore.put (CasStore.open_with_limits None) "hello" PutOptions.default nonces 100).2.

Definition echo_claim : WorkClaimV1.t := claim "rampage.echo.v1" "echo" {["value" := "hi"]}.

Lemma lease_executes_once_witness :
  ∃ r s1 e, execute_claim_with_store (env (seconds 1)) echo_claim 3 4 worker_key stocked = (Ok r, s1) ∧
    execute_claim_with_store (env (seconds 60)) echo_claim 3 4 worker_key s1 = (Err e, s1).
Proof.
  destruct (execute_claim_with_store (env (seconds 1)) echo_claim 3 4 worker_key stocked)
    as [[r|] s1] eqn:E; [|vm_compute in E; discriminate E].
  destruct (lease_executes_once _ _ _ _ _ _ _ _ s1 (env (seconds 60)) echo_claim 3 4 worker_key E) as [e He].
  - apply rtc_refl.
  - left. split; reflexivity.
  - exists r, s1, e. split; [reflexivity|exact He].
Defined.

Lemma receipt_sound_witness :
  ∃ r s1, execute_claim_with_store (env (seconds 1)) echo_claim 3 4 worker_key stocked = (Ok r, s1) ∧
    ExecutionReceiptV1.lease_id r = 21 ∧ verify_receipt worker r = Ok ().
Proof.
  destruct (execute_claim_with_store (env (seconds 1)) echo_claim 3 4 worker_key stocked)
    as [[r|] s1] eqn:E; [|vm_compute in E; discriminate E].
  destruct (receipt_sound _ _ _ _ _ _ _ _ worker E eq_refl eq_refl) as (_ & Hv & Hl & _).
  exists r, s1. split; [reflexivity|]. split; [exact Hl|exact Hv].
Defined.

Definition run (adapter operation : string) (arguments : gmap string string)
    : option (JobState.t * option Value) :=
  match (execute_claim_with_store (env (seconds 1)) (claim adapter operation arguments) 3 4 worker_key
           stocked).1 with
  | Ok r => Some (ExecutionReceiptV1.state r, ExecutionReceiptV1.result r)
  | Err _ => None
  end.

Example hashes_artifact :
  fst <$> run "rampage.artifact-hash.v1" "hash_artifact" ∅ = Some JobState.Succeeded.
Proof. vm_compute. reflexivity. Qed.
Example scores : run "rampage.eval-shard.v1" "score" {["values" := "1, 2.5,+4e0 "]} =
  Some (JobState.Succeeded, Some (VString "2.500000000000")).
Proof. vm_compute. reflexivity. Qed.
(** A trailing comma is an argument error reported as an unsupported adapter. *)
Example score_error : run "rampage.eval-shard.v1" "score" {["values" := "1,"]} =
  Some (JobState.Failed, None).
Proof. vm_compute. reflexivity. Qed.
Example benchmark_without_grant :
  run "rampage.benchmark.v1" "sha256_chain" {["iterations_per_lane" := "3"]} =
  Some (JobState.Failed, None).
Proof. vm_compute. reflexivity. Qed.

(** The lease is checked against the key the claim itself carries: a lease signed by any
    key runs once the claim names that key. *)
Example self_signed_claim_runs :
  let c := claim "rampage.echo.v1" "echo" {["value" := "hi"]} in
  let forged :=
    WorkClaimV1.mk WorkClaimV1.SCHEMA (WorkClaimV1.job c)
      (sign_contract (T := CapabilityLeaseV1.t) other_key (WorkClaimV1.lease c)) (hex_encode (verifying_key other_key)) in
  is_ok (execute_claim (env (seconds 1)) forged 3 4 worker_key) = true.
Proof. vm_compute. reflexivity. Qed.

End Witness.
