(* ===== verification/RemoteAssist.v ===== *)
(** * Remote Assist on the worker (crates/rampage-agent/src/remote_assist.rs)

    The handling of one remote-desktop request: owner STOP, opt-in policy, lease
    verification, the one-shot acceptance of a lease, the input sequence of a session, the
    activity file.  The world is the session table, the durable store (any [Authority]),
    the files of the data directory and the desktop, a log of the input events injected
    into it.  [supported] is the compile-time test for Windows; the answers of Windows
    (an interactive desktop, a capture, the number of events [SendInput] took) and the
    readings of the clock are the record [Env]. *)

From S2P Require Import Prelude.
From S2P Require Import Codec.
From S2P Require Import Text.
From S2P Require Import Contracts.
From S2P Require Import Wire.
From S2P Require Import Signing.
From S2P Require Import Storage.
From S2P Require Import Authority.
Import Text.

Module SessionState.
Record t := mk { lease_id : Uuid; last_input_sequence : Z }.
End SessionState.

(** [anyhow::Error]: a message of this file, or the error it wraps. *)
Module RemoteAssistError.
Inductive t :=
| Message (text : string)
| Policy (denial : Denial.t)
| Store (error : StorageError.t)
| Platform (text : string)
| Serialization.
End RemoteAssistError.

Module RemoteAssist.

(** The activity path: a regular file, or something else (a symbolic link or a directory)
    with what reading it gives and whether it can be removed. *)
Inductive path :=
| Missing
| Regular (bytes : string)
| Irregular (bytes : option string) (removable : bool).

Record World (S : Type) := mkWorld {
  sessions : gmap Uuid SessionState.t;
  frame_sequence : Z;
  store : S;
  kill_file : bool;
  policy_file : option string;
  active_file : path;
  desktop : list RemoteInputEventV1.t
}.
Arguments mkWorld {S}.
Arguments sessions {S}.
Arguments frame_sequence {S}.
Arguments store {S}.
Arguments kill_file {S}.
Arguments policy_file {S}.
Arguments active_file {S}.
Arguments desktop {S}.

Record Env := mkEnv {
  now : DateTime;
  accept_now : DateTime;
  captured_at : DateTime;
  updated_at : DateTime;
  interactive : bool;                                    (* [require_interactive_desktop] *)
  capture : Z → Z → result string (Z * Z * string);      (* [capture_jpeg] on Windows *)
  sent : Z                                               (* the return value of [SendInput] *)
}.

Section assist.
Context {codec : Codec} {crypto : Crypto} {ser : Serializer} {render : Render}.
Context {S : Type} {authority : Authority S}.
(* what parsing the policy file as [RemoteAssistPolicyV1] yields: schema and flag *)
Context (parse_policy : string → option (string * bool)).
Context (supported : bool).

Abbreviation W := (World S).
Abbreviation Result A := (result RemoteAssistError.t A).
Definition fail {A} (text : string) : Result A := Err (RemoteAssistError.Message text).

Definition set_sessions (f : gmap Uuid SessionState.t → gmap Uuid SessionState.t) (w : W) : W :=
  mkWorld (f (sessions w)) (frame_sequence w) (store w) (kill_file w) (policy_file w)
    (active_file w) (desktop w).
Definition set_store (s : S) (w : W) : W :=
  mkWorld (sessions w) (frame_sequence w) s (kill_file w) (policy_file w) (active_file w) (desktop w).
Definition set_active (p : path) (w : W) : W :=
  mkWorld (sessions w) (frame_sequence w) (store w) (kill_file w) (policy_file w) p (desktop w).
Definition set_desktop (d : list RemoteInputEventV1.t) (w : W) : W :=
  mkWorld (sessions w) (frame_sequence w) (store w) (kill_file w) (policy_file w) (active_file w) d.
(** [frame_sequence.fetch_add(1)], which wraps. *)
Definition next_frame (w : W) : W :=
  mkWorld (sessions w) ((frame_sequence w + 1) mod 18446744073709551616) (store w) (kill_file w)
    (policy_file w) (active_file w) (desktop w).

(** ** Policy and activity *)

Definition enabled (w : W) : bool :=
  supported &&
  match policy_file w with
  | None => false
  | Some bytes =>
      if 4 * 1024 <? len bytes then false
      else is_some_and (λ '(schema, enabled), (schema == "rampage.remote-assist-policy.v1") && enabled)
             (parse_policy bytes)
  end.

Definition mode_to_json (mode : RemoteDesktopModeV1.t) : string :=
  match mode with RemoteDesktopModeV1.View => "view" | RemoteDesktopModeV1.Control => "control" end.

(** The serialized [RemoteAssistActiveV1]. *)
Definition active_payload (env : Env) (lease : RemoteDesktopLeaseV1.t) : string :=
  json_to_string (VObject
    [("schema", VString "rampage.remote-assist-active.v1");
     ("session_id", VString (uuid_to_string (RemoteDesktopLeaseV1.session_id lease)));
     ("mode", VString (mode_to_json (RemoteDesktopLeaseV1.mode lease)));
     ("controller_endpoint_id", VString (RemoteDesktopLeaseV1.controller_endpoint_id lease));
     ("updated_at", VString (datetime_to_json (updated_at env)));
     ("expires_at", VString (datetime_to_json (RemoteDesktopLeaseV1.expires_at lease)))]).

Definition write_active (env : Env) (lease : RemoteDesktopLeaseV1.t) (w : W) : Result () * W :=
  match active_file w with
  | Irregular _ _ => (fail "Remote Assist activity path is not a regular non-symlink file", w)
  | Missing | Regular _ => (Ok (), set_active (Regular (active_payload env lease)) w)
  end.

Definition clear_active (w : W) : W :=
  match active_file w with
  | Irregular _ false => w
  | _ => set_active Missing w
  end.

(** [fs::read(active_path(data_dir)).ok()]. *)
Definition read_active (w : W) : option string :=
  match active_file w with
  | Missing => None
  | Regular bytes => Some bytes
  | Irregular bytes _ => bytes
  end.

(** The session the activity file names. *)
Definition active_session (w : W) : option string :=
  bytes ← read_active w;
  if len bytes <=? 16 * 1024 then
    match json_from_str bytes with
    | Some (VObject m) =>
        match snd <$> List.find (λ kv, kv.1 == "session_id") m with
        | Some (VString id) => Some id
        | _ => None
        end
    | _ => None
    end
  else None.

(** ** Platform *)

Definition capture_jpeg (env : Env) (max_width max_height : Z) : Result (Z * Z * string) :=
  if negb supported
  then Err (RemoteAssistError.Platform "Remote Assist capture is not qualified on this platform")
  else map_err RemoteAssistError.Platform (capture env max_width max_height).

(** The events [SendInput] took are on the desktop even when it took too few. *)
Definition apply_input (env : Env) (events : list RemoteInputEventV1.t) (w : W) : Result () * W :=
  if negb supported
  then (Err (RemoteAssistError.Platform "Remote Assist input is not qualified on this platform"), w)
  else if negb (interactive env)
  then (Err (RemoteAssistError.Platform "Windows secure or locked desktop is not available"), w)
  else
    let w' := set_desktop (desktop w ++ take (Z.to_nat (sent env)) events) w in
    if sent env != zlen events
    then (Err (RemoteAssistError.Platform
                 "Windows blocked Remote Assist input injection (UIPI or secure desktop)"), w')
    else (Ok (), w').

(** ** Requests *)

Definition SCOPE : string := "governor.remote-assist".

(** The checks before any state is touched. *)
Definition check_request (env : Env) (request : RemoteDesktopRequestV1.t) (node_id : Uuid)
    (controller_endpoint_id governor_public_key : string) (w : W) : Result () :=
  let lease := RemoteDesktopRequestV1.lease request in
  if kill_file w then fail "local owner STOP is active"
  else if negb (enabled w) then fail "Remote Assist is disabled on this worker"
  else
    _ ← map_err RemoteAssistError.Policy (verify_remote_desktop_lease_with_key governor_public_key lease);
    if negb (RemoteDesktopLeaseV1.is_active_at lease (now env) (RemoteDesktopLeaseV1.fencing_epoch lease)
             && RemoteDesktopRequestV1.is_valid_for request node_id controller_endpoint_id)
    then fail "Remote Assist request is outside its signed authority"
    else Ok ().

(** The first critical section: a lease the session does not hold yet is consumed. *)
Definition admit_session (env : Env) (lease : RemoteDesktopLeaseV1.t) (w : W) : Result () * W :=
  let session_id := RemoteDesktopLeaseV1.session_id lease in
  let session := sessions w !! session_id in
  let previous_sequence := default 0 (SessionState.last_input_sequence <$> session) in
  if is_none_or (λ state, SessionState.lease_id state != RemoteDesktopLeaseV1.lease_id lease) session
  then
    match accept (store w) SCOPE (RemoteDesktopLeaseV1.fencing_epoch lease)
            (RemoteDesktopLeaseV1.nonce lease) (RemoteDesktopLeaseV1.expires_at lease)
            (accept_now env) with
    | (Err e, s) => (Err (RemoteAssistError.Store e), set_store s w)
    | (Ok _, s) =>
        (Ok (), set_sessions
                  (insert session_id
                     (SessionState.mk (RemoteDesktopLeaseV1.lease_id lease) previous_sequence))
                  (set_store s w))
    end
  else (Ok (), w).

Definition success (request_id : Uuid) (frame : option RemoteDesktopFrameV1.t) (applied_events : Z)
    : RemoteDesktopResponseV1.t :=
  RemoteDesktopResponseV1.mk RemoteDesktopResponseV1.SCHEMA request_id 200 frame applied_events None.

(** [write_active(data_dir, &request)?; Ok((response, payload))]. *)
Definition finish (env : Env) (lease : RemoteDesktopLeaseV1.t)
    (response : RemoteDesktopResponseV1.t * string) (w : W)
    : Result (RemoteDesktopResponseV1.t * string) * W :=
  match write_active env lease w with
  | (Ok _, w') => (Ok response, w')
  | (Err e, w') => (Err e, w')
  end.

Definition perform_frame (env : Env) (request : RemoteDesktopRequestV1.t) (w : W)
    : Result (RemoteDesktopResponseV1.t * string) * W :=
  let lease := RemoteDesktopRequestV1.lease request in
  match capture_jpeg env (RemoteDesktopLeaseV1.max_width lease) (RemoteDesktopLeaseV1.max_height lease) with
  | Err e => (Err e, w)
  | Ok (width, height, payload) =>
      if is_empty payload || (MAX_REMOTE_DESKTOP_FRAME_BYTES <? len payload)
      then (fail "captured desktop frame is outside the signed payload limit", w)
      else
        let w' := next_frame w in
        let frame :=
          RemoteDesktopFrameV1.mk (frame_sequence w') (captured_at env) width height "image/jpeg"
            (len payload) ("sha256:" +:+ hex_encode (sha256 payload)) in
        if negb (RemoteDesktopFrameV1.is_valid_for frame lease)
        then (fail "captured frame is invalid", w')
        else finish env lease
               (success (RemoteDesktopRequestV1.request_id request) (Some frame) 0, payload) w'
  end.

(** The second critical section, and what follows it. *)
Definition perform_input (env : Env) (request : RemoteDesktopRequestV1.t) (w : W)
    : Result (RemoteDesktopResponseV1.t * string) * W :=
  let lease := RemoteDesktopRequestV1.lease request in
  let session_id := RemoteDesktopLeaseV1.session_id lease in
  if RemoteDesktopLeaseV1.mode lease != RemoteDesktopModeV1.Control
  then (fail "view-only Remote Assist session cannot inject input", w)
  else
    match RemoteDesktopRequestV1.input_sequence request with
    | None => (fail "input sequence is missing", w)
    | Some sequence =>
        match sessions w !! session_id with
        | None => (fail "Remote Assist session is unavailable", w)
        | Some session =>
            if sequence <=? SessionState.last_input_sequence session
            then (fail "Remote Assist input sequence was replayed or reordered", w)
            else
              match apply_input env (RemoteDesktopRequestV1.events request) w with
              | (Err e, w') => (Err e, w')
              | (Ok _, w') =>
                  finish env lease
                    (success (RemoteDesktopRequestV1.request_id request) None
                       (zlen (RemoteDesktopRequestV1.events request) mod 65536), "")
                    (set_sessions
                       (insert session_id (SessionState.mk (SessionState.lease_id session) sequence)) w')
              end
        end
    end.

Definition perform_close (request : RemoteDesktopRequestV1.t) (w : W)
    : Result (RemoteDesktopResponseV1.t * string) * W :=
  let session_id := RemoteDesktopLeaseV1.session_id (RemoteDesktopRequestV1.lease request) in
  let w' := set_sessions (delete session_id) w in
  let matches := is_some_and (λ id, id == uuid_to_string session_id) (active_session w') in
  (Ok (success (RemoteDesktopRequestV1.request_id request) None 0, ""),
   if matches then clear_active w' else w').

Definition perform (env : Env) (request : RemoteDesktopRequestV1.t) (w : W)
    : Result (RemoteDesktopResponseV1.t * string) * W :=
  match RemoteDesktopRequestV1.action request with
  | RemoteDesktopActionV1.Frame => perform_frame env request w
  | RemoteDesktopActionV1.Input => perform_input env request w
  | RemoteDesktopActionV1.Heartbeat =>
      finish env (RemoteDesktopRequestV1.lease request)
        (success (RemoteDesktopRequestV1.request_id request) None 0, "") w
  | RemoteDesktopActionV1.Close => perform_close request w
  end.

Definition handle_request (env : Env) (request : RemoteDesktopRequestV1.t) (node_id : Uuid)
    (controller_endpoint_id governor_public_key : string) (w : W)
    : Result (RemoteDesktopResponseV1.t * string) * W :=
  match check_request env request node_id controller_endpoint_id governor_public_key w with
  | Err e => (Err e, w)
  | Ok _ =>
      match admit_session env (RemoteDesktopRequestV1.lease request) w with
      | (Err e, w') => (Err e, w')
      | (Ok _, w') => perform env request w'
      end
  end.

(** ** Histories *)

(** The agent restarts: the session table and the frame counter start over. *)
Definition restart (w : W) : W :=
  mkWorld ∅ 0 (store w) (kill_file w) (policy_file w) (active_file w) (desktop w).

(** One step of a history, with the clock of the worker in milliseconds, which never goes
    back: a request whose lease satisfies [issued], a restart, a use of the store by another
    part of the agent, or a change to the owner's files and desktop. *)
Inductive step (issued : RemoteDesktopLeaseV1.t → Prop) : Z * W → Z * W → Prop :=
| step_request t env request node_id endpoint key r w w' :
    issued (RemoteDesktopRequestV1.lease request) → t ≤ timestamp_millis (accept_now env) →
    handle_request env request node_id endpoint key w = (r, w') →
    step issued (t, w) (timestamp_millis (accept_now env), w')
| step_restart t w : step issued (t, w) (t, restart w)
| step_store t t' s w :
    t ≤ t' → evolves t' (store w) s → step issued (t, w) (t', set_store s w)
| step_owner t kill policy active d w :
    step issued (t, w) (t, mkWorld (sessions w) (frame_sequence w) (store w) kill policy active d).

End assist.
End RemoteAssist.
