(* ===== verification/RemoteAssistFacts.v ===== *)
(** * What Remote Assist guarantees

    Input reaches the desktop only under a verified, active control lease on a worker
    whose owner opted in and has not stopped it; as long as requests are handled one after
    another, input that was applied completely is not applied again, across restarts, session
    changes and any other use of the store. *)

From S2P Require Import Prelude.
From S2P Require Import Codec.
From S2P Require Import Text.
From S2P Require Import Contracts.
From S2P Require Import Wire.
From S2P Require Import Signing.
From S2P Require Import Storage.
From S2P Require Import StorageFacts.
From S2P Require Import Authority.
From S2P Require Import RemoteAssist.
Import Text RemoteAssist.

Section facts.
Context {codec : Codec} {crypto : Crypto} {ser : Serializer} {render : Render}.
Context {S : Type} {authority : Authority S}.
Context (parse_policy : string → option (string * bool)) (supported : bool).

Abbreviation W := (World S).
Abbreviation enabled := (enabled parse_policy supported).
Abbreviation handle := (handle_request parse_policy supported).
Abbreviation lease_of := RemoteDesktopRequestV1.lease.
Abbreviation sid request := (RemoteDesktopLeaseV1.session_id (lease_of request)).

(** ** Parts that leave sessions, store or desktop alone *)

Lemma finish_frame env lease response (w : W) r w' :
  finish env lease response w = (r, w') →
  sessions w' = sessions w ∧ store w' = store w ∧ desktop w' = desktop w.
Proof.
  unfold finish, write_active. destruct (active_file w); by intros [= _ <-].
Qed.

Lemma perform_frame_frame env request (w : W) r w' :
  perform_frame supported env request w = (r, w') →
  sessions w' = sessions w ∧ store w' = store w ∧ desktop w' = desktop w.
Proof.
  unfold perform_frame. destruct (capture_jpeg _ _ _ _) as [[[width height] payload]|]; [|by intros [= _ <-]].
  destruct (_ || _); [by intros [= _ <-]|]. cbn zeta. destruct (negb _); [by intros [= _ <-]|].
  intros H%finish_frame. exact H.
Qed.

Lemma perform_close_frame request (w : W) r w' :
  perform_close request w = (r, w') →
  sessions w' = delete (sid request) (sessions w) ∧ store w' = store w ∧ desktop w' = desktop w.
Proof.
  unfold perform_close. intros [= _ <-]. destruct (is_some_and _ _); [|done].
  unfold clear_active. by destruct (active_file _) as [|?|? []].
Qed.

(** What an input request does, on every branch. *)
Lemma perform_input_inv env request (w : W) r w' :
  perform_input supported env request w = (r, w') →
  (is_ok r = false ∧ w' = w) ∨
  ∃ sequence session,
    supported = true ∧
    RemoteDesktopLeaseV1.mode (lease_of request) = RemoteDesktopModeV1.Control ∧
    RemoteDesktopRequestV1.input_sequence request = Some sequence ∧
    sessions w !! sid request = Some session ∧
    SessionState.last_input_sequence session < sequence ∧
    store w' = store w ∧
    desktop w' = desktop w ++ take (Z.to_nat (sent env)) (RemoteDesktopRequestV1.events request) ∧
    ((is_ok r = false ∧ sent env ≠ zlen (RemoteDesktopRequestV1.events request) ∧
      sessions w' = sessions w) ∨
     (sent env = zlen (RemoteDesktopRequestV1.events request) ∧
      sessions w' = <[sid request := SessionState.mk (SessionState.lease_id session) sequence]> (sessions w))).
Proof.
  unfold perform_input.
  destruct (bool_decide_reflect (RemoteDesktopLeaseV1.mode (lease_of request) = RemoteDesktopModeV1.Control))
    as [Hm|]; cbn [negb]; [|intros [= <- <-]; by left].
  destruct (RemoteDesktopRequestV1.input_sequence request) as [sequence|] eqn:Hq; [|intros [= <- <-]; by left].
  destruct (sessions w !! _) as [session|] eqn:Hs; [|intros [= <- <-]; by left].
  destruct (Z.leb_spec sequence (SessionState.last_input_sequence session)) as [?|Hlt];
    [intros [= <- <-]; by left|].
  unfold apply_input. destruct supported; cbn [negb]; [|intros [= <- <-]; by left].
  destruct (interactive env); cbn [negb]; [|intros [= <- <-]; by left].
  intros H. right. exists sequence, session.
  destruct (bool_decide_reflect (sent env = zlen (RemoteDesktopRequestV1.events request))) as [He|He];
    cbn [negb] in H.
  - apply finish_frame in H as (Hss & Hst & Hd). cbn in Hss, Hst, Hd.
    split_and!; try done. right. by split.
  - injection H as <- <-. split_and!; try done. left. by split_and!.
Qed.

Lemma admit_desktop env lease (w : W) r w' :
  admit_session env lease w = (r, w') → desktop w' = desktop w.
Proof.
  unfold admit_session. destruct (is_none_or _ _); [|by intros [= _ <-]].
  destruct (accept _ _ _ _ _ _) as [[[]|] s]; by intros [= _ <-].
Qed.

(** ** Authority *)

(** [C18] Input reaches the desktop only with authority.  If a request changes the desktop at
    all, the owner has not stopped the worker and has opted in, the lease verifies under the
    pinned Governor key, is active, is for this worker and controller and grants control,
    and what is injected is a prefix of the request's own valid events. *)
Theorem remote_input_authorized env request node_id endpoint key (w : W) r w' :
  handle env request node_id endpoint key w = (r, w') → desktop w' ≠ desktop w →
  let lease := lease_of request in
  kill_file w = false ∧ enabled w = true ∧
  verify_remote_desktop_lease_with_key key lease = Ok () ∧
  RemoteDesktopLeaseV1.is_active_at lease (now env) (RemoteDesktopLeaseV1.fencing_epoch lease) = true ∧
  RemoteDesktopLeaseV1.node_id lease = node_id ∧
  RemoteDesktopLeaseV1.controller_endpoint_id lease = endpoint ∧
  RemoteDesktopLeaseV1.mode lease = RemoteDesktopModeV1.Control ∧
  forallb RemoteInputEventV1.is_valid (RemoteDesktopRequestV1.events request) = true ∧
  ∃ n, desktop w' = desktop w ++ take n (RemoteDesktopRequestV1.events request).
Proof.
  intros H Hd lease. unfold handle_request in H.
  destruct (check_request _ _ _ _ _ _ _ _) as [[]|] eqn:Hc; [|injection H as _ <-; done].
  destruct (admit_session _ _ _) as [[[]|] w1] eqn:Ha; apply admit_desktop in Ha;
    [|injection H as _ <-; done].
  rewrite <-Ha in Hd |- *. unfold perform in H.
  destruct (RemoteDesktopRequestV1.action request) eqn:Haction.
  - apply perform_frame_frame in H as (_ & _ & ?). done.
  - apply perform_input_inv in H as [[_ ->]|H]; [done|].
    destruct H as (sequence & session & _ & Hm & _ & _ & _ & _ & Hdw & _).
    unfold check_request in Hc. cbn zeta in Hc. apply guard_ok in Hc as [Hk Hc].
    apply guard_ok in Hc as [He Hc]. apply bind_unit_ok in Hc as [Hv%map_err_ok Hc].
    apply guard_ok in Hc as [Hg _]. apply negb_false_iff, andb_prop in Hg as [Hg Hval].
    unfold RemoteDesktopRequestV1.is_valid_for in Hval. rewrite Haction in Hval. cbn zeta in Hval.
    bool_prop. split_and!; try done. by exists (Z.to_nat (sent env)).
  - apply finish_frame in H as (_ & _ & ?). done.
  - apply perform_close_frame in H as (_ & _ & ?). done.
Qed.

(** ** At most once *)

Context {laws : AuthorityLaws authority}.

(** By time [t] the lease was accepted by the store. *)
Definition spent (t : Z) (s : S) (lease : RemoteDesktopLeaseV1.t) : Prop :=
  ∃ s0 s1 at_, accept s0 SCOPE (RemoteDesktopLeaseV1.fencing_epoch lease)
                 (RemoteDesktopLeaseV1.nonce lease) (RemoteDesktopLeaseV1.expires_at lease) at_
               = (Ok (), s1) ∧ evolves t s1 s.

Lemma spent_evolves t t' s s' lease :
  spent t s lease → t ≤ t' → evolves t' s s' → spent t' s' lease.
Proof.
  intros (s0 & s1 & at_ & Ha & He) Ht Hs. exists s0, s1, at_. split; [done|].
  etrans; [by eapply evolves_mono|done].
Qed.

(** A spent lease is not accepted again. *)
Lemma spent_refused t s lease at_ s1 :
  spent t s lease → t ≤ timestamp_millis at_ →
  accept s SCOPE (RemoteDesktopLeaseV1.fencing_epoch lease) (RemoteDesktopLeaseV1.nonce lease)
    (RemoteDesktopLeaseV1.expires_at lease) at_ ≠ (Ok (), s1).
Proof.
  intros (s0 & s2 & at0 & Ha & He) Ht Hacc.
  edestruct (lease_spent s0) as [e Hs];
    [exact Ha|eapply evolves_mono; [exact Ht|exact He]|by left|]. by rewrite Hs in Hacc.
Qed.

(** What one request does to the session table and the store. *)
Lemma handle_inv t env request node_id endpoint key (w : W) r w' :
  handle env request node_id endpoint key w = (r, w') → timestamp_millis (accept_now env) = t →
  (w' = w ∧ is_ok r = false) ∨
  ∃ w1 session, perform supported env request w1 = (r, w') ∧ desktop w1 = desktop w ∧
    evolves t (store w) (store w1) ∧ sessions w1 !! sid request = Some session ∧
    SessionState.lease_id session = RemoteDesktopLeaseV1.lease_id (lease_of request) ∧
    (w1 = w ∨
     (sessions w1 = <[sid request := session]> (sessions w) ∧ spent t (store w1) (lease_of request) ∧
      ∃ s1, accept (store w) SCOPE (RemoteDesktopLeaseV1.fencing_epoch (lease_of request))
              (RemoteDesktopLeaseV1.nonce (lease_of request))
              (RemoteDesktopLeaseV1.expires_at (lease_of request)) (accept_now env) = (Ok (), s1))).
Proof.
  intros H HT. unfold handle_request in H.
  destruct (check_request _ _ _ _ _ _ _ _) as [[]|]; [|injection H as <- <-; by left].
  destruct (admit_session _ _ _) as [[[]|] w1] eqn:Ha.
  - right. exists w1. pose proof (admit_desktop _ _ _ _ _ Ha) as Hd. unfold admit_session in Ha.
    destruct (sessions w !! sid request) as [session|] eqn:Hs; cbn [is_none_or] in Ha.
    1: destruct (bool_decide_reflect (SessionState.lease_id session =
         RemoteDesktopLeaseV1.lease_id (lease_of request))) as [Hl|Hl]; cbn [negb] in Ha.
    1: { injection Ha as <-. exists session. split_and!; try done. by left. }
    all: destruct (accept _ _ _ _ _ _) as [[[]|] s] eqn:Hacc; [|done]; injection Ha as <-.
    all: pose proof (accept_evolves t _ _ _ _ _ _ _ _ Hacc ltac:(lia)) as Hev.
    all: eexists; split_and!; [exact H|done|exact Hev|apply lookup_insert_eq|done|right].
    all: split; [done|]; split; [|by eexists]; exists (store w), s, (accept_now env); by split.
  - left. injection H as <- <-. split; [|done]. unfold admit_session in Ha.
    destruct (is_none_or _ _); [|done]. destruct (accept _ _ _ _ _ _) as [[|] s] eqn:Hacc; [done|].
    apply refused_unchanged in Hacc as ->. injection Ha as _ <-. by destruct w.
Qed.

(** After admission sessions keep their leases or close, sequences grow, the store stays. *)
Lemma perform_sessions env request (w : W) r w' :
  perform supported env request w = (r, w') →
  store w' = store w ∧
  ∀ id st', sessions w' !! id = Some st' →
    ∃ st, sessions w !! id = Some st ∧ SessionState.lease_id st' = SessionState.lease_id st ∧
      SessionState.last_input_sequence st ≤ SessionState.last_input_sequence st'.
Proof.
  intros H. unfold perform in H. destruct (RemoteDesktopRequestV1.action request).
  - apply perform_frame_frame in H as (-> & -> & _). split; [done|]. eauto with lia.
  - apply perform_input_inv in H as [[_ ->]|H]; [split; [done|]; eauto with lia|].
    destruct H as (q & st0 & _ & _ & _ & Hst0 & Hlt & -> & _ & H). split; [done|].
    destruct H as [(_ & _ & ->)|(_ & ->)]; [eauto with lia|].
    intros id st' [[<- <-]|[_ Hl]]%lookup_insert_Some; [|eauto with lia].
    exists st0. split_and!; [done..|cbn; lia].
  - apply finish_frame in H as (-> & -> & _). split; [done|]. eauto with lia.
  - apply perform_close_frame in H as (-> & -> & _). split; [done|].
    intros id st' [_ Hl]%lookup_delete_Some. eauto with lia.
Qed.

Context (issued : RemoteDesktopLeaseV1.t → Prop).
Abbreviation step := (step parse_policy supported issued).

(** Every session was opened by a lease that is spent. *)
Definition accounted (c : Z * W) : Prop :=
  ∀ id session, sessions c.2 !! id = Some session →
    ∃ lease, issued lease ∧ RemoteDesktopLeaseV1.lease_id lease = SessionState.lease_id session ∧
      spent c.1 (store c.2) lease.

Lemma step_accounted c c' : step c c' → accounted c → accounted c'.
Proof.
  intros Hstep Hacc.
  destruct Hstep as [t env request node_id endpoint key r w w' Hi Ht H|t w|t t' s w Ht He|];
    unfold accounted in *; cbn [fst snd] in *.
  - assert (∀ id session, sessions w !! id = Some session → ∃ lease, issued lease ∧
      RemoteDesktopLeaseV1.lease_id lease = SessionState.lease_id session ∧
      ∀ s, evolves (timestamp_millis (accept_now env)) (store w) s →
        spent (timestamp_millis (accept_now env)) s lease) as Hold.
    { intros id session (lease & ? & ? & ?)%Hacc. exists lease. eauto using spent_evolves. }
    eapply handle_inv in H as [[-> _]|(w1 & session & Hp & _ & Hev & Hs & Hl & Hcase)]; [| |done].
    { intros id st (lease & ? & ? & Hsp)%Hold. exists lease. split_and!; [done..|]. by apply Hsp. }
    destruct (perform_sessions _ _ _ _ _ Hp) as [-> Hss].
    intros id st' Hid. destruct (Hss _ _ Hid) as (st & Hid1 & -> & _).
    destruct Hcase as [->|(Hins & Hsp & _)].
    { apply Hold in Hid1 as (lease & ? & ? & ?). eauto. }
    rewrite Hins in Hid1. apply lookup_insert_Some in Hid1 as [[_ <-]|[_ Hid1]].
    + exists (lease_of request). by rewrite Hl.
    + apply Hold in Hid1 as (lease & ? & ? & ?). eauto.
  - intros id st. cbn. by rewrite lookup_empty.
  - intros id st (lease & ? & ? & ?)%Hacc. exists lease. split_and!; [done..|]. by eapply spent_evolves.
  - apply Hacc.
Qed.

(** The lease is spent, and while its session lasts the sequence is at least [q]. *)
Definition applied (lease : RemoteDesktopLeaseV1.t) (q : Z) (c : Z * W) : Prop :=
  spent c.1 (store c.2) lease ∧
  ∀ session, sessions c.2 !! RemoteDesktopLeaseV1.session_id lease = Some session →
    SessionState.lease_id session = RemoteDesktopLeaseV1.lease_id lease →
    q ≤ SessionState.last_input_sequence session.

Context (unique : ∀ l l', issued l → issued l' →
  RemoteDesktopLeaseV1.lease_id l = RemoteDesktopLeaseV1.lease_id l' → l = l').

Lemma step_applied lease q c c' : issued lease → step c c' → applied lease q c → applied lease q c'.
Proof.
  intros Hl Hstep [Hsp Hseq].
  destruct Hstep as [t env request node_id endpoint key r w w' Hi Ht H|t w|t t' s w Ht He|];
    unfold applied in *; cbn [fst snd] in *.
  - eapply handle_inv in H as [[-> _]|(w1 & session & Hp & _ & Hev & Hs & Hid & Hcase)]; [| |done].
    { split; [|done]. by eapply spent_evolves. }
    destruct (perform_sessions _ _ _ _ _ Hp) as [-> Hss]. split; [by eapply spent_evolves|].
    intros st' (st & Hst & Heq & Hle)%Hss Hst'. rewrite Heq in Hst'.
    enough (q ≤ SessionState.last_input_sequence st) by lia.
    destruct Hcase as [->|(Hins & _ & s1 & Hacc)]; [by eapply Hseq|].
    rewrite Hins in Hst. apply lookup_insert_Some in Hst as [[Hsid <-]|[_ Hst]]; [|by eapply Hseq].
    assert (lease_of request = lease) as Heql by (apply unique; congruence).
    rewrite Heql in Hacc. by apply (spent_refused t) in Hacc.
  - split; [done|]. intros st. cbn. by rewrite lookup_empty.
  - split; [by eapply spent_evolves|done].
  - done.
Qed.

(** A successful input request leaves its lease applied up to its sequence. *)
Lemma input_applies t env request node_id endpoint key resp w w1 q :
  accounted (t, w) → t ≤ timestamp_millis (accept_now env) → issued (lease_of request) →
  handle env request node_id endpoint key w = (Ok resp, w1) →
  RemoteDesktopRequestV1.action request = RemoteDesktopActionV1.Input →
  RemoteDesktopRequestV1.input_sequence request = Some q →
  applied (lease_of request) q (timestamp_millis (accept_now env), w1).
Proof.
  intros Hacc Ht Hi H Haction Hq.
  eapply handle_inv in H as [[_ ?]|(wa & session & Hp & _ & Hev & Hs & Hid & Hcase)]; [done| |done].
  assert (spent (timestamp_millis (accept_now env)) (store wa) (lease_of request)) as Hsp.
  { destruct Hcase as [->|(_ & Hsp & _)]; [|done]. destruct (Hacc _ _ Hs) as (lease & Hl & Heq & Hsp).
    rewrite <-(unique lease (lease_of request)) by congruence. by eapply spent_evolves. }
  unfold perform in Hp. rewrite Haction in Hp. apply perform_input_inv in Hp as [[? _]|Hp]; [done|].
  destruct Hp as (q0 & st & _ & _ & Hq0 & Hst & _ & Hstore & _ & [[? _]|[_ Hss]]); [done|].
  unfold applied. cbn [fst snd]. rewrite Hstore, Hss. split; [done|].
  intros st'. rewrite lookup_insert_eq. intros [= <-] _. cbn. rewrite Hq in Hq0. by injection Hq0 as ->.
Qed.

(** An applied sequence is refused. *)
Lemma applied_refuses t env request node_id endpoint key w r w' q q' :
  applied (lease_of request) q (t, w) → t ≤ timestamp_millis (accept_now env) →
  RemoteDesktopRequestV1.action request = RemoteDesktopActionV1.Input →
  RemoteDesktopRequestV1.input_sequence request = Some q' → q' ≤ q →
  handle env request node_id endpoint key w = (r, w') →
  is_ok r = false ∧ desktop w' = desktop w.
Proof.
  intros [Hsp Hseq] Ht Haction Hq Hle H. cbn [fst snd] in *.
  eapply handle_inv in H as [[-> ?]|(wa & session & Hp & Hd & _ & Hs & Hid & Hcase)]; [done| |done].
  destruct Hcase as [->|(_ & _ & s1 & Hacc)]; [|by apply (spent_refused t) in Hacc].
  specialize (Hseq _ Hs Hid).
  unfold perform in Hp. rewrite Haction in Hp. apply perform_input_inv in Hp as [[? ->]|Hp]; [done|].
  destruct Hp as (q0 & st & _ & _ & Hq0 & Hst & Hlt & _). rewrite Hs in Hst. rewrite Hq in Hq0.
  simplify_eq. lia.
Qed.

(** [C17] Input that was applied completely is not applied again. Requests are handled one after
    another, and the Governor never signs two leases under one lease id. Take any history from
    an empty session table (requests of any session, restarts, other uses of the store, changes
    by the owner), let an input request succeed, and continue the history: every later request
    under the same lease whose sequence is not beyond the applied one, in particular the same
    request again, fails and leaves the desktop as it was. *)
Theorem remote_input_applied_once env request node_id endpoint key resp t0 w0 t w w1 q
    env' request' node_id' endpoint' key' t2 w2 q' r w3 :
  sessions w0 = ∅ → rtc step (t0, w0) (t, w) →
  t ≤ timestamp_millis (accept_now env) → issued (lease_of request) →
  handle env request node_id endpoint key w = (Ok resp, w1) →
  RemoteDesktopRequestV1.action request = RemoteDesktopActionV1.Input →
  RemoteDesktopRequestV1.input_sequence request = Some q →
  rtc step (timestamp_millis (accept_now env), w1) (t2, w2) →
  t2 ≤ timestamp_millis (accept_now env') → lease_of request' = lease_of request →
  RemoteDesktopRequestV1.action request' = RemoteDesktopActionV1.Input →
  RemoteDesktopRequestV1.input_sequence request' = Some q' → q' ≤ q →
  handle env' request' node_id' endpoint' key' w2 = (r, w3) →
  is_ok r = false ∧ desktop w3 = desktop w2.
Proof.
  intros Hempty Hpast Ht Hi H Haction Hq Hfuture Ht2 Hlease Haction' Hq' Hle H'.
  assert (accounted (t, w)) as Hacc.
  { assert (∀ c c', rtc step c c' → accounted c → accounted c') as Hrtc
      by (induction 1; eauto using step_accounted).
    eapply Hrtc; [exact Hpast|]. intros id st. cbn. by rewrite Hempty, lookup_empty. }
  assert (applied (lease_of request) q (t2, w2)) as Happ.
  { assert (∀ c c', rtc step c c' → applied (lease_of request) q c → applied (lease_of request) q c')
      as Hrtc by (induction 1; eauto using step_applied).
    eapply Hrtc; [exact Hfuture|]. by eapply input_applies. }
  rewrite <-Hlease in Happ. by eapply applied_refuses.
Qed.

End facts.

(** ** Concrete instances *)

Module Witness.
Import ReferenceCrypto StorageFacts.Witness.

#[export] Instance reference_render : Render := {|
  uuid_to_string := Reference.digits 32; uuid_parse _ := None; datetime_to_json := to_rfc3339
|}.

Definition parse_policy (bytes : string) : option (string * bool) :=
  if bytes == "on" then Some ("rampage.remote-assist-policy.v1", true) else None.
Definition governor_key : @SigningKey reference_crypto := "governor".
Definition lease (lease_id : Uuid) (nonce : string) : RemoteDesktopLeaseV1.t :=
  sign_contract (T := RemoteDesktopLeaseV1.t) governor_key
    (RemoteDesktopLeaseV1.mk RemoteDesktopLeaseV1.SCHEMA lease_id 5 3 "controller"
       RemoteDesktopModeV1.Control 1920 1080 10 0 (seconds 30) nonce 6 "").
Definition click : list RemoteInputEventV1.t :=
  [RemoteInputEventV1.MouseButton RemoteMouseButtonV1.Left true;
   RemoteInputEventV1.MouseButton RemoteMouseButtonV1.Left false].
Definition input (l : RemoteDesktopLeaseV1.t) (q : Z) : RemoteDesktopRequestV1.t :=
  RemoteDesktopRequestV1.mk RemoteDesktopRequestV1.SCHEMA 40 l RemoteDesktopActionV1.Input (Some q) click.
Definition other (l : RemoteDesktopLeaseV1.t) (a : RemoteDesktopActionV1.t) : RemoteDesktopRequestV1.t :=
  RemoteDesktopRequestV1.mk RemoteDesktopRequestV1.SCHEMA 41 l a None [].
Definition env (second : Z) (sent : Z) : Env :=
  mkEnv (seconds second) (seconds second) (seconds second) (seconds second) true
    (λ _ _, Err "no capture") sent.
Definition world : World CasStore.t :=
  mkWorld ∅ 0 (CasStore.open_with_limits None) false (Some "on") Missing [].
Definition serve (e : Env) (r : RemoteDesktopRequestV1.t) (w : World CasStore.t) :=
  handle_request parse_policy true e r 3 "controller" (hex_encode (verifying_key governor_key)) w.

Definition l1 : RemoteDesktopLeaseV1.t := lease 11 "n1".
Definition l2 : RemoteDesktopLeaseV1.t := lease 12 "n2".
Definition issued (l : RemoteDesktopLeaseV1.t) : Prop := l = l1 ∨ l = l2.

Lemma issued_unique l l' :
  issued l → issued l' → RemoteDesktopLeaseV1.lease_id l = RemoteDesktopLeaseV1.lease_id l' → l = l'.
Proof. intros [->| ->] [->| ->]; vm_compute; first [reflexivity | discriminate]. Qed.

Lemma remote_input_applied_once_witness :
  ∃ resp w1 r w3, serve (env 1 2) (input l1 7) world = (Ok resp, w1) ∧
    serve (env 2 2) (input l1 7) (restart w1) = (r, w3) ∧
    is_ok r = false ∧ desktop w3 = desktop w1.
Proof.
  destruct (serve (env 1 2) (input l1 7) world) as [[resp|] w1] eqn:E; [|vm_compute in E; discriminate E].
  destruct (serve (env 2 2) (input l1 7) (restart w1)) as [r w3] eqn:E'.
  exists resp, w1, r, w3. split; [reflexivity|]. split; [exact E'|].
  refine (remote_input_applied_once parse_policy true issued issued_unique (env 1 2) (input l1 7) _ _ _
            resp 0 world 0 world w1 7 (env 2 2) (input l1 7) _ _ _ 1000 (restart w1) 7 r w3
            eq_refl (rtc_refl _ _) _ _ E eq_refl eq_refl _ _ eq_refl eq_refl eq_refl _ E').
  - vm_compute. discriminate.
  - left. reflexivity.
  - apply rtc_once. exact (step_restart _ _ _ 1000 w1).
  - vm_compute. discriminate.
  - lia.
Defined.

Lemma remote_input_authorized_witness :
  ∃ r w1, serve (env 1 2) (input l1 7) world = (r, w1) ∧ desktop w1 = click ∧
    RemoteDesktopLeaseV1.mode l1 = RemoteDesktopModeV1.Control.
Proof.
  destruct (serve (env 1 2) (input l1 7) world) as [r w1] eqn:E.
  assert (desktop w1 = click) as Hd by (vm_compute in E; injection E as _ <-; reflexivity).
  exists r, w1. split; [reflexivity|]. split; [exact Hd|].
  destruct (remote_input_authorized parse_policy true _ _ _ _ _ _ _ _ E) as (_ & _ & _ & _ & _ & _ & Hm & _).
  - rewrite Hd. discriminate.
  - exact Hm.
Defined.

(** Requests run concurrently, and the two critical sections of one request are separate:
    a copy of an input request admitted before the session is closed and reopened under
    the next lease is applied a second time. *)
Definition interleaved : World CasStore.t :=
  let admitted := (admit_session (env 1 2) l1 world).2 in
  let first := (perform true (env 1 2) (input l1 7) admitted).2 in
  let closed := (serve (env 1 2) (other l1 RemoteDesktopActionV1.Close) first).2 in
  let reopened := (serve (env 2 2) (other l2 RemoteDesktopActionV1.Heartbeat) closed).2 in
  (perform true (env 2 2) (input l1 7) reopened).2.
Example concurrent_copy_applied_twice : desktop interleaved = click ++ click.
Proof. vm_compute. reflexivity. Qed.

(** When Windows takes only some of the events the request fails with its sequence unused,
    and a retry injects those events again. *)
Example partial_injection_repeats :
  let w1 := (serve (env 1 1) (input l1 7) world).2 in
  desktop (serve (env 2 2) (input l1 7) w1).2 = take 1 click ++ click.
Proof. vm_compute. reflexivity. Qed.

End Witness.
