(* ===== verification/Relay.v ===== *)
(** * The owner relay (crates/rampage-relay/src/lib.rs)

    Configuration checks, the signed allowlist and its cache, and the accounting of relay
    connections.  URL parsing and JSON are the class [RelayParsers]; the file system, the
    controller's answer over HTTP and the readings of the clocks are the record [Env]; a
    failed [context] or [ensure!] is [None] of the option monad, which keeps no message.
    Addresses are parsed as [IpAddr::from_str] of the standard library does. *)

From S2P Require Import Prelude.
From S2P Require Import Codec.
From S2P Require Import Text.
From S2P Require Import Contracts.
From S2P Require Import Signing.
Import Text.

(** ** Network addresses of the standard library *)

Module IpAddr.
Inductive t :=
| V4 (octets : list Z)
| V6 (segments : list Z).

Definition is_loopback (ip : t) : bool :=
  match ip with
  | V4 octets => match octets with a :: _ => a =? 127 | [] => false end
  | V6 segments => segments == [0; 0; 0; 0; 0; 0; 0; 1]
  end.

(** [char::to_digit(radix)] for radix 10 and 16. *)
Definition to_digit (radix : Z) (c : ascii) : option Z :=
  let b := Z.of_N (N_of_ascii c) in
  let value :=
    if in_range 48 57 b then Some (b - 48)
    else if in_range 97 102 b then Some (b - 87)
    else if in_range 65 70 b then Some (b - 55) else None in
  d ← value; if d <? radix then Some d else None.

(** The digits at the front: value, count and rest. *)
Fixpoint digits (radix acc : Z) (count : nat) (s : string) : Z * nat * string :=
  match s with
  | String c s' =>
      match to_digit radix c with
      | Some d => digits radix (radix * acc + d) (S count) s'
      | None => (acc, count, s)
      end
  | "" => (acc, count, s)
  end.

(** [Parser::read_number]: at most [max_digits] digits, a value of at most [max]. *)
Definition read_number (radix max : Z) (max_digits : nat) (allow_zero_prefix : bool) (s : string)
    : option (Z * string) :=
  let '(n, count, rest) := digits radix 0 0 s in
  let leading_zero := match s with String "0" _ => true | _ => false end in
  if (count =? 0)%nat || (max_digits <? count)%nat || (max <? n)
     || (negb allow_zero_prefix && leading_zero && (1 <? count)%nat)
  then None else Some (n, rest).

Definition read_char (c : ascii) (s : string) : option string :=
  match s with
  | String d s' => if d == c then Some s' else None
  | "" => None
  end.

(** [Parser::read_separator]: the separator from the second item on. *)
Definition read_separator {A} (sep : ascii) (index : nat) (inner : string → option (A * string))
    (s : string) : option (A * string) :=
  s' ← (if (0 <? index)%nat then read_char sep s else Some s); inner s'.

Fixpoint read_octets (count index : nat) (s : string) : option (list Z * string) :=
  match count with
  | O => Some ([], s)
  | S count =>
      '(n, s1) ← read_separator "." index (read_number 10 255 3 false) s;
      '(ns, s2) ← read_octets count (S index) s1;
      Some (n :: ns, s2)
  end.
Definition read_ipv4_addr : string → option (list Z * string) := read_octets 4 0.

(** [read_groups] for at most [limit] groups, from group [index] on: the groups, whether
    they end in an embedded IPv4 address, and the rest. *)
Fixpoint read_groups (limit index : nat) (s : string) : list Z * bool * string :=
  match limit with
  | O => ([], false, s)
  | S limit' =>
      let embedded := if (0 <? limit')%nat then read_separator ":" index read_ipv4_addr s else None in
      match embedded with
      | Some ([a; b; c; d], rest) => ([256 * a + b; 256 * c + d], true, rest)
      | _ =>
          match read_separator ":" index (read_number 16 65535 4 true) s with
          | Some (group, rest) =>
              let '(groups, ipv4, rest') := read_groups limit' (S index) rest in
              (group :: groups, ipv4, rest')
          | None => ([], false, s)
          end
      end
  end.

Definition read_ipv6_addr (s : string) : option (list Z * string) :=
  let '(head, head_ipv4, s1) := read_groups 8 0 s in
  if (length head =? 8)%nat then Some (head, s1)
  else if head_ipv4 then None
  else
    s2 ← read_char ":" s1;
    s3 ← read_char ":" s2;
    let '(tail, _, s4) := read_groups (8 - (length head + 1)) 0 s3 in
    Some (head ++ replicate (8 - length head - length tail) 0 ++ tail, s4).

(** [IpAddr::from_str]. *)
Definition parse (s : string) : option t :=
  match read_ipv4_addr s with
  | Some (octets, rest) => if is_empty rest then Some (V4 octets) else None
  | None =>
      match read_ipv6_addr s with
      | Some (segments, "") => Some (V6 segments)
      | _ => None
      end
  end.

Example parse_loopbacks :
  (λ s, is_loopback <$> parse s) <$> ["127.0.0.1"; "127.9.9.9"; "::1"; "0:0:0:0:0:0:0:1"; "10.0.0.1";
    "::ffff:127.0.0.1"; "127.0.0.01"; "127.0.0"; "localhost"; "::1%0"; "1::2::3"] =
  [Some true; Some true; Some true; Some true; Some false; Some false; None; None; None; None; None].
Proof. vm_compute. reflexivity. Qed.
End IpAddr.

Module SocketAddr.
Record t := mk { ip : IpAddr.t; port : Z }.
#[global] Instance ip_eq_dec : EqDecision IpAddr.t.
Proof. solve_decision. Defined.
#[global] Instance eq_dec : EqDecision t.
Proof. solve_decision. Defined.
End SocketAddr.

(** [String::from_utf8(bytes).is_ok()]. *)
Fixpoint is_utf8 (s : string) : bool :=
  let cont c := between 128 191 (N_of_ascii c) in
  match s with
  | "" => true
  | String a s1 =>
      let x := N_of_ascii a in
      if (x <? 128)%N then is_utf8 s1
      else match s1 with
      | "" => false
      | String b s2 =>
          let y := N_of_ascii b in
          if between 194 223 x then cont b && is_utf8 s2
          else match s2 with
          | "" => false
          | String c s3 =>
              if between 224 239 x
              then (if (x =? 224)%N then between 160 191 y
                    else if (x =? 237)%N then between 128 159 y else cont b)
                   && cont c && is_utf8 s3
              else match s3 with
              | "" => false
              | String d s4 =>
                  between 240 244 x
                  && (if (x =? 240)%N then between 144 191 y
                      else if (x =? 244)%N then between 128 143 y else cont b)
                  && cont c && cont d && is_utf8 s4
              end
          end
      end
  end.

(** ** Configuration *)

Module Url.
(** The accessors of a parsed [reqwest::Url]. *)
Record t := mk {
  scheme : string; username : string; password : option string; host_str : option string;
  path : string; query : option string; fragment : option string
}.
End Url.

Module ManualTlsConfigV1.
Record t := mk { https_bind_addr : SocketAddr.t; certificate_path : string; private_key_path : string }.
End ManualTlsConfigV1.

Module RelayAccessSourceV1.
Inductive t :=
| ControllerLoopback (url token_file : string)
| SignedFile (path : string).
End RelayAccessSourceV1.

Module OwnerRelayConfigV1.
Record t := mk {
  schema : string;
  public_url : string;
  http_bind_addr : SocketAddr.t;
  tls : option ManualTlsConfigV1.t;
  quic_bind_addr : option SocketAddr.t;
  metrics_bind_addr : option SocketAddr.t;
  governor_public_key : string;
  access_source : RelayAccessSourceV1.t;
  snapshot_cache_seconds : Z;
  client_rx_bytes_per_second : Z;
  client_rx_max_burst_bytes : Z;
  key_cache_capacity : Z;
  max_connections_per_endpoint : Z;
  max_total_connections : Z
}.
Definition SCHEMA : string := "rampage.owner-relay-config.v1".
Definition reverse_proxy (public_url governor_public_key controller_manifest_url
    controller_token_file : string) (http_bind_addr : SocketAddr.t) : t :=
  mk SCHEMA public_url http_bind_addr None None None governor_public_key
    (RelayAccessSourceV1.ControllerLoopback controller_manifest_url controller_token_file)
    5 (64 * 1024 * 1024) (128 * 1024 * 1024) 4096 8 1024.
End OwnerRelayConfigV1.

Class RelayParsers := {
  url_parse : string → option Url.t;                                (* reqwest::Url::parse *)
  relay_url_ok : string → bool;                                     (* iroh::RelayUrl::from_str *)
  config_from_json : string → option OwnerRelayConfigV1.t;          (* serde_json::from_slice *)
  manifest_from_json : string → option RelayAccessManifestV1.t
}.

Module Relay.

Definition MAX_MANIFEST_BYTES : Z := 1024 * 1024.
Definition MAX_TOKEN_BYTES : Z := 512.
Definition MIN_RATE_BYTES_PER_SECOND : Z := 1024 * 1024.
Definition MAX_RATE_BYTES_PER_SECOND : Z := 1024 * 1024 * 1024.

(** [anyhow::ensure!]. *)
Definition ensure (b : bool) : option () := if b then Some () else None.

(** ** Files and answers *)

(** A file as one open sees it: its metadata and what reading it yields. *)
Record File := mkFile { is_file : bool; metadata_len : Z; content : string }.

(** An answer of the controller: status, declared length and body chunks, where [None]
    is a failed read. *)
Record Response := mkResponse {
  is_success : bool; content_length : option Z; chunks : list (option string)
}.

Record Env := mkEnv {
  files : string → option File;
  http_get : string → string → option Response;    (* url and token *)
  instant : Z;                 (* [Instant::now()] of this call, in nanoseconds *)
  utc_cached : DateTime;       (* the clock when a cached manifest is verified *)
  utc_fetched : DateTime;      (* and when a fetched one is *)
  instant_fetched : Z
}.

(** [read_bounded_file] and [read_bounded_sync_file]. *)
Definition read_bounded_file (files : string → option File) (path : string) (max_bytes : Z)
    : option string :=
  file ← files path;
  _ ← ensure (is_file file && (metadata_len file <=? max_bytes));
  let bytes := String.substring 0 (Z.to_nat (max_bytes + 1)) (content file) in
  _ ← ensure (len bytes <=? max_bytes);
  Some bytes.

(** The loop of [read_bounded_response]. *)
Fixpoint read_chunks (bytes : string) (chunks : list (option string)) : option string :=
  match chunks with
  | [] => Some bytes
  | chunk :: chunks =>
      chunk ← chunk;
      _ ← ensure (sat_add (len bytes) (len chunk) <=? MAX_MANIFEST_BYTES);
      read_chunks (bytes +:+ chunk) chunks
  end.
Definition read_bounded_response (response : Response) : option string :=
  read_chunks "" (chunks response).

(** [s.trim_start_matches('[')] and [s.trim_end_matches(']')]. *)
Fixpoint trim_start_matches (c : ascii) (s : string) : string :=
  match s with
  | String d s' => if d == c then trim_start_matches c s' else s
  | "" => ""
  end.
Fixpoint trim_end_matches (c : ascii) (s : string) : string :=
  match s with
  | "" => ""
  | String d s' =>
      match trim_end_matches c s' with
      | "" => if d == c then "" else String d ""
      | rest => String d rest
      end
  end.

Section relay.
Context {codec : Codec} {crypto : Crypto} {ser : Serializer} {parsers : RelayParsers}.

Definition validate_governor_key (public_key : string) : option () :=
  ensure ((len public_key =? 64) && all_bytes is_ascii_hexdigit public_key).

Definition validate_source (source : RelayAccessSourceV1.t) : option () :=
  match source with
  | RelayAccessSourceV1.ControllerLoopback url token_file =>
      parsed ← url_parse url;
      _ ← ensure ((Url.scheme parsed == "http") || (Url.scheme parsed == "https"));
      host ← Url.host_str parsed;
      ip ← IpAddr.parse (trim_end_matches "]" (trim_start_matches "[" host));
      _ ← ensure (IpAddr.is_loopback ip);
      _ ← ensure ((Url.path parsed == "/v1/mesh/relay-access") && is_empty (Url.username parsed)
                  && is_none (Url.password parsed) && is_none (Url.query parsed)
                  && is_none (Url.fragment parsed));
      ensure (negb (is_empty token_file))
  | RelayAccessSourceV1.SignedFile path => ensure (negb (is_empty path))
  end.

Definition validate (self : OwnerRelayConfigV1.t) : option () :=
  _ ← ensure (OwnerRelayConfigV1.schema self == OwnerRelayConfigV1.SCHEMA);
  _ ← validate_governor_key (OwnerRelayConfigV1.governor_public_key self);
  public_url ← url_parse (OwnerRelayConfigV1.public_url self);
  _ ← ensure (Url.scheme public_url == "https");
  _ ← ensure (is_empty (Url.username public_url) && is_none (Url.password public_url)
              && is_none (Url.query public_url) && is_none (Url.fragment public_url));
  _ ← ensure (relay_url_ok (OwnerRelayConfigV1.public_url self));
  _ ← ensure (IpAddr.is_loopback (SocketAddr.ip (OwnerRelayConfigV1.http_bind_addr self)));
  _ ← (if is_none (OwnerRelayConfigV1.tls self)
       then ensure (is_none (OwnerRelayConfigV1.quic_bind_addr self)) else Some ());
  _ ← match OwnerRelayConfigV1.tls self with
      | Some tls => ensure (ManualTlsConfigV1.https_bind_addr tls
                              != OwnerRelayConfigV1.http_bind_addr self)
      | None => Some ()
      end;
  _ ← match OwnerRelayConfigV1.metrics_bind_addr self with
      | Some metrics => ensure (IpAddr.is_loopback (SocketAddr.ip metrics))
      | None => Some ()
      end;
  _ ← ensure (in_range 1 30 (OwnerRelayConfigV1.snapshot_cache_seconds self));
  _ ← ensure (in_range MIN_RATE_BYTES_PER_SECOND MAX_RATE_BYTES_PER_SECOND
                (OwnerRelayConfigV1.client_rx_bytes_per_second self));
  _ ← ensure ((OwnerRelayConfigV1.client_rx_bytes_per_second self
                 <=? OwnerRelayConfigV1.client_rx_max_burst_bytes self)
              && (OwnerRelayConfigV1.client_rx_max_burst_bytes self
                    <=? Z.min u32_max (OwnerRelayConfigV1.client_rx_bytes_per_second self * 4)));
  _ ← ensure (in_range 128 65536 (OwnerRelayConfigV1.key_cache_capacity self));
  _ ← ensure (in_range 1 64 (OwnerRelayConfigV1.max_connections_per_endpoint self));
  _ ← ensure (in_range 1 65536 (OwnerRelayConfigV1.max_total_connections self)
              && (OwnerRelayConfigV1.max_connections_per_endpoint self
                    <=? OwnerRelayConfigV1.max_total_connections self));
  validate_source (OwnerRelayConfigV1.access_source self).

Definition load (files : string → option File) (path : string) : option OwnerRelayConfigV1.t :=
  bytes ← read_bounded_file files path MAX_MANIFEST_BYTES;
  config ← config_from_json bytes;
  _ ← validate config;
  Some config.

Definition path_is_file (files : string → option File) (path : string) : bool :=
  is_some_and is_file (files path).
Definition validate_files (files : string → option File) (self : OwnerRelayConfigV1.t) : option () :=
  _ ← match OwnerRelayConfigV1.tls self with
      | Some tls =>
          _ ← ensure (path_is_file files (ManualTlsConfigV1.certificate_path tls));
          ensure (path_is_file files (ManualTlsConfigV1.private_key_path tls))
      | None => Some ()
      end;
  match OwnerRelayConfigV1.access_source self with
  | RelayAccessSourceV1.SignedFile path => ensure (path_is_file files path)
  | RelayAccessSourceV1.ControllerLoopback _ _ => Some ()
  end.

(** ** Access *)

Record ActiveConnections := mkActive { total : Z; by_endpoint : gmap string Z }.
Record CachedManifest := mkCached { fetched_at : Z; manifest : RelayAccessManifestV1.t }.

(** [SignedManifestAccess]. *)
Record t := mkAccess {
  source : RelayAccessSourceV1.t;
  governor_public_key : string;
  cache_duration : Z;
  cache : option CachedManifest;
  active : ActiveConnections;
  max_per_endpoint : Z;
  max_total : Z
}.

Definition new (config : OwnerRelayConfigV1.t) : option t :=
  _ ← validate config;
  Some (mkAccess (OwnerRelayConfigV1.access_source config)
          (OwnerRelayConfigV1.governor_public_key config)
          (OwnerRelayConfigV1.snapshot_cache_seconds config * 1000000000) None (mkActive 0 ∅)
          (OwnerRelayConfigV1.max_connections_per_endpoint config)
          (OwnerRelayConfigV1.max_total_connections config)).

Definition set_cache (c : option CachedManifest) (self : t) : t :=
  mkAccess (source self) (governor_public_key self) (cache_duration self) c (active self)
    (max_per_endpoint self) (max_total self).
Definition set_active (a : ActiveConnections) (self : t) : t :=
  mkAccess (source self) (governor_public_key self) (cache_duration self) (cache self) a
    (max_per_endpoint self) (max_total self).

(** The bytes of a fresh manifest. *)
Definition fetch (env : Env) (source : RelayAccessSourceV1.t) : option string :=
  match source with
  | RelayAccessSourceV1.SignedFile path => read_bounded_file (files env) path MAX_MANIFEST_BYTES
  | RelayAccessSourceV1.ControllerLoopback url token_file =>
      token ← read_bounded_file (files env) token_file MAX_TOKEN_BYTES;
      _ ← ensure (is_utf8 token);
      let token := trim token in
      _ ← ensure (negb (is_empty token) && (len token <=? 512));
      response ← http_get env url token;
      _ ← ensure (is_success response);
      _ ← ensure (default 0 (content_length response) <=? MAX_MANIFEST_BYTES);
      read_bounded_response response
  end.

(** [Instant::elapsed] saturates at zero. *)
Definition is_fresh (env : Env) (self : t) (cached : CachedManifest) : bool :=
  (Z.max 0 (instant env - fetched_at cached) <? cache_duration self)
  && is_ok (verify_relay_access_manifest_with_key (utc_cached env) (governor_public_key self)
              (manifest cached)).

Definition load_manifest (env : Env) (self : t) : option RelayAccessManifestV1.t * t :=
  let refreshed :=
    bytes ← fetch env (source self);
    manifest ← manifest_from_json bytes;
    match verify_relay_access_manifest_with_key (utc_fetched env) (governor_public_key self) manifest with
    | Ok _ => Some manifest
    | Err _ => None
    end in
  match cache self with
  | Some cached =>
      if is_fresh env self cached then (Some (manifest cached), self)
      else match refreshed with
           | Some m => (Some m, set_cache (Some (mkCached (instant_fetched env) m)) self)
           | None => (None, self)
           end
  | None =>
      match refreshed with
      | Some m => (Some m, set_cache (Some (mkCached (instant_fetched env) m)) self)
      | None => (None, self)
      end
  end.
Definition check_access : Env → t → option RelayAccessManifestV1.t * t := load_manifest.

(** The locked part of admission; the sums of [u32] and [u16] wrap. *)
Definition open_connection (self : t) (endpoint_id : string) : result string () * t :=
  let endpoint_count := default 0 (by_endpoint (active self) !! endpoint_id) in
  if (max_total self <=? total (active self)) || (max_per_endpoint self <=? endpoint_count)
  then (Err "relay connection threshold reached", self)
  else
    (Ok (), set_active
              (mkActive ((total (active self) + 1) mod 4294967296)
                 (<[endpoint_id := (endpoint_count + 1) mod 65536]> (by_endpoint (active self)))) self).

(** The source's [admit]. *)
Definition admit_ (env : Env) (self : t) (endpoint_id : string) : result string () * t :=
  match load_manifest env self with
  | (None, self') => (Err "relay authorization is unavailable or invalid", self')
  | (Some manifest, self') =>
      if negb (bool_decide (endpoint_id ∈ RelayAccessManifestV1.allowed_endpoint_ids manifest))
      then (Err "endpoint is not enrolled in this Rampage fabric", self')
      else open_connection self' endpoint_id
  end.

Definition release (self : t) (endpoint_id : string) : t :=
  match by_endpoint (active self) !! endpoint_id with
  | None => self
  | Some count =>
      let total' := sat_sub (total (active self)) 1 in
      set_active
        (mkActive total'
           (if count <=? 1 then delete endpoint_id (by_endpoint (active self))
            else <[endpoint_id := count - 1]> (by_endpoint (active self)))) self
  end.

(** [AccessControl]. *)
Inductive Access := Allow | Deny (reason : option string).
Definition on_connect (env : Env) (self : t) (endpoint_id : string) : Access * t :=
  match admit_ env self endpoint_id with
  | (Ok _, self') => (Allow, self')
  | (Err reason, self') => (Deny (Some reason), self')
  end.
Definition on_disconnect (self : t) (endpoint_id : string) : t := release self endpoint_id.

(** [spawn_owner_relay] up to the call that starts the server, which gets the access
    control and the client rate; [tls_ok] is whether the certificate and key load. *)
Definition spawn_owner_relay (env : Env) (tls_ok : ManualTlsConfigV1.t → bool)
    (config : OwnerRelayConfigV1.t) : option (t * Z * Z) :=
  _ ← validate config;
  _ ← validate_files (files env) config;
  access ← new config;
  match check_access env access with
  | (None, _) => None
  | (Some _, access') =>
      _ ← ensure (OwnerRelayConfigV1.client_rx_bytes_per_second config != 0);
      _ ← ensure (match OwnerRelayConfigV1.tls config with Some tls => tls_ok tls | None => true end);
      Some (access', OwnerRelayConfigV1.client_rx_bytes_per_second config,
            OwnerRelayConfigV1.client_rx_max_burst_bytes config)
  end.

(** ** Histories *)

(** What the relay server does with its access control, and the connections it has open:
    it starts from a valid configuration, reports every connection attempt, and reports
    the end of connections it had allowed (or of endpoints that have none open). *)
Inductive reachable : t → list string → Prop :=
| reach_new config self : new config = Some self → reachable self []
| reach_check env self opened :
    reachable self opened → reachable (check_access env self).2 opened
| reach_allow env self opened endpoint self' :
    reachable self opened → on_connect env self endpoint = (Allow, self') →
    reachable self' (endpoint :: opened)
| reach_deny env self opened endpoint reason self' :
    reachable self opened → on_connect env self endpoint = (Deny reason, self') →
    reachable self' opened
| reach_close self before endpoint after :
    reachable self (before ++ endpoint :: after) →
    reachable (on_disconnect self endpoint) (before ++ after)
| reach_stray self opened endpoint :
    reachable self opened → endpoint ∉ opened → reachable (on_disconnect self endpoint) opened.

End relay.
End Relay.
