(* ===== verification/RelayFacts.v ===== *)
(** * What the owner relay guarantees

    A connection is allowed only for an endpoint on a Governor-signed, unexpired allowlist
    fetched within the cache window, and the counters of the relay are exactly the
    connections it has open, within the configured limits. *)

From S2P Require Import Prelude.
From S2P Require Import Codec.
From S2P Require Import Text.
From S2P Require Import Contracts.
From S2P Require Import Signing.
From S2P Require Import Relay.
Import Text Relay.

Section facts.
Context {codec : Codec} {crypto : Crypto} {ser : Serializer} {parsers : RelayParsers}.

(** ** Loading the manifest *)

(** Where a manifest came from: the cache, while it is fresh, or the source, just now. *)
Inductive current (env : Env) (self : t) (m : RelayAccessManifestV1.t) : DateTime → Prop :=
| current_cached at_ :
    cache self = Some (mkCached at_ m) → instant env - at_ < cache_duration self →
    current env self m (utc_cached env)
| current_fetched bytes :
    fetch env (source self) = Some bytes → manifest_from_json bytes = Some m →
    current env self m (utc_fetched env).

Lemma load_manifest_inv env self m self' :
  load_manifest env self = (m, self') →
  active self' = active self ∧ max_total self' = max_total self ∧
  max_per_endpoint self' = max_per_endpoint self ∧ cache_duration self' = cache_duration self ∧
  ∀ m', m = Some m' → ∃ utc, current env self m' utc ∧
    verify_relay_access_manifest_with_key utc (governor_public_key self) m' = Ok ().
Proof.
  intros H. unfold load_manifest in H. cbn zeta in H.
  set (refreshed := fetch env (source self) ≫= _) in H.
  assert (∀ m', refreshed = Some m' → ∃ utc, current env self m' utc ∧
    verify_relay_access_manifest_with_key utc (governor_public_key self) m' = Ok ()) as Href.
  { intros m'. unfold refreshed. destruct (fetch _ _) as [bytes|] eqn:Hf; [|done]. cbn.
    destruct (manifest_from_json bytes) as [m0|] eqn:Hj; [|done]. cbn.
    destruct (verify_relay_access_manifest_with_key _ _ _) as [[]|] eqn:Hv; [|done]. intros [= <-].
    exists (utc_fetched env). split; [by eapply current_fetched|done]. }
  destruct (cache self) as [cached|] eqn:Hc; [destruct (is_fresh env self cached) eqn:Hfr|].
  - injection H as <- <-. split_and!; [done..|]. intros m' [= <-].
    unfold is_fresh in Hfr. apply andb_prop in Hfr as [Hlt Hv]. bool_prop.
    exists (utc_cached env). destruct cached as [at_ m]. cbn [fetched_at manifest] in *. split.
    + eapply current_cached; [done|lia].
    + by destruct (verify_relay_access_manifest_with_key _ _ _) as [[]|].
  - destruct refreshed; injection H as <- <-; by split_and!.
  - destruct refreshed; injection H as <- <-; by split_and!.
Qed.

(** Admission, taken apart. *)
Lemma on_connect_inv env self endpoint access self' :
  on_connect env self endpoint = (access, self') →
  max_total self' = max_total self ∧ max_per_endpoint self' = max_per_endpoint self ∧
  cache_duration self' = cache_duration self ∧
  let count := default 0 (by_endpoint (active self) !! endpoint) in
  match access with
  | Deny _ => active self' = active self
  | Allow =>
      (∃ m utc, current env self m utc ∧
         verify_relay_access_manifest_with_key utc (governor_public_key self) m = Ok () ∧
         endpoint ∈ RelayAccessManifestV1.allowed_endpoint_ids m) ∧
      total (active self) < max_total self ∧ count < max_per_endpoint self ∧
      active self' = mkActive ((total (active self) + 1) mod 4294967296)
                       (<[endpoint := (count + 1) mod 65536]> (by_endpoint (active self)))
  end.
Proof.
  unfold on_connect, admit_. intros H. destruct (load_manifest env self) as [m s1] eqn:Hl.
  apply load_manifest_inv in Hl as (Ha & Ht & Hp & Hd & Hm).
  destruct m as [m|]; [|injection H as <- <-; done].
  destruct (bool_decide_reflect (endpoint ∈ RelayAccessManifestV1.allowed_endpoint_ids m)) as [Hin|];
    cbn [negb] in H; [|injection H as <- <-; done].
  destruct (Hm m eq_refl) as (utc & Hcur & Hv).
  unfold open_connection in H. rewrite Ha, Ht, Hp in H.
  destruct (Z.leb_spec (max_total self) (total (active self))); cbn [orb] in H; [injection H as <- <-; done|].
  destruct (Z.leb_spec (max_per_endpoint self) (default 0 (by_endpoint (active self) !! endpoint)));
    injection H as <- <-; [done|].
  split_and!; try done. by exists m, utc.
Qed.

(** ** Counting *)

Definition connections (endpoint : string) (opened : list string) : Z :=
  zlen (filter (λ e, e = endpoint) opened).

(** The counters represent the open connections. *)
Definition represents (a : ActiveConnections) (opened : list string) : Prop :=
  total a = zlen opened ∧
  ∀ endpoint, by_endpoint a !! endpoint =
    (if connections endpoint opened =? 0 then None else Some (connections endpoint opened)).

Lemma connections_cons e e' opened :
  connections e (e' :: opened) = (if decide (e' = e) then 1 else 0) + connections e opened.
Proof. unfold connections, zlen. rewrite filter_cons. destruct (decide (e' = e)); cbn [length]; lia. Qed.

Lemma connections_app e l k : connections e (l ++ k) = connections e l + connections e k.
Proof. unfold connections, zlen. rewrite filter_app, length_app. lia. Qed.

Lemma connections_nonneg e l : 0 ≤ connections e l ≤ zlen l.
Proof. unfold connections, zlen. pose proof (length_filter (λ x, x = e) l). lia. Qed.

Lemma connections_absent e l : e ∉ l → connections e l = 0.
Proof.
  intros Hn. induction l as [|x l IH]; [done|]. apply not_elem_of_cons in Hn as [Hx Hn].
  rewrite connections_cons, IH, decide_False by done. done.
Qed.

Lemma represents_count a opened endpoint :
  represents a opened → default 0 (by_endpoint a !! endpoint) = connections endpoint opened.
Proof.
  intros [_ H]. rewrite H. pose proof (connections_nonneg endpoint opened).
  destruct (Z.eqb_spec (connections endpoint opened) 0); cbn; lia.
Qed.

Lemma represents_open a opened endpoint :
  represents a opened → zlen opened < 65536 → connections endpoint opened < 64 →
  represents (mkActive ((total a + 1) mod 4294967296)
    (<[endpoint := (default 0 (by_endpoint a !! endpoint) + 1) mod 65536]> (by_endpoint a)))
    (endpoint :: opened).
Proof.
  intros Hr Hl Hc. pose proof (connections_nonneg endpoint opened).
  rewrite (represents_count _ _ _ Hr). destruct Hr as [Ht Hb]. split; cbn [total by_endpoint].
  - rewrite Ht, Z.mod_small; unfold zlen in *; cbn [length]; lia.
  - intros e. rewrite connections_cons. destruct (decide (endpoint = e)) as [<-|Hne].
    + rewrite lookup_insert_eq, Z.mod_small by lia.
      destruct (Z.eqb_spec (1 + connections endpoint opened) 0); [lia|]. f_equal. lia.
    + rewrite lookup_insert_ne by done. by rewrite Hb.
Qed.

Lemma represents_close self before endpoint after :
  represents (active self) (before ++ endpoint :: after) →
  represents (active (on_disconnect self endpoint)) (before ++ after).
Proof.
  intros [Ht Hb]. unfold on_disconnect, release. rewrite Hb, connections_app, connections_cons.
  pose proof (connections_nonneg endpoint before). pose proof (connections_nonneg endpoint after).
  rewrite decide_True by done.
  destruct (Z.eqb_spec (connections endpoint before + (1 + connections endpoint after)) 0); [lia|].
  cbn [active set_active]. split; cbn [total by_endpoint].
  - rewrite Ht. unfold sat_sub, zlen. rewrite !length_app. cbn [length]. lia.
  - intros e. rewrite connections_app. specialize (Hb e).
    rewrite connections_app, connections_cons in Hb. destruct (decide (endpoint = e)) as [<-|Hne].
    + destruct (Z.leb_spec (connections endpoint before + (1 + connections endpoint after)) 1).
      * rewrite lookup_delete_eq. by destruct (Z.eqb_spec (connections endpoint before + connections endpoint after) 0); [|lia].
      * rewrite lookup_insert_eq. destruct (Z.eqb_spec (connections endpoint before + connections endpoint after) 0); [lia|].
        f_equal. lia.
    + destruct (_ <=? 1); [rewrite lookup_delete_ne by done|rewrite lookup_insert_ne by done]; by rewrite Hb.
Qed.

(** ** Invariant *)

Record bounded (self : t) (opened : list string) : Prop := {
  bounded_cache : 0 < cache_duration self ≤ 30 * 1000000000;
  bounded_total : 1 ≤ max_total self ≤ 65536;
  bounded_per : 1 ≤ max_per_endpoint self ≤ 64;
  bounded_open : zlen opened ≤ max_total self;
  bounded_each endpoint : connections endpoint opened ≤ max_per_endpoint self;
  bounded_represents : represents (active self) opened
}.

Lemma ensure_bind {A} b (k : option A) a : (_ ← ensure b; k) = Some a ↔ b = true ∧ k = Some a.
Proof. destruct b; naive_solver. Qed.

Lemma bind_some {A B} (o : option A) (k : A → option B) b :
  (o ≫= k) = Some b ↔ ∃ a, o = Some a ∧ k a = Some b.
Proof. destruct o; naive_solver. Qed.

Lemma validate_limits config :
  validate config = Some () →
  1 ≤ OwnerRelayConfigV1.snapshot_cache_seconds config ≤ 30 ∧
  1 ≤ OwnerRelayConfigV1.max_connections_per_endpoint config ≤ 64 ∧
  1 ≤ OwnerRelayConfigV1.max_total_connections config ≤ 65536.
Proof.
  unfold validate. intros H.
  repeat first
    [ apply ensure_bind in H as [? H] | apply bind_some in H as (? & ? & H) ].
  unfold in_range in *. bool_prop. lia.
Qed.

Lemma reachable_bounded self opened : reachable self opened → bounded self opened.
Proof.
  induction 1 as [config self Hnew|env self opened _ IH|env self opened endpoint self' _ IH Hc|
    env self opened endpoint reason self' _ IH Hc|self before endpoint after _ IH|self opened endpoint _ IH Hn].
  - unfold new in Hnew. apply bind_some in Hnew as ([] & Hv%validate_limits & [= <-]).
    split; cbn; try lia; [unfold zlen; cbn; lia|intros e; unfold connections, zlen; cbn; lia|].
    split; [done|]. intros e. apply lookup_empty.
  - unfold check_access. destruct (load_manifest env self) as [m s1] eqn:Hl.
    apply load_manifest_inv in Hl as (Ha & Ht & Hp & Hd & _). destruct IH. cbn [snd].
    by split; rewrite ?Ha, ?Ht, ?Hp, ?Hd.
  - apply on_connect_inv in Hc as (Ht & Hp & Hd & _ & Htot & Hcnt & Ha).
    destruct IH as [Hdur Hmax Hper Hopen Heach Hrep].
    rewrite (represents_count _ _ _ Hrep) in Hcnt. pose proof Hrep as [Hlen _].
    split; rewrite ?Ht, ?Hp, ?Hd, ?Ha; try done.
    + unfold zlen in *. cbn [length]. lia.
    + intros e. rewrite connections_cons. specialize (Heach e). destruct (decide _) as [<-|]; lia.
    + apply represents_open; [done|lia|lia].
  - apply on_connect_inv in Hc as (Ht & Hp & Hd & Ha). destruct IH. by split; rewrite ?Ha, ?Ht, ?Hp, ?Hd.
  - destruct IH as [Hdur Hmax Hper Hopen Heach Hrep].
    assert (∀ s, max_total (on_disconnect s endpoint) = max_total s ∧
      max_per_endpoint (on_disconnect s endpoint) = max_per_endpoint s ∧
      cache_duration (on_disconnect s endpoint) = cache_duration s) as Hsame.
    { intros s. unfold on_disconnect, release. by destruct (_ !! _). }
    destruct (Hsame self) as (Ht & Hp & Hd). split; rewrite ?Ht, ?Hp, ?Hd; try done.
    + unfold zlen in *. rewrite length_app in *. cbn [length] in *. lia.
    + intros e. specialize (Heach e). rewrite connections_app, connections_cons in *.
      destruct (decide _); lia.
    + by apply represents_close.
  - unfold on_disconnect, release. destruct IH as [Hdur Hmax Hper Hopen Heach [Hlen Hmap]].
    rewrite Hmap, connections_absent by done. by split.
Qed.

(** [C40] The relay carries only enrolled endpoints.  Whenever it allows a connection, the
    endpoint is on an allowlist that verifies under the pinned Governor key and has not
    expired at that moment, and that was either fetched for this very connection or taken
    from a cache at most thirty seconds old, the bound on how long a revoked endpoint is
    still admitted. *)
Theorem relay_admits_enrolled env self opened endpoint self' :
  reachable self opened → on_connect env self endpoint = (Allow, self') →
  ∃ m utc, verify_relay_access_manifest_with_key utc (governor_public_key self) m = Ok () ∧
    endpoint ∈ RelayAccessManifestV1.allowed_endpoint_ids m ∧
    utc < RelayAccessManifestV1.expires_at m ∧
    ((∃ at_, cache self = Some (mkCached at_ m) ∧ instant env - at_ < 30 * 1000000000 ∧
        utc = utc_cached env) ∨
     (∃ bytes, fetch env (source self) = Some bytes ∧ manifest_from_json bytes = Some m ∧
        utc = utc_fetched env)).
Proof.
  intros Hr%reachable_bounded (_ & _ & _ & (m & utc & Hcur & Hv & Hin) & _)%on_connect_inv.
  exists m, utc. split_and!; [done..| |].
  - unfold verify_relay_access_manifest_with_key in Hv. apply guard_ok in Hv as [Hv _].
    unfold RelayAccessManifestV1.is_valid_at in Hv. by bool_prop.
  - apply bounded_cache in Hr. destruct Hcur as [at_ Hc Hlt|bytes Hf Hj]; [left|right; by exists bytes].
    exists at_. split_and!; [done|lia|done].
Qed.

(** [C21] The relay's accounting implements its specification, the list of open connections.
    After any sequence of connection attempts, closed connections, allowlist checks and
    stray reports, the total and per-endpoint counters are exactly the numbers of open
    connections, within the configured limits (so neither the [u32] nor the [u16] counter
    can wrap), and an enrolled endpoint is admitted exactly when both limits leave room. *)
Theorem relay_accounting_refines self opened :
  reachable self opened →
  represents (active self) opened ∧ zlen opened ≤ max_total self ≤ 65536 ∧
  (∀ endpoint, connections endpoint opened ≤ max_per_endpoint self ≤ 64) ∧
  ∀ env endpoint m, (load_manifest env self).1 = Some m →
    endpoint ∈ RelayAccessManifestV1.allowed_endpoint_ids m →
    (on_connect env self endpoint).1 = Allow ↔
      zlen opened < max_total self ∧ connections endpoint opened < max_per_endpoint self.
Proof.
  intros [Hdur Hmax Hper Hopen Heach Hrep]%reachable_bounded.
  split_and!; [done|lia|lia|intros e; specialize (Heach e); lia|].
  intros env endpoint m Hm Hin. unfold on_connect, admit_.
  destruct (load_manifest env self) as [m' s1] eqn:Hl. cbn [fst] in Hm. subst m'.
  apply load_manifest_inv in Hl as (Ha & Ht & Hp & _). rewrite bool_decide_true by done. cbn [negb].
  unfold open_connection. rewrite Ha, Ht, Hp, (represents_count _ _ _ Hrep), (proj1 Hrep).
  destruct (Z.leb_spec (max_total self) (zlen opened)); cbn [orb fst]; [split; [done|lia]|].
  destruct (Z.leb_spec (max_per_endpoint self) (connections endpoint opened)); cbn [fst];
    split; try done; lia.
Qed.

End facts.

(** ** Concrete instances *)

Module Witness.
Import ReferenceCrypto.

Definition governor_key : @SigningKey reference_crypto := "governor".
Definition worker_a : string := hex_encode (fit 32 "a").
Definition worker_b : string := hex_encode (fit 32 "b").
Definition issued : RelayAccessManifestV1.t :=
  RelayAccessManifestV1.mk RelayAccessManifestV1.SCHEMA "" 1 {[ worker_a; worker_b ]} 0
    (seconds 600) "".
Definition signed : RelayAccessManifestV1.t :=
  default issued (sign_relay_access_manifest governor_key issued).
#[export] Instance reference_parsers : RelayParsers := {|
  url_parse s :=
    if s == "https://relay.example.com"
    then Some (Url.mk "https" "" None (Some "relay.example.com") "/" None None) else None;
  relay_url_ok _ := true;
  config_from_json _ := None;
  manifest_from_json s := if s == "signed" then Some signed else None
|}.
Definition config : OwnerRelayConfigV1.t :=
  OwnerRelayConfigV1.mk OwnerRelayConfigV1.SCHEMA "https://relay.example.com"
    (SocketAddr.mk (IpAddr.V4 [127; 0; 0; 1]) 3340) None None None
    (hex_encode (verifying_key governor_key)) (RelayAccessSourceV1.SignedFile "access.json")
    5 1048576 2097152 4096 1 2.
Definition env : Env :=
  mkEnv (λ path, if path == "access.json" then Some (mkFile true 6 "signed") else None)
    (λ _ _, None) 0 (seconds 10) (seconds 10) 0.
Definition access : t := default (mkAccess (RelayAccessSourceV1.SignedFile "") "" 0 None (mkActive 0 ∅) 0 0)
  (new config).
Definition connected : t := (on_connect env access worker_a).2.

Lemma access_reachable : reachable access [].
Proof. apply (reach_new config). vm_compute. reflexivity. Qed.
Lemma connected_reachable : reachable connected [worker_a].
Proof.
  apply (reach_allow env access [] worker_a); [apply access_reachable|]. vm_compute. reflexivity.
Qed.

Lemma relay_admits_enrolled_witness :
  ∃ m, worker_a ∈ RelayAccessManifestV1.allowed_endpoint_ids m ∧
    seconds 10 < RelayAccessManifestV1.expires_at m.
Proof.
  destruct (relay_admits_enrolled env access [] worker_a connected) as (m & utc & _ & Hin & Hexp & Hcase).
  - exact access_reachable.
  - vm_compute. reflexivity.
  - exists m. split; [exact Hin|]. destruct Hcase as [(at_ & _ & _ & ->)|(bytes & _ & _ & ->)]; exact Hexp.
Defined.

Lemma relay_accounting_refines_witness :
  total (active connected) = 1 ∧
  (on_connect env connected worker_b).1 = Allow ∧
  (on_connect env connected worker_a).1 ≠ Allow.
Proof.
  destruct (relay_accounting_refines connected [worker_a] connected_reachable) as ((Ht & _) & _ & _ & Hiff).
  split; [exact Ht|]. split.
  - apply (Hiff env worker_b signed); [vm_compute; reflexivity|vm_compute; reflexivity|].
    split; vm_compute; reflexivity.
  - intros H. apply (Hiff env worker_a signed) in H;
      [|vm_compute; reflexivity|vm_compute; reflexivity].
    destruct H as [_ H]. vm_compute in H. discriminate H.
Defined.

Example starts_only_with_authorization :
  is_some (spawn_owner_relay env (λ _, true) config) = true ∧
  spawn_owner_relay (mkEnv (λ _, None) (λ _ _, None) 0 0 0 0) (λ _, true) config = None.
Proof. split; vm_compute; reflexivity. Qed.
Example disconnect_frees :
  (on_connect env (on_disconnect connected worker_a) worker_a).1 = Allow.
Proof. vm_compute. reflexivity. Qed.

End Witness.
