(* ===== verification/Net.v ===== *)
(** * Socket addresses (std::net)

    The part of the standard library's address parser that the route code uses:
    [SocketAddr::from_str], and the predicates of [Ipv4Addr] and [Ipv6Addr] that rank a
    route.  The parser reads a prefix of the text and gives the rest, as the one in
    core::net::parser does; a reader that fails consumes nothing. *)

From S2P Require Import Prelude.
From S2P Require Import Text.
Import Text.

Inductive IpAddr : Set :=
| V4 (a b c d : Z)
| V6 (segments : list Z).

(** [SocketAddr]; the scope id is kept for IPv6 and is 0 otherwise. *)
Record SocketAddr : Set := mkSocket { ip : IpAddr; port : Z; scope_id : Z }.

#[global] Instance ip_eq_dec : EqDecision IpAddr.
Proof. solve_decision. Defined.
#[global] Instance socket_eq_dec : EqDecision SocketAddr.
Proof. solve_decision. Defined.

Module Ipv4Addr.
Definition is_loopback (a : Z) : bool := a =? 127.
Definition is_unspecified (a b c d : Z) : bool := (a =? 0) && (b =? 0) && (c =? 0) && (d =? 0).
Definition is_link_local (a b : Z) : bool := (a =? 169) && (b =? 254).
Definition is_private (a b : Z) : bool :=
  (a =? 10) || ((a =? 172) && in_range 16 31 b) || ((a =? 192) && (b =? 168)).
Definition is_broadcast (a b c d : Z) : bool := (a =? 255) && (b =? 255) && (c =? 255) && (d =? 255).
Definition is_multicast (a : Z) : bool := in_range 224 239 a.
(** [u32::from(ip)]. *)
Definition to_bits (a b c d : Z) : Z := ((a * 256 + b) * 256 + c) * 256 + d.
End Ipv4Addr.

Module Ipv6Addr.
Definition is_loopback (segments : list Z) : bool := segments == [0; 0; 0; 0; 0; 0; 0; 1].
Definition is_unspecified (segments : list Z) : bool := segments == [0; 0; 0; 0; 0; 0; 0; 0].
End Ipv6Addr.

(** ** The parser *)

Definition reader (A : Type) : Type := string → option (A * string).

Definition read_given_char (c : ascii) : reader () := λ s,
  match s with
  | String d s' => if c == d then Some ((), s') else None
  | "" => None
  end.

(** [char::to_digit(radix)]. *)
Definition to_digit (radix : Z) (c : ascii) : option Z :=
  let b := Z.of_N (N_of_ascii c) in
  let d := if in_range 48 57 b then Some (b - 48)
           else if in_range 97 122 b then Some (b - 87)
           else if in_range 65 90 b then Some (b - 55) else None in
  match d with Some d => if d <? radix then Some d else None | None => None end.

(** The digits at the front of the text: their value, their number, and the rest.  [limit]
    is the largest value the accumulator may reach, beyond which the reader fails. *)
Fixpoint read_digits (radix : Z) (limit : option Z) (acc count : Z) (s : string)
    : option (Z * Z * string) :=
  match s with
  | String c s' =>
      match to_digit radix c with
      | Some d =>
          let acc := acc * radix + d in
          if is_some_and (λ limit, limit <? acc) limit then None
          else read_digits radix limit acc (count + 1) s'
      | None => Some (acc, count, s)
      end
  | "" => Some (acc, count, s)
  end.

(** [read_number]: a bounded number of digits (a [u8] or [u16] group), or as many as fit. *)
Definition read_number (radix : Z) (max_digits : option Z) (allow_zero_prefix : bool) (max : Z)
    : reader Z := λ s,
  let leading_zero := match s with String c _ => c == "0"%char | "" => false end in
  match read_digits radix (match max_digits with Some _ => None | None => Some max end) 0 0 s with
  | Some (n, count, rest) =>
      if is_some_and (λ m, m <? count) max_digits then None
      else if count =? 0 then None
      else if negb allow_zero_prefix && leading_zero && (1 <? count) then None
      else if max <? n then None else Some (n, rest)
  | None => None
  end.

(** [read_separator]: the separator before every element but the first. *)
Definition read_separator {A} (sep : ascii) (index : nat) (r : reader A) : reader A := λ s,
  match index with
  | O => r s
  | S _ => match read_given_char sep s with Some (_, s) => r s | None => None end
  end.

Definition read_octet (index : nat) : reader Z :=
  read_separator "." index (read_number 10 (Some 3) false u8_max).
Definition read_ipv4_addr : reader (Z * Z * Z * Z) := λ s,
  match read_octet 0 s with
  | Some (a, s) =>
      match read_octet 1 s with
      | Some (b, s) =>
          match read_octet 2 s with
          | Some (c, s) =>
              match read_octet 3 s with Some (d, s) => Some ((a, b, c, d), s) | None => None end
          | None => None
          end
      | None => None
      end
  | None => None
  end.

(** [read_groups] into a slice with [left] slots after the [index] filled ones: the groups,
    and whether they end in an embedded IPv4 address. *)
Fixpoint read_groups (index left : nat) (s : string) : list Z * bool * string :=
  match left with
  | O => ([], false, s)
  | S left' =>
      let group :=
        match read_separator ":" index (read_number 16 (Some 4) true u16_max) s with
        | Some (g, s) => let '(gs, v4, s) := read_groups (S index) left' s in (g :: gs, v4, s)
        | None => ([], false, s)
        end in
      match left' with
      | O => group
      | S _ =>
          match read_separator ":" index read_ipv4_addr s with
          | Some ((a, b, c, d), s) => ([a * 256 + b; c * 256 + d], true, s)
          | None => group
          end
      end
  end.

Definition read_ipv6_addr : reader (list Z) := λ s,
  let '(head, head_ipv4, s) := read_groups 0 8 s in
  if (length head =? 8)%nat then Some (head, s)
  else if head_ipv4 then None
  else
    match read_given_char ":" s with
    | Some (_, s) =>
        match read_given_char ":" s with
        | Some (_, s) =>
            let '(tail, _, s) := read_groups 0 (7 - length head) s in
            Some (head ++ replicate (8 - length head - length tail) 0 ++ tail, s)
        | None => None
        end
    | None => None
    end.

Definition read_port : reader Z := λ s,
  match read_given_char ":" s with
  | Some (_, s) => read_number 10 None true u16_max s
  | None => None
  end.
Definition read_scope_id : reader Z := λ s,
  match read_given_char "%" s with
  | Some (_, s) => read_number 10 None true u32_max s
  | None => None
  end.

Definition read_socket_addr_v4 : reader SocketAddr := λ s,
  match read_ipv4_addr s with
  | Some ((a, b, c, d), s) =>
      match read_port s with Some (p, s) => Some (mkSocket (V4 a b c d) p 0, s) | None => None end
  | None => None
  end.
Definition read_socket_addr_v6 : reader SocketAddr := λ s,
  match read_given_char "[" s with
  | Some (_, s) =>
      match read_ipv6_addr s with
      | Some (segments, s) =>
          let '(scope, s) := match read_scope_id s with Some r => r | None => (0, s) end in
          match read_given_char "]" s with
          | Some (_, s) =>
              match read_port s with
              | Some (p, s) => Some (mkSocket (V6 segments) p scope, s)
              | None => None
              end
          | None => None
          end
      | None => None
      end
  | None => None
  end.

(** [address.parse::<SocketAddr>()]: the whole text, IPv4 before IPv6. *)
Definition parse_socket_addr (s : string) : option SocketAddr :=
  match match read_socket_addr_v4 s with Some r => Some r | None => read_socket_addr_v6 s end with
  | Some (address, "") => Some address
  | _ => None
  end.

(** [address.parse::<Ipv4Addr>()]. *)
Definition parse_ipv4 (s : string) : option (Z * Z * Z * Z) :=
  match read_ipv4_addr s with Some (a, "") => Some a | _ => None end.

Example parse_v4 : parse_socket_addr "192.168.1.20:47838" = Some (mkSocket (V4 192 168 1 20) 47838 0).
Proof. reflexivity. Qed.
Example parse_v4_octal : parse_socket_addr "192.168.01.20:1" = None.
Proof. reflexivity. Qed.
Example parse_v4_port : parse_socket_addr "10.0.0.1:65536" = None.
Proof. reflexivity. Qed.
Example parse_v6 :
  parse_socket_addr "[fe80::1%4]:80" = Some (mkSocket (V6 [65152; 0; 0; 0; 0; 0; 0; 1]) 80 4).
Proof. reflexivity. Qed.
Example parse_v6_embedded :
  parse_socket_addr "[::ffff:10.1.2.3]:080" = Some (mkSocket (V6 [0; 0; 0; 0; 0; 65535; 2561; 515]) 80 0).
Proof. reflexivity. Qed.
Example parse_v6_unspecified : parse_socket_addr "[::]:0" = Some (mkSocket (V6 (replicate 8 0)) 0 0).
Proof. reflexivity. Qed.
