(* ===== verification/Mesh.v ===== *)
(** * The peer mesh (crates/rampage-mesh/src/lib.rs)

    Configuration and peer admission, the routes of a signed endpoint record, and the
    messages of the four protocols that run over an authenticated stream.  Iroh supplies
    the stream: a [Link] is what one connection does with the bytes written to it.  The
    parsers of endpoint ids and relay URLs are iroh's and parameters here; socket addresses
    are the standard library's ([Net]). *)

From S2P Require Import Prelude.
From S2P Require Import Codec.
From S2P Require Import Text.
From S2P Require Import Contracts.
From S2P Require Import Wire.
From S2P Require Import Storage.
From S2P Require Import Net.
Import Text.

(** ** Configuration *)

Definition CONTROL_ALPN : string := "rampage.mesh.control.v1".
Definition ARTIFACT_ALPN : string := "rampage.mesh.artifact.v2".
Definition MODEL_ALPN : string := "rampage.mesh.model.v1".
Definition REMOTE_DESKTOP_ALPN : string := "rampage.mesh.remote-desktop.v1".
Definition MAX_ARTIFACT_HEADER_BYTES : Z := 64 * 1024.
Definition CONTROL_REQUEST_DEADLINE : Z := seconds 15.

Module MeshMode.
Inductive t := LocalOnly | PrivateRelay (urls : list string).
End MeshMode.

Module MeshConfig.
Record t := mk { schema : string; mode : MeshMode.t; allowed_peer_keys : gset string }.
Definition default : t := mk "rampage.mesh-config.v1" MeshMode.LocalOnly ∅.
End MeshConfig.

Module MeshError.
Inductive t :=
| WrongSchema
| MissingRelay
| InvalidRelay (url : string)
| PeerDenied
| InvalidEndpointRecord
| MismatchedResponse
| OversizedResponse
| InvalidArtifactHeader
| ArtifactSizeMismatch
| ArtifactRejected (reason : string)
| InvalidModelFrame
| ModelRejected (reason : string)
| InvalidRemoteDesktopMessage
| RemoteDesktopRejected (reason : string).
End MeshError.

(** [anyhow::Error] in this crate: one of its own errors, a message, the transport's, or
    serde_json's. *)
Inductive Fault :=
| Mesh (error : MeshError.t)
| Message (text : string)
| Transport
| Json.

Definition ensure {E} (b : bool) (e : E) : result E () := if b then Ok () else Err e.

(** [EndpointId::from_str] and [RelayUrl::from_str]; what they yield is named by its text. *)
Class Iroh := {
  parse_endpoint_id : string → option string;
  parse_relay_url : string → option string
}.

(** [RelayMode], and what [bind] is asked for. *)
Inductive RelayMode := Disabled | Custom (relays : list string).
Record EndpointSpec := mkEndpoint {
  bind_port : option Z; relay_mode_of : RelayMode; address_lookup : bool; alpns : list string
}.
Record MeshNode := mkNode { endpoint : EndpointSpec; node_mode : string }.

Inductive TransportAddr := Ip (address : SocketAddr) | Relay (url : string).
Record EndpointAddr := mkAddr { addr_id : string; addrs : list TransportAddr }.

Section config.
Context {iroh : Iroh}.
Implicit Types self : MeshConfig.t.

(** The loop over the relay URLs, which stops at the first bad one. *)
Definition check_url (url : string) : result MeshError.t () :=
  if negb (starts_with "https://" url) || is_none (parse_relay_url url)
  then Err (MeshError.InvalidRelay url) else Ok ().

Definition validate self : result MeshError.t () :=
  if MeshConfig.schema self != "rampage.mesh-config.v1" then Err MeshError.WrongSchema
  else
    match MeshConfig.mode self with
    | MeshMode.LocalOnly => Ok ()
    | MeshMode.PrivateRelay urls =>
        if no_elems urls then Err MeshError.MissingRelay
        else try_fold (λ _ url, check_url url) () urls
    end.

Definition authorize_peer self (authenticated_public_key : string) : result MeshError.t () :=
  if bool_decide (authenticated_public_key ∈ MeshConfig.allowed_peer_keys self)
  then Ok () else Err MeshError.PeerDenied.

Definition relay_mode self : result MeshError.t RelayMode :=
  _ ← validate self;
  match MeshConfig.mode self with
  | MeshMode.LocalOnly => Ok Disabled
  | MeshMode.PrivateRelay urls =>
      parsed ← try_map (λ url, ok_or (MeshError.InvalidRelay url) (parse_relay_url url)) urls;
      Ok (Custom parsed)
  end.

Definition protocols : list string := [CONTROL_ALPN; ARTIFACT_ALPN; MODEL_ALPN; REMOTE_DESKTOP_ALPN].

(** What is asked of iroh's builder; binding itself is iroh's. *)
Definition bind_endpoint (config : MeshConfig.t) : result Fault EndpointSpec :=
  mode ← map_err Mesh (relay_mode config);
  Ok (mkEndpoint None mode false protocols).
Definition bind_endpoint_on_port (config : MeshConfig.t) (port : Z) : result Fault EndpointSpec :=
  _ ← ensure (port != 0) (Message "stable mesh port must be non-zero");
  mode ← map_err Mesh (relay_mode config);
  Ok (mkEndpoint (Some port) mode false protocols).

Definition mode_name (mode : MeshMode.t) : string :=
  match mode with MeshMode.LocalOnly => "local_only" | MeshMode.PrivateRelay _ => "private_relay" end.
Definition bind_node (config : MeshConfig.t) : result Fault MeshNode :=
  endpoint ← bind_endpoint config;
  Ok (mkNode endpoint (mode_name (MeshConfig.mode config))).
Definition bind_node_on_port (config : MeshConfig.t) (port : Z) : result Fault MeshNode :=
  _ ← map_err Mesh (validate config);
  endpoint ← bind_endpoint_on_port config port;
  Ok (mkNode endpoint (mode_name (MeshConfig.mode config))).
End config.

(** ** Routes *)

Definition direct_route_priority (address : SocketAddr) : Z :=
  match ip address with
  | V4 a b c d =>
      if (a =? 192) && (b =? 168) then 0
      else if a =? 10 then 1
      else if (a =? 172) && in_range 16 31 b then 2
      else if (a =? 100) && in_range 64 127 b then 5
      else if Ipv4Addr.is_loopback a || Ipv4Addr.is_unspecified a b c d || Ipv4Addr.is_link_local a b then 6
      else 4
  | V6 segments => if Ipv6Addr.is_loopback segments || Ipv6Addr.is_unspecified segments then 6 else 3
  end.

Section routes.
Context {iroh : Iroh}.
Implicit Types record : MeshEndpointRecordV1.t.

Definition endpoint_record_shape_is_valid record : bool :=
  (zlen (MeshEndpointRecordV1.direct_addresses record) <=? 16)
  && (zlen (MeshEndpointRecordV1.relay_urls record) <=? 16)
  && negb (existsb (λ address, 2048 <? len address)
             (MeshEndpointRecordV1.direct_addresses record ++ MeshEndpointRecordV1.relay_urls record)).

Definition invalid : MeshError.t := MeshError.InvalidEndpointRecord.
Definition parse_direct (address : string) : result MeshError.t SocketAddr :=
  ok_or invalid (parse_socket_addr address).
Definition parse_relay (url : string) : result MeshError.t string := ok_or invalid (parse_relay_url url).

Definition endpoint_addr_from_record_inner record : result MeshError.t EndpointAddr :=
  if negb (endpoint_record_shape_is_valid record) then Err invalid
  else
    endpoint_id ← ok_or invalid (parse_endpoint_id (MeshEndpointRecordV1.endpoint_id record));
    direct ← try_map parse_direct (MeshEndpointRecordV1.direct_addresses record);
    relays ← try_map parse_relay (MeshEndpointRecordV1.relay_urls record);
    let addresses := (Ip <$> direct) ++ (Relay <$> relays) in
    if no_elems addresses then Err invalid else Ok (mkAddr endpoint_id addresses).

(** The key of [sort_by_key]: the route's priority, then its position. *)
Definition route_le : relation (Z * nat * SocketAddr) := λ x y,
  x.1.1 < y.1.1 ∨ x.1.1 = y.1.1 ∧ (x.1.2 ≤ y.1.2)%nat.
#[global] Instance route_le_dec : RelDecision route_le.
Proof. intros x y. unfold route_le. apply _. Defined.

Definition prioritized (direct : list SocketAddr) : list (Z * nat * SocketAddr) :=
  merge_sort route_le (imap (λ position address, (direct_route_priority address, position, address)) direct).

Definition endpoint_addr_candidates_inner record : result MeshError.t (list EndpointAddr) :=
  if negb (endpoint_record_shape_is_valid record) then Err invalid
  else
    endpoint_id ← ok_or invalid (parse_endpoint_id (MeshEndpointRecordV1.endpoint_id record));
    direct ← try_map parse_direct (MeshEndpointRecordV1.direct_addresses record);
    relays ← try_map parse_relay (MeshEndpointRecordV1.relay_urls record);
    let candidates :=
      ((λ r, mkAddr endpoint_id [Ip r.2]) <$> prioritized direct)
      ++ ((λ url, mkAddr endpoint_id [Relay url]) <$> relays) in
    if no_elems candidates then Err invalid else Ok candidates.

Definition is_fresh record (now : DateTime) : bool :=
  negb ((MeshEndpointRecordV1.schema record != MeshEndpointRecordV1.SCHEMA)
        || (MeshEndpointRecordV1.expires_at record <=? now)).
Definition is_pinned record : bool := MeshEndpointRecordV1.schema record == MeshEndpointRecordV1.SCHEMA.

Definition endpoint_addr_from_record record (now : DateTime) : result MeshError.t EndpointAddr :=
  if is_fresh record now then endpoint_addr_from_record_inner record else Err invalid.
Definition endpoint_addr_candidates_from_record record (now : DateTime)
    : result MeshError.t (list EndpointAddr) :=
  if is_fresh record now then endpoint_addr_candidates_inner record else Err invalid.
Definition endpoint_addr_from_pinned_record record : result MeshError.t EndpointAddr :=
  if is_pinned record then endpoint_addr_from_record_inner record else Err invalid.
Definition endpoint_addr_candidates_from_pinned_record record : result MeshError.t (list EndpointAddr) :=
  if is_pinned record then endpoint_addr_candidates_inner record else Err invalid.
End routes.

(** ** Streams *)

(** [u32::to_be_bytes] and [from_be_bytes]. *)
Definition byte_of (z : Z) : ascii := ascii_of_N (Z.to_N (z mod 256)).
Definition to_be_bytes (n : Z) : string :=
  String (byte_of (Z.shiftr n 24)) (String (byte_of (Z.shiftr n 16))
    (String (byte_of (Z.shiftr n 8)) (String (byte_of n) ""))).
Definition from_be_bytes (s : string) : Z :=
  foldl (λ acc c, 256 * acc + Z.of_N (N_of_ascii c)) 0 (chars s).

(** [read_exact] into a buffer of [n] bytes: the bytes and the rest of the stream. *)
Fixpoint read_exact (n : Z) (s : string) : result Fault (string * string) :=
  if n =? 0 then Ok ("", s)
  else
    match s with
    | "" => Err Transport
    | String c s => '(read, rest) ← read_exact (n - 1) s; Ok (String c read, rest)
    end.

Section streams.
Context {codec : Codec}.

(** [serde_json::to_vec] and [from_slice] through the derived serializers. *)
Definition encode_json `{Wire A} (value : A) : string := json_to_string (to_value value).
Definition decode_json `{Wire A} (bytes : string) : result Fault A :=
  match json_from_str bytes with
  | Some v => ok_or Json (from_value v)
  | None => Err Json
  end.

(** What [write_header] puts on the stream, and what [read_header] takes off it. *)
Definition write_header `{Wire A} (value : A) : result Fault string :=
  let encoded := encode_json value in
  _ ← ensure (len encoded <=? MAX_ARTIFACT_HEADER_BYTES) (Mesh MeshError.InvalidArtifactHeader);
  Ok (to_be_bytes (len encoded `mod` 4294967296) +:+ encoded).
Definition read_header `{Wire A} (stream : string) : result Fault (A * string) :=
  '(length_bytes, stream) ← read_exact 4 stream;
  let length := from_be_bytes length_bytes in
  _ ← ensure (length <=? MAX_ARTIFACT_HEADER_BYTES) (Mesh MeshError.InvalidArtifactHeader);
  '(encoded, stream) ← read_exact length stream;
  value ← decode_json encoded;
  Ok (value, stream).
End streams.

(** One outgoing connection: [None] when it cannot be established, otherwise the bytes that
    come back for the bytes written, or [None] when writing them fails. *)
Definition Link : Type := option (string → option string).
Definition connect (link : Link) : result Fault (string → option string) := ok_or Transport link.
Definition deliver (connection : string → option string) (bytes : string) : result Fault string :=
  ok_or Transport (connection bytes).

Class MeshWire := {
  wire_control_request :: Wire MeshControlRequestV1.t;
  wire_control_response :: Wire MeshControlResponseV1.t;
  wire_artifact_request :: Wire ArtifactTransferRequestV2.t;
  wire_artifact_response :: Wire ArtifactTransferResponseV2.t;
  wire_model_request :: Wire ModelInvocationRequestV1.t;
  wire_model_frame :: Wire ModelInvocationFrameV1.t;
  wire_desktop_request :: Wire RemoteDesktopRequestV1.t;
  wire_desktop_response :: Wire RemoteDesktopResponseV1.t
}.

(** The destination of the context is the [Link] the request goes out on. *)
Module ArtifactTransferContext.
Record t := mk {
  lease : StorageLeaseV1.t; media_type : string; session_id : Uuid; challenge_nonce : string
}.
End ArtifactTransferContext.

Definition is_success (status : Z) : bool := (200 <=? status) && (status <? 300).

Section protocols.
Context {codec : Codec} {wire : MeshWire}.

(** ** Control requests *)

Definition control_request_on_connection (connection : string → option string)
    (request : MeshControlRequestV1.t) : result Fault MeshControlResponseV1.t :=
  _ ← ensure (MeshControlRequestV1.schema request == MeshControlRequestV1.SCHEMA)
        (Message "unsupported mesh control request schema");
  let encoded := encode_json request in
  _ ← ensure (len encoded <=? 1024 * 1024) (Message "mesh control request is too large");
  response_bytes ← deliver connection encoded;
  _ ← ensure (len response_bytes <=? 1024 * 1024) (Mesh MeshError.OversizedResponse);
  response ← decode_json response_bytes;
  if (MeshControlResponseV1.schema response != MeshControlResponseV1.SCHEMA)
     || (MeshControlResponseV1.request_id response != MeshControlRequestV1.request_id request)
  then Err (Mesh MeshError.MismatchedResponse) else Ok response.

(** [tokio::time::timeout]: the timer fired, or the future completed first. *)
Inductive Timed (A : Type) := Elapsed | Completed (a : A).
#[global] Arguments Elapsed {A}.
#[global] Arguments Completed {A} a.

Definition control_deadline_error : Fault := Message "mesh control request exceeded the deadline".

(** The result, and the code the connection is closed with, if it is.  [connected] is the
    first timeout's outcome, [elapsed] the time since the start when it is read again, and
    [answered] whether the second timer fired first. *)
Definition control_request_with_policy (deadline : Z) (connected : Timed Link) (elapsed : Z)
    (answered : Timed ()) (request : MeshControlRequestV1.t) (close_on_success : bool)
    : result Fault MeshControlResponseV1.t * option Z :=
  if negb ((deadline != 0) && (deadline <=? CONTROL_REQUEST_DEADLINE))
  then (Err (Message "mesh control deadline must be positive and no greater than 15 seconds"), None)
  else
    match connected with
    | Elapsed => (Err control_deadline_error, None)
    | Completed None => (Err Transport, None)
    | Completed (Some connection) =>
        let remaining := Z.max 0 (deadline - elapsed) in
        if remaining =? 0 then (Err control_deadline_error, Some 1)
        else
          match answered with
          | Elapsed => (Err control_deadline_error, Some 1)
          | Completed _ =>
              match control_request_on_connection connection request with
              | Ok response => (Ok response, if close_on_success then Some 0 else None)
              | Err error => (Err error, Some 1)
              end
          end
    end.
Definition control_request_with_deadline (deadline : Z) connected elapsed answered request :=
  control_request_with_policy deadline connected elapsed answered request false.
Definition one_shot_control_request_with_deadline (deadline : Z) connected elapsed answered request :=
  control_request_with_policy deadline connected elapsed answered request true.
Definition control_request connected elapsed answered request :=
  control_request_with_deadline CONTROL_REQUEST_DEADLINE connected elapsed answered request.

(** ** Models *)

Definition read_model_request (stream : string) : result Fault (ModelInvocationRequestV1.t * string) :=
  '(request, stream) ← read_header stream;
  _ ← ensure (ModelInvocationRequestV1.schema request == ModelInvocationRequestV1.SCHEMA)
        (Mesh MeshError.InvalidModelFrame);
  Ok (request, stream).

Definition write_model_frame (frame : ModelInvocationFrameV1.t) : result Fault string :=
  _ ← ensure (ModelInvocationFrameV1.schema frame == ModelInvocationFrameV1.SCHEMA)
        (Mesh MeshError.InvalidModelFrame);
  write_header frame.

Record ModelResponseStream := mkModelStream { receive : string; stream_request_id : Uuid }.

Definition next_frame (self : ModelResponseStream)
    : result Fault (ModelInvocationFrameV1.t * ModelResponseStream) :=
  '(frame, rest) ← read_header (receive self);
  _ ← ensure ((ModelInvocationFrameV1.schema frame == ModelInvocationFrameV1.SCHEMA)
              && (ModelInvocationFrameV1.request_id frame == stream_request_id self))
        (Mesh MeshError.InvalidModelFrame);
  Ok (frame, mkModelStream rest (stream_request_id self)).

Definition invoke_model (link : Link) (request : ModelInvocationRequestV1.t)
    : result Fault ModelResponseStream :=
  _ ← ensure (ModelInvocationRequestV1.schema request == ModelInvocationRequestV1.SCHEMA)
        (Mesh MeshError.InvalidModelFrame);
  connection ← connect link;
  header ← write_header request;
  received ← deliver connection header;
  Ok (mkModelStream received (ModelInvocationRequestV1.request_id request)).

(** ** Remote desktops *)

Definition frame_payload_size (response : RemoteDesktopResponseV1.t) : Z :=
  match RemoteDesktopResponseV1.frame response with
  | Some frame => RemoteDesktopFrameV1.payload_size frame
  | None => 0
  end.

Definition read_remote_desktop_request (stream : string)
    : result Fault (RemoteDesktopRequestV1.t * string) :=
  '(request, stream) ← read_header stream;
  _ ← ensure (RemoteDesktopRequestV1.schema request == RemoteDesktopRequestV1.SCHEMA)
        (Mesh MeshError.InvalidRemoteDesktopMessage);
  Ok (request, stream).

Definition write_remote_desktop_response (response : RemoteDesktopResponseV1.t) (payload : string)
    : result Fault string :=
  let expected_payload := frame_payload_size response in
  _ ← ensure ((RemoteDesktopResponseV1.schema response == RemoteDesktopResponseV1.SCHEMA)
              && (expected_payload =? len payload)
              && (expected_payload <=? MAX_REMOTE_DESKTOP_FRAME_BYTES))
        (Mesh MeshError.InvalidRemoteDesktopMessage);
  header ← write_header response;
  Ok (header +:+ payload).

(** What the requester makes of the bytes that came back. *)
Definition read_remote_desktop_response (request : RemoteDesktopRequestV1.t) (received : string)
    : result Fault (RemoteDesktopResponseV1.t * string) :=
  '(response, received) ← read_header received;
  _ ← ensure ((RemoteDesktopResponseV1.schema response == RemoteDesktopResponseV1.SCHEMA)
              && (RemoteDesktopResponseV1.request_id response == RemoteDesktopRequestV1.request_id request))
        (Mesh MeshError.InvalidRemoteDesktopMessage);
  let payload_size := frame_payload_size response in
  _ ← ensure (payload_size <=? MAX_REMOTE_DESKTOP_FRAME_BYTES) (Mesh MeshError.InvalidRemoteDesktopMessage);
  '(payload, _) ← read_exact payload_size received;
  if negb (is_success (RemoteDesktopResponseV1.status response))
  then
    _ ← ensure (is_empty payload) (Mesh MeshError.InvalidRemoteDesktopMessage);
    Err (Mesh (MeshError.RemoteDesktopRejected
                 (default "unknown error" (RemoteDesktopResponseV1.error response))))
  else
    _ ← ensure (match RemoteDesktopResponseV1.frame response with
                | Some frame =>
                    RemoteDesktopFrameV1.is_valid_for frame (RemoteDesktopRequestV1.lease request)
                    && (RemoteDesktopFrameV1.payload_digest frame == CasStore.sha256_digest payload)
                | None => is_empty payload
                end) (Mesh MeshError.InvalidRemoteDesktopMessage);
    Ok (response, payload).

Definition remote_desktop_request (link : Link) (request : RemoteDesktopRequestV1.t)
    : result Fault (RemoteDesktopResponseV1.t * string) :=
  _ ← ensure (RemoteDesktopRequestV1.schema request == RemoteDesktopRequestV1.SCHEMA)
        (Mesh MeshError.InvalidRemoteDesktopMessage);
  connection ← connect link;
  header ← write_header request;
  received ← deliver connection header;
  read_remote_desktop_response request received.

(** ** Artifacts *)

Definition request_payload_size (request : ArtifactTransferRequestV2.t) : Z :=
  match ArtifactTransferRequestV2.action request with
  | ArtifactTransferActionV2.PutChunk => ArtifactTransferRequestV2.payload_size request
  | _ => 0
  end.

Definition read_artifact_request (stream : string) : result Fault (ArtifactTransferRequestV2.t * string) :=
  '(request, stream) ← read_header stream;
  _ ← ensure (ArtifactTransferRequestV2.is_valid request) (Mesh MeshError.InvalidArtifactHeader);
  if ArtifactTransferRequestV2.action request == ArtifactTransferActionV2.PutChunk
  then '(payload, _) ← read_exact (ArtifactTransferRequestV2.payload_size request) stream; Ok (request, payload)
  else Ok (request, "").

Definition write_artifact_response (response : ArtifactTransferResponseV2.t) (payload : string)
    : result Fault string :=
  _ ← ensure ((ArtifactTransferResponseV2.payload_size response =? len payload)
              && (ArtifactTransferResponseV2.payload_size response <=? ARTIFACT_TRANSFER_CHUNK_BYTES))
        (Mesh MeshError.ArtifactSizeMismatch);
  header ← write_header response;
  Ok (header +:+ payload).

Definition read_artifact_response (request : ArtifactTransferRequestV2.t) (received : string)
    : result Fault (ArtifactTransferResponseV2.t * string) :=
  '(response, received) ← read_header received;
  _ ← ensure ((ArtifactTransferResponseV2.schema response == ArtifactTransferResponseV2.SCHEMA)
              && (ArtifactTransferResponseV2.request_id response
                    == ArtifactTransferRequestV2.request_id request)
              && (ArtifactTransferResponseV2.payload_size response <=? ARTIFACT_TRANSFER_CHUNK_BYTES))
        (Mesh MeshError.MismatchedResponse);
  if negb (is_success (ArtifactTransferResponseV2.status response))
  then Err (Mesh (MeshError.ArtifactRejected
                    (default "unknown error" (ArtifactTransferResponseV2.error response))))
  else
    '(payload, _) ← read_exact (ArtifactTransferResponseV2.payload_size response) received;
    Ok (response, payload).

(** What goes out on the wire for a request, checked and framed. *)
Definition artifact_message (request : ArtifactTransferRequestV2.t) (payload : string)
    : result Fault string :=
  _ ← ensure (ArtifactTransferRequestV2.is_valid request) (Mesh MeshError.InvalidArtifactHeader);
  _ ← ensure (len payload =? request_payload_size request) (Mesh MeshError.ArtifactSizeMismatch);
  header ← write_header request;
  Ok (header +:+ payload).

Definition artifact_request (link : Link) (request : ArtifactTransferRequestV2.t) (payload : string)
    : result Fault (ArtifactTransferResponseV2.t * string) :=
  _ ← ensure (ArtifactTransferRequestV2.is_valid request) (Mesh MeshError.InvalidArtifactHeader);
  _ ← ensure (len payload =? request_payload_size request) (Mesh MeshError.ArtifactSizeMismatch);
  connection ← connect link;
  header ← write_header request;
  received ← deliver connection (header +:+ payload);
  read_artifact_response request received.

(** The request each operation sends; [request_id] is [Uuid::now_v7()]. *)
Definition transfer_request (context : ArtifactTransferContext.t) (request_id : Uuid)
    (action : ArtifactTransferActionV2.t) (chunk_index : option Z) (chunk_digest : option string)
    (payload_size : Z) : ArtifactTransferRequestV2.t :=
  ArtifactTransferRequestV2.mk ArtifactTransferRequestV2.SCHEMA request_id
    (ArtifactTransferContext.session_id context) (ArtifactTransferContext.lease context)
    (ArtifactTransferContext.media_type context) action ARTIFACT_TRANSFER_CHUNK_BYTES chunk_index
    chunk_digest payload_size (ArtifactTransferContext.challenge_nonce context).

Definition ensure_operation (context : ArtifactTransferContext.t) (operation : ArtifactTransferOperation.t)
    : result Fault () :=
  ensure (StorageLeaseV1.operation (ArtifactTransferContext.lease context) == operation)
    (Mesh MeshError.InvalidArtifactHeader).
Definition present {A} : option A → result Fault A := ok_or (Mesh MeshError.InvalidArtifactHeader).
Definition no_payload (payload : string) : result Fault () :=
  ensure (is_empty payload) (Mesh MeshError.ArtifactSizeMismatch).

Definition artifact_put (link : Link) (context : ArtifactTransferContext.t) (request_id : Uuid)
    : result Fault ArtifactTransferProgressV1.t :=
  _ ← ensure_operation context ArtifactTransferOperation.Put;
  '(response, payload) ←
    artifact_request link (transfer_request context request_id ArtifactTransferActionV2.Begin None None 0) "";
  _ ← no_payload payload;
  present (ArtifactTransferResponseV2.progress response).

Definition artifact_put_chunk (link : Link) (context : ArtifactTransferContext.t) (request_id : Uuid)
    (chunk_index : Z) (chunk_digest chunk : string) : result Fault ArtifactTransferProgressV1.t :=
  _ ← ensure_operation context ArtifactTransferOperation.Put;
  '(response, payload) ←
    artifact_request link
      (transfer_request context request_id ArtifactTransferActionV2.PutChunk (Some chunk_index)
         (Some chunk_digest) (len chunk)) chunk;
  _ ← no_payload payload;
  present (ArtifactTransferResponseV2.progress response).

Definition artifact_commit (link : Link) (context : ArtifactTransferContext.t) (request_id : Uuid)
    : result Fault (ArtifactRefV1.t * ArtifactReplicaReceiptV1.t) :=
  _ ← ensure_operation context ArtifactTransferOperation.Put;
  '(response, payload) ←
    artifact_request link (transfer_request context request_id ArtifactTransferActionV2.Commit None None 0) "";
  _ ← no_payload payload;
  artifact ← present (ArtifactTransferResponseV2.artifact response);
  receipt ← present (ArtifactTransferResponseV2.replica_receipt response);
  Ok (artifact, receipt).

Definition artifact_get_chunk (link : Link) (context : ArtifactTransferContext.t) (request_id : Uuid)
    (chunk_index : Z) : result Fault (ArtifactRefV1.t * string * string) :=
  _ ← ensure_operation context ArtifactTransferOperation.Get;
  '(response, payload) ←
    artifact_request link
      (transfer_request context request_id ArtifactTransferActionV2.GetChunk (Some chunk_index) None 0) "";
  _ ← ensure ((ArtifactTransferResponseV2.chunk_index response == Some chunk_index)
              && is_some (ArtifactTransferResponseV2.chunk_digest response)
              && (ArtifactTransferResponseV2.payload_size response =? len payload))
        (Mesh MeshError.ArtifactSizeMismatch);
  artifact ← present (ArtifactTransferResponseV2.artifact response);
  chunk_digest ← present (ArtifactTransferResponseV2.chunk_digest response);
  Ok (artifact, chunk_digest, payload).

Definition artifact_head (link : Link) (context : ArtifactTransferContext.t) (request_id : Uuid)
    : result Fault (ArtifactRefV1.t * ArtifactReplicaReceiptV1.t) :=
  _ ← ensure_operation context ArtifactTransferOperation.Get;
  '(response, payload) ←
    artifact_request link (transfer_request context request_id ArtifactTransferActionV2.Head None None 0) "";
  _ ← no_payload payload;
  artifact ← present (ArtifactTransferResponseV2.artifact response);
  receipt ← present (ArtifactTransferResponseV2.replica_receipt response);
  Ok (artifact, receipt).

End protocols.
