(* ===== verification/MeshFacts.v ===== *)
(** * Facts about the mesh

    Framing round trips, the order and completeness of route candidates, relay selection, and
    what a reply that is accepted guarantees. *)

From S2P Require Import Prelude.
From S2P Require Import Codec.
From S2P Require Import Text.
From S2P Require Import Contracts.
From S2P Require Import Wire.
From S2P Require Import Storage.
From S2P Require Import StorageFacts.
From S2P Require Import Net.
From S2P Require Import Mesh.
Import Text.

(** ** Byte streams *)

Lemma ensure_ok {E} b (e : E) u : ensure b e = Ok u ↔ b = true.
Proof. destruct u, b; naive_solver. Qed.

Lemma append_assoc (a b c : string) : (a +:+ b) +:+ c = a +:+ (b +:+ c).
Proof. apply chars_inj. by rewrite !chars_app, app_assoc. Qed.

Lemma append_empty (a : string) : a +:+ "" = a.
Proof. apply chars_inj. by rewrite chars_app, app_nil_r. Qed.

Lemma read_exact_app s rest : read_exact (len s) (s +:+ rest) = Ok (s, rest).
Proof.
  induction s as [|c s IH]; [by destruct rest|].
  replace (len (String c s)) with (len s + 1) by (unfold len; cbn [String.length]; lia).
  change (String c s +:+ rest) with (String c (s +:+ rest)). cbn [read_exact]. pose proof (len_nonneg s).
  destruct (Z.eqb_spec (len s + 1) 0); [lia|]. replace (len s + 1 - 1) with (len s) by lia.
  by rewrite IH.
Qed.

Lemma read_exact_inv n s read rest :
  read_exact n s = Ok (read, rest) → s = read +:+ rest ∧ len read = n.
Proof.
  revert n read. induction s as [|c s IH]; intros n read; cbn [read_exact].
  - destruct (Z.eqb_spec n 0) as [->|]; [|done]. by intros [= <- <-].
  - destruct (Z.eqb_spec n 0) as [->|]; [by intros [= <- <-]|].
    intros ([read' rest'] & Hr & Heq)%bind_ok_inv. injection Heq as <- <-.
    apply IH in Hr as [-> Hlen]. split; [done|]. unfold len in *. cbn [String.length]. lia.
Qed.

Lemma byte_of_shift n k : 0 ≤ n → Z.of_N (N_of_ascii (byte_of (Z.shiftr n k))) = Z.shiftr n k mod 256.
Proof.
  intros Hn. unfold byte_of. pose proof (Z.mod_pos_bound (Z.shiftr n k) 256 ltac:(lia)).
  rewrite N_ascii_embedding by lia. lia.
Qed.

Lemma from_to_be_bytes n : is_u32 n → from_be_bytes (to_be_bytes n) = n.
Proof.
  unfold is_u32, u32_max. intros Hn. unfold from_be_bytes, to_be_bytes, chars. cbn [String.list_ascii_of_string foldl].
  rewrite <-(Z.shiftr_0_r n) at 4. rewrite !byte_of_shift, !Z.shiftr_div_pow2 by lia.
  change (2 ^ 24) with 16777216. change (2 ^ 16) with 65536. change (2 ^ 8) with 256. change (2 ^ 0) with 1.
  rewrite Z.div_1_r.
  pose proof (Z.div_mod n 256 ltac:(lia)). pose proof (Z.div_mod (n / 256) 256 ltac:(lia)).
  pose proof (Z.div_mod (n / 65536) 256 ltac:(lia)). rewrite Z.div_div in * by lia.
  change (256 * 256) with 65536 in *. change (65536 * 256) with 16777216 in *.
  assert (0 ≤ n / 16777216 < 256) by (split; [apply Z.div_pos; lia|apply Z.div_lt_upper_bound; lia]).
  rewrite (Z.mod_small (n / 16777216) 256) by lia. lia.
Qed.

Section framing.
Context {codec : Codec}.

(** serde_json reads back what it printed of a contract. *)
Class Lossless (A : Type) {w : Wire A} : Prop :=
  lossless (x : A) : decode_json (encode_json x) = Ok x.

Lemma read_write_header `{Wire A} (x : A) header rest :
  decode_json (encode_json x) = Ok x → write_header x = Ok header →
  read_header (header +:+ rest) = Ok (x, rest).
Proof.
  intros Hx. unfold write_header.
  intros (u & Hlen%ensure_ok & Heq)%bind_ok_inv. injection Heq as <-. apply Z.leb_le in Hlen.
  pose proof (len_nonneg (encode_json x)). unfold MAX_ARTIFACT_HEADER_BYTES in *.
  rewrite Z.mod_small by lia. unfold read_header.
  rewrite append_assoc, (read_exact_app (to_be_bytes (len (encode_json x)))). cbn [mbind result_bind].
  rewrite from_to_be_bytes by (unfold is_u32, u32_max; lia).
  unfold ensure. rewrite (proj2 (Z.leb_le _ _)) by (unfold MAX_ARTIFACT_HEADER_BYTES; lia).
  cbn [mbind result_bind]. rewrite read_exact_app. cbn [mbind result_bind]. by rewrite Hx.
Qed.

(** A header that is read was written by someone who encoded within the bound. *)
Lemma read_header_bound `{Wire A} stream (x : A) rest :
  read_header stream = Ok (x, rest) →
  ∃ encoded, len encoded ≤ MAX_ARTIFACT_HEADER_BYTES ∧ decode_json encoded = Ok x ∧
    len stream = 4 + len encoded + len rest.
Proof.
  unfold read_header.
  intros ([l s] & Hl & (u & Hlen%ensure_ok & ([e s'] & He & (y & Hy & Heq)%bind_ok_inv)%bind_ok_inv)%bind_ok_inv)%bind_ok_inv.
  injection Heq as <- <-. apply read_exact_inv in Hl as [-> Hl], He as [-> He]. bool_prop.
  exists e. rewrite !len_app. rewrite He in *. repeat split; [lia|done|lia].
Qed.
End framing.

(** ** Relay selection *)

Section relays.
Context {iroh : Iroh}.

Lemma check_url_ok url u : check_url url = Ok u ↔ starts_with "https://" url = true ∧ is_Some (parse_relay_url url).
Proof.
  unfold check_url, is_none, is_some. destruct u, (starts_with "https://" url), (parse_relay_url url) eqn:E;
    cbn; rewrite ?is_Some_alt; naive_solver.
Qed.

Lemma check_urls_ok urls u :
  try_fold (λ (_ : ()) url, check_url url) () urls = Ok u ↔
  Forall (λ url, starts_with "https://" url = true ∧ is_Some (parse_relay_url url)) urls.
Proof.
  induction urls as [|url urls IH]; cbn [try_fold].
  - destruct u. split; [constructor|done].
  - rewrite Forall_cons, <-IH, <-(check_url_ok url ()). destruct (check_url url) as [[]|]; cbn; naive_solver.
Qed.

(** The relays an endpoint is bound to are those the owner configured, each an HTTPS URL; a
    local-only node uses none. *)
Theorem relays_are_configured config mode :
  relay_mode config = Ok mode ↔
  MeshConfig.schema config = "rampage.mesh-config.v1" ∧
  match MeshConfig.mode config with
  | MeshMode.LocalOnly => mode = Disabled
  | MeshMode.PrivateRelay urls =>
      urls ≠ [] ∧ Forall (λ url, starts_with "https://" url = true) urls ∧
      ∃ relays, mode = Custom relays ∧ Forall2 (λ url relay, parse_relay_url url = Some relay) urls relays
  end.
Proof.
  unfold relay_mode, validate. destruct (bool_decide_reflect (MeshConfig.schema config = "rampage.mesh-config.v1")) as [Hs|Hs];
    [|cbn; naive_solver]. cbn [negb].
  destruct (MeshConfig.mode config) as [|urls]; [cbn; naive_solver|].
  destruct urls as [|url urls]; [cbn; naive_solver|]. cbn [no_elems].
  generalize (url :: urls) (ltac:(done) : url :: urls ≠ []). clear url urls. intros urls Hne.
  rewrite bind_unit_ok, check_urls_ok. split.
  - intros (Hurls & relays & Hr & Heq)%(λ H, conj (proj1 H) (bind_ok_inv _ _ _ (proj2 H))). injection Heq as <-.
    split_and!; [done|done|by eapply Forall_impl; [exact Hurls|intros ? []]|].
    exists relays. split; [done|]. apply try_map_ok in Hr. eapply Forall2_impl; [exact Hr|].
    intros url relay Hok. by apply ok_or_ok in Hok.
  - intros (_ & _ & Hhttps & relays & -> & Hr). split.
    + rewrite Forall_forall in Hhttps |- *. intros url Hu. split; [by apply Hhttps|].
      apply list_elem_of_lookup in Hu as [i Hi]. eapply Forall2_lookup_l in Hr as (relay & _ & Hr); eauto.
    + assert (try_map (λ url, ok_or (MeshError.InvalidRelay url) (parse_relay_url url)) urls = Ok relays) as ->;
        [|done].
      apply try_map_ok. eapply Forall2_impl; [exact Hr|]. intros url relay Hok. by apply ok_or_ok.
Qed.

(** ** Routes *)

#[local] Instance route_le_total : Total route_le.
Proof. intros x y. unfold route_le. lia. Qed.
#[local] Instance route_le_trans : Transitive route_le.
Proof. intros x y z. unfold route_le. lia. Qed.

(** How early a route is tried: direct ones by their priority, relays last. *)
Definition rank (address : TransportAddr) : Z :=
  match address with Ip address => direct_route_priority address | Relay _ => 7 end.
Definition tried_before (x y : EndpointAddr) : Prop := Forall2 (λ a b, rank a ≤ rank b) (addrs x) (addrs y).

Lemma direct_priority_bound address : 0 ≤ direct_route_priority address ≤ 6.
Proof. unfold direct_route_priority. repeat case_match; lia. Qed.

Lemma prioritized_perm direct : (prioritized direct).*2 ≡ₚ direct.
Proof.
  unfold prioritized. rewrite merge_sort_Permutation, fmap_imap.
  change (imap (λ _, id) direct ≡ₚ direct). by rewrite (imap_const id), list_fmap_id.
Qed.

Lemma prioritized_rank direct r : r ∈ prioritized direct → r.1.1 = direct_route_priority r.2.
Proof.
  unfold prioritized. rewrite merge_sort_Permutation. intros (i & a & -> & _)%elem_of_lookup_imap_1. done.
Qed.

Lemma prioritized_sorted (id : string) direct :
  StronglySorted tried_before ((λ r, mkAddr id [Ip r.2]) <$> prioritized direct).
Proof.
  assert (StronglySorted route_le (prioritized direct)) as Hs by (apply StronglySorted_merge_sort; apply _).
  assert (Forall (λ r, r.1.1 = direct_route_priority r.2) (prioritized direct)) as Hr
    by (apply Forall_forall; apply prioritized_rank).
  revert Hs Hr. generalize (prioritized direct) as l. intros l Hs.
  induction Hs as [|r l _ IH Hle]; intros Hr; cbn; constructor.
  - apply IH. by apply Forall_cons in Hr as [_ ?].
  - apply Forall_cons in Hr as [Hr Hrs]. apply Forall_fmap, Forall_forall. intros r' Hr'.
    rewrite Forall_forall in Hle, Hrs. specialize (Hle r' Hr'). specialize (Hrs r' Hr').
    constructor; [|constructor]. cbn in *. unfold route_le in Hle. lia.
Qed.

Lemma relays_last (id : string) l relays :
  Forall (λ c, ∃ a, addrs c = [Ip a]) l → StronglySorted tried_before l →
  StronglySorted tried_before (l ++ ((λ url, mkAddr id [Relay url]) <$> relays)).
Proof.
  intros Hdirect Hs. induction Hs as [|c l Hs IH Hle]; cbn.
  - induction relays as [|u relays IH]; cbn; constructor; [done|].
    apply Forall_fmap, Forall_true. intros v. constructor; [cbn; lia|constructor].
  - apply Forall_cons in Hdirect as [[a Ha] Hdirect]. constructor; [by apply IH|].
    apply Forall_app. split; [done|]. apply Forall_fmap, Forall_true. intros v. unfold tried_before.
    rewrite Ha. pose proof (direct_priority_bound a). constructor; [cbn; lia|constructor].
Qed.

(** Expanding a signed endpoint record into single-route candidates loses nothing and
    adds nothing: it succeeds exactly when the whole address does, every candidate carries the
    record's endpoint id and one route, the routes together are those of the whole address,
    and they are tried in the order of their priority, private ranges first and relays last. *)
Theorem candidates_are_ranked_routes record :
  match endpoint_addr_candidates_inner record, endpoint_addr_from_record_inner record with
  | Ok candidates, Ok whole =>
      concat (addrs <$> candidates) ≡ₚ addrs whole ∧
      Forall (λ c, addr_id c = addr_id whole ∧ length (addrs c) = 1%nat) candidates ∧
      StronglySorted tried_before candidates ∧ candidates ≠ []
  | Err _, Err _ => True
  | _, _ => False
  end.
Proof.
  unfold endpoint_addr_candidates_inner, endpoint_addr_from_record_inner.
  destruct (endpoint_record_shape_is_valid record); [|done]. cbn [negb].
  destruct (ok_or _ (parse_endpoint_id _)) as [id|]; [|done]. cbn [mbind result_bind].
  destruct (try_map parse_direct _) as [direct|]; [|done]. cbn [mbind result_bind].
  destruct (try_map parse_relay _) as [relays|]; [|done]. cbn [mbind result_bind].
  assert (Forall (λ c, ∃ a, addrs c = [Ip a]) ((λ r, mkAddr id [Ip r.2]) <$> prioritized direct)) as Hip
    by (apply Forall_fmap, Forall_true; intros r; by eexists).
  pose proof (relays_last id _ relays Hip (prioritized_sorted id direct)) as Hsorted.
  set (candidates := _ ++ _) in *.
  assert (concat (addrs <$> candidates) ≡ₚ (Ip <$> direct) ++ (Relay <$> relays)) as Hperm.
  { subst candidates. rewrite fmap_app, concat_app, <-!list_fmap_compose.
    apply Permutation_app.
    - rewrite <-(prioritized_perm direct) at 2. generalize (prioritized direct). clear.
      induction l as [|r l IH]; cbn; [done|]. by rewrite <-IH.
    - clear. induction relays as [|u l IH]; cbn; [done|]. by rewrite <-IH. }
  assert (Forall (λ c, addr_id c = id ∧ length (addrs c) = 1%nat) candidates) as Hone.
  { subst candidates. apply Forall_app; split; apply Forall_fmap, Forall_true; done. }
  clearbody candidates. destruct candidates as [|c candidates].
  - cbn in Hperm. apply Permutation_nil_l in Hperm. rewrite <-Hperm. done.
  - cbn [no_elems]. destruct ((Ip <$> direct) ++ (Relay <$> relays)) as [|x xs] eqn:Ex; cbn [no_elems].
    + apply Permutation_nil_r in Hperm. cbn in Hperm. apply Forall_cons in Hone as [[_ Hone] _].
      destruct (addrs c); [done|]. by destruct c.
    + cbn [addrs addr_id]. done.
Qed.
End relays.

(** ** Messages *)

Ltac inv_bind H :=
  let a := fresh "a" in let Ha := fresh "Ha" in
  apply bind_ok_inv in H as (a & Ha & H).

Section messages.
Context {codec : Codec} {wire : MeshWire}.

(** The worker reads the request the controller wrote, and its payload. *)
Lemma artifact_request_roundtrip `{!Lossless ArtifactTransferRequestV2.t} request payload header :
  ArtifactTransferRequestV2.is_valid request = true → len payload = request_payload_size request →
  write_header request = Ok header → read_artifact_request (header +:+ payload) = Ok (request, payload).
Proof.
  intros Hv Hp Hh. unfold read_artifact_request.
  rewrite (read_write_header request header payload) by (done || apply lossless). cbn [mbind result_bind].
  unfold ensure. rewrite Hv. cbn [mbind result_bind]. unfold request_payload_size in Hp.
  destruct (bool_decide_reflect (ArtifactTransferRequestV2.action request = ArtifactTransferActionV2.PutChunk)) as [Ha|Ha].
  - rewrite Ha in Hp. pose proof (read_exact_app payload "") as Hr. rewrite append_empty, Hp in Hr. by rewrite Hr.
  - destruct payload; [done|]. exfalso. unfold len in Hp. cbn [String.length] in Hp.
    destruct (ArtifactTransferRequestV2.action request); done || lia.
Qed.

Definition answers (request : ArtifactTransferRequestV2.t) (response : ArtifactTransferResponseV2.t)
    (payload : string) : Prop :=
  ArtifactTransferResponseV2.schema response = ArtifactTransferResponseV2.SCHEMA ∧
  ArtifactTransferResponseV2.request_id response = ArtifactTransferRequestV2.request_id request ∧
  ArtifactTransferResponseV2.payload_size response = len payload.

Lemma artifact_response_roundtrip `{!Lossless ArtifactTransferResponseV2.t} request response payload bytes :
  answers request response payload → write_artifact_response response payload = Ok bytes →
  read_artifact_response request bytes =
    if is_success (ArtifactTransferResponseV2.status response) then Ok (response, payload)
    else Err (Mesh (MeshError.ArtifactRejected
                      (default "unknown error" (ArtifactTransferResponseV2.error response)))).
Proof.
  intros (Hs & Hid & Hsize) Hw. unfold write_artifact_response in Hw. inv_bind Hw. apply ensure_ok in Ha.
  inv_bind Hw. injection Hw as <-. apply andb_prop in Ha as [_ Hle]. unfold read_artifact_response.
  rewrite (read_write_header response a0 payload) by (done || apply lossless). cbn [mbind result_bind].
  rewrite Hs, Hid, Hle, !bool_decide_eq_true_2 by done. cbn [andb ensure mbind result_bind].
  destruct (is_success _); [|done]. cbn [negb].
  pose proof (read_exact_app payload "") as Hr. rewrite append_empty in Hr. by rewrite Hsize, Hr.
Qed.

(** A reply the requester accepts is bound to its request and within one chunk. *)
Lemma artifact_request_sound link request payload response received :
  artifact_request link request payload = Ok (response, received) →
  ArtifactTransferRequestV2.is_valid request = true ∧
  ArtifactTransferResponseV2.request_id response = ArtifactTransferRequestV2.request_id request ∧
  is_success (ArtifactTransferResponseV2.status response) = true ∧
  len received = ArtifactTransferResponseV2.payload_size response ∧
  len received ≤ ARTIFACT_TRANSFER_CHUNK_BYTES.
Proof.
  unfold artifact_request. intros H. inv_bind H. inv_bind H. inv_bind H. inv_bind H. inv_bind H.
  apply ensure_ok in Ha. unfold read_artifact_response in H. inv_bind H. destruct a4 as [r s]. inv_bind H.
  apply ensure_ok in Ha5. destruct (is_success (ArtifactTransferResponseV2.status r)) eqn:Hst; [|done].
  cbn [negb] in H. inv_bind H. destruct a5 as [pl rest]. injection H as <- <-.
  apply read_exact_inv in Ha6 as [_ Hlen]. bool_prop. split_and!; done || lia.
Qed.

(** A sequence of frames written to a stream reads back as that sequence. *)
Fixpoint next_frames (count : nat) (self : ModelResponseStream)
    : result Fault (list ModelInvocationFrameV1.t * ModelResponseStream) :=
  match count with
  | O => Ok ([], self)
  | S count =>
      '(frame, self) ← next_frame self;
      '(frames, self) ← next_frames count self;
      Ok (frame :: frames, self)
  end.

Lemma model_stream_roundtrip `{!Lossless ModelInvocationFrameV1.t} request_id frames written rest :
  Forall (λ frame, ModelInvocationFrameV1.request_id frame = request_id) frames →
  try_map write_model_frame frames = Ok written →
  next_frames (length frames) (mkModelStream (concat_bytes written +:+ rest) request_id)
  = Ok (frames, mkModelStream rest request_id).
Proof.
  intros Hid. revert written. induction Hid as [|frame frames Hf _ IH]; intros written Hw; cbn [try_map] in Hw.
  - by injection Hw as <-.
  - inv_bind Hw. inv_bind Hw. injection Hw as <-. unfold write_model_frame in Ha. inv_bind Ha.
    apply ensure_ok in Ha1. bool_prop. cbn [length next_frames]. unfold next_frame at 1.
    cbn [receive concat_bytes foldr]. fold (concat_bytes a0). rewrite append_assoc.
    rewrite (read_write_header frame a _) by (done || apply lossless). cbn [mbind result_bind stream_request_id].
    rewrite Ha1, Hf, !bool_decide_eq_true_2 by done. cbn [andb ensure mbind result_bind].
    rewrite IH by done. done.
Qed.

(** A frame the controller accepts for a remote-desktop request answers that request
    with a success, is valid under its lease, stays within the frame limit, and its payload has
    the announced size and digest; an answer without a frame carries no payload. *)
Theorem remote_desktop_frame_sound link request response payload :
  remote_desktop_request link request = Ok (response, payload) →
  RemoteDesktopResponseV1.request_id response = RemoteDesktopRequestV1.request_id request ∧
  is_success (RemoteDesktopResponseV1.status response) = true ∧
  match RemoteDesktopResponseV1.frame response with
  | Some frame =>
      RemoteDesktopFrameV1.is_valid_for frame (RemoteDesktopRequestV1.lease request) = true ∧
      len payload = RemoteDesktopFrameV1.payload_size frame ∧ len payload ≤ MAX_REMOTE_DESKTOP_FRAME_BYTES ∧
      CasStore.sha256_digest payload = RemoteDesktopFrameV1.payload_digest frame
  | None => payload = ""
  end.
Proof.
  unfold remote_desktop_request. intros H. inv_bind H. inv_bind H. inv_bind H. inv_bind H.
  unfold read_remote_desktop_response in H. inv_bind H. destruct a3 as [r s]. inv_bind H. inv_bind H.
  inv_bind H. destruct a5 as [pl rest]. destruct (is_success _) eqn:Hst; cbn [negb] in H.
  - inv_bind H. injection H as <- <-. apply ensure_ok in Ha4, Ha5, Ha7. apply read_exact_inv in Ha6 as [_ Hlen].
    bool_prop. unfold frame_payload_size in *. split_and!; [done|done|].
    destruct (RemoteDesktopResponseV1.frame r); bool_prop; [|by destruct pl].
    split_and!; done || lia.
  - inv_bind H. done.
Qed.

(** A control request that fails once connected closes its connection, so that the next one
    dials again; a deadline is never longer than the plane's own. *)
Lemma control_failure_retires deadline connection elapsed answered request close_on_success e code :
  control_request_with_policy deadline (Completed (Some connection)) elapsed answered request close_on_success
    = (Err e, code) →
  (deadline = 0 ∨ CONTROL_REQUEST_DEADLINE < deadline) ∧ code = None ∨ code = Some 1.
Proof.
  unfold control_request_with_policy. intros H. destruct (deadline != 0) eqn:?, (deadline <=? _) eqn:?;
    cbn [negb andb] in H; repeat (case_match; simplify_eq/=); bool_prop; naive_solver lia.
Qed.

Lemma control_response_matches connection request response :
  control_request_on_connection connection request = Ok response →
  MeshControlResponseV1.request_id response = MeshControlRequestV1.request_id request.
Proof.
  unfold control_request_on_connection. intros H. inv_bind H. inv_bind H. inv_bind H. inv_bind H. inv_bind H.
  case_match eqn:E; [done|]. bool_prop. by injection H as <-.
Qed.
End messages.
