(* ===== verification/Gateway.v ===== *)
(** * The worker's mesh gateway (crates/rampage-agent/src/main.rs)

    What an enrolled worker does with a stream of its controller: the artifact protocol over
    its durable store, the Remote Assist protocol over [RemoteAssist.handle_request], and
    the model protocol over the local Ollama service.  Each accepted stream is one step from
    the bytes received to the bytes written back.  The text of an error ([describe]) plays no
    part in a decision and is a parameter; so is the Ollama service, a sequence of response
    bodies. *)

From S2P Require Import Prelude.
From S2P Require Import Codec.
From S2P Require Import Text.
From S2P Require Import Contracts.
From S2P Require Import Wire.
From S2P Require Import Signing.
From S2P Require Import Storage.
From S2P Require Import Authority.
From S2P Require Import RemoteAssist.
From S2P Require Import Mesh.
Import Text.

(** [anyhow::Error] in the gateway. *)
Inductive GatewayError :=
| StreamFault (fault : Fault)
| Refused (denial : Denial.t)
| StoreError (error : StorageError.t)
| AssistError (error : RemoteAssistError.t)
| Complaint (text : string).

Module ArtifactOperationResult.
Record t := mk {
  request_id : Uuid; artifact : option ArtifactRefV1.t; progress : option ArtifactTransferProgressV1.t;
  chunk_index : option Z; chunk_digest : option string;
  replica_receipt : option ArtifactReplicaReceiptV1.t; payload : string
}.
End ArtifactOperationResult.

(** The readings of the clock and the identifiers one stream draws: when the lease is
    checked, when the store begins and when it performs, when possession was verified. *)
Record StreamEnv := mkStream {
  lease_now : DateTime; begin_now : DateTime; perform_now : DateTime; verified_at : DateTime;
  receipt_id : Uuid; chunk_nonce : string
}.

Module WorkerGatewayConfig.
Section config.
Context {crypto : Crypto}.
Record t := mk {
  controller_endpoint_id : string; node_id : Uuid; governor_public_key : string;
  signing_key : SigningKey
}.
End config.
End WorkerGatewayConfig.

(** What the gateway does with a connection, by peer and protocol. *)
Inductive Route := PeerDenied | ServeModel | ServeRemoteDesktop | ServeArtifact | ProtocolDenied.

Section gateway.
Context {codec : Codec} {crypto : Crypto} {ser : Serializer} {vault : Vault} {wire : MeshWire}.
Context (describe : GatewayError → string).
Implicit Types (request : ArtifactTransferRequestV2.t) (store : CasStore.t).

Definition serve_worker_gateway (config : WorkerGatewayConfig.t) (peer alpn : string) : Route :=
  if peer != WorkerGatewayConfig.controller_endpoint_id config then PeerDenied
  else if alpn == MODEL_ALPN then ServeModel
  else if alpn == REMOTE_DESKTOP_ALPN then ServeRemoteDesktop
  else if alpn != ARTIFACT_ALPN then ProtocolDenied
  else ServeArtifact.

(** ** Artifacts *)

Definition SCOPE : string := "governor".

Definition resumable_spec request : ResumablePutSpec.t :=
  let lease := ArtifactTransferRequestV2.lease request in
  ResumablePutSpec.mk (uuid_simple (ArtifactTransferRequestV2.session_id request))
    (uuid_simple (StorageLeaseV1.lease_id lease)) SCOPE (StorageLeaseV1.fencing_epoch lease)
    (StorageLeaseV1.nonce lease) (StorageLeaseV1.expires_at lease) (StorageLeaseV1.digest lease)
    (StorageLeaseV1.size_bytes lease) (ArtifactTransferRequestV2.media_type request)
    (StorageLeaseV1.storage_class lease)
    (if StorageLeaseV1.storage_class lease == StorageClass.Protected then 2 else 1)
    (ArtifactTransferRequestV2.chunk_size request).

Definition transfer_progress (session_id : Uuid) (status : ResumablePutStatus.t)
    : ArtifactTransferProgressV1.t :=
  ArtifactTransferProgressV1.mk ArtifactTransferProgressV1.SCHEMA session_id
    (ResumablePutStatus.digest status) (ResumablePutStatus.size_bytes status)
    (ResumablePutStatus.chunk_size status) (ResumablePutStatus.chunk_count status)
    (ResumablePutStatus.received_chunks status) (ResumablePutStatus.missing_chunks status)
    (ResumablePutStatus.complete status).

Definition signed_replica_receipt (env : StreamEnv) request (node_id : Uuid) (signing_key : SigningKey)
    : ArtifactReplicaReceiptV1.t :=
  let lease := ArtifactTransferRequestV2.lease request in
  sign_artifact_replica_receipt signing_key
    (ArtifactReplicaReceiptV1.mk ArtifactReplicaReceiptV1.SCHEMA (receipt_id env)
       (ArtifactTransferRequestV2.session_id request) (StorageLeaseV1.lease_id lease) node_id
       (StorageLeaseV1.digest lease) (StorageLeaseV1.size_bytes lease)
       (StorageLeaseV1.storage_class lease) (ArtifactTransferRequestV2.challenge_nonce request)
       (verified_at env) (verified_at env + minutes 10) (StorageLeaseV1.fencing_epoch lease) "").

(** A step on the store that may fail; a failure keeps the store it reached. *)
Definition Served (A : Type) : Type := result GatewayError A * CasStore.t.
Definition on_store {A B} (r : result StorageError.t A * CasStore.t) (k : A → CasStore.t → Served B)
    : Served B :=
  match r with
  | (Ok a, s) => k a s
  | (Err e, s) => (Err (StoreError e), s)
  end.
Definition ensure_then {B} (b : bool) (text : string) store (k : Served B) : Served B :=
  if b then k else (Err (Complaint text), store).

Definition begin (env : StreamEnv) request store :=
  CasStore.begin_resumable_put store (resumable_spec request) (begin_now env).
Definition accept_lease (env : StreamEnv) request store :=
  let lease := ArtifactTransferRequestV2.lease request in
  CasStore.accept_authority store SCOPE (StorageLeaseV1.fencing_epoch lease) (StorageLeaseV1.nonce lease)
    (StorageLeaseV1.expires_at lease) (begin_now env).

Definition progress_result request (status : ResumablePutStatus.t) (chunk_index : option Z)
    (chunk_digest : option string) : ArtifactOperationResult.t :=
  ArtifactOperationResult.mk (ArtifactTransferRequestV2.request_id request) None
    (Some (transfer_progress (ArtifactTransferRequestV2.session_id request) status))
    chunk_index chunk_digest None "".

(** The metadata of a stored artifact against its lease. *)
Definition matches_lease (stored : ArtifactRefV1.t) (lease : StorageLeaseV1.t) : bool :=
  (ArtifactRefV1.storage_class stored == StorageLeaseV1.storage_class lease)
  && (ArtifactRefV1.size_bytes stored =? StorageLeaseV1.size_bytes lease).

(** A request that was read is valid, so a chunk request names its index and digest; the
    source panics otherwise. *)
Definition perform (env : StreamEnv) (config : WorkerGatewayConfig.t) request (payload : string) store
    : Served ArtifactOperationResult.t :=
  let lease := ArtifactTransferRequestV2.lease request in
  let session := uuid_simple (ArtifactTransferRequestV2.session_id request) in
  let request_id := ArtifactTransferRequestV2.request_id request in
  let node_id := WorkerGatewayConfig.node_id config in
  let key := WorkerGatewayConfig.signing_key config in
  match ArtifactTransferRequestV2.action request with
  | ArtifactTransferActionV2.Begin | ArtifactTransferActionV2.Status =>
      on_store (begin env request store) (λ status s, (Ok (progress_result request status None None), s))
  | ArtifactTransferActionV2.PutChunk =>
      on_store (begin env request store) (λ _ s,
        match ArtifactTransferRequestV2.chunk_index request, ArtifactTransferRequestV2.chunk_digest request with
        | Some index, Some digest =>
            on_store (CasStore.put_resumable_chunk s session index digest payload (chunk_nonce env)
                        (perform_now env)) (λ status s,
              (Ok (progress_result request status (Some index) (Some digest)), s))
        | _, _ => (Err (Complaint "validated chunk index and digest"), s)
        end)
  | ArtifactTransferActionV2.Commit =>
      on_store (begin env request store) (λ _ s,
        on_store (CasStore.commit_resumable_put s session (perform_now env)) (λ artifact s,
          ensure_then ((ArtifactRefV1.digest artifact == StorageLeaseV1.digest lease)
                       && (ArtifactRefV1.size_bytes artifact =? StorageLeaseV1.size_bytes lease))
            "stored artifact did not match its lease" s
            (on_store (CasStore.resumable_put_status s session, s) (λ status s,
               (Ok (ArtifactOperationResult.mk request_id (Some artifact)
                      (Some (transfer_progress (ArtifactTransferRequestV2.session_id request) status))
                      None None (Some (signed_replica_receipt env request node_id key)) ""), s)))))
  | ArtifactTransferActionV2.GetChunk =>
      on_store (accept_lease env request store) (λ _ s,
        on_store (CasStore.head s (StorageLeaseV1.digest lease), s) (λ stored s,
          ensure_then (matches_lease stored lease) "stored artifact metadata did not match its lease" s
            match ArtifactTransferRequestV2.chunk_index request with
            | Some index =>
                on_store (CasStore.get_chunk s (StorageLeaseV1.digest lease) index, s) (λ chunk s,
                  (Ok (ArtifactOperationResult.mk request_id (Some stored) None (Some index)
                         (Some (CasStore.sha256_digest chunk)) None chunk), s))
            | None => (Err (Complaint "validated chunk index"), s)
            end))
  | ArtifactTransferActionV2.Head =>
      on_store (accept_lease env request store) (λ _ s,
        on_store (CasStore.verify s (StorageLeaseV1.digest lease), s) (λ stored s,
          ensure_then (matches_lease stored lease) "stored artifact metadata did not match its lease" s
            (Ok (ArtifactOperationResult.mk request_id (Some stored) None None None
                   (Some (signed_replica_receipt env request node_id key)) ""), s)))
  end.

(** The checks before the store is touched. *)
Definition check_lease (env : StreamEnv) (config : WorkerGatewayConfig.t) request : result GatewayError () :=
  let lease := ArtifactTransferRequestV2.lease request in
  _ ← map_err Refused (verify_storage_lease_with_key (WorkerGatewayConfig.governor_public_key config) lease);
  ensure ((StorageLeaseV1.node_id lease == WorkerGatewayConfig.node_id config)
          && StorageLeaseV1.is_active_at lease (lease_now env) (StorageLeaseV1.fencing_epoch lease))
    (Complaint "storage lease is not active for this node").

Definition operate (env : StreamEnv) (config : WorkerGatewayConfig.t)
    (parsed : result Fault (ArtifactTransferRequestV2.t * string)) store
    : Served ArtifactOperationResult.t :=
  match parsed with
  | Err fault => (Err (StreamFault fault), store)
  | Ok (request, payload) =>
      match check_lease env config request with
      | Err e => (Err e, store)
      | Ok _ => perform env config request payload store
      end
  end.

Definition response_of (request_id : Uuid) (r : result GatewayError ArtifactOperationResult.t)
    : ArtifactTransferResponseV2.t * string :=
  match r with
  | Ok result =>
      let payload := ArtifactOperationResult.payload result in
      (ArtifactTransferResponseV2.mk ArtifactTransferResponseV2.SCHEMA
         (ArtifactOperationResult.request_id result) 200 (ArtifactOperationResult.artifact result)
         (ArtifactOperationResult.progress result) (ArtifactOperationResult.chunk_index result)
         (ArtifactOperationResult.chunk_digest result) (len payload)
         (ArtifactOperationResult.replica_receipt result) None, payload)
  | Err error =>
      (ArtifactTransferResponseV2.mk ArtifactTransferResponseV2.SCHEMA request_id 400 None None None None 0
         None (Some (describe error)), "")
  end.

(** One stream of an artifact connection: what is written back (nothing when the response
    cannot be framed) and the store after it. *)
Definition serve_artifact (env : StreamEnv) (config : WorkerGatewayConfig.t) (received : string) store
    : string * CasStore.t :=
  let parsed := read_artifact_request received in
  let response_request_id :=
    match parsed with Ok (request, _) => ArtifactTransferRequestV2.request_id request | Err _ => nil_uuid end in
  let '(r, s) := operate env config parsed store in
  let '(response, payload) := response_of response_request_id r in
  (match write_artifact_response response payload with Ok bytes => bytes | Err _ => "" end, s).

(** ** Remote Assist *)

(** [error.chars().take(512).collect()]: characters of UTF-8 text, not bytes. *)
Definition is_continuation (c : ascii) : bool := (N_of_ascii c / 64 =? 2)%N.
Fixpoint take_chars (n : nat) (s : string) : string :=
  match s with
  | "" => ""
  | String c s' =>
      if is_continuation c then String c (take_chars n s')
      else match n with O => "" | S n => String c (take_chars n s') end
  end.
Definition bounded_error (error : string) : string := take_chars 512 error.

Definition serve_remote_desktop {S : Type} {authority : Authority S} {render : Render}
    (parse_policy : string → option (string * bool)) (supported : bool)
    (env : RemoteAssist.Env) (config : WorkerGatewayConfig.t) (received : string)
    (w : RemoteAssist.World S) : string * RemoteAssist.World S :=
  let parsed := read_remote_desktop_request received in
  let request_id :=
    match parsed with Ok (request, _) => RemoteDesktopRequestV1.request_id request | Err _ => nil_uuid end in
  let '(r, w) :=
    match parsed with
    | Err fault => (Err (StreamFault fault), w)
    | Ok (request, _) =>
        let '(r, w) :=
          RemoteAssist.handle_request parse_policy supported env request (WorkerGatewayConfig.node_id config)
            (WorkerGatewayConfig.controller_endpoint_id config)
            (WorkerGatewayConfig.governor_public_key config) w in
        (map_err AssistError r, w)
    end in
  let '(response, payload) :=
    match r with
    | Ok result => result
    | Err error =>
        (RemoteDesktopResponseV1.mk RemoteDesktopResponseV1.SCHEMA request_id 403 None 0
           (Some (bounded_error (describe error))), "")
    end in
  (match write_remote_desktop_response response payload with Ok bytes => bytes | Err _ => "" end, w).
End gateway.
