(* ===== verification/GatewayFacts.v ===== *)
(** * Facts about the worker's artifact gateway

    A request without a governor's lease for this node changes nothing; a proof of possession
    is signed only over content the store then holds; and a call over the stream is the
    handler's own answer. *)

From S2P Require Import Prelude.
From S2P Require Import Codec.
From S2P Require Import Text.
From S2P Require Import Contracts.
From S2P Require Import Wire.
From S2P Require Import Signing.
From S2P Require Import Governor.
From S2P Require Import GovernorFacts.
From S2P Require Import Storage.
From S2P Require Import StorageFacts.
From S2P Require Import Mesh.
From S2P Require Import MeshFacts.
From S2P Require Import Gateway.
Import Text.

Section gateway.
Context {codec : Codec} {crypto : Crypto} {ser : Serializer} {vault : Vault} {wire : MeshWire}.
Context {laws : CryptoLaws codec crypto}.
Implicit Types (request : ArtifactTransferRequestV2.t) (store : CasStore.t).

(** The store holds content of this address. *)
Definition holds store (digest : string) : Prop :=
  ∃ p, CasStore.get store digest = Ok p ∧ CasStore.sha256_digest p = digest.

(** A lease the governor signed for this node and that is in force. *)
Definition authorized (env : StreamEnv) (config : WorkerGatewayConfig.t) (lease : StorageLeaseV1.t) : Prop :=
  verify_storage_lease_with_key (WorkerGatewayConfig.governor_public_key config) lease = Ok () ∧
  StorageLeaseV1.node_id lease = WorkerGatewayConfig.node_id config ∧
  StorageLeaseV1.is_active_at lease (lease_now env) (StorageLeaseV1.fencing_epoch lease) = true.

Lemma check_lease_authorized env config request :
  check_lease env config request = Ok () ↔ authorized env config (ArtifactTransferRequestV2.lease request).
Proof.
  unfold check_lease, authorized. split.
  - intros ([] & Hv & Hb)%bind_ok_inv. apply map_err_ok in Hv. apply ensure_ok in Hb. bool_prop. done.
  - intros (Hv & Hn & Ha). rewrite Hv. cbn [map_err mbind result_bind]. by rewrite Hn, Ha, bool_decide_true.
Qed.

Lemma on_store_inv {A B} (r : result StorageError.t A * CasStore.t) (k : A → CasStore.t → Served B) b s :
  on_store r k = (Ok b, s) → ∃ a s1, r = (Ok a, s1) ∧ k a s1 = (Ok b, s).
Proof. unfold on_store. destruct r as [[a|] s1]; [|done]. eauto. Qed.
Lemma ensure_then_inv {B} b text store (k : Served B) r s :
  ensure_then b text store k = (Ok r, s) → b = true ∧ k = (Ok r, s).
Proof. unfold ensure_then. by destruct b. Qed.

Lemma verify_holds store digest a : CasStore.verify store digest = Ok a → holds store digest.
Proof.
  unfold CasStore.verify. intros (verified & Hv & _)%bind_ok_inv.
  apply verify_object_get in Hv as (_ & p & Hp & Hs & _). by exists p.
Qed.

(** What a result with a receipt says. *)
Definition receipted (env : StreamEnv) (config : WorkerGatewayConfig.t) request store
    (receipt : ArtifactReplicaReceiptV1.t) : Prop :=
  receipt = signed_replica_receipt env request (WorkerGatewayConfig.node_id config) (WorkerGatewayConfig.signing_key config) ∧
  holds store (StorageLeaseV1.digest (ArtifactTransferRequestV2.lease request)).

Lemma perform_receipted env config request payload store result s receipt :
  perform env config request payload store = (Ok result, s) →
  ArtifactOperationResult.replica_receipt result = Some receipt → receipted env config request s receipt.
Proof.
  unfold perform. destruct (ArtifactTransferRequestV2.action request).
  - intros (a & s1 & _ & [= <- <-])%on_store_inv. done.
  - intros (a & s1 & _ & [= <- <-])%on_store_inv. done.
  - intros (a & s1 & _ & H)%on_store_inv. repeat case_match; try done.
    apply on_store_inv in H as (b & s2 & _ & H). by injection H as <- <-.
  - intros (a & s1 & _ & H)%on_store_inv.
    apply on_store_inv in H as (artifact & s2 & Hc & H). apply ensure_then_inv in H as [Hb H]. bool_prop.
    apply on_store_inv in H as (status & s3 & Hs & H). injection Hs as _ <-. injection H as <- <-. intros [= <-].
    apply commit_sound in Hc as (session & _ & _ & _ & _ & (p & Hp & Hsha & _) & _).
    split; [done|]. exists p. by rewrite <-H0.
  - intros (a & s1 & _ & H)%on_store_inv. apply on_store_inv in H as (stored & s2 & _ & H).
    apply ensure_then_inv in H as [_ H]. case_match; [|done].
    apply on_store_inv in H as (chunk & s3 & _ & H). by injection H as <- <-.
  - intros (a & s1 & _ & H)%on_store_inv. apply on_store_inv in H as (stored & s2 & Hv & H).
    injection Hv as Hv <-. apply ensure_then_inv in H as [_ H]. injection H as <- <-. intros [= <-].
    split; [done|]. by eapply verify_holds.
Qed.

(** ** Calls over the stream *)

Section calls.
Context (describe : GatewayError → string) (env : StreamEnv) (config : WorkerGatewayConfig.t).
Context `{!Lossless ArtifactTransferRequestV2.t, !Lossless ArtifactTransferResponseV2.t}.

(** The worker at the other end of the connection. *)
Definition worker_link store : Link := Some (λ message, Some (serve_artifact describe env config message store).1).

(** What the worker makes of a request it was sent. *)
Lemma served_request request payload message store :
  artifact_message request payload = Ok message →
  serve_artifact describe env config message store =
    (let '(r, s) := operate env config (Ok (request, payload)) store in
     let '(response, answer) := response_of describe (ArtifactTransferRequestV2.request_id request) r in
     (match write_artifact_response response answer with Ok bytes => bytes | Err _ => "" end, s)).
Proof.
  unfold artifact_message. intros H. inv_bind H. inv_bind H. inv_bind H. injection H as <-.
  apply ensure_ok in Ha, Ha0. bool_prop. unfold serve_artifact.
  by rewrite (artifact_request_roundtrip request payload a1).
Qed.

Lemma perform_request_id request payload store result s :
  perform env config request payload store = (Ok result, s) →
  ArtifactOperationResult.request_id result = ArtifactTransferRequestV2.request_id request.
Proof.
  unfold perform, on_store, ensure_then. intros H. repeat (case_match; simplify_eq/=; try done).
Qed.
Lemma response_answers request payload store r s response answer :
  operate env config (Ok (request, payload)) store = (r, s) →
  response_of describe (ArtifactTransferRequestV2.request_id request) r = (response, answer) →
  answers request response answer.
Proof.
  unfold operate. destruct (check_lease _ _ _).
  - intros Hp. destruct r as [result|]; cbn [response_of]; intros [= <- <-]; split_and!; try done.
    by apply perform_request_id in Hp.
  - intros [= <- <-]. cbn [response_of]. by intros [= <- <-].
Qed.

(** A call that succeeds is the handler's success: the caller sees the handler's result. *)
Lemma call_is_handled request payload store response answer :
  artifact_request (worker_link store) request payload = Ok (response, answer) →
  ∃ message result, artifact_message request payload = Ok message ∧
    operate env config (Ok (request, payload)) store
      = (Ok result, (serve_artifact describe env config message store).2) ∧
    response_of describe (ArtifactTransferRequestV2.request_id request) (Ok result) = (response, answer).
Proof.
  intros H. unfold artifact_request, worker_link in H. inv_bind H. inv_bind H. inv_bind H. inv_bind H. inv_bind H.
  injection Ha1 as <-. injection Ha3 as <-. apply ensure_ok in Ha, Ha0.
  assert (artifact_message request payload = Ok (a2 +:+ payload)) as Hm.
  { unfold artifact_message. rewrite Ha, Ha0. cbn [ensure mbind result_bind]. by rewrite Ha2. }
  pose proof (served_request request payload (a2 +:+ payload) store Hm) as Hs. rewrite Hs in H.
  destruct (operate _ _ _ _) as [r s] eqn:Ho. destruct (response_of _ _ r) as [response' answer'] eqn:Hr.
  pose proof (response_answers _ _ _ _ _ _ _ Ho Hr) as Hans. cbn [fst] in H.
  destruct (write_artifact_response response' answer') as [bytes|] eqn:Hw.
  - rewrite (artifact_response_roundtrip _ _ _ _ Hans Hw) in H.
    destruct r as [result|e]; cbn [response_of] in Hr; [|by injection Hr as <- <-].
    assert (is_success (ArtifactTransferResponseV2.status response') = true) as Hok by by injection Hr as <- <-.
    rewrite Hok in H. injection H as <- <-. exists (a2 +:+ payload), result. by rewrite Hs.
  - exfalso. unfold read_artifact_response, read_header in H. cbn in H. done.
Qed.

(** [C6] A proof of possession is real: when a worker's answer to a request carries a replica
    receipt, the request's lease was signed by the governor for this node and is in force, the
    worker's store after the call holds content that hashes to the leased digest, and the
    receipt names that digest, its size and the challenge and verifies under the worker's
    enrolled identity. *)
Theorem possession_is_real request payload store response answer receipt identity :
  artifact_request (worker_link store) request payload = Ok (response, answer) →
  ArtifactTransferResponseV2.replica_receipt response = Some receipt →
  identity_of identity (WorkerGatewayConfig.signing_key config) (WorkerGatewayConfig.node_id config) →
  let lease := ArtifactTransferRequestV2.lease request in
  authorized env config lease ∧
  (∃ message, artifact_message request payload = Ok message ∧
     holds (serve_artifact describe env config message store).2 (StorageLeaseV1.digest lease)) ∧
  ArtifactReplicaReceiptV1.digest receipt = StorageLeaseV1.digest lease ∧
  ArtifactReplicaReceiptV1.size_bytes receipt = StorageLeaseV1.size_bytes lease ∧
  ArtifactReplicaReceiptV1.challenge_nonce receipt = ArtifactTransferRequestV2.challenge_nonce request ∧
  verify_contract (NodeIdentityV1.public_key identity) receipt = Ok ().
Proof.
  intros (message & result & Hm & Ho & Hr)%call_is_handled Hreceipt [Hkey _].
  assert (ArtifactOperationResult.replica_receipt result = Some receipt) as Hres
    by (cbn [response_of] in Hr; by injection Hr as <- <-).
  unfold operate in Ho. destruct (check_lease env config request) as [[]|] eqn:Hc; [|done].
  apply check_lease_authorized in Hc. destruct (perform_receipted _ _ _ _ _ _ _ _ Ho Hres) as [-> Hh].
  split_and!; [done|by exists message|done..|]. rewrite Hkey. apply verify_sign_contract.
Qed.

(** [C20] Whatever bytes a controller's connection delivers, the worker's store changes only for
    a well-formed request whose lease the governor signed for this node and which is in force. *)
Theorem store_changes_are_authorized received store :
  (serve_artifact describe env config received store).2 = store ∨
  ∃ request payload, read_artifact_request received = Ok (request, payload) ∧
    ArtifactTransferRequestV2.is_valid request = true ∧
    authorized env config (ArtifactTransferRequestV2.lease request).
Proof.
  unfold serve_artifact. destruct (operate _ _ _ _) as [r s] eqn:Ho.
  destruct (response_of _ _ r). cbn [snd]. unfold operate in Ho.
  destruct (read_artifact_request received) as [[request payload]|] eqn:Hr; [|left; by injection Ho as _ <-].
  destruct (check_lease env config request) as [[]|] eqn:Hc; [|left; by injection Ho as _ <-].
  right. exists request, payload. split_and!; [done| |by apply check_lease_authorized].
  unfold read_artifact_request in Hr. inv_bind Hr. destruct a as [request' stream]. inv_bind Hr.
  apply ensure_ok in Ha0. case_match; [|by injection Hr as <- _]. inv_bind Hr. destruct a0. by injection Hr as <- _.
Qed.
End calls.
End gateway.
