(* ===== verification/Process.v ===== *)
(** * Contributor processes

    What the agent (crates/rampage-agent/src/main.rs) and the edge worker
    (crates/rampage-edge/src/lib.rs) share: computations over a process's own state that read
    the clock, draw identifiers and call the controller over the mesh; JSON files; and the
    controller a contributor pins when it enrolls. *)

From S2P Require Import Prelude.
From S2P Require Import Codec.
From S2P Require Import Text.
From S2P Require Import Contracts.
From S2P Require Import Wire.
From S2P Require Import Signing.
From S2P Require Import Storage.
From S2P Require Import Worker.
From S2P Require Import Net.
From S2P Require Import Mesh.
Import Text.
#[local] Open Scope Z_scope.

(** [anyhow::Error] in these processes: a message, the mesh's, a refusal of the controller,
    the errors of serde_json, hex, uuid, reqwest and the executor, and a panic. *)
Module Trouble.
Inductive t :=
| Complaint (text : string)
| MeshFailed (fault : Fault)
| Rejected (status : Z) (body : Value)
| NotJson
| NotHex
| NotUuid
| HttpFailed
| Execution (error : ExecutionError.t)
| Panic.
End Trouble.

(** [endpoint.addr()], as text. *)
Record Address := mkAddress { address_id : string; ip_addrs : list string; relay_addrs : list string }.

(** What a process draws from its surroundings, by the number of the draw: the clock, new
    identifiers and secrets, its own address, the processors, and the course of a call: the
    connection, the time it took, and whether the answer came before the timer; the monotonic
    clock, whether a file is there or a thread has ended, the status and body of an answer
    over HTTP, and whether a look at a path fails, which [Path::is_file] and [Path::exists] report
    as no file. *)
Record Surroundings := mkSurroundings {
  clock : nat → DateTime;
  fresh : nat → Uuid;
  secret : nat → string;
  address : nat → Address;
  available_parallelism : nat → option Z;
  connected : nat → Timed Link;
  elapsed : nat → Z;
  answered : nat → Timed ();
  execution : nat → Worker.Env;
  instant : nat → Z;
  sight : nat → bool;
  http : nat → option (Z * string);
  unseen : nat → bool
}.

(** The draws made, the requests sent, and the state of the process. *)
Record World (S : Type) := mkWorld { draws : nat; sent : list MeshControlRequestV1.t; state : S }.
Arguments mkWorld {S} _ _ _.
Arguments draws {S} _.
Arguments sent {S} _.
Arguments state {S} _.

Definition P (S A : Type) : Type := Surroundings → World S → result Trouble.t A * World S.

#[global] Instance P_ret S : MRet (P S) := λ A a env w, (Ok a, w).
#[global] Instance P_bind S : MBind (P S) := λ A B f m env w,
  match m env w with
  | (Ok a, w') => f a env w'
  | (Err e, w') => (Err e, w')
  end.

Section effects.
Context {S : Type}.

Definition look {A} (f : S → A) : P S A := λ env w, (Ok (f (state w)), w).
Definition change (f : S → S) : P S () := λ env w, (Ok (), mkWorld (draws w) (sent w) (f (state w))).
Definition draw {A} (f : Surroundings → nat → A) : P S A := λ env w,
  (Ok (f env (draws w)), mkWorld (Datatypes.S (draws w)) (sent w) (state w)).
Definition raise {A} (e : Trouble.t) : P S A := λ env w, (Err e, w).
(** [r.map_err(f)?], [anyhow::ensure!] and [ok_or_else]. *)
Definition try_ {E A} (f : E → Trouble.t) (r : result E A) : P S A :=
  match r with Ok a => mret a | Err e => raise (f e) end.
Definition assert_ (b : bool) (text : string) : P S () := if b then mret () else raise (Trouble.Complaint text).
Definition obtain {A} (o : option A) (e : Trouble.t) : P S A :=
  match o with Some a => mret a | None => raise e end.
(** [match m { Ok(..) => .., Err(..) => .. }]. *)
Definition outcome {A} (m : P S A) : P S (result Trouble.t A) := λ env w,
  let '(r, w') := m env w in (Ok r, w').

(** One request to the controller; it is on record once the connection stands. *)
Definition call {codec : Codec} {wire : MeshWire} (deadline : Z) (one_shot : bool) (request : MeshControlRequestV1.t)
    : P S MeshControlResponseV1.t := λ env w,
  let n := draws w in
  let reached := match connected env n with Completed (Some _) => true | _ => false end in
  (map_err Trouble.MeshFailed
     (control_request_with_policy deadline (connected env n) (elapsed env n) (answered env n) request one_shot).1,
   mkWorld (Datatypes.S n) (if reached then sent w ++ [request] else sent w) (state w)).
End effects.

(** ** JSON files *)

(** [serde_json::to_vec_pretty], and that white space does not matter to the parser. *)
Class Pretty := { json_to_string_pretty : Value → string }.
Class PrettyLaws {codec : Codec} (pretty : Pretty) : Prop :=
  pretty_parses v : json_from_str (json_to_string_pretty v) = json_from_str (json_to_string v).

Section files.
Context {codec : Codec} {pretty : Pretty}.
(** The bytes of a file of at most [max_bytes], parsed. *)
Definition read_json `{Wire A} (max_bytes : Z) (bytes : string) : result Trouble.t A :=
  if max_bytes <? len bytes then Err (Trouble.Complaint "bounded JSON input is invalid")
  else map_err (λ _, Trouble.NotJson) (decode_json bytes).
Definition pretty_json `{Wire A} (value : A) : string := json_to_string_pretty (to_value value).
End files.

(** [serde_json::from_value::<Option<A>>]. *)
Definition optional_from_value `{Wire A} (v : Value) : option (option A) :=
  match v with VNull => Some None | v => Some <$> from_value v end.

(** ** The pinned controller *)

Module PinnedControllerV1.
Record t := mk {
  schema : string; endpoint : MeshEndpointRecordV1.t; governor_public_key : string; enrolled_at : DateTime
}.
Definition SCHEMA : string := "rampage.pinned-controller.v1".
End PinnedControllerV1.

(** [s.split_once(c)]. *)
Fixpoint split_once (c : ascii) (s : string) : option (string * string) :=
  match s with
  | "" => None
  | String d s =>
      if c == d then Some ("", s)
      else '(a, b) ← split_once c s; Some (String d a, b)
  end.

Definition is_hex_key (key : string) : bool := (len key =? 64) && all_bytes is_ascii_hexdigit key.

Section enrollment.
Context {codec : Codec} {crypto : Crypto} {ser : Serializer} {render : Render} {iroh : Iroh}.

Definition mesh_config_for_controller (record : MeshEndpointRecordV1.t) : result Trouble.t MeshConfig.t :=
  let mode := if no_elems (MeshEndpointRecordV1.relay_urls record) then MeshMode.LocalOnly
              else MeshMode.PrivateRelay (MeshEndpointRecordV1.relay_urls record) in
  let config := MeshConfig.mk "rampage.mesh-config.v1" mode {[MeshEndpointRecordV1.endpoint_id record]} in
  _ ← map_err (λ e, Trouble.MeshFailed (Mesh e)) (validate config);
  Ok config.

Definition validate_controller_pin (pin : PinnedControllerV1.t) : result Trouble.t () :=
  let endpoint := PinnedControllerV1.endpoint pin in
  _ ← ensure (PinnedControllerV1.schema pin == PinnedControllerV1.SCHEMA)
        (Trouble.Complaint "unsupported controller pin schema");
  _ ← ensure (is_hex_key (MeshEndpointRecordV1.endpoint_id endpoint)
              && is_hex_key (PinnedControllerV1.governor_public_key pin))
        (Trouble.Complaint "controller pin contains a malformed identity");
  _ ← map_err (λ _, Trouble.Complaint "stored controller route signature is invalid")
        (verify_pinned_mesh_endpoint_with_key (PinnedControllerV1.governor_public_key pin) endpoint);
  _ ← map_err (λ e, Trouble.MeshFailed (Mesh e)) (endpoint_addr_from_pinned_record endpoint);
  Ok ().

Definition pin_from_invitation (now : DateTime) (invitation : EnrollmentInviteV1.t)
    : result Trouble.t PinnedControllerV1.t :=
  endpoint ← ok_or (Trouble.Complaint "invitation omitted its controller mesh endpoint")
               (EnrollmentInviteV1.controller_mesh invitation);
  governor_public_key ← ok_or (Trouble.Complaint "invitation omitted its Governor public key")
                          (EnrollmentInviteV1.governor_public_key invitation);
  let pin := PinnedControllerV1.mk PinnedControllerV1.SCHEMA endpoint governor_public_key now in
  _ ← validate_controller_pin pin;
  Ok pin.

Definition parse_enrollment_code (code : string) : result Trouble.t (Uuid * string) :=
  '(invite_id, secret) ← ok_or (Trouble.Complaint "enrollment code has an invalid shape") (split_once "." code);
  id ← ok_or Trouble.NotUuid (uuid_parse invite_id);
  Ok (id, secret).

Definition parse_device_kind (value : string) : result Trouble.t DeviceKind.t :=
  if value == "desktop" then Ok DeviceKind.Desktop
  else if value == "laptop" then Ok DeviceKind.Laptop
  else if value == "server" then Ok DeviceKind.Server
  else if value == "steam_deck" then Ok DeviceKind.SteamDeck
  else if value == "phone" then Ok DeviceKind.Phone
  else if value == "tablet" then Ok DeviceKind.Tablet
  else if value == "console" then Ok DeviceKind.Console
  else Err (Trouble.Complaint ("unsupported device kind " +:+ value)).
End enrollment.

(** ** Computations that leave the state alone *)

(** Whether they succeed or fail. *)
Definition quiet {S A} (m : P S A) : Prop := ∀ env w, state (m env w).2 = state w.
Lemma quiet_ret {S A} (a : A) : quiet (S := S) (mret a).
Proof. done. Qed.
Lemma quiet_bind {S A B} (m : P S A) (f : A → P S B) : quiet m → (∀ a, quiet (f a)) → quiet (m ≫= f).
Proof.
  intros Hm Hf env w. unfold mbind, P_bind. specialize (Hm env w).
  destruct (m env w) as [[a|e] w']; [|done]. by rewrite Hf.
Qed.
Lemma quiet_draw {S A} (f : Surroundings → nat → A) : quiet (S := S) (draw f).
Proof. done. Qed.
Lemma quiet_look {S A} (f : S → A) : quiet (look f).
Proof. done. Qed.
Lemma quiet_call {codec : Codec} {wire : MeshWire} {S} deadline one_shot request : quiet (S := S) (call deadline one_shot request).
Proof. done. Qed.
Lemma quiet_raise {S A} e : quiet (S := S) (A := A) (raise e).
Proof. done. Qed.
Create HintDb quiet.
#[export] Hint Resolve quiet_ret quiet_bind quiet_draw quiet_look quiet_call quiet_raise : quiet.
Ltac quiet := repeat first [solve [eauto with quiet] | apply quiet_bind; intros | case_match; simplify_eq].

Lemma quiet_assert {S} b text : quiet (S := S) (assert_ b text).
Proof. unfold assert_. by destruct b. Qed.
Lemma quiet_try {S E A} f (r : result E A) : quiet (S := S) (try_ f r).
Proof. by destruct r. Qed.
Lemma quiet_obtain {S A} (o : option A) e : quiet (S := S) (obtain o e).
Proof. by destruct o. Qed.
#[export] Hint Resolve quiet_assert quiet_try quiet_obtain : quiet.

Lemma P_bind_ok {S A B} (m : P S A) (f : A → P S B) env w b w' :
  (m ≫= f) env w = (Ok b, w') → ∃ a w1, m env w = (Ok a, w1) ∧ f a env w1 = (Ok b, w').
Proof. unfold mbind, P_bind. destruct (m env w) as [[a|e] w1]; [|done]. eauto. Qed.
Lemma assert_ok {S} b text env (w : World S) w' : assert_ b text env w = (Ok (), w') → b = true ∧ w' = w.
Proof. unfold assert_. destruct b; [|done]. by intros [= <-]. Qed.
Lemma try_ok {S E A} f (r : result E A) env (w : World S) a w' : try_ f r env w = (Ok a, w') → r = Ok a ∧ w' = w.
Proof. destruct r; [|done]. by intros [= <- <-]. Qed.

(** ** Invariants *)

(** A computation keeps an invariant of the state, whether it succeeds or fails, and what it
    returns satisfies a condition. *)
Definition holds {S A} (I : S → Prop) (m : P S A) (Q : A → Prop) : Prop :=
  ∀ env w, I (state w) → I (state (m env w).2) ∧ ∀ a, (m env w).1 = Ok a → Q a.

Section rules.
Context {S : Type} (I : S → Prop).

Lemma holds_ret {A} (a : A) (Q : A → Prop) : Q a → holds I (mret a) Q.
Proof. intros HQ env w Hw. split; [done|]. by intros ? [= <-]. Qed.
Lemma holds_bind {A B} (m : P S A) (f : A → P S B) (Q : A → Prop) (R : B → Prop) :
  holds I m Q → (∀ a, Q a → holds I (f a) R) → holds I (m ≫= f) R.
Proof.
  intros Hm Hf env w Hw. unfold mbind, P_bind. destruct (Hm env w Hw) as [H1 H2].
  destruct (m env w) as [[a|e] w1]; [|done]. apply Hf; [by apply H2|done].
Qed.
Lemma holds_weaken {A} (m : P S A) (Q R : A → Prop) : holds I m Q → (∀ a, Q a → R a) → holds I m R.
Proof. intros Hm HQR env w Hw. destruct (Hm env w Hw) as [H1 H2]. eauto. Qed.
Lemma holds_quiet {A} (m : P S A) : quiet m → holds I m (λ _, True).
Proof. intros Hm env w Hw. by rewrite Hm. Qed.
Lemma holds_draw {A} (f : Surroundings → nat → A) : holds I (draw f) (λ a, ∃ env n, a = f env n).
Proof. intros env w Hw. split; [done|]. intros a [= <-]. eauto. Qed.
Lemma holds_look {A} (f : S → A) : holds I (look f) (λ a, ∃ s, I s ∧ a = f s).
Proof. intros env w Hw. split; [done|]. intros a [= <-]. eauto. Qed.
Lemma holds_change f : (∀ s, I s → I (f s)) → holds I (change f) (λ _, True).
Proof. intros Hf env w Hw. split; [by apply Hf|done]. Qed.
Lemma holds_raise {A} e (Q : A → Prop) : holds I (raise e) Q.
Proof. by intros env w Hw. Qed.
Lemma holds_try {E A} f (r : result E A) : holds I (try_ f r) (λ a, r = Ok a).
Proof. destruct r; intros env w Hw; (split; [done|]); [by intros ? [= <-]|done]. Qed.
Lemma holds_assert b text : holds I (assert_ b text) (λ _, b = true).
Proof. destruct b; intros env w Hw; (split; [done|]); done. Qed.
Lemma holds_obtain {A} (o : option A) e : holds I (obtain o e) (λ a, o = Some a).
Proof. destruct o; intros env w Hw; (split; [done|]); [by intros ? [= <-]|done]. Qed.
Lemma holds_outcome {A} (m : P S A) (Q : A → Prop) :
  holds I m Q → holds I (outcome m) (λ r, ∀ a, r = Ok a → Q a).
Proof.
  intros Hm env w Hw. unfold outcome. destruct (Hm env w Hw) as [H1 H2].
  destruct (m env w) as [r w1]. split; [done|]. by intros ? [= <-].
Qed.
Lemma holds_any {A} (m : P S A) (Q : A → Prop) : holds I m Q → holds I m (λ _, True).
Proof. intros Hm. by eapply holds_weaken. Qed.
End rules.

Create HintDb holds.
#[export] Hint Resolve holds_draw holds_look holds_raise holds_try holds_assert holds_obtain : holds.
(** One rule per form of computation; what is left are the updates and the facts. *)
Ltac hold :=
  repeat match goal with
  | |- holds _ ((match _ with _ => _ end) ≫= _) _ => eapply (holds_bind _ _ _ (λ _, True)); [|intros ? _]
  | |- holds _ (_ ≫= _) _ => eapply holds_bind; [|let H := fresh "H" in intros ? H; cbv beta in H]
  | |- holds _ (mret _) _ => apply holds_ret
  | |- holds _ (raise _) _ => apply holds_raise
  | |- holds _ (if ?b then _ else _) _ => destruct b eqn:?
  | |- holds _ (match ?x with _ => _ end) _ => destruct x eqn:?
  | |- holds _ (outcome _) _ => eapply holds_outcome
  | |- holds _ _ _ => first [solve [eauto with holds] | eapply holds_any; solve [eauto with holds]]
  end.
