(* ===== verification/Edge.v ===== *)
(** * The edge worker (crates/rampage-edge)

    The foreground contributor of a phone or tablet.  A native shell supplies telemetry at
    every pulse; a pulse delivers a receipt that is still owed, posts a short-lived offer, asks
    for work, executes what it is given once and delivers the receipt. *)

From S2P Require Import Prelude.
From S2P Require Import Codec.
From S2P Require Import Text.
From S2P Require Import Contracts.
From S2P Require Import Wire.
From S2P Require Import Signing.
From S2P Require Import Storage.
From S2P Require Import Worker.
From S2P Require Import Mesh.
From S2P Require Import Process.
Import Text.
#[local] Open Scope Z_scope.

Definition MINIMUM_BATTERY_PERCENT : Z := 40.
Definition MINIMUM_THERMAL_HEADROOM_PERCENT : Z := 35.
Definition OFFER_TTL_SECONDS : Z := 20.
Definition MAX_INVITATION_BYTES : Z := 256 * 1024.

Module EdgeTelemetry.
Record t := mk {
  platform : string; device_kind : string; foreground : bool; donation_requested : bool;
  battery_percent : Z; on_external_power : bool; low_power_mode : bool; thermal_headroom_percent : Z
}.
Definition is_handheld (self : t) : bool := (device_kind self == "phone") || (device_kind self == "tablet").
Definition is_mobile (self : t) : bool := (platform self == "android") || (platform self == "ios").

Definition eligible (self : t) : bool :=
  foreground self && donation_requested self && negb (low_power_mode self)
  && (on_external_power self || (MINIMUM_BATTERY_PERCENT <=? battery_percent self))
  && (MINIMUM_THERMAL_HEADROOM_PERCENT <=? thermal_headroom_percent self)
  && is_handheld self && is_mobile self.

Definition denial (self : t) : option string :=
  if negb (is_mobile self) then Some "unsupported mobile platform"
  else if negb (is_handheld self) then Some "native device class is not phone or tablet"
  else if negb (foreground self) || negb (donation_requested self) then Some "foreground donation is not active"
  else if low_power_mode self then Some "low-power mode is active"
  else if negb (on_external_power self) && (battery_percent self <? MINIMUM_BATTERY_PERCENT)
  then Some "battery reserve is below the owner floor"
  else if thermal_headroom_percent self <? MINIMUM_THERMAL_HEADROOM_PERCENT
  then Some "thermal headroom is below the owner floor"
  else None.
End EdgeTelemetry.

Module EdgeSessionSnapshot.
Record t := mk {
  node_id : Uuid; controller_endpoint_id : string; enrolled : bool; eligible : bool;
  offer_expires_at : option DateTime; receipts_submitted : Z; last_result : string
}.
End EdgeSessionSnapshot.

Module PersistentIdentityV1.
Record t := mk { schema : string; identity : NodeIdentityV1.t }.
Definition SCHEMA : string := "rampage.persistent-edge-identity.v1".
End PersistentIdentityV1.

(** The data directory: whether [KILL] exists, the other files by their contents, and the
    authority store. *)
Module Disk.
Section disk.
Record t := mk {
  killed : bool; edge_key : option string; authority_key : option string; pin_file : option string;
  identity_file : option string; outbox : option string; authority : CasStore.t
}.
Definition set_edge_key (x : option string) (s : t) : t :=
  mk (killed s) x (authority_key s) (pin_file s) (identity_file s) (outbox s) (authority s).
Definition set_authority_key (x : option string) (s : t) : t :=
  mk (killed s) (edge_key s) x (pin_file s) (identity_file s) (outbox s) (authority s).
Definition set_pin_file (x : option string) (s : t) : t :=
  mk (killed s) (edge_key s) (authority_key s) x (identity_file s) (outbox s) (authority s).
Definition set_identity_file (x : option string) (s : t) : t :=
  mk (killed s) (edge_key s) (authority_key s) (pin_file s) x (outbox s) (authority s).
Definition set_outbox (x : option string) (s : t) : t :=
  mk (killed s) (edge_key s) (authority_key s) (pin_file s) (identity_file s) x (authority s).
Definition set_authority (x : CasStore.t) (s : t) : t :=
  mk (killed s) (edge_key s) (authority_key s) (pin_file s) (identity_file s) (outbox s) x.
End disk.
End Disk.

Module EdgeWorker.
Section worker.
Context {crypto : Crypto}.
Record t := mk {
  signing_key : SigningKey; identity : NodeIdentityV1.t; destination : EndpointAddr;
  controller_endpoint_id : string; receipts_submitted : Z; offer_expires_at : option DateTime;
  last_result : string
}.
Definition set_receipts_submitted (x : Z) (s : t) : t :=
  mk (signing_key s) (identity s) (destination s) (controller_endpoint_id s) x (offer_expires_at s) (last_result s).
Definition set_offer_expires_at (x : option DateTime) (s : t) : t :=
  mk (signing_key s) (identity s) (destination s) (controller_endpoint_id s) (receipts_submitted s) x (last_result s).
Definition set_last_result (x : string) (s : t) : t :=
  mk (signing_key s) (identity s) (destination s) (controller_endpoint_id s) (receipts_submitted s) (offer_expires_at s) x.
End worker.
End EdgeWorker.

Module Edge.
Section edge.
Context {codec : Codec} {pretty : Pretty} {crypto : Crypto} {ser : Serializer} {vault : Vault}
        {display : Display} {render : Render} {iroh : Iroh} {wire_mesh : MeshWire}
        {wire_receipt : Wire ExecutionReceiptV1.t} {wire_offer : Wire ResourceOfferV1.t}
        {wire_enrollment : Wire EnrollmentRequestV1.t} {wire_claim : Wire WorkClaimV1.t}
        {wire_pin : Wire PinnedControllerV1.t} {wire_identity : Wire PersistentIdentityV1.t}
        {wire_invite : Wire EnrollmentInviteV1.t}.
(** [SigningKey::from_bytes] and the version of the crate. *)
Context (signing_key_of : string → SigningKey) (version : string).

(** ** Requests *)

Section requests.
Context {S : Type}.

Definition request (method path : string) (body : option Value) : P S MeshControlResponseV1.t :=
  request_id ← draw fresh;
  call CONTROL_REQUEST_DEADLINE false
    (MeshControlRequestV1.mk MeshControlRequestV1.SCHEMA request_id method path body).

Definition accepted (response : MeshControlResponseV1.t) : P S () :=
  if is_success (MeshControlResponseV1.status response) then mret ()
  else raise (Trouble.Rejected (MeshControlResponseV1.status response) (MeshControlResponseV1.body response)).

Definition post_json `{Wire A} (path : string) (value : A) : P S () :=
  response ← request "POST" path (Some (to_value value));
  accepted response.

Definition get_claim (path : string) : P S (option WorkClaimV1.t) :=
  response ← request "GET" path None;
  _ ← accepted response;
  obtain (optional_from_value (MeshControlResponseV1.body response)) Trouble.NotJson.
End requests.

(** ** Enrollment *)

Definition mesh_config (record : MeshEndpointRecordV1.t) : result Trouble.t MeshConfig.t :=
  mesh_config_for_controller record.
Definition validate_pin (pin : PinnedControllerV1.t) : result Trouble.t () := validate_controller_pin pin.

Definition parse_invitation (value : string) : result Trouble.t EnrollmentInviteV1.t :=
  _ ← ensure (len value <=? MAX_INVITATION_BYTES) (Trouble.Complaint "invitation exceeds 256 KiB");
  map_err (λ _, Trouble.NotJson) (decode_json value).

Definition edge_enrollment_code (value : string) : result Trouble.t (Uuid * string) :=
  '(invite_id, secret) ← ok_or (Trouble.Complaint "enrollment code has an invalid shape") (split_once "." value);
  _ ← ensure ((len secret =? 32) && all_bytes is_ascii_hexdigit secret)
        (Trouble.Complaint "enrollment secret must contain exactly 32 hexadecimal characters");
  id ← ok_or Trouble.NotUuid (uuid_parse invite_id);
  Ok (id, secret).

(** The readings of the clock: against the expiry of the invitation, and the two of the
    verification of the endpoint. *)
Definition validate_fresh_invitation (now now' now'' : DateTime) (invite : EnrollmentInviteV1.t)
    : result Trouble.t () :=
  _ ← ensure ((EnrollmentInviteV1.schema invite == "rampage.enrollment-invite.v1")
              && (now <? EnrollmentInviteV1.expires_at invite))
        (Trouble.Complaint "invitation is expired or has an unsupported schema");
  endpoint ← ok_or (Trouble.Complaint "invitation omitted its controller mesh endpoint")
               (EnrollmentInviteV1.controller_mesh invite);
  governor_key ← ok_or (Trouble.Complaint "invitation omitted its Governor public key")
                   (EnrollmentInviteV1.governor_public_key invite);
  _ ← map_err (λ _, Trouble.Complaint "invitation controller endpoint signature is invalid")
        (verify_mesh_endpoint_with_key now' now'' governor_key endpoint);
  '(code_id, secret) ← edge_enrollment_code (EnrollmentInviteV1.enrollment_code invite);
  ensure ((code_id == EnrollmentInviteV1.invite_id invite) && (32 <=? len secret))
    (Trouble.Complaint "enrollment code is malformed").

Definition edge_device_kind (value : string) : result Trouble.t DeviceKind.t :=
  if value == "phone" then Ok DeviceKind.Phone
  else if value == "tablet" then Ok DeviceKind.Tablet
  else Err (Trouble.Complaint "native device class must be phone or tablet").
Definition device_kind_label (value : DeviceKind.t) : string :=
  match value with DeviceKind.Phone => "phone" | DeviceKind.Tablet => "tablet" | _ => "unsupported" end.

Definition enroll {S} (worker : EdgeWorker.t) (invitation : EnrollmentInviteV1.t) : P S () :=
  '(invite_id, secret) ← try_ id (edge_enrollment_code (EnrollmentInviteV1.enrollment_code invitation));
  _ ← assert_ (invite_id == EnrollmentInviteV1.invite_id invitation) "invitation id and enrollment code differ";
  post_json "/v1/nodes/enroll"
    (sign_enrollment (EdgeWorker.signing_key worker)
       (EnrollmentRequestV1.mk "rampage.enrollment-request.v1" invite_id secret (EdgeWorker.identity worker) "")).

(** [load_or_create_secret] of a file of the data directory. *)
Definition load_or_create_secret (file : Disk.t → option string) (write : option string → Disk.t → Disk.t)
    : P Disk.t string :=
  existing ← look file;
  match existing with
  | Some text =>
      bytes ← obtain (hex_decode (trim text)) Trouble.NotHex;
      _ ← assert_ (len bytes =? 32) "edge secret must contain exactly 32 bytes";
      mret bytes
  | None =>
      bytes ← draw secret;
      _ ← change (write (Some (hex_encode bytes)));
      mret bytes
  end.
Definition read_optional_json `{Wire A} (file : Disk.t → option string) (max_bytes : Z) : P Disk.t (option A) :=
  existing ← look file;
  match existing with
  | None => mret None
  | Some bytes => value ← try_ id (read_json max_bytes bytes); mret (Some value)
  end.

(** The pin on record, or the one a fresh invitation carries. *)
Definition pin_of (existing : option PinnedControllerV1.t) (invitation : option EnrollmentInviteV1.t)
    : P Disk.t PinnedControllerV1.t :=
  match existing with
  | Some pin => _ ← try_ id (validate_pin pin); mret pin
  | None =>
      invite ← obtain invitation
                 (Trouble.Complaint "a fresh signed invitation is required for first enrollment");
      now ← draw clock; now' ← draw clock; now'' ← draw clock;
      _ ← try_ id (validate_fresh_invitation now now' now'' invite);
      endpoint ← obtain (EnrollmentInviteV1.controller_mesh invite) Trouble.Panic;
      governor_public_key ← obtain (EnrollmentInviteV1.governor_public_key invite) Trouble.Panic;
      enrolled_at ← draw clock;
      mret (PinnedControllerV1.mk PinnedControllerV1.SCHEMA endpoint governor_public_key enrolled_at)
  end.
(** The identity on record, which key, device class and platform must still match, or a new one. *)
Definition identity_of_device (existing : option PersistentIdentityV1.t) (key : SigningKey) (display_name : string)
    (device_kind : DeviceKind.t) (telemetry : EdgeTelemetry.t) : P Disk.t NodeIdentityV1.t :=
  let public_key := hex_encode (verifying_key key) in
  match existing with
  | Some persistent =>
      let identity := PersistentIdentityV1.identity persistent in
      _ ← assert_ (PersistentIdentityV1.schema persistent == PersistentIdentityV1.SCHEMA)
            "unsupported identity schema";
      _ ← assert_ (NodeIdentityV1.public_key identity == public_key) "edge identity key mismatch";
      _ ← assert_ (NodeIdentityV1.device_kind identity == device_kind)
            "native device class changed after enrollment";
      _ ← assert_ (NodeIdentityV1.platform identity == EdgeTelemetry.platform telemetry)
            "native platform changed after enrollment";
      mret identity
  | None =>
      node_id ← draw fresh; owner_id ← draw fresh; enrolled_at ← draw clock;
      mret (NodeIdentityV1.mk NodeIdentityV1.SCHEMA node_id owner_id display_name device_kind
              (EdgeTelemetry.platform telemetry) public_key enrolled_at 0)
  end.

Definition with_limits (limits : option StorageLimits.t) (s : CasStore.t) : CasStore.t :=
  CasStore.mk (CasStore.objects s) (CasStore.transfers s) (CasStore.artifacts s) (CasStore.authority_fences s)
    (CasStore.consumed_authority_nonces s) (CasStore.resumable_put_sessions s)
    (CasStore.resumable_put_chunks s) (CasStore.chunk_size s) limits.
Definition single_line (name : string) : bool :=
  negb (is_empty name) && (len name <=? 80) && negb (contains (String "013" "") name)
  && negb (contains (String "010" "") name).
Definition denied (telemetry : EdgeTelemetry.t) : string :=
  default "edge policy denied" (EdgeTelemetry.denial telemetry).

Definition open (invitation_json : option string) (display_name : string) (telemetry : EdgeTelemetry.t)
    : P Disk.t EdgeWorker.t :=
  _ ← assert_ (EdgeTelemetry.eligible telemetry) (denied telemetry);
  let display_name := trim display_name in
  _ ← assert_ (single_line display_name) "display name must contain 1 to 80 single-line characters";
  killed ← look Disk.killed;
  _ ← assert_ (negb killed) "local edge STOP latch is active";
  key_bytes ← load_or_create_secret Disk.edge_key Disk.set_edge_key;
  let signing_key := signing_key_of key_bytes in
  existing_pin ← read_optional_json Disk.pin_file (64 * 1024);
  existing_identity ← read_optional_json Disk.identity_file (64 * 1024);
  invitation ← match invitation_json with
               | None => mret None
               | Some text => invite ← try_ id (parse_invitation text); mret (Some invite)
               end;
  pin ← pin_of existing_pin invitation;
  device_kind ← try_ id (edge_device_kind (EdgeTelemetry.device_kind telemetry));
  identity ← identity_of_device existing_identity signing_key display_name device_kind telemetry;
  config ← try_ id (mesh_config (PinnedControllerV1.endpoint pin));
  _ ← try_ Trouble.MeshFailed (bind_endpoint config);
  destination ← try_ (λ e, Trouble.MeshFailed (Mesh e)) (endpoint_addr_from_pinned_record (PinnedControllerV1.endpoint pin));
  _ ← load_or_create_secret Disk.authority_key Disk.set_authority_key;
  _ ← change (λ d, Disk.set_authority (with_limits (Some (StorageLimits.mk 0 0 0)) (Disk.authority d)) d);
  let worker := EdgeWorker.mk signing_key identity destination
                  (MeshEndpointRecordV1.endpoint_id (PinnedControllerV1.endpoint pin)) 0 None "ready" in
  enrolled ← look (λ d, is_some (Disk.pin_file d) && is_some (Disk.identity_file d));
  _ ← (if (enrolled : bool) then mret ()
       else
         invite ← obtain invitation (Trouble.Complaint "first enrollment requires the invitation secret");
         _ ← enroll worker invite;
         _ ← change (Disk.set_pin_file (Some (pretty_json pin)));
         change (Disk.set_identity_file
                   (Some (pretty_json (PersistentIdentityV1.mk PersistentIdentityV1.SCHEMA identity)))));
  mret worker.

(** ** The offer *)

Definition edge_adapters : gset string := {["rampage.hash.v1"; "rampage.eval-shard.v1"]}.

(** [None] is the [unreachable!] of an adapter outside the set. *)
Definition edge_capability (adapter : string) : option WorkloadCapabilityV1.t :=
  '(domain, operation) ←
    (if adapter == "rampage.hash.v1" then Some (WorkloadDomain.DataProcessing, "hash")
     else if adapter == "rampage.eval-shard.v1" then Some (WorkloadDomain.AiEvaluation, "score")
     else None);
  Some (WorkloadCapabilityV1.mk WorkloadCapabilityV1.SCHEMA adapter domain {[operation]}
          {[ExecutionPattern.IndependentShard]} {[ResourceClass.CpuCompute]}
          WorkloadIsolation.AllowlistedInProcess ("shipped-edge:" +:+ version) false true false
          WorkloadCapabilityStatus.Shipped None).
Definition edge_capabilities (adapters : gset string) : option (list WorkloadCapabilityV1.t) :=
  mapM edge_capability (merge_sort String.le (elements adapters)).

Definition edge_labels (telemetry : EdgeTelemetry.t) : gmap string string :=
  {["device_kind" := EdgeTelemetry.device_kind telemetry; "platform" := EdgeTelemetry.platform telemetry;
    "edge_session" := "foreground"; "protected_storage" := "false"]}.

Definition make_offer {S} (worker : EdgeWorker.t) (telemetry : EdgeTelemetry.t) : P S ResourceOfferV1.t :=
  let key := EdgeWorker.signing_key worker in
  now ← draw clock;
  let expires_at := now + seconds OFFER_TTL_SECONDS in
  parallelism ← draw available_parallelism;
  let threads := default 1 parallelism in
  address ← draw address;
  let endpoint := sign_mesh_endpoint key
    (MeshEndpointRecordV1.mk MeshEndpointRecordV1.SCHEMA (address_id address) (ip_addrs address)
       (relay_addrs address) now expires_at "") in
  offer_id ← draw fresh;
  capabilities ← obtain (edge_capabilities edge_adapters) Trouble.Panic;
  mret (sign_offer key
    (ResourceOfferV1.mk "rampage.resource-offer.v1" offer_id (NodeIdentityV1.node_id (EdgeWorker.identity worker))
       now expires_at
       [ResourceQuantityV1.mk ResourceClass.CpuCompute threads (Z.max (sat_sub threads 1) 1) "logical_core"
          (edge_labels telemetry)]
       (AvailabilityV1.mk (EdgeTelemetry.on_external_power telemetry)
          (Some (EdgeTelemetry.battery_percent telemetry)) (EdgeTelemetry.thermal_headroom_percent telemetry)
          (EdgeTelemetry.foreground telemetry && EdgeTelemetry.donation_requested telemetry) true)
       edge_adapters capabilities [] None (Some endpoint) "")).

(** ** The pulse *)

Record Session := mkSession { disk : Disk.t; worker : EdgeWorker.t }.
Definition on_disk (f : Disk.t → Disk.t) : P Session () := change (λ s, mkSession (f (disk s)) (worker s)).
Definition on_worker (f : EdgeWorker.t → EdgeWorker.t) : P Session () :=
  change (λ s, mkSession (disk s) (f (worker s))).
Definition count_receipt : P Session () :=
  on_worker (λ w, EdgeWorker.set_receipts_submitted (sat_add (EdgeWorker.receipts_submitted w) 1) w).

Definition flush_receipt_outbox : P Session () :=
  outbox ← look (λ s, Disk.outbox (disk s));
  match outbox with
  | None => mret ()
  | Some bytes =>
      receipt ← try_ id (read_json (A := ExecutionReceiptV1.t) (1024 * 1024) bytes);
      _ ← post_json "/v1/receipts" receipt;
      _ ← on_disk (Disk.set_outbox None);
      count_receipt
  end.

Definition persist_and_submit_receipt (receipt : ExecutionReceiptV1.t) : P Session () :=
  _ ← on_disk (Disk.set_outbox (Some (pretty_json receipt)));
  _ ← post_json "/v1/receipts" receipt;
  on_disk (Disk.set_outbox None).

(** [execute_claim_with_store] on the authority store, which a failure leaves as it got. *)
Definition execute (claim : WorkClaimV1.t) : P Session ExecutionReceiptV1.t :=
  env ← draw execution;
  session ← look id;
  let '(r, store) :=
    Worker.execute_claim_with_store env claim (NodeIdentityV1.node_id (EdgeWorker.identity (worker session)))
      (CapabilityLeaseV1.fencing_epoch (WorkClaimV1.lease claim)) (EdgeWorker.signing_key (worker session))
      (Disk.authority (disk session)) in
  _ ← on_disk (Disk.set_authority store);
  try_ Trouble.Execution r.

Definition snapshot (w : EdgeWorker.t) (eligible : bool) : EdgeSessionSnapshot.t :=
  EdgeSessionSnapshot.mk (NodeIdentityV1.node_id (EdgeWorker.identity w)) (EdgeWorker.controller_endpoint_id w)
    true eligible (EdgeWorker.offer_expires_at w) (EdgeWorker.receipts_submitted w) (EdgeWorker.last_result w).

(** The pulse up to the answer to its request for work. *)
Definition prepare (telemetry : EdgeTelemetry.t) : P Session (option WorkClaimV1.t) :=
  killed ← look (λ s, Disk.killed (disk s));
  _ ← assert_ (negb killed) "local edge STOP latch is active";
  _ ← assert_ (EdgeTelemetry.eligible telemetry) (denied telemetry);
  self ← look worker;
  let identity := EdgeWorker.identity self in
  _ ← assert_ ((device_kind_label (NodeIdentityV1.device_kind identity) == EdgeTelemetry.device_kind telemetry)
               && (NodeIdentityV1.platform identity == EdgeTelemetry.platform telemetry))
        "native telemetry does not match the enrolled identity";
  _ ← flush_receipt_outbox;
  offer ← make_offer self telemetry;
  _ ← post_json "/v1/offers" offer;
  _ ← on_worker (EdgeWorker.set_offer_expires_at (Some (ResourceOfferV1.expires_at offer)));
  get_claim ("/v1/work/claim?node_id=" +:+ uuid_to_string (NodeIdentityV1.node_id identity)).

(** The rest of it. *)
Definition settle (claim : option WorkClaimV1.t) : P Session () :=
  match claim with
  | Some claim =>
      receipt ← execute claim;
      _ ← persist_and_submit_receipt receipt;
      _ ← count_receipt;
      on_worker (EdgeWorker.set_last_result
        ("receipt " +:+ uuid_to_string (ExecutionReceiptV1.receipt_id receipt) +:+ " submitted"))
  | None => on_worker (EdgeWorker.set_last_result "eligible; no admitted work waiting")
  end.

Definition pulse (telemetry : EdgeTelemetry.t) : P Session EdgeSessionSnapshot.t :=
  claim ← prepare telemetry;
  _ ← settle claim;
  self ← look worker;
  mret (snapshot self true).

(** A session of pulses; a pulse that fails leaves what it reached. *)
Fixpoint pulses (telemetries : list EdgeTelemetry.t) (env : Surroundings) (w : World Session) : World Session :=
  match telemetries with
  | [] => w
  | telemetry :: telemetries => pulses telemetries env (pulse telemetry env w).2
  end.
End edge.
End Edge.
