(* ===== verification/EdgeFacts.v ===== *)
(** * Facts about the edge worker

    What it offers passes the controller's checks and the Governor's mobile policy, it does
    nothing unless it may, and a receipt it owes is never lost. *)

From S2P Require Import Prelude.
From S2P Require Import Codec.
From S2P Require Import Text.
From S2P Require Import Contracts.
From S2P Require Import Wire.
From S2P Require Import Signing.
From S2P Require Import Storage.
From S2P Require Import Worker.
From S2P Require Import Mesh.
From S2P Require Import MeshFacts.
From S2P Require Import Process.
From S2P Require Import Edge.
Import Text Edge.
#[local] Open Scope Z_scope.

(** The telemetry is denied exactly when a reason is given. *)
Lemma eligible_iff_no_denial telemetry :
  EdgeTelemetry.eligible telemetry = true ↔ EdgeTelemetry.denial telemetry = None.
Proof.
  unfold EdgeTelemetry.eligible, EdgeTelemetry.denial. rewrite Z.leb_antisym, (Z.leb_antisym _ MINIMUM_THERMAL_HEADROOM_PERCENT).
  destruct (EdgeTelemetry.is_mobile telemetry), (EdgeTelemetry.is_handheld telemetry),
    (EdgeTelemetry.foreground telemetry), (EdgeTelemetry.donation_requested telemetry),
    (EdgeTelemetry.low_power_mode telemetry), (EdgeTelemetry.on_external_power telemetry),
    (EdgeTelemetry.battery_percent telemetry <? MINIMUM_BATTERY_PERCENT),
    (EdgeTelemetry.thermal_headroom_percent telemetry <? MINIMUM_THERMAL_HEADROOM_PERCENT); cbn; split; done.
Qed.

Section edge.
Context {codec : Codec} {pretty : Pretty} {crypto : Crypto} {ser : Serializer} {vault : Vault}
        {display : Display} {render : Render} {iroh : Iroh} {wire_mesh : MeshWire}
        {wire_receipt : Wire ExecutionReceiptV1.t} {wire_offer : Wire ResourceOfferV1.t}
        {wire_enrollment : Wire EnrollmentRequestV1.t} {wire_claim : Wire WorkClaimV1.t}.
Context (version : string).
Implicit Types (env : Surroundings) (telemetry : EdgeTelemetry.t).

(** ** What reaches the controller *)

(** The controller took a request: the call with that number of draw was answered with success. *)
Definition took env (n : nat) (request : MeshControlRequestV1.t) : Prop :=
  ∃ response,
    (control_request_with_policy CONTROL_REQUEST_DEADLINE (connected env n) (elapsed env n) (answered env n)
       request false).1 = Ok response ∧
    is_success (MeshControlResponseV1.status response) = true.
(** It took a receipt. *)
Definition took_receipt env (receipt : ExecutionReceiptV1.t) : Prop :=
  ∃ n request, took env n request ∧ MeshControlRequestV1.method request = "POST" ∧
    MeshControlRequestV1.path request = "/v1/receipts" ∧
    MeshControlRequestV1.body request = Some (to_value receipt).

Lemma quiet_accepted {S} response : quiet (S := S) (accepted response).
Proof. unfold accepted. quiet. Qed.
Lemma quiet_request {S} method path body : quiet (S := S) (request method path body).
Proof. unfold request. quiet. Qed.
#[local] Hint Resolve quiet_accepted quiet_request : quiet.
Lemma quiet_post {S} `{Wire A} path (value : A) : quiet (S := S) (post_json path value).
Proof. unfold post_json. quiet. Qed.
Lemma quiet_offer {S} worker telemetry : quiet (S := S) (make_offer version worker telemetry).
Proof. unfold make_offer. quiet. Qed.
Lemma quiet_claim {S} path : quiet (S := S) (get_claim path).
Proof. unfold get_claim. quiet. Qed.

Lemma post_ok {S} `{Wire A} path (value : A) env (w w' : World S) :
  post_json path value env w = (Ok (), w') →
  ∃ n request, took env n request ∧ MeshControlRequestV1.method request = "POST" ∧
    MeshControlRequestV1.path request = path ∧ MeshControlRequestV1.body request = Some (to_value value).
Proof.
  unfold post_json, request, accepted, call, draw, mbind, P_bind. cbn [draws sent state].
  set (q := MeshControlRequestV1.mk _ _ _ _ _).
  destruct (map_err _ _) as [response|] eqn:Hr; [|done]. apply map_err_ok in Hr.
  destruct (is_success _) eqn:Hs; [|done]. intros _.
  exists (Datatypes.S (draws w)), q. split; [|done]. by exists response.
Qed.

(** ** The receipt that is owed *)

Definition owed (w : World Session) : option string := Disk.outbox (disk (state w)).
Definition authority_of (w : World Session) : CasStore.t := Disk.authority (disk (state w)).

(** What may happen to it: it stays, or the controller took it. *)
Definition delivers env (w w' : World Session) : Prop :=
  authority_of w' = authority_of w ∧
  (owed w' = owed w ∨
   owed w' = None ∧ ∃ bytes receipt, owed w = Some bytes ∧
     read_json (A := ExecutionReceiptV1.t) (1024 * 1024) bytes = Ok receipt ∧ took_receipt env receipt).
#[local] Instance delivers_preorder env : PreOrder (delivers env).
Proof.
  split.
  - intros w. split; [done|by left].
  - intros w1 w2 w3 [Ha H] [Ha' H']. split; [congruence|].
    destruct H as [H|[Hn H]].
    + rewrite H in H'. destruct H' as [H'|H']; [left; congruence|by right].
    + right. split; [|done]. destruct H' as [H'|[H' _]]; congruence.
Qed.
Definition honest {A} (m : P Session A) : Prop := ∀ env w, delivers env w (m env w).2.
Lemma honest_bind {A B} (m : P Session A) (f : A → P Session B) : honest m → (∀ a, honest (f a)) → honest (m ≫= f).
Proof.
  intros Hm Hf env w. unfold mbind, P_bind. specialize (Hm env w).
  destruct (m env w) as [[a|e] w1]; [|done]. cbn in Hm. etrans; [exact Hm|]. apply Hf.
Qed.
Lemma honest_quiet {A} (m : P Session A) : quiet m → honest m.
Proof. intros Hm env w. unfold delivers, authority_of, owed. rewrite (Hm env w). split; [done|by left]. Qed.
Lemma honest_worker f : honest (on_worker f).
Proof. intros env w. split; [done|by left]. Qed.

Lemma honest_flush : honest flush_receipt_outbox.
Proof.
  intros env w. unfold flush_receipt_outbox. unfold mbind at 1, P_bind at 1. cbn [look].
  destruct (Disk.outbox (disk (state w))) as [bytes|] eqn:Ho; [|done].
  unfold mbind, P_bind, try_, mret, P_ret. destruct (read_json _ bytes) as [receipt|e] eqn:Hb; [|done].
  pose proof (quiet_post "/v1/receipts" receipt env w) as Hq.
  destruct (post_json "/v1/receipts" receipt env w) as [[[]|e] w1] eqn:Hp; cbn [snd] in Hq.
  - unfold delivers, authority_of, owed. cbn. rewrite Hq, Ho. split; [done|]. right. split; [done|].
    exists bytes, receipt. split_and!; [done..|]. by eapply post_ok.
  - unfold delivers, authority_of, owed. cbn. rewrite Hq. split; [done|by left].
Qed.
#[local] Hint Resolve quiet_offer quiet_claim quiet_post : quiet.
Lemma honest_prepare telemetry : honest (prepare version telemetry).
Proof.
  unfold prepare. repeat first
    [ apply honest_flush | apply honest_worker | apply honest_quiet; solve [eauto with quiet]
    | apply honest_bind; intros ].
Qed.

(** With the pulse prepared nothing is owed. *)
Lemma flush_clears env w w' : flush_receipt_outbox env w = (Ok (), w') → owed w' = None.
Proof.
  unfold flush_receipt_outbox. intros (o & w0 & [= <- <-] & H)%P_bind_ok. fold (owed w) in H.
  destruct (owed w) as [bytes|] eqn:Ho; [|by injection H as <-].
  apply P_bind_ok in H as (receipt & w1 & _ & H). apply P_bind_ok in H as (? & w2 & _ & H).
  apply P_bind_ok in H as (? & w3 & [= _ <-] & [= <-]). done.
Qed.
Lemma quiet_owed {A} (m : P Session A) env w r w' : quiet m → m env w = (r, w') → owed w' = owed w.
Proof. intros Hm H. unfold owed. specialize (Hm env w). rewrite H in Hm. cbn in Hm. by rewrite Hm. Qed.
Lemma prepare_clears telemetry env w claim w' :
  prepare version telemetry env w = (Ok claim, w') → owed w' = None.
Proof.
  unfold prepare. intros H. apply P_bind_ok in H as (? & ? & _ & H). do 2 apply P_bind_ok in H as (? & ? & _ & H).
  apply P_bind_ok in H as (? & ? & _ & H). apply P_bind_ok in H as (? & ? & _ & H).
  apply P_bind_ok in H as ([] & w1 & Hf%flush_clears & H). apply P_bind_ok in H as (? & w2 & Ho & H).
  apply P_bind_ok in H as (? & w3 & Hp & H). apply P_bind_ok in H as (? & w4 & [= _ <-] & Hc).
  apply quiet_owed in Ho, Hp, Hc; [|solve [eauto with quiet]..]. rewrite Hc. unfold owed in *. cbn. congruence.
Qed.

(** ** Receipts *)

(** The receipt of the claim a pulse executes, if it does. *)
Definition made telemetry env (w : World Session) : option ExecutionReceiptV1.t :=
  match prepare version telemetry env w with
  | (Ok (Some claim), w1) => match (execute claim env w1).1 with Ok receipt => Some receipt | Err _ => None end
  | _ => None
  end.
Fixpoint receipts (telemetries : list EdgeTelemetry.t) env (w : World Session) : list ExecutionReceiptV1.t :=
  match telemetries with
  | [] => []
  | telemetry :: telemetries =>
      option_list (made telemetry env w) ++ receipts telemetries env (pulse version telemetry env w).2
  end.

Lemma persist_spec receipt env w :
  let '(r, w') := persist_and_submit_receipt receipt env w in
  owed w' = Some (pretty_json receipt) ∨ owed w' = None ∧ took_receipt env receipt.
Proof.
  unfold persist_and_submit_receipt. unfold mbind at 1, P_bind at 1. unfold on_disk at 1, change at 1.
  set (w1 := mkWorld _ _ _). unfold mbind, P_bind. pose proof (quiet_post "/v1/receipts" receipt env w1) as Hq.
  destruct (post_json "/v1/receipts" receipt env w1) as [[[]|e] w2] eqn:Hp; cbn [snd] in Hq; cbn.
  - right. split; [done|]. by eapply post_ok.
  - left. unfold owed. by rewrite Hq.
Qed.

Lemma execute_owed claim env w : owed (execute claim env w).2 = owed w.
Proof.
  unfold execute, mbind, P_bind, draw, look. cbn.
  destruct (Worker.execute_claim_with_store _ _ _ _ _ _) as [[receipt|e] store]; done.
Qed.

Lemma pulse_world telemetry env w :
  (pulse version telemetry env w).2 =
    match prepare version telemetry env w with
    | (Ok claim, w1) => (settle claim env w1).2
    | (Err _, w1) => w1
    end.
Proof.
  unfold pulse, mbind, P_bind. destruct (prepare version telemetry env w) as [[claim|e] w1]; [|done].
  by destruct (settle claim env w1) as [[[]|e] w2].
Qed.

(** What a pulse leaves owed: what it found, or the receipt it made; otherwise the controller
    took them. *)
Lemma pulse_spec telemetry env w :
  let w' := (pulse version telemetry env w).2 in
  match made telemetry env w with
  | Some receipt => owed w' = Some (pretty_json receipt) ∨ owed w' = None ∧ took_receipt env receipt
  | None => owed w' = None ∨ owed w' = owed w
  end ∧
  (owed w' = owed w ∧ made telemetry env w = None ∨
   ∀ bytes, owed w = Some bytes → ∃ receipt,
     read_json (A := ExecutionReceiptV1.t) (1024 * 1024) bytes = Ok receipt ∧ took_receipt env receipt).
Proof.
  cbn zeta. rewrite pulse_world. unfold made.
  pose proof (honest_prepare telemetry env w) as [_ Hd].
  destruct (prepare version telemetry env w) as [[claim|e] w1] eqn:Hp; cbn [snd] in *.
  - apply prepare_clears in Hp as Hc.
    assert (∀ bytes, owed w = Some bytes → ∃ receipt,
      read_json (A := ExecutionReceiptV1.t) (1024 * 1024) bytes = Ok receipt ∧ took_receipt env receipt) as Htook.
    { intros bytes Hw. destruct Hd as [Hd|(_ & bytes' & receipt & Hb & Hr & Ht)]; [congruence|].
      exists receipt. split; [congruence|done]. }
    destruct claim as [claim|].
    + cbn [settle]. unfold mbind, P_bind. pose proof (execute_owed claim env w1) as Ho.
      destruct (execute claim env w1) as [[receipt|e] w2]; cbn [fst snd] in *.
      * pose proof (persist_spec receipt env w2) as Hps.
        destruct (persist_and_submit_receipt receipt env w2) as [[[]|e] w3]; cbn; (split; [exact Hps|by right]).
      * split; [left; congruence|by right].
    + cbn. split; [by left|by right].
  - split; [destruct Hd as [?|[? _]]; auto|]. destruct Hd as [?|(? & bytes & receipt & Hb & Hr & Ht)]; [by left|].
    right. intros bytes' Hb'. exists receipt. split; [congruence|done].
Qed.

Context {pretty_laws : PrettyLaws pretty}.

Lemma read_pretty (receipt receipt' : ExecutionReceiptV1.t) max :
  decode_json (encode_json receipt) = Ok receipt →
  read_json max (pretty_json receipt) = Ok receipt' → receipt' = receipt.
Proof.
  unfold read_json, pretty_json. intros Hl. destruct (_ <? _); [done|]. intros H%map_err_ok.
  unfold decode_json, encode_json in *. rewrite pretty_parses in H. congruence.
Qed.

(** [C24] No receipt is lost.  Over any session of pulses, whatever the telemetry and the
    network do, a receipt that an executed claim yields, or that is in the outbox at the start,
    has been taken by the controller or is still in the outbox at the end, if it is a receipt
    that comes back from its JSON text. *)
Theorem receipts_survive telemetries env w receipt :
  decode_json (encode_json receipt) = Ok receipt →
  receipt ∈ receipts telemetries env w ∨ owed w = Some (pretty_json receipt) →
  took_receipt env receipt ∨ owed (pulses version telemetries env w) = Some (pretty_json receipt).
Proof.
  intros Hjson. revert w. induction telemetries as [|telemetry telemetries IH]; intros w; cbn [receipts pulses].
  { intros [?%not_elem_of_nil|?]; [done|by right]. }
  pose proof (pulse_spec telemetry env w) as [Hmade Howed]. cbn zeta in *.
  intros [[Hm|Hr]%elem_of_app|Hw].
  - destruct (made telemetry env w) as [receipt'|]; [|by apply not_elem_of_nil in Hm].
    apply list_elem_of_singleton in Hm as <-.
    destruct Hmade as [Hmade|[_ Ht]]; [apply IH; by right|by left].
  - apply IH. by left.
  - destruct Howed as [[Hsame _]|Htaken].
    + apply IH. right. congruence.
    + destruct (Htaken _ Hw) as (receipt' & Hread & Ht). apply read_pretty in Hread as ->; [by left|done].
Qed.

(** A receipt that the controller refuses, as it refuses every receipt of an epoch before its
    last restart or STOP, blocks the worker: no pulse offers or asks for work again. *)
Lemma refused_receipt_blocks telemetries env w bytes :
  owed w = Some bytes →
  (∀ receipt, read_json (A := ExecutionReceiptV1.t) (1024 * 1024) bytes = Ok receipt → ¬ took_receipt env receipt) →
  owed (pulses version telemetries env w) = Some bytes ∧ receipts telemetries env w = [].
Proof.
  revert w. induction telemetries as [|telemetry telemetries IH]; intros w Hw Hno; cbn [receipts pulses]; [done|].
  destruct (pulse_spec telemetry env w) as [_ [[Hsame Hnone]|Htaken]].
  - rewrite Hnone. apply IH; [congruence|done].
  - destruct (Htaken _ Hw) as (receipt & Hr & Ht). by destruct (Hno receipt Hr).
Qed.
End edge.
