(* ===== verification/Discovery.v ===== *)
(** * What a machine offers (crates/rampage-agent/src/discovery.rs)

    The resources, model runtimes and workload capabilities of an agent's offer, computed from
    what the operating system, nvidia-smi and a local Ollama server report. *)

From stdpp Require Import pretty.
From S2P Require Import Prelude.
From S2P Require Import Codec.
From S2P Require Import Text.
From S2P Require Import Contracts.
From S2P Require Import Wire.
From S2P Require Import Float.
From S2P Require Import Scheduler.
From S2P Require Import Mesh.
Import Text.
#[local] Open Scope Z_scope.

Definition GIB : Z := 1024 * 1024 * 1024.
(** [u64] arithmetic of a release build. *)
Definition wrapping (x : Z) : Z := x mod (u64_max + 1).

Module DiscoverySnapshot.
Record t := mk {
  resources : list ResourceQuantityV1.t; on_ac_power : bool; battery_percent : option Z;
  thermal_headroom_percent : Z; owner_idle : bool
}.
End DiscoverySnapshot.

Module NvidiaGpu.
Record t := mk {
  name : string; uuid : string; memory_total_mib : Z; memory_free_mib : Z; utilization_percent : Z; temperature_c : Z
}.
End NvidiaGpu.

(** A disk, and whether the data directory is below its mount point. *)
Module Disk.
Record t := mk { mount_point : string; file_system : string; available_space : Z; holds_data : bool }.
End Disk.

(** What the operating system reports: sysinfo's processors, memory and load, the output of
    nvidia-smi if it ends in time, the disks, two variables of the environment and the power. *)
Module Machine.
Record t := mk {
  cpus : Z; total_memory : Z; available_memory : Z; load_below_20 : bool; nvidia_smi : option string;
  disks : list Disk.t; contribution_gb : option string; allow_protected : option string;
  power_status : bool * option Z
}.
End Machine.

(** ** Graphics processors *)

(** [str::lines]. *)
Definition strip_cr (line : string) : string :=
  match String.rev line with String "013" rest => String.rev rest | _ => line end.
Definition lines (s : string) : list string :=
  let segments := split (λ c, c == "010"%char) s in
  strip_cr <$> (if last segments == Some "" then removelast segments else segments).

Definition parse_gpu (line : string) : option NvidiaGpu.t :=
  match trim <$> split (λ c, c == ","%char) line with
  | [name; uuid; total; free; utilization; temperature] =>
      total ← parse_unsigned u64_max total; free ← parse_unsigned u64_max free;
      utilization ← parse_unsigned u64_max utilization; temperature ← parse_unsigned u64_max temperature;
      Some (NvidiaGpu.mk name uuid total free utilization temperature)
  | _ => None
  end.
Definition parse_nvidia_smi (output : string) : list NvidiaGpu.t := omap parse_gpu (lines output).
Definition discover_nvidia_gpus (m : Machine.t) : list NvidiaGpu.t :=
  match Machine.nvidia_smi m with Some output => parse_nvidia_smi output | None => [] end.

Definition thermal_headroom (gpus : list NvidiaGpu.t) : Z :=
  match Scheduler.max_by_key (λ t, [t]) (NvidiaGpu.temperature_c <$> gpus) with
  | Some temperature => Z.min (sat_mul (sat_sub 90 temperature) 2) 100
  | None => 70
  end.

Definition gpu_labels (gpus : list NvidiaGpu.t) (labels : gmap string string) : gmap string string :=
  <["gpu_count" := pretty (N.of_nat (length gpus))]>
  (<["gpu_uuids" := String.concat "," (NvidiaGpu.uuid <$> gpus)]>
  (<["gpu_models" := String.concat " | " (NvidiaGpu.name <$> gpus)]>
  (<["gpu_vendor" := "nvidia"]> labels))).
Definition gpu_resources (gpus : list NvidiaGpu.t) (labels : gmap string string) : list ResourceQuantityV1.t :=
  [ResourceQuantityV1.mk ResourceClass.GpuCompute (wrapping (zlen gpus * 100))
     (wrapping (zsum ((λ gpu, sat_sub 100 (Z.min (NvidiaGpu.utilization_percent gpu) 100)) <$> gpus)))
     "percent_device" labels;
   ResourceQuantityV1.mk ResourceClass.GpuMemory
     (wrapping (zsum (NvidiaGpu.memory_total_mib <$> gpus) * 1024 * 1024))
     (wrapping (zsum (NvidiaGpu.memory_free_mib <$> gpus) * 1024 * 1024)) "byte" labels].

(** ** Storage *)

Definition storage_resource (class : ResourceClass.t) (bytes : Z) (labels : gmap string string) : ResourceQuantityV1.t :=
  ResourceQuantityV1.mk class bytes bytes "byte" labels.
Definition selected_disk (disks : list Disk.t) : option Disk.t :=
  match Scheduler.max_by_key (λ disk, [len (Disk.mount_point disk)]) (List.filter Disk.holds_data disks) with
  | Some disk => Some disk
  | None => Scheduler.max_by_key (λ disk, [Disk.available_space disk]) disks
  end.
Definition is_true (value : option string) : bool := is_some_and (λ value, to_ascii_lowercase value == "true") value.
Definition storage_budget (m : Machine.t) (disk : Disk.t) : Z :=
  let configured_gib := Z.min (default 10 (Machine.contribution_gb m ≫= parse_unsigned u64_max)) 1024 in
  Z.min (Disk.available_space disk) (sat_mul configured_gib GIB).
(** The shares of the budget: cache, scratch and protected. *)
Definition storage_shares (protected : bool) (budget : Z) : Z * Z * Z :=
  if protected then (budget / 2, budget * 3 / 10, budget / 5) else (budget * 3 / 5, budget * 2 / 5, 0).
Definition discover_storage (m : Machine.t) (labels : gmap string string) : list ResourceQuantityV1.t :=
  match selected_disk (Machine.disks m) with
  | None => []
  | Some disk =>
      let budget := storage_budget m disk in
      if budget <? 512 * 1024 * 1024 then []
      else
        let labels := <["filesystem" := Disk.file_system disk]> (<["storage_root" := Disk.mount_point disk]> labels) in
        let '(cache, scratch, protected) := storage_shares (is_true (Machine.allow_protected m)) budget in
        [storage_resource ResourceClass.StorageCache cache labels;
         storage_resource ResourceClass.StorageScratch scratch labels]
        ++ (if 0 <? protected then [storage_resource ResourceClass.ProtectedStore protected labels] else [])
  end.

Definition discover (labels : gmap string string) (m : Machine.t) : DiscoverySnapshot.t :=
  let gpus := discover_nvidia_gpus m in
  let with_gpus := if no_elems gpus then labels else gpu_labels gpus labels in
  let resources :=
    [ResourceQuantityV1.mk ResourceClass.CpuCompute (Machine.cpus m) (Z.max (sat_sub (Machine.cpus m) 1) 1)
       "logical_core" labels;
     ResourceQuantityV1.mk ResourceClass.RamWorkingSet (Machine.total_memory m)
       (sat_mul (Machine.available_memory m) 8 / 10) "byte" labels;
     ResourceQuantityV1.mk ResourceClass.RamCache (Machine.available_memory m)
       (sat_mul (Machine.available_memory m) 6 / 10) "byte" labels]
    ++ (if no_elems gpus then [] else gpu_resources gpus with_gpus)
    ++ discover_storage m with_gpus in
  let '(on_ac_power, battery_percent) := Machine.power_status m in
  DiscoverySnapshot.mk resources on_ac_power battery_percent (thermal_headroom gpus) (Machine.load_below_20 m).

(** ** Models *)

Module OllamaTag.
Record t := mk { name : option string; model : option string; size : Z; digest : string }.
End OllamaTag.
Module OllamaTags.
Record t := mk { models : list OllamaTag.t }.
End OllamaTags.
Module ModelRuntimeManifestV1.
Record t := mk { schema : string; profiles : list ModelRuntimeOfferV1.t }.
End ModelRuntimeManifestV1.

(** What a local Ollama server and the environment answer: whether the list of models is
    served, its body, the JSON of the version, and the manifest of runtimes if one is named
    (and can be read). *)
Module Answers.
Record t := mk {
  available : bool; version : option Value; tags : option string; manifest : option (option string)
}.
End Answers.

Definition resource_bytes (resources : list ResourceQuantityV1.t) (class : ResourceClass.t) : Z :=
  default 0 (ResourceQuantityV1.available <$>
    List.find (λ resource, (ResourceQuantityV1.class resource == class) && (ResourceQuantityV1.unit resource == "byte"))
      resources).

Definition ollama_version (answers : Answers.t) : option string :=
  payload ← Answers.version answers; field_str "version" payload.

Section models.
Context {codec : Codec} {wire_tags : Wire OllamaTags.t} {wire_manifest : Wire ModelRuntimeManifestV1.t}.
(** [std::env::consts] and the version of the package. *)
Context (os arch version : string).

Definition model_name (candidate : OllamaTag.t) : option string :=
  match OllamaTag.model candidate with
  | Some model => if blank model then OllamaTag.name candidate else Some model
  | None => OllamaTag.name candidate
  end.
Definition is_cloud (model_id : string) : bool :=
  let normalized_id := to_ascii_lowercase (trim model_id) in
  ends_with ":cloud" normalized_id || ends_with "-cloud" normalized_id.
Definition artifact_digest_of (candidate : OllamaTag.t) : string :=
  let digest := to_ascii_lowercase (trim (OllamaTag.digest candidate)) in
  if starts_with "sha256:" digest then digest else "sha256:" +:+ digest.
Fixpoint parse_models (models : list InstalledModelV1.t) (names : gset string) (candidates : list OllamaTag.t)
    : result string (list InstalledModelV1.t) :=
  match candidates with
  | [] => Ok models
  | candidate :: candidates =>
      model_id ← ok_or "local Ollama model omitted its identifier" (model_name candidate);
      if is_cloud model_id then parse_models models names candidates
      else
        let model := InstalledModelV1.mk InstalledModelV1.SCHEMA model_id (artifact_digest_of candidate)
                       (OllamaTag.size candidate) in
        if negb (InstalledModelV1.is_valid model) || bool_decide (model_id ∈ names)
        then Err "local Ollama model list contains a malformed or duplicate entry"
        else parse_models (models ++ [model]) ({[model_id]} ∪ names) candidates
  end.
Definition model_le (a b : InstalledModelV1.t) : Prop := String.le (InstalledModelV1.model_id a) (InstalledModelV1.model_id b).
#[global] Instance model_le_dec : RelDecision model_le.
Proof. intros a b. unfold model_le. apply _. Defined.
Definition parse_ollama_models (payload : string) : result string (list InstalledModelV1.t) :=
  payload ← map_err (λ _, "local Ollama model list is invalid") (decode_json (A := OllamaTags.t) payload);
  if 128 <? zlen (OllamaTags.models payload)
  then Err "local Ollama model list exceeds the 128-model safety limit"
  else
    models ← parse_models [] ∅ (OllamaTags.models payload);
    Ok (merge_sort model_le models).
Definition discover_ollama_models (answers : Answers.t) : result string (list InstalledModelV1.t) :=
  payload ← ok_or "could not list local Ollama models" (Answers.tags answers);
  if 1024 * 1024 <? len payload then Err "local Ollama model list exceeds the one MiB safety limit"
  else parse_ollama_models payload.

(** ** Runtimes *)

Definition local_memory (resources : list ResourceQuantityV1.t) : ModelMemoryKind.t * Z :=
  let gpu_bytes := resource_bytes resources ResourceClass.GpuMemory in
  let ram_bytes := resource_bytes resources ResourceClass.RamWorkingSet in
  if (0 <? gpu_bytes) && (0 <? ram_bytes) then (ModelMemoryKind.Hybrid, sat_add gpu_bytes ram_bytes)
  else if 0 <? gpu_bytes then (ModelMemoryKind.DedicatedGpu, gpu_bytes)
  else (ModelMemoryKind.Host, ram_bytes).
Definition local_runtimes (resources : list ResourceQuantityV1.t) (answers : Answers.t)
    : result string (list ModelRuntimeOfferV1.t) :=
  let '(memory_kind, available_model_bytes) := local_memory resources in
  if negb (0 <? available_model_bytes) then Ok []
  else
    let runtime_version := default "detected-local" (ollama_version answers) in
    installed_models ← discover_ollama_models answers;
    Ok [ModelRuntimeOfferV1.mk ModelRuntimeOfferV1.SCHEMA "rampage.ollama.v1" ModelBackend.LocalOllama runtime_version
          ("shipped-local:" +:+ runtime_version)
          ("ollama-" +:+ os +:+ "-" +:+ arch +:+ "-" +:+ runtime_version) memory_kind available_model_bytes
          {[ModelParallelism.WholeModel; ModelParallelism.Replica]} ModelRuntimeStatus.ShippedLocal installed_models None].

Definition adapter_matches_backend (profile : ModelRuntimeOfferV1.t) : bool :=
  match ModelRuntimeOfferV1.backend profile with
  | ModelBackend.ExoMlx => ModelRuntimeOfferV1.adapter profile == "rampage.exo-mlx.v1"
  | ModelBackend.VllmRay => ModelRuntimeOfferV1.adapter profile == "rampage.vllm-ray.v1"
  | _ => false
  end.
Definition malformed_profile (profile : ModelRuntimeOfferV1.t) : bool :=
  (ModelRuntimeOfferV1.schema profile != ModelRuntimeOfferV1.SCHEMA)
  || blank (ModelRuntimeOfferV1.adapter profile)
  || blank (ModelRuntimeOfferV1.runtime_version profile)
  || blank (ModelRuntimeOfferV1.compatibility_key profile)
  || (ModelRuntimeOfferV1.available_model_bytes profile =? 0)
  || (ModelRuntimeOfferV1.status profile == ModelRuntimeStatus.ShippedLocal)
  || negb (adapter_matches_backend profile)
  || negb (no_elems (ModelRuntimeOfferV1.installed_models profile)).
Fixpoint check_profiles (identities : list (ModelBackend.t * string)) (profiles : list ModelRuntimeOfferV1.t)
    : result string () :=
  match profiles with
  | [] => Ok ()
  | profile :: profiles =>
      let identity := (ModelRuntimeOfferV1.backend profile, ModelRuntimeOfferV1.compatibility_key profile) in
      if malformed_profile profile then Err "model runtime manifest contains a malformed profile"
      else if bool_decide (identity ∈ identities)
      then Err "model runtime manifest contains a duplicate compatibility group"
      else if (ModelRuntimeOfferV1.status profile == ModelRuntimeStatus.Qualified)
              && negb (ModelRuntimeOfferV1.is_qualified_for_distributed profile)
      then Err "qualified model runtime profile lacks exact runtime/campaign digests or distributed parallelism"
      else check_profiles (identity :: identities) profiles
  end.
Definition manifest_runtimes (payload : option string) : result string (list ModelRuntimeOfferV1.t) :=
  payload ← ok_or "could not read model runtime manifest" payload;
  manifest ← map_err (λ _, "model runtime manifest is invalid") (decode_json (A := ModelRuntimeManifestV1.t) payload);
  if ModelRuntimeManifestV1.schema manifest != "rampage.model-runtime-manifest.v1"
  then Err "model runtime manifest has an unsupported schema"
  else if 16 <? zlen (ModelRuntimeManifestV1.profiles manifest)
  then Err "model runtime manifest exceeds the 16-profile limit"
  else
    _ ← check_profiles [] (ModelRuntimeManifestV1.profiles manifest);
    Ok (ModelRuntimeManifestV1.profiles manifest).
Definition discover_model_runtimes (resources : list ResourceQuantityV1.t) (has_ollama : bool) (answers : Answers.t)
    : result string (list ModelRuntimeOfferV1.t) :=
  profiles ← (if has_ollama then local_runtimes resources answers else Ok []);
  match Answers.manifest answers with
  | None => Ok profiles
  | Some payload => listed ← manifest_runtimes payload; Ok (profiles ++ listed)
  end.

(** ** Capabilities *)

Definition shipped_runtime : string := "shipped-agent:" +:+ version.
Definition capability (adapter : string) (domain : WorkloadDomain.t) (operations : gset string)
    (patterns : gset ExecutionPattern.t) (resources : gset ResourceClass.t) (isolation : WorkloadIsolation.t)
    (runtime_digest : string) (preemptible : bool) : WorkloadCapabilityV1.t :=
  WorkloadCapabilityV1.mk WorkloadCapabilityV1.SCHEMA adapter domain operations patterns resources isolation
    runtime_digest false preemptible false WorkloadCapabilityStatus.Shipped None.
Definition capability_of (model_runtimes : list ModelRuntimeOfferV1.t) (adapter : string)
    : option WorkloadCapabilityV1.t :=
  let whole_or_shard : gset ExecutionPattern.t := {[ExecutionPattern.WholeWorkload; ExecutionPattern.IndependentShard]} in
  let cpu : gset ResourceClass.t := {[ResourceClass.CpuCompute]} in
  if adapter == "rampage.echo.v1" then
    Some (capability adapter WorkloadDomain.EdgeUtility {["echo"]} {[ExecutionPattern.WholeWorkload]} cpu
            WorkloadIsolation.AllowlistedInProcess shipped_runtime true)
  else if adapter == "rampage.hash.v1" then
    Some (capability adapter WorkloadDomain.DataProcessing {["hash"]} whole_or_shard cpu
            WorkloadIsolation.AllowlistedInProcess shipped_runtime true)
  else if adapter == "rampage.eval-shard.v1" then
    Some (capability adapter WorkloadDomain.AiEvaluation {["score"]} {[ExecutionPattern.IndependentShard]} cpu
            WorkloadIsolation.AllowlistedInProcess shipped_runtime true)
  else if adapter == "rampage.benchmark.v1" then
    Some (capability adapter WorkloadDomain.DataProcessing {["sha256_chain"]} whole_or_shard cpu
            WorkloadIsolation.AllowlistedInProcess shipped_runtime true)
  else if adapter == "rampage.artifact-hash.v1" then
    Some (capability adapter WorkloadDomain.Storage {["hash_artifact"]} whole_or_shard
            {[ResourceClass.CpuCompute; ResourceClass.StorageCache]} WorkloadIsolation.AllowlistedInProcess
            shipped_runtime true)
  else if adapter == "rampage.remote-assist.v1" then
    Some (capability adapter WorkloadDomain.EdgeUtility {["view"; "control"]} {[ExecutionPattern.StreamingService]}
            {[ResourceClass.CpuCompute; ResourceClass.NetworkRelay]} WorkloadIsolation.DedicatedProcess
            shipped_runtime true)
  else if adapter == "rampage.ollama.v1" then
    runtime ← List.find (λ runtime, ModelRuntimeOfferV1.adapter runtime == adapter) model_runtimes;
    Some (capability adapter WorkloadDomain.AiInference {["generate"; "chat"]}
            {[ExecutionPattern.WholeWorkload; ExecutionPattern.Replica; ExecutionPattern.StreamingService]}
            {[ResourceClass.CpuCompute; ResourceClass.GpuCompute; ResourceClass.GpuMemory; ResourceClass.RamWorkingSet]}
            WorkloadIsolation.ExternalService (ModelRuntimeOfferV1.runtime_digest runtime) false)
  else None.
(** The adapters are a [BTreeSet], so their capabilities come sorted. *)
Definition discover_workload_capabilities (adapters : gset string) (model_runtimes : list ModelRuntimeOfferV1.t)
    : list WorkloadCapabilityV1.t :=
  omap (capability_of model_runtimes) (merge_sort String.le (elements adapters)).
End models.
