(* ===== verification/Agent.v ===== *)
(** * The agent process (crates/rampage-agent/src/main.rs)

    The worker as a process: its connection to the controller with the clock of the other side,
    the measurement of the link, and the loop that keeps an offer alive, claims work, executes
    it in a thread and delivers the receipts.  A thread is started with what it was given and
    runs to its end at the moment the loop finds it ended. *)

From S2P Require Import Prelude.
From S2P Require Import Codec.
From S2P Require Import Text.
From S2P Require Import Contracts.
From S2P Require Import Wire.
From S2P Require Import Signing.
From S2P Require Import Storage.
From S2P Require Import Worker.
From S2P Require Import RemoteAssist.
From S2P Require Import Net.
From S2P Require Import Mesh.
From S2P Require Import Process.
From S2P Require Import Discovery.
Import Text.
#[local] Open Scope Z_scope.

Definition OFFER_LIFETIME : Z := seconds 45.
Definition OFFER_HEARTBEAT_INTERVAL : Z := seconds 5.
Definition CAPABILITY_REFRESH_INTERVAL : Z := seconds 30.
Definition LINK_PROBE_REQUEST_DEADLINE : Z := seconds 2.
Definition WORK_CONTROL_REQUEST_DEADLINE : Z := seconds 2.
Definition MAX_TRUSTED_CLOCK_OFFSET_SECONDS : Z := 24 * 60 * 60.

(** ** Routes *)

Record LocalIpv4Network := mkNetwork { network_ip : Z; netmask : Z }.
(** An address of an interface: up, loopback, point to point, link local, and its IPv4 address
    and mask. *)
Record Interface := mkInterface {
  oper_up : bool; loopback : bool; p2p : bool; link_local : bool; v4 : option (Z * Z)
}.
Definition active_ipv4_networks (interfaces : list Interface) : list LocalIpv4Network :=
  omap (λ interface,
      if oper_up interface && negb (loopback interface) && negb (p2p interface) && negb (link_local interface)
      then
        '(address, mask) ← v4 interface;
        if (address != 0) && (mask != 0) then Some (mkNetwork address mask) else None
      else None) interfaces.

Definition ipv4_is_same_subnet (local remote mask : Z) : bool :=
  if mask =? 0 then false else Z.land local mask =? Z.land remote mask.

Definition on_local_network (networks : list LocalIpv4Network) (address : TransportAddr) : bool :=
  match address with
  | Ip socket =>
      match ip socket with
      | V4 a b c d =>
          existsb (λ local, ipv4_is_same_subnet (network_ip local) (Ipv4Addr.to_bits a b c d) (netmask local)) networks
      | V6 _ => false
      end
  | Relay _ => false
  end.
Definition is_relay (address : TransportAddr) : bool := match address with Relay _ => true | Ip _ => false end.
Definition select_controller_destination_for (aggregate : EndpointAddr) (candidates : list EndpointAddr)
    (networks : list LocalIpv4Network) : EndpointAddr :=
  match List.find (λ candidate, existsb (on_local_network networks) (addrs candidate)) candidates with
  | None => aggregate
  | Some preferred => mkAddr (addr_id preferred) (addrs preferred ++ List.filter is_relay (addrs aggregate))
  end.
Definition select_controller_destination (interfaces : list Interface) (aggregate : EndpointAddr)
    (candidates : list EndpointAddr) : EndpointAddr :=
  select_controller_destination_for aggregate candidates (active_ipv4_networks interfaces).

(** ** The clock of the controller *)

(** The longest [chrono::Duration]. *)
Definition MAX_DURATION : Z := i64_max * 1000000.
Definition estimated_controller_clock_offset (local_sent_at : DateTime) (round_trip : Z) (controller_time : DateTime)
    : option Z :=
  if MAX_DURATION <? round_trip / 2 then None
  else Some (controller_time - (local_sent_at + round_trip / 2)).
Definition trusted_offset (offset : Z) : bool :=
  Z.abs (Z.quot offset (seconds 1)) <=? MAX_TRUSTED_CLOCK_OFFSET_SECONDS.

(** ** The link *)

Definition effective_bps (bytes elapsed_micros rtt_micros : Z) : Z :=
  let transfer_micros := Z.max (sat_sub elapsed_micros rtt_micros) 1000 in
  Z.max (sat_mul (sat_mul bytes 8) 1000000 / transfer_micros) 1.

(** The addresses of the controller that iroh knows, and whether each is in use. *)
Fixpoint observed_path (relay_active : bool) (known : list (bool * TransportAddr)) : option ObservedLinkPathV1.t :=
  match known with
  | [] => if relay_active then Some ObservedLinkPathV1.OwnerRelay else None
  | (false, _) :: known => observed_path relay_active known
  | (true, Ip _) :: known => Some ObservedLinkPathV1.Direct
  | (true, Relay _) :: known => observed_path true known
  end.
Definition observed_link_path (info : option (list (bool * TransportAddr))) : option ObservedLinkPathV1.t :=
  known ← info; observed_path false known.

Section responses.
Context {codec : Codec} {crypto : Crypto} {render : Render} {base64 : Base64}.

Definition response_controller_time (body : Value) : option DateTime :=
  value ← match field "controller_time" body with Some v => Some v | None => field "generated_at" body end;
  text ← as_str value;
  parse_rfc3339 text.

Definition validate_probe_response (response : MeshControlResponseV1.t) (node_id nonce : Uuid)
    (expected_upload_bytes : Z) (expected_upload_digest : string) (expected_download_bytes : Z)
    : result Trouble.t () :=
  let body := MeshControlResponseV1.body response in
  _ ← ensure (MeshControlResponseV1.status response =? 200) (Trouble.Complaint "link probe was rejected");
  _ ← ensure ((field_str "schema" body == Some "rampage.link-probe-response.v1")
              && (field_str "node_id" body == Some (uuid_to_string node_id))
              && (field_str "nonce" body == Some (uuid_to_string nonce))
              && ((field "upload_bytes" body ≫= as_u64) == Some expected_upload_bytes)
              && (field_str "upload_sha256" body == Some expected_upload_digest))
        (Trouble.Complaint "link probe response did not match its request");
  encoded ← ok_or (Trouble.Complaint "link probe response omitted download payload") (field_str "download_base64" body);
  downloaded ← ok_or (Trouble.Complaint "invalid base64") (base64_decode encoded);
  ensure ((len downloaded =? expected_download_bytes)
          && (field_str "download_sha256" body == Some (hex_encode (sha256 downloaded))))
    (Trouble.Complaint "link probe download payload failed integrity validation").
End responses.

(** ** The process *)

Module ControllerTransport.
Inductive t := Http | Mesh (controller_endpoint_id : string).
End ControllerTransport.

(** The state of the loop: the offer, the claim, offer and time its three threads were started
    with, its flags and timers, the outbox, the store, the offset of the controller's clock and
    the file that marks Remote Assist as active. *)
Module Agent.
Record t := mk {
  offer : ResourceOfferV1.t;
  executing : option WorkClaimV1.t;
  work_in_flight : bool;
  refreshing : option ResourceOfferV1.t;
  capability_refresh_in_flight : bool;
  probing : option DateTime;
  link_probe_in_flight : bool;
  ready_announced : bool;
  reconnect_delay : Z;
  next_offer_at : Z;
  next_work_poll_at : Z;
  next_link_probe_at : Z;
  next_capability_refresh_at : Z;
  outbox : option string;
  store : CasStore.t;
  controller_clock_offset : Z;
  active : RemoteAssist.path
}.
Definition set_offer (x : ResourceOfferV1.t) (s : t) : t :=
  mk x (executing s) (work_in_flight s) (refreshing s) (capability_refresh_in_flight s) (probing s)
    (link_probe_in_flight s) (ready_announced s) (reconnect_delay s) (next_offer_at s) (next_work_poll_at s)
    (next_link_probe_at s) (next_capability_refresh_at s) (outbox s) (store s) (controller_clock_offset s) (active
    s).
Definition set_executing (x : option WorkClaimV1.t) (s : t) : t :=
  mk (offer s) x (work_in_flight s) (refreshing s) (capability_refresh_in_flight s) (probing s)
    (link_probe_in_flight s) (ready_announced s) (reconnect_delay s) (next_offer_at s) (next_work_poll_at s)
    (next_link_probe_at s) (next_capability_refresh_at s) (outbox s) (store s) (controller_clock_offset s) (active
    s).
Definition set_work_in_flight (x : bool) (s : t) : t :=
  mk (offer s) (executing s) x (refreshing s) (capability_refresh_in_flight s) (probing s) (link_probe_in_flight s)
    (ready_announced s) (reconnect_delay s) (next_offer_at s) (next_work_poll_at s) (next_link_probe_at s)
    (next_capability_refresh_at s) (outbox s) (store s) (controller_clock_offset s) (active s).
Definition set_refreshing (x : option ResourceOfferV1.t) (s : t) : t :=
  mk (offer s) (executing s) (work_in_flight s) x (capability_refresh_in_flight s) (probing s)
    (link_probe_in_flight s) (ready_announced s) (reconnect_delay s) (next_offer_at s) (next_work_poll_at s)
    (next_link_probe_at s) (next_capability_refresh_at s) (outbox s) (store s) (controller_clock_offset s) (active
    s).
Definition set_capability_refresh_in_flight (x : bool) (s : t) : t :=
  mk (offer s) (executing s) (work_in_flight s) (refreshing s) x (probing s) (link_probe_in_flight s)
    (ready_announced s) (reconnect_delay s) (next_offer_at s) (next_work_poll_at s) (next_link_probe_at s)
    (next_capability_refresh_at s) (outbox s) (store s) (controller_clock_offset s) (active s).
Definition set_probing (x : option DateTime) (s : t) : t :=
  mk (offer s) (executing s) (work_in_flight s) (refreshing s) (capability_refresh_in_flight s) x
    (link_probe_in_flight s) (ready_announced s) (reconnect_delay s) (next_offer_at s) (next_work_poll_at s)
    (next_link_probe_at s) (next_capability_refresh_at s) (outbox s) (store s) (controller_clock_offset s) (active
    s).
Definition set_link_probe_in_flight (x : bool) (s : t) : t :=
  mk (offer s) (executing s) (work_in_flight s) (refreshing s) (capability_refresh_in_flight s) (probing s) x
    (ready_announced s) (reconnect_delay s) (next_offer_at s) (next_work_poll_at s) (next_link_probe_at s)
    (next_capability_refresh_at s) (outbox s) (store s) (controller_clock_offset s) (active s).
Definition set_ready_announced (x : bool) (s : t) : t :=
  mk (offer s) (executing s) (work_in_flight s) (refreshing s) (capability_refresh_in_flight s) (probing s)
    (link_probe_in_flight s) x (reconnect_delay s) (next_offer_at s) (next_work_poll_at s) (next_link_probe_at s)
    (next_capability_refresh_at s) (outbox s) (store s) (controller_clock_offset s) (active s).
Definition set_reconnect_delay (x : Z) (s : t) : t :=
  mk (offer s) (executing s) (work_in_flight s) (refreshing s) (capability_refresh_in_flight s) (probing s)
    (link_probe_in_flight s) (ready_announced s) x (next_offer_at s) (next_work_poll_at s) (next_link_probe_at s)
    (next_capability_refresh_at s) (outbox s) (store s) (controller_clock_offset s) (active s).
Definition set_next_offer_at (x : Z) (s : t) : t :=
  mk (offer s) (executing s) (work_in_flight s) (refreshing s) (capability_refresh_in_flight s) (probing s)
    (link_probe_in_flight s) (ready_announced s) (reconnect_delay s) x (next_work_poll_at s) (next_link_probe_at s)
    (next_capability_refresh_at s) (outbox s) (store s) (controller_clock_offset s) (active s).
Definition set_next_work_poll_at (x : Z) (s : t) : t :=
  mk (offer s) (executing s) (work_in_flight s) (refreshing s) (capability_refresh_in_flight s) (probing s)
    (link_probe_in_flight s) (ready_announced s) (reconnect_delay s) (next_offer_at s) x (next_link_probe_at s)
    (next_capability_refresh_at s) (outbox s) (store s) (controller_clock_offset s) (active s).
Definition set_next_link_probe_at (x : Z) (s : t) : t :=
  mk (offer s) (executing s) (work_in_flight s) (refreshing s) (capability_refresh_in_flight s) (probing s)
    (link_probe_in_flight s) (ready_announced s) (reconnect_delay s) (next_offer_at s) (next_work_poll_at s) x
    (next_capability_refresh_at s) (outbox s) (store s) (controller_clock_offset s) (active s).
Definition set_next_capability_refresh_at (x : Z) (s : t) : t :=
  mk (offer s) (executing s) (work_in_flight s) (refreshing s) (capability_refresh_in_flight s) (probing s)
    (link_probe_in_flight s) (ready_announced s) (reconnect_delay s) (next_offer_at s) (next_work_poll_at s)
    (next_link_probe_at s) x (outbox s) (store s) (controller_clock_offset s) (active s).
Definition set_outbox (x : option string) (s : t) : t :=
  mk (offer s) (executing s) (work_in_flight s) (refreshing s) (capability_refresh_in_flight s) (probing s)
    (link_probe_in_flight s) (ready_announced s) (reconnect_delay s) (next_offer_at s) (next_work_poll_at s)
    (next_link_probe_at s) (next_capability_refresh_at s) x (store s) (controller_clock_offset s) (active s).
Definition set_store (x : CasStore.t) (s : t) : t :=
  mk (offer s) (executing s) (work_in_flight s) (refreshing s) (capability_refresh_in_flight s) (probing s)
    (link_probe_in_flight s) (ready_announced s) (reconnect_delay s) (next_offer_at s) (next_work_poll_at s)
    (next_link_probe_at s) (next_capability_refresh_at s) (outbox s) x (controller_clock_offset s) (active s).
Definition set_controller_clock_offset (x : Z) (s : t) : t :=
  mk (offer s) (executing s) (work_in_flight s) (refreshing s) (capability_refresh_in_flight s) (probing s)
    (link_probe_in_flight s) (ready_announced s) (reconnect_delay s) (next_offer_at s) (next_work_poll_at s)
    (next_link_probe_at s) (next_capability_refresh_at s) (outbox s) (store s) x (active s).
Definition set_active (x : RemoteAssist.path) (s : t) : t :=
  mk (offer s) (executing s) (work_in_flight s) (refreshing s) (capability_refresh_in_flight s) (probing s)
    (link_probe_in_flight s) (ready_announced s) (reconnect_delay s) (next_offer_at s) (next_work_poll_at s)
    (next_link_probe_at s) (next_capability_refresh_at s) (outbox s) (store s) (controller_clock_offset s) x.
End Agent.

(** A state that keeps the offset of the controller's clock, as [MeshController] does. *)
Class Clocked (S : Type) := { clock_offset : S → Z; set_clock_offset : Z → S → S }.
#[global] Instance agent_clocked : Clocked Agent.t :=
  {| clock_offset := Agent.controller_clock_offset; set_clock_offset := Agent.set_controller_clock_offset |}.

Definition on (f : Agent.t → Agent.t) : P Agent.t () := change f.
(** [Instant::now() + d]. *)
Definition instant_after {S} (d : Z) : P S Z := at_ ← draw instant; mret (at_ + d).
Definition now_is_past {S} (deadline : Z) : P S bool := at_ ← draw instant; mret (deadline <=? at_).

Section agent.
Context {codec : Codec} {pretty : Pretty} {crypto : Crypto} {ser : Serializer} {vault : Vault}
        {display : Display} {render : Render} {base64 : Base64} {wire_mesh : MeshWire}
        {wire_receipt : Wire ExecutionReceiptV1.t} {wire_offer : Wire ResourceOfferV1.t}
        {wire_claim : Wire WorkClaimV1.t} {wire_enrollment : Wire EnrollmentRequestV1.t}
        {wire_tags : Wire OllamaTags.t} {wire_manifest : Wire ModelRuntimeManifestV1.t}.
(** The platform and version of the build; what the local services answer and what iroh knows
    of the controller, by the number of the draw. *)
Context (os arch version : string) (reports : nat → Answers.t)
        (remote_info : nat → option (list (bool * TransportAddr))).
(** The key and the node of the process, and how it reaches the controller. *)
Context (signing_key : SigningKey) (node_id : Uuid) (transport : ControllerTransport.t).

(** ** Requests *)

Section requests.
Context {S : Type} `{Clocked S}.

Definition observe_controller_time (local_sent_at : DateTime) (started : Z) (body : Value) : P S () :=
  match response_controller_time body with
  | None => mret ()
  | Some controller_time =>
      finished ← draw instant;
      match estimated_controller_clock_offset local_sent_at (sat_sub finished started) controller_time with
      | Some offset => if trusted_offset offset then change (set_clock_offset offset) else mret ()
      | None => mret ()
      end
  end.
Definition request_with_policy (method path : string) (body : option Value) (deadline : Z) (one_shot : bool)
    : P S MeshControlResponseV1.t :=
  request_id ← draw fresh;
  local_sent_at ← draw clock;
  started ← draw instant;
  response ← call deadline one_shot (MeshControlRequestV1.mk MeshControlRequestV1.SCHEMA request_id method path body);
  _ ← observe_controller_time local_sent_at started (MeshControlResponseV1.body response);
  mret response.
Definition request_with_deadline method path body deadline : P S MeshControlResponseV1.t :=
  request_with_policy method path body deadline false.
Definition request_one_shot_with_deadline method path body deadline : P S MeshControlResponseV1.t :=
  request_with_policy method path body deadline true.
Definition request method path body : P S MeshControlResponseV1.t :=
  request_with_deadline method path body CONTROL_REQUEST_DEADLINE.

Definition controller_now : P S DateTime :=
  now ← draw clock;
  match transport with
  | ControllerTransport.Http => mret now
  | ControllerTransport.Mesh _ => offset ← look clock_offset; mret (now + offset)
  end.

Definition ensure_success (response : MeshControlResponseV1.t) : P S () :=
  if is_success (MeshControlResponseV1.status response) then mret ()
  else raise (Trouble.Rejected (MeshControlResponseV1.status response) (MeshControlResponseV1.body response)).
Definition post_json_with_deadline `{Wire A} (path : string) (body : A) (deadline : Z) : P S () :=
  match transport with
  | ControllerTransport.Http =>
      answer ← draw http;
      '(status, text) ← obtain answer Trouble.HttpFailed;
      if is_success status then mret () else raise (Trouble.Rejected status (VString text))
  | ControllerTransport.Mesh _ =>
      response ← request_with_deadline "POST" path (Some (to_value body)) deadline;
      ensure_success response
  end.
Definition post_json `{Wire A} (path : string) (body : A) : P S () :=
  post_json_with_deadline path body CONTROL_REQUEST_DEADLINE.
Definition post_json_one_shot `{Wire A} (path : string) (body : A) : P S () :=
  match transport with
  | ControllerTransport.Http => post_json path body
  | ControllerTransport.Mesh _ =>
      response ← request_one_shot_with_deadline "POST" path (Some (to_value body)) CONTROL_REQUEST_DEADLINE;
      ensure_success response
  end.
(** [get_json::<Option<WorkClaimV1>>], the one type it is used at. *)
Definition get_claim_with_deadline (path : string) (deadline : Z) : P S (option WorkClaimV1.t) :=
  match transport with
  | ControllerTransport.Http =>
      answer ← draw http;
      '(status, text) ← obtain answer Trouble.HttpFailed;
      _ ← (if in_range 400 599 status then raise (Trouble.Rejected status (VString text)) else mret ());
      value ← obtain (json_from_str text) Trouble.NotJson;
      obtain (optional_from_value value) Trouble.NotJson
  | ControllerTransport.Mesh _ =>
      response ← request_with_deadline "GET" path None deadline;
      _ ← ensure_success response;
      obtain (optional_from_value (MeshControlResponseV1.body response)) Trouble.NotJson
  end.
Definition get_claim (path : string) : P S (option WorkClaimV1.t) :=
  get_claim_with_deadline path CONTROL_REQUEST_DEADLINE.

Definition signed_worker_endpoint (issued_at expires_at : DateTime) : P S (option MeshEndpointRecordV1.t) :=
  match transport with
  | ControllerTransport.Http => mret None
  | ControllerTransport.Mesh _ =>
      address ← draw address;
      mret (Some (sign_mesh_endpoint signing_key
        (MeshEndpointRecordV1.mk MeshEndpointRecordV1.SCHEMA (address_id address) (ip_addrs address)
           (relay_addrs address) issued_at expires_at "")))
  end.
End requests.

(** ** Measuring the link *)

Definition micros_since (started : Z) : P Agent.t Z := finished ← draw instant; mret (sat_sub finished started / 1000).
Definition rtt_sample : P Agent.t Z :=
  started ← draw instant;
  response ← request_with_deadline "GET" "/health" None LINK_PROBE_REQUEST_DEADLINE;
  _ ← assert_ (MeshControlResponseV1.status response =? 200) "controller health probe was rejected";
  micros_since started.
(** One transfer: the time it took, once the answer is validated. *)
Definition probe_transfer (upload upload_base64 : string) (download_bytes : Z) : P Agent.t Z :=
  nonce ← draw fresh;
  started ← draw instant;
  response ← request_with_deadline "POST" "/v1/benchmarks/link"
    (Some (VObject [("download_bytes", VInt download_bytes); ("node_id", VString (uuid_to_string node_id));
                    ("nonce", VString (uuid_to_string nonce)); ("upload_base64", VString upload_base64)]))
    LINK_PROBE_REQUEST_DEADLINE;
  elapsed ← micros_since started;
  _ ← try_ id (validate_probe_response response node_id nonce (len upload) (hex_encode (sha256 upload)) download_bytes);
  mret elapsed.
Definition probe : string :=
  String.string_of_list_ascii (replicate (Z.to_nat LINK_BENCHMARK_TRANSFER_BYTES) (ascii_of_N 60)).
Definition median3 (a b c : Z) : Z := nth 1 (merge_sort Z.le [a; b; c]) 0.
Definition measure_link (observed_at : DateTime) : P Agent.t (option LinkBenchmarkV1.t) :=
  match transport with
  | ControllerTransport.Http => mret None
  | ControllerTransport.Mesh controller_endpoint_id =>
      a ← rtt_sample; b ← rtt_sample; c ← rtt_sample;
      let rtt_micros_p50 := Z.max (median3 a b c) 1 in
      upload_elapsed ← probe_transfer probe (base64_encode probe) 0;
      download_elapsed ← probe_transfer "" "" LINK_BENCHMARK_TRANSFER_BYTES;
      info ← draw (λ _, remote_info);
      mret (Some (LinkBenchmarkV1.mk LinkBenchmarkV1.SCHEMA controller_endpoint_id observed_at
        (observed_at + minutes 2) rtt_micros_p50
        (effective_bps LINK_BENCHMARK_TRANSFER_BYTES upload_elapsed rtt_micros_p50)
        (effective_bps LINK_BENCHMARK_TRANSFER_BYTES download_elapsed rtt_micros_p50)
        LINK_BENCHMARK_TRANSFER_BYTES 3 "authenticated_quic" (observed_link_path info)))
  end.
Definition link_probe_due (ready_announced : bool) (now next_probe_at : Z) (benchmark_expires_at : option DateTime)
    (offer_expires_at : DateTime) : bool :=
  ready_announced && (next_probe_at <=? now)
  && is_none_or (λ expires_at, expires_at <? offer_expires_at) benchmark_expires_at.

(** ** The offer *)

Definition with_capabilities (adapters : gset string) (model_runtimes : list ModelRuntimeOfferV1.t)
    (workload_capabilities : list WorkloadCapabilityV1.t) (o : ResourceOfferV1.t) : ResourceOfferV1.t :=
  ResourceOfferV1.mk (ResourceOfferV1.schema o) (ResourceOfferV1.offer_id o) (ResourceOfferV1.node_id o)
    (ResourceOfferV1.observed_at o) (ResourceOfferV1.expires_at o) (ResourceOfferV1.resources o)
    (ResourceOfferV1.availability o) adapters workload_capabilities model_runtimes (ResourceOfferV1.link_benchmark o)
    (ResourceOfferV1.mesh_endpoint o) (ResourceOfferV1.signature o).
Definition with_link_benchmark (benchmark : option LinkBenchmarkV1.t) (o : ResourceOfferV1.t) : ResourceOfferV1.t :=
  ResourceOfferV1.mk (ResourceOfferV1.schema o) (ResourceOfferV1.offer_id o) (ResourceOfferV1.node_id o)
    (ResourceOfferV1.observed_at o) (ResourceOfferV1.expires_at o) (ResourceOfferV1.resources o)
    (ResourceOfferV1.availability o) (ResourceOfferV1.adapters o) (ResourceOfferV1.workload_capabilities o)
    (ResourceOfferV1.model_runtimes o) benchmark (ResourceOfferV1.mesh_endpoint o) (ResourceOfferV1.signature o).
(** A new period: identifier, times and endpoint; a benchmark that ends before it is dropped. *)
Definition renewed (offer_id : Uuid) (now : DateTime) (endpoint : option MeshEndpointRecordV1.t)
    (o : ResourceOfferV1.t) : ResourceOfferV1.t :=
  let expires_at := now + OFFER_LIFETIME in
  let benchmark := if is_some_and (λ benchmark, LinkBenchmarkV1.expires_at benchmark <? expires_at)
                        (ResourceOfferV1.link_benchmark o)
                   then None else ResourceOfferV1.link_benchmark o in
  sign_offer signing_key
    (ResourceOfferV1.mk (ResourceOfferV1.schema o) offer_id (ResourceOfferV1.node_id o) now expires_at
       (ResourceOfferV1.resources o) (ResourceOfferV1.availability o) (ResourceOfferV1.adapters o)
       (ResourceOfferV1.workload_capabilities o) (ResourceOfferV1.model_runtimes o) benchmark endpoint
       (ResourceOfferV1.signature o)).

Definition refresh_dynamic_capabilities (answers : Answers.t) (remote_assist : bool) (o : ResourceOfferV1.t)
    : ResourceOfferV1.t :=
  let has_ollama := Answers.available answers in
  let set_ollama (adapters : gset string) :=
    if has_ollama then {["rampage.ollama.v1"]} ∪ adapters else adapters ∖ {["rampage.ollama.v1"]} in
  let set_assist (adapters : gset string) :=
    if remote_assist then {["rampage.remote-assist.v1"]} ∪ adapters else adapters ∖ {["rampage.remote-assist.v1"]} in
  let adapters := set_assist (set_ollama (ResourceOfferV1.adapters o)) in
  let model_runtimes :=
    match discover_model_runtimes os arch (ResourceOfferV1.resources o) has_ollama answers with
    | Ok profiles => profiles
    | Err _ => []
    end in
  with_capabilities adapters model_runtimes (discover_workload_capabilities version adapters model_runtimes) o.

(** ** The loop *)

(** [remote_assist::clear_active]. *)
Definition clear_active (active : RemoteAssist.path) : RemoteAssist.path :=
  match active with RemoteAssist.Irregular _ false => active | _ => RemoteAssist.Missing end.

Definition receive_capabilities : P Agent.t () :=
  ended ← draw sight;
  refreshing ← look Agent.refreshing;
  match refreshing, ended with
  | Some started_with, true =>
      answers ← draw (λ _, reports);
      remote_assist ← draw sight;
      _ ← (if (remote_assist : bool) then mret () else on (λ s, Agent.set_active (clear_active (Agent.active s)) s));
      let refreshed := refresh_dynamic_capabilities answers remote_assist started_with in
      _ ← on (λ s, Agent.set_offer
                (with_capabilities (ResourceOfferV1.adapters refreshed) (ResourceOfferV1.model_runtimes refreshed)
                   (ResourceOfferV1.workload_capabilities refreshed) (Agent.offer s)) s);
      on (λ s, Agent.set_capability_refresh_in_flight false (Agent.set_refreshing None s))
  | _, _ => mret ()
  end.

Definition receive_link_probe : P Agent.t () :=
  ended ← draw sight;
  probing ← look Agent.probing;
  match probing, ended with
  | Some observed_at, true =>
      measured ← outcome (measure_link observed_at);
      _ ← on (λ s, Agent.set_link_probe_in_flight false (Agent.set_probing None s));
      let '(benchmark, wait) := match measured with Ok b => (b, seconds 60) | Err _ => (None, seconds 30) end in
      _ ← on (λ s, Agent.set_offer (with_link_benchmark benchmark (Agent.offer s)) s);
      at_ ← instant_after wait;
      on (Agent.set_next_link_probe_at at_)
  | _, _ => mret ()
  end.

Definition start_capability_refresh : P Agent.t () :=
  in_flight ← look Agent.capability_refresh_in_flight;
  if (in_flight : bool) then mret ()
  else
    deadline ← look Agent.next_capability_refresh_at;
    due ← now_is_past deadline;
    if (due : bool) then
      _ ← on (λ s, Agent.set_capability_refresh_in_flight true (Agent.set_refreshing (Some (Agent.offer s)) s));
      at_ ← instant_after CAPABILITY_REFRESH_INTERVAL;
      on (Agent.set_next_capability_refresh_at at_)
    else mret ().

(** The heartbeat; [false] is the [continue] after an offer that was not taken. *)
Definition renew_offer : P Agent.t () :=
  now ← controller_now;
  offer_id ← draw fresh;
  endpoint ← signed_worker_endpoint now (now + OFFER_LIFETIME);
  on (λ s, Agent.set_offer (renewed offer_id now endpoint (Agent.offer s)) s).
Definition post_offer : P Agent.t bool :=
  deadline ← look Agent.next_offer_at;
  due ← now_is_past deadline;
  if negb due then mret true
  else
    _ ← renew_offer;
    offer ← look Agent.offer;
    posted ← outcome (post_json_with_deadline "/v1/offers" offer WORK_CONTROL_REQUEST_DEADLINE);
    match posted with
    | Err _ =>
        _ ← on (λ s, Agent.set_reconnect_delay (Z.min (Agent.reconnect_delay s * 2) (seconds 10)) s);
        at_ ← instant_after 0;
        _ ← on (Agent.set_next_offer_at at_);
        mret false
    | Ok _ =>
        _ ← on (Agent.set_reconnect_delay (seconds 1));
        at_ ← instant_after OFFER_HEARTBEAT_INTERVAL;
        _ ← on (Agent.set_next_offer_at at_);
        _ ← on (Agent.set_ready_announced true);
        mret true
    end.

Definition deliver_receipt : P Agent.t () :=
  outbox ← look Agent.outbox;
  match outbox with
  | None => mret ()
  | Some bytes =>
      pending ← try_ (λ _, Trouble.NotJson) (decode_json (A := ExecutionReceiptV1.t) bytes);
      posted ← outcome (post_json_with_deadline "/v1/receipts" pending WORK_CONTROL_REQUEST_DEADLINE);
      match posted with Ok _ => on (Agent.set_outbox None) | Err _ => mret () end
  end.

(** The execution of a claim by its thread. *)
Definition execute (claim : WorkClaimV1.t) : P Agent.t (result ExecutionError.t ExecutionReceiptV1.t) :=
  env ← draw execution;
  store ← look Agent.store;
  let '(result, store) :=
    Worker.execute_claim_with_store env claim node_id (CapabilityLeaseV1.fencing_epoch (WorkClaimV1.lease claim))
      signing_key store in
  _ ← on (Agent.set_store store);
  mret result.
(** The loop keeps a sender of the channel, so it is never found disconnected. *)
Definition receive_execution : P Agent.t () :=
  ended ← draw sight;
  executing ← look Agent.executing;
  match executing, ended with
  | Some claim, true =>
      result ← execute claim;
      _ ← match result with
          | Ok receipt => on (Agent.set_outbox (Some (pretty_json receipt)))
          | Err _ => mret ()
          end;
      on (λ s, Agent.set_work_in_flight false (Agent.set_executing None s))
  | _, _ => mret ()
  end.

Definition claim_path : string := "/v1/work/claim?node_id=" +:+ uuid_to_string node_id.
Definition poll_work : P Agent.t () :=
  in_flight ← look Agent.work_in_flight;
  if (in_flight : bool) then mret ()
  else
    deadline ← look Agent.next_work_poll_at;
    due ← now_is_past deadline;
    if negb due then mret ()
    else
      answer ← outcome (get_claim_with_deadline claim_path WORK_CONTROL_REQUEST_DEADLINE);
      match answer with
      | Ok (Some claim) =>
          _ ← on (λ s, Agent.set_work_in_flight true (Agent.set_executing (Some claim) s));
          at_ ← instant_after 0;
          on (Agent.set_next_work_poll_at at_)
      | Ok None | Err _ => at_ ← instant_after (seconds 2); on (Agent.set_next_work_poll_at at_)
      end.

Definition start_link_probe : P Agent.t () :=
  at_ ← draw instant;
  s ← look id;
  let benchmark_expires_at := LinkBenchmarkV1.expires_at <$> ResourceOfferV1.link_benchmark (Agent.offer s) in
  let due := link_probe_due (Agent.ready_announced s) at_ (Agent.next_link_probe_at s) benchmark_expires_at
               (ResourceOfferV1.expires_at (Agent.offer s)) in
  if negb (Agent.work_in_flight s) && negb (Agent.link_probe_in_flight s) && due then
    observed_at ← controller_now;
    on (λ s, Agent.set_link_probe_in_flight true (Agent.set_probing (Some observed_at) s))
  else mret ().

(** One turn of the loop; [false] when the latch file is found. *)
Definition turn : P Agent.t bool :=
  killed ← draw sight;
  if (killed : bool) then mret false
  else
    _ ← receive_capabilities;
    _ ← receive_link_probe;
    _ ← start_capability_refresh;
    posted ← post_offer;
    if negb posted then mret true
    else
      _ ← deliver_receipt;
      _ ← receive_execution;
      _ ← poll_work;
      _ ← start_link_probe;
      mret true.
(** [n] turns, or fewer when the loop ends. *)
Fixpoint serve (n : nat) : P Agent.t bool :=
  match n with
  | O => mret true
  | S n => go_on ← turn; if (go_on : bool) then serve n else mret false
  end.

(** ** One item of work *)

Definition execute_one_work_item : P Agent.t bool :=
  outbox ← look Agent.outbox;
  _ ← match outbox with
      | None => mret ()
      | Some bytes =>
          pending ← try_ (λ _, Trouble.NotJson) (decode_json (A := ExecutionReceiptV1.t) bytes);
          _ ← post_json "/v1/receipts" pending;
          on (Agent.set_outbox None)
      end;
  claim ← get_claim claim_path;
  match claim with
  | None => mret false
  | Some claim =>
      result ← execute claim;
      receipt ← try_ Trouble.Execution result;
      _ ← on (Agent.set_outbox (Some (pretty_json receipt)));
      _ ← post_json "/v1/receipts" receipt;
      _ ← on (Agent.set_outbox None);
      mret true
  end.
End agent.
