(* ===== verification/Startup.v ===== *)
(** * Starting an agent (main of crates/rampage-agent/src/main.rs)

    From the files of the data directory and the arguments to a connected process with its
    first offer: keys and identifiers that are made once, the pinned or invited controller,
    the inventory of the machine, and the enrollment. *)

From S2P Require Import Prelude.
From S2P Require Import Codec.
From S2P Require Import Text.
From S2P Require Import Contracts.
From S2P Require Import Wire.
From S2P Require Import Signing.
From S2P Require Import Storage.
From S2P Require Import Worker.
From S2P Require Import RemoteAssist.
From S2P Require Import Relay.
From S2P Require Import Mesh.
From S2P Require Import Process.
From S2P Require Import Edge.
From S2P Require Import Discovery.
From S2P Require Import Agent.
Import Text.
#[local] Open Scope Z_scope.

Module Args.
Record t := mk {
  node_id : option Uuid; device_kind : string; display_name : string; owner_id : option Uuid;
  enrollment_code : option string; invite_file : bool; controller : string; local_controller : bool
}.
End Args.

Module IdentityIds.
Record t := mk { node_id : Uuid; owner_id : Uuid }.
End IdentityIds.

(** The files of the process, the store below them, and the offset of the controller's clock. *)
Module Boot.
Record t := mk {
  killed : bool; key_file : RemoteAssist.path; identity_file : option string; enrollment_marker : option string;
  controller_pin_file : option string; invite_file : option string; storage_key : RemoteAssist.path;
  token_file : option string; store : CasStore.t; controller_clock_offset : Z
}.
Definition set_key_file (x : RemoteAssist.path) (s : t) : t :=
  mk (killed s) x (identity_file s) (enrollment_marker s) (controller_pin_file s) (invite_file s) (storage_key s)
    (token_file s) (store s) (controller_clock_offset s).
Definition set_identity_file (x : option string) (s : t) : t :=
  mk (killed s) (key_file s) x (enrollment_marker s) (controller_pin_file s) (invite_file s) (storage_key s)
    (token_file s) (store s) (controller_clock_offset s).
Definition set_enrollment_marker (x : option string) (s : t) : t :=
  mk (killed s) (key_file s) (identity_file s) x (controller_pin_file s) (invite_file s) (storage_key s)
    (token_file s) (store s) (controller_clock_offset s).
Definition set_controller_pin_file (x : option string) (s : t) : t :=
  mk (killed s) (key_file s) (identity_file s) (enrollment_marker s) x (invite_file s) (storage_key s)
    (token_file s) (store s) (controller_clock_offset s).
Definition set_invite_file (x : option string) (s : t) : t :=
  mk (killed s) (key_file s) (identity_file s) (enrollment_marker s) (controller_pin_file s) x (storage_key s)
    (token_file s) (store s) (controller_clock_offset s).
Definition set_storage_key (x : RemoteAssist.path) (s : t) : t :=
  mk (killed s) (key_file s) (identity_file s) (enrollment_marker s) (controller_pin_file s) (invite_file s) x
    (token_file s) (store s) (controller_clock_offset s).
Definition set_store (x : CasStore.t) (s : t) : t :=
  mk (killed s) (key_file s) (identity_file s) (enrollment_marker s) (controller_pin_file s) (invite_file s)
    (storage_key s) (token_file s) x (controller_clock_offset s).
Definition set_controller_clock_offset (x : Z) (s : t) : t :=
  mk (killed s) (key_file s) (identity_file s) (enrollment_marker s) (controller_pin_file s) (invite_file s)
    (storage_key s) (token_file s) (store s) x.
End Boot.
#[global] Instance boot_clocked : Clocked Boot.t :=
  {| clock_offset := Boot.controller_clock_offset; set_clock_offset := Boot.set_controller_clock_offset |}.

(** A connection: the transport, and over the mesh where it goes and whom the gateway obeys. *)
Module Connection.
Record t := mk {
  transport : ControllerTransport.t; destination : option EndpointAddr; governor_public_key : option string
}.
End Connection.
(** What is on record of the controller: the invitation, the pin, the pin made from an
    invitation that was used before, and whether the node is enrolled. *)
Module Enrollment.
Record t := mk {
  invitation : option EnrollmentInviteV1.t; stored_pin : option PinnedControllerV1.t;
  migrated_pin : option PinnedControllerV1.t; already_enrolled : bool
}.
End Enrollment.
(** A started process. *)
Module Started.
Section started.
Context {crypto : Crypto}.
Record t := mk {
  signing_key : SigningKey; identity : NodeIdentityV1.t; connection : Connection.t; offer : ResourceOfferV1.t
}.
End started.
End Started.

Section startup.
Context {codec : Codec} {pretty : Pretty} {crypto : Crypto} {ser : Serializer} {render : Render} {iroh : Iroh}
        {wire_mesh : MeshWire} {wire_enrollment : Wire EnrollmentRequestV1.t} {wire_invite : Wire EnrollmentInviteV1.t}
        {wire_pin : Wire PinnedControllerV1.t} {wire_ids : Wire IdentityIds.t}
        {wire_tags : Wire OllamaTags.t} {wire_manifest : Wire ModelRuntimeManifestV1.t}.
(** [SigningKey::from_bytes] and [Url::parse]. *)
Context (signing_key_of : string → SigningKey) (parse_url : string → option Url.t).
(** The platform and version of the build, the name of the system, and the answers of the
    local services. *)
Context (os arch system_name version : string) (reports : nat → Answers.t).

(** ** Files *)

Definition read_secret_file (file : RemoteAssist.path) (label : string) : result Trouble.t string :=
  match file with
  | RemoteAssist.Regular text =>
      _ ← ensure (len text <=? 128) (Trouble.Complaint (label +:+ " exceeds its size limit"));
      bytes ← ok_or Trouble.NotHex (hex_decode (trim text));
      _ ← ensure (len bytes =? 32) (Trouble.Complaint (label +:+ " must contain exactly 32 bytes"));
      Ok bytes
  | _ => Err (Trouble.Complaint (label +:+ " must be a regular non-symlink file"))
  end.
Definition load_or_create_secret_bytes (file : Boot.t → RemoteAssist.path) (write : RemoteAssist.path → Boot.t → Boot.t)
    (label : string) : P Boot.t string :=
  existing ← look file;
  match existing with
  | RemoteAssist.Missing =>
      bytes ← draw secret;
      _ ← change (write (RemoteAssist.Regular (hex_encode bytes)));
      mret bytes
  | existing => try_ id (read_secret_file existing label)
  end.
Definition load_or_create_key : P Boot.t SigningKey :=
  bytes ← load_or_create_secret_bytes Boot.key_file Boot.set_key_file "agent signing key";
  mret (signing_key_of bytes).

(** A byte order mark before the JSON is skipped. *)
Definition byte_order_mark : string := String "239" (String "187" (String "191" "")).
Definition read_json_file_bounded `{Wire A} (max_bytes : Z) (bytes : string) : result Trouble.t A :=
  _ ← ensure (len bytes <=? max_bytes) (Trouble.Complaint "JSON input exceeds the byte limit");
  map_err (λ _, Trouble.NotJson) (decode_json (default bytes (strip_prefix byte_order_mark bytes))).

Definition load_or_create_identity_ids (requested_node_id requested_owner_id : option Uuid) : P Boot.t (Uuid * Uuid) :=
  existing ← look Boot.identity_file;
  match existing with
  | Some bytes =>
      ids ← try_ id (read_json_file_bounded (A := IdentityIds.t) (16 * 1024) bytes);
      if is_some_and (λ value, value != IdentityIds.node_id ids) requested_node_id
         || is_some_and (λ value, value != IdentityIds.owner_id ids) requested_owner_id
      then raise (Trouble.Complaint "requested identity conflicts with the persistent agent identity")
      else mret (IdentityIds.node_id ids, IdentityIds.owner_id ids)
  | None =>
      node_id ← match requested_node_id with Some id => mret id | None => draw fresh end;
      owner_id ← match requested_owner_id with Some id => mret id | None => draw fresh end;
      _ ← change (Boot.set_identity_file (Some (pretty_json (IdentityIds.mk node_id owner_id))));
      mret (node_id, owner_id)
  end.

Definition ollama_loopback_base_url (configured : option string) : result Trouble.t string :=
  let configured := default "http://127.0.0.1:11434" configured in
  parsed ← ok_or (Trouble.Complaint "invalid URL") (parse_url configured);
  _ ← ensure ((Url.scheme parsed == "http")
              && is_some_and (λ host, (host == "127.0.0.1") || (host == "::1")) (Url.host_str parsed)
              && is_empty (Url.username parsed) && is_none (Url.password parsed) && is_none (Url.query parsed)
              && is_none (Url.fragment parsed) && ((Url.path parsed == "") || (Url.path parsed == "/")))
        (Trouble.Complaint "RAMPAGE_OLLAMA_URL must be a plain HTTP loopback IP origin without credentials or a path");
  Ok (Relay.trim_end_matches "/" configured).

(** ** The controller *)

Inductive RemoteController :=
| Invitation (invitation : EnrollmentInviteV1.t)
| Pinned (pin : PinnedControllerV1.t).

(** The record, the Governor's key, all addresses and the candidates in order. *)
Definition controller_route (remote : RemoteController)
    : P Boot.t (MeshEndpointRecordV1.t * string * EndpointAddr * list EndpointAddr) :=
  match remote with
  | Invitation invitation =>
      now ← draw clock;
      _ ← assert_ ((EnrollmentInviteV1.schema invitation == "rampage.enrollment-invite.v1")
                   && (now <? EnrollmentInviteV1.expires_at invitation))
            "invite is expired or has an unsupported schema";
      record ← obtain (EnrollmentInviteV1.controller_mesh invitation)
                 (Trouble.Complaint "invite does not contain a mesh endpoint");
      governor_key ← obtain (EnrollmentInviteV1.governor_public_key invitation)
                       (Trouble.Complaint "invite does not contain a Governor public key");
      t1 ← draw clock; t2 ← draw clock;
      _ ← try_ (λ _, Trouble.Complaint "invite mesh endpoint signature is invalid")
            (verify_mesh_endpoint_with_key t1 t2 governor_key record);
      t3 ← draw clock;
      aggregate ← try_ (λ e, Trouble.MeshFailed (Mesh e)) (endpoint_addr_from_record record t3);
      t4 ← draw clock;
      candidates ← try_ (λ e, Trouble.MeshFailed (Mesh e)) (endpoint_addr_candidates_from_record record t4);
      mret (record, governor_key, aggregate, candidates)
  | Pinned pin =>
      let record := PinnedControllerV1.endpoint pin in
      _ ← try_ id (validate_controller_pin pin);
      aggregate ← try_ (λ e, Trouble.MeshFailed (Mesh e)) (endpoint_addr_from_pinned_record record);
      candidates ← try_ (λ e, Trouble.MeshFailed (Mesh e)) (endpoint_addr_candidates_from_pinned_record record);
      mret (record, PinnedControllerV1.governor_public_key pin, aggregate, candidates)
  end.

Definition is_loopback_url (controller : string) : bool :=
  starts_with "http://127.0.0.1:" controller || starts_with "http://[::1]:" controller
  || starts_with "http://localhost:" controller.
Definition connect_controller (interfaces : list Interface) (controller : string) (remote : option RemoteController)
    : P Boot.t Connection.t :=
  match remote with
  | None =>
      _ ← assert_ (is_loopback_url controller)
            "plain HTTP controller transport is restricted to loopback; use an invite file for remote enrollment";
      mret (Connection.mk ControllerTransport.Http None None)
  | Some remote =>
      '(record, governor_key, aggregate, candidates) ← controller_route remote;
      let destination := select_controller_destination interfaces aggregate candidates in
      config ← try_ id (mesh_config_for_controller record);
      _ ← try_ Trouble.MeshFailed (bind_endpoint config);
      _ ← change (Boot.set_controller_clock_offset 0);
      _ ← outcome (request "GET" "/health" None);
      mret (Connection.mk (ControllerTransport.Mesh (MeshEndpointRecordV1.endpoint_id record)) (Some destination)
              (Some governor_key))
  end.

(** ** The first offer *)

Definition base_labels (args : Args.t) (node_id : Uuid) : gmap string string :=
  <["node_id" := uuid_to_string node_id]> (<["arch" := arch]> (<["os" := system_name]>
    (<["device_name" := Args.display_name args]> {["device_kind" := Args.device_kind args]}))).
Definition storage_capacity (resources : list ResourceQuantityV1.t) (class : ResourceClass.t) : Z :=
  default 0 (ResourceQuantityV1.available <$> List.find (λ resource, ResourceQuantityV1.class resource == class) resources).
Definition storage_limits (resources : list ResourceQuantityV1.t) : StorageLimits.t :=
  StorageLimits.mk (storage_capacity resources ResourceClass.StorageCache)
    (storage_capacity resources ResourceClass.StorageScratch) (storage_capacity resources ResourceClass.ProtectedStore).
Definition shipped_adapters : gset string :=
  {["rampage.echo.v1"; "rampage.hash.v1"; "rampage.eval-shard.v1"; "rampage.artifact-hash.v1"; "rampage.benchmark.v1"]}.
Definition first_adapters (has_ollama remote_assist : bool) (runtimes : list ModelRuntimeOfferV1.t) : gset string :=
  shipped_adapters ∪ (if has_ollama then {["rampage.ollama.v1"]} else ∅)
  ∪ (if remote_assist then {["rampage.remote-assist.v1"]} else ∅)
  ∪ list_to_set (ModelRuntimeOfferV1.adapter <$> runtimes).
(** A handheld is in the foreground only when its environment says so. *)
Definition foreground_allowed (device_kind : DeviceKind.t) (edge_foreground : option string) : bool :=
  match device_kind with
  | DeviceKind.Phone | DeviceKind.Tablet | DeviceKind.Console => is_true edge_foreground
  | _ => true
  end.
Definition make_offer (signing_key : SigningKey) (transport : ControllerTransport.t) (node_id : Uuid)
    (device_kind : DeviceKind.t) (edge_foreground : option string) (discovered : DiscoverySnapshot.t)
    : P Boot.t ResourceOfferV1.t :=
  now ← controller_now transport;
  answers ← draw (λ _, reports);
  remote_assist ← draw sight;
  let has_ollama := Answers.available answers in
  let resources := DiscoverySnapshot.resources discovered in
  let model_runtimes :=
    match discover_model_runtimes os arch resources has_ollama answers with Ok profiles => profiles | Err _ => [] end in
  let adapters := first_adapters has_ollama remote_assist model_runtimes in
  offer_id ← draw fresh;
  endpoint ← signed_worker_endpoint signing_key transport now (now + OFFER_LIFETIME);
  mret (sign_offer signing_key
    (ResourceOfferV1.mk "rampage.resource-offer.v1" offer_id node_id now (now + OFFER_LIFETIME) resources
       (AvailabilityV1.mk (DiscoverySnapshot.on_ac_power discovered) (DiscoverySnapshot.battery_percent discovered)
          (DiscoverySnapshot.thermal_headroom_percent discovered) (foreground_allowed device_kind edge_foreground)
          (DiscoverySnapshot.owner_idle discovered))
       adapters (discover_workload_capabilities version adapters model_runtimes) model_runtimes None endpoint "")).

(** ** Enrollment *)

Definition invitation_endpoint (invitation : option EnrollmentInviteV1.t) : option string :=
  invitation ← invitation; endpoint ← EnrollmentInviteV1.controller_mesh invitation;
  Some (MeshEndpointRecordV1.endpoint_id endpoint).
(** The marker of an enrollment with the invitation's controller. *)
Definition marked (marker endpoint_id : option string) : bool :=
  is_some_and (λ endpoint_id, is_some_and (λ saved, trim saved == endpoint_id) marker) endpoint_id.
Definition read_optional `{Wire A} (max_bytes : Z) (file : option string) : P Boot.t (option A) :=
  match file with
  | None => mret None
  | Some bytes => value ← try_ id (read_json_file_bounded max_bytes bytes); mret (Some value)
  end.

Definition read_enrollment (args : Args.t) : P Boot.t Enrollment.t :=
  files ← look id;
  _ ← assert_ (implb (Args.invite_file args) (is_some (Boot.invite_file files))) "no such file";
  invitation ← read_optional (256 * 1024) (if Args.invite_file args then Boot.invite_file files else None);
  stored_pin ← read_optional (64 * 1024) (if Args.local_controller args then None else Boot.controller_pin_file files);
  let already_enrolled :=
    is_some stored_pin || marked (Boot.enrollment_marker files) (invitation_endpoint invitation) in
  migrated_pin ← (if is_none stored_pin && already_enrolled then
                    invitation ← obtain invitation
                      (Trouble.Complaint "stored enrollment is missing its controller route");
                    now ← draw clock;
                    pin ← try_ id (pin_from_invitation now invitation);
                    mret (Some pin)
                  else mret None);
  mret (Enrollment.mk invitation stored_pin migrated_pin already_enrolled).
Definition remote_controller (args : Args.t) (e : Enrollment.t) : option RemoteController :=
  if Args.local_controller args then None
  else match Enrollment.stored_pin e, Enrollment.migrated_pin e with
       | Some pin, _ | None, Some pin => Some (Pinned pin)
       | None, None => Invitation <$> Enrollment.invitation e
       end.

Definition enroll (args : Args.t) (e : Enrollment.t) (signing_key : SigningKey) (transport : ControllerTransport.t)
    (identity : NodeIdentityV1.t) : P Boot.t () :=
  let code := match Args.enrollment_code args with
              | Some code => Some code
              | None => if Enrollment.already_enrolled e then None
                        else EnrollmentInviteV1.enrollment_code <$> Enrollment.invitation e
              end in
  match code with
  | None => mret ()
  | Some code =>
      '(invite_id, secret) ← try_ id (parse_enrollment_code code);
      _ ← post_json_one_shot transport "/v1/nodes/enroll"
            (sign_enrollment signing_key
               (EnrollmentRequestV1.mk "rampage.enrollment-request.v1" invite_id secret identity ""));
      match invitation_endpoint (Enrollment.invitation e) with
      | Some endpoint_id => change (Boot.set_enrollment_marker (Some endpoint_id))
      | None => mret ()
      end
  end.
Definition pin_controller (args : Args.t) (e : Enrollment.t) : P Boot.t () :=
  match Enrollment.stored_pin e, Enrollment.invitation e with
  | None, Some invitation =>
      pin ← match Enrollment.migrated_pin e with
            | Some pin => mret pin
            | None => now ← draw clock; try_ id (pin_from_invitation now invitation)
            end;
      _ ← change (Boot.set_controller_pin_file (Some (pretty_json pin +:+ String "010" "")));
      if Args.invite_file args then change (Boot.set_invite_file None) else mret ()
  | _, _ => mret ()
  end.

(** ** The whole of it *)

Definition start_as (args : Args.t) (machine : Machine.t) (interfaces : list Interface) (edge_foreground : option string)
    (device_kind : DeviceKind.t) (signing_key : SigningKey) (node_id owner_id : Uuid) : P Boot.t Started.t :=
  enrollment ← read_enrollment args;
  enrolled_at ← draw clock;
  let identity := NodeIdentityV1.mk NodeIdentityV1.SCHEMA node_id owner_id (Args.display_name args) device_kind
                    (os +:+ "-" +:+ arch) (hex_encode (verifying_key signing_key)) enrolled_at 0 in
  let discovered := discover (base_labels args node_id) machine in
  _ ← load_or_create_secret_bytes Boot.storage_key Boot.set_storage_key "agent storage secret";
  _ ← change (λ s, Boot.set_store (Edge.with_limits (Some (storage_limits (DiscoverySnapshot.resources discovered)))
                                     (Boot.store s)) s);
  connection ← connect_controller interfaces (Args.controller args) (remote_controller args enrollment);
  let transport := Connection.transport connection in
  offer ← make_offer signing_key transport node_id device_kind edge_foreground discovered;
  _ ← enroll args enrollment signing_key transport identity;
  _ ← pin_controller args enrollment;
  mret (Started.mk signing_key identity connection offer).
Definition start (args : Args.t) (machine : Machine.t) (interfaces : list Interface) (ollama_url edge_foreground : option string)
    : P Boot.t Started.t :=
  killed ← look Boot.killed;
  _ ← assert_ (negb killed) "owner kill latch is active; remove it only through an explicit resume flow";
  device_kind ← try_ id (parse_device_kind (Args.device_kind args));
  signing_key ← load_or_create_key;
  '(node_id, owner_id) ← load_or_create_identity_ids (Args.node_id args) (Args.owner_id args);
  _ ← try_ id (ollama_loopback_base_url ollama_url);
  start_as args machine interfaces edge_foreground device_kind signing_key node_id owner_id.

(** The state the loop of [--serve] begins with; the outbox is what an earlier run left. *)
Definition serving (started : Started.t) (boot : Boot.t) (outbox : option string) (active : RemoteAssist.path)
    (now : Z) : Agent.t :=
  Agent.mk (Started.offer started) None false None false None false false (seconds 1) now now now
    (now + CAPABILITY_REFRESH_INTERVAL) outbox (Boot.store boot) (Boot.controller_clock_offset boot) active.
End startup.
