(* ===== verification/ModelWorker.v ===== *)
(** * The worker's model protocol (crates/rampage-agent/src/main.rs)

    One model invocation on a worker: the checks of its lease, the exact local model, the
    conversation with the local Ollama service and the frames that carry its answer back.
    The service is its responses: a status and the pieces of a body, each of which may fail
    to arrive.  A frame that cannot be written ends the invocation where it stands. *)

From S2P Require Import Prelude.
From S2P Require Import Codec.
From S2P Require Import Text.
From S2P Require Import Contracts.
From S2P Require Import Wire.
From S2P Require Import Signing.
From S2P Require Import Storage.
From S2P Require Import Mesh.
From S2P Require Import Gateway.
Import Text.

Module OllamaChatChunk.
Record t := mk {
  model : option string; message : option string; (* [message.content] *)
  finished : bool; (* [done] *) done_reason : option string;
  prompt_eval_count : option Z; eval_count : option Z; error : option string
}.
End OllamaChatChunk.

Module OllamaCompletion.
Record t := mk { finish_reason : string; usage : option ModelUsageV1.t }.
End OllamaCompletion.

(** ** Bounded text *)

Definition nth_byte (n : nat) (s : string) : option ascii := String.get n s.
(** [value.is_char_boundary(index)] within the text. *)
Definition is_char_boundary (s : string) (index : nat) : bool :=
  match nth_byte index s with Some c => negb (is_continuation c) | None => true end.

(** [while end > start && !value.is_char_boundary(end) { end -= 1 }], from the start of the
    remaining text. *)
Fixpoint boundary_below (s : string) (index : nat) : nat :=
  match index with
  | O => O
  | S below => if is_char_boundary s index then index else boundary_below s below
  end.
(** The end of the first character, or of the text. *)
Fixpoint skip_continuations (s : string) : nat :=
  match s with
  | String c s => if is_continuation c then S (skip_continuations s) else O
  | "" => O
  end.
Definition first_char_end (s : string) : nat :=
  match s with String _ s => S (skip_continuations s) | "" => O end.

Definition cut (max_bytes : nat) (s : string) : nat :=
  match boundary_below s (Nat.min max_bytes (String.length s)) with
  | O => first_char_end s
  | end_ => end_
  end.

(** The loop takes at least one byte of the remaining text each time. *)
Fixpoint cut_all (fuel max_bytes : nat) (s : string) : list string :=
  match fuel, s with
  | S fuel, String _ _ =>
      let '(chunk, rest) := split_at (cut max_bytes s) s in chunk :: cut_all fuel max_bytes rest
  | _, _ => []
  end.
Definition utf8_chunks (s : string) (max_bytes : nat) : list string :=
  if (String.length s <=? max_bytes)%nat then [s] else cut_all (String.length s) max_bytes s.

Definition is_ascii_whitespace (b : N) : bool :=
  ((b =? 32) || (b =? 9) || (b =? 10) || (b =? 12) || (b =? 13))%N.
Definition all_whitespace (s : string) : bool := all_bytes is_ascii_whitespace s.

(** [buffered.iter().position(newline)] and [drain(..=newline)]: the line without its
    newline, and what follows. *)
Fixpoint take_line (s : string) : option (string * string) :=
  match s with
  | "" => None
  | String c s =>
      if c == "010"%char then Some ("", s)
      else match take_line s with Some (line, rest) => Some (String c line, rest) | None => None end
  end.

(** ** The conversation with Ollama *)

(** A response: whether it arrived, its status, and the pieces of its body in order. *)
Record HttpResponse := mkHttp { http_status : Z; body : list (option string) }.

(** [bounded_json]: every piece within the bound, then JSON. *)
Fixpoint collect_bounded (max_bytes : Z) (bytes : string) (pieces : list (option string)) : option string :=
  match pieces with
  | [] => Some bytes
  | None :: _ => None
  | Some piece :: pieces =>
      if sat_add (len bytes) (len piece) <=? max_bytes
      then collect_bounded max_bytes (bytes +:+ piece) pieces else None
  end.

Module Run.
(** Where an invocation stands: the bytes written to the stream, the text produced, and the
    number of the next frame. *)
Record t := mk { written : string; output : string; sequence : Z }.
End Run.

Section ollama.
Context {codec : Codec} {crypto : Crypto} {ser : Serializer} {vault : Vault} {wire : MeshWire}.
Context {wire_chunk : Wire OllamaChatChunk.t}.
Context (describe : GatewayError → string).
Implicit Type request : ModelInvocationRequestV1.t.

Definition bounded_json (response : HttpResponse) (max_bytes : Z) : result GatewayError Value :=
  match collect_bounded max_bytes "" (body response) with
  | None => Err (Complaint "loopback service response exceeded its bounded size")
  | Some bytes => ok_or (StreamFault Json) (json_from_str bytes)
  end.

(** The digest of a listed model, with its prefix and in lower case. *)
Definition listed_digest (value : string) : string :=
  if starts_with "sha256:" value then to_ascii_lowercase value
  else "sha256:" +:+ to_ascii_lowercase value.

Definition is_leased_model request (model : Value) : bool :=
  let lease := ModelInvocationRequestV1.lease request in
  let identifier := match match field "model" model with Some v => Some v | None => field "name" model end with
                    | Some v => as_str v | None => None end in
  (identifier == Some (ModelSessionLeaseV1.model_id lease))
  && ((listed_digest <$> field_str "digest" model) == Some (ModelSessionLeaseV1.model_digest lease))
  && is_some_and (λ size, 0 <? size) (match field "size" model with Some v => as_u64 v | None => None end).

Definition verify_local_ollama_model request (tags : option HttpResponse) : result GatewayError () :=
  match tags with
  | None => Err (Complaint "local Ollama is unreachable")
  | Some response =>
      if in_range 400 599 (http_status response) then Err (Complaint "local Ollama reported an error")
      else
        payload ← bounded_json response (1024 * 1024);
        ensure (match field "models" payload with
                | Some (VArray models) => existsb (is_leased_model request) models
                | _ => false
                end) (Complaint "the leased Ollama model is not installed with the advertised digest")
  end.

(** Put one frame on the stream. *)
Definition emit (frame : ModelInvocationFrameV1.t) (run : Run.t) : result GatewayError Run.t :=
  bytes ← map_err StreamFault (write_model_frame frame);
  Ok (Run.mk (Run.written run +:+ bytes) (Run.output run) (Run.sequence run)).

Definition delta_frame request (sequence : Z) (content : string) : ModelInvocationFrameV1.t :=
  ModelInvocationFrameV1.mk ModelInvocationFrameV1.SCHEMA (ModelInvocationRequestV1.request_id request)
    sequence ModelInvocationFrameKind.Delta content None None None.

(** The loop over the pieces of one delta; an error keeps what was written before it. *)
Fixpoint emit_deltas request (pieces : list string) (run : Run.t) : result GatewayError () * Run.t :=
  match pieces with
  | [] => (Ok (), run)
  | piece :: pieces =>
      match emit (delta_frame request (Run.sequence run) piece) run with
      | Err e => (Err e, run)
      | Ok run => emit_deltas request pieces
                    (Run.mk (Run.written run) (Run.output run) (sat_add (Run.sequence run) 1))
      end
  end.

Definition process_ollama_line request (line : string) (run : Run.t)
    : result GatewayError (option OllamaCompletion.t) * Run.t :=
  match map_err StreamFault (decode_json (A := OllamaChatChunk.t) line) with
  | Err e => (Err e, run)
  | Ok chunk =>
      if is_some (OllamaChatChunk.error chunk)
      then (Err (Complaint ("Ollama stream failed: "
                              +:+ bounded_error (default "" (OllamaChatChunk.error chunk)))), run)
      else if is_some_and (λ model, model
                 != ModelSessionLeaseV1.model_id (ModelInvocationRequestV1.lease request))
                (OllamaChatChunk.model chunk)
      then (Err (Complaint "Ollama response model differs from its lease"), run)
      else
        let completion :=
          if OllamaChatChunk.finished chunk
          then Some (OllamaCompletion.mk (default "stop" (OllamaChatChunk.done_reason chunk))
                 match OllamaChatChunk.prompt_eval_count chunk, OllamaChatChunk.eval_count chunk with
                 | Some p, Some c => Some (ModelUsageV1.mk p c)
                 | _, _ => None
                 end)
          else None in
        let content := default "" (OllamaChatChunk.message chunk) in
        if is_empty content then (Ok completion, run)
        else if MAX_MODEL_OUTPUT_BYTES <? sat_add (len (Run.output run)) (len content)
        then (Err (Complaint "model output exceeded the bounded response size"), run)
        else
          let run := Run.mk (Run.written run) (Run.output run +:+ content) (Run.sequence run) in
          match emit_deltas request (utf8_chunks content (16 * 1024)) run with
          | (Err e, run) => (Err e, run)
          | (Ok _, run) => (Ok completion, run)
          end
  end.

(** The inner loop over the complete lines of the buffer; [fuel] bounds their number. *)
Fixpoint process_lines (fuel : nat) request (buffered : string) (run : Run.t)
    : result GatewayError (option OllamaCompletion.t * string) * Run.t :=
  match fuel with
  | O => (Ok (None, buffered), run)
  | S fuel =>
      match take_line buffered with
      | None => (Ok (None, buffered), run)
      | Some (line, rest) =>
          if all_whitespace line then process_lines fuel request rest run
          else
            match process_ollama_line request line run with
            | (Err e, run) => (Err e, run)
            | (Ok (Some completion), run) => (Ok (Some completion, rest), run)
            | (Ok None, run) => process_lines fuel request rest run
            end
      end
  end.

(** The outer loop over the pieces of the body. *)
Fixpoint process_body request (pieces : list (option string)) (buffered : string) (run : Run.t)
    : result GatewayError (option OllamaCompletion.t * string) * Run.t :=
  match pieces with
  | [] => (Ok (None, buffered), run)
  | None :: _ => (Err (Complaint "local Ollama stream failed"), run)
  | Some piece :: pieces =>
      let buffered := buffered +:+ piece in
      if 256 * 1024 <? len buffered then (Err (Complaint "Ollama emitted an oversized frame"), run)
      else
        match process_lines (S (String.length buffered)) request buffered run with
        | (Err e, run) => (Err e, run)
        | (Ok (Some completion, buffered), run) => (Ok (Some completion, buffered), run)
        | (Ok (None, buffered), run) => process_body request pieces buffered run
        end
  end.

Definition execution request (pieces : list (option string)) (run : Run.t)
    : result GatewayError OllamaCompletion.t * Run.t :=
  let finish (completion : option OllamaCompletion.t) (run : Run.t) :=
    match completion with
    | None => (Err (Complaint "Ollama stream ended without a terminal frame"), run)
    | Some completion =>
        if is_empty (Run.output run)
        then (Err (Complaint "Ollama completed without user-visible answer text"), run)
        else (Ok completion, run)
    end in
  match process_body request pieces "" run with
  | (Err e, run) => (Err e, run)
  | (Ok (Some completion, _), run) => finish (Some completion) run
  | (Ok (None, buffered), run) =>
      if all_whitespace buffered then finish None run
      else
        match process_ollama_line request buffered run with
        | (Err e, run) => (Err e, run)
        | (Ok completion, run) => finish completion run
        end
  end.

(** The clock and the identifier of the receipt. *)
Record ModelEnv := mkModel { model_lease_now : DateTime; model_accept_now : DateTime;
                             started_at : DateTime; finished_at : DateTime; model_receipt_id : Uuid }.

Definition model_receipt (env : ModelEnv) request (key : SigningKey) (state : JobState.t) (output : string)
    (usage : option ModelUsageV1.t) (error : option string) : ModelExecutionReceiptV1.t :=
  let lease := ModelInvocationRequestV1.lease request in
  sign_model_receipt key
    (ModelExecutionReceiptV1.mk ModelExecutionReceiptV1.SCHEMA (model_receipt_id env)
       (ModelSessionLeaseV1.lease_id lease) (ModelSessionLeaseV1.session_id lease)
       (ModelInvocationRequestV1.request_id request) (ModelSessionLeaseV1.node_id lease) state
       (started_at env) (finished_at env) (CasStore.sha256_digest output) (len output) usage error "").

(** The frame that ends the stream, with its signed receipt. *)
Definition terminal_frame (env : ModelEnv) request (key : SigningKey) (run : Run.t)
    (execution : result GatewayError OllamaCompletion.t) : ModelInvocationFrameV1.t :=
  let '(state, finish_reason, usage, error) :=
    match execution with
    | Ok completion =>
        (JobState.Succeeded, Some (OllamaCompletion.finish_reason completion),
         OllamaCompletion.usage completion, None)
    | Err error => (JobState.Failed, None, None, Some (bounded_error (describe error)))
    end in
  ModelInvocationFrameV1.mk ModelInvocationFrameV1.SCHEMA (ModelInvocationRequestV1.request_id request)
    (Run.sequence run)
    (if state == JobState.Succeeded then ModelInvocationFrameKind.Complete else ModelInvocationFrameKind.Error)
    "" finish_reason error (Some (model_receipt env request key state (Run.output run) usage error)).

(** What the invocation leaves on the stream; an error is reported by the caller. *)
Definition run_ollama_invocation (env : ModelEnv) request (key : SigningKey) (chat : option HttpResponse)
    : result GatewayError () * string :=
  match chat with
  | None => (Err (Complaint "local Ollama is unreachable"), "")
  | Some response =>
      if negb (is_success (http_status response))
      then (Err (Complaint "local Ollama rejected the model session"), "")
      else
        let '(r, run) := execution request (body response) (Run.mk "" "" 0) in
        match emit (terminal_frame env request key run r) run with
        | Ok run => (Ok (), Run.written run)
        | Err e => (Err e, Run.written run)
        end
  end.

Definition error_frame (request_id : Uuid) (message : string) : ModelInvocationFrameV1.t :=
  ModelInvocationFrameV1.mk ModelInvocationFrameV1.SCHEMA request_id 0 ModelInvocationFrameKind.Error ""
    None (Some message) None.

(** The checks and the one-shot acceptance of the lease, in the order of the source. *)
Definition admit_invocation (env : ModelEnv) (config : WorkerGatewayConfig.t) request
    (tags : option HttpResponse) (store : CasStore.t) : Served () :=
  let lease := ModelInvocationRequestV1.lease request in
  match _ ← map_err Refused (verify_model_session_lease_with_key
                               (WorkerGatewayConfig.governor_public_key config) lease);
        _ ← ensure (ModelSessionLeaseV1.is_active_at lease (model_lease_now env)
                      (ModelSessionLeaseV1.fencing_epoch lease)
                    && ModelInvocationRequestV1.is_valid_for request (WorkerGatewayConfig.node_id config)
                         (WorkerGatewayConfig.controller_endpoint_id config))
              (Complaint "model invocation is outside its signed authority");
        verify_local_ollama_model request tags with
  | Err e => (Err e, store)
  | Ok _ =>
      on_store (CasStore.accept_authority store SCOPE (ModelSessionLeaseV1.fencing_epoch lease)
                  (ModelSessionLeaseV1.nonce lease) (ModelSessionLeaseV1.expires_at lease)
                  (model_accept_now env)) (λ _ s, (Ok (), s))
  end.

(** One stream of a model connection. *)
Definition serve_model (env : ModelEnv) (config : WorkerGatewayConfig.t)
    (tags chat : option HttpResponse) (received : string) (store : CasStore.t) : string * CasStore.t :=
  let parsed := read_model_request received in
  let request_id :=
    match parsed with Ok (request, _) => ModelInvocationRequestV1.request_id request | Err _ => nil_uuid end in
  let '(r, written, s) :=
    match parsed with
    | Err fault => (Err (StreamFault fault), "", store)
    | Ok (request, _) =>
        match admit_invocation env config request tags store with
        | (Err e, s) => (Err e, "", s)
        | (Ok _, s) =>
            let '(r, written) := run_ollama_invocation env request (WorkerGatewayConfig.signing_key config) chat in
            (r, written, s)
        end
    end in
  (match r with
   | Ok _ => written
   | Err error =>
       written +:+ match write_model_frame (error_frame request_id (bounded_error (describe error))) with
                   | Ok bytes => bytes | Err _ => "" end
   end, s).
End ollama.
