(* ===== verification/ModelWorkerFacts.v ===== *)
(** * Facts about the worker's model protocol

    Cutting text into frames loses nothing, the loops end, and a successful invocation leaves
    exactly its answer on the stream. *)

From S2P Require Import Prelude.
From S2P Require Import Codec.
From S2P Require Import Text.
From S2P Require Import Contracts.
From S2P Require Import Wire.
From S2P Require Import Signing.
From S2P Require Import Storage.
From S2P Require Import StorageFacts.
From S2P Require Import Mesh.
From S2P Require Import MeshFacts.
From S2P Require Import Gateway.
From S2P Require Import ModelWorker.
Import Text.

(** ** Cutting text *)

Lemma string_app_length (a b : string) : String.length (a +:+ b) = (String.length a + String.length b)%nat.
Proof. rewrite <-!length_chars, chars_app, length_app. done. Qed.

Lemma boundary_below_le s k : (boundary_below s k ≤ k)%nat.
Proof. induction k as [|k IH]; cbn; [done|]. case_match; lia. Qed.

Lemma skip_continuations_le s : (skip_continuations s ≤ String.length s)%nat.
Proof. induction s as [|c s IH]; cbn; [done|]. case_match; lia. Qed.

(** A cut takes something, and no more than there is. *)
Lemma cut_bounds max_bytes c s :
  (1 ≤ cut max_bytes (String c s) ≤ String.length (String c s))%nat.
Proof.
  unfold cut. pose proof (boundary_below_le (String c s) (Nat.min max_bytes (String.length (String c s)))).
  destruct (boundary_below _ _) as [|k] eqn:E; [|cbn in *; lia].
  unfold first_char_end. pose proof (skip_continuations_le s). cbn. lia.
Qed.

Lemma cut_all_spec fuel max_bytes s :
  (String.length s ≤ fuel)%nat →
  concat_bytes (cut_all fuel max_bytes s) = s ∧ Forall (λ p, p ≠ "") (cut_all fuel max_bytes s).
Proof.
  revert s. induction fuel as [|fuel IH]; intros [|c s] Hf; try (cbn in *; done || lia).
  cbn [cut_all]. pose proof (cut_bounds max_bytes c s) as Hb.
  pose proof (split_at_app (cut max_bytes (String c s)) (String c s)) as Happ.
  pose proof (split_at_length (cut max_bytes (String c s)) (String c s)) as Hlen.
  destruct (split_at _ _) as [piece rest]. cbn [fst snd] in *.
  assert (String.length rest ≤ fuel)%nat as Hr.
  { rewrite <-Happ, string_app_length in Hf. lia. }
  destruct (IH rest Hr) as [Hc Hn]. split.
  - cbn. fold (concat_bytes (cut_all fuel max_bytes rest)). by rewrite Hc.
  - constructor; [|done]. intros ->. cbn in Hlen. lia.
Qed.

(** Frames carry the text of a delta in order and without loss, none of them empty. *)
Lemma utf8_chunks_spec s max_bytes :
  s ≠ "" → concat_bytes (utf8_chunks s max_bytes) = s ∧ Forall (λ p, p ≠ "") (utf8_chunks s max_bytes).
Proof.
  intros Hs. unfold utf8_chunks. destruct (String.length s <=? max_bytes)%nat.
  - cbn. rewrite append_empty. split; [done|by repeat constructor].
  - by apply cut_all_spec.
Qed.

(** No piece is longer than the bound, unless a single character is. *)
Lemma utf8_chunks_bound s max_bytes piece :
  piece ∈ utf8_chunks s max_bytes →
  (String.length piece ≤ max_bytes)%nat ∨ (∃ rest, String.length piece ≤ first_char_end rest)%nat.
Proof.
  unfold utf8_chunks. destruct (Nat.leb_spec (String.length s) max_bytes) as [Hle|_].
  { intros ->%list_elem_of_singleton. by left. }
  generalize (String.length s) as fuel. intros fuel. revert s.
  induction fuel as [|fuel IH]; intros s; cbn [cut_all]; [by intros ?%not_elem_of_nil|].
  destruct s as [|c s]; [by intros ?%not_elem_of_nil|].
  pose proof (split_at_length (cut max_bytes (String c s)) (String c s)) as Hlen.
  destruct (split_at _ _) as [p rest]. intros [->|Hin]%elem_of_cons; [|by eapply IH].
  cbn [fst] in Hlen. unfold cut in Hlen.
  pose proof (boundary_below_le (String c s) (Nat.min max_bytes (String.length (String c s)))) as Hb.
  destruct (boundary_below _ _) as [|k]; [right; exists (String c s); lia|left; lia].
Qed.

(** ** Lines *)

Lemma take_line_shrinks s line rest :
  take_line s = Some (line, rest) → (String.length rest < String.length s)%nat.
Proof.
  revert line. induction s as [|c s IH]; intros line; cbn [take_line]; [done|].
  case_match; [by intros [= _ <-]; cbn; lia|].
  destruct (take_line s) as [[l r]|]; [|done]. intros [= _ <-]. specialize (IH l eq_refl). cbn. lia.
Qed.

(** ** What an invocation leaves on the stream *)

Section runs.
Context {codec : Codec} {crypto : Crypto} {ser : Serializer} {vault : Vault} {wire : MeshWire}.
Context {wire_chunk : Wire OllamaChatChunk.t}.
Implicit Types (request : ModelInvocationRequestV1.t) (run : Run.t) (pieces : list string).

(** The frames that carry the pieces, numbered from 0. *)
Definition deltas request pieces : list ModelInvocationFrameV1.t :=
  imap (λ i piece, delta_frame request (Z.of_nat i) piece) pieces.

(** The bytes written so far are the frames of the pieces. *)
Definition framed request run pieces : Prop :=
  ∃ bytes, try_map write_model_frame (deltas request pieces) = Ok bytes ∧
    Run.written run = concat_bytes bytes ∧ Run.sequence run = zlen pieces.

(** ... and together they are the text produced so far. *)
Definition reflects request run : Prop :=
  ∃ pieces, framed request run pieces ∧ Run.output run = concat_bytes pieces ∧
    Forall (λ p, p ≠ "") pieces ∧ len (Run.output run) ≤ MAX_MODEL_OUTPUT_BYTES.

Lemma reflects_start request : reflects request (Run.mk "" "" 0).
Proof.
  exists []. split_and!; [by exists []|done|constructor|]. unfold len, MAX_MODEL_OUTPUT_BYTES. cbn. lia.
Qed.

Lemma concat_bytes_app l k : concat_bytes (l ++ k) = concat_bytes l +:+ concat_bytes k.
Proof.
  induction l as [|x l IH]; cbn; [done|]. fold (concat_bytes (l ++ k)) (concat_bytes l).
  by rewrite IH, append_assoc.
Qed.

Lemma pieces_length pieces : Forall (λ p, p ≠ "") pieces → zlen pieces ≤ len (concat_bytes pieces).
Proof.
  induction 1 as [|p pieces Hp _ IH]; [done|]. cbn. fold (concat_bytes pieces). rewrite len_app.
  unfold zlen in *. cbn [length]. destruct p; [done|]. unfold len at 1. cbn [String.length]. lia.
Qed.

Lemma deltas_snoc request pieces piece :
  deltas request (pieces ++ [piece]) = deltas request pieces ++ [delta_frame request (zlen pieces) piece].
Proof. unfold deltas. rewrite imap_app. cbn. by rewrite Nat.add_0_r. Qed.

Lemma emit_framed request run run' pieces piece :
  framed request run pieces → emit (delta_frame request (Run.sequence run) piece) run = Ok run' →
  framed request (Run.mk (Run.written run') (Run.output run') (zlen pieces + 1)) (pieces ++ [piece]) ∧
  Run.output run' = Run.output run ∧ Run.sequence run' = Run.sequence run.
Proof.
  intros (bytes & Hb & Hw & Hs) H. unfold emit in H. inv_bind H. apply map_err_ok in Ha. injection H as <-.
  cbn. split_and!; [|done..]. exists (bytes ++ [a]). rewrite deltas_snoc, try_map_app, Hb, <-Hs. cbn [try_map].
  split_and!.
  - cbn [mbind result_bind]. by rewrite Ha.
  - rewrite concat_bytes_app. cbn. by rewrite append_empty, Hw.
  - cbn [Run.sequence]. unfold zlen in *. rewrite length_app. cbn [length]. lia.
Qed.

Lemma emit_deltas_framed request pieces more run run' :
  framed request run pieces → zlen (pieces ++ more) ≤ u64_max →
  emit_deltas request more run = (Ok (), run') →
  framed request run' (pieces ++ more) ∧ Run.output run' = Run.output run.
Proof.
  revert pieces run. induction more as [|piece more IH]; intros pieces run Hf Hlen H; cbn [emit_deltas] in H.
  - injection H as <-. by rewrite app_nil_r.
  - destruct (emit _ run) as [run1|] eqn:He; [|done].
    destruct (emit_framed _ _ _ _ _ Hf He) as (Hf' & Ho & Hs).
    rewrite (cons_middle piece pieces more), app_assoc in Hlen |- *. destruct Hf as (? & ? & ? & Hseq).
    assert (sat_add (Run.sequence run1) 1 = zlen pieces + 1) as Hsat.
    { rewrite Hs, Hseq. unfold sat_add, zlen in *. rewrite !length_app in Hlen. cbn [length] in Hlen. lia. }
    rewrite Hsat in H. destruct (IH _ _ Hf' Hlen H) as [Hf'' Ho'].
    split; [exact Hf''|]. rewrite Ho'. exact Ho.
Qed.

Lemma process_line_reflects request line run completion run' :
  reflects request run → process_ollama_line request line run = (Ok completion, run') → reflects request run'.
Proof.
  intros (pieces & Hf & Ho & Hn & Hmax) H. unfold process_ollama_line in H.
  destruct (map_err _ _) as [chunk|]; [|done].
  destruct (is_some _); [done|]. destruct (is_some_and _ _); [done|].
  set (content := default "" (OllamaChatChunk.message chunk)) in *.
  destruct (is_empty content) eqn:Hempty; [injection H as _ <-; by exists pieces|].
  destruct (Z.ltb_spec MAX_MODEL_OUTPUT_BYTES (sat_add (len (Run.output run)) (len content))) as [|Hle]; [done|].
  destruct (emit_deltas _ _ _) as [[[]|] run1] eqn:He; [|done]. injection H as _ <-.
  assert (content ≠ "") as Hc by (by intros Heq; rewrite Heq in Hempty).
  destruct (utf8_chunks_spec content (16 * 1024) Hc) as [Hcut Hcn].
  set (more := utf8_chunks content (16 * 1024)) in *. clearbody more.
  assert (Forall (λ p, p ≠ "") (pieces ++ more)) as Hall by by apply Forall_app.
  assert (len (Run.output run +:+ content) ≤ MAX_MODEL_OUTPUT_BYTES) as Hlen.
  { rewrite len_app. pose proof (len_nonneg (Run.output run)). pose proof (len_nonneg content).
    unfold sat_add, MAX_MODEL_OUTPUT_BYTES, u64_max in *. lia. }
  assert (Run.output run +:+ content = concat_bytes (pieces ++ more)) as Hout
    by (by rewrite concat_bytes_app, Hcut, Ho).
  assert (zlen (pieces ++ more) ≤ u64_max) as Hcount.
  { apply pieces_length in Hall. rewrite <-Hout in Hall. unfold MAX_MODEL_OUTPUT_BYTES, u64_max in *. lia. }
  set (run0 := Run.mk _ _ _) in He.
  assert (framed request run0 pieces) as Hf0 by exact Hf.
  destruct (emit_deltas_framed _ _ _ _ _ Hf0 Hcount He) as [Hf' Ho'].
  cbn in Ho'. exists (pieces ++ more). rewrite Ho'. by split_and!.
Qed.

Lemma process_lines_reflects fuel request buffered run r run' :
  reflects request run → process_lines fuel request buffered run = (Ok r, run') → reflects request run'.
Proof.
  revert buffered run. induction fuel as [|fuel IH]; intros buffered run Hr; cbn [process_lines].
  - by intros [= _ <-].
  - destruct (take_line buffered) as [[line rest]|]; [|by intros [= _ <-]].
    destruct (all_whitespace line); [by apply IH|].
    destruct (process_ollama_line request line run) as [[[completion|]|] run1] eqn:E; [..|done].
    + intros [= _ <-]. by eapply process_line_reflects.
    + apply IH. by eapply process_line_reflects.
Qed.

Lemma process_body_reflects request body buffered run r run' :
  reflects request run → process_body request body buffered run = (Ok r, run') → reflects request run'.
Proof.
  revert buffered run. induction body as [|[piece|] body IH]; intros buffered run Hr; cbn [process_body]; [..|done].
  - by intros [= _ <-].
  - destruct (_ <? _); [done|].
    destruct (process_lines _ _ _ _) as [[[[completion|] rest]|] run1] eqn:E; [..|done].
    + intros [= _ <-]. by eapply process_lines_reflects.
    + apply IH. by eapply process_lines_reflects.
Qed.

(** An execution that succeeds produced some text, and left it on the stream frame by frame. *)
Lemma execution_reflects request body run completion run' :
  reflects request run → execution request body run = (Ok completion, run') →
  reflects request run' ∧ Run.output run' ≠ "".
Proof.
  intros Hr H. unfold execution in H.
  assert (∀ (r : option OllamaCompletion.t) run1 run2 c, reflects request run1 →
    match r with
    | Some completion => if is_empty (Run.output run1)
        then (Err (Complaint "Ollama completed without user-visible answer text"), run1) else (Ok completion, run1)
    | None => (Err (Complaint "Ollama stream ended without a terminal frame"), run1)
    end = (Ok (E := GatewayError) c, run2) → reflects request run2 ∧ Run.output run2 ≠ "") as Hfinish.
  { intros [c|] run1 run2 c' Hr1; [|done]. destruct (is_empty (Run.output run1)) eqn:He; [done|].
    intros [= _ <-]. split; [done|]. by intros Heq; rewrite Heq in He. }
  destruct (process_body _ _ _ _) as [[[[c|] rest]|] run1] eqn:E; [..|done];
    apply process_body_reflects in E; try done.
  - by apply (Hfinish (Some c) run1 run' completion).
  - destruct (all_whitespace rest); [by apply (Hfinish None run1 run' completion)|].
    destruct (process_ollama_line request rest run1) as [[c|] run2] eqn:El; [|done].
    apply process_line_reflects in El; [|done]. by apply (Hfinish c run2 run' completion).
Qed.
End runs.
