(* ===== verification/Packing.v ===== *)
(** * A reference serialization

    Contracts as nested arrays: a serializer under which every value comes back, for the
    concrete instances the examples evaluate.  serde's own field names and formats are the
    parameter [Wire] of the development. *)

From S2P Require Import Prelude.
From S2P Require Import Codec.
From S2P Require Import Contracts.
From S2P Require Import Wire.
From S2P Require Import Signing.
From S2P Require Import Storage.
From S2P Require Import Mesh.
From S2P Require Import MeshFacts.
From S2P Require Import ModelWorker.

Class Packed (A : Type) := mkPacked {
  pack : A → Value;
  unpack : Value → option A;
  unpack_pack x : unpack (pack x) = Some x
}.

#[export] Instance packed_Z : Packed Z.
Proof. refine (mkPacked _ VInt (λ v, match v with VInt n => Some n | _ => None end) _). done. Defined.
#[export] Instance packed_string : Packed string.
Proof. refine (mkPacked _ VString (λ v, match v with VString s => Some s | _ => None end) _). done. Defined.
#[export] Instance packed_bool : Packed bool.
Proof. refine (mkPacked _ VBool (λ v, match v with VBool b => Some b | _ => None end) _). done. Defined.
#[export] Instance packed_option `{Packed A} : Packed (option A).
Proof.
  refine (mkPacked _ (λ o, match o with Some a => VArray [pack a] | None => VNull end)
    (λ v, match v with VNull => Some None | VArray [v] => Some <$> unpack v | _ => None end) _).
  intros [a|]; cbn; [by rewrite unpack_pack|done].
Defined.
#[export] Instance packed_prod `{Packed A, Packed B} : Packed (A * B).
Proof.
  refine (mkPacked _ (λ p, VArray [pack p.1; pack p.2])
    (λ v, match v with
          | VArray [v; w] => match unpack v, unpack w with Some a, Some b => Some (a, b) | _, _ => None end
          | _ => None
          end) _).
  intros [a b]. cbn. by rewrite !unpack_pack.
Defined.
#[export] Instance packed_list `{Packed A} : Packed (list A).
Proof.
  refine (mkPacked _ (λ l, VArray (pack <$> l)) (λ v, match v with VArray l => mapM unpack l | _ => None end) _).
  intros l. apply Reference.mapM_map_Some. apply Forall_true. intros x. apply unpack_pack.
Defined.

(** A type whose values are rebuilt from what is packed. *)
Definition packed_via `{Packed B} {A} (f : A → B) (g : B → A) (Hgf : ∀ x, g (f x) = x) : Packed A.
Proof.
  refine (mkPacked _ (λ x, pack (f x)) (λ v, g <$> unpack v) _).
  intros x. rewrite unpack_pack. cbn. by rewrite Hgf.
Defined.
(** A finite type by the position of its value. *)
Definition packed_finite `{Finite A} : Packed A.
Proof.
  refine (mkPacked _ (λ x, VInt (Zpos (encode x))) (λ v, match v with VInt (Zpos p) => decode p | _ => None end) _).
  intros x. apply decode_encode.
Defined.

(** The contract travels as JSON without loss. *)
Definition packed_wire {A} (p : Packed A) : Wire A := {| to_value := pack; from_value := unpack |}.
Lemma packed_lossless {codec : Codec} {A} (p : Packed A) :
  (∀ v, json_stable v) → Lossless A (w := packed_wire p).
Proof.
  intros Hjson x. unfold decode_json, encode_json. rewrite Hjson. cbn. by rewrite unpack_pack.
Qed.

(** A serializer of the contracts listed. *)
Definition table {A} (index : A → Z) (l : list A) : Wire A := {|
  to_value x := VInt (index x);
  from_value v := match v with VInt i => l !! Z.to_nat i | _ => None end
|}.
Definition unsent {A} : Wire A := table (λ _, 0) [].

(** ** Contracts *)

#[export] Instance finite_JobState : Finite JobState.t.
Proof. refine {| enum := [JobState.Proposed; JobState.Admitted_; JobState.Prepared; JobState.Running; JobState.Succeeded; JobState.Failed; JobState.Ambiguous; JobState.Cancelled; JobState.Fenced] |}; [by apply (bool_decide_unpack _); vm_compute|intros []; by apply (bool_decide_unpack _); vm_compute]. Defined.
#[export] Instance packed_JobState : Packed JobState.t := packed_finite.
#[export] Instance finite_ModelInvocationFrameKind : Finite ModelInvocationFrameKind.t.
Proof. refine {| enum := [ModelInvocationFrameKind.Delta; ModelInvocationFrameKind.Complete; ModelInvocationFrameKind.Error] |}; [by apply (bool_decide_unpack _); vm_compute|intros []; by apply (bool_decide_unpack _); vm_compute]. Defined.
#[export] Instance packed_ModelInvocationFrameKind : Packed ModelInvocationFrameKind.t := packed_finite.
#[export] Instance finite_StorageClass : Finite StorageClass.t.
Proof. refine {| enum := [StorageClass.Cache; StorageClass.Scratch; StorageClass.Protected] |}; [by apply (bool_decide_unpack _); vm_compute|intros []; by apply (bool_decide_unpack _); vm_compute]. Defined.
#[export] Instance packed_StorageClass : Packed StorageClass.t := packed_finite.
#[export] Instance finite_ArtifactTransferOperation : Finite ArtifactTransferOperation.t.
Proof. refine {| enum := [ArtifactTransferOperation.Put; ArtifactTransferOperation.Get] |}; [by apply (bool_decide_unpack _); vm_compute|intros []; by apply (bool_decide_unpack _); vm_compute]. Defined.
#[export] Instance packed_ArtifactTransferOperation : Packed ArtifactTransferOperation.t := packed_finite.
#[export] Instance finite_ArtifactTransferActionV2 : Finite ArtifactTransferActionV2.t.
Proof. refine {| enum := [ArtifactTransferActionV2.Begin; ArtifactTransferActionV2.Status; ArtifactTransferActionV2.PutChunk; ArtifactTransferActionV2.Commit; ArtifactTransferActionV2.GetChunk; ArtifactTransferActionV2.Head] |}; [by apply (bool_decide_unpack _); vm_compute|intros []; by apply (bool_decide_unpack _); vm_compute]. Defined.
#[export] Instance packed_ArtifactTransferActionV2 : Packed ArtifactTransferActionV2.t := packed_finite.
#[export] Instance packed_ModelUsageV1 : Packed ModelUsageV1.t.
Proof.
  refine (packed_via (λ r : ModelUsageV1.t, let (x0, x1) := r in
      (x0, x1))
    (λ '(x0, x1), ModelUsageV1.mk x0 x1) _). by intros [].
Defined.
#[export] Instance packed_ModelExecutionReceiptV1 : Packed ModelExecutionReceiptV1.t.
Proof.
  refine (packed_via (λ r : ModelExecutionReceiptV1.t, let (x0, x1, x2, x3, x4, x5, x6, x7, x8, x9, x10, x11, x12, x13) := r in
      (x0, x1, x2, x3, x4, x5, x6, x7, x8, x9, x10, x11, x12, x13))
    (λ '(x0, x1, x2, x3, x4, x5, x6, x7, x8, x9, x10, x11, x12, x13), ModelExecutionReceiptV1.mk x0 x1 x2 x3 x4 x5 x6 x7 x8 x9 x10 x11 x12 x13) _). by intros [].
Defined.
#[export] Instance packed_ModelInvocationFrameV1 : Packed ModelInvocationFrameV1.t.
Proof.
  refine (packed_via (λ r : ModelInvocationFrameV1.t, let (x0, x1, x2, x3, x4, x5, x6, x7) := r in
      (x0, x1, x2, x3, x4, x5, x6, x7))
    (λ '(x0, x1, x2, x3, x4, x5, x6, x7), ModelInvocationFrameV1.mk x0 x1 x2 x3 x4 x5 x6 x7) _). by intros [].
Defined.
#[export] Instance packed_OllamaChatChunk : Packed OllamaChatChunk.t.
Proof.
  refine (packed_via (λ r : OllamaChatChunk.t, let (x0, x1, x2, x3, x4, x5, x6) := r in
      (x0, x1, x2, x3, x4, x5, x6))
    (λ '(x0, x1, x2, x3, x4, x5, x6), OllamaChatChunk.mk x0 x1 x2 x3 x4 x5 x6) _). by intros [].
Defined.
#[export] Instance packed_RemoteDesktopFrameV1 : Packed RemoteDesktopFrameV1.t.
Proof.
  refine (packed_via (λ r : RemoteDesktopFrameV1.t, let (x0, x1, x2, x3, x4, x5, x6) := r in
      (x0, x1, x2, x3, x4, x5, x6))
    (λ '(x0, x1, x2, x3, x4, x5, x6), RemoteDesktopFrameV1.mk x0 x1 x2 x3 x4 x5 x6) _). by intros [].
Defined.
#[export] Instance packed_RemoteDesktopResponseV1 : Packed RemoteDesktopResponseV1.t.
Proof.
  refine (packed_via (λ r : RemoteDesktopResponseV1.t, let (x0, x1, x2, x3, x4, x5) := r in
      (x0, x1, x2, x3, x4, x5))
    (λ '(x0, x1, x2, x3, x4, x5), RemoteDesktopResponseV1.mk x0 x1 x2 x3 x4 x5) _). by intros [].
Defined.
#[export] Instance packed_StorageLeaseV1 : Packed StorageLeaseV1.t.
Proof.
  refine (packed_via (λ r : StorageLeaseV1.t, let (x0, x1, x2, x3, x4, x5, x6, x7, x8, x9, x10, x11) := r in
      (x0, x1, x2, x3, x4, x5, x6, x7, x8, x9, x10, x11))
    (λ '(x0, x1, x2, x3, x4, x5, x6, x7, x8, x9, x10, x11), StorageLeaseV1.mk x0 x1 x2 x3 x4 x5 x6 x7 x8 x9 x10 x11) _). by intros [].
Defined.
#[export] Instance packed_ArtifactTransferRequestV2 : Packed ArtifactTransferRequestV2.t.
Proof.
  refine (packed_via (λ r : ArtifactTransferRequestV2.t, let (x0, x1, x2, x3, x4, x5, x6, x7, x8, x9, x10) := r in
      (x0, x1, x2, x3, x4, x5, x6, x7, x8, x9, x10))
    (λ '(x0, x1, x2, x3, x4, x5, x6, x7, x8, x9, x10), ArtifactTransferRequestV2.mk x0 x1 x2 x3 x4 x5 x6 x7 x8 x9 x10) _). by intros [].
Defined.
#[export] Instance packed_ArtifactRefV1 : Packed ArtifactRefV1.t.
Proof.
  refine (packed_via (λ r : ArtifactRefV1.t, let (x0, x1, x2, x3, x4, x5) := r in
      (x0, x1, x2, x3, x4, x5))
    (λ '(x0, x1, x2, x3, x4, x5), ArtifactRefV1.mk x0 x1 x2 x3 x4 x5) _). by intros [].
Defined.
#[export] Instance packed_ArtifactTransferProgressV1 : Packed ArtifactTransferProgressV1.t.
Proof.
  refine (packed_via (λ r : ArtifactTransferProgressV1.t, let (x0, x1, x2, x3, x4, x5, x6, x7, x8) := r in
      (x0, x1, x2, x3, x4, x5, x6, x7, x8))
    (λ '(x0, x1, x2, x3, x4, x5, x6, x7, x8), ArtifactTransferProgressV1.mk x0 x1 x2 x3 x4 x5 x6 x7 x8) _). by intros [].
Defined.
#[export] Instance packed_ArtifactReplicaReceiptV1 : Packed ArtifactReplicaReceiptV1.t.
Proof.
  refine (packed_via (λ r : ArtifactReplicaReceiptV1.t, let (x0, x1, x2, x3, x4, x5, x6, x7, x8, x9, x10, x11, x12) := r in
      (x0, x1, x2, x3, x4, x5, x6, x7, x8, x9, x10, x11, x12))
    (λ '(x0, x1, x2, x3, x4, x5, x6, x7, x8, x9, x10, x11, x12), ArtifactReplicaReceiptV1.mk x0 x1 x2 x3 x4 x5 x6 x7 x8 x9 x10 x11 x12) _). by intros [].
Defined.
#[export] Instance packed_ArtifactTransferResponseV2 : Packed ArtifactTransferResponseV2.t.
Proof.
  refine (packed_via (λ r : ArtifactTransferResponseV2.t, let (x0, x1, x2, x3, x4, x5, x6, x7, x8, x9) := r in
      (x0, x1, x2, x3, x4, x5, x6, x7, x8, x9))
    (λ '(x0, x1, x2, x3, x4, x5, x6, x7, x8, x9), ArtifactTransferResponseV2.mk x0 x1 x2 x3 x4 x5 x6 x7 x8 x9) _). by intros [].
Defined.

Definition packed_mesh_wire : MeshWire := {|
  wire_control_request := unsent;
  wire_control_response := unsent;
  wire_artifact_request := packed_wire packed_ArtifactTransferRequestV2;
  wire_artifact_response := packed_wire packed_ArtifactTransferResponseV2;
  wire_model_request := unsent;
  wire_model_frame := packed_wire packed_ModelInvocationFrameV1;
  wire_desktop_request := unsent;
  wire_desktop_response := packed_wire packed_RemoteDesktopResponseV1
|}.

(** ** A frame over a concrete stream *)

Module MeshWitness.
Import ReferenceCrypto.
#[local] Existing Instance packed_mesh_wire.

Definition lease : RemoteDesktopLeaseV1.t :=
  RemoteDesktopLeaseV1.mk "rampage.remote-desktop-lease.v1" 3 4 7 "controller" RemoteDesktopModeV1.View 800 600 5
    0 (minutes 5) "nonce" 1 "".
Definition request : RemoteDesktopRequestV1.t :=
  RemoteDesktopRequestV1.mk RemoteDesktopRequestV1.SCHEMA 9 lease RemoteDesktopActionV1.Frame None [].
Definition frame : RemoteDesktopFrameV1.t :=
  RemoteDesktopFrameV1.mk 1 0 640 480 "image/jpeg" 4 (CasStore.sha256_digest "jpeg").
Definition response : RemoteDesktopResponseV1.t :=
  RemoteDesktopResponseV1.mk RemoteDesktopResponseV1.SCHEMA 9 200 (Some frame) 0 None.
Definition link : Link :=
  Some (λ _, match write_header response with Ok bytes => Some (bytes +:+ "jpeg") | Err _ => None end).

Lemma frame_received : remote_desktop_request link request = Ok (response, "jpeg").
Proof. vm_compute. reflexivity. Qed.
Lemma remote_desktop_frame_sound_witness :
  CasStore.sha256_digest "jpeg" = RemoteDesktopFrameV1.payload_digest frame.
Proof. apply (remote_desktop_frame_sound link request response "jpeg"). exact frame_received. Defined.
End MeshWitness.
