(* ===== verification/Diagnostics.v ===== *)
(** * The fabric's diagnostic report (crates/rampage-controller/src/main.rs)

    [build_diagnostic_report]: the findings over the enrolled nodes, the live offers, the
    dividend history, the recent events and the protected replicas, their order, the health
    score, and the digest that identifies the evidence.  A [u8] count wraps, as the casts
    of the source do. *)

From S2P Require Import Prelude.
From S2P Require Import Codec.
From S2P Require Import Text.
From S2P Require Import Float.
From S2P Require Import Contracts.
From S2P Require Import Wire.
From S2P Require Import Storage.
From S2P Require Import Ledger.
From S2P Require Import Economics.
From stdpp Require Import pretty.
Import Text.
#[local] Open Scope Z_scope.

Module DiagnosticSeverity.
Inductive t : Set := Info | Warning | Critical.
#[global] Instance eq_dec : EqDecision t.
Proof. solve_decision. Defined.
(** The derived order. *)
Definition level (self : t) : Z := match self with Info => 0 | Warning => 1 | Critical => 2 end.
Definition name (self : t) : string :=
  match self with Info => "info" | Warning => "warning" | Critical => "critical" end.
End DiagnosticSeverity.

Module DiagnosticProposal.
Record t := mk {
  action : string; risk : string; auto_eligible : bool; threshold : string;
  required_gates : list string; rollback : string
}.
#[global] Instance eq_dec : EqDecision t.
Proof. solve_decision. Defined.
Definition value (self : t) : Value :=
  VObject [("action", VString (action self)); ("auto_eligible", VBool (auto_eligible self));
           ("required_gates", VArray (VString <$> required_gates self)); ("risk", VString (risk self));
           ("rollback", VString (rollback self)); ("threshold", VString (threshold self))].
End DiagnosticProposal.

Module DiagnosticFinding.
Record t := mk {
  severity : DiagnosticSeverity.t; code : string; scope : string; evidence : string;
  proposal : DiagnosticProposal.t
}.
#[global] Instance eq_dec : EqDecision t.
Proof. solve_decision. Defined.
Definition value (self : t) : Value :=
  VObject [("code", VString (code self)); ("evidence", VString (evidence self));
           ("proposal", DiagnosticProposal.value (proposal self)); ("scope", VString (scope self));
           ("severity", VString (DiagnosticSeverity.name (severity self)))].
End DiagnosticFinding.

Module DiagnosticMetrics.
Record t := mk {
  enrolled_nodes : Z; live_offers : Z; expired_offers : Z; active_assignments : Z;
  protected_artifacts : Z; under_replicated_protected_artifacts : Z; recent_denials : Z;
  recent_failed_receipts : Z; dividend_history_entries : Z;
  latest_dividend_age_seconds : option Z; available_resources : gmap string Z
}.
(** The entries of a [BTreeMap<&str, u64>], in the order of its keys. *)
Definition resource_entries (m : gmap string Z) : list (string * Value) :=
  (λ key, (key, VInt (default 0 (m !! key)))) <$> merge_sort String.le (map_to_list m).*1.
Definition value (self : t) : Value :=
  VObject [("active_assignments", VInt (active_assignments self));
           ("available_resources", VObject (resource_entries (available_resources self)));
           ("dividend_history_entries", VInt (dividend_history_entries self));
           ("enrolled_nodes", VInt (enrolled_nodes self)); ("expired_offers", VInt (expired_offers self));
           ("latest_dividend_age_seconds",
            match latest_dividend_age_seconds self with Some age => VInt age | None => VNull end);
           ("live_offers", VInt (live_offers self)); ("protected_artifacts", VInt (protected_artifacts self));
           ("recent_denials", VInt (recent_denials self));
           ("recent_failed_receipts", VInt (recent_failed_receipts self));
           ("under_replicated_protected_artifacts", VInt (under_replicated_protected_artifacts self))].
End DiagnosticMetrics.

(** The one value of [DiagnosticAutonomy] the report ever carries. *)
Definition autonomy_value : Value :=
  VObject [("authority_expansion", VString "automatically_denied_outside_owner_envelope");
           ("eligible_within_envelope", VArray [VString "r0_configuration"; VString "r1_allowlisted_source"]);
           ("mode", VString "deterministic_thresholded_governor");
           ("per_change_approval_required", VBool false);
           ("promotion_requirements",
            VArray (VString <$> ["schema_policy_static"; "deterministic_replay"; "quality_reliability_cost";
                                 "sealed_holdout"; "adversarial_security"; "independent_replication";
                                 "shadow"; "canary_rollback"]))].

Module FabricDiagnosticReport.
Record t := mk {
  schema : string; generated_at : DateTime; status : string; health_score : Z;
  evidence_digest : string; metrics : DiagnosticMetrics.t; findings : list DiagnosticFinding.t
}.
Definition value {render : Render} (self : t) : Value :=
  VObject [("autonomy", autonomy_value); ("evidence_digest", VString (evidence_digest self));
           ("findings", VArray (DiagnosticFinding.value <$> findings self));
           ("generated_at", VString (datetime_to_json (generated_at self)));
           ("health_score", VInt (health_score self)); ("metrics", DiagnosticMetrics.value (metrics self));
           ("schema", VString (schema self)); ("status", VString (status self))].
End FabricDiagnosticReport.

Definition resource_class_name (class : ResourceClass.t) : string :=
  match class with
  | ResourceClass.CpuCompute => "cpu_compute"
  | ResourceClass.GpuCompute => "gpu_compute"
  | ResourceClass.NpuCompute => "npu_compute"
  | ResourceClass.GpuMemory => "gpu_memory"
  | ResourceClass.RamWorkingSet => "ram_working_set"
  | ResourceClass.RamCache => "ram_cache"
  | ResourceClass.StorageCache => "storage_cache"
  | ResourceClass.StorageScratch => "storage_scratch"
  | ResourceClass.ProtectedStore => "protected_store"
  | ResourceClass.NetworkFetch => "network_fetch"
  | ResourceClass.NetworkRelay => "network_relay"
  | ResourceClass.Toolchain => "toolchain"
  | ResourceClass.Runtime => "runtime"
  | ResourceClass.Codec_ => "codec"
  | ResourceClass.LicensedService => "licensed_service"
  end.

Definition diagnostic_finding (severity : DiagnosticSeverity.t) (code scope evidence action risk : string)
    (auto_eligible : bool) (threshold : string) : DiagnosticFinding.t :=
  DiagnosticFinding.mk severity code scope evidence
    (DiagnosticProposal.mk action risk auto_eligible threshold
       ["deterministic_replay"; "adversarial_security"; "shadow"; "canary_rollback"]
       "automatic_on_threshold_breach").

(** [if b { findings.push(finding) }]. *)
Definition push_if (b : bool) (finding : DiagnosticFinding.t) : list DiagnosticFinding.t :=
  if b then [finding] else [].

Section report.
Context {codec : Codec} {render : Render} {order : HashOrder} {wire_result : Wire FabricBenchmarkResultV1.t}.
Implicit Types (offer : ResourceOfferV1.t) (now : DateTime).

(** ** Findings about one offer *)

Definition thermal (a : AvailabilityV1.t) : Z := AvailabilityV1.thermal_headroom_percent a.
Definition low_battery (a : AvailabilityV1.t) : bool :=
  negb (AvailabilityV1.on_ac_power a)
  && is_some_and (λ battery, battery <? 40) (AvailabilityV1.battery_percent a).

Definition route_findings offer (scope : string) : list DiagnosticFinding.t :=
  match ResourceOfferV1.mesh_endpoint offer with
  | None =>
      [diagnostic_finding DiagnosticSeverity.Info "LOOPBACK_POLLING_ONLY" scope
         "The contributor uses the token-protected loopback polling lane and cannot receive mesh-only model or artifact traffic."
         "refresh_signed_mesh_endpoint" "r0_configuration" false
         "local polling jobs remain eligible; mesh-only operations still require a signed endpoint"]
  | Some endpoint =>
      push_if (no_elems (MeshEndpointRecordV1.direct_addresses endpoint)
               && no_elems (MeshEndpointRecordV1.relay_urls endpoint))
        (diagnostic_finding DiagnosticSeverity.Critical "AUTHENTICATED_ROUTE_EMPTY" scope
           "The signed mesh endpoint exposes neither a direct address nor an owner-controlled relay."
           "reprobe_nat_and_owner_relay" "r1_allowlisted_source" true
           "canary route must authenticate the enrolled endpoint before use")
  end.

Definition link_findings offer (scope : string) : list DiagnosticFinding.t :=
  match ResourceOfferV1.link_benchmark offer with
  | None =>
      [diagnostic_finding DiagnosticSeverity.Info "LINK_QUALIFICATION_MISSING" scope
         "No fresh bounded link benchmark is attached; latency-sensitive placement stays conservative."
         "run_bounded_link_probe" "r0_configuration" true
         "probe is capped at the protocol transfer limit and grants no job authority"]
  | Some link =>
      let slower := Z.min (LinkBenchmarkV1.uplink_bps link) (LinkBenchmarkV1.downlink_bps link) in
      push_if (75000 <? LinkBenchmarkV1.rtt_micros_p50 link)
        (diagnostic_finding DiagnosticSeverity.Warning "HIGH_LINK_LATENCY" scope
           ("Measured median RTT is " +:+ F64.to_fixed 1 (ratio (LinkBenchmarkV1.rtt_micros_p50 link) 1000)
              +:+ " ms; interactive speed-lane placement is suppressed.")
           "prefer_throughput_or_whole_workload_lane" "r0_configuration" true
           "placement change must improve measured completion time in shadow and canary")
      ++ push_if (slower <? 25000000)
           (diagnostic_finding DiagnosticSeverity.Warning "LOW_LINK_BANDWIDTH" scope
              ("The slower measured direction is " +:+ F64.to_fixed 1 (ratio slower 1000000)
                 +:+ " Mbps; transfer-heavy shards are suppressed.")
              "prefer_data_local_or_low_transfer_work" "r0_configuration" true
              "placement change must reduce measured bytes per successful result")
  end.

Definition offer_findings offer : list DiagnosticFinding.t :=
  let scope := uuid_to_string (ResourceOfferV1.node_id offer) in
  let availability := ResourceOfferV1.availability offer in
  push_if (no_elems (ResourceOfferV1.workload_capabilities offer))
    (diagnostic_finding DiagnosticSeverity.Warning "MISSING_WORKLOAD_CAPABILITY_CONTRACT" scope
       "The live offer predates operation-exact workload capability discovery."
       "request_offer_refresh" "r0_configuration" true
       "jobs remain fail-closed to the legacy adapter/resource contract")
  ++ push_if (thermal availability <? 35)
       (diagnostic_finding DiagnosticSeverity.Warning "THERMAL_HEADROOM_CONSTRAINED" scope
          ("Thermal headroom is " +:+ pretty (thermal availability)
             +:+ "%, below the autonomous scheduling threshold of 35%.")
          "reduce_or_preempt_contributor_load" "r0_configuration" true
          "preempt restart-tolerant work; never increase the owner thermal envelope")
  ++ push_if (low_battery availability)
       (diagnostic_finding DiagnosticSeverity.Warning "BATTERY_RESERVE_CONSTRAINED" scope
          ("Battery is " +:+ pretty (default 0 (AvailabilityV1.battery_percent availability))
             +:+ "%, below the autonomous donation floor of 40%.")
          "preempt_mobile_contribution" "r0_configuration" true
          "resume only after a fresh signed offer proves the battery floor")
  ++ route_findings offer scope
  ++ link_findings offer scope
  ++ push_if (bool_decide ("rampage.ollama.v1" ∈ ResourceOfferV1.adapters offer)
              && forallb (λ runtime, no_elems (ModelRuntimeOfferV1.installed_models runtime))
                   (ResourceOfferV1.model_runtimes offer))
       (diagnostic_finding DiagnosticSeverity.Warning "LOCAL_MODEL_INVENTORY_EMPTY" scope
          "Ollama is advertised but no exact locally installed model is executable."
          "refresh_local_model_inventory" "r0_configuration" true
          "cloud aliases and digestless models remain excluded")
  ++ push_if (AvailabilityV1.owner_idle availability
              && existsb (λ resource, 0 <? ResourceQuantityV1.available resource)
                   (ResourceOfferV1.resources offer))
       (diagnostic_finding DiagnosticSeverity.Info "IDLE_CAPACITY_AVAILABLE" scope
          "The contributor reports idle capacity that can accept bounded preemptible work."
          "prefer_idle_capacity" "r0_configuration" true
          "owner activity, battery, thermal, lease, and deadline gates remain authoritative").

(** ** Findings about the fabric *)

Definition stop_finding : DiagnosticFinding.t :=
  diagnostic_finding DiagnosticSeverity.Critical "OWNER_STOP_ACTIVE" "fabric"
    "The durable owner stop latch is active; no new work can be admitted."
    "retain_stop_and_surface_state" "r0_configuration" false
    "owner stop is never overridden by autonomy".
Definition no_nodes_finding : DiagnosticFinding.t :=
  diagnostic_finding DiagnosticSeverity.Warning "NO_ENROLLED_CONTRIBUTORS" "fabric"
    "No contributor identity is enrolled, so the fabric has no remote capacity."
    "prepare_one_time_enrollment" "r0_configuration" true
    "invite remains short-lived and enrollment remains cryptographically bound".
Definition silent_node_finding (node_id : Uuid) : DiagnosticFinding.t :=
  diagnostic_finding DiagnosticSeverity.Warning "NODE_WITHOUT_LIVE_OFFER" (uuid_to_string node_id)
    "The enrolled contributor has no unexpired signed resource offer."
    "request_offer_refresh" "r0_configuration" true
    "refresh only; no work is issued until a verified offer arrives".

(** The age of the newest dividend in whole seconds. *)
Definition dividend_age now (dividends : list Ledger.LedgerEvent) : option Z :=
  (λ event, Z.max 0 (num_seconds (now - Ledger.recorded_at event))) <$> last dividends.

Definition invalid_dividend_finding (latest : Ledger.LedgerEvent) : DiagnosticFinding.t :=
  diagnostic_finding DiagnosticSeverity.Critical "COMPUTE_DIVIDEND_CONTRACT_INVALID"
    (Ledger.subject_id latest)
    "A persisted Compute Dividend failed its recomputed aggregate contract and cannot inform placement."
    "quarantine_invalid_dividend_projection" "r1_allowlisted_source" false
    "canonical receipt evidence is immutable; only the invalid projection may be excluded".

Definition dividend_findings now (live_nodes : gset Uuid) (live_count : Z)
    (dividends : list Ledger.LedgerEvent) : list DiagnosticFinding.t :=
  push_if ((2 <=? live_count) && no_elems dividends)
    (diagnostic_finding DiagnosticSeverity.Info "COMPUTE_DIVIDEND_MISSING" "fabric"
       "Multiple live machines are available, but no signed sustained fabric proof has been committed yet."
       "run_sustained_fabric_benchmark" "r0_configuration" true
       "benchmark grants remain bounded, node-pinned, concurrent, and restart tolerant")
  ++ match last dividends with
     | None => []
     | Some latest =>
         match from_value (A := FabricBenchmarkResultV1.t) (Ledger.payload latest) with
         | Some result =>
             if FabricBenchmarkResultV1.is_internally_consistent result
             then
               let dividend_nodes : gset Uuid :=
                 list_to_set (FabricBenchmarkNodeV1.node_id <$> FabricBenchmarkResultV1.nodes result) in
               if is_some_and (λ age, 24 * 60 * 60 <? age) (dividend_age now dividends)
               then [diagnostic_finding DiagnosticSeverity.Warning "COMPUTE_DIVIDEND_STALE" "fabric"
                       "The newest signed fabric proof is older than 24 hours, so break-even placement is fenced until remeasurement."
                       "run_sustained_fabric_benchmark" "r0_configuration" true
                       "new measurements never broaden workload authority"]
               else push_if (negb (bool_decide (dividend_nodes = live_nodes)))
                      (diagnostic_finding DiagnosticSeverity.Info "COMPUTE_DIVIDEND_TOPOLOGY_CHANGED" "fabric"
                         "The live machine set differs from the newest signed fabric proof; automatic distribution waits for a matching measurement."
                         "run_sustained_fabric_benchmark" "r0_configuration" true
                         "changed topology remains ineligible until every participant produces a signed receipt")
             else [invalid_dividend_finding latest]
         | None => [invalid_dividend_finding latest]
         end
     end.

(** Denials, and terminal failures, among the events of the last 15 minutes. *)
Definition is_recent now (event : Ledger.LedgerEvent) : bool := now - minutes 15 <=? Ledger.recorded_at event.
Definition is_denial (event : Ledger.LedgerEvent) : bool :=
  bool_decide (Ledger.event_type event ∈ ["job.blocked"; "mesh.request.denied"]).
Definition is_failed_receipt (event : Ledger.LedgerEvent) : bool :=
  (Ledger.event_type event == "job.receipted")
  && is_some_and (λ state, bool_decide (state ∈ ["failed"; "ambiguous"; "cancelled"; "fenced"]))
       (match field "state" (Ledger.payload event) with Some v => as_str v | None => None end).
Definition count_recent (p : Ledger.LedgerEvent → bool) now (events : list Ledger.LedgerEvent) : Z :=
  zlen (List.filter (λ event, is_recent now event && p event) events).

Definition history_findings (denials failures : Z) : list DiagnosticFinding.t :=
  push_if (3 <=? denials)
    (diagnostic_finding DiagnosticSeverity.Warning "REPEATED_AUTHORITY_DENIALS" "fabric"
       (pretty denials +:+ " requests were denied in the bounded 15-minute evidence window.")
       "cluster_denial_causes_and_adjust_safe_placement" "r1_allowlisted_source" true
       "never broaden adapter, resource, network, or identity authority")
  ++ push_if (2 <=? failures)
       (diagnostic_finding DiagnosticSeverity.Critical "REPEATED_EXECUTION_FAILURES" "fabric"
          (pretty failures +:+ " terminal execution failures occurred in the bounded 15-minute evidence window.")
          "quarantine_failing_route_or_adapter" "r1_allowlisted_source" true
          "canary recovery must produce verified receipts before normal traffic resumes").

(** The evidenced replicas of each protected digest; every order of the map gives the same. *)
Definition protected_replica_counts now (replicas : gmap (string * Uuid) ArtifactRefV1.t)
    (evidence : gmap (string * Uuid) ArtifactReplicaReceiptV1.t) : gmap string Z :=
  map_fold (λ key artifact counts,
      if ArtifactRefV1.storage_class artifact == StorageClass.Protected
      then
        let evidenced := is_some_and (λ receipt, ArtifactReplicaReceiptV1.is_valid_at receipt now)
                           (evidence !! key) in
        <[key.1 := default 0 (counts !! key.1) + (if evidenced then 1 else 0)]> counts
      else counts) ∅ replicas.
Definition under_replicated (counts : gmap string Z) : Z :=
  Z.of_nat (size (filter (λ kv, kv.2 < 2) counts)).
Definition replica_findings (under : Z) : list DiagnosticFinding.t :=
  push_if (0 <? under)
    (diagnostic_finding DiagnosticSeverity.Warning "PROTECTED_ARTIFACT_UNDER_REPLICATED" "protected_store"
       (pretty under +:+ " protected artifact(s) have fewer than two evidenced contributor replicas.")
       "schedule_encrypted_replica_repair" "r1_allowlisted_source" true
       "repair requires a signed storage lease, digest verification, and an independent destination").

(** ** The report *)

Definition add_resource (totals : gmap string Z) (resource : ResourceQuantityV1.t) : gmap string Z :=
  let name := resource_class_name (ResourceQuantityV1.class resource) in
  <[name := sat_add (default 0 (totals !! name)) (ResourceQuantityV1.available resource)]> totals.
Definition add_resources (totals : gmap string Z) offer : gmap string Z :=
  foldl add_resource totals (ResourceOfferV1.resources offer).

(** Most severe first, then by code, then by scope. *)
Definition finding_le : relation DiagnosticFinding.t := λ x y,
  let level f := DiagnosticSeverity.level (DiagnosticFinding.severity f) in
  level y < level x ∨
  level x = level y ∧
    ((DiagnosticFinding.code x ≠ DiagnosticFinding.code y ∧
      String.le (DiagnosticFinding.code x) (DiagnosticFinding.code y)) ∨
     (DiagnosticFinding.code x = DiagnosticFinding.code y ∧
      String.le (DiagnosticFinding.scope x) (DiagnosticFinding.scope y))).
#[global] Instance finding_le_dec : RelDecision finding_le.
Proof. intros x y. unfold finding_le. apply _. Defined.

Definition live_offers now (offers : gmap Uuid ResourceOfferV1.t) : list ResourceOfferV1.t :=
  List.filter (λ offer, now <? ResourceOfferV1.expires_at offer) (values offers).
Definition live_node_ids (live : list ResourceOfferV1.t) : gset Uuid :=
  list_to_set (ResourceOfferV1.node_id <$> live).

(** [count() as u8] of a severity. *)
Definition count_u8 (severity : DiagnosticSeverity.t) (findings : list DiagnosticFinding.t) : Z :=
  zlen (List.filter (λ f, DiagnosticFinding.severity f == severity) findings) mod 256.
Definition health_score_of (kill_latch : bool) (findings : list DiagnosticFinding.t) : Z :=
  if kill_latch then 0
  else
    let penalty (n weight : Z) := Z.min u8_max (n * weight) in
    Z.max 0 (Z.max 0 (100 - penalty (count_u8 DiagnosticSeverity.Critical findings) 25)
             - penalty (count_u8 DiagnosticSeverity.Warning findings) 8).
Definition status_of (kill_latch : bool) (health_score : Z) : string :=
  if kill_latch then "stopped"
  else if health_score <? 70 then "degraded"
  else if health_score <? 90 then "attention" else "healthy".

Definition all_findings now (nodes : gmap Uuid NodeIdentityV1.t) (live : list ResourceOfferV1.t)
    (replicas : gmap (string * Uuid) ArtifactRefV1.t)
    (evidence : gmap (string * Uuid) ArtifactReplicaReceiptV1.t)
    (events dividends : list Ledger.LedgerEvent) (kill_latch : bool) : list DiagnosticFinding.t :=
  push_if kill_latch stop_finding
  ++ push_if (bool_decide (nodes = ∅)) no_nodes_finding
  ++ (silent_node_finding <$>
        List.filter (λ node_id, negb (bool_decide (node_id ∈ live_node_ids live))) (keys nodes))
  ++ concat (offer_findings <$> live)
  ++ dividend_findings now (live_node_ids live) (zlen live) dividends
  ++ history_findings (count_recent is_denial now events) (count_recent is_failed_receipt now events)
  ++ replica_findings (under_replicated (protected_replica_counts now replicas evidence)).

Definition build_diagnostic_report now (nodes : gmap Uuid NodeIdentityV1.t)
    (offers : gmap Uuid ResourceOfferV1.t) (active_assignments : Z)
    (replicas : gmap (string * Uuid) ArtifactRefV1.t)
    (evidence : gmap (string * Uuid) ArtifactReplicaReceiptV1.t)
    (events dividends : list Ledger.LedgerEvent) (kill_latch : bool) : FabricDiagnosticReport.t :=
  let live := live_offers now offers in
  let findings := merge_sort finding_le (all_findings now nodes live replicas evidence events dividends kill_latch) in
  let counts := protected_replica_counts now replicas evidence in
  let health_score := health_score_of kill_latch findings in
  let status := status_of kill_latch health_score in
  let metrics :=
    DiagnosticMetrics.mk (Z.of_nat (size nodes)) (zlen live)
      (Z.max 0 (Z.of_nat (size offers) - zlen live)) active_assignments (Z.of_nat (size counts))
      (under_replicated counts) (count_recent is_denial now events)
      (count_recent is_failed_receipt now events) (zlen dividends) (dividend_age now dividends)
      (foldl add_resources ∅ live) in
  let digest_value :=
    VObject [("autonomy", autonomy_value); ("findings", VArray (DiagnosticFinding.value <$> findings));
             ("health_score", VInt health_score); ("metrics", DiagnosticMetrics.value metrics);
             ("status", VString status)] in
  FabricDiagnosticReport.mk "rampage.fabric-diagnostic-report.v1" now status health_score
    (CasStore.sha256_digest (json_to_string digest_value)) metrics findings.
End report.
