(* ===== verification/DiagnosticsFacts.v ===== *)
(** * Facts about the diagnostic report

    The report does not depend on the iteration order of the maps it reads, its score is a
    percentage, and a count that passes 255 wraps. *)

From S2P Require Import Prelude.
From S2P Require Import Codec.
From S2P Require Import Text.
From S2P Require Import Float.
From S2P Require Import Contracts.
From S2P Require Import Wire.
From S2P Require Import Ledger.
From S2P Require Import Economics.
From S2P Require Import Diagnostics.

(** ** Findings have keys of their own *)

Definition finding_key (f : DiagnosticFinding.t) : string * string :=
  (DiagnosticFinding.code f, DiagnosticFinding.scope f).
(** Every finding has one of the codes, and no two share a code and a scope. *)
Definition distinct (codes : list string) (l : list DiagnosticFinding.t) : Prop :=
  NoDup (finding_key <$> l) ∧ Forall (λ f, DiagnosticFinding.code f ∈ codes) l.

Lemma distinct_app codes codes' l l' :
  distinct codes l → distinct codes' l' →
  forallb (λ c, negb (bool_decide (c ∈ codes'))) codes = true → distinct (codes ++ codes') (l ++ l').
Proof.
  intros [Hn Hc] [Hn' Hc'] Hd. rewrite Forall_forall in Hc, Hc'. split.
  - rewrite fmap_app. apply NoDup_app. split_and!; [done| |done].
    intros k (f & -> & Hf)%list_elem_of_fmap (f' & Hk & Hf')%list_elem_of_fmap. injection Hk as Hcode _.
    apply (forallb_elem _ _ (DiagnosticFinding.code f)) in Hd; [|by apply Hc]. cbn in Hd. bool_prop.
    apply Hd. rewrite Hcode. by apply Hc'.
  - apply Forall_forall. intros f [?|?]%elem_of_app; apply elem_of_app; auto.
Qed.

Lemma distinct_push b f : distinct [DiagnosticFinding.code f] (push_if b f).
Proof.
  destruct b; split; cbn; [apply NoDup_singleton| |constructor|constructor].
  constructor; [|constructor]. by apply list_elem_of_singleton.
Qed.

Lemma distinct_weaken codes codes' l : distinct codes l → codes ⊆ codes' → distinct codes' l.
Proof. intros [? Hc] Hs. split; [done|]. eapply Forall_impl; [exact Hc|]. intros f. cbn. apply Hs. Qed.

Lemma distinct_key codes l f g : distinct codes l → f ∈ l → g ∈ l → finding_key f = finding_key g → f = g.
Proof.
  intros [Hn _] [i Hi]%list_elem_of_lookup [j Hj]%list_elem_of_lookup Hk.
  assert (i = j) as -> by (eapply (NoDup_lookup (finding_key <$> l) i j); [done|..]; rewrite list_lookup_fmap;
    [rewrite Hi; done|rewrite Hj; cbn; by rewrite Hk]).
  congruence.
Qed.

#[local] Ltac parts :=
  lazymatch goal with
  | |- distinct _ (_ ++ _) => eapply distinct_app; [parts|parts|reflexivity]
  | |- distinct _ (push_if _ _) => apply distinct_push
  | _ => eassumption
  end.

Section keys.
Context {codec : Codec} {render : Render} {wire_result : Wire FabricBenchmarkResultV1.t}.

Definition route_codes : list string := ["LOOPBACK_POLLING_ONLY"; "AUTHENTICATED_ROUTE_EMPTY"].
Lemma route_distinct offer scope : distinct route_codes (route_findings offer scope).
Proof.
  unfold route_findings. destruct (ResourceOfferV1.mesh_endpoint offer) as [endpoint|].
  - eapply distinct_weaken; [apply distinct_push|]. set_solver.
  - apply (distinct_weaken _ _ _ (distinct_push true _)). cbn. set_solver.
Qed.

Definition link_codes : list string := ["LINK_QUALIFICATION_MISSING"; "HIGH_LINK_LATENCY"; "LOW_LINK_BANDWIDTH"].
Lemma link_distinct offer scope : distinct link_codes (link_findings offer scope).
Proof.
  unfold link_findings. destruct (ResourceOfferV1.link_benchmark offer) as [link|].
  - eapply distinct_weaken; [apply distinct_app; [apply distinct_push|apply distinct_push|reflexivity]|]. set_solver.
  - apply (distinct_weaken _ _ _ (distinct_push true _)). cbn. set_solver.
Qed.

Definition offer_codes : list string :=
  ["MISSING_WORKLOAD_CAPABILITY_CONTRACT"; "THERMAL_HEADROOM_CONSTRAINED"; "BATTERY_RESERVE_CONSTRAINED"]
  ++ route_codes ++ link_codes ++ ["LOCAL_MODEL_INVENTORY_EMPTY"; "IDLE_CAPACITY_AVAILABLE"].
Lemma offer_distinct offer : distinct offer_codes (offer_findings offer).
Proof.
  unfold offer_findings. eapply distinct_weaken.
  - pose proof (route_distinct offer (uuid_to_string (ResourceOfferV1.node_id offer))) as Hr.
    pose proof (link_distinct offer (uuid_to_string (ResourceOfferV1.node_id offer))) as Hl.
    parts.
  - unfold offer_codes. set_solver.
Qed.

Lemma offer_scope offer f :
  f ∈ offer_findings offer → DiagnosticFinding.scope f = uuid_to_string (ResourceOfferV1.node_id offer).
Proof.
  unfold offer_findings, route_findings, link_findings, push_if.
  repeat (rewrite elem_of_app; intros [H|H]; [revert H|revert H]);
    repeat case_match; rewrite ?elem_of_app, ?list_elem_of_singleton, ?elem_of_nil; naive_solver.
Qed.

Lemma offers_distinct {laws : RenderLaws render} live :
  NoDup (ResourceOfferV1.node_id <$> live) → distinct offer_codes (concat (offer_findings <$> live)).
Proof.
  induction live as [|offer live IH]; cbn; [split; constructor|]. intros [Hnew Hn]%NoDup_cons.
  destruct (IH Hn) as [IHn IHc], (offer_distinct offer) as [Hd Hc]. split.
  - rewrite fmap_app. apply NoDup_app. split_and!; [done| |done].
    intros k (f & -> & Hf)%list_elem_of_fmap (g & Hk & Hg)%list_elem_of_fmap. injection Hk as _ Hscope.
    apply list_elem_of_In, in_concat in Hg as (fs & Hfs%list_elem_of_In & Hg%list_elem_of_In).
    apply list_elem_of_fmap in Hfs as (other & -> & Hother).
    rewrite (offer_scope offer f Hf), (offer_scope other g Hg) in Hscope.
    apply (f_equal uuid_parse) in Hscope. rewrite !uuid_roundtrip in Hscope. injection Hscope as Hid.
    apply Hnew. rewrite Hid. by apply list_elem_of_fmap_2.
  - by apply Forall_app.
Qed.

Definition silent_codes : list string := ["NODE_WITHOUT_LIVE_OFFER"].
Lemma silent_distinct {laws : RenderLaws render} nodes :
  NoDup nodes → distinct silent_codes (silent_node_finding <$> nodes).
Proof.
  intros Hn. split.
  - rewrite <-list_fmap_compose. apply NoDup_fmap_2_strong; [|done]. intros a b _ _ [= H].
    apply (f_equal uuid_parse) in H. rewrite !uuid_roundtrip in H. congruence.
  - apply Forall_fmap, Forall_true. intros n. by apply list_elem_of_singleton.
Qed.

Definition dividend_codes : list string :=
  ["COMPUTE_DIVIDEND_MISSING"; "COMPUTE_DIVIDEND_STALE"; "COMPUTE_DIVIDEND_TOPOLOGY_CHANGED";
   "COMPUTE_DIVIDEND_CONTRACT_INVALID"].
Lemma dividend_distinct now live count dividends :
  distinct dividend_codes (dividend_findings now live count dividends).
Proof.
  unfold dividend_findings.
  change dividend_codes with (["COMPUTE_DIVIDEND_MISSING"] ++ drop 1 dividend_codes).
  apply distinct_app; [apply distinct_push| |reflexivity].
  pose proof (λ f, distinct_push true f) as Hone. cbn [push_if] in Hone.
  repeat case_match; try (eapply distinct_weaken; [first [apply Hone|apply distinct_push]|cbn; set_solver]).
  split; constructor.
Qed.

Definition fabric_codes : list string :=
  ["OWNER_STOP_ACTIVE"; "NO_ENROLLED_CONTRIBUTORS"] ++ silent_codes ++ offer_codes ++ dividend_codes
  ++ ["REPEATED_AUTHORITY_DENIALS"; "REPEATED_EXECUTION_FAILURES"; "PROTECTED_ARTIFACT_UNDER_REPLICATED"].

Lemma all_distinct {laws : RenderLaws render} {order : HashOrder} now nodes live replicas evidence events
    dividends killed :
  NoDup (ResourceOfferV1.node_id <$> live) →
  distinct fabric_codes (all_findings now nodes live replicas evidence events dividends killed).
Proof.
  intros Hlive. pose proof (offers_distinct live Hlive) as Ho.
  pose proof (dividend_distinct now (live_node_ids live) (zlen live) dividends) as Hd.
  assert (NoDup (List.filter (λ node_id, negb (bool_decide (node_id ∈ live_node_ids live))) (keys nodes))) as Hs.
  { apply NoDup_ListNoDup, List.NoDup_filter, NoDup_ListNoDup. unfold keys. rewrite hash_order_perm.
    apply NoDup_fst_map_to_list. }
  apply silent_distinct in Hs. unfold all_findings, history_findings, replica_findings.
  eapply distinct_weaken; [parts|]. unfold fabric_codes. set_solver.
Qed.
End keys.

(** ** Independence of the iteration order *)

Lemma foldl_perm {A B} (f : B → A → B) (P : A → Prop) acc l l' :
  (∀ acc x y, P x → P y → f (f acc x) y = f (f acc y) x) → Forall P l → l ≡ₚ l' →
  foldl f acc l = foldl f acc l'.
Proof.
  intros Hcomm Hl Hp. revert acc Hl. induction Hp; intros acc Hl; cbn; try done.
  - apply IHHp. by apply Forall_cons in Hl as [_ ?].
  - apply Forall_cons in Hl as [? Hl]. apply Forall_cons in Hl as [? _]. by rewrite Hcomm.
  - rewrite IHHp1 by done. apply IHHp2. by rewrite <-Hp1.
Qed.

Lemma foldl_concat {A B} (f : B → A → B) acc ls : foldl (foldl f) acc ls = foldl f acc (concat ls).
Proof. revert acc. induction ls as [|l ls IH]; intros acc; cbn; [done|]. by rewrite foldl_app, IH. Qed.

Lemma add_resources_perm live live' totals :
  Forall (λ offer, Forall (λ r, 0 ≤ ResourceQuantityV1.available r) (ResourceOfferV1.resources offer)) live →
  live ≡ₚ live' → foldl add_resources totals live = foldl add_resources totals live'.
Proof.
  intros Hnn Hp.
  assert (∀ l, foldl add_resources totals l
               = foldl add_resource totals (concat (ResourceOfferV1.resources <$> l))) as Hflat.
  { intros l. rewrite <-foldl_concat. revert totals. induction l as [|o l IH]; intros t; cbn; [done|]. apply IH. }
  rewrite !Hflat. eapply (foldl_perm _ (λ r, 0 ≤ ResourceQuantityV1.available r)).
  - intros t x y Hx Hy. unfold add_resource.
    destruct (decide (resource_class_name (ResourceQuantityV1.class x)
                      = resource_class_name (ResourceQuantityV1.class y))) as [->|Hne].
    + rewrite !lookup_insert_eq, !insert_insert_eq. cbn [default from_option id]. f_equal. unfold sat_add. lia.
    + rewrite !lookup_insert_ne by done. by rewrite insert_insert_ne.
  - apply Forall_concat, Forall_fmap. exact Hnn.
  - by rewrite Hp.
Qed.

#[local] Instance finding_le_total : Total finding_le.
Proof.
  intros x y. unfold finding_le.
  destruct (Z.lt_trichotomy (DiagnosticSeverity.level (DiagnosticFinding.severity x))
              (DiagnosticSeverity.level (DiagnosticFinding.severity y))) as [?|[->|?]]; [by right; left| |by left; left].
  destruct (decide (DiagnosticFinding.code x = DiagnosticFinding.code y)) as [->|Hne].
  - destruct (total String.le (DiagnosticFinding.scope x) (DiagnosticFinding.scope y)); naive_solver.
  - destruct (total String.le (DiagnosticFinding.code x) (DiagnosticFinding.code y)); naive_solver.
Qed.
#[local] Instance finding_le_trans : Transitive finding_le.
Proof.
  intros x y z. unfold finding_le. intros [Hl|[Hl Hxy]] [Hm|[Hm Hyz]]; [left; lia|left; lia|left; lia|].
  right. split; [lia|]. destruct Hxy as [[Hne Hxy]|[-> Hxy]], Hyz as [[Hne' Hyz]|[<- Hyz]]; try naive_solver.
  - left. split; [|by etrans]. intros Heq. apply Hne. rewrite Heq in *. by apply (anti_symm String.le).
  - right. split; [done|by etrans].
Qed.

Section independence.
Context {codec : Codec} {render : Render} {laws : RenderLaws render} {wire_result : Wire FabricBenchmarkResultV1.t}.

(** Offers are registered under their node, and quantities are unsigned. *)
Definition offers_registered (offers : gmap Uuid ResourceOfferV1.t) : Prop :=
  map_Forall (λ node_id offer,
    ResourceOfferV1.node_id offer = node_id ∧
    Forall (λ r, 0 ≤ ResourceQuantityV1.available r) (ResourceOfferV1.resources offer)) offers.

Lemma live_perm (o o' : HashOrder) now offers :
  live_offers (order := o) now offers ≡ₚ live_offers (order := o') now offers.
Proof. unfold live_offers, values. by rewrite !hash_order_perm. Qed.

Lemma live_keyed (o : HashOrder) now offers :
  offers_registered offers → NoDup (ResourceOfferV1.node_id <$> live_offers (order := o) now offers).
Proof.
  intros Hreg. unfold live_offers.
  assert (NoDup (ResourceOfferV1.node_id <$> values (H := o) offers)) as Hn.
  { unfold values. rewrite hash_order_perm, <-list_fmap_compose.
    replace (ResourceOfferV1.node_id ∘ snd <$> map_to_list offers) with (map_to_list offers).*1;
      [apply NoDup_fst_map_to_list|].
    apply list_fmap_ext. intros i [k x] Hi. symmetry. apply (Hreg k x).
    apply elem_of_map_to_list, list_elem_of_lookup. by exists i. }
  revert Hn. generalize (values (H := o) offers). intros l Hn. induction l as [|x l IH]; cbn; [done|].
  apply NoDup_cons in Hn as [Hx Hn]. case_match; cbn; [|auto]. apply NoDup_cons. split; [|auto].
  intros (y & Hy & [Hin _]%list_elem_of_In%filter_In)%list_elem_of_fmap. apply Hx. rewrite Hy.
  by apply list_elem_of_fmap_2, list_elem_of_In.
Qed.

Lemma all_findings_perm (o o' : HashOrder) now nodes live live' replicas evidence events dividends killed :
  live ≡ₚ live' →
  all_findings (order := o) now nodes live replicas evidence events dividends killed ≡ₚ
  all_findings (order := o') now nodes live' replicas evidence events dividends killed.
Proof.
  intros Hp. assert (live_node_ids live = live_node_ids live') as Hids.
  { unfold live_node_ids. apply leibniz_equiv. by rewrite Hp. }
  assert (zlen live = zlen live') as Hlen by (unfold zlen; by rewrite Hp).
  unfold all_findings. rewrite Hids, Hlen. repeat apply Permutation_app; try done; [|by rewrite Hp].
  apply fmap_Permutation, bool_filter_perm. unfold keys. by rewrite !hash_order_perm.
Qed.

Lemma findings_order_independent (o o' : HashOrder) now nodes offers replicas evidence events dividends killed :
  offers_registered offers →
  merge_sort finding_le (all_findings (order := o) now nodes (live_offers (order := o) now offers)
                           replicas evidence events dividends killed) =
  merge_sort finding_le (all_findings (order := o') now nodes (live_offers (order := o') now offers)
                           replicas evidence events dividends killed).
Proof.
  intros Hreg. pose proof (live_perm o o' now offers) as Hlive.
  pose proof (all_findings_perm o o' now nodes _ _ replicas evidence events dividends killed Hlive) as Hp.
  pose proof (all_distinct (order := o) now nodes _ replicas evidence events dividends killed
                (live_keyed o now offers Hreg)) as Hd.
  apply (StronglySorted_unique_strong finding_le);
    [|apply StronglySorted_merge_sort; apply _..|by rewrite !merge_sort_Permutation].
  intros x y. rewrite !merge_sort_Permutation, <-Hp. intros Hx Hy Hxy Hyx.
  apply (distinct_key _ _ x y Hd Hx Hy). unfold finding_le in Hxy, Hyx. unfold finding_key.
  destruct Hxy as [?|[? Hxy]], Hyx as [?|[? Hyx]]; [lia..|].
  destruct Hxy as [[Hne Hxy]|[Hc Hxy]], Hyx as [[Hne' Hyx]|[Hc' Hyx]]; try congruence.
  - destruct Hne. by apply (anti_symm String.le).
  - f_equal; [done|]. by apply (anti_symm String.le).
Qed.

(** The report, and so the digest that decides whether a scan is new evidence, is a
    function of the state: it does not depend on the order in which the controller's hash maps
    happen to be traversed. *)
Theorem report_is_deterministic (o o' : HashOrder) now nodes offers active replicas evidence events dividends killed :
  offers_registered offers →
  build_diagnostic_report (order := o) now nodes offers active replicas evidence events dividends killed =
  build_diagnostic_report (order := o') now nodes offers active replicas evidence events dividends killed.
Proof.
  intros Hreg. unfold build_diagnostic_report.
  rewrite (findings_order_independent o o') by done.
  pose proof (live_perm o o' now offers) as Hlive.
  assert (zlen (live_offers (order := o) now offers) = zlen (live_offers (order := o') now offers)) as ->
    by (unfold zlen; by rewrite Hlive).
  rewrite (add_resources_perm _ (live_offers (order := o') now offers) ∅); [done| |done].
  apply Forall_forall. intros offer [Hin _]%list_elem_of_In%filter_In.
  apply list_elem_of_In, elem_of_values in Hin as [k Hk]. by apply (Hreg k offer).
Qed.

Lemma health_score_bounds killed findings : 0 ≤ health_score_of killed findings ≤ 100.
Proof.
  unfold health_score_of, count_u8. destruct killed; [lia|].
  pose proof (Z.mod_pos_bound (zlen (List.filter (λ f, DiagnosticFinding.severity f == DiagnosticSeverity.Critical)
    findings)) 256 ltac:(lia)).
  pose proof (Z.mod_pos_bound (zlen (List.filter (λ f, DiagnosticFinding.severity f == DiagnosticSeverity.Warning)
    findings)) 256 ltac:(lia)). unfold u8_max. lia.
Qed.

#[global] Instance health_score_perm killed : Proper ((≡ₚ) ==> (=)) (health_score_of killed).
Proof.
  intros l k H. unfold health_score_of, count_u8, zlen.
  assert (∀ p : DiagnosticFinding.t → bool, length (List.filter p l) = length (List.filter p k)) as Hp
    by (intros p; by rewrite H).
  by rewrite !Hp.
Qed.

(** A healthy status promises no critical finding and at most one warning, as long as the
    counts fit their [u8]. *)
Lemma healthy_means findings :
  let count severity := zlen (List.filter (λ f, DiagnosticFinding.severity f == severity) findings) in
  zlen findings < 256 → status_of false (health_score_of false findings) = "healthy" →
  count DiagnosticSeverity.Critical = 0 ∧ count DiagnosticSeverity.Warning ≤ 1.
Proof.
  intros count Hlen.
  assert (∀ severity, count_u8 severity findings = count severity ∧ 0 ≤ count severity) as Hc.
  { intros severity. unfold count_u8. subst count. cbn beta.
    pose proof (List.filter_length_le (λ f, DiagnosticFinding.severity f == severity) findings).
    unfold zlen in *. rewrite Z.mod_small by lia. lia. }
  unfold status_of, health_score_of. destruct (Hc DiagnosticSeverity.Critical) as [-> ?], (Hc DiagnosticSeverity.Warning) as [-> ?].
  generalize dependent (count DiagnosticSeverity.Critical). generalize dependent (count DiagnosticSeverity.Warning).
  intros w Hw c Hcrit. unfold u8_max. case_match eqn:E; [done|]. case_match eqn:E'; [done|]. bool_prop. lia.
Qed.
End independence.

(** ** A count that wraps *)

Module DiagnosticsWitness.
Import Reference.
#[local] Instance render : Render := {|
  uuid_to_string u := bits (encode u); uuid_parse s := p ← of_bits s; decode p; datetime_to_json t := bits (encode t) |}.
#[local] Instance render_laws : RenderLaws render.
Proof. split. intros u. cbn. rewrite of_bits_bits. cbn. apply decode_encode. Qed.
#[local] Instance no_results : Wire FabricBenchmarkResultV1.t := {| to_value _ := VNull; from_value _ := None |}.
#[local] Instance forwards : HashOrder := {| hash_order A l := l; hash_order_perm A l := reflexivity l |}.
#[local] Instance backwards : HashOrder := {| hash_order A l := reverse l; hash_order_perm A l := reverse_Permutation l |}.

Definition identity (id : Uuid) : NodeIdentityV1.t :=
  NodeIdentityV1.mk NodeIdentityV1.SCHEMA id 8 "worker" DeviceKind.Desktop "linux" "key" 0 0.
Definition enrolled (n : Z) : gmap Uuid NodeIdentityV1.t := list_to_map ((λ id, (id, identity id)) <$> seqZ 1 n).
Definition scan (n : Z) : FabricDiagnosticReport.t :=
  build_diagnostic_report (order := forwards) 0 (enrolled n) ∅ 0 ∅ ∅ [] [] false.

(** 255 enrolled nodes without an offer are 255 warnings and a score of 0; one more, and the
    count of warnings is 0 and the fabric reports itself healthy. *)
Example warnings_wrap :
  (λ n, (FabricDiagnosticReport.health_score (scan n), FabricDiagnosticReport.status (scan n))) <$> [255; 256]
  = [(0, "degraded"); (100, "healthy")].
Proof.
  assert (∀ n, FabricDiagnosticReport.health_score (scan n)
               = health_score_of false (all_findings (order := forwards) 0 (enrolled n) [] ∅ ∅ [] [] false)) as Hscore.
  { intros n. unfold scan, build_diagnostic_report. cbn [FabricDiagnosticReport.health_score].
    by rewrite merge_sort_Permutation. }
  assert (∀ n, FabricDiagnosticReport.status (scan n) = status_of false (FabricDiagnosticReport.health_score (scan n)))
    as Hstatus by done.
  cbn [fmap list_fmap]. rewrite !Hstatus, !Hscore. vm_compute. reflexivity.
Qed.

Definition offer (id : Uuid) : ResourceOfferV1.t :=
  ResourceOfferV1.mk "rampage.resource-offer.v1" (30 + id) id 0 (minutes 1) []
    (AvailabilityV1.mk true None 20 true true) ∅ [] [] None None "".
Definition offers : gmap Uuid ResourceOfferV1.t := {[1 := offer 1; 2 := offer 2]}.

Lemma report_is_deterministic_witness :
  build_diagnostic_report (order := forwards) 0 (enrolled 2) offers 0 ∅ ∅ [] [] false =
  build_diagnostic_report (order := backwards) 0 (enrolled 2) offers 0 ∅ ∅ [] [] false.
Proof.
  apply (report_is_deterministic forwards backwards).
  apply (bool_decide_unpack _). vm_compute. reflexivity.
Defined.
End DiagnosticsWitness.
