(* ===== verification/ControllerState.v ===== *)
(** * The controller's state and its effects (crates/rampage-controller/src/main.rs)

    [AppState.t] is [AppState] as one value: the maps behind its locks, the ledger, the
    Governor, the store, the two files of the kill latch, and the messages sent over the
    mesh.  The API token carries no state.  A handler is a computation [M]: it reads the clock and draws
    identifiers
    in order from [Env], passes the state along, and an error keeps the state it reached,
    as an early return does. *)

From S2P Require Import Prelude.
From S2P Require Import Codec.
From S2P Require Import Text.
From S2P Require Import Contracts.
From S2P Require Import Wire.
From S2P Require Import Signing.
From S2P Require Import Governor.
From S2P Require Import Scheduler.
From S2P Require Import Storage.
From S2P Require Import Ledger.
From S2P Require Import Mesh.
From S2P Require Import Diagnostics.
Import Text.

Module InviteRecord.
Record t := mk { secret_hash : string; expires_at : DateTime }.
End InviteRecord.
Module Assignment.
Record t := mk { job : JobSpecV1.t; lease : CapabilityLeaseV1.t; claimed : bool }.
Definition claim (self : t) : t := mk (job self) (lease self) true.
End Assignment.
Module ShardSetRecord.
Record t := mk { spec : ShardSetV1.t; leases : list CapabilityLeaseV1.t }.
End ShardSetRecord.
Module RemoteDesktopSession.
Record t := mk { lease : RemoteDesktopLeaseV1.t; control_started : bool }.
End RemoteDesktopSession.
Module AutonomousConstraints.
Record t := mk { evidence_digest : string; excluded_nodes : gmap Uuid (list string) }.
Definition default : t := mk "" ∅.
#[global] Instance eq_dec : EqDecision t.
Proof. solve_decision. Defined.
End AutonomousConstraints.

(** ** State *)

(** A message written to the mesh: its destination, protocol and bytes. *)
Definition Sent : Type := EndpointAddr * string * string.

Module AppState.
Section state.
Context {crypto : Crypto}.

Record t := mk {
  ledger : Ledger.t;
  governor : Governor.t;
  offers : gmap Uuid ResourceOfferV1.t;
  offer_evidence_recorded_at : gmap Uuid DateTime;
  nodes : gmap Uuid NodeIdentityV1.t;
  invites : gmap Uuid InviteRecord.t;
  assignments : gmap Uuid Assignment.t;
  idempotency : gmap string Uuid;
  local_enrollment_enabled : bool;
  kill_latch : bool;
  stop_epoch : option string;
  reservations : list ResourceReservation.t;
  admission_policy : AdmissionPolicy.t;
  completed_receipts : gmap Uuid Uuid;
  shard_sets : gmap Uuid ShardSetRecord.t;
  artifact_replicas : gmap (string * Uuid) ArtifactRefV1.t;
  replica_evidence : gmap (string * Uuid) ArtifactReplicaReceiptV1.t;
  storage_probe_cursor : Z;
  artifact_store : CasStore.t;
  fencing_epoch : Z;
  model_cancellations : gmap Uuid bool;
  diagnostic_report : option FabricDiagnosticReport.t;
  diagnostic_digest : option string;
  autonomous_constraints : AutonomousConstraints.t;
  remote_desktop_sessions : gmap Uuid RemoteDesktopSession.t;
  mesh_sent : list Sent
}.

Definition set_ledger (x : Ledger.t) (s : t) : t :=
  mk x (governor s) (offers s) (offer_evidence_recorded_at s) (nodes s) (invites s) (assignments
    s) (idempotency s) (local_enrollment_enabled s) (kill_latch s) (stop_epoch s) (reservations
    s) (admission_policy s) (completed_receipts s) (shard_sets s) (artifact_replicas s)
    (replica_evidence s) (storage_probe_cursor s) (artifact_store s) (fencing_epoch s)
    (model_cancellations s) (diagnostic_report s) (diagnostic_digest s) (autonomous_constraints
    s) (remote_desktop_sessions s) (mesh_sent s).
Definition set_offers (x : gmap Uuid ResourceOfferV1.t) (s : t) : t :=
  mk (ledger s) (governor s) x (offer_evidence_recorded_at s) (nodes s) (invites s) (assignments
    s) (idempotency s) (local_enrollment_enabled s) (kill_latch s) (stop_epoch s) (reservations
    s) (admission_policy s) (completed_receipts s) (shard_sets s) (artifact_replicas s)
    (replica_evidence s) (storage_probe_cursor s) (artifact_store s) (fencing_epoch s)
    (model_cancellations s) (diagnostic_report s) (diagnostic_digest s) (autonomous_constraints
    s) (remote_desktop_sessions s) (mesh_sent s).
Definition set_offer_evidence_recorded_at (x : gmap Uuid DateTime) (s : t) : t :=
  mk (ledger s) (governor s) (offers s) x (nodes s) (invites s) (assignments s) (idempotency s)
    (local_enrollment_enabled s) (kill_latch s) (stop_epoch s) (reservations s)
    (admission_policy s) (completed_receipts s) (shard_sets s) (artifact_replicas s)
    (replica_evidence s) (storage_probe_cursor s) (artifact_store s) (fencing_epoch s)
    (model_cancellations s) (diagnostic_report s) (diagnostic_digest s) (autonomous_constraints
    s) (remote_desktop_sessions s) (mesh_sent s).
Definition set_nodes (x : gmap Uuid NodeIdentityV1.t) (s : t) : t :=
  mk (ledger s) (governor s) (offers s) (offer_evidence_recorded_at s) x (invites s)
    (assignments s) (idempotency s) (local_enrollment_enabled s) (kill_latch s) (stop_epoch s)
    (reservations s) (admission_policy s) (completed_receipts s) (shard_sets s)
    (artifact_replicas s) (replica_evidence s) (storage_probe_cursor s) (artifact_store s)
    (fencing_epoch s) (model_cancellations s) (diagnostic_report s) (diagnostic_digest s)
    (autonomous_constraints s) (remote_desktop_sessions s) (mesh_sent s).
Definition set_invites (x : gmap Uuid InviteRecord.t) (s : t) : t :=
  mk (ledger s) (governor s) (offers s) (offer_evidence_recorded_at s) (nodes s) x (assignments
    s) (idempotency s) (local_enrollment_enabled s) (kill_latch s) (stop_epoch s) (reservations
    s) (admission_policy s) (completed_receipts s) (shard_sets s) (artifact_replicas s)
    (replica_evidence s) (storage_probe_cursor s) (artifact_store s) (fencing_epoch s)
    (model_cancellations s) (diagnostic_report s) (diagnostic_digest s) (autonomous_constraints
    s) (remote_desktop_sessions s) (mesh_sent s).
Definition set_assignments (x : gmap Uuid Assignment.t) (s : t) : t :=
  mk (ledger s) (governor s) (offers s) (offer_evidence_recorded_at s) (nodes s) (invites s) x
    (idempotency s) (local_enrollment_enabled s) (kill_latch s) (stop_epoch s) (reservations s)
    (admission_policy s) (completed_receipts s) (shard_sets s) (artifact_replicas s)
    (replica_evidence s) (storage_probe_cursor s) (artifact_store s) (fencing_epoch s)
    (model_cancellations s) (diagnostic_report s) (diagnostic_digest s) (autonomous_constraints
    s) (remote_desktop_sessions s) (mesh_sent s).
Definition set_idempotency (x : gmap string Uuid) (s : t) : t :=
  mk (ledger s) (governor s) (offers s) (offer_evidence_recorded_at s) (nodes s) (invites s)
    (assignments s) x (local_enrollment_enabled s) (kill_latch s) (stop_epoch s) (reservations
    s) (admission_policy s) (completed_receipts s) (shard_sets s) (artifact_replicas s)
    (replica_evidence s) (storage_probe_cursor s) (artifact_store s) (fencing_epoch s)
    (model_cancellations s) (diagnostic_report s) (diagnostic_digest s) (autonomous_constraints
    s) (remote_desktop_sessions s) (mesh_sent s).
Definition set_kill_latch (x : bool) (s : t) : t :=
  mk (ledger s) (governor s) (offers s) (offer_evidence_recorded_at s) (nodes s) (invites s)
    (assignments s) (idempotency s) (local_enrollment_enabled s) x (stop_epoch s) (reservations
    s) (admission_policy s) (completed_receipts s) (shard_sets s) (artifact_replicas s)
    (replica_evidence s) (storage_probe_cursor s) (artifact_store s) (fencing_epoch s)
    (model_cancellations s) (diagnostic_report s) (diagnostic_digest s) (autonomous_constraints
    s) (remote_desktop_sessions s) (mesh_sent s).
Definition set_stop_epoch (x : option string) (s : t) : t :=
  mk (ledger s) (governor s) (offers s) (offer_evidence_recorded_at s) (nodes s) (invites s)
    (assignments s) (idempotency s) (local_enrollment_enabled s) (kill_latch s) x (reservations
    s) (admission_policy s) (completed_receipts s) (shard_sets s) (artifact_replicas s)
    (replica_evidence s) (storage_probe_cursor s) (artifact_store s) (fencing_epoch s)
    (model_cancellations s) (diagnostic_report s) (diagnostic_digest s) (autonomous_constraints
    s) (remote_desktop_sessions s) (mesh_sent s).
Definition set_reservations (x : list ResourceReservation.t) (s : t) : t :=
  mk (ledger s) (governor s) (offers s) (offer_evidence_recorded_at s) (nodes s) (invites s)
    (assignments s) (idempotency s) (local_enrollment_enabled s) (kill_latch s) (stop_epoch s) x
    (admission_policy s) (completed_receipts s) (shard_sets s) (artifact_replicas s)
    (replica_evidence s) (storage_probe_cursor s) (artifact_store s) (fencing_epoch s)
    (model_cancellations s) (diagnostic_report s) (diagnostic_digest s) (autonomous_constraints
    s) (remote_desktop_sessions s) (mesh_sent s).
Definition set_completed_receipts (x : gmap Uuid Uuid) (s : t) : t :=
  mk (ledger s) (governor s) (offers s) (offer_evidence_recorded_at s) (nodes s) (invites s)
    (assignments s) (idempotency s) (local_enrollment_enabled s) (kill_latch s) (stop_epoch s)
    (reservations s) (admission_policy s) x (shard_sets s) (artifact_replicas s)
    (replica_evidence s) (storage_probe_cursor s) (artifact_store s) (fencing_epoch s)
    (model_cancellations s) (diagnostic_report s) (diagnostic_digest s) (autonomous_constraints
    s) (remote_desktop_sessions s) (mesh_sent s).
Definition set_shard_sets (x : gmap Uuid ShardSetRecord.t) (s : t) : t :=
  mk (ledger s) (governor s) (offers s) (offer_evidence_recorded_at s) (nodes s) (invites s)
    (assignments s) (idempotency s) (local_enrollment_enabled s) (kill_latch s) (stop_epoch s)
    (reservations s) (admission_policy s) (completed_receipts s) x (artifact_replicas s)
    (replica_evidence s) (storage_probe_cursor s) (artifact_store s) (fencing_epoch s)
    (model_cancellations s) (diagnostic_report s) (diagnostic_digest s) (autonomous_constraints
    s) (remote_desktop_sessions s) (mesh_sent s).
Definition set_artifact_replicas (x : gmap (string * Uuid) ArtifactRefV1.t) (s : t) : t :=
  mk (ledger s) (governor s) (offers s) (offer_evidence_recorded_at s) (nodes s) (invites s)
    (assignments s) (idempotency s) (local_enrollment_enabled s) (kill_latch s) (stop_epoch s)
    (reservations s) (admission_policy s) (completed_receipts s) (shard_sets s) x
    (replica_evidence s) (storage_probe_cursor s) (artifact_store s) (fencing_epoch s)
    (model_cancellations s) (diagnostic_report s) (diagnostic_digest s) (autonomous_constraints
    s) (remote_desktop_sessions s) (mesh_sent s).
Definition set_replica_evidence (x : gmap (string * Uuid) ArtifactReplicaReceiptV1.t) (s : t) : t :=
  mk (ledger s) (governor s) (offers s) (offer_evidence_recorded_at s) (nodes s) (invites s)
    (assignments s) (idempotency s) (local_enrollment_enabled s) (kill_latch s) (stop_epoch s)
    (reservations s) (admission_policy s) (completed_receipts s) (shard_sets s)
    (artifact_replicas s) x (storage_probe_cursor s) (artifact_store s) (fencing_epoch s)
    (model_cancellations s) (diagnostic_report s) (diagnostic_digest s) (autonomous_constraints
    s) (remote_desktop_sessions s) (mesh_sent s).
Definition set_storage_probe_cursor (x : Z) (s : t) : t :=
  mk (ledger s) (governor s) (offers s) (offer_evidence_recorded_at s) (nodes s) (invites s)
    (assignments s) (idempotency s) (local_enrollment_enabled s) (kill_latch s) (stop_epoch s)
    (reservations s) (admission_policy s) (completed_receipts s) (shard_sets s)
    (artifact_replicas s) (replica_evidence s) x (artifact_store s) (fencing_epoch s)
    (model_cancellations s) (diagnostic_report s) (diagnostic_digest s) (autonomous_constraints
    s) (remote_desktop_sessions s) (mesh_sent s).
Definition set_artifact_store (x : CasStore.t) (s : t) : t :=
  mk (ledger s) (governor s) (offers s) (offer_evidence_recorded_at s) (nodes s) (invites s)
    (assignments s) (idempotency s) (local_enrollment_enabled s) (kill_latch s) (stop_epoch s)
    (reservations s) (admission_policy s) (completed_receipts s) (shard_sets s)
    (artifact_replicas s) (replica_evidence s) (storage_probe_cursor s) x (fencing_epoch s)
    (model_cancellations s) (diagnostic_report s) (diagnostic_digest s) (autonomous_constraints
    s) (remote_desktop_sessions s) (mesh_sent s).
Definition set_fencing_epoch (x : Z) (s : t) : t :=
  mk (ledger s) (governor s) (offers s) (offer_evidence_recorded_at s) (nodes s) (invites s)
    (assignments s) (idempotency s) (local_enrollment_enabled s) (kill_latch s) (stop_epoch s)
    (reservations s) (admission_policy s) (completed_receipts s) (shard_sets s)
    (artifact_replicas s) (replica_evidence s) (storage_probe_cursor s) (artifact_store s) x
    (model_cancellations s) (diagnostic_report s) (diagnostic_digest s) (autonomous_constraints
    s) (remote_desktop_sessions s) (mesh_sent s).
Definition set_model_cancellations (x : gmap Uuid bool) (s : t) : t :=
  mk (ledger s) (governor s) (offers s) (offer_evidence_recorded_at s) (nodes s) (invites s)
    (assignments s) (idempotency s) (local_enrollment_enabled s) (kill_latch s) (stop_epoch s)
    (reservations s) (admission_policy s) (completed_receipts s) (shard_sets s)
    (artifact_replicas s) (replica_evidence s) (storage_probe_cursor s) (artifact_store s)
    (fencing_epoch s) x (diagnostic_report s) (diagnostic_digest s) (autonomous_constraints s)
    (remote_desktop_sessions s) (mesh_sent s).
Definition set_diagnostic_report (x : option FabricDiagnosticReport.t) (s : t) : t :=
  mk (ledger s) (governor s) (offers s) (offer_evidence_recorded_at s) (nodes s) (invites s)
    (assignments s) (idempotency s) (local_enrollment_enabled s) (kill_latch s) (stop_epoch s)
    (reservations s) (admission_policy s) (completed_receipts s) (shard_sets s)
    (artifact_replicas s) (replica_evidence s) (storage_probe_cursor s) (artifact_store s)
    (fencing_epoch s) (model_cancellations s) x (diagnostic_digest s) (autonomous_constraints s)
    (remote_desktop_sessions s) (mesh_sent s).
Definition set_diagnostic_digest (x : option string) (s : t) : t :=
  mk (ledger s) (governor s) (offers s) (offer_evidence_recorded_at s) (nodes s) (invites s)
    (assignments s) (idempotency s) (local_enrollment_enabled s) (kill_latch s) (stop_epoch s)
    (reservations s) (admission_policy s) (completed_receipts s) (shard_sets s)
    (artifact_replicas s) (replica_evidence s) (storage_probe_cursor s) (artifact_store s)
    (fencing_epoch s) (model_cancellations s) (diagnostic_report s) x (autonomous_constraints s)
    (remote_desktop_sessions s) (mesh_sent s).
Definition set_autonomous_constraints (x : AutonomousConstraints.t) (s : t) : t :=
  mk (ledger s) (governor s) (offers s) (offer_evidence_recorded_at s) (nodes s) (invites s)
    (assignments s) (idempotency s) (local_enrollment_enabled s) (kill_latch s) (stop_epoch s)
    (reservations s) (admission_policy s) (completed_receipts s) (shard_sets s)
    (artifact_replicas s) (replica_evidence s) (storage_probe_cursor s) (artifact_store s)
    (fencing_epoch s) (model_cancellations s) (diagnostic_report s) (diagnostic_digest s) x
    (remote_desktop_sessions s) (mesh_sent s).
Definition set_remote_desktop_sessions (x : gmap Uuid RemoteDesktopSession.t) (s : t) : t :=
  mk (ledger s) (governor s) (offers s) (offer_evidence_recorded_at s) (nodes s) (invites s)
    (assignments s) (idempotency s) (local_enrollment_enabled s) (kill_latch s) (stop_epoch s)
    (reservations s) (admission_policy s) (completed_receipts s) (shard_sets s)
    (artifact_replicas s) (replica_evidence s) (storage_probe_cursor s) (artifact_store s)
    (fencing_epoch s) (model_cancellations s) (diagnostic_report s) (diagnostic_digest s)
    (autonomous_constraints s) x (mesh_sent s).
Definition set_mesh_sent (x : list Sent) (s : t) : t :=
  mk (ledger s) (governor s) (offers s) (offer_evidence_recorded_at s) (nodes s) (invites s)
    (assignments s) (idempotency s) (local_enrollment_enabled s) (kill_latch s) (stop_epoch s)
    (reservations s) (admission_policy s) (completed_receipts s) (shard_sets s)
    (artifact_replicas s) (replica_evidence s) (storage_probe_cursor s) (artifact_store s)
    (fencing_epoch s) (model_cancellations s) (diagnostic_report s) (diagnostic_digest s)
    (autonomous_constraints s) (remote_desktop_sessions s) x.

End state.
End AppState.

(** ** Failures *)

(** An error response: its status code, and where its message comes from. *)
Module Failure.
Inductive reason :=
| Message (text : string)
| Denied (denial : Denial.t)
| Invalid (error : ContractError.t)
| StoreFailed (error : StorageError.t)
| LedgerFailed (error : Ledger.LedgerError)
| Blocked (failure : ShardPlanningFailure.t)
| MeshFailed (fault : Fault)
| Coded (kind code : string) (cause : reason)
| Panic.
Record t := mk { status : Z; why : reason }.
End Failure.

(** ** Computations *)

(** What a handler draws from its surroundings: successive readings of the clock and new
    identifiers, whether the kill latch was set when the request arrived (before it waited
    for the admission gate), whether the gate is taken, what happens first where the handler
    waits (what it waits for, its timer, a cancellation, the client leaving), the mesh, where the
    answer of a peer to a message may depend on every message sent before, and the random
    nonces of the chunks an operation of the local store encrypts. *)
Inductive Event : Set := Proceeds | TimerFired | CancelRequested | ClientGone.
#[global] Instance event_eq_dec : EqDecision Event.
Proof. solve_decision. Defined.

Record Env := mkEnv {
  clock : nat → DateTime;
  fresh : nat → Uuid;
  latch_on_arrival : bool;
  gate_busy : bool;
  mesh_endpoint_id : string;
  mesh_direct_addresses : list string;
  mesh_relay_urls : list string;
  awaited : nat → Event;
  dial : list Sent → EndpointAddr → string → Link;
  entropy : nat → nat → string
}.

Section effects.
Context {codec : Codec} {crypto : Crypto}.

(** The counter numbers the draws. *)
Definition M (A : Type) : Type :=
  Env → nat * AppState.t → result Failure.t A * (nat * AppState.t).

#[global] Instance M_ret : MRet M := λ A a env c, (Ok a, c).
#[global] Instance M_bind : MBind M := λ A B f m env c,
  match m env c with
  | (Ok a, c') => f a env c'
  | (Err e, c') => (Err e, c')
  end.

Definition read {A} (f : AppState.t → A) : M A := λ env c, (Ok (f c.2), c).
Definition modify (f : AppState.t → AppState.t) : M () := λ env c, (Ok (), (c.1, f c.2)).
Definition ask {A} (f : Env → A) : M A := λ env c, (Ok (f env), c).
Definition now : M DateTime := λ env c, (Ok (clock env c.1), (S c.1, c.2)).
Definition fresh_uuid : M Uuid := λ env c, (Ok (fresh env c.1), (S c.1, c.2)).
Definition fail {A} (status : Z) (why : Failure.reason) : M A :=
  λ env c, (Err (Failure.mk status why), c).

(** [if b { return Err((status, message)) }]. *)
Definition reject_if (b : bool) (status : Z) (message : string) : M () :=
  if b then fail status (Failure.Message message) else mret ().
(** [r.map_err(|e| (status, e))?] and [o.ok_or_else(...)?]. *)
Definition lift {E A} (status : Z) (why : E → Failure.reason) (r : result E A) : M A :=
  match r with Ok a => mret a | Err e => fail status (why e) end.
Definition expect {A} (status : Z) (message : string) (o : option A) : M A :=
  match o with Some a => mret a | None => fail status (Failure.Message message) end.
(** [expect("...")], which panics. *)
Definition unwrap {A} (o : option A) : M A :=
  match o with Some a => mret a | None => fail 0 Failure.Panic end.

(** [state.ledger.append(...).map_err(internal_error)?]. *)
Definition append (event_type subject_id : string) (payload : Value) : M () := λ env c,
  match Ledger.append (clock env c.1) event_type subject_id payload (AppState.ledger c.2) with
  | Ok (l, _) => (Ok (), (S c.1, AppState.set_ledger l c.2))
  | Err e => (Err (Failure.mk 500 (Failure.LedgerFailed e)), (S c.1, c.2))
  end.
Definition advance_fencing_epoch (scope : string) : M Z := λ env c,
  match Ledger.advance_fencing_epoch (clock env c.1) scope (AppState.ledger c.2) with
  | Ok (l, e) => (Ok e, (S c.1, AppState.set_ledger l c.2))
  | Err e => (Err (Failure.mk 500 (Failure.LedgerFailed e)), (S c.1, c.2))
  end.

(** A call over the mesh: the message is on record once the connection stands. *)
Definition over_mesh {A} (status : Z) (destination : EndpointAddr) (alpn : string)
    (message : result Fault string) (call : Link → result Fault A) : M A := λ env c,
  let link := dial env (AppState.mesh_sent c.2) destination alpn in
  let s := match link, message with
           | Some _, Ok bytes => AppState.set_mesh_sent (AppState.mesh_sent c.2 ++ [(destination, alpn, bytes)]) c.2
           | _, _ => c.2
           end in
  (map_err (λ fault, Failure.mk status (Failure.MeshFailed fault)) (call link), (c.1, s)).
(** An operation of the local store; a failure keeps the store it reached. *)
Definition on_local_store {A} (status : Z)
    (f : DateTime → (nat → string) → CasStore.t → result StorageError.t A * CasStore.t) : M A := λ env c,
  let '(r, store) := f (clock env c.1) (entropy env c.1) (AppState.artifact_store c.2) in
  (map_err (λ e, Failure.mk status (Failure.StoreFailed e)) r,
   (S c.1, AppState.set_artifact_store store c.2)).
(** What happens first at an await point. *)
Definition await : M Event := λ env c, (Ok (awaited env c.1), (S c.1, c.2)).
(** [match m { Ok(..) => .., Err(..) => .. }] and [m.map_err(f)]. *)
Definition attempt {A} (m : M A) : M (result Failure.t A) := λ env c,
  let '(r, c') := m env c in (Ok r, c').
Definition map_failure {A} (f : Failure.t → Failure.t) (m : M A) : M A := λ env c,
  let '(r, c') := m env c in (map_err f r, c').

(** [for x in l { f(x)?; }]. *)
Fixpoint for_each {A} (f : A → M ()) (l : list A) : M () :=
  match l with
  | [] => mret ()
  | x :: l => _ ← f x; for_each f l
  end.
(** The loop that collects a value per element. *)
Fixpoint collect {A B} (f : A → M B) (l : list A) : M (list B) :=
  match l with
  | [] => mret []
  | x :: l => y ← f x; ys ← collect f l; mret (y :: ys)
  end.
(** The state of a controller before its first start. *)
Definition installed (governor : Governor.t) (store : CasStore.t) : AppState.t :=
  AppState.mk Ledger.open governor ∅ ∅ ∅ ∅ ∅ ∅ false false None [] AdmissionPolicy.default ∅ ∅ ∅ ∅ 0 store 0 ∅
    None None AutonomousConstraints.default ∅ [].


(** ** Runs of a computation *)

Lemma M_bind_inv {A B} (m : M A) (f : A → M B) (env : Env) c b c' :
  (m ≫= f) env c = (Ok b, c') → ∃ a c1, m env c = (Ok a, c1) ∧ f a env c1 = (Ok b, c').
Proof. unfold mbind, M_bind. destruct (m env c) as [[a|] c1]; [|done]. eauto. Qed.
Lemma attempt_bind {A B} (m : M A) (f : result Failure.t A → M B) (env : Env) c :
  (attempt m ≫= f) env c = f (m env c).1 env (m env c).2.
Proof. unfold attempt, mbind, M_bind. by destruct (m env c). Qed.
End effects.

(** Split a run into its first step and the rest. *)
Ltac m_inv H :=
  let a := fresh "a" in let c := fresh "c" in let Ha := fresh "Ha" in
  apply M_bind_inv in H as (a & c & Ha & H).
