(* ===== verification/Controller.v ===== *)
(** * The controller's handlers (crates/rampage-controller/src/main.rs)

    Enrollment, revocation, STOP and resume, offers, and the staging of job inputs on the
    chosen worker, as computations over [AppState].  The admission gate serializes the
    handlers that change authority, so each runs as one step; a poisoned lock does not
    occur.  A success is its status code and the typed body. *)

From S2P Require Import Prelude.
From S2P Require Import Codec.
From S2P Require Import Text.
From S2P Require Import Float.
From S2P Require Import Contracts.
From S2P Require Import Wire.
From S2P Require Import Signing.
From S2P Require Import Governor.
From S2P Require Import Scheduler.
From S2P Require Import ModelPlanner.
From S2P Require Import Storage.
From S2P Require Import Ledger.
From S2P Require Import Economics.
From S2P Require Import Mesh.
From S2P Require Import Diagnostics.
From S2P Require Import ControllerState.
From stdpp Require Import pretty.
Import Text.
#[local] Open Scope Z_scope.

Module LinkProbeRequest.
Record t := mk { node_id : Uuid; nonce : Uuid; upload_base64 : string; download_bytes : Z }.
End LinkProbeRequest.

(** The serializers of the contracts the controller writes to its ledger or reads
    from a request. *)
Class ContractWire := {
  wire_identity :: Wire NodeIdentityV1.t;
  wire_job :: Wire JobSpecV1.t;
  wire_lease :: Wire CapabilityLeaseV1.t;
  wire_set :: Wire ShardSetV1.t;
  wire_claim :: Wire WorkClaimV1.t;
  wire_receipt :: Wire ExecutionReceiptV1.t;
  wire_artifact :: Wire ArtifactRefV1.t;
  wire_replica :: Wire ArtifactReplicaReceiptV1.t;
  wire_offer :: Wire ResourceOfferV1.t;
  wire_benchmark :: Wire LinkBenchmarkV1.t;
  wire_storage_lease :: Wire StorageLeaseV1.t;
  wire_score :: Wire PlacementScore.t;
  wire_placement :: Wire ShardPlacement.t;
  wire_constraints :: Wire AutonomousConstraints.t;
  wire_candidate :: Wire PromotionCandidateV1.t;
  wire_canary :: Wire PromotionCanaryLeaseV1.t;
  wire_enrollment :: Wire EnrollmentRequestV1.t;
  wire_link_probe :: Wire LinkProbeRequest.t;
  wire_result :: Wire FabricBenchmarkResultV1.t;
  wire_mesh :: MeshWire
}.

Module ReplicationOutcome.
Record t := mk {
  artifact : ArtifactRefV1.t; receipt : ArtifactReplicaReceiptV1.t; lease_id : Uuid;
  session_id : Uuid; resumed_chunks : Z; chunk_count : Z
}.
End ReplicationOutcome.

Module Controller.
Section handlers.
Context {codec : Codec} {crypto : Crypto} {ser : Serializer} {vault : Vault} {render : Render}
        {order : HashOrder} {wire : ContractWire} {iroh : Iroh}.

Definition uuid (u : Uuid) : Value := VString (uuid_to_string u).
Definition denied (status : Z) : ∀ {A}, result Denial.t A → M A := λ A, lift status Failure.Denied.

(** The checks that refuse work while the owner's latch is set. *)
Definition reject_if_stopped : M () :=
  stopped ← read AppState.kill_latch;
  reject_if stopped 423 "owner kill latch is active".
(** [admission_gate.try_lock()]. *)
Definition try_gate (message : string) : M () :=
  busy ← ask gate_busy; reject_if busy 503 message.

(** ** Enrollment *)

Definition hash_secret (secret : string) : string := hex_encode (sha256 secret).

Definition create_invite : M (Z * EnrollmentInviteV1.t) :=
  enabled ← read AppState.local_enrollment_enabled;
  _ ← reject_if (negb enabled) 403 "local enrollment is disabled on non-loopback binds";
  invite_id ← fresh_uuid;
  secret_id ← fresh_uuid;
  let secret := uuid_simple secret_id in
  t ← now;
  let expires_at := t + minutes 10 in
  _ ← modify (λ s, AppState.set_invites
                     (<[invite_id := InviteRecord.mk (hash_secret secret) expires_at]> (AppState.invites s)) s);
  _ ← append "enrollment.invite.created" (uuid_to_string invite_id)
        (VObject [("expires_at", VString (datetime_to_json expires_at));
                  ("secret_hash", VString (hash_secret secret))]);
  issued_at ← now;
  endpoint_id ← ask mesh_endpoint_id;
  direct_addresses ← ask mesh_direct_addresses;
  relay_urls ← ask mesh_relay_urls;
  governor ← read AppState.governor;
  let controller_mesh :=
    Governor.governor_sign_mesh_endpoint governor
      (MeshEndpointRecordV1.mk MeshEndpointRecordV1.SCHEMA endpoint_id direct_addresses relay_urls
         issued_at expires_at "") in
  mret (201, EnrollmentInviteV1.mk "rampage.enrollment-invite.v1" invite_id
               (uuid_to_string invite_id +:+ "." +:+ secret) expires_at (Some controller_mesh)
               (Some (Governor.public_key governor))).

Definition enroll_node (request : EnrollmentRequestV1.t) : M (Z * (Uuid * Z)) :=
  _ ← reject_if (EnrollmentRequestV1.schema request != "rampage.enrollment-request.v1") 400
        "unsupported enrollment schema";
  _ ← denied 401 (verify_enrollment request);
  invites ← read AppState.invites;
  let invite_id := EnrollmentRequestV1.invite_id request in
  record ← expect 401 "unknown or already consumed invite" (invites !! invite_id);
  _ ← modify (λ s, AppState.set_invites (delete invite_id (AppState.invites s)) s);
  t ← now;
  _ ← reject_if ((InviteRecord.expires_at record <=? t)
                 || (InviteRecord.secret_hash record
                       != hash_secret (EnrollmentRequestV1.enrollment_code request))) 401
        "expired or invalid enrollment code";
  let identity := EnrollmentRequestV1.identity request in
  let node_id := NodeIdentityV1.node_id identity in
  _ ← append "enrollment.invite.consumed" (uuid_to_string invite_id)
        (VObject [("node_id", uuid node_id)]);
  _ ← modify (λ s, AppState.set_nodes (<[node_id := identity]> (AppState.nodes s)) s);
  _ ← append "node.enrolled" (uuid_to_string node_id) (to_value identity);
  mret (201, (node_id, NodeIdentityV1.fencing_epoch identity)).

(** ** Diagnostics *)

(** The suppression each finding code stands for. *)
Definition suppression (code : string) : option string :=
  if code == "THERMAL_HEADROOM_CONSTRAINED" then Some "suppress_thermally_constrained_node"
  else if code == "BATTERY_RESERVE_CONSTRAINED" then Some "suppress_low_battery_node"
  else if (code == "AUTHENTICATED_ROUTE_MISSING") || (code == "AUTHENTICATED_ROUTE_EMPTY")
  then Some "suppress_unroutable_node" else None.

(** [reasons.sort(); reasons.dedup()] of a list of codes. *)
Definition sorted_unique (reasons : list string) : list string :=
  merge_sort String.le (elements (list_to_set reasons : gset string)).

Definition derive_autonomous_constraints (governor : Governor.t) (report : FabricDiagnosticReport.t)
    : AutonomousConstraints.t :=
  let add (excluded : gmap Uuid (list string)) (finding : DiagnosticFinding.t) :=
    match suppression (DiagnosticFinding.code finding) with
    | None => excluded
    | Some action =>
        if negb (is_ok (Governor.authorize_diagnostic_action governor action)) then excluded
        else match uuid_parse (DiagnosticFinding.scope finding) with
             | None => excluded
             | Some node_id =>
                 <[node_id := default [] (excluded !! node_id) ++ [DiagnosticFinding.code finding]]> excluded
             end
    end in
  AutonomousConstraints.mk (FabricDiagnosticReport.evidence_digest report)
    (sorted_unique <$> foldl add ∅ (FabricDiagnosticReport.findings report)).

Definition refresh_diagnostics : M () :=
  t ← now;
  nodes ← read AppState.nodes;
  offers ← read AppState.offers;
  active_assignments ← read (λ s, Z.of_nat (size (filter
    (λ kv, t < CapabilityLeaseV1.expires_at (Assignment.lease kv.2)) (AppState.assignments s))));
  artifact_replicas ← read AppState.artifact_replicas;
  replica_evidence ← read AppState.replica_evidence;
  ledger ← read AppState.ledger;
  events ← lift 500 Failure.LedgerFailed (Ledger.latest_events 512 ledger);
  dividends ← lift 500 Failure.LedgerFailed
                (Ledger.latest_events_of_type "fabric.dividend.recorded" 250 ledger);
  killed ← read AppState.kill_latch;
  let report := build_diagnostic_report t nodes offers active_assignments artifact_replicas
                  replica_evidence events dividends killed in
  governor ← read AppState.governor;
  let constraints := derive_autonomous_constraints governor report in
  current ← read AppState.autonomous_constraints;
  _ ← (if current != constraints
       then _ ← append "diagnostic.autonomy.applied" (AutonomousConstraints.evidence_digest constraints)
                  (to_value constraints);
            modify (AppState.set_autonomous_constraints constraints)
       else mret ());
  digest ← read AppState.diagnostic_digest;
  let report_digest := FabricDiagnosticReport.evidence_digest report in
  _ ← (if digest != Some report_digest
       then _ ← append "diagnostic.self_scan.completed" report_digest (FabricDiagnosticReport.value report);
            modify (AppState.set_diagnostic_digest (Some report_digest))
       else mret ());
  modify (AppState.set_diagnostic_report (Some report)).

(** ** Revocation *)

(** What [retain] keeps of each map when a node is revoked. *)
Definition forget_node (node_id : Uuid) (s : AppState.t) : AppState.t :=
  AppState.set_replica_evidence
    (filter (λ kv, kv.1.2 ≠ node_id) (AppState.replica_evidence s))
  (AppState.set_artifact_replicas
    (filter (λ kv, kv.1.2 ≠ node_id) (AppState.artifact_replicas s))
  (AppState.set_remote_desktop_sessions
    (filter (λ kv, RemoteDesktopLeaseV1.node_id (RemoteDesktopSession.lease kv.2) ≠ node_id)
       (AppState.remote_desktop_sessions s))
  (AppState.set_shard_sets
    (filter (λ kv, Forall (λ lease, CapabilityLeaseV1.node_id lease ≠ node_id)
                     (ShardSetRecord.leases kv.2)) (AppState.shard_sets s))
  (AppState.set_reservations
    (List.filter (λ r, ResourceReservation.node_id r != node_id) (AppState.reservations s))
  (AppState.set_assignments
    (filter (λ kv, CapabilityLeaseV1.node_id (Assignment.lease kv.2) ≠ node_id)
       (AppState.assignments s))
  (AppState.set_offers (delete node_id (AppState.offers s))
  (AppState.set_nodes (delete node_id (AppState.nodes s)) s))))))).

(** [for cancellation in model_cancellations.values() { let _ = cancellation.send(true); }]. *)
Definition cancel_model_sessions : M () :=
  modify (λ s, AppState.set_model_cancellations ((λ _, true) <$> AppState.model_cancellations s) s).

Definition revoke_node (node_id : Uuid) (confirmation : string) : M (Z * Z) :=
  _ ← reject_if (confirmation != "FORGET " +:+ uuid_to_string node_id) 403
        "exact device revocation confirmation is required";
  nodes ← read AppState.nodes;
  identity ← expect 404 "node is not enrolled" (nodes !! node_id);
  sessions ← read AppState.remote_desktop_sessions;
  let remote_sessions_closed :=
    Z.of_nat (size (filter (λ kv, RemoteDesktopLeaseV1.node_id (RemoteDesktopSession.lease kv.2)
                                    = node_id) sessions)) in
  revoked_at ← now;
  _ ← append "node.revoked" (uuid_to_string node_id)
        (VObject [("display_name", VString (NodeIdentityV1.display_name identity));
                  ("node_id", uuid node_id);
                  ("public_key", VString (NodeIdentityV1.public_key identity));
                  ("remote_assist_sessions_closed", VInt remote_sessions_closed);
                  ("revoked_at", VString (datetime_to_json revoked_at))]);
  _ ← modify (forget_node node_id);
  _ ← cancel_model_sessions;
  _ ← refresh_diagnostics;
  mret (200, remote_sessions_closed).

(** ** STOP and resume *)

Definition read_stop_epoch_marker (s : AppState.t) : option Z :=
  text ← AppState.stop_epoch s; parse_unsigned u64_max (trim text).
Definition write_stop_epoch_marker (fencing_epoch : Z) : M () :=
  modify (AppState.set_stop_epoch (Some (pretty fencing_epoch +:+ String "010" ""))).

(** The epoch, and whether the request repeated an earlier one. *)
Definition local_stop : M (Z * (Z * bool)) :=
  current_epoch ← read AppState.fencing_epoch;
  stopped ← read AppState.kill_latch;
  marker ← read read_stop_epoch_marker;
  if stopped && (marker == Some current_epoch) then mret (200, (current_epoch, true))
  else
    _ ← modify (AppState.set_kill_latch true);
    fencing_epoch ← advance_fencing_epoch "controller";
    _ ← modify (AppState.set_fencing_epoch fencing_epoch);
    _ ← write_stop_epoch_marker fencing_epoch;
    _ ← cancel_model_sessions;
    sessions ← read AppState.remote_desktop_sessions;
    _ ← modify (AppState.set_remote_desktop_sessions ∅);
    _ ← append "fabric.owner_stop" "local-fabric"
          (VObject [("fencing_epoch", VInt fencing_epoch);
                    ("remote_assist_sessions_closed", VInt (Z.of_nat (size sessions)));
                    ("source", VString "local-api")]);
    mret (202, (fencing_epoch, false)).

Definition local_resume (confirmation : string) : M (Z * Z) :=
  _ ← reject_if (confirmation != "OWNER_RESUME") 403 "exact owner resume confirmation is required";
  _ ← modify (AppState.set_stop_epoch None);
  _ ← modify (AppState.set_kill_latch false);
  _ ← append "fabric.owner_resume" "local-fabric"
        (VObject [("explicit_confirmation", VBool true); ("source", VString "local-api")]);
  fencing_epoch ← read AppState.fencing_epoch;
  mret (202, fencing_epoch).

(** ** Offers *)

Definition runtime_capacity_from_offer (offer : ResourceOfferV1.t) (runtime : ModelRuntimeOfferV1.t) : Z :=
  let available (class : ResourceClass.t) :=
    default 0 (ResourceQuantityV1.available <$>
      List.find (λ resource, (ResourceQuantityV1.class resource == class)
                             && (ResourceQuantityV1.unit resource == "byte"))
        (ResourceOfferV1.resources offer)) in
  let observed :=
    match ModelRuntimeOfferV1.memory_kind runtime with
    | ModelMemoryKind.DedicatedGpu => available ResourceClass.GpuMemory
    | ModelMemoryKind.Unified | ModelMemoryKind.Host => available ResourceClass.RamWorkingSet
    | ModelMemoryKind.Hybrid =>
        sat_add (available ResourceClass.GpuMemory) (available ResourceClass.RamWorkingSet)
    end in
  Z.min (ModelRuntimeOfferV1.available_model_bytes runtime) observed.

(** The [any] over a list that also inserts a key per element into a set: it stops at the
    first element that is malformed or repeats a key. *)
Fixpoint any_bad_or_repeated {A K} `{EqDecision K} (bad : A → bool) (key : A → K) (seen : list K)
    (l : list A) : bool :=
  match l with
  | [] => false
  | x :: l => bad x || bool_decide (key x ∈ seen) || any_bad_or_repeated bad key (key x :: seen) l
  end.

Definition runtime_status_consistent (runtime : ModelRuntimeOfferV1.t) : bool :=
  match ModelRuntimeOfferV1.status runtime with
  | ModelRuntimeStatus.ShippedLocal =>
      (ModelRuntimeOfferV1.backend runtime == ModelBackend.LocalOllama)
      && (ModelRuntimeOfferV1.adapter runtime == "rampage.ollama.v1")
      && starts_with "shipped-local:" (ModelRuntimeOfferV1.runtime_digest runtime)
      && bool_decide (ModelParallelism.WholeModel ∈ ModelRuntimeOfferV1.supported_parallelism runtime)
      && is_none (ModelRuntimeOfferV1.certification_digest runtime)
  | ModelRuntimeStatus.Qualified =>
      no_elems (ModelRuntimeOfferV1.installed_models runtime)
      && ModelRuntimeOfferV1.is_qualified_for_distributed runtime
  | ModelRuntimeStatus.Candidate => no_elems (ModelRuntimeOfferV1.installed_models runtime)
  end.

Definition malformed_runtime (offer : ResourceOfferV1.t) (runtime : ModelRuntimeOfferV1.t) : bool :=
  (ModelRuntimeOfferV1.schema runtime != ModelRuntimeOfferV1.SCHEMA)
  || blank (ModelRuntimeOfferV1.adapter runtime)
  || blank (ModelRuntimeOfferV1.runtime_version runtime)
  || blank (ModelRuntimeOfferV1.runtime_digest runtime)
  || blank (ModelRuntimeOfferV1.compatibility_key runtime)
  || (ModelRuntimeOfferV1.available_model_bytes runtime =? 0)
  || (runtime_capacity_from_offer offer runtime <? ModelRuntimeOfferV1.available_model_bytes runtime)
  || negb (bool_decide (ModelRuntimeOfferV1.adapter runtime ∈ ResourceOfferV1.adapters offer))
  || (128 <? zlen (ModelRuntimeOfferV1.installed_models runtime)).

(** The loop over the runtimes, with the keys already seen. *)
Fixpoint check_runtimes (offer : ResourceOfferV1.t) (seen : list (ModelBackend.t * string))
    (runtimes : list ModelRuntimeOfferV1.t) : result string () :=
  match runtimes with
  | [] => Ok ()
  | runtime :: runtimes =>
      let key := (ModelRuntimeOfferV1.backend runtime, ModelRuntimeOfferV1.compatibility_key runtime) in
      if malformed_runtime offer runtime || bool_decide (key ∈ seen)
      then Err "offer contains a malformed or contradictory model-runtime profile"
      else if any_bad_or_repeated (λ model, negb (InstalledModelV1.is_valid model))
                InstalledModelV1.model_id [] (ModelRuntimeOfferV1.installed_models runtime)
      then Err "offer contains a malformed or duplicate installed model"
      else if negb (runtime_status_consistent runtime)
      then Err "model runtime status, backend, topology, or installed-model authority is inconsistent"
      else check_runtimes offer (key :: seen) runtimes
  end.

Definition validate_model_runtime_contracts (offer : ResourceOfferV1.t) : result string () :=
  if 64 <? zlen (ResourceOfferV1.workload_capabilities offer)
  then Err "offer contains too many workload-capability profiles"
  else if any_bad_or_repeated
            (λ capability, negb (WorkloadCapabilityV1.is_valid capability)
               || negb (bool_decide (WorkloadCapabilityV1.adapter capability
                                       ∈ ResourceOfferV1.adapters offer)))
            WorkloadCapabilityV1.adapter [] (ResourceOfferV1.workload_capabilities offer)
  then Err "offer contains a malformed or duplicate workload capability"
  else if 16 <? zlen (ResourceOfferV1.model_runtimes offer)
  then Err "offer exceeds the 16 model-runtime profile limit"
  else check_runtimes offer [] (ResourceOfferV1.model_runtimes offer).

Definition validate_offer_identity_binding (identity : NodeIdentityV1.t) (offer : ResourceOfferV1.t)
    : result string () :=
  if no_elems (ResourceOfferV1.resources offer)
  then Err "resource offer must contain at least one exact resource"
  else
    let expected := device_kind_label (NodeIdentityV1.device_kind identity) in
    if existsb (λ resource, ResourceQuantityV1.labels resource !! "device_kind" != Some expected)
         (ResourceOfferV1.resources offer)
    then Err "resource device class does not match the enrolled native identity"
    else
      match NodeIdentityV1.device_kind identity with
      | DeviceKind.Phone | DeviceKind.Tablet | DeviceKind.Console =>
          if is_none (AvailabilityV1.battery_percent (ResourceOfferV1.availability offer))
          then Err "edge offers must include a native battery observation" else Ok ()
      | _ => Ok ()
      end.

Definition OFFER_EVIDENCE_INTERVAL : Z := seconds 3600.
Definition should_record_offer_evidence (recorded_at : option DateTime) (t : DateTime) : bool :=
  is_none_or (λ recorded_at, OFFER_EVIDENCE_INTERVAL <=? t - recorded_at) recorded_at.

(** The checks on an offer's mesh endpoint. *)
Definition check_offer_endpoint (identity : NodeIdentityV1.t) (offer : ResourceOfferV1.t) : M () :=
  match ResourceOfferV1.mesh_endpoint offer with
  | None => mret ()
  | Some endpoint =>
      _ ← reject_if (MeshEndpointRecordV1.endpoint_id endpoint != NodeIdentityV1.public_key identity) 401
            "worker endpoint and enrolled identity differ";
      t1 ← now;
      t2 ← now;
      _ ← denied 401 (verify_mesh_endpoint_with_key t1 t2 (NodeIdentityV1.public_key identity) endpoint);
      reject_if (MeshEndpointRecordV1.expires_at endpoint != ResourceOfferV1.expires_at offer) 400
        "worker endpoint and resource offer expiries differ"
  end.

Definition register_offer (offer : ResourceOfferV1.t) : M (Z * Uuid) :=
  t0 ← now;
  _ ← reject_if (is_empty (ResourceOfferV1.signature offer) || (ResourceOfferV1.expires_at offer <=? t0)) 400
        "invalid or expired offer";
  nodes ← read AppState.nodes;
  let node_id := ResourceOfferV1.node_id offer in
  identity ← expect 401 "node is not enrolled" (nodes !! node_id);
  _ ← denied 401 (verify_offer identity offer);
  _ ← lift 401 Failure.Message (validate_offer_identity_binding identity offer);
  _ ← lift 400 Failure.Message (validate_model_runtime_contracts offer);
  endpoint_id ← ask mesh_endpoint_id;
  _ ← reject_if (is_some_and (λ benchmark,
                    negb (LinkBenchmarkV1.is_valid_for benchmark endpoint_id
                            (ResourceOfferV1.observed_at offer) (ResourceOfferV1.expires_at offer)))
                   (ResourceOfferV1.link_benchmark offer)) 400
        "link benchmark is stale, malformed, or targets another controller";
  _ ← check_offer_endpoint identity offer;
  t ← now;
  evidence_times ← read AppState.offer_evidence_recorded_at;
  _ ← (if should_record_offer_evidence (evidence_times !! node_id) t
       then
         _ ← match ResourceOfferV1.link_benchmark offer with
             | Some benchmark =>
                 append "network.benchmark.recorded" (uuid_to_string node_id) (to_value benchmark)
             | None => mret ()
             end;
         _ ← append "resource.offer.registered" (uuid_to_string node_id) (to_value offer);
         modify (λ s, AppState.set_offer_evidence_recorded_at
                        (<[node_id := t]> (AppState.offer_evidence_recorded_at s)) s)
       else mret ());
  _ ← modify (λ s, AppState.set_offers (<[node_id := offer]> (AppState.offers s)) s);
  mret (201, ResourceOfferV1.offer_id offer).

(** ** Placement inputs *)

Definition placement_offers (s : AppState.t) : list ResourceOfferV1.t :=
  List.filter
    (λ offer, negb (is_some (AutonomousConstraints.excluded_nodes (AppState.autonomous_constraints s)
                               !! ResourceOfferV1.node_id offer)))
    (values (AppState.offers s)).

Definition input_locality (s : AppState.t) (offers : list ResourceOfferV1.t) (job : JobSpecV1.t)
    : gmap Uuid (gset string) :=
  let digests := ArtifactRefV1.digest <$> JobSpecV1.inputs job in
  let local (offer : ResourceOfferV1.t) : gset string :=
    if is_none (ResourceOfferV1.mesh_endpoint offer) then list_to_set digests
    else list_to_set (List.filter
           (λ digest, is_some (AppState.artifact_replicas s !! (digest, ResourceOfferV1.node_id offer)))
           digests) in
  foldl (λ m offer, <[ResourceOfferV1.node_id offer := local offer]> m) ∅ offers.

Definition shard_input_locality (s : AppState.t) (offers : list ResourceOfferV1.t) (set : ShardSetV1.t)
    : gmap (Uuid * Uuid) (gset string) :=
  foldl (λ m job,
      map_fold (λ node_id digests m, <[(JobSpecV1.job_id job, node_id) := digests]> m) m
        (input_locality s offers job)) ∅ (ShardSetV1.shards set).

(** ** Input staging *)

(** The 16 bytes of a session id from the first 16 bytes of a digest, marked as a UUID. *)
Definition session_bytes (digest : string) : list N :=
  (λ p : nat * ascii, let '(i, c) := p in
    let b := N_of_ascii c in
    if (i =? 6)%nat then N.lor (N.land b 15) 80
    else if (i =? 8)%nat then N.lor (N.land b 63) 128 else b)
  <$> zip (seq 0 16) (chars digest).
(** The big-endian bytes of an identifier, and back. *)
Definition uuid_bytes (u : Uuid) : string :=
  String.string_of_list_ascii
    ((λ k : nat, ascii_of_N (Z.to_N (Z.shiftr u (8 * Z.of_nat (15 - k)) mod 256))) <$> seq 0 16).
Definition uuid_from_bytes (bytes : list N) : Uuid := foldl (λ acc b, 256 * acc + Z.of_N b) 0 bytes.
Definition artifact_transfer_session_id (node_id : Uuid) (digest : string)
    (operation : ArtifactTransferOperation.t) : Uuid :=
  let label := match operation with
               | ArtifactTransferOperation.Put => "put" | ArtifactTransferOperation.Get => "get" end in
  uuid_from_bytes (session_bytes (sha256
    ("rampage.artifact-transfer-session.v1" +:+ Ledger.nul +:+ uuid_bytes node_id +:+ Ledger.nul
       +:+ digest +:+ Ledger.nul +:+ label))).

(** [anyhow::Error] inside staging, reported as 502. *)
Definition STAGING : Z := 502.
Definition ensure (b : bool) (message : string) : M () := reject_if (negb b) STAGING message.

Definition verify_replica_evidence (offer : ResourceOfferV1.t) (lease : StorageLeaseV1.t)
    (session_id : Uuid) (challenge_nonce : string) (receipt : ArtifactReplicaReceiptV1.t) : M () :=
  nodes ← read AppState.nodes;
  identity ← expect STAGING "replica node identity is unavailable" (nodes !! ResourceOfferV1.node_id offer);
  t ← now;
  _ ← denied STAGING (verify_artifact_replica_receipt t identity receipt);
  ensure ((ArtifactReplicaReceiptV1.session_id receipt == session_id)
          && (ArtifactReplicaReceiptV1.lease_id receipt == StorageLeaseV1.lease_id lease)
          && (ArtifactReplicaReceiptV1.node_id receipt == ResourceOfferV1.node_id offer)
          && (ArtifactReplicaReceiptV1.digest receipt == StorageLeaseV1.digest lease)
          && (ArtifactReplicaReceiptV1.size_bytes receipt =? StorageLeaseV1.size_bytes lease)
          && (ArtifactReplicaReceiptV1.storage_class receipt == StorageLeaseV1.storage_class lease)
          && (ArtifactReplicaReceiptV1.challenge_nonce receipt == challenge_nonce)
          && (ArtifactReplicaReceiptV1.fencing_epoch receipt =? StorageLeaseV1.fencing_epoch lease))
    "replica receipt is not bound to the exact transfer authority".

(** One call of the artifact protocol, under a request id of its own. *)
Definition transfer {A} (status : Z) (endpoint : EndpointAddr) (context : ArtifactTransferContext.t)
    (action : ArtifactTransferActionV2.t) (index : option Z) (digest : option string) (payload : string)
    (call : Link → Uuid → result Fault A) : M A :=
  request_id ← fresh_uuid;
  over_mesh status endpoint ARTIFACT_ALPN
    (artifact_message (transfer_request context request_id action index digest (len payload)) payload)
    (λ link, call link request_id).

(** One missing chunk: read locally, sent, and the reply checked. *)
Definition send_chunk (endpoint : EndpointAddr) (source : ArtifactRefV1.t) (lease : StorageLeaseV1.t)
    (session_id : Uuid) (index : Z) : M () :=
  store ← read AppState.artifact_store;
  chunk ← lift STAGING Failure.StoreFailed (CasStore.get_chunk store (ArtifactRefV1.digest source) index);
  let chunk_digest := CasStore.sha256_digest chunk in
  challenge_id ← fresh_uuid;
  let context := ArtifactTransferContext.mk lease (ArtifactRefV1.media_type source) session_id
                   (uuid_simple challenge_id) in
  updated ← transfer STAGING endpoint context ArtifactTransferActionV2.PutChunk (Some index)
              (Some chunk_digest) chunk
              (λ link request_id, artifact_put_chunk link context request_id index chunk_digest chunk);
  ensure (ArtifactTransferProgressV1.is_valid updated
          && (ArtifactTransferProgressV1.session_id updated == session_id)
          && (ArtifactTransferProgressV1.digest updated == ArtifactRefV1.digest source))
    "remote transfer progress changed its content binding".

Definition replicate_to_offer (offer : ResourceOfferV1.t) (endpoint : EndpointAddr)
    (source : ArtifactRefV1.t) (storage_class : StorageClass.t) : M ReplicationOutcome.t :=
  governor ← read AppState.governor;
  epoch ← read AppState.fencing_epoch;
  t ← now;
  lease_id ← fresh_uuid;
  nonce_id ← fresh_uuid;
  lease ← denied STAGING (Governor.authorize_storage_at_epoch governor offer (ArtifactRefV1.digest source)
            (ArtifactRefV1.size_bytes source) storage_class ArtifactTransferOperation.Put epoch t
            lease_id nonce_id);
  _ ← append "storage.lease.issued" (uuid_to_string (StorageLeaseV1.lease_id lease)) (to_value lease);
  let session_id :=
    artifact_transfer_session_id (ResourceOfferV1.node_id offer) (ArtifactRefV1.digest source)
      ArtifactTransferOperation.Put in
  let context (challenge_id : Uuid) :=
    ArtifactTransferContext.mk lease (ArtifactRefV1.media_type source) session_id (uuid_simple challenge_id) in
  challenge_id ← fresh_uuid;
  progress ← transfer STAGING endpoint (context challenge_id) ArtifactTransferActionV2.Begin None None ""
               (λ link request_id, artifact_put link (context challenge_id) request_id);
  _ ← ensure (ArtifactTransferProgressV1.is_valid progress
              && (ArtifactTransferProgressV1.session_id progress == session_id)
              && (ArtifactTransferProgressV1.digest progress == ArtifactRefV1.digest source)
              && (ArtifactTransferProgressV1.size_bytes progress =? ArtifactRefV1.size_bytes source))
        "remote transfer progress is malformed or mismatched";
  _ ← for_each (send_chunk endpoint source lease session_id)
        (ArtifactTransferProgressV1.missing_chunks progress);
  challenge_id ← fresh_uuid;
  let challenge_nonce := uuid_simple challenge_id in
  '(artifact, receipt) ←
    transfer STAGING endpoint (context challenge_id) ArtifactTransferActionV2.Commit None None ""
      (λ link request_id, artifact_commit link (context challenge_id) request_id);
  _ ← ensure ((ArtifactRefV1.digest artifact == ArtifactRefV1.digest source)
              && (ArtifactRefV1.size_bytes artifact =? ArtifactRefV1.size_bytes source)
              && (ArtifactRefV1.media_type artifact == ArtifactRefV1.media_type source)
              && (ArtifactRefV1.storage_class artifact == storage_class)
              && ArtifactRefV1.encrypted artifact)
        "remote artifact does not match the source contract";
  _ ← verify_replica_evidence offer lease session_id challenge_nonce receipt;
  mret (ReplicationOutcome.mk artifact receipt (StorageLeaseV1.lease_id lease) session_id
          (zlen (ArtifactTransferProgressV1.received_chunks progress))
          (ArtifactTransferProgressV1.chunk_count progress)).

Definition stage_input (offer : ResourceOfferV1.t) (job : JobSpecV1.t) (input : ArtifactRefV1.t) : M () :=
  store ← read AppState.artifact_store;
  local ← lift 400 Failure.StoreFailed (CasStore.head store (ArtifactRefV1.digest input));
  _ ← reject_if ((ArtifactRefV1.size_bytes local != ArtifactRefV1.size_bytes input)
                 || (ArtifactRefV1.media_type local != ArtifactRefV1.media_type input)
                 || (ArtifactRefV1.storage_class local != ArtifactRefV1.storage_class input)) 400
        "job input metadata does not match the controller CAS";
  match ResourceOfferV1.mesh_endpoint offer with
  | None => mret ()
  | Some endpoint_record =>
      let node_id := ResourceOfferV1.node_id offer in
      replicas ← read AppState.artifact_replicas;
      if is_some (replicas !! (ArtifactRefV1.digest input, node_id)) then mret ()
      else
        t ← now;
        endpoint ← lift 409 (λ e, Failure.MeshFailed (Mesh e)) (endpoint_addr_from_record endpoint_record t);
        outcome ← replicate_to_offer offer endpoint local (ArtifactRefV1.storage_class input);
        let remote := ReplicationOutcome.artifact outcome in
        let key := (ArtifactRefV1.digest remote, node_id) in
        _ ← modify (λ s, AppState.set_artifact_replicas (<[key := remote]> (AppState.artifact_replicas s)) s);
        _ ← modify (λ s, AppState.set_replica_evidence
                           (<[key := ReplicationOutcome.receipt outcome]> (AppState.replica_evidence s)) s);
        append "artifact.input.staged" (ArtifactRefV1.digest remote)
          (VObject [("artifact", to_value remote);
                    ("chunk_count", VInt (ReplicationOutcome.chunk_count outcome));
                    ("job_id", uuid (JobSpecV1.job_id job));
                    ("node_id", uuid node_id);
                    ("replica_receipt", to_value (ReplicationOutcome.receipt outcome));
                    ("resumed_chunks", VInt (ReplicationOutcome.resumed_chunks outcome));
                    ("storage_lease_id", uuid (ReplicationOutcome.lease_id outcome));
                    ("transfer_session_id", uuid (ReplicationOutcome.session_id outcome))])
  end.

Definition stage_job_inputs (offer : ResourceOfferV1.t) (job : JobSpecV1.t) : M () :=
  for_each (stage_input offer job) (JobSpecV1.inputs job).

End handlers.
End Controller.
