(* ===== verification/Artifacts.v ===== *)
(** * The controller's artifact endpoints and protected storage (crates/rampage-controller/src/main.rs)

    Artifacts put into and read from the controller's own store, copied to and fetched from
    contributors over the mesh, and the reconciliation that probes the recorded replicas of
    protected artifacts and repairs those with fewer than two fresh proofs of possession. *)

From S2P Require Import Prelude.
From S2P Require Import Codec.
From S2P Require Import Text.
From S2P Require Import Contracts.
From S2P Require Import Wire.
From S2P Require Import Signing.
From S2P Require Import Governor.
From S2P Require Import Storage.
From S2P Require Import Ledger.
From S2P Require Import Mesh.
From S2P Require Import Diagnostics.
From S2P Require Import ControllerState.
From S2P Require Import Controller.
Import Text Controller.

Module ArtifactPutRequest.
Record t := mk { data_base64 : string; media_type : string; storage_class : StorageClass.t }.
End ArtifactPutRequest.
Module ArtifactReplicateRequest.
Record t := mk { digest : string; node_id : Uuid; media_type : string; storage_class : StorageClass.t }.
End ArtifactReplicateRequest.
Module ArtifactRetrieveRequest.
Record t := mk { digest : string; node_id : Uuid }.
End ArtifactRetrieveRequest.
Module EventQuery.
Record t := mk { after : option Z; limit : option Z; latest : bool }.
End EventQuery.

Definition MAX_AUTONOMOUS_REPAIRS_PER_CYCLE : Z := 4.
Definition MAX_REPLICA_PROBES_PER_CYCLE : Z := 4.
Definition MAX_REPLICA_VERIFICATION_BYTES_PER_CYCLE : Z := 128 * 1024 * 1024.

(** [(String, Uuid, ArtifactRefV1)]. *)
Definition Recorded : Type := string * Uuid * ArtifactRefV1.t.
Definition recorded_key (r : Recorded) : string * Uuid := (r.1.1, r.1.2).

(** The order of the pair of digest and node. *)
Definition recorded_le (a b : Recorded) : Prop :=
  if decide (a.1.1 = b.1.1) then a.1.2 ≤ b.1.2 else String.le a.1.1 b.1.1.
#[global] Instance recorded_le_dec a b : Decision (recorded_le a b).
Proof. unfold recorded_le. destruct (decide (a.1.1 = b.1.1)); apply _. Defined.

(** ** The choice of replicas to probe *)

(** The candidates from [start] around to the one before it. *)
Definition rotate (start : nat) (candidates : list Recorded) : list Recorded :=
  drop start candidates ++ take start candidates.

(** One turn of the loop: the candidate is selected unless the cycle is full, its size
    overflows, or it does not fit and is not the first. *)
Definition consider (acc : gset (string * Uuid) * Z) (candidate : Recorded) : gset (string * Uuid) * Z :=
  let '(selected, bytes) := acc in
  if MAX_REPLICA_PROBES_PER_CYCLE <=? Z.of_nat (size selected) then acc
  else
    match checked_add bytes (ArtifactRefV1.size_bytes candidate.2) with
    | None => acc
    | Some next_bytes =>
        if (MAX_REPLICA_VERIFICATION_BYTES_PER_CYCLE <? next_bytes) && (selected != ∅) then acc
        else (selected ∪ {[recorded_key candidate]}, next_bytes)
    end.
Definition select_replica_probes (candidates : list Recorded) (cursor : Z) : gset (string * Uuid) :=
  match candidates with
  | [] => ∅
  | _ => (foldl consider (∅, 0) (rotate (Z.to_nat (cursor `mod` zlen candidates)) candidates)).1
  end.

Definition required_replicas (class : StorageClass.t) : Z :=
  if class == StorageClass.Protected then 2 else 1.
Definition same_contract (a b : ArtifactRefV1.t) : bool :=
  (ArtifactRefV1.digest a == ArtifactRefV1.digest b)
  && (ArtifactRefV1.size_bytes a =? ArtifactRefV1.size_bytes b)
  && (ArtifactRefV1.media_type a == ArtifactRefV1.media_type b).
(** A contributor's answer against the contract on record. *)
Definition same_replica (remote artifact : ArtifactRefV1.t) : bool :=
  same_contract remote artifact
  && (ArtifactRefV1.storage_class remote == ArtifactRefV1.storage_class artifact)
  && ArtifactRefV1.encrypted remote.

Definition retrieval_sink_contract (remote : ArtifactRefV1.t) (local : option ArtifactRefV1.t)
    : result string (StorageClass.t * Z) :=
  match local with
  | Some local =>
      if negb (same_contract local remote && ArtifactRefV1.encrypted local)
      then Err "local content address conflicts with the remote artifact contract"
      else Ok (ArtifactRefV1.storage_class local, required_replicas (ArtifactRefV1.storage_class local))
  | None => Ok (ArtifactRefV1.storage_class remote, required_replicas (ArtifactRefV1.storage_class remote))
  end.

Module Artifacts.
Section handlers.
Context {codec : Codec} {crypto : Crypto} {ser : Serializer} {vault : Vault} {render : Render}
        {order : HashOrder} {wire : ContractWire} {iroh : Iroh} {base64 : Base64}.
(** The text of an error. *)
Context (describe : Failure.reason → string).

(** ** The local store *)

Definition put_artifact (request : ArtifactPutRequest.t) : M (Z * ArtifactRefV1.t) :=
  _ ← reject_if_stopped;
  _ ← reject_if (ArtifactPutRequest.storage_class request == StorageClass.Protected) 400
        "protected artifacts require a remote replica; put as cache or scratch, then replicate as protected";
  payload ← expect 400 "artifact payload is not valid base64"
              (base64_decode (ArtifactPutRequest.data_base64 request));
  _ ← reject_if (MAX_ARTIFACT_TRANSFER_BYTES <? len payload) 413
        "artifact exceeds the 64 MiB transfer limit";
  artifact ← on_local_store 500 (λ t nonces store,
    CasStore.put store payload
      (PutOptions.mk (ArtifactPutRequest.media_type request) (ArtifactPutRequest.storage_class request) 1)
      nonces t);
  _ ← append "artifact.stored.local" (ArtifactRefV1.digest artifact) (to_value artifact);
  mret (201, artifact).

Definition get_artifact (digest : string) : M Value :=
  store ← read AppState.artifact_store;
  artifact ← lift 404 Failure.StoreFailed (CasStore.head store digest);
  payload ← lift 500 Failure.StoreFailed (CasStore.get store digest);
  mret (VObject [("artifact", to_value artifact); ("data_base64", VString (base64_encode payload));
                 ("schema", VString "rampage.artifact-payload.v1")]).

(** ** Replicas *)

Definition remote_offer (node_id : Uuid) : M (ResourceOfferV1.t * EndpointAddr) :=
  t ← now;
  offers ← read AppState.offers;
  offer ← expect 409 "node has no current resource offer"
            (offer ← offers !! node_id; if t <? ResourceOfferV1.expires_at offer then Some offer else None);
  record ← expect 409 "node does not advertise an authenticated mesh endpoint" (ResourceOfferV1.mesh_endpoint offer);
  t1 ← now;
  endpoint ← lift 409 (λ e, Failure.MeshFailed (Mesh e)) (endpoint_addr_from_record record t1);
  mret (offer, endpoint).

(** The value a replication reports, besides the fields of its event. *)
Definition outcome_fields (node_id : Uuid) (outcome : ReplicationOutcome.t) : list (string * Value) :=
  [("artifact", to_value (ReplicationOutcome.artifact outcome));
   ("chunk_count", VInt (ReplicationOutcome.chunk_count outcome));
   ("node_id", uuid node_id);
   ("replica_receipt", to_value (ReplicationOutcome.receipt outcome));
   ("resumed_chunks", VInt (ReplicationOutcome.resumed_chunks outcome));
   ("storage_lease_id", uuid (ReplicationOutcome.lease_id outcome));
   ("transfer_session_id", uuid (ReplicationOutcome.session_id outcome))].
(** The registries of replicas and of their evidence. *)
Definition record_replica (key : string * Uuid) (outcome : ReplicationOutcome.t) : M () :=
  modify (λ s, AppState.set_replica_evidence
                 (<[key := ReplicationOutcome.receipt outcome]> (AppState.replica_evidence s))
               (AppState.set_artifact_replicas
                 (<[key := ReplicationOutcome.artifact outcome]> (AppState.artifact_replicas s)) s)).

Definition replicate_artifact (request : ArtifactReplicateRequest.t) : M (Z * Value) :=
  _ ← reject_if_stopped;
  store ← read AppState.artifact_store;
  source ← lift 404 Failure.StoreFailed (CasStore.head store (ArtifactReplicateRequest.digest request));
  _ ← reject_if (ArtifactReplicateRequest.media_type request != ArtifactRefV1.media_type source) 400
        "replica media type must match the source artifact";
  '(offer, endpoint) ← remote_offer (ArtifactReplicateRequest.node_id request);
  outcome ← replicate_to_offer offer endpoint source (ArtifactReplicateRequest.storage_class request);
  let digest := ArtifactRefV1.digest (ReplicationOutcome.artifact outcome) in
  _ ← record_replica (digest, ArtifactReplicateRequest.node_id request) outcome;
  let value := VObject (outcome_fields (ArtifactReplicateRequest.node_id request) outcome) in
  _ ← append "artifact.replicated" digest value;
  mret (201, value).

(** A lease to read a replica, recorded. *)
Definition read_lease (status : Z) (offer : ResourceOfferV1.t) (artifact : ArtifactRefV1.t) : M StorageLeaseV1.t :=
  governor ← read AppState.governor;
  epoch ← read AppState.fencing_epoch;
  t ← now;
  lease_id ← fresh_uuid;
  nonce_id ← fresh_uuid;
  lease ← denied status (Governor.authorize_storage_at_epoch governor offer (ArtifactRefV1.digest artifact)
            (ArtifactRefV1.size_bytes artifact) (ArtifactRefV1.storage_class artifact)
            ArtifactTransferOperation.Get epoch t lease_id nonce_id);
  _ ← append "storage.lease.issued" (uuid_to_string (StorageLeaseV1.lease_id lease)) (to_value lease);
  mret lease.
Definition read_session (node_id : Uuid) (artifact : ArtifactRefV1.t) : Uuid :=
  artifact_transfer_session_id node_id (ArtifactRefV1.digest artifact) ArtifactTransferOperation.Get.

Definition probe_replica (offer : ResourceOfferV1.t) (artifact : ArtifactRefV1.t) : M ArtifactReplicaReceiptV1.t :=
  record ← expect STAGING "replica has no signed mesh endpoint" (ResourceOfferV1.mesh_endpoint offer);
  t ← now;
  endpoint ← lift STAGING (λ e, Failure.MeshFailed (Mesh e)) (endpoint_addr_from_record record t);
  lease ← read_lease STAGING offer artifact;
  let session_id := read_session (ResourceOfferV1.node_id offer) artifact in
  challenge_id ← fresh_uuid;
  let challenge_nonce := uuid_simple challenge_id in
  let context := ArtifactTransferContext.mk lease (ArtifactRefV1.media_type artifact) session_id challenge_nonce in
  '(remote, receipt) ← transfer STAGING endpoint context ArtifactTransferActionV2.Head None None ""
                         (λ link request_id, artifact_head link context request_id);
  _ ← ensure (same_replica remote artifact) "replica probe returned a different artifact contract";
  _ ← verify_replica_evidence offer lease session_id challenge_nonce receipt;
  mret receipt.

(** ** Retrieval *)

Definition sink_spec (session_id : Uuid) (lease : StorageLeaseV1.t) (remote : ArtifactRefV1.t)
    (sink : StorageClass.t * Z) : ResumablePutSpec.t :=
  ResumablePutSpec.mk (uuid_simple session_id) (uuid_simple (StorageLeaseV1.lease_id lease)) "governor"
    (StorageLeaseV1.fencing_epoch lease) (StorageLeaseV1.nonce lease) (StorageLeaseV1.expires_at lease)
    (ArtifactRefV1.digest remote) (ArtifactRefV1.size_bytes remote) (ArtifactRefV1.media_type remote)
    sink.1 sink.2 ARTIFACT_TRANSFER_CHUNK_BYTES.

(** One missing chunk, fetched under [lease] and stored. *)
Definition retrieve_chunk (endpoint : EndpointAddr) (remote : ArtifactRefV1.t) (session_id : Uuid)
    (sink : StorageClass.t * Z) (lease : StorageLeaseV1.t) (index : Z) : M () :=
  challenge_id ← fresh_uuid;
  let context := ArtifactTransferContext.mk lease (ArtifactRefV1.media_type remote) session_id
                   (uuid_simple challenge_id) in
  '(artifact, chunk_digest, chunk) ←
    transfer 502 endpoint context ArtifactTransferActionV2.GetChunk (Some index) None ""
      (λ link request_id, artifact_get_chunk link context request_id index);
  _ ← reject_if (negb (same_replica artifact remote)) 502 "remote chunk changed the artifact contract";
  _ ← on_local_store 500 (λ t _ store,
        CasStore.begin_resumable_put store (sink_spec session_id lease remote sink) t);
  _ ← on_local_store 500 (λ t nonces store,
        CasStore.put_resumable_chunk store (uuid_simple session_id) index chunk_digest chunk (nonces 0%nat) t);
  mret ().

(** The chunks in order: the first under the lease at hand, each further one under a lease
    of its own. *)
Fixpoint retrieve_chunks (offer : ResourceOfferV1.t) (endpoint : EndpointAddr) (remote : ArtifactRefV1.t)
    (session_id : Uuid) (sink : StorageClass.t * Z) (lease : StorageLeaseV1.t) (first : bool)
    (missing : list Z) (lease_ids : list Uuid) : M (list Uuid) :=
  match missing with
  | [] => mret lease_ids
  | index :: missing =>
      lease ← (if first then mret lease else read_lease 403 offer remote);
      _ ← retrieve_chunk endpoint remote session_id sink lease index;
      retrieve_chunks offer endpoint remote session_id sink lease false missing
        (lease_ids ++ [StorageLeaseV1.lease_id lease])
  end.

Definition retrieve_artifact (request : ArtifactRetrieveRequest.t) : M Value :=
  let node_id := ArtifactRetrieveRequest.node_id request in
  _ ← reject_if_stopped;
  replicas ← read AppState.artifact_replicas;
  remote ← expect 404 "no verified replica is recorded for that node"
             (replicas !! (ArtifactRetrieveRequest.digest request, node_id));
  '(offer, endpoint) ← remote_offer node_id;
  store ← read AppState.artifact_store;
  let local_contract := match CasStore.head store (ArtifactRefV1.digest remote) with
                        | Ok artifact => Some artifact | Err _ => None end in
  sink ← lift 409 Failure.Message (retrieval_sink_contract remote local_contract);
  let session_id := read_session node_id remote in
  lease ← read_lease 403 offer remote;
  progress ← on_local_store 500 (λ t _ store,
               CasStore.begin_resumable_put store (sink_spec session_id lease remote sink) t);
  lease_ids ← retrieve_chunks offer endpoint remote session_id sink lease true
                (ResumablePutStatus.missing_chunks progress) [];
  local ← on_local_store 500 (λ t _ store, CasStore.commit_resumable_put store (uuid_simple session_id) t);
  _ ← reject_if (ArtifactRefV1.digest local != ArtifactRefV1.digest remote) 502
        "retrieved artifact failed content-address verification";
  receipt ← probe_replica offer remote;
  _ ← modify (λ s, AppState.set_replica_evidence
                     (<[(ArtifactRefV1.digest remote, node_id) := receipt]> (AppState.replica_evidence s)) s);
  store ← read AppState.artifact_store;
  payload ← lift 500 Failure.StoreFailed (CasStore.get store (ArtifactRefV1.digest local));
  let resumed := VInt (zlen (ResumablePutStatus.received_chunks progress)) in
  _ ← append "artifact.retrieved" (ArtifactRefV1.digest local)
        (VObject [("artifact", to_value local); ("node_id", uuid node_id); ("replica_receipt", to_value receipt);
                  ("resumed_chunks", resumed); ("storage_lease_ids", VArray (uuid <$> lease_ids));
                  ("transfer_session_id", uuid session_id)]);
  mret (VObject [("artifact", to_value local); ("data_base64", VString (base64_encode payload));
                 ("node_id", uuid node_id); ("resumed_chunks", resumed);
                 ("schema", VString "rampage.artifact-payload.v1"); ("transfer_session_id", uuid session_id)]).

(** ** Reconciliation *)

Definition invalidate_replica (digest : string) (node_id : Uuid) (reason : string) : M () :=
  _ ← modify (λ s, AppState.set_replica_evidence (delete (digest, node_id) (AppState.replica_evidence s)) s);
  append "artifact.replica.invalidated" digest
    (VObject [("digest", VString digest); ("node_id", uuid node_id); ("reason", VString reason)]).

Definition is_fresh_evidence (evidence : gmap (string * Uuid) ArtifactReplicaReceiptV1.t) (t : DateTime)
    (key : string * Uuid) : bool :=
  is_some_and (λ receipt, ArtifactReplicaReceiptV1.is_valid_at receipt t) (evidence !! key).

(** The recorded replicas of protected artifacts, by digest and node. *)
Definition protected_replicas (s : AppState.t) : list Recorded :=
  merge_sort recorded_le
    ((λ kv, (kv.1.1, kv.1.2, kv.2)) <$>
       List.filter (λ kv, ArtifactRefV1.storage_class kv.2 == StorageClass.Protected)
         (hash_order (map_to_list (AppState.artifact_replicas s)))).
(** [by_digest.entry(digest).or_insert_with(...).1.insert(node_id)]. *)
Definition group_replica (by_digest : gmap string (ArtifactRefV1.t * gset Uuid)) (r : Recorded)
    : gmap string (ArtifactRefV1.t * gset Uuid) :=
  let '(digest, node_id, artifact) := r in
  let '(first, nodes) := default (artifact, ∅) (by_digest !! digest) in
  <[digest := (first, nodes ∪ {[node_id]})]> by_digest.

(** The probes of one artifact: fresh proofs are recorded, failures invalidate. *)
Fixpoint probe_recorded (offers : list ResourceOfferV1.t) (selected : gset (string * Uuid)) (digest : string)
    (artifact : ArtifactRefV1.t) (nodes : list Uuid) (verified : gset Uuid) : M (gset Uuid) :=
  match nodes with
  | [] => mret verified
  | node_id :: nodes =>
      verified ←
        (if negb (bool_decide ((digest, node_id) ∈ selected)) then mret verified
         else match List.find (λ offer, ResourceOfferV1.node_id offer == node_id) offers with
              | None => mret verified
              | Some offer =>
                  probe ← attempt (probe_replica offer artifact);
                  match probe with
                  | Ok receipt =>
                      _ ← modify (λ s, AppState.set_replica_evidence
                            (<[(digest, node_id) := receipt]> (AppState.replica_evidence s)) s);
                      _ ← append "artifact.replica.verified" digest
                            (VObject [("artifact", to_value artifact); ("node_id", uuid node_id);
                                      ("replica_receipt", to_value receipt)]);
                      mret (verified ∪ {[node_id]})
                  | Err failure =>
                      _ ← invalidate_replica digest node_id (describe (Failure.why failure));
                      mret verified
                  end
              end);
      probe_recorded offers selected digest artifact nodes verified
  end.

Definition repair_event (node_id : Uuid) (outcome : ReplicationOutcome.t) : Value :=
  match outcome_fields node_id outcome with
  | artifact :: fields =>
      VObject (artifact :: ("autonomous_threshold", VString "fewer_than_two_fresh_independent_receipts") :: fields)
  | [] => VObject []
  end.

(** New replicas on further contributors, up to two fresh ones and the cycle's limit. *)
Fixpoint repair_onto (offers : list ResourceOfferV1.t) (digest : string) (source : ArtifactRefV1.t)
    (verified : gset Uuid) (repairs : Z) : M Z :=
  match offers with
  | [] => mret repairs
  | offer :: offers =>
      if (2 <=? Z.of_nat (size verified)) || (MAX_AUTONOMOUS_REPAIRS_PER_CYCLE <=? repairs) then mret repairs
      else
        match ResourceOfferV1.mesh_endpoint offer with
        | None => repair_onto offers digest source verified repairs
        | Some record =>
            t ← now;
            match endpoint_addr_from_record record t with
            | Err _ => repair_onto offers digest source verified repairs
            | Ok endpoint =>
                result ← attempt (replicate_to_offer offer endpoint source StorageClass.Protected);
                let node_id := ResourceOfferV1.node_id offer in
                match result with
                | Ok outcome =>
                    _ ← record_replica (digest, node_id) outcome;
                    _ ← append "artifact.repaired" digest (repair_event node_id outcome);
                    repair_onto offers digest source (verified ∪ {[node_id]}) (repairs + 1)
                | Err failure =>
                    _ ← append "artifact.repair.attempt_failed" digest
                          (VObject [("node_id", uuid node_id); ("reason", VString (describe (Failure.why failure)))]);
                    repair_onto offers digest source verified repairs
                end
            end
        end
  end.

(** One artifact of the cycle. *)
Definition reconcile_digest (t : DateTime) (offers : list ResourceOfferV1.t)
    (evidence : gmap (string * Uuid) ArtifactReplicaReceiptV1.t) (selected : gset (string * Uuid))
    (repairs : Z) (entry : string * (ArtifactRefV1.t * gset Uuid)) : M Z :=
  let '(digest, (artifact, recorded)) := entry in
  let fresh := filter (λ node_id, is_fresh_evidence evidence t (digest, node_id) = true) recorded in
  let verification_complete :=
    forallb (λ node_id, bool_decide (node_id ∈ fresh) || bool_decide ((digest, node_id) ∈ selected))
      (elements recorded) in
  verified ← probe_recorded offers selected digest artifact (merge_sort Z.le (elements recorded)) fresh;
  if negb verification_complete || (2 <=? Z.of_nat (size verified))
     || (MAX_AUTONOMOUS_REPAIRS_PER_CYCLE <=? repairs)
  then mret repairs
  else
    store ← read AppState.artifact_store;
    match CasStore.head store digest with
    | Ok source =>
        repair_onto (List.filter (λ offer, negb (bool_decide (ResourceOfferV1.node_id offer ∈ recorded))) offers)
          digest source verified repairs
    | Err error =>
        _ ← append "artifact.repair.blocked" digest
              (VObject [("reason", VString ("local source unavailable: "
                                              +:+ describe (Failure.StoreFailed error)))]);
        mret repairs
    end.
Fixpoint reconcile_each (t : DateTime) (offers : list ResourceOfferV1.t)
    (evidence : gmap (string * Uuid) ArtifactReplicaReceiptV1.t) (selected : gset (string * Uuid))
    (entries : list (string * (ArtifactRefV1.t * gset Uuid))) (repairs : Z) : M () :=
  match entries with
  | [] => mret ()
  | entry :: entries =>
      repairs ← reconcile_digest t offers evidence selected repairs entry;
      reconcile_each t offers evidence selected entries repairs
  end.

(** [storage_probe_cursor.fetch_add(4)]. *)
Definition fetch_probe_cursor : M Z :=
  cursor ← read AppState.storage_probe_cursor;
  _ ← modify (AppState.set_storage_probe_cursor ((cursor + MAX_REPLICA_PROBES_PER_CYCLE) `mod` (u64_max + 1)));
  mret cursor.

Definition reconcile_protected_artifacts : M () :=
  stopped ← read AppState.kill_latch;
  if (stopped : bool) then mret ()
  else
    t ← now;
    offers ← read (λ s, List.filter (λ offer, (t <? ResourceOfferV1.expires_at offer)
                                             && is_some (ResourceOfferV1.mesh_endpoint offer))
                          (values (AppState.offers s)));
    protected ← read protected_replicas;
    evidence ← read AppState.replica_evidence;
    let stale := List.filter (λ r, negb (is_fresh_evidence evidence t (recorded_key r))) protected in
    cursor ← fetch_probe_cursor;
    let selected := select_replica_probes stale cursor in
    let by_digest := foldl group_replica ∅ protected in
    reconcile_each t offers evidence selected
      (omap (λ digest, pair digest <$> by_digest !! digest) (merge_sort String.le (map_to_list by_digest).*1)) 0.

Definition repair_protected_artifacts : M Value :=
  _ ← reconcile_protected_artifacts;
  _ ← refresh_diagnostics;
  evidence ← read AppState.replica_evidence;
  t ← now;
  mret (VObject [("authority_expansion", VString "denied");
                 ("fresh_replica_receipts",
                   VInt (zlen (List.filter (λ receipt, ArtifactReplicaReceiptV1.is_valid_at receipt t)
                                 (values evidence))));
                 ("per_change_approval_required", VBool false);
                 ("schema", VString "rampage.protected-storage-reconciliation.v1");
                 ("status", VString "reconciled")]).

(** ** Reports *)

Definition self_scan : M FabricDiagnosticReport.t :=
  _ ← refresh_diagnostics;
  report ← read AppState.diagnostic_report;
  expect 503 "fabric diagnostic report is not available" report.

Definition list_offers : M (list ResourceOfferV1.t) :=
  t ← now;
  read (λ s, List.filter (λ offer, t <? ResourceOfferV1.expires_at offer) (values (AppState.offers s))).

Definition link_probe (request : LinkProbeRequest.t) : M Value :=
  upload ← expect 400 "link probe upload is not valid base64" (base64_decode (LinkProbeRequest.upload_base64 request));
  _ ← reject_if ((LINK_BENCHMARK_TRANSFER_BYTES <? len upload)
                 || (LINK_BENCHMARK_TRANSFER_BYTES <? LinkProbeRequest.download_bytes request)) 413
        "link probe exceeds the bounded transfer size";
  let download := String.string_of_list_ascii
                    (replicate (Z.to_nat (LinkProbeRequest.download_bytes request)) (ascii_of_N 165)) in
  mret (VObject [("download_base64", VString (base64_encode download));
                 ("download_sha256", VString (hex_encode (sha256 download)));
                 ("node_id", uuid (LinkProbeRequest.node_id request));
                 ("nonce", uuid (LinkProbeRequest.nonce request));
                 ("schema", VString "rampage.link-probe-response.v1");
                 ("upload_bytes", VInt (len upload)); ("upload_sha256", VString (hex_encode (sha256 upload)))]).

Definition events (query : EventQuery.t) : M (list Ledger.LedgerEvent) :=
  let limit := Z.max 1 (Z.min (default 250 (EventQuery.limit query)) 10000) in
  ledger ← read AppState.ledger;
  lift 500 Failure.LedgerFailed
    (if EventQuery.latest query then Ledger.latest_events limit ledger
     else Ledger.events (default 0 (EventQuery.after query)) limit ledger).
End handlers.
End Artifacts.
