(* ===== verification/Assist.v ===== *)
(** * The controller's Remote Assist endpoints (crates/rampage-controller/src/main.rs)

    A session opens under a lease the worker acknowledged, is renewed near its expiry, carries
    frames and input to the worker and closes; opening, the first input and closing are
    recorded. *)

From S2P Require Import Prelude.
From S2P Require Import Codec.
From S2P Require Import Text.
From S2P Require Import Contracts.
From S2P Require Import Wire.
From S2P Require Import Signing.
From S2P Require Import Governor.
From S2P Require Import Storage.
From S2P Require Import Ledger.
From S2P Require Import Mesh.
From S2P Require Import ControllerState.
From S2P Require Import Controller.
From S2P Require Import Artifacts.
Import Text Controller Artifacts.

Module OpenRemoteDesktopRequest.
Record t := mk { node_id : Uuid; mode : RemoteDesktopModeV1.t }.
End OpenRemoteDesktopRequest.
Module RemoteDesktopInputRequest.
Record t := mk { sequence : Z; events : list RemoteInputEventV1.t }.
End RemoteDesktopInputRequest.

Definition REMOTE_DESKTOP_WIDTH : Z := 1920.
Definition REMOTE_DESKTOP_HEIGHT : Z := 1080.
Definition REMOTE_DESKTOP_FPS : Z := 10.
Definition MAX_REMOTE_DESKTOP_SESSIONS : Z := 16.

Definition mode_name (mode : RemoteDesktopModeV1.t) : string :=
  match mode with RemoteDesktopModeV1.View => "view" | RemoteDesktopModeV1.Control => "control" end.

Module Assist.
Section handlers.
Context {codec : Codec} {crypto : Crypto} {ser : Serializer} {vault : Vault} {render : Render}
        {order : HashOrder} {wire : ContractWire} {iroh : Iroh} {base64 : Base64}.
Context {wire_desktop_lease : Wire RemoteDesktopLeaseV1.t} {wire_desktop_frame : Wire RemoteDesktopFrameV1.t}.
Implicit Type lease : RemoteDesktopLeaseV1.t.

Definition session_lease_expires (session : RemoteDesktopSession.t) : DateTime :=
  RemoteDesktopLeaseV1.expires_at (RemoteDesktopSession.lease session).
Definition set_session (session_id : Uuid) (session : RemoteDesktopSession.t) : M () :=
  modify (λ s, AppState.set_remote_desktop_sessions
                 (<[session_id := session]> (AppState.remote_desktop_sessions s)) s).
Definition drop_session (session_id : Uuid) : M () :=
  modify (λ s, AppState.set_remote_desktop_sessions (delete session_id (AppState.remote_desktop_sessions s)) s).

Definition remote_desktop_request_for lease (action : RemoteDesktopActionV1.t) (input_sequence : option Z)
    (events : list RemoteInputEventV1.t) : M RemoteDesktopRequestV1.t :=
  request_id ← fresh_uuid;
  mret (RemoteDesktopRequestV1.mk RemoteDesktopRequestV1.SCHEMA request_id lease action input_sequence events).

(** The request under its timeout; either failure is reported as a bad gateway. *)
Definition call_worker (endpoint : EndpointAddr) (request : RemoteDesktopRequestV1.t) (timeout_message : string)
    : M (RemoteDesktopResponseV1.t * string) :=
  event ← await;
  _ ← reject_if (event == TimerFired) 502 timeout_message;
  over_mesh 502 endpoint REMOTE_DESKTOP_ALPN (write_header request) (λ link, remote_desktop_request link request).

Definition authorize_session (status : Z) (offer : ResourceOfferV1.t) (session_id : Uuid)
    (mode : RemoteDesktopModeV1.t) (limits : RemoteDesktopLimits.t) : M RemoteDesktopLeaseV1.t :=
  governor ← read AppState.governor;
  endpoint_id ← ask mesh_endpoint_id;
  epoch ← read AppState.fencing_epoch;
  t ← now;
  lease_id ← fresh_uuid;
  nonce_id ← fresh_uuid;
  denied status (Governor.authorize_remote_desktop_at_epoch governor offer endpoint_id session_id mode limits
                   epoch t lease_id nonce_id).

Definition retain_sessions (t : DateTime) (sessions : gmap Uuid RemoteDesktopSession.t)
    : gmap Uuid RemoteDesktopSession.t := filter (λ kv, t < session_lease_expires kv.2) sessions.

Definition open_remote_desktop (request : OpenRemoteDesktopRequest.t) : M (Z * Value) :=
  let node_id := OpenRemoteDesktopRequest.node_id request in
  _ ← reject_if_stopped;
  t ← now;
  _ ← modify (λ s, AppState.set_remote_desktop_sessions (retain_sessions t (AppState.remote_desktop_sessions s)) s);
  sessions ← read AppState.remote_desktop_sessions;
  _ ← reject_if (MAX_REMOTE_DESKTOP_SESSIONS <=? Z.of_nat (size sessions)) 429 "remote assist session limit reached";
  _ ← reject_if (existsb (λ session, RemoteDesktopLeaseV1.node_id (RemoteDesktopSession.lease session) == node_id)
                   (values sessions)) 409 "this worker already has an active remote assist session";
  '(offer, endpoint) ← remote_offer node_id;
  session_id ← fresh_uuid;
  lease ← authorize_session 409 offer session_id (OpenRemoteDesktopRequest.mode request)
            (RemoteDesktopLimits.mk REMOTE_DESKTOP_WIDTH REMOTE_DESKTOP_HEIGHT REMOTE_DESKTOP_FPS);
  heartbeat ← remote_desktop_request_for lease RemoteDesktopActionV1.Heartbeat None [];
  _ ← call_worker endpoint heartbeat "worker did not acknowledge remote assist";
  _ ← set_session session_id (RemoteDesktopSession.mk lease false);
  _ ← append "remote_assist.session.opened" (uuid_to_string session_id)
        (VObject [("elevation_authority", VBool false);
                  ("expires_at", VString (datetime_to_json (RemoteDesktopLeaseV1.expires_at lease)));
                  ("mode", VString (mode_name (OpenRemoteDesktopRequest.mode request)));
                  ("node_id", uuid node_id); ("secure_desktop_authority", VBool false)]);
  mret (201, VObject [("session", to_value lease)]).

(** The lease of a session, renewed in its last ten seconds, and the worker's endpoint. *)
Definition current_remote_desktop_session (session_id : Uuid) : M (RemoteDesktopLeaseV1.t * EndpointAddr) :=
  t ← now;
  sessions ← read AppState.remote_desktop_sessions;
  current ← expect 404 "remote assist session was not found" (sessions !! session_id);
  let lease := RemoteDesktopSession.lease current in
  if RemoteDesktopLeaseV1.expires_at lease <=? t
  then _ ← drop_session session_id; fail 410 (Failure.Message "remote assist session expired")
  else
    '(offer, endpoint) ← remote_offer (RemoteDesktopLeaseV1.node_id lease);
    if seconds 10 <? RemoteDesktopLeaseV1.expires_at lease - t then mret (lease, endpoint)
    else
      renewed ← authorize_session 409 offer session_id (RemoteDesktopLeaseV1.mode lease)
                  (RemoteDesktopLimits.mk (RemoteDesktopLeaseV1.max_width lease)
                     (RemoteDesktopLeaseV1.max_height lease) (RemoteDesktopLeaseV1.max_fps lease));
      _ ← set_session session_id (RemoteDesktopSession.mk renewed (RemoteDesktopSession.control_started current));
      mret (renewed, endpoint).

Definition remote_desktop_frame (session_id : Uuid) : M Value :=
  _ ← reject_if_stopped;
  '(lease, endpoint) ← current_remote_desktop_session session_id;
  request ← remote_desktop_request_for lease RemoteDesktopActionV1.Frame None [];
  '(response, payload) ← call_worker endpoint request "worker frame request timed out";
  frame ← expect 502 "worker response did not contain a desktop frame" (RemoteDesktopResponseV1.frame response);
  mret (VObject [("data_base64", VString (base64_encode payload)); ("frame", to_value frame);
                 ("schema", VString "rampage.remote-desktop-frame-payload.v1"); ("session_id", uuid session_id)]).

(** Whether this is the first input of the session, which is noted. *)
Definition note_control (session_id : Uuid) : M bool :=
  sessions ← read AppState.remote_desktop_sessions;
  match sessions !! session_id with
  | Some session =>
      _ ← set_session session_id (RemoteDesktopSession.mk (RemoteDesktopSession.lease session) true);
      mret (negb (RemoteDesktopSession.control_started session))
  | None => mret false
  end.

Definition remote_desktop_input (session_id : Uuid) (input : RemoteDesktopInputRequest.t) : M Value :=
  _ ← reject_if_stopped;
  '(lease, endpoint) ← current_remote_desktop_session session_id;
  _ ← reject_if (RemoteDesktopLeaseV1.mode lease != RemoteDesktopModeV1.Control) 403
        "this remote assist session is view-only";
  request ← remote_desktop_request_for lease RemoteDesktopActionV1.Input
              (Some (RemoteDesktopInputRequest.sequence input)) (RemoteDesktopInputRequest.events input);
  endpoint_id ← ask mesh_endpoint_id;
  _ ← reject_if (negb (RemoteDesktopRequestV1.is_valid_for request (RemoteDesktopLeaseV1.node_id lease) endpoint_id))
        400 "invalid remote input batch";
  '(response, _) ← call_worker endpoint request "worker input request timed out";
  should_record ← note_control session_id;
  _ ← (if (should_record : bool)
       then append "remote_assist.control.started" (uuid_to_string session_id)
              (VObject [("node_id", uuid (RemoteDesktopLeaseV1.node_id lease))])
       else mret ());
  mret (VObject [("applied_events", VInt (RemoteDesktopResponseV1.applied_events response));
                 ("sequence", VInt (RemoteDesktopInputRequest.sequence input)); ("session_id", uuid session_id)]).

(** The worker is told if it can be reached; the session is gone either way. *)
Definition close_remote_desktop (session_id : Uuid) : M Value :=
  sessions ← read AppState.remote_desktop_sessions;
  match sessions !! session_id with
  | None => mret (VObject [("closed", VBool true); ("duplicate", VBool true)])
  | Some session =>
      let lease := RemoteDesktopSession.lease session in
      _ ← drop_session session_id;
      t ← now;
      _ ← (if t <? RemoteDesktopLeaseV1.expires_at lease
           then
             reached ← attempt (remote_offer (RemoteDesktopLeaseV1.node_id lease));
             match reached with
             | Ok (_, endpoint) =>
                 request ← remote_desktop_request_for lease RemoteDesktopActionV1.Close None [];
                 _ ← attempt (call_worker endpoint request "");
                 mret ()
             | Err _ => mret ()
             end
           else mret ());
      _ ← append "remote_assist.session.closed" (uuid_to_string session_id)
            (VObject [("control_started", VBool (RemoteDesktopSession.control_started session));
                      ("node_id", uuid (RemoteDesktopLeaseV1.node_id lease))]);
      mret (VObject [("closed", VBool true); ("duplicate", VBool false)])
  end.
End handlers.
End Assist.
