(* ===== verification/Samples.v ===== *)
(** * Sample instances

    The concrete parameters the controller's examples are evaluated with: identifiers and
    times as text, contracts as nested arrays, a controller with one enrolled node. *)

From S2P Require Import Prelude.
From S2P Require Import Codec.
From S2P Require Import Contracts.
From S2P Require Import Wire.
From S2P Require Import Signing.
From S2P Require Import Governor.
From S2P Require Import Storage.
From S2P Require Import StorageFacts.
From S2P Require Import Ledger.
From S2P Require Import Mesh.
From S2P Require Import Packing.
From S2P Require Import ControllerState.
From S2P Require Import Controller.
From S2P Require Import Artifacts.
Import ReferenceCrypto StorageFacts.Witness.

Module Samples.
#[export] Instance render : Render := {|
  uuid_to_string u := Reference.bits (encode u);
  uuid_parse s := Reference.of_bits s ≫= decode;
  datetime_to_json := to_rfc3339
|}.
#[export] Instance render_laws : RenderLaws render.
Proof.
  split. intros u. cbn. rewrite Reference.of_bits_bits. cbn. apply decode_encode.
Qed.
#[export] Instance order : HashOrder := {| hash_order A l := l; hash_order_perm A l := reflexivity l |}.
#[export] Instance iroh : Iroh := {| parse_endpoint_id := Some; parse_relay_url := Some |}.
(* base64 as hexadecimal text *)
#[export] Instance base64 : Base64 := {| base64_encode := hex_encode; base64_decode := hex_decode |}.
End Samples.
