(* ===== verification/ModelGateway.v ===== *)
(** * The controller's model gateway (crates/rampage-controller/src/main.rs)

    The OpenAI and Anthropic endpoints: translation and validation of a request, the catalog of
    exactly installed models, the start of a session on one contributor under a lease, and
    the consumption of its frames up to the signed receipt.  A response is its status and
    body, or the events of a stream. *)

From S2P Require Import Prelude.
From S2P Require Import Codec.
From S2P Require Import Text.
From S2P Require Import Contracts.
From S2P Require Import Wire.
From S2P Require Import Signing.
From S2P Require Import Governor.
From S2P Require Import Scheduler.
From S2P Require Import Storage.
From S2P Require Import Ledger.
From S2P Require Import Mesh.
From S2P Require Import Diagnostics.
From S2P Require Import ControllerState.
From S2P Require Import Controller.
Import Text.
Import Controller.

Module OpenAiChatMessage.
Record t := mk { role : string; content : string }.
End OpenAiChatMessage.
Module OpenAiChatCompletionRequest.
Record t := mk {
  model : string; messages : list OpenAiChatMessage.t; stream : bool; max_tokens : option Z;
  max_completion_tokens : option Z; temperature : option SpecFloat.spec_float;
  top_p : option SpecFloat.spec_float
}.
End OpenAiChatCompletionRequest.
Module AnthropicTextBlock.
Record t := mk { type_ : string; text : string }.
End AnthropicTextBlock.
Module AnthropicContent.
Inductive t := Text (text : string) | Blocks (blocks : list AnthropicTextBlock.t).
End AnthropicContent.
Module AnthropicMessage.
Record t := mk { role : string; content : AnthropicContent.t }.
End AnthropicMessage.
Module AnthropicMessagesRequest.
Record t := mk {
  model : string; max_tokens : Z; messages : list AnthropicMessage.t;
  system : option AnthropicContent.t; stream : bool; temperature : option SpecFloat.spec_float;
  top_p : option SpecFloat.spec_float
}.
End AnthropicMessagesRequest.

Module ModelCandidate.
Record t := mk { offer : ResourceOfferV1.t; runtime : ModelRuntimeOfferV1.t; model : InstalledModelV1.t }.
End ModelCandidate.
Module ActiveModelInvocation.
Record t := mk { request_id : Uuid; lease : ModelSessionLeaseV1.t; stream : ModelResponseStream }.
End ActiveModelInvocation.
Module ModelGatewayCompletion.
Record t := mk { content : string; finish_reason : string; usage : option ModelUsageV1.t }.
End ModelGatewayCompletion.
Module ModelStreamFormat.
Inductive t : Set := OpenAi | Anthropic.
End ModelStreamFormat.

(** [ModelGatewayFailure]: its status, and its kind, code and cause. *)
Definition gateway_failure (status : Z) (kind code : string) (cause : Failure.reason) : Failure.t :=
  Failure.mk status (Failure.Coded kind code cause).
Definition invalid_model_request (message : string) : Failure.t :=
  gateway_failure 400 "invalid_request_error" "invalid_model_request" (Failure.Message message).
Definition invalid_worker_stream (message : string) : Failure.t :=
  gateway_failure 502 "server_error" "invalid_worker_stream" (Failure.Message message).
Definition model_timeout : Failure.t :=
  gateway_failure 504 "server_error" "model_session_timeout"
    (Failure.Message "model session lease expired before completion").

(** An HTTP answer of the gateway. *)
Inductive Response :=
| JsonResponse (status : Z) (body : Value) (headers : list (string * string))
| EventStream (events : list string) (headers : list (string * string))
| ErrorResponse (failure : Failure.t).

(** ** Requests *)

Definition is_text_role (role : string) : bool := bool_decide (role ∈ ["system"; "user"; "assistant"]).
Definition prompt_bytes (messages : list OpenAiChatMessage.t) : Z :=
  foldl (λ total m, sat_add (sat_add total (len (OpenAiChatMessage.role m)))
                      (len (OpenAiChatMessage.content m))) 0 messages.

Definition validate_openai_request (request : OpenAiChatCompletionRequest.t) : result Failure.t Z :=
  let messages := OpenAiChatCompletionRequest.messages request in
  let max_tokens := OpenAiChatCompletionRequest.max_tokens request in
  let max_completion_tokens := OpenAiChatCompletionRequest.max_completion_tokens request in
  if blank (OpenAiChatCompletionRequest.model request)
     || (200 <? len (OpenAiChatCompletionRequest.model request))
     || negb (is_ascii (OpenAiChatCompletionRequest.model request))
  then Err (invalid_model_request "model must be a non-empty ASCII identifier")
  else if no_elems messages || (256 <? zlen messages)
  then Err (invalid_model_request "messages must contain between 1 and 256 entries")
  else if existsb (λ m, negb (is_text_role (OpenAiChatMessage.role m)) || is_empty (OpenAiChatMessage.content m))
            messages
  then Err (invalid_model_request "only non-empty system, user, and assistant text messages are supported")
  else if MAX_MODEL_PROMPT_BYTES <? prompt_bytes messages
  then Err (gateway_failure 413 "invalid_request_error" "prompt_too_large"
              (Failure.Message "message text exceeds Rampage's one MiB prompt limit"))
  else if is_some max_tokens && is_some max_completion_tokens && (max_tokens != max_completion_tokens)
  then Err (invalid_model_request "max_tokens and max_completion_tokens conflict")
  else
    let max_output_tokens :=
      match max_completion_tokens with Some n => n | None => default 512 max_tokens end in
    if (max_output_tokens =? 0) || (MAX_MODEL_OUTPUT_TOKENS <? max_output_tokens)
    then Err (invalid_model_request "requested output token limit is outside the supported range")
    else if is_some_and (λ v, negb (f32_within f32_two v)) (OpenAiChatCompletionRequest.temperature request)
            || is_some_and (λ v, negb (f32_within f32_one v)) (OpenAiChatCompletionRequest.top_p request)
    then Err (invalid_model_request "temperature or top_p is outside the supported range")
    else Ok max_output_tokens.

Definition anthropic_content_text (content : AnthropicContent.t) : result Failure.t string :=
  text ← match content with
         | AnthropicContent.Text text => Ok text
         | AnthropicContent.Blocks blocks =>
             if no_elems blocks
                || existsb (λ b, (AnthropicTextBlock.type_ b != "text")
                                 || is_empty (AnthropicTextBlock.text b)) blocks
             then Err (invalid_model_request "only non-empty Anthropic text content blocks are supported")
             else Ok (concat_bytes (AnthropicTextBlock.text <$> blocks))
         end;
  if is_empty text then Err (invalid_model_request "Anthropic message content must not be empty") else Ok text.

Definition translate_message (message : AnthropicMessage.t) : result Failure.t OpenAiChatMessage.t :=
  if negb (bool_decide (AnthropicMessage.role message ∈ ["user"; "assistant"]))
  then Err (invalid_model_request "Anthropic messages support only user and assistant roles")
  else
    content ← anthropic_content_text (AnthropicMessage.content message);
    Ok (OpenAiChatMessage.mk (AnthropicMessage.role message) content).

Definition translate_anthropic_request (request : AnthropicMessagesRequest.t)
    : result Failure.t OpenAiChatCompletionRequest.t :=
  if AnthropicMessagesRequest.max_tokens request =? 0
  then Err (invalid_model_request
              "max_tokens must be positive; prompt-cache-only requests are not supported")
  else
    system ← match AnthropicMessagesRequest.system request with
             | Some system =>
                 content ← anthropic_content_text system; Ok [OpenAiChatMessage.mk "system" content]
             | None => Ok []
             end;
    messages ← try_map translate_message (AnthropicMessagesRequest.messages request);
    Ok (OpenAiChatCompletionRequest.mk (AnthropicMessagesRequest.model request) (system ++ messages)
          (AnthropicMessagesRequest.stream request) None (Some (AnthropicMessagesRequest.max_tokens request))
          (AnthropicMessagesRequest.temperature request) (AnthropicMessagesRequest.top_p request)).

Definition anthropic_stop_reason (finish_reason : string) : string :=
  if finish_reason == "length" then "max_tokens" else "end_turn".
Definition anthropic_failure_kind (status : Z) : string :=
  if (status =? 400) || (status =? 413) then "invalid_request_error"
  else if status =? 401 then "authentication_error"
  else if status =? 403 then "permission_error"
  else if status =? 404 then "not_found_error"
  else if status =? 429 then "rate_limit_error" else "api_error".

Module ModelGateway.
Section gateway.
Context {codec : Codec} {crypto : Crypto} {ser : Serializer} {vault : Vault} {render : Render}
        {order : HashOrder} {wire : ContractWire} {iroh : Iroh}.
Context {wire_model_lease : Wire ModelSessionLeaseV1.t} {wire_model_receipt : Wire ModelExecutionReceiptV1.t}.

(** [split_once(' ')]. *)
Fixpoint split_space (s : string) : option (string * string) :=
  match s with
  | "" => None
  | String c s =>
      if c == " "%char then Some ("", s)
      else match split_space s with Some (a, b) => Some (String c a, b) | None => None end
  end.

(** The tokens are compared by their digests. *)
Definition require_local_token (expected : string) (header : option string) : bool :=
  sha256 expected == sha256 (default "" header).
Definition require_gateway_token (expected : string) (authorization x_api_key : option string) : bool :=
  let bearer :=
    match authorization ≫= split_space with
    | Some (scheme, token) => if to_ascii_lowercase scheme == "bearer" then token else ""
    | None => ""
    end in
  let supplied :=
    match x_api_key with Some key => if is_empty key then bearer else key | None => bearer end in
  sha256 expected == sha256 supplied.

(** ** The catalog *)

Definition is_eligible (now : DateTime) (excluded : gmap Uuid (list string)) (offer : ResourceOfferV1.t) : bool :=
  let availability := ResourceOfferV1.availability offer in
  (now <? ResourceOfferV1.expires_at offer)
  && negb (is_some (excluded !! ResourceOfferV1.node_id offer))
  && is_some (ResourceOfferV1.mesh_endpoint offer)
  && AvailabilityV1.foreground_allowed availability
  && (15 <=? AvailabilityV1.thermal_headroom_percent availability)
  && (AvailabilityV1.on_ac_power availability
      || (50 <=? default 100 (AvailabilityV1.battery_percent availability))).

Definition serves_models (offer : ResourceOfferV1.t) (runtime : ModelRuntimeOfferV1.t) : bool :=
  (ModelRuntimeOfferV1.schema runtime == ModelRuntimeOfferV1.SCHEMA)
  && (ModelRuntimeOfferV1.backend runtime == ModelBackend.LocalOllama)
  && (ModelRuntimeOfferV1.status runtime == ModelRuntimeStatus.ShippedLocal)
  && (ModelRuntimeOfferV1.adapter runtime == "rampage.ollama.v1")
  && bool_decide (ModelRuntimeOfferV1.adapter runtime ∈ ResourceOfferV1.adapters offer)
  && bool_decide (ModelParallelism.WholeModel ∈ ModelRuntimeOfferV1.supported_parallelism runtime).

Definition fits_runtime (offer : ResourceOfferV1.t) (runtime : ModelRuntimeOfferV1.t)
    (model : InstalledModelV1.t) : bool :=
  let size := InstalledModelV1.artifact_size_bytes model in
  InstalledModelV1.is_valid model && (sat_add size (size `div` 5) <=? runtime_capacity_from_offer offer runtime).

(** The candidates in the order the loops push them. *)
Definition candidates_of (offer : ResourceOfferV1.t) : list ModelCandidate.t :=
  concat ((λ runtime,
      (λ model, ModelCandidate.mk offer runtime model) <$>
        List.filter (fits_runtime offer runtime) (ModelRuntimeOfferV1.installed_models runtime))
    <$> List.filter (serves_models offer) (ResourceOfferV1.model_runtimes offer)).
Definition candidate_id (candidate : ModelCandidate.t) : string :=
  InstalledModelV1.model_id (ModelCandidate.model candidate).

(** [catalog.entry(id).or_default().push(candidate)] for each, then the models whose
    candidates agree on one digest. *)
Definition push_candidate (catalog : gmap string (list ModelCandidate.t)) (candidate : ModelCandidate.t)
    : gmap string (list ModelCandidate.t) :=
  <[candidate_id candidate := default [] (catalog !! candidate_id candidate) ++ [candidate]]> catalog.
Definition digests (candidates : list ModelCandidate.t) : gset string :=
  list_to_set ((λ c, InstalledModelV1.artifact_digest (ModelCandidate.model c)) <$> candidates).

Definition live_model_catalog (now : DateTime) (s : AppState.t) : gmap string (list ModelCandidate.t) :=
  let excluded := AutonomousConstraints.excluded_nodes (AppState.autonomous_constraints s) in
  let offers := List.filter (is_eligible now excluded) (values (AppState.offers s)) in
  filter (λ kv, size (digests kv.2) = 1%nat)
    (foldl push_candidate ∅ (concat (candidates_of <$> offers))).

Definition latest_timestamp (candidates : list ModelCandidate.t) : option Z :=
  match (λ c, ResourceOfferV1.observed_at (ModelCandidate.offer c) `div` seconds 1) <$> candidates with
  | [] => None
  | t :: ts => Some (foldl Z.max t ts)
  end.
(** One line per model, by its identifier. *)
Definition openai_models : M Response :=
  t ← now;
  catalog ← read (live_model_catalog t);
  let line id :=
    created ← (catalog !! id ≫= latest_timestamp);
    Some (VObject [("created", VInt created); ("id", VString id); ("object", VString "model");
                   ("owned_by", VString "rampage-fabric")]) in
  mret (JsonResponse 200
    (VObject [("data", VArray (omap line (merge_sort String.le (map_to_list catalog).*1)));
              ("object", VString "list")]) []).

(** ** A session *)

Definition fail_with {A} (failure : Failure.t) : M A := fail (Failure.status failure) (Failure.why failure).
Definition reject_with (b : bool) (failure : Failure.t) : M () := if b then fail_with failure else mret ().

Definition evidence (m : M ()) : M () :=
  map_failure (λ f, gateway_failure 500 "server_error" "evidence_write_failed" (Failure.why f)) m.

Definition start_model_invocation (request : OpenAiChatCompletionRequest.t) (max_output_tokens : Z)
    : M ActiveModelInvocation.t :=
  stopped ← read AppState.kill_latch;
  _ ← reject_with stopped
        (gateway_failure 423 "server_error" "owner_stop_active" (Failure.Message "owner STOP is active"));
  t ← now;
  catalog ← read (live_model_catalog t);
  candidates ← match catalog !! OpenAiChatCompletionRequest.model request with
               | Some candidates => mret candidates
               | None => fail_with (gateway_failure 404 "invalid_request_error" "model_not_found"
                   (Failure.Message "model is not consistently installed on an eligible contributor"))
               end;
  candidate ← unwrap (Scheduler.max_by_key
                        (λ c, [ModelRuntimeOfferV1.available_model_bytes (ModelCandidate.runtime c)]) candidates);
  let offer := ModelCandidate.offer candidate in
  governor ← read AppState.governor;
  endpoint_id ← ask mesh_endpoint_id;
  epoch ← read AppState.fencing_epoch;
  t1 ← now;
  lease_id ← fresh_uuid;
  session_id ← fresh_uuid;
  nonce_id ← fresh_uuid;
  lease ← lift 403 (λ d, Failure.Coded "server_error" "model_authority_denied" (Failure.Denied d))
            (Governor.authorize_model_session_at_epoch governor offer (ModelCandidate.runtime candidate)
               (ModelCandidate.model candidate) endpoint_id
               (ModelSessionLimits.mk (Z.max (prompt_bytes (OpenAiChatCompletionRequest.messages request)) 1)
                  max_output_tokens) epoch t1 lease_id session_id nonce_id);
  endpoint_record ← unwrap (ResourceOfferV1.mesh_endpoint offer);
  t2 ← now;
  endpoint ← lift 502 (λ e, Failure.Coded "server_error" "worker_endpoint_invalid" (Failure.MeshFailed (Mesh e)))
               (endpoint_addr_from_record endpoint_record t2);
  request_id ← fresh_uuid;
  let invocation :=
    ModelInvocationRequestV1.mk ModelInvocationRequestV1.SCHEMA request_id lease
      ((λ m, ModelChatMessageV1.mk (OpenAiChatMessage.role m) (OpenAiChatMessage.content m)) <$>
         OpenAiChatCompletionRequest.messages request)
      max_output_tokens (OpenAiChatCompletionRequest.stream request)
      (OpenAiChatCompletionRequest.temperature request) (OpenAiChatCompletionRequest.top_p request) in
  _ ← reject_with (negb (ModelInvocationRequestV1.is_valid_for invocation (ResourceOfferV1.node_id offer) endpoint_id))
        (gateway_failure 400 "invalid_request_error" "invalid_model_request"
           (Failure.Message "request does not fit its bounded model-session authority"));
  _ ← evidence (append "model.session.lease.issued" (uuid_to_string (ModelSessionLeaseV1.session_id lease))
        (VObject [("lease", to_value lease);
                  ("model_digest", VString (InstalledModelV1.artifact_digest (ModelCandidate.model candidate)));
                  ("node_id", uuid (ResourceOfferV1.node_id offer)); ("request_id", uuid request_id)]));
  event ← await;
  _ ← reject_with (event == TimerFired)
        (gateway_failure 504 "server_error" "worker_connect_timeout"
           (Failure.Message "timed out connecting to the selected model worker"));
  stream ← map_failure (λ f, gateway_failure 502 "server_error" "worker_unavailable" (Failure.why f))
             (over_mesh 502 endpoint MODEL_ALPN (write_header invocation) (λ link, invoke_model link invocation));
  _ ← modify (λ s, AppState.set_model_cancellations
                     (<[ModelSessionLeaseV1.session_id lease := false]> (AppState.model_cancellations s)) s);
  mret (ActiveModelInvocation.mk request_id lease stream).

Definition verify_terminal_model_receipt (invocation : ActiveModelInvocation.t)
    (receipt : ModelExecutionReceiptV1.t) (output : string) : M () :=
  let lease := ActiveModelInvocation.lease invocation in
  nodes ← read AppState.nodes;
  identity ← match nodes !! ModelExecutionReceiptV1.node_id receipt with
             | Some identity => mret identity
             | None => fail_with (invalid_worker_stream "model receipt signer is not enrolled")
             end;
  _ ← reject_with (negb (is_ok (verify_model_receipt identity receipt)))
        (invalid_worker_stream "model receipt signature is invalid");
  reject_with
    ((ModelExecutionReceiptV1.schema receipt != ModelExecutionReceiptV1.SCHEMA)
     || (ModelExecutionReceiptV1.lease_id receipt != ModelSessionLeaseV1.lease_id lease)
     || (ModelExecutionReceiptV1.session_id receipt != ModelSessionLeaseV1.session_id lease)
     || (ModelExecutionReceiptV1.request_id receipt != ActiveModelInvocation.request_id invocation)
     || (ModelExecutionReceiptV1.node_id receipt != ModelSessionLeaseV1.node_id lease)
     || negb (bool_decide (ModelExecutionReceiptV1.state receipt
                             ∈ [JobState.Succeeded; JobState.Failed; JobState.Cancelled]))
     || (ModelExecutionReceiptV1.finished_at receipt <? ModelExecutionReceiptV1.started_at receipt)
     || (ModelExecutionReceiptV1.output_digest receipt != CasStore.sha256_digest output)
     || (ModelExecutionReceiptV1.output_bytes receipt != len output))
    (invalid_worker_stream "model receipt does not match the invocation transcript").

(** [data: {json}\n\n] and [event: {event}\ndata: {json}\n\n]. *)
Definition newline : string := String "010" "".
Definition openai_sse (value : Value) : string := "data: " +:+ json_to_string value +:+ newline +:+ newline.
Definition anthropic_sse (event : string) (value : Value) : string :=
  "event: " +:+ event +:+ newline +:+ "data: " +:+ json_to_string value +:+ newline +:+ newline.

Definition chunk_value (invocation : ActiveModelInvocation.t) (model_id : string)
    (delta : list (string * Value)) (finish : Value) : Value :=
  let lease := ActiveModelInvocation.lease invocation in
  VObject [("choices", VArray [VObject [("delta", VObject delta); ("finish_reason", finish); ("index", VInt 0)]]);
           ("created", VInt (ModelSessionLeaseV1.issued_at lease `div` seconds 1));
           ("id", VString ("chatcmpl-" +:+ uuid_simple (ActiveModelInvocation.request_id invocation)));
           ("model", VString model_id); ("object", VString "chat.completion.chunk")].
Definition delta_event (format : ModelStreamFormat.t) (invocation : ActiveModelInvocation.t) (content : string)
    : string :=
  match format with
  | ModelStreamFormat.OpenAi =>
      openai_sse (chunk_value invocation (ModelSessionLeaseV1.model_id (ActiveModelInvocation.lease invocation))
                    [("content", VString content)] VNull)
  | ModelStreamFormat.Anthropic =>
      anthropic_sse "content_block_delta"
        (VObject [("delta", VObject [("text", VString content); ("type", VString "text_delta")]);
                  ("index", VInt 0); ("type", VString "content_block_delta")])
  end.

(** A terminal frame: its receipt is verified against the transcript and recorded. *)
Definition finish_invocation (invocation : ActiveModelInvocation.t) (frame : ModelInvocationFrameV1.t)
    (expected_sequence : Z) (output : string) : M ModelGatewayCompletion.t :=
  let is_error := match ModelInvocationFrameV1.kind frame with
                  | ModelInvocationFrameKind.Error => true | _ => false end in
  _ ← reject_with (negb (is_empty (ModelInvocationFrameV1.content frame)))
        (invalid_worker_stream "terminal model frame contains output text");
  receipt ← match ModelInvocationFrameV1.receipt frame with
            | Some receipt => mret receipt
            | None =>
                if is_error && (expected_sequence =? 0) && is_empty output
                then fail_with (gateway_failure 502 "server_error" "worker_rejected_session"
                       (Failure.Message (default "model worker rejected the session"
                                           (ModelInvocationFrameV1.error frame))))
                else fail_with (invalid_worker_stream "terminal model frame omitted its signed receipt")
            end;
  _ ← verify_terminal_model_receipt invocation receipt output;
  let succeeded := ModelExecutionReceiptV1.state receipt == JobState.Succeeded in
  _ ← reject_with (negb is_error && negb succeeded || is_error && succeeded)
        (invalid_worker_stream "terminal frame and signed receipt disagree on execution state");
  _ ← reject_with (is_some_and (λ reason, (64 <? len reason) || negb (is_ascii reason))
                     (ModelInvocationFrameV1.finish_reason frame)
                   || succeeded && is_some (ModelExecutionReceiptV1.error receipt))
        (invalid_worker_stream "terminal model metadata is malformed");
  _ ← evidence (append "model.session.receipted"
        (uuid_to_string (ModelSessionLeaseV1.session_id (ActiveModelInvocation.lease invocation)))
        (to_value receipt));
  if is_error
  then fail_with (gateway_failure 502 "server_error" "model_execution_failed"
         (Failure.Message (match ModelInvocationFrameV1.error frame with
                           | Some error => error
                           | None => default "model execution failed" (ModelExecutionReceiptV1.error receipt)
                           end)))
  else mret (ModelGatewayCompletion.mk output (default "stop" (ModelInvocationFrameV1.finish_reason frame))
               (ModelExecutionReceiptV1.usage receipt)).

(** The wait for one frame: the lease's expiry, a cancellation, or the frame. *)
Definition await_frame (invocation : ActiveModelInvocation.t) (stream : ModelResponseStream)
    : M (ModelInvocationFrameV1.t * ModelResponseStream) :=
  t ← now;
  _ ← reject_with (ModelSessionLeaseV1.expires_at (ActiveModelInvocation.lease invocation) <? t) model_timeout;
  event ← await;
  _ ← reject_with (event == CancelRequested)
        (gateway_failure 408 "server_error" "model_session_cancelled"
           (Failure.Message "model session was cancelled"));
  _ ← reject_with (event == TimerFired) model_timeout;
  lift 502 (λ fault, Failure.Coded "server_error" "invalid_worker_stream" (Failure.MeshFailed fault))
    (next_frame stream).

(** The loop; [fuel] bounds the frames of the stream, and the events sent so far are kept
    whatever the outcome. *)
Fixpoint consume_frames (fuel : nat) (invocation : ActiveModelInvocation.t) (format : option ModelStreamFormat.t)
    (stream : ModelResponseStream) (expected_sequence : Z) (output : string) (events : list string)
    : M (result Failure.t ModelGatewayCompletion.t * list string) :=
  match fuel with
  | O => mret (Err (Failure.mk 0 Failure.Panic), events)
  | S fuel =>
      next ← attempt (await_frame invocation stream);
      match next with
      | Err failure => mret (Err failure, events)
      | Ok (frame, stream) =>
          if ModelInvocationFrameV1.sequence frame != expected_sequence
          then mret (Err (invalid_worker_stream "model frame sequence is not contiguous"), events)
          else
            match ModelInvocationFrameV1.kind frame with
            | ModelInvocationFrameKind.Delta =>
                if is_some (ModelInvocationFrameV1.receipt frame) || is_some (ModelInvocationFrameV1.error frame)
                   || is_some (ModelInvocationFrameV1.finish_reason frame)
                then mret (Err (invalid_worker_stream "model delta contains terminal fields"), events)
                else
                  let content := ModelInvocationFrameV1.content frame in
                  let output := output +:+ content in
                  if MAX_MODEL_OUTPUT_BYTES <? len output
                  then mret (Err (invalid_worker_stream "model output exceeds the transcript limit"), events)
                  else
                    match format with
                    | None => consume_frames fuel invocation format stream (sat_add expected_sequence 1) output events
                    | Some f =>
                        event ← await;
                        if event == ClientGone
                        then mret (Err (gateway_failure 408 "server_error" "client_disconnected"
                                          (Failure.Message "streaming client disconnected")), events)
                        else consume_frames fuel invocation format stream (sat_add expected_sequence 1) output
                               (events ++ [delta_event f invocation content])
                    end
            | _ =>
                completion ← attempt (finish_invocation invocation frame expected_sequence output);
                mret (completion, events)
            end
      end
  end.

(** Every frame takes at least the four bytes of its length off the stream. *)
Definition consume_model_invocation (invocation : ActiveModelInvocation.t) (format : option ModelStreamFormat.t)
    : M (result Failure.t ModelGatewayCompletion.t * list string) :=
  let stream := ActiveModelInvocation.stream invocation in
  consume_frames (S (String.length (receive stream))) invocation format stream 0 "" [].

Definition forget_session (session_id : Uuid) : M () :=
  modify (λ s, AppState.set_model_cancellations (delete session_id (AppState.model_cancellations s)) s).

(** ** The endpoints *)

Definition session_header (session_id : Uuid) : string * string :=
  ("x-rampage-session-id", uuid_to_string session_id).
Definition usage_value (usage : ModelUsageV1.t) : Value :=
  VObject [("completion_tokens", VInt (ModelUsageV1.completion_tokens usage));
           ("prompt_tokens", VInt (ModelUsageV1.prompt_tokens usage));
           ("total_tokens", VInt (sat_add (ModelUsageV1.prompt_tokens usage) (ModelUsageV1.completion_tokens usage)))].

(** The event a failed stream ends with. *)
Definition openai_failure_event (describe : Failure.reason → string) (failure : Failure.t) : string :=
  let '(kind, code, cause) := match Failure.why failure with
                              | Failure.Coded kind code cause => (kind, code, cause)
                              | cause => ("server_error", "", cause) end in
  openai_sse (VObject [("error", VObject [("code", VString code); ("message", VString (describe cause));
                                          ("param", VNull); ("type", VString kind)])]).

(** [describe] is the text of a cause, which decides nothing. *)
Definition openai_chat_completions (describe : Failure.reason → string)
    (payload : option OpenAiChatCompletionRequest.t) : M Response :=
  match payload with
  | None => mret (ErrorResponse (gateway_failure 400 "invalid_request_error" "invalid_json"
                                   (Failure.Message "invalid JSON")))
  | Some request =>
      match validate_openai_request request with
      | Err failure => mret (ErrorResponse failure)
      | Ok max_output_tokens =>
          started ← attempt (start_model_invocation request max_output_tokens);
          match started with
          | Err failure => mret (ErrorResponse failure)
          | Ok invocation =>
              let session_id := ModelSessionLeaseV1.session_id (ActiveModelInvocation.lease invocation) in
              let model_id := OpenAiChatCompletionRequest.model request in
              if OpenAiChatCompletionRequest.stream request
              then
                '(result, events) ← consume_model_invocation invocation (Some ModelStreamFormat.OpenAi);
                _ ← forget_session session_id;
                let first := openai_sse (chunk_value invocation model_id [("role", VString "assistant")] VNull) in
                let last := match result with
                            | Ok completion =>
                                openai_sse (chunk_value invocation model_id []
                                              (VString (ModelGatewayCompletion.finish_reason completion)))
                            | Err failure => openai_failure_event describe failure
                            end in
                mret (EventStream (first :: events ++ [last; "data: [DONE]" +:+ newline +:+ newline])
                        [session_header session_id])
              else
                '(result, _) ← consume_model_invocation invocation None;
                _ ← forget_session session_id;
                match result with
                | Err failure => mret (ErrorResponse failure)
                | Ok completion =>
                    let message := VObject [("content", VString (ModelGatewayCompletion.content completion));
                                            ("role", VString "assistant")] in
                    let choice := VObject [("finish_reason", VString (ModelGatewayCompletion.finish_reason completion));
                                           ("index", VInt 0); ("message", message)] in
                    let lease := ActiveModelInvocation.lease invocation in
                    mret (JsonResponse 200
                      (VObject ([("choices", VArray [choice]);
                                 ("created", VInt (ModelSessionLeaseV1.issued_at lease `div` seconds 1));
                                 ("id", VString ("chatcmpl-" +:+ uuid_simple (ActiveModelInvocation.request_id invocation)));
                                 ("model", VString model_id);
                                 ("object", VString "chat.completion")]
                                ++ match ModelGatewayCompletion.usage completion with
                                   | Some usage => [("usage", usage_value usage)] | None => [] end))
                      [session_header session_id])
                end
          end
      end
  end.

(** ** Anthropic *)

Definition anthropic_usage (input output : Z) : Value :=
  VObject [("input_tokens", VInt input); ("output_tokens", VInt output)].
Definition message_start (message_id model_id : string) : string :=
  anthropic_sse "message_start"
    (VObject [("message", VObject [("content", VArray []); ("id", VString message_id);
                                   ("model", VString model_id); ("role", VString "assistant");
                                   ("stop_reason", VNull); ("stop_sequence", VNull);
                                   ("type", VString "message"); ("usage", anthropic_usage 0 0)]);
              ("type", VString "message_start")]).
Definition block_start : string :=
  anthropic_sse "content_block_start"
    (VObject [("content_block", VObject [("text", VString ""); ("type", VString "text")]); ("index", VInt 0);
              ("type", VString "content_block_start")]).
Definition block_stop : string :=
  anthropic_sse "content_block_stop" (VObject [("index", VInt 0); ("type", VString "content_block_stop")]).
Definition message_delta (finish_reason : string) (usage : ModelUsageV1.t) : string :=
  anthropic_sse "message_delta"
    (VObject [("delta", VObject [("stop_reason", VString (anthropic_stop_reason finish_reason));
                                 ("stop_sequence", VNull)]);
              ("type", VString "message_delta");
              ("usage", anthropic_usage (ModelUsageV1.prompt_tokens usage) (ModelUsageV1.completion_tokens usage))]).
Definition message_stop : string := anthropic_sse "message_stop" (VObject [("type", VString "message_stop")]).
Definition anthropic_error_event (kind message : string) : string :=
  anthropic_sse "error" (VObject [("error", VObject [("message", VString message); ("type", VString kind)]);
                                  ("type", VString "error")]).

(** How the stream ends: the usage is required. *)
Definition anthropic_tail (describe : Failure.reason → string)
    (result : result Failure.t ModelGatewayCompletion.t) : list string :=
  match result with
  | Ok completion =>
      match ModelGatewayCompletion.usage completion with
      | Some usage =>
          [block_stop; message_delta (ModelGatewayCompletion.finish_reason completion) usage; message_stop]
      | None => [anthropic_error_event "api_error" "worker omitted required verified token usage"]
      end
  | Err failure =>
      [anthropic_error_event (anthropic_failure_kind (Failure.status failure)) (describe (Failure.why failure))]
  end.

Definition anthropic_messages (describe : Failure.reason → string)
    (payload : option AnthropicMessagesRequest.t) : M Response :=
  match payload with
  | None => mret (ErrorResponse (gateway_failure 400 "invalid_request_error" "invalid_json"
                                   (Failure.Message "invalid JSON")))
  | Some request =>
      match openai_request ← translate_anthropic_request request;
            limit ← validate_openai_request openai_request;
            Ok (openai_request, limit) with
      | Err failure => mret (ErrorResponse failure)
      | Ok (openai_request, max_output_tokens) =>
          started ← attempt (start_model_invocation openai_request max_output_tokens);
          match started with
          | Err failure => mret (ErrorResponse failure)
          | Ok invocation =>
              let session_id := ModelSessionLeaseV1.session_id (ActiveModelInvocation.lease invocation) in
              let simple_id := uuid_simple (ActiveModelInvocation.request_id invocation) in
              let headers := [session_header session_id; ("request-id", "req_" +:+ simple_id)] in
              let model_id := AnthropicMessagesRequest.model request in
              if AnthropicMessagesRequest.stream request
              then
                '(result, events) ← consume_model_invocation invocation (Some ModelStreamFormat.Anthropic);
                _ ← forget_session session_id;
                mret (EventStream (message_start ("msg_" +:+ simple_id) model_id :: block_start
                                     :: events ++ anthropic_tail describe result) headers)
              else
                '(result, _) ← consume_model_invocation invocation None;
                _ ← forget_session session_id;
                match result with
                | Err failure => mret (ErrorResponse failure)
                | Ok completion =>
                    match ModelGatewayCompletion.usage completion with
                    | None => mret (ErrorResponse (Failure.mk 502
                                (Failure.Message "worker omitted required verified token usage")))
                    | Some usage =>
                        mret (JsonResponse 200
                          (VObject [("content", VArray [VObject
                                       [("text", VString (ModelGatewayCompletion.content completion));
                                        ("type", VString "text")]]);
                                    ("id", VString ("msg_" +:+ simple_id)); ("model", VString model_id);
                                    ("role", VString "assistant");
                                    ("stop_reason", VString (anthropic_stop_reason
                                       (ModelGatewayCompletion.finish_reason completion)));
                                    ("stop_sequence", VNull); ("type", VString "message");
                                    ("usage", anthropic_usage (ModelUsageV1.prompt_tokens usage)
                                                (ModelUsageV1.completion_tokens usage))]) headers)
                    end
                end
          end
      end
  end.

(** A cancellation is noted even when its evidence cannot be written. *)
Definition cancel_model_session (session_id : Uuid) : M Response :=
  cancellations ← read AppState.model_cancellations;
  match cancellations !! session_id with
  | None => mret (ErrorResponse (gateway_failure 404 "invalid_request_error" "session_not_found"
                                   (Failure.Message "model session is not active")))
  | Some _ =>
      _ ← modify (λ s, AppState.set_model_cancellations
                         (<[session_id := true]> (AppState.model_cancellations s)) s);
      _ ← attempt (append "model.session.cancel.requested" (uuid_to_string session_id)
                     (VObject [("source", VString "local-openai-api")]));
      mret (JsonResponse 202 (VObject [("cancelled", VBool true); ("session_id", uuid session_id)]) [])
  end.
End gateway.
End ModelGateway.
