(* ===== verification/ModelGatewayFacts.v ===== *)
(** * Facts about the model gateway

    A completion is backed by a verified receipt that is in the ledger, the loop over the
    frames ends with its stream, and the answer a worker produced arrives whole: the worker's
    frames, consumed by the controller, give the text the model produced. *)

From S2P Require Import Prelude.
From S2P Require Import Codec.
From S2P Require Import Text.
From S2P Require Import Contracts.
From S2P Require Import Wire.
From S2P Require Import Signing.
From S2P Require Import Governor.
From S2P Require Import GovernorFacts.
From S2P Require Import Storage.
From S2P Require Import StorageFacts.
From S2P Require Import Ledger.
From S2P Require Import Mesh.
From S2P Require Import MeshFacts.
From S2P Require Import Gateway.
From S2P Require Import ModelWorker.
From S2P Require Import ModelWorkerFacts.
From S2P Require Import ControllerState.
From S2P Require Import Controller.
From S2P Require Import ModelGateway.
From S2P Require Import Packing.
From S2P Require Import Samples.
Import Text Controller ModelGateway.
#[local] Open Scope Z_scope.

Section gateway.
Context {codec : Codec} {crypto : Crypto} {ser : Serializer} {vault : Vault} {render : Render}
        {order : HashOrder} {wire : ContractWire} {iroh : Iroh}.
Context {wire_model_lease : Wire ModelSessionLeaseV1.t} {wire_model_receipt : Wire ModelExecutionReceiptV1.t}.
Implicit Types (invocation : ActiveModelInvocation.t) (env : Env) (c : nat * AppState.t).

(** ** Runs of a computation *)

Lemma reject_with_inv b failure env c u c' :
  reject_with b failure env c = (Ok u, c') → b = false ∧ c' = c.
Proof. by destruct b; intros [=]. Qed.
Lemma evidence_inv ty sid v env c u c' :
  evidence (append ty sid v) env c = (Ok u, c') →
  ∃ l event, Ledger.append (clock env c.1) ty sid v (AppState.ledger c.2) = Ok (l, event) ∧
    c' = (S c.1, AppState.set_ledger l c.2).
Proof.
  unfold evidence, map_failure, append. destruct (Ledger.append _ _ _ _ _) as [[l event]|]; [|done].
  intros [= _ <-]. by exists l, event.
Qed.

(** A wait changes nothing but the number of draws. *)
Lemma await_frame_state invocation stream env c r c' :
  await_frame invocation stream env c = (r, c') → c'.2 = c.2.
Proof.
  unfold await_frame, now, await, mbind, M_bind, reject_with, lift, fail_with, fail, mret, M_ret.
  intros H. repeat (case_match; simplify_eq/=; try done).
Qed.
Lemma await_frame_inv invocation stream env c frame stream' c' :
  await_frame invocation stream env c = (Ok (frame, stream'), c') → next_frame stream = Ok (frame, stream').
Proof.
  unfold await_frame. intros H. do 5 m_inv H.
  unfold lift in H. destruct (next_frame stream); [by injection H as <-|done].
Qed.

(** ** A completion is receipted *)

(** The receipt of a worker that vouches for a completion. *)
Definition vouches (nodes : gmap Uuid NodeIdentityV1.t) invocation (output : string)
    (receipt : ModelExecutionReceiptV1.t) : Prop :=
  let lease := ActiveModelInvocation.lease invocation in
  (∃ identity, nodes !! ModelSessionLeaseV1.node_id lease = Some identity ∧
     verify_model_receipt identity receipt = Ok ()) ∧
  ModelExecutionReceiptV1.lease_id receipt = ModelSessionLeaseV1.lease_id lease ∧
  ModelExecutionReceiptV1.session_id receipt = ModelSessionLeaseV1.session_id lease ∧
  ModelExecutionReceiptV1.request_id receipt = ActiveModelInvocation.request_id invocation ∧
  ModelExecutionReceiptV1.node_id receipt = ModelSessionLeaseV1.node_id lease ∧
  ModelExecutionReceiptV1.output_digest receipt = CasStore.sha256_digest output ∧
  ModelExecutionReceiptV1.output_bytes receipt = len output.

Lemma verified_receipt_vouches invocation receipt output env c u c' :
  verify_terminal_model_receipt invocation receipt output env c = (Ok u, c') →
  vouches (AppState.nodes c.2) invocation output receipt ∧ c' = c.
Proof.
  unfold verify_terminal_model_receipt. intros Hr. do 3 m_inv Hr. injection Ha as <- <-.
  destruct (AppState.nodes c.2 !! _) as [identity'|] eqn:Hn; [|done]. injection Ha0 as <- <-.
  apply reject_with_inv in Ha1 as [Hv ->]. apply reject_with_inv in Hr as [Hr ->].
  destruct (verify_model_receipt identity' receipt) as [[]|] eqn:Hver; [|done].
  repeat (apply orb_false_iff in Hr as [Hr ?]). bool_prop. unfold vouches.
  split; [|done]. split_and!; try (by bool_prop). exists identity'. split; [|done]. by rewrite <-Hn; f_equal.
Qed.

(** A terminal frame that completes the session, and the state it leaves. *)
Lemma finish_invocation_inv invocation frame expected output env c completion c' :
  finish_invocation invocation frame expected output env c = (Ok completion, c') →
  ∃ receipt l event, vouches (AppState.nodes c.2) invocation output receipt ∧
    ModelExecutionReceiptV1.state receipt = JobState.Succeeded ∧
    ModelExecutionReceiptV1.error receipt = None ∧
    Ledger.append (clock env c.1) "model.session.receipted"
      (uuid_to_string (ModelSessionLeaseV1.session_id (ActiveModelInvocation.lease invocation)))
      (to_value receipt) (AppState.ledger c.2) = Ok (l, event) ∧
    c' = (S c.1, AppState.set_ledger l c.2) ∧
    ModelGatewayCompletion.content completion = output ∧
    ModelGatewayCompletion.usage completion = ModelExecutionReceiptV1.usage receipt.
Proof.
  unfold finish_invocation. intros H. do 6 m_inv H.
  apply reject_with_inv in Ha as [_ ->].
  destruct (ModelInvocationFrameV1.receipt frame) as [receipt|]; [|by case_match].
  injection Ha0 as <- <-.
  apply verified_receipt_vouches in Ha1 as [Hv ->].
  apply reject_with_inv in Ha2 as [Hst ->]. apply reject_with_inv in Ha3 as [Hmeta ->].
  apply evidence_inv in Ha4 as (l & event & Hap & ->).
  set (is_error := match ModelInvocationFrameV1.kind frame with ModelInvocationFrameKind.Error => true | _ => false end) in *.
  destruct is_error; [done|]. injection H as <- <-. rewrite orb_false_r in Hst. cbn [negb andb] in Hst.
  bool_prop. exists receipt, l, event. split_and!; try done.
  assert (ModelExecutionReceiptV1.state receipt == JobState.Succeeded = true) as Hs by by apply bool_decide_eq_true.
  rewrite Hs in *. by destruct (ModelExecutionReceiptV1.error receipt).
Qed.

(** The events a streaming client has been sent when these pieces of text went to it, one
    event a piece; a client that did not ask for a stream is sent none. *)
Definition streamed invocation (format : option ModelStreamFormat.t) (pieces : list string) : list string :=
  match format with Some f => delta_event f invocation <$> pieces | None => [] end.

Lemma streamed_snoc invocation f pieces piece :
  streamed invocation (Some f) (pieces ++ [piece])
  = (streamed invocation (Some f) pieces ++ [delta_event f invocation piece]).
Proof. unfold streamed. by rewrite fmap_app. Qed.
Lemma concat_bytes_snoc pieces piece : concat_bytes (pieces ++ [piece]) = concat_bytes pieces +:+ piece.
Proof.
  induction pieces as [|p pieces IH]; [apply append_empty|].
  change (p +:+ concat_bytes (pieces ++ [piece]) = (p +:+ concat_bytes pieces) +:+ piece).
  by rewrite IH, append_assoc.
Qed.

(** Along the loop the text kept for the receipt is the concatenation of the pieces sent. *)
Lemma consume_frames_inv fuel invocation format stream expected pieces env c completion events' c' :
  consume_frames fuel invocation format stream expected (concat_bytes pieces)
    (streamed invocation format pieces) env c = (Ok (Ok completion, events'), c') →
  len (concat_bytes pieces) ≤ MAX_MODEL_OUTPUT_BYTES →
  ∃ frame expected pieces n, len (concat_bytes pieces) ≤ MAX_MODEL_OUTPUT_BYTES ∧
    events' = streamed invocation format pieces ∧
    finish_invocation invocation frame expected (concat_bytes pieces) env (n, c.2) = (Ok completion, c').
Proof.
  revert stream expected pieces c. induction fuel as [|fuel IH];
    intros stream expected pieces c H Hlen; cbn [consume_frames] in H; [done|].
  m_inv H. unfold attempt in Ha. destruct (await_frame _ _ _ _) as [r c1] eqn:Hw. injection Ha as <- <-.
  apply await_frame_state in Hw. destruct r as [[frame stream']|]; [|done].
  destruct (_ != expected); [done|].
  destruct (ModelInvocationFrameV1.kind frame) eqn:Hk; 
    [|m_inv H; exists frame, expected, pieces, c1.1; split; [done|]; rewrite <-Hw, <-surjective_pairing;
      unfold attempt in Ha; destruct (finish_invocation _ _ _ _ _ _) as [? ?] eqn:Hf;
      injection Ha as <- <-; by injection H as <- <- <-..].
  destruct (_ || _); [done|]. cbv zeta in H. rewrite <-concat_bytes_snoc in H.
  destruct (Z.ltb_spec MAX_MODEL_OUTPUT_BYTES (len (concat_bytes (pieces ++ [ModelInvocationFrameV1.content frame]))));
    [done|]. rewrite <-Hw.
  destruct format as [f|]; [|by eapply (IH _ _ (pieces ++ [_]))].
  m_inv H. injection Ha as _ <-. destruct (_ == ClientGone); [done|].
  rewrite <-streamed_snoc in H. by apply IH in H.
Qed.

(** [C7] A completed model session is backed by evidence over what the client was sent: the
    text of the completion is the concatenation of the pieces, and a streaming client has been
    sent exactly one event for each piece, in order, and nothing else; the node its lease names
    is enrolled and signed a receipt for this lease, session and request whose digest and length
    are those of that text, the receipt reports success without an error and gives the usage
    that is returned, the text is within the output limit, and the whole effect on the
    controller is that receipt in the ledger. *)
Theorem completion_is_receipted invocation format env c completion events c' :
  consume_model_invocation invocation format env c = (Ok (Ok completion, events), c') →
  ∃ pieces receipt now l event,
    ModelGatewayCompletion.content completion = concat_bytes pieces ∧
    events = streamed invocation format pieces ∧
    vouches (AppState.nodes c.2) invocation (concat_bytes pieces) receipt ∧
    ModelExecutionReceiptV1.state receipt = JobState.Succeeded ∧
    ModelExecutionReceiptV1.error receipt = None ∧
    ModelGatewayCompletion.usage completion = ModelExecutionReceiptV1.usage receipt ∧
    len (ModelGatewayCompletion.content completion) ≤ MAX_MODEL_OUTPUT_BYTES ∧
    Ledger.append now "model.session.receipted"
      (uuid_to_string (ModelSessionLeaseV1.session_id (ActiveModelInvocation.lease invocation)))
      (to_value receipt) (AppState.ledger c.2) = Ok (l, event) ∧
    c'.2 = AppState.set_ledger l c.2.
Proof.
  intros H.
  assert (streamed invocation format [] = []) as Hnil by by destruct format.
  unfold consume_model_invocation in H. rewrite <-Hnil in H.
  apply (consume_frames_inv _ _ _ _ _ []) in H as (frame & expected & pieces & n & Hlen & Hev & H); [|done].
  apply finish_invocation_inv in H as (receipt & l & event & Hv & Hs & He & Hap & -> & Hc & Hu).
  rewrite Hc. exists pieces, receipt, (clock env n), l, event. by split_and!.
Qed.

(** ** The loop ends with its stream *)

Definition is_coded (failure : Failure.t) : Prop :=
  ∃ kind code cause, Failure.why failure = Failure.Coded kind code cause.
(** A computation fails only with a gateway failure. *)
Definition coded {A} (m : M A) : Prop :=
  ∀ env c, match (m env c).1 with Err failure => is_coded failure | Ok _ => True end.

Lemma gateway_failure_coded status kind code cause : is_coded (gateway_failure status kind code cause).
Proof. by exists kind, code, cause. Qed.
Lemma coded_ret {A} (a : A) : coded (mret a).
Proof. done. Qed.
Lemma coded_bind {A B} (m : M A) (f : A → M B) : coded m → (∀ a, coded (f a)) → coded (m ≫= f).
Proof.
  intros Hm Hf env c. specialize (Hm env c). unfold mbind, M_bind.
  destruct (m env c) as [[a|] c']; [apply Hf|done].
Qed.
Lemma coded_read {A} (f : AppState.t → A) : coded (read f).
Proof. done. Qed.
Lemma coded_now : coded now.
Proof. done. Qed.
Lemma coded_await : coded await.
Proof. done. Qed.
Lemma coded_fail {A} failure : is_coded failure → coded (fail_with (A := A) failure).
Proof. intros Hf env c. exact Hf. Qed.
Lemma coded_reject b failure : is_coded failure → coded (reject_with b failure).
Proof. intros Hf. destruct b; [by apply coded_fail|done]. Qed.
Lemma coded_evidence m : coded (evidence m).
Proof. intros env c. unfold evidence, map_failure. destruct (m env c) as [[]]; [done|apply gateway_failure_coded]. Qed.
Lemma coded_lift {E A} status (why : E → Failure.reason) (r : result E A) :
  (∀ e, is_coded (Failure.mk status (why e))) → coded (lift status why r).
Proof. intros Hw env c. destruct r; [done|apply Hw]. Qed.
Create HintDb coded discriminated.
#[local] Hint Resolve gateway_failure_coded coded_ret coded_read coded_now coded_await coded_fail
  coded_reject coded_evidence : coded.
#[local] Ltac coded := repeat (intros; first [ solve [eauto with coded] | apply coded_bind | case_match ]).

Lemma coded_await_frame invocation stream : coded (await_frame invocation stream).
Proof. unfold await_frame, model_timeout. coded. intros _. apply coded_lift. intros. eexists _, _, _. reflexivity. Qed.
Lemma coded_finish invocation frame expected output : coded (finish_invocation invocation frame expected output).
Proof. unfold finish_invocation, verify_terminal_model_receipt, invalid_worker_stream. coded. Qed.

(** A frame takes at least its length off the stream. *)
Lemma next_frame_shrinks stream frame stream' :
  next_frame stream = Ok (frame, stream') →
  (String.length (receive stream') < String.length (receive stream))%nat.
Proof.
  unfold next_frame. intros H. inv_bind H. destruct a as [frame' rest]. inv_bind H. injection H as _ <-. cbn.
  apply read_header_bound in Ha as (encoded & _ & _ & Hlen). pose proof (len_nonneg encoded).
  unfold len in *. lia.
Qed.

Lemma consume_frames_ends fuel invocation format stream expected output events env c :
  (String.length (receive stream) < fuel)%nat →
  ∃ r events' c', consume_frames fuel invocation format stream expected output events env c
                  = (Ok (r, events'), c') ∧ (∀ failure, r = Err failure → is_coded failure).
Proof.
  revert stream expected output events c. induction fuel as [|fuel IH];
    intros stream expected output events c Hfuel; [lia|]. cbn [consume_frames].
  rewrite attempt_bind.
  pose proof (coded_await_frame invocation stream env c) as Hw.
  destruct (await_frame _ _ _ _) as [[[frame stream']|failure] c1] eqn:E;
    [|eexists _, _, _; split; [done|]; intros ? [= <-]; exact Hw].
  apply await_frame_inv, next_frame_shrinks in E. clear Hw.
  assert (∀ message r, r = Err (A := ModelGatewayCompletion.t) (invalid_worker_stream message) →
            ∃ r' ev' c', (mret (r, events) : M _) env c1 = (Ok (r', ev'), c')
              ∧ ∀ failure, r' = Err failure → is_coded failure) as Hstop.
  { intros message r ->. eexists _, _, _. split; [done|]. intros ? [= <-]. apply gateway_failure_coded. }
  cbn [fst snd]. destruct (ModelInvocationFrameV1.sequence frame != expected); [by eapply Hstop|].
  destruct (ModelInvocationFrameV1.kind frame);
    [|rewrite attempt_bind; pose proof (coded_finish invocation frame expected output env c1) as Hf;
      destruct (finish_invocation _ _ _ _ _ _) as [r c2]; exists r, events, c2;
      split; [done|]; intros ? ->; exact Hf..].
  destruct (_ || _); [by eapply Hstop|]. cbv zeta. destruct (_ <? _); [by eapply Hstop|].
  destruct format as [f|]; [|apply IH; lia].
  unfold mbind, M_bind, await. destruct (_ == ClientGone); [|apply IH; lia].
  eexists _, _, _. split; [done|]. intros ? [= <-]. apply gateway_failure_coded.
Qed.

(** The gateway's loop over a worker's frames ends on every stream, whatever bytes the
    worker sent and however the waits turn out: it yields a completion or one of the coded
    failures the endpoints report. *)
Theorem consumption_ends invocation format env c :
  ∃ r events c', consume_model_invocation invocation format env c = (Ok (r, events), c') ∧
    (∀ failure, r = Err failure → is_coded failure).
Proof. apply consume_frames_ends. lia. Qed.

(** ** What a worker produced arrives *)

Lemma written_frames_length frames bytes :
  try_map write_model_frame frames = Ok bytes → (length frames ≤ String.length (concat_bytes bytes))%nat.
Proof.
  revert bytes. induction frames as [|frame frames IH]; intros bytes H; cbn [try_map] in H; [cbn; lia|].
  inv_bind H. inv_bind H. injection H as <-. specialize (IH _ Ha0).
  cbn [concat_bytes foldr length]. fold (concat_bytes a0). rewrite string_app_length.
  unfold write_model_frame, write_header in Ha. inv_bind Ha. inv_bind Ha. injection Ha as <-.
  rewrite string_app_length. cbn. lia.
Qed.

Section delivery.
Context (invocation : ActiveModelInvocation.t) (format : option ModelStreamFormat.t) (env : Env).
Context {laws : CryptoLaws codec crypto} {wire_chunk : Wire OllamaChatChunk.t} `{!Lossless ModelInvocationFrameV1.t}.
#[local] Abbreviation request_id := (ActiveModelInvocation.request_id invocation).
#[local] Abbreviation lease := (ActiveModelInvocation.lease invocation).
(** Nothing interrupts the session: no wait is cut short and its lease stays in force. *)
Hypothesis undisturbed : ∀ n, awaited env n = Proceeds ∧ clock env n ≤ ModelSessionLeaseV1.expires_at lease.

Lemma next_frame_delivers frame header rest :
  ModelInvocationFrameV1.request_id frame = request_id → write_model_frame frame = Ok header →
  next_frame (mkModelStream (header +:+ rest) request_id) = Ok (frame, mkModelStream rest request_id).
Proof.
  intros Hid Hw. pose proof (model_stream_roundtrip request_id [frame] [header] rest) as Hr.
  cbn [try_map] in Hr. rewrite Hw in Hr. specialize (Hr ltac:(by repeat constructor) eq_refl).
  cbn [length next_frames concat_bytes foldr] in Hr. rewrite append_empty in Hr.
  destruct (next_frame _) as [[frame' stream']|]; [|done]. by injection Hr as -> ->.
Qed.

Lemma await_frame_delivers frame header rest c :
  ModelInvocationFrameV1.request_id frame = request_id → write_model_frame frame = Ok header →
  await_frame invocation (mkModelStream (header +:+ rest) request_id) env c
  = (Ok (frame, mkModelStream rest request_id), (S (S c.1), c.2)).
Proof.
  intros Hid Hw. destruct (undisturbed c.1) as [_ Ht], (undisturbed (S c.1)) as [Ha _].
  unfold await_frame. rewrite (next_frame_delivers frame header rest Hid Hw).
  unfold now, await, mbind, M_bind, reject_with, mret, M_ret. cbn [fst snd].
  destruct (Z.ltb_spec (ModelSessionLeaseV1.expires_at lease) (clock env c.1)); [lia|].
  cbn [fst snd]. by rewrite Ha.
Qed.

(** What a client of the stream is sent for the pieces of the answer. *)
Definition client_events (pieces : list string) : list string :=
  match format with Some f => delta_event f invocation <$> pieces | None => [] end.

Lemma consume_delta fuel piece header rest expected output events c request :
  ModelInvocationRequestV1.request_id request = request_id →
  write_model_frame (delta_frame request expected piece) = Ok header →
  len (output +:+ piece) ≤ MAX_MODEL_OUTPUT_BYTES →
  ∃ n, consume_frames (S fuel) invocation format (mkModelStream (header +:+ rest) request_id) expected output
         events env c
       = consume_frames fuel invocation format (mkModelStream rest request_id) (sat_add expected 1)
           (output +:+ piece) (events ++ client_events [piece]) env (n, c.2).
Proof.
  intros Hid Hw Hlen. cbn [consume_frames].
  rewrite attempt_bind, (await_frame_delivers (delta_frame request expected piece) _ _ _ Hid Hw). cbn [fst snd delta_frame ModelInvocationFrameV1.sequence
    ModelInvocationFrameV1.kind ModelInvocationFrameV1.receipt ModelInvocationFrameV1.error
    ModelInvocationFrameV1.finish_reason ModelInvocationFrameV1.content is_some orb].
  rewrite (bool_decide_eq_true_2 (expected = expected)) by done. cbn [negb].
  destruct (Z.ltb_spec MAX_MODEL_OUTPUT_BYTES (len (output +:+ piece))); [lia|].
  unfold client_events. destruct format as [f|].
  - unfold mbind, M_bind, await. cbn [fst snd]. destruct (undisturbed (S (S c.1))) as [-> _]. by eexists.
  - rewrite app_nil_r. by eexists.
Qed.

Lemma client_events_app pieces more : client_events (pieces ++ more) = client_events pieces ++ client_events more.
Proof. unfold client_events. destruct format; [apply fmap_app|done]. Qed.

Lemma consume_deltas fuel pieces rest request n bytes output events c :
  ModelInvocationRequestV1.request_id request = request_id →
  try_map write_model_frame (imap (λ i piece, delta_frame request (n + Z.of_nat i) piece) pieces) = Ok bytes →
  n + zlen pieces ≤ u64_max → len (output +:+ concat_bytes pieces) ≤ MAX_MODEL_OUTPUT_BYTES →
  ∃ k, consume_frames (length pieces + fuel) invocation format
         (mkModelStream (concat_bytes bytes +:+ rest) request_id) n output events env c
       = consume_frames fuel invocation format (mkModelStream rest request_id) (n + zlen pieces)
           (output +:+ concat_bytes pieces) (events ++ client_events pieces) env (k, c.2).
Proof.
  intros Hid. revert n bytes output events c. induction pieces as [|piece pieces IH];
    intros n bytes output events c Hw Hn Hlen; cbn [imap try_map] in Hw.
  - injection Hw as <-. exists c.1. cbn [length Nat.add concat_bytes foldr]. unfold zlen. cbn [length].
    rewrite append_empty, Z.add_0_r. unfold client_events. destruct c, format; cbn; by rewrite app_nil_r.
  - inv_bind Hw. inv_bind Hw. injection Hw as <-. cbn [concat_bytes foldr] in *. fold (concat_bytes pieces) in *.
    fold (concat_bytes a0). rewrite append_assoc. rewrite Z.add_0_r in Ha. unfold zlen in *. cbn [length] in *.
    pose proof (len_nonneg (concat_bytes pieces)).
    destruct (consume_delta (length pieces + fuel) piece a (concat_bytes a0 +:+ rest) n output events c request Hid Ha)
      as [k Hk]; [rewrite <-append_assoc, len_app in Hlen; lia|].
    cbn [Nat.add]. rewrite Hk. replace (sat_add n 1) with (n + 1) by (unfold sat_add; lia).
    destruct (IH (n + 1) a0 (output +:+ piece) (events ++ client_events [piece]) (k, c.2)) as [k' Hk'].
    + rewrite <-Ha0. f_equal. apply imap_ext. intros i x _. cbn. f_equal. lia.
    + lia.
    + by rewrite append_assoc.
    + exists k'. rewrite Hk'. cbn [snd]. rewrite append_assoc, <-app_assoc, <-client_events_app. cbn [app].
      by replace (n + 1 + Z.of_nat (length pieces)) with (n + Z.of_nat (S (length pieces))) by lia.
Qed.

(** The frame that ends a successful execution completes the session. *)
Lemma finish_delivers describe worker request key run completion identity l event c :
  ModelInvocationRequestV1.request_id request = request_id → ModelInvocationRequestV1.lease request = lease →
  started_at worker ≤ finished_at worker →
  len (OllamaCompletion.finish_reason completion) ≤ 64 → is_ascii (OllamaCompletion.finish_reason completion) = true →
  AppState.nodes c.2 !! ModelSessionLeaseV1.node_id lease = Some identity →
  identity_of identity key (ModelSessionLeaseV1.node_id lease) →
  Ledger.append (clock env c.1) "model.session.receipted" (uuid_to_string (ModelSessionLeaseV1.session_id lease))
    (to_value (model_receipt worker request key JobState.Succeeded (Run.output run)
                 (OllamaCompletion.usage completion) None)) (AppState.ledger c.2) = Ok (l, event) →
  finish_invocation invocation (terminal_frame describe worker request key run (Ok completion))
    (Run.sequence run) (Run.output run) env c
  = (Ok (ModelGatewayCompletion.mk (Run.output run) (OllamaCompletion.finish_reason completion)
           (OllamaCompletion.usage completion)), (S c.1, AppState.set_ledger l c.2)).
Proof.
  intros Hid Hlease Htime Hreason Hascii Hnode [Hkey Hn] Hap.
  assert (verify_model_receipt identity (model_receipt worker request key JobState.Succeeded (Run.output run)
            (OllamaCompletion.usage completion) None) = Ok ()) as Hver.
  { unfold verify_model_receipt, model_receipt, sign_model_receipt. rewrite Hkey, Hlease.
    rewrite bool_decide_true by done. apply verify_sign_contract. }
  set (receipt := model_receipt worker request key JobState.Succeeded (Run.output run)
                    (OllamaCompletion.usage completion) None) in *.
  assert (verify_terminal_model_receipt invocation receipt (Run.output run) env c = (Ok (), c)) as Hv.
  { unfold verify_terminal_model_receipt, read, mbind, M_bind.
    change (ModelExecutionReceiptV1.node_id receipt)
      with (ModelSessionLeaseV1.node_id (ModelInvocationRequestV1.lease request)).
    rewrite Hlease, Hnode. unfold mret, M_ret. rewrite Hver. cbn [is_ok negb reject_with mret M_ret].
    match goal with |- reject_with ?b _ _ _ = _ => assert (b = false) as -> end; [|done].
    rewrite !orb_false_iff, !negb_false_iff, !bool_decide_eq_true. cbn. rewrite Hlease.
    split_and!; try done; [set_solver|lia]. }
  unfold finish_invocation, evidence, map_failure, append, mbind, M_bind.
  cbn -[verify_terminal_model_receipt Ledger.append bool_decide Z.ltb model_receipt is_ascii len].
  change (model_receipt worker request key JobState.Succeeded (Run.output run)
            (OllamaCompletion.usage completion) None) with receipt.
  assert (ModelExecutionReceiptV1.state receipt = JobState.Succeeded ∧ ModelExecutionReceiptV1.error receipt = None ∧
          ModelExecutionReceiptV1.usage receipt = OllamaCompletion.usage completion) as (Hstate & Herr & Husage) by done.
  clearbody receipt. rewrite Hv. cbn -[Ledger.append bool_decide Z.ltb is_ascii len].
  rewrite Hstate, Herr, !(bool_decide_eq_true_2 (JobState.Succeeded = JobState.Succeeded)) by done.
  cbn -[Ledger.append Z.ltb is_ascii len]. rewrite Hascii, (proj2 (Z.ltb_ge 64 _) Hreason), Husage.
  cbn -[Ledger.append]. by rewrite Hap.
Qed.

(** [C8] What a model produced on a worker reaches the gateway's client: when the worker's
    execution of the session's request succeeded with a text and its frames reach the
    controller, where the worker's node is enrolled and neither a timer nor a cancellation nor
    the client interrupts, the gateway returns exactly that text with the worker's finish
    reason and usage; a streaming client was sent the text piece by piece, in order and without
    a gap, and the worker's receipt is in the ledger. *)
Theorem model_session_delivers describe worker request key body completion run bytes identity c :
  ModelInvocationRequestV1.request_id request = request_id → ModelInvocationRequestV1.lease request = lease →
  execution request body (Run.mk "" "" 0) = (Ok completion, run) →
  run_ollama_invocation describe worker request key (Some (mkHttp 200 body)) = (Ok (), bytes) →
  ActiveModelInvocation.stream invocation = mkModelStream bytes request_id →
  started_at worker ≤ finished_at worker →
  len (OllamaCompletion.finish_reason completion) ≤ 64 → is_ascii (OllamaCompletion.finish_reason completion) = true →
  AppState.nodes c.2 !! ModelSessionLeaseV1.node_id lease = Some identity →
  identity_of identity key (ModelSessionLeaseV1.node_id lease) →
  (∀ now, is_ok (Ledger.append now "model.session.receipted"
     (uuid_to_string (ModelSessionLeaseV1.session_id lease))
     (to_value (model_receipt worker request key JobState.Succeeded (Run.output run)
                  (OllamaCompletion.usage completion) None)) (AppState.ledger c.2)) = true) →
  ∃ pieces now l event n,
    concat_bytes pieces = Run.output run ∧ Run.output run ≠ "" ∧
    Ledger.append now "model.session.receipted" (uuid_to_string (ModelSessionLeaseV1.session_id lease))
      (to_value (model_receipt worker request key JobState.Succeeded (Run.output run)
                   (OllamaCompletion.usage completion) None)) (AppState.ledger c.2) = Ok (l, event) ∧
    consume_model_invocation invocation format env c
    = (Ok (Ok (ModelGatewayCompletion.mk (Run.output run) (OllamaCompletion.finish_reason completion)
                 (OllamaCompletion.usage completion)), client_events pieces), (n, AppState.set_ledger l c.2)).
Proof.
  intros Hid Hlease Hex Hrun Hstream Htime Hreason Hascii Hnode Hidentity Hledger.
  unfold run_ollama_invocation in Hrun. cbn [is_success http_status ModelWorker.body] in Hrun.
  change (negb (is_success 200)) with false in Hrun. cbv iota in Hrun. rewrite Hex in Hrun.
  destruct (emit _ run) as [final|] eqn:He; [|done]. injection Hrun as <-.
  unfold emit in He. inv_bind He. apply map_err_ok in Ha. injection He as <-. cbn [Run.written] in Hstream.
  destruct (execution_reflects _ _ _ _ _ (reflects_start request) Hex)
    as [(pieces & (frames & Hframes & Hwritten & Hseq) & Hout & Hnonempty & Hmax) Hne].
  set (terminal := terminal_frame describe worker request key run (Ok completion)) in *.
  assert (length pieces ≤ String.length (concat_bytes frames))%nat as Hfuel.
  { rewrite <-(length_imap (λ i piece, delta_frame request (Z.of_nat i) piece)). by apply written_frames_length. }
  assert (0 + zlen pieces ≤ u64_max) as Hcount.
  { apply pieces_length in Hnonempty. rewrite <-Hout in Hnonempty. unfold MAX_MODEL_OUTPUT_BYTES, u64_max in *. lia. }
  unfold consume_model_invocation. rewrite Hstream. cbn [receive].
  rewrite Hwritten, string_app_length.
  replace (S (String.length (concat_bytes frames) + String.length a))
    with (length pieces + S (String.length (concat_bytes frames) + String.length a - length pieces))%nat by lia.
  destruct (consume_deltas (S (String.length (concat_bytes frames) + String.length a - length pieces))
              pieces a request 0 frames "" [] c Hid) as [k Hk]; [done|done|by rewrite <-Hout|].
  rewrite Hk. cbn [app consume_frames]. rewrite attempt_bind.
  pose proof (await_frame_delivers terminal a "" (k, c.2) Hid Ha) as Hlast. rewrite append_empty in Hlast.
  rewrite Hlast. cbn [fst snd].
  specialize (Hledger (clock env (S (S k)))). destruct (Ledger.append _ _ _ _ _) as [[l event]|] eqn:Hap; [|done].
  exists pieces, (clock env (S (S k))), l, event, (S (S (S k))). split_and!; [done|done|done|].
  assert (ModelInvocationFrameV1.sequence terminal = 0 + zlen pieces) as Hlast_seq by exact Hseq.
  rewrite Hlast_seq, bool_decide_true by done. cbn [negb].
  change (ModelInvocationFrameV1.kind terminal)
    with (if JobState.Succeeded == JobState.Succeeded then ModelInvocationFrameKind.Complete
          else ModelInvocationFrameKind.Error). 
  rewrite bool_decide_true by done. rewrite attempt_bind.
  assert (finish_invocation invocation terminal (0 + zlen pieces) ("" +:+ concat_bytes pieces) env (S (S k), c.2)
    = (Ok (ModelGatewayCompletion.mk (Run.output run) (OllamaCompletion.finish_reason completion)
             (OllamaCompletion.usage completion)), (S (S (S k)), AppState.set_ledger l c.2))) as ->; [|done].
  change ("" +:+ concat_bytes pieces) with (concat_bytes pieces). rewrite <-Hout, <-Hlast_seq.
  by apply (finish_delivers describe worker request key run completion identity l event (S (S k), c.2)).
Qed.
End delivery.
End gateway.

(** ** Concrete sessions *)

Module ModelGatewayWitness.
Import ReferenceCrypto StorageFacts.Witness Samples.

#[local] Instance wire : ContractWire := {|
  wire_identity := unsent; wire_job := unsent; wire_lease := unsent; wire_set := unsent;
  wire_claim := unsent; wire_receipt := unsent; wire_artifact := unsent; wire_replica := unsent;
  wire_offer := unsent; wire_benchmark := unsent; wire_storage_lease := unsent; wire_score := unsent;
  wire_placement := unsent; wire_constraints := unsent; wire_candidate := unsent; wire_canary := unsent;
  wire_enrollment := unsent; wire_link_probe := unsent; wire_result := unsent;
  wire_mesh := packed_mesh_wire
|}.
#[local] Instance wire_model_lease : Wire ModelSessionLeaseV1.t := unsent.
#[local] Instance wire_model_receipt : Wire ModelExecutionReceiptV1.t := packed_wire packed_ModelExecutionReceiptV1.
#[local] Instance wire_chunk : Wire OllamaChatChunk.t := packed_wire packed_OllamaChatChunk.
#[local] Instance frames_lossless : Lossless ModelInvocationFrameV1.t.
Proof. apply packed_lossless. exact Reference.reference_stable. Qed.

Definition owner_key : @SigningKey reference_crypto := "owner".
Definition worker_key : @SigningKey reference_crypto := "worker".
Definition identity : NodeIdentityV1.t :=
  NodeIdentityV1.mk NodeIdentityV1.SCHEMA 7 8 "worker" DeviceKind.Desktop "linux"
    (hex_encode (verifying_key worker_key)) 0 0.
Definition state : AppState.t :=
  AppState.set_nodes {[7 := identity]}
    (installed (Governor.from_signing_key GovernorConfig.default owner_key) (CasStore.open_with_limits None)).
Definition env : Env :=
  mkEnv (λ _, seconds 1) (λ n, Z.of_nat n + 1) false false "controller" [] [] (λ _, Proceeds) (λ _ _ _, None) (λ _ _, "").

Definition lease : ModelSessionLeaseV1.t :=
  ModelSessionLeaseV1.mk ModelSessionLeaseV1.SCHEMA 3 4 7 "controller" "tiny" "sha256:tiny"
    ModelBackend.LocalOllama "sha256:ollama" ModelParallelism.WholeModel 1024 64 0 (minutes 5) "nonce" 1 "".
Definition request : ModelInvocationRequestV1.t :=
  ModelInvocationRequestV1.mk ModelInvocationRequestV1.SCHEMA 9 lease
    [ModelChatMessageV1.mk "user" "hello"] 64 true None None.
(* two deltas in one piece of the body, the last one cut in the middle of its line *)
Definition line (text : string) (finished : bool) : string :=
  encode_json (OllamaChatChunk.mk (Some "tiny") (Some text) finished None (Some 5) (Some 2) None)
  +:+ String "010" "".
Definition body : list (option string) :=
  let last := line "world" true in
  [Some (line "hello " false +:+ (split_at 100 last).1); Some (split_at 100 last).2].
Definition worker : ModelEnv := mkModel 0 0 (seconds 1) (seconds 2) 11.
Definition outcome : result GatewayError OllamaCompletion.t * Run.t := execution request body (Run.mk "" "" 0).
Definition answer : result GatewayError () * string :=
  run_ollama_invocation (λ _, "failed") worker request worker_key (Some (mkHttp 200 body)).
Definition invocation : ActiveModelInvocation.t := ActiveModelInvocation.mk 9 lease (mkModelStream answer.2 9).
Definition completion : OllamaCompletion.t := OllamaCompletion.mk "stop" (Some (ModelUsageV1.mk 5 2)).

Lemma outcome_ok : outcome.1 = Ok completion ∧ Run.output outcome.2 = "hello world".
Proof. vm_compute. done. Qed.
Lemma answer_ok : answer.1 = Ok ().
Proof. vm_compute. done. Qed.
Lemma undisturbed n : awaited env n = Proceeds ∧ clock env n ≤ ModelSessionLeaseV1.expires_at (ActiveModelInvocation.lease invocation).
Proof. split; [done|]. vm_compute. discriminate. Qed.

Lemma model_session_delivers_witness :
  ∃ events c', consume_model_invocation invocation (Some ModelStreamFormat.OpenAi) env (0%nat, state)
    = (Ok (Ok (ModelGatewayCompletion.mk "hello world" "stop" (Some (ModelUsageV1.mk 5 2))), events), c').
Proof.
  destruct (model_session_delivers invocation (Some ModelStreamFormat.OpenAi) env undisturbed (λ _, "failed") worker
              request worker_key body completion outcome.2 answer.2 identity (0%nat, state))
    as (pieces & now & l & event & n & _ & _ & _ & H).
  - reflexivity.
  - reflexivity.
  - rewrite <-(proj1 outcome_ok). exact (surjective_pairing outcome).
  - rewrite <-answer_ok. exact (surjective_pairing answer).
  - reflexivity.
  - vm_compute. discriminate.
  - vm_compute. discriminate.
  - reflexivity.
  - reflexivity.
  - split; reflexivity.
  - reflexivity.
  - rewrite (proj2 outcome_ok) in H. eexists _, _. exact H.
Defined.

Definition consumed := consume_model_invocation invocation (Some ModelStreamFormat.OpenAi) env (0%nat, state).
Definition received : ModelGatewayCompletion.t := ModelGatewayCompletion.mk "hello world" "stop" (Some (ModelUsageV1.mk 5 2)).
Definition sent : list string := streamed invocation (Some ModelStreamFormat.OpenAi) ["hello "; "world"].
Lemma consumed_ok : consumed.1 = Ok (Ok received, sent).
Proof. vm_compute. reflexivity. Qed.

Lemma completion_is_receipted_witness :
  ∃ receipt, ModelExecutionReceiptV1.output_digest receipt = CasStore.sha256_digest "hello world" ∧
    ModelExecutionReceiptV1.state receipt = JobState.Succeeded.
Proof.
  destruct (completion_is_receipted invocation (Some ModelStreamFormat.OpenAi) env (0%nat, state) received sent consumed.2)
    as (pieces & receipt & now & l & event & Hp & _ & Hv & Hs & _).
  - rewrite <-consumed_ok. exact (surjective_pairing consumed).
  - exists receipt. cbn [received ModelGatewayCompletion.content] in Hp. rewrite <-Hp in Hv.
    split; [apply Hv|exact Hs].
Defined.
End ModelGatewayWitness.
