(* ===== verification/Admission.v ===== *)
(** * Admission, claims and receipts (crates/rampage-controller/src/main.rs)

    The handlers that hand out execution authority: [submit_job] and [submit_shard_set]
    place work, stage its inputs and issue leases, [claim_work] gives a lease to its node,
    [submit_receipt] closes it; and the checks in front of them for requests that arrive
    over the mesh. *)

From S2P Require Import Prelude.
From S2P Require Import Codec.
From S2P Require Import Text.
From S2P Require Import Contracts.
From S2P Require Import Wire.
From S2P Require Import Signing.
From S2P Require Import Governor.
From S2P Require Import Scheduler.
From S2P Require Import ModelPlanner.
From S2P Require Import Storage.
From S2P Require Import Ledger.
From S2P Require Import Mesh.
From S2P Require Import ControllerState.
From S2P Require Import Controller.
Import Text Controller.
#[local] Open Scope Z_scope.

(** The body of an admission response; a replay carries no placements. *)
Module ShardSetAdmission.
Record t := mk {
  set_id : Uuid; minimum_successes : Z; leases : list CapabilityLeaseV1.t;
  placements : option (list ShardPlacement.t); idempotent_replay : bool
}.
End ShardSetAdmission.

Module Admission.
Section handlers.
Context {codec : Codec} {crypto : Crypto} {ser : Serializer} {vault : Vault} {render : Render}
        {order : HashOrder} {wire : ContractWire} {iroh : Iroh}.

(** The handlers that wait for the admission gate look at the latch before they wait. *)
Definition reject_if_stopped_on_arrival : M () :=
  stopped ← ask latch_on_arrival;
  reject_if stopped 423 "owner kill latch is active".

(** [reservation_book.retain(|r| r.expires_at > Utc::now())], a reading per entry. *)
Fixpoint retain_unexpired (book : list ResourceReservation.t) : M (list ResourceReservation.t) :=
  match book with
  | [] => mret []
  | r :: book =>
      t ← now;
      rest ← retain_unexpired book;
      mret (if t <? ResourceReservation.expires_at r then r :: rest else rest)
  end.

(** What a lease books on its node. *)
Definition booked (job : JobSpecV1.t) (node_id : Uuid) (expires_at : DateTime)
    : list ResourceReservation.t :=
  (λ request, ResourceReservation.mk (JobSpecV1.job_id job) node_id (ResourceRequestV1.class request)
                (ResourceRequestV1.minimum request) expires_at) <$> JobSpecV1.requests job.

(** [governor.authorize_job_at_epoch(job, offer, node, epoch)], which reads the clock and
    draws a lease id and a nonce. *)
Definition authorize (status : Z) (job : JobSpecV1.t) (offer : ResourceOfferV1.t) (node_id : Uuid)
    : M CapabilityLeaseV1.t :=
  governor ← read AppState.governor;
  epoch ← read AppState.fencing_epoch;
  t ← now;
  lease_id ← fresh_uuid;
  nonce_id ← fresh_uuid;
  outcome ← unwrap (Governor.authorize_job_at_epoch governor job offer node_id epoch t lease_id nonce_id);
  denied status outcome.

(** [idempotency.insert] and [assignments.insert] of a new lease. *)
Definition assign (job : JobSpecV1.t) (lease : CapabilityLeaseV1.t) (s : AppState.t) : AppState.t :=
  AppState.set_assignments
    (<[JobSpecV1.job_id job := Assignment.mk job lease false]> (AppState.assignments s))
  (AppState.set_idempotency
    (<[JobSpecV1.idempotency_key job := JobSpecV1.job_id job]> (AppState.idempotency s)) s).

(** ** Jobs *)

(** The live assignment bound to the job's idempotency key. *)
Definition bound_assignment (job : JobSpecV1.t) (s : AppState.t) : option Assignment.t :=
  existing_job_id ← AppState.idempotency s !! JobSpecV1.idempotency_key job;
  AppState.assignments s !! existing_job_id.

(** The placement, the lease, the staging and the record of a job that is not a replay. *)
Definition admit_job (job : JobSpecV1.t) : M (Z * CapabilityLeaseV1.t) :=
  let subject := uuid_to_string (JobSpecV1.job_id job) in
  _ ← append "job.proposed" subject (to_value job);
  offers ← read placement_offers;
  reservations ← read AppState.reservations;
  t ← now;
  local_inputs_by_node ← read (λ s, input_locality s offers job);
  policy ← read AppState.admission_policy;
  match Scheduler.choose_offer_with_topology job offers reservations policy t local_inputs_by_node with
  | None =>
      _ ← append "job.blocked" subject (VObject [("reason", VString "no admissible offer")]);
      fail 409 (Failure.Message "no admissible offer")
  | Some (offer, score) =>
      lease ← authorize 403 job offer (ResourceOfferV1.node_id offer);
      _ ← stage_job_inputs offer job;
      _ ← append "lease.issued" subject
            (VObject [("lease", to_value lease); ("placement", to_value score)]);
      _ ← modify (assign job lease);
      book ← read AppState.reservations;
      kept ← retain_unexpired book;
      _ ← modify (AppState.set_reservations
                    (kept ++ booked job (CapabilityLeaseV1.node_id lease) (CapabilityLeaseV1.expires_at lease)));
      mret (202, lease)
  end.

Definition submit_job (job : JobSpecV1.t) : M (Z * CapabilityLeaseV1.t) :=
  _ ← reject_if_stopped_on_arrival;
  t ← now;
  _ ← lift 400 Failure.Invalid (JobSpecV1.validate_at job t);
  existing ← read (bound_assignment job);
  match existing with
  | Some existing =>
      _ ← reject_if (to_value (Assignment.job existing) != to_value job) 409
            "job idempotency key is already bound to other data";
      mret (200, Assignment.lease existing)
  | None => admit_job job
  end.

(** ** Shard sets *)

Definition planned_offer (offers : list ResourceOfferV1.t) (placement : ShardPlacement.t)
    : option ResourceOfferV1.t :=
  List.find (λ offer, ResourceOfferV1.node_id offer == ShardPlacement.node_id placement) offers.

Definition check_member (offers : list ResourceOfferV1.t) (p : JobSpecV1.t * ShardPlacement.t) : M () :=
  offer ← expect 409 "planned offer disappeared before admission" (planned_offer offers p.2);
  governor ← read AppState.governor;
  t ← now;
  denied 403 (Governor.check_job_at governor p.1 offer (ShardPlacement.node_id p.2) t).
Definition stage_member (offers : list ResourceOfferV1.t) (p : JobSpecV1.t * ShardPlacement.t) : M () :=
  offer ← unwrap (planned_offer offers p.2);
  stage_job_inputs offer p.1.
Definition authorize_member (offers : list ResourceOfferV1.t) (p : JobSpecV1.t * ShardPlacement.t)
    : M CapabilityLeaseV1.t :=
  offer ← unwrap (planned_offer offers p.2);
  authorize 409 p.1 offer (ShardPlacement.node_id p.2).

(** The loop that records every member at once. *)
Definition record_member (s : AppState.t) (p : JobSpecV1.t * CapabilityLeaseV1.t * ShardPlacement.t)
    : AppState.t :=
  let '(job, lease, placement) := p in
  let s := assign job lease s in
  AppState.set_reservations
    (AppState.reservations s
       ++ booked job (ShardPlacement.node_id placement) (CapabilityLeaseV1.expires_at lease)) s.
Definition record_set (t : DateTime) (set : ShardSetV1.t) (leases : list CapabilityLeaseV1.t)
    (placements : list ShardPlacement.t) (s : AppState.t) : AppState.t :=
  let s := AppState.set_reservations
             (List.filter (λ r, t <? ResourceReservation.expires_at r) (AppState.reservations s)) s in
  let s := foldl record_member s (zip (zip (ShardSetV1.shards set) leases) placements) in
  AppState.set_shard_sets
    (<[ShardSetV1.set_id set := ShardSetRecord.mk set leases]> (AppState.shard_sets s)) s.

(** The recorded set with this idempotency key. *)
Definition bound_set (set : ShardSetV1.t) (s : AppState.t) : option ShardSetRecord.t :=
  List.find (λ record, ShardSetV1.idempotency_key (ShardSetRecord.spec record)
                         == ShardSetV1.idempotency_key set) (values (AppState.shard_sets s)).
Definition key_bound_elsewhere (set : ShardSetV1.t) (s : AppState.t) : bool :=
  existsb (λ job, is_some_and (λ existing_job_id, existing_job_id != JobSpecV1.job_id job)
                    (AppState.idempotency s !! JobSpecV1.idempotency_key job)) (ShardSetV1.shards set).

Definition admit_set (t : DateTime) (set : ShardSetV1.t) : M (Z * ShardSetAdmission.t) :=
  elsewhere ← read (key_bound_elsewhere set);
  _ ← reject_if elsewhere 409 "a shard idempotency key is already bound to another job";
  offers ← read placement_offers;
  reservations ← read AppState.reservations;
  locality ← read (λ s, shard_input_locality s offers set);
  policy ← read AppState.admission_policy;
  placements ← lift 409 Failure.Blocked
                 (Scheduler.plan_shard_set set offers reservations policy t locality);
  let members := zip (ShardSetV1.shards set) placements in
  _ ← for_each (check_member offers) members;
  _ ← for_each (stage_member offers) members;
  leases ← collect (authorize_member offers) members;
  _ ← append "shard_set.admitted" (uuid_to_string (ShardSetV1.set_id set))
        (VObject [("leases", list_to_value leases);
                  ("placements", list_to_value placements);
                  ("set", to_value set)]);
  _ ← modify (record_set t set leases placements);
  mret (202, ShardSetAdmission.mk (ShardSetV1.set_id set) (ShardSetV1.minimum_successes set) leases
               (Some placements) false).

Definition submit_shard_set (set : ShardSetV1.t) : M (Z * ShardSetAdmission.t) :=
  _ ← reject_if_stopped_on_arrival;
  t ← now;
  _ ← lift 400 Failure.Invalid (ShardSetV1.validate_at set t);
  existing ← read (bound_set set);
  match existing with
  | Some existing =>
      let spec := ShardSetRecord.spec existing in
      _ ← reject_if (to_value spec != to_value set) 409
            "shard-set idempotency key is already bound to other data";
      mret (200, ShardSetAdmission.mk (ShardSetV1.set_id spec) (ShardSetV1.minimum_successes spec)
                   (ShardSetRecord.leases existing) None true)
  | None => admit_set t set
  end.

Definition plan_shard_set_request (set : ShardSetV1.t)
    : M (result ShardPlanningFailure.t (list ShardPlacement.t)) :=
  t ← now;
  _ ← lift 400 Failure.Invalid (ShardSetV1.validate_at set t);
  offers ← read placement_offers;
  reservations ← read AppState.reservations;
  locality ← read (λ s, shard_input_locality s offers set);
  policy ← read AppState.admission_policy;
  mret (Scheduler.plan_shard_set set offers reservations policy t locality).

(** ** Claims *)

Definition claimable (node_id : Uuid) (t : DateTime) (epoch : Z) (a : Assignment.t) : bool :=
  negb (Assignment.claimed a) && (CapabilityLeaseV1.node_id (Assignment.lease a) == node_id)
  && CapabilityLeaseV1.is_active_at (Assignment.lease a) t epoch.

Definition claim_work (node_id : Uuid) : M (option WorkClaimV1.t) :=
  _ ← try_gate "admission reconciliation is busy; retry claim";
  _ ← reject_if_stopped;
  nodes ← read AppState.nodes;
  _ ← reject_if (is_none (nodes !! node_id)) 401 "node is not enrolled";
  assignments ← read AppState.assignments;
  epoch ← read AppState.fencing_epoch;
  t ← now;
  match ModelPlanner.min_by_key (λ kv, CapabilityLeaseV1.issued_at (Assignment.lease kv.2))
          (List.filter (λ kv, claimable node_id t epoch kv.2) (hash_order (map_to_list assignments))) with
  | None => mret None
  | Some (key, a) =>
      _ ← modify (AppState.set_assignments (<[key := Assignment.claim a]> assignments));
      governor ← read AppState.governor;
      let claim := WorkClaimV1.mk WorkClaimV1.SCHEMA (Assignment.job a) (Assignment.lease a)
                     (Governor.public_key governor) in
      _ ← append "job.claimed" (uuid_to_string (JobSpecV1.job_id (Assignment.job a))) (to_value claim);
      mret (Some claim)
  end.

(** ** Receipts *)

Definition receipt_is_terminal (receipt : ExecutionReceiptV1.t) : bool :=
  (ExecutionReceiptV1.schema receipt == "rampage.execution-receipt.v1")
  && bool_decide (ExecutionReceiptV1.state receipt ∈ [JobState.Succeeded; JobState.Failed])
  && (ExecutionReceiptV1.started_at receipt <=? ExecutionReceiptV1.finished_at receipt).

Definition receipt_matches (receipt : ExecutionReceiptV1.t) (a : Assignment.t) (epoch : Z) : bool :=
  let lease := Assignment.lease a in
  (CapabilityLeaseV1.lease_id lease == ExecutionReceiptV1.lease_id receipt)
  && (CapabilityLeaseV1.node_id lease == ExecutionReceiptV1.node_id receipt)
  && Assignment.claimed a
  && (CapabilityLeaseV1.fencing_epoch lease =? epoch)
  && (CapabilityLeaseV1.issued_at lease <=? ExecutionReceiptV1.started_at receipt)
  && (ExecutionReceiptV1.started_at receipt <=? CapabilityLeaseV1.expires_at lease).

Definition valid_output (output : ArtifactRefV1.t) : bool :=
  (ArtifactRefV1.schema output == "rampage.artifact-ref.v1") && ArtifactRefV1.encrypted output
  && is_some_and (λ value, (len value =? 64) && all_bytes is_ascii_hexdigit value)
       (strip_prefix "sha256:" (ArtifactRefV1.digest output))
  && (ArtifactRefV1.size_bytes output <=? MAX_ARTIFACT_TRANSFER_BYTES).

(** [remove] of the assignment, of its idempotency key and of its reservations. *)
Definition release (job_id : Uuid) (a : Assignment.t) (s : AppState.t) : AppState.t :=
  AppState.set_reservations
    (List.filter (λ r, ResourceReservation.job_id r != job_id) (AppState.reservations s))
  (AppState.set_idempotency
    (delete (JobSpecV1.idempotency_key (Assignment.job a)) (AppState.idempotency s))
  (AppState.set_assignments (delete job_id (AppState.assignments s)) s)).

Definition record_output (receipt : ExecutionReceiptV1.t) (output : ArtifactRefV1.t) : M () :=
  let node_id := ExecutionReceiptV1.node_id receipt in
  _ ← modify (λ s, AppState.set_artifact_replicas
                     (<[(ArtifactRefV1.digest output, node_id) := output]> (AppState.artifact_replicas s)) s);
  append "artifact.output.recorded" (ArtifactRefV1.digest output)
    (VObject [("artifact", to_value output); ("job_id", uuid (ExecutionReceiptV1.job_id receipt));
              ("node_id", uuid node_id)]).

(** The receipt's id and state, and whether it had been recorded before. *)
Definition submit_receipt (receipt : ExecutionReceiptV1.t) : M (Z * (Uuid * JobState.t * bool)) :=
  let job_id := ExecutionReceiptV1.job_id receipt in
  let receipt_id := ExecutionReceiptV1.receipt_id receipt in
  _ ← reject_if (negb (receipt_is_terminal receipt)) 400 "invalid terminal execution receipt";
  nodes ← read AppState.nodes;
  identity ← expect 401 "node is not enrolled" (nodes !! ExecutionReceiptV1.node_id receipt);
  _ ← denied 401 (verify_receipt identity receipt);
  completed ← read AppState.completed_receipts;
  if completed !! receipt_id == Some job_id
  then mret (200, (receipt_id, ExecutionReceiptV1.state receipt, true))
  else
    _ ← try_gate "admission reconciliation is busy; retry receipt";
    _ ← reject_if_stopped;
    assignments ← read AppState.assignments;
    a ← expect 409 "receipt has no active assignment" (assignments !! job_id);
    epoch ← read AppState.fencing_epoch;
    _ ← reject_if (negb (receipt_matches receipt a epoch)) 409
          "receipt does not match the current claimed lease authority";
    _ ← reject_if (negb (forallb valid_output (ExecutionReceiptV1.outputs receipt))) 400
          "receipt contains an invalid output artifact";
    _ ← modify (release job_id a);
    _ ← append "job.receipted" (uuid_to_string job_id) (to_value receipt);
    _ ← modify (λ s, AppState.set_completed_receipts
                       (<[receipt_id := job_id]> (AppState.completed_receipts s)) s);
    _ ← for_each (record_output receipt) (ExecutionReceiptV1.outputs receipt);
    mret (202, (receipt_id, ExecutionReceiptV1.state receipt, false)).

(** [filter_map(|event| from_value(event.payload).ok())] over the receipts of a job. *)
Definition list_receipts (job_id : Uuid) : M (list ExecutionReceiptV1.t) :=
  ledger ← read AppState.ledger;
  events ← lift 500 Failure.LedgerFailed (Ledger.events_for_subject (uuid_to_string job_id) 100 ledger);
  mret (omap (λ e, from_value (Ledger.payload e))
          (List.filter (λ e, Ledger.event_type e == "job.receipted") events)).

(** ** Relay access and promotion *)

Definition relay_access_manifest : M RelayAccessManifestV1.t :=
  t ← now;
  nodes ← read AppState.nodes;
  endpoint_id ← ask mesh_endpoint_id;
  epoch ← read AppState.fencing_epoch;
  governor ← read AppState.governor;
  let allowed : gset string := {[endpoint_id]} ∪ list_to_set (NodeIdentityV1.public_key <$> (map_to_list nodes).*2) in
  unwrap (Governor.governor_sign_relay_access_manifest governor
            (RelayAccessManifestV1.mk RelayAccessManifestV1.SCHEMA "" epoch allowed t (t + minutes 10) "")).

(** One recorded event of the proposal: a conflict, a live lease to return, or nothing. *)
Definition recall_canary (candidate : PromotionCandidateV1.t) (event : Ledger.LedgerEvent)
    : M (option PromotionCanaryLeaseV1.t) :=
  if Ledger.event_type event == "promotion.candidate.proposed" then
    existing ← expect 500 "malformed candidate" (from_value (A := PromotionCandidateV1.t) (Ledger.payload event));
    _ ← reject_if ((PromotionCandidateV1.candidate_digest existing != PromotionCandidateV1.candidate_digest candidate)
                   || (PromotionCandidateV1.project_id existing != PromotionCandidateV1.project_id candidate)
                   || (PromotionCandidateV1.changed_paths existing != PromotionCandidateV1.changed_paths candidate))
          409 "proposal id is already bound to another candidate";
    mret None
  else if Ledger.event_type event == "promotion.canary.lease.issued" then
    existing ← expect 500 "malformed canary" (from_value (A := PromotionCanaryLeaseV1.t) (Ledger.payload event));
    _ ← reject_if ((PromotionCanaryLeaseV1.candidate_digest existing != PromotionCandidateV1.candidate_digest candidate)
                   || (PromotionCanaryLeaseV1.project_id existing != PromotionCandidateV1.project_id candidate))
          409 "proposal id is already bound to another canary";
    t ← now;
    epoch ← read AppState.fencing_epoch;
    mret (if PromotionCanaryLeaseV1.is_active_at existing t epoch then Some existing else None)
  else mret None.
(** The loop, which returns at the first live lease. *)
Fixpoint recall_canaries (candidate : PromotionCandidateV1.t) (events : list Ledger.LedgerEvent)
    : M (option PromotionCanaryLeaseV1.t) :=
  match events with
  | [] => mret None
  | event :: events =>
      found ← recall_canary candidate event;
      match found with
      | Some lease => mret (Some lease)
      | None => recall_canaries candidate events
      end
  end.

Definition canary_status (denial : Denial.t) : Z :=
  match denial with
  | Denial.InvalidPromotionEvidence | Denial.PromotionRiskMismatch => 400
  | Denial.KillLatch => 423
  | _ => 403
  end.

Definition authorize_promotion_canary (candidate : PromotionCandidateV1.t)
    : M (Z * PromotionCanaryLeaseV1.t) :=
  _ ← reject_if_stopped_on_arrival;
  let subject := uuid_to_string (PromotionCandidateV1.proposal_id candidate) in
  ledger ← read AppState.ledger;
  events ← lift 500 Failure.LedgerFailed (Ledger.events_for_subject subject 128 ledger);
  recalled ← recall_canaries candidate events;
  match recalled with
  | Some existing => mret (200, existing)
  | None =>
      governor ← read AppState.governor;
      epoch ← read AppState.fencing_epoch;
      t ← now;
      canary_id ← fresh_uuid;
      nonce_id ← fresh_uuid;
      match Governor.authorize_promotion_canary_at_epoch governor candidate epoch t canary_id nonce_id with
      | Err denial => fail (canary_status denial) (Failure.Denied denial)
      | Ok lease =>
          _ ← append "promotion.candidate.proposed" subject (to_value candidate);
          _ ← append "promotion.canary.lease.issued" subject (to_value lease);
          mret (201, lease)
      end
  end.

(** ** Requests that arrive over the mesh *)

Definition require_mesh_node (s : AppState.t) (peer : string) (node_id : Uuid) : result string () :=
  match AppState.nodes s !! node_id with
  | Some identity => if NodeIdentityV1.public_key identity == peer then Ok ()
                     else Err "remote worker is not enrolled for this node id"
  | None => Err "remote worker is not enrolled for this node id"
  end.

(** [from_value(request.body.clone().ok_or_else(..)?).map_err(..)?]. *)
Definition mesh_body {A} `{Wire A} (what : string) (request : MeshControlRequestV1.t) : result string A :=
  match MeshControlRequestV1.body request with
  | None => Err (what +:+ " body is missing")
  | Some v => match from_value v with
              | None => Err (what +:+ " body is invalid")
              | Some a => Ok a
              end
  end.

Definition CLAIM_PREFIX : string := "/v1/work/claim?node_id=".

Definition authorize_mesh_control (s : AppState.t) (peer : string) (request : MeshControlRequestV1.t)
    : result string () :=
  let path := MeshControlRequestV1.path request in
  let method := MeshControlRequestV1.method request in
  if contains ".." path || contains "%" path || contains "#" path then Err "mesh path is not canonical"
  else if (method == "GET") && (path == "/health") then Ok ()
  else if (method == "POST") && (path == "/v1/nodes/enroll") then
    enrollment ← mesh_body (A := EnrollmentRequestV1.t) "enrollment" request;
    if NodeIdentityV1.public_key (EnrollmentRequestV1.identity enrollment) == peer then Ok ()
    else Err "transport identity and enrollment identity differ"
  else if (method == "POST") && (path == "/v1/offers") then
    offer ← mesh_body (A := ResourceOfferV1.t) "offer" request;
    if is_none (ResourceOfferV1.mesh_endpoint offer)
    then Err "remote worker offer requires a signed mesh endpoint"
    else require_mesh_node s peer (ResourceOfferV1.node_id offer)
  else if (method == "POST") && (path == "/v1/receipts") then
    receipt ← mesh_body (A := ExecutionReceiptV1.t) "receipt" request;
    require_mesh_node s peer (ExecutionReceiptV1.node_id receipt)
  else if (method == "POST") && (path == "/v1/benchmarks/link") then
    probe ← mesh_body (A := LinkProbeRequest.t) "link probe" request;
    require_mesh_node s peer (LinkProbeRequest.node_id probe)
  else if (method == "GET") && starts_with CLAIM_PREFIX path then
    match strip_prefix CLAIM_PREFIX path ≫= uuid_parse with
    | Some node_id => require_mesh_node s peer node_id
    | None => Err "claim node id is invalid"
    end
  else Err "route is not exposed to remote workers".

End handlers.
End Admission.
