(* ===== verification/Reports.v ===== *)
(** * The controller's plans, dividends and the mesh front end (crates/rampage-controller/src/main.rs)

    The endpoints that answer from the state and the ledger (placement, break-even and model
    plans, the status of a shard set, benchmark dividends), and the control protocol that forwards a worker's request to the local interface. *)

From S2P Require Import Prelude.
From S2P Require Import Codec.
From S2P Require Import Text.
From S2P Require Import Contracts.
From S2P Require Import Wire.
From S2P Require Import Signing.
From S2P Require Import Governor.
From S2P Require Import Scheduler.
From S2P Require Import ModelPlanner.
From S2P Require Import Storage.
From S2P Require Import Ledger.
From S2P Require Import Float.
From S2P Require Import Economics.
From S2P Require Import Mesh.
From S2P Require Import ControllerState.
From S2P Require Import Controller.
From S2P Require Import Admission.
Import Text Controller Admission.
#[local] Open Scope Z_scope.

(** [Value::as_f64]. *)
Definition as_f64 (v : Value) : option F64.t :=
  match v with VInt n => Some (F64.of_Z n) | VFloat bits => Some (F64.from_bits bits) | _ => None end.

(** The text a worker signed for its benchmark against a node of the result. *)
Definition matches_signed (node : FabricBenchmarkNodeV1.t) (signed : Value) : bool :=
  let number key := field key signed ≫= as_u64 in
  (field_str "schema" signed == Some "rampage.cpu-benchmark-result.v1")
  && (number "lanes" == Some (FabricBenchmarkNodeV1.lanes node))
  && (number "total_hashes" == Some (FabricBenchmarkNodeV1.total_hashes node))
  && (number "hashes_per_second" == Some (FabricBenchmarkNodeV1.hashes_per_second node))
  && (field_str "result_digest" signed == Some (FabricBenchmarkNodeV1.result_digest node))
  && is_some_and (λ elapsed,
       SFleb (F64.abs (F64.sub elapsed (FabricBenchmarkNodeV1.elapsed_ms node)))
         (F64.mul (F64.mul (F64.max (F64.abs elapsed) (F64.of_Z 1)) F64.EPSILON) (F64.of_Z 8)))
       (field "elapsed_ms" signed ≫= as_f64).

(** [PartialEq] of benchmark results: numbers as floats compare. *)
Definition same_node (a b : FabricBenchmarkNodeV1.t) : bool :=
  (FabricBenchmarkNodeV1.job_id a == FabricBenchmarkNodeV1.job_id b)
  && (FabricBenchmarkNodeV1.node_id a == FabricBenchmarkNodeV1.node_id b)
  && (FabricBenchmarkNodeV1.name a == FabricBenchmarkNodeV1.name b)
  && (FabricBenchmarkNodeV1.receipt_id a == FabricBenchmarkNodeV1.receipt_id b)
  && (FabricBenchmarkNodeV1.lanes a =? FabricBenchmarkNodeV1.lanes b)
  && (FabricBenchmarkNodeV1.total_hashes a =? FabricBenchmarkNodeV1.total_hashes b)
  && SFeqb (FabricBenchmarkNodeV1.elapsed_ms a) (FabricBenchmarkNodeV1.elapsed_ms b)
  && (FabricBenchmarkNodeV1.hashes_per_second a =? FabricBenchmarkNodeV1.hashes_per_second b)
  && (FabricBenchmarkNodeV1.result_digest a == FabricBenchmarkNodeV1.result_digest b).
Fixpoint same_nodes (a b : list FabricBenchmarkNodeV1.t) : bool :=
  match a, b with
  | [], [] => true
  | x :: a, y :: b => same_node x y && same_nodes a b
  | _, _ => false
  end.
Definition same_result (a b : FabricBenchmarkResultV1.t) : bool :=
  (FabricBenchmarkResultV1.schema a == FabricBenchmarkResultV1.schema b)
  && (FabricBenchmarkResultV1.set_id a == FabricBenchmarkResultV1.set_id b)
  && (FabricBenchmarkResultV1.status a == FabricBenchmarkResultV1.status b)
  && same_nodes (FabricBenchmarkResultV1.nodes a) (FabricBenchmarkResultV1.nodes b)
  && (FabricBenchmarkResultV1.fabric_hashes_per_second a =? FabricBenchmarkResultV1.fabric_hashes_per_second b)
  && (FabricBenchmarkResultV1.fastest_node_hashes_per_second a
        =? FabricBenchmarkResultV1.fastest_node_hashes_per_second b)
  && SFeqb (FabricBenchmarkResultV1.effective_scale_over_fastest_node a)
       (FabricBenchmarkResultV1.effective_scale_over_fastest_node b)
  && SFeqb (FabricBenchmarkResultV1.verified_extra_capacity_percent a)
       (FabricBenchmarkResultV1.verified_extra_capacity_percent b)
  && SFeqb (FabricBenchmarkResultV1.estimated_time_saved_percent a)
       (FabricBenchmarkResultV1.estimated_time_saved_percent b)
  && SFeqb (FabricBenchmarkResultV1.time_returned_hours_per_100 a)
       (FabricBenchmarkResultV1.time_returned_hours_per_100 b)
  && (FabricBenchmarkResultV1.proof_basis a == FabricBenchmarkResultV1.proof_basis b)
  && (FabricBenchmarkResultV1.applicability a == FabricBenchmarkResultV1.applicability b)
  && (FabricBenchmarkResultV1.all_results_signed a == FabricBenchmarkResultV1.all_results_signed b).

Module Reports.
Section handlers.
Context {codec : Codec} {crypto : Crypto} {ser : Serializer} {vault : Vault} {render : Render}
        {order : HashOrder} {wire : ContractWire} {iroh : Iroh}.

Definition job_events (job_id : Uuid) : M (list Ledger.LedgerEvent) :=
  ledger ← read AppState.ledger;
  lift 500 Failure.LedgerFailed (Ledger.events_for_subject (uuid_to_string job_id) 100 ledger).
(** The receipts among a job's events that can be read. *)
Definition receipts_of (events : list Ledger.LedgerEvent) : list ExecutionReceiptV1.t :=
  omap (λ event, if Ledger.event_type event == "job.receipted"
                 then from_value (A := ExecutionReceiptV1.t) (Ledger.payload event) else None) events.
(** [lease_nodes]; a later lease of the same job replaces the earlier. *)
Definition lease_nodes (leases : list CapabilityLeaseV1.t) : gmap Uuid Uuid :=
  foldl (λ m lease, <[CapabilityLeaseV1.job_id lease := CapabilityLeaseV1.node_id lease]> m) ∅ leases.

(** ** Shard sets *)

Definition member_status (receipts : gmap Uuid ExecutionReceiptV1.t) (assignments : gmap Uuid Assignment.t)
    (job_id : Uuid) : string * option Value * option Uuid :=
  match receipts !! job_id with
  | Some receipt =>
      (match ExecutionReceiptV1.state receipt with
       | JobState.Succeeded => "succeeded" | JobState.Failed => "failed" | _ => "ambiguous" end,
       ExecutionReceiptV1.result receipt, Some (ExecutionReceiptV1.receipt_id receipt))
  | None =>
      match assignments !! job_id with
      | Some assignment => (if Assignment.claimed assignment then "running" else "admitted", None, None)
      | None => ("ambiguous", None, None)
      end
  end.
Definition count_state (receipts : gmap Uuid ExecutionReceiptV1.t) (shards : list JobSpecV1.t) (state : JobState.t) : Z :=
  zlen (List.filter (λ job, is_some_and (λ r, ExecutionReceiptV1.state r == state)
                              (receipts !! JobSpecV1.job_id job)) shards).
Definition optional {A} (f : A → Value) (o : option A) : Value :=
  match o with Some a => f a | None => VNull end.

(** [succeeded], [failed] and the rest of the counts of a set of [total] shards. *)
Definition set_summary (succeeded failed total minimum : Z) : string * Z * bool * bool :=
  let terminal := succeeded + failed in
  (if (terminal =? total) && (minimum <=? succeeded) then "succeeded"
   else if terminal =? total then "failed" else "running",
   terminal, minimum <=? succeeded, minimum <=? succeeded + (total - terminal)).

Definition shard_set_status (set_id : Uuid) : M Value :=
  sets ← read AppState.shard_sets;
  record ← expect 404 "shard set is absent" (sets !! set_id);
  let shards := ShardSetV1.shards (ShardSetRecord.spec record) in
  let minimum := ShardSetV1.minimum_successes (ShardSetRecord.spec record) in
  events ← collect job_events (merge_sort Z.le (elements (list_to_set (JobSpecV1.job_id <$> shards) : gset Uuid)));
  let receipts := foldl (λ m r, <[ExecutionReceiptV1.job_id r := r]> m) ∅ (concat (receipts_of <$> events)) in
  assignments ← read AppState.assignments;
  let succeeded := count_state receipts shards JobState.Succeeded in
  let failed := count_state receipts shards JobState.Failed in
  let '(status, terminal, met, possible) := set_summary succeeded failed (zlen shards) minimum in
  let member job :=
    let '(status, result, receipt_id) := member_status receipts assignments (JobSpecV1.job_id job) in
    VObject [("job_id", uuid (JobSpecV1.job_id job));
             ("node_id", optional uuid (lease_nodes (ShardSetRecord.leases record) !! JobSpecV1.job_id job));
             ("receipt_id", optional uuid receipt_id); ("result", optional id result); ("status", VString status)] in
  mret (VObject [("failed", VInt failed); ("members", VArray (member <$> shards));
                 ("minimum_successes", VInt minimum); ("schema", VString "rampage.shard-set-status.v1");
                 ("set_id", uuid set_id); ("status", VString status); ("succeeded", VInt succeeded);
                 ("terminal", VInt terminal); ("threshold_met", VBool met);
                 ("threshold_still_possible", VBool possible); ("total", VInt (zlen shards))]).

(** ** Plans *)

Definition plan_job (job : JobSpecV1.t) : M Value :=
  t0 ← now;
  _ ← lift 400 Failure.Invalid (JobSpecV1.validate_at job t0);
  offers ← read placement_offers;
  reservations ← read AppState.reservations;
  t ← now;
  locality ← read (λ s, input_locality s offers job);
  policy ← read AppState.admission_policy;
  let score offer :=
    Scheduler.score_offer_with_topology job offer reservations policy t
      (default ∅ (locality !! ResourceOfferV1.node_id offer)) in
  let selected := Scheduler.choose_offer_with_topology job offers reservations policy t locality in
  mret (VObject [("job_id", uuid (JobSpecV1.job_id job)); ("mutated", VBool false);
                 ("schema", VString "rampage.placement-plan.v1");
                 ("scores", VArray (to_value ∘ score <$> offers));
                 ("selected_node", optional uuid ((λ choice, ResourceOfferV1.node_id choice.1) <$> selected))]).

Definition plan_break_even_request (request : BreakEvenRequestV1.t) : M BreakEvenPlanV1.t :=
  _ ← reject_if (negb (BreakEvenRequestV1.is_valid request)) 400 "invalid bounded break-even request";
  ledger ← read AppState.ledger;
  latest_event ← lift 500 Failure.LedgerFailed (Ledger.latest_event_of_type "fabric.dividend.recorded" ledger);
  dividend ← match latest_event with
             | None => mret None
             | Some event =>
                 result ← expect 500 "" (from_value (A := FabricBenchmarkResultV1.t) (Ledger.payload event));
                 mret (Some (result, Ledger.recorded_at event))
             end;
  offers ← read placement_offers;
  t ← now;
  mret (plan_break_even request dividend offers t).

Definition plan_model_session_request (request : ModelSessionRequestV1.t) : M ModelSessionPlan.t :=
  t ← now;
  _ ← lift 400 Failure.Invalid (ModelSessionRequestV1.validate_at request t);
  offers ← read placement_offers;
  unwrap (ModelPlanner.plan_model_session request offers t).

Definition network_autopilot : M NetworkAutopilotStatusV1.t :=
  offers ← read placement_offers;
  t ← now;
  mret (network_autopilot_status offers t).

(** ** Dividends *)

(** A node of the result against the admitted lease, the completed receipt and what the
    worker signed. *)
Definition validate_node (jobs : gset Uuid) (nodes : gmap Uuid Uuid) (node : FabricBenchmarkNodeV1.t) : M () :=
  let job_id := FabricBenchmarkNodeV1.job_id node in
  completed ← read AppState.completed_receipts;
  _ ← reject_if (negb (bool_decide (job_id ∈ jobs))
                 || (nodes !! job_id != Some (FabricBenchmarkNodeV1.node_id node))
                 || (completed !! FabricBenchmarkNodeV1.receipt_id node != Some job_id)) 409
        "benchmark node does not match its admitted lease and receipt";
  events ← job_events job_id;
  receipt ← expect 409 "signed benchmark receipt is absent from the ledger"
              (List.find (λ r, ExecutionReceiptV1.receipt_id r == FabricBenchmarkNodeV1.receipt_id node)
                 (receipts_of events));
  let signed := text ← (result ← ExecutionReceiptV1.result receipt; as_str result); json_from_str text in
  reject_if (negb ((ExecutionReceiptV1.state receipt == JobState.Succeeded)
                   && (ExecutionReceiptV1.job_id receipt == job_id)
                   && (ExecutionReceiptV1.node_id receipt == FabricBenchmarkNodeV1.node_id node)
                   && is_some_and (matches_signed node) signed)) 409
    "dividend values do not match the signed benchmark receipt".

Definition covers_set (set : ShardSetV1.t) (result : FabricBenchmarkResultV1.t) : bool :=
  (zlen (ShardSetV1.shards set) =? zlen (FabricBenchmarkResultV1.nodes result))
  && (ShardSetV1.minimum_successes set =? zlen (ShardSetV1.shards set))
  && forallb (λ job, (JobSpecV1.adapter job == "rampage.benchmark.v1") && (JobSpecV1.operation job == "sha256_chain"))
       (ShardSetV1.shards set).

Definition validate_dividend_evidence (result : FabricBenchmarkResultV1.t) : M () :=
  sets ← read AppState.shard_sets;
  set ← expect 409 "benchmark set is not present in controller evidence"
          (sets !! FabricBenchmarkResultV1.set_id result);
  _ ← reject_if (negb (covers_set (ShardSetRecord.spec set) result)) 409
        "benchmark result does not cover its exact all-or-nothing shard set";
  for_each (validate_node (list_to_set (JobSpecV1.job_id <$> ShardSetV1.shards (ShardSetRecord.spec set)))
              (lease_nodes (ShardSetRecord.leases set)))
    (FabricBenchmarkResultV1.nodes result).

(** The first dividend recorded for the set decides. *)
Definition record_dividend (result : FabricBenchmarkResultV1.t) : M (Z * FabricBenchmarkResultV1.t) :=
  _ ← reject_if (negb (FabricBenchmarkResultV1.is_internally_consistent result)) 400
        "fabric benchmark result is internally inconsistent";
  let subject := uuid_to_string (FabricBenchmarkResultV1.set_id result) in
  ledger ← read AppState.ledger;
  events ← lift 500 Failure.LedgerFailed (Ledger.events_for_subject subject 100 ledger);
  match List.find (λ event, Ledger.event_type event == "fabric.dividend.recorded") events with
  | Some event =>
      existing ← expect 500 "" (from_value (A := FabricBenchmarkResultV1.t) (Ledger.payload event));
      if same_result existing result then mret (200, existing)
      else fail 409 (Failure.Message "benchmark set already has a different dividend record")
  | None =>
      _ ← validate_dividend_evidence result;
      _ ← append "fabric.dividend.recorded" subject (to_value result);
      mret (202, result)
  end.

Definition scale (result : FabricBenchmarkResultV1.t) : F64.t :=
  FabricBenchmarkResultV1.effective_scale_over_fastest_node result.
(** The change of the effective scale against the record before. *)
Definition scale_change (previous current : F64.t) : F64.t :=
  F64.mul (F64.div (F64.sub current previous) (F64.max previous F64.EPSILON)) (F64.of_Z 100).
Fixpoint dividend_records (previous : option F64.t) (events : list Ledger.LedgerEvent)
    : M (list FabricDividendRecordV1.t) :=
  match events with
  | [] => mret []
  | event :: events =>
      result ← expect 500 "" (from_value (A := FabricBenchmarkResultV1.t) (Ledger.payload event));
      _ ← reject_if (negb (FabricBenchmarkResultV1.is_internally_consistent result)) 500
            "ledger dividend failed contract validation";
      rest ← dividend_records (Some (scale result)) events;
      mret (FabricDividendRecordV1.mk FabricDividendRecordV1.SCHEMA (Ledger.sequence event)
              (Ledger.recorded_at event) result previous
              ((λ previous, scale_change previous (scale result)) <$> previous) :: rest)
  end.
Definition list_dividends (limit : option Z) : M (list FabricDividendRecordV1.t) :=
  ledger ← read AppState.ledger;
  events ← lift 500 Failure.LedgerFailed
             (Ledger.latest_events_of_type "fabric.dividend.recorded" (Z.max 1 (Z.min (default 24 limit) 250)) ledger);
  dividend_records None events.

(** ** Control requests from workers *)

Definition mesh_error_response (request_id : Uuid) (status : Z) (message : string) : MeshControlResponseV1.t :=
  MeshControlResponseV1.mk MeshControlResponseV1.SCHEMA request_id status (VObject [("error", VString message)]).

(** [append_bounded_bytes] over the pieces of the local response. *)
Fixpoint append_bounded_bytes (buffer : string) (pieces : list (option string)) : option string :=
  match pieces with
  | [] => Some buffer
  | None :: _ => None
  | Some piece :: pieces =>
      if sat_add (len buffer) (len piece) <=? 1024 * 1024
      then append_bounded_bytes (buffer +:+ piece) pieces else None
  end.
(** The local interface: a status, the announced length and the pieces of the body. *)
Record LocalResponse := mkLocal { local_status : Z; content_length : option Z; pieces : list (option string) }.
Definition bounded_mesh_controller_response (response : LocalResponse) : option string :=
  if 1024 * 1024 <? default 0 (content_length response) then None
  else append_bounded_bytes "" (pieces response).

(** [local] is the controller's own interface, which answers a method, a path and a body. *)
Definition process_mesh_control
    (local : string → string → option Value → M (option LocalResponse)) (peer : string)
    (request : MeshControlRequestV1.t) : M MeshControlResponseV1.t :=
  let request_id := MeshControlRequestV1.request_id request in
  let method := MeshControlRequestV1.method request in
  if MeshControlRequestV1.schema request != MeshControlRequestV1.SCHEMA
  then mret (mesh_error_response request_id 400 "unsupported mesh control schema")
  else
    authorized ← read (λ s, authorize_mesh_control s peer request);
    match authorized with
    | Err reason =>
        _ ← attempt (append "mesh.request.denied" peer
                (VObject [("method", VString method); ("path", VString (MeshControlRequestV1.path request));
                          ("reason", VString reason)]));
        mret (mesh_error_response request_id 403 reason)
    | Ok _ =>
        if negb (bool_decide (method ∈ ["GET"; "POST"]))
        then mret (mesh_error_response request_id 405 "mesh method is not allowlisted")
        else
          response ← local method (MeshControlRequestV1.path request) (MeshControlRequestV1.body request);
          mret match response with
               | None => mesh_error_response request_id 502 "local controller unavailable"
               | Some response =>
                   match bounded_mesh_controller_response response with
                   | Some bytes =>
                       MeshControlResponseV1.mk MeshControlResponseV1.SCHEMA request_id (local_status response)
                         (default (VObject [("error", VString "controller returned non-JSON")]) (json_from_str bytes))
                   | None => mesh_error_response request_id 502 "controller response exceeded one MiB"
                   end
               end
    end.

(** One stream of a worker's connection. *)
Definition serve_mesh_control (local : string → string → option Value → M (option LocalResponse)) (peer : string)
    (received : string) : M string :=
  response ←
    (if 1024 * 1024 <? len received
     then mret (mesh_error_response nil_uuid 413 "mesh control request exceeds one MiB")
     else match decode_json (A := MeshControlRequestV1.t) received with
          | Ok request => process_mesh_control local peer request
          | Err _ => mret (mesh_error_response nil_uuid 400 "invalid mesh control request")
          end);
  mret (encode_json response).

(** ** What the state shows *)

Definition list_nodes : M (list NodeIdentityV1.t) := read (λ s, values (AppState.nodes s)).
(** The version of the build, the mode of the mesh and the sockets it is bound to are given. *)
Definition health (version mesh_mode : string) (mesh_sockets : list string) : M Value :=
  killed ← read AppState.kill_latch;
  endpoint_id ← ask mesh_endpoint_id;
  epoch ← read AppState.fencing_epoch;
  generated_at ← now;
  mret (VObject [("service", VString "rampage-controller"); ("version", VString version);
                 ("status", VString (if killed : bool then "stopped" else "ready")); ("authority", VString "non-agentic-governor");
                 ("kill_latch", VBool killed); ("mesh_mode", VString mesh_mode); ("mesh_endpoint_id", VString endpoint_id);
                 ("mesh_sockets", VArray (VString <$> mesh_sockets)); ("fencing_epoch", VInt epoch);
                 ("generated_at", VString (datetime_to_json generated_at))]).
Definition governor_key : M Value :=
  key ← read (λ s, Governor.signing_key (AppState.governor s));
  mret (VObject [("schema", VString "rampage.governor-key.v1"); ("public_key", VString (hex_encode (verifying_key key)))]).
(** One line of the inventory; the capabilities as the offer serializes them. *)
Definition capability_entry (offer : ResourceOfferV1.t) : Value :=
  VObject [("node_id", VString (uuid_to_string (ResourceOfferV1.node_id offer)));
           ("offer_id", VString (uuid_to_string (ResourceOfferV1.offer_id offer)));
           ("observed_at", VString (datetime_to_json (ResourceOfferV1.observed_at offer)));
           ("expires_at", VString (datetime_to_json (ResourceOfferV1.expires_at offer)));
           ("signed_offer", VBool (negb (is_empty (ResourceOfferV1.signature offer))));
           ("capabilities", default VNull (field "workload_capabilities" (to_value offer)))].
Definition node_id_le (a b : ResourceOfferV1.t) : Prop :=
  String.le (uuid_to_string (ResourceOfferV1.node_id a)) (uuid_to_string (ResourceOfferV1.node_id b)).
#[export] Instance node_id_le_dec a b : Decision (node_id_le a b) := _.
Definition list_workload_capabilities : M Value :=
  t ← now;
  offers ← read (λ s, List.filter (λ offer, t <? ResourceOfferV1.expires_at offer) (values (AppState.offers s)));
  mret (VObject [("schema", VString "rampage.workload-capability-inventory.v1");
                 ("authority", VString "exact_adapter_operation_from_verified_signed_offer"); ("candidate_authority", VBool false);
                 ("nodes", VArray (capability_entry <$> merge_sort node_id_le offers))]).
End handlers.
End Reports.
