(* ===== verification/Restore.v ===== *)
(** * Restart (crates/rampage-controller/src/main.rs, [main] and [restore_state])

    A restarted controller keeps its ledger, its keys, its store and the files of the kill
    latch; everything else is rebuilt from the ledger: per event class a paged query, one
    sort by sequence number, and a fold that replays each event.  [startup] composes the
    verification of the chain, the fencing epoch, the replay and the fresh [AppState]. *)

From S2P Require Import Prelude.
From S2P Require Import Codec.
From S2P Require Import Text.
From S2P Require Import Contracts.
From S2P Require Import Wire.
From S2P Require Import Signing.
From S2P Require Import Governor.
From S2P Require Import Scheduler.
From S2P Require Import Storage.
From S2P Require Import Ledger.
From S2P Require Import Mesh.
From S2P Require Import ControllerState.
From S2P Require Import Controller.
From S2P Require Import Admission.
From stdpp Require Import pretty.
Import Text Controller.
#[local] Open Scope Z_scope.

Module LedgerCheckpoint.
Record t := mk { schema : string; sequence : Z; event_hash : string; signature : string }.
End LedgerCheckpoint.

(** The maps [restore_state] builds; [proposed_jobs] is local to it. *)
Module Restored.
Record t := mk {
  nodes : gmap Uuid NodeIdentityV1.t;
  invites : gmap Uuid InviteRecord.t;
  proposed_jobs : gmap Uuid JobSpecV1.t;
  assignments : gmap Uuid Assignment.t;
  completed_receipts : gmap Uuid Uuid;
  shard_sets : gmap Uuid ShardSetRecord.t;
  artifact_replicas : gmap (string * Uuid) ArtifactRefV1.t;
  replica_evidence : gmap (string * Uuid) ArtifactReplicaReceiptV1.t
}.
Definition init : t := mk ∅ ∅ ∅ ∅ ∅ ∅ ∅ ∅.
Definition set_nodes x (r : t) : t :=
  mk x (invites r) (proposed_jobs r) (assignments r) (completed_receipts r) (shard_sets r)
    (artifact_replicas r) (replica_evidence r).
Definition set_invites x (r : t) : t :=
  mk (nodes r) x (proposed_jobs r) (assignments r) (completed_receipts r) (shard_sets r)
    (artifact_replicas r) (replica_evidence r).
Definition set_proposed_jobs x (r : t) : t :=
  mk (nodes r) (invites r) x (assignments r) (completed_receipts r) (shard_sets r)
    (artifact_replicas r) (replica_evidence r).
Definition set_assignments x (r : t) : t :=
  mk (nodes r) (invites r) (proposed_jobs r) x (completed_receipts r) (shard_sets r)
    (artifact_replicas r) (replica_evidence r).
Definition set_completed_receipts x (r : t) : t :=
  mk (nodes r) (invites r) (proposed_jobs r) (assignments r) x (shard_sets r)
    (artifact_replicas r) (replica_evidence r).
Definition set_shard_sets x (r : t) : t :=
  mk (nodes r) (invites r) (proposed_jobs r) (assignments r) (completed_receipts r) x
    (artifact_replicas r) (replica_evidence r).
Definition set_artifact_replicas x (r : t) : t :=
  mk (nodes r) (invites r) (proposed_jobs r) (assignments r) (completed_receipts r) (shard_sets r)
    x (replica_evidence r).
Definition set_replica_evidence x (r : t) : t :=
  mk (nodes r) (invites r) (proposed_jobs r) (assignments r) (completed_receipts r) (shard_sets r)
    (artifact_replicas r) x.
End Restored.

(** An [anyhow::Error] of the restart: the ledger's, or a value that does not parse. *)
Inductive RestoreError := LedgerError (e : Ledger.LedgerError) | Malformed.

Module Restore.
(** What a start meets in its environment and its data directory: whether the directory, the
    Governor's key and the ledger can be opened, the checkpoint file, whether the address it is
    to listen at parses and is a loopback address, the Governor's configuration if it is
    readable, whether the token file is, what the mesh reports once its configuration, port and
    key are read and it is bound and its port written, if all of this succeeds, and whether the
    store of artifacts and its key can be opened. *)
Module Surroundings.
Record t := mk {
  opened : bool;
  checkpoint : option string;
  loopback : bool;
  config : option GovernorConfig.t;
  token : bool;
  mesh : option Value;
  store : bool
}.
End Surroundings.

Section restore.
Context {codec : Codec} {crypto : Crypto} {ser : Serializer} {vault : Vault} {render : Render}
        {order : HashOrder} {wire : ContractWire} {iroh : Iroh}.

(** ** The events of the replay *)

Definition RESTORE_TYPES : list string :=
  ["node.enrolled"; "node.revoked"; "enrollment.invite.created"; "enrollment.invite.consumed";
   "job.proposed"; "lease.issued"; "shard_set.admitted"; "job.claimed"; "job.receipted";
   "artifact.replicated"; "artifact.input.staged"; "artifact.output.recorded";
   "artifact.replica.verified"; "artifact.repaired"; "artifact.replica.invalidated"].

(** The [loop] that reads one class in pages of 10,000; [None] is fuel exhausted. *)
Fixpoint read_class (fuel : nat) (ty : string) (after_sequence : Z) (l : Ledger.t)
    : option (result Ledger.LedgerError (list Ledger.LedgerEvent)) :=
  match fuel with
  | O => None
  | S fuel =>
      match Ledger.events_of_type ty after_sequence 10000 l with
      | Err e => Some (Err e)
      | Ok page =>
          match last page with
          | None => Some (Ok [])
          | Some e =>
              match read_class fuel ty (Ledger.sequence e) l with
              | Some (Ok rest) => Some (Ok (page ++ rest))
              | r => r
              end
          end
      end
  end.
(** The [for event_type in [...]]. *)
Fixpoint read_classes (types : list string) (l : Ledger.t)
    : option (result Ledger.LedgerError (list Ledger.LedgerEvent)) :=
  match types with
  | [] => Some (Ok [])
  | ty :: types =>
      match read_class (S (length (Ledger.ledger_events l))) ty 0 l with
      | Some (Ok events) =>
          match read_classes types l with
          | Some (Ok rest) => Some (Ok (events ++ rest))
          | r => r
          end
      | r => r
      end
  end.

Definition sequence_le (a b : Ledger.LedgerEvent) : Prop := Ledger.sequence a ≤ Ledger.sequence b.
#[global] Instance sequence_le_dec : RelDecision sequence_le.
Proof. intros a b. unfold sequence_le. apply _. Defined.

(** ** One event *)

Definition of_option {A} (o : option A) : result RestoreError A :=
  match o with Some a => Ok a | None => Err Malformed end.

(** [payload.get(key).and_then(Value::as_str).and_then(|v| Uuid::parse_str(v).ok())]. *)
Definition uuid_field (key : string) (v : Value) : option Uuid := 
  f ← field key v; text ← as_str f; uuid_parse text.

Definition restore_revoked (node_id : Uuid) (r : Restored.t) : Restored.t :=
  Restored.set_replica_evidence (filter (λ kv, kv.1.2 ≠ node_id) (Restored.replica_evidence r))
  (Restored.set_artifact_replicas (filter (λ kv, kv.1.2 ≠ node_id) (Restored.artifact_replicas r))
  (Restored.set_shard_sets
    (filter (λ kv, Forall (λ lease, CapabilityLeaseV1.node_id lease ≠ node_id)
                     (ShardSetRecord.leases kv.2)) (Restored.shard_sets r))
  (Restored.set_assignments
    (filter (λ kv, CapabilityLeaseV1.node_id (Assignment.lease kv.2) ≠ node_id) (Restored.assignments r))
  (Restored.set_nodes (delete node_id (Restored.nodes r)) r)))).

Definition restore_invite (t : DateTime) (event : Ledger.LedgerEvent) (r : Restored.t)
    : result RestoreError Restored.t :=
  match field "secret_hash" (Ledger.payload event) ≫= as_str, field "expires_at" (Ledger.payload event) ≫= as_str with
  | Some secret_hash, Some text =>
      expires_at ← of_option (parse_rfc3339 text);
      invite_id ← of_option (uuid_parse (Ledger.subject_id event));
      Ok (if t <? expires_at
          then Restored.set_invites
                 (<[invite_id := InviteRecord.mk secret_hash expires_at]> (Restored.invites r)) r
          else r)
  | _, _ => Ok r
  end.

(** An unexpired lease of the current epoch whose job is known becomes an assignment. *)
Definition restore_lease (t : DateTime) (epoch : Z) (jobs : gmap Uuid JobSpecV1.t)
    (assignments : gmap Uuid Assignment.t) (lease : CapabilityLeaseV1.t) : gmap Uuid Assignment.t :=
  if (t <? CapabilityLeaseV1.expires_at lease) && (CapabilityLeaseV1.fencing_epoch lease =? epoch)
  then match jobs !! CapabilityLeaseV1.job_id lease with
       | Some job => <[CapabilityLeaseV1.job_id lease := Assignment.mk job lease false]> assignments
       | None => assignments
       end
  else assignments.

Definition restore_set (t : DateTime) (epoch : Z) (payload : Value) (r : Restored.t)
    : result RestoreError Restored.t :=
  match field "set" payload, field "leases" payload with
  | Some set_value, Some leases_value =>
      set ← of_option (from_value (A := ShardSetV1.t) set_value);
      leases ← of_option (list_from_value (A := CapabilityLeaseV1.t) leases_value);
      let jobs := foldl (λ m job, <[JobSpecV1.job_id job := job]> m) ∅ (ShardSetV1.shards set) in
      Ok (Restored.set_shard_sets
            (<[ShardSetV1.set_id set := ShardSetRecord.mk set leases]> (Restored.shard_sets r))
          (Restored.set_assignments
            (foldl (restore_lease t epoch jobs) (Restored.assignments r) leases) r))
  | _, _ => Ok r
  end.

(** The evidence kept with a replica; [verified_at] is the clock when it is checked. *)
Definition replica_receipt_of (verified_at : DateTime) (node_id : Uuid) (artifact : ArtifactRefV1.t)
    (payload : Value) (r : Restored.t) : option ArtifactReplicaReceiptV1.t :=
  receipt ← field "replica_receipt" payload ≫= from_value (A := ArtifactReplicaReceiptV1.t);
  if (ArtifactReplicaReceiptV1.node_id receipt == node_id)
     && (ArtifactReplicaReceiptV1.digest receipt == ArtifactRefV1.digest artifact)
     && (ArtifactReplicaReceiptV1.size_bytes receipt =? ArtifactRefV1.size_bytes artifact)
     && is_some_and (λ identity, is_ok (verify_artifact_replica_receipt verified_at identity receipt))
          (Restored.nodes r !! node_id)
  then Some receipt else None.

Definition restore_replica (verified_at : DateTime) (payload : Value) (r : Restored.t)
    : result RestoreError Restored.t :=
  match uuid_field "node_id" payload, field "artifact" payload with
  | Some node_id, Some artifact_value =>
      artifact ← of_option (from_value (A := ArtifactRefV1.t) artifact_value);
      let key := (ArtifactRefV1.digest artifact, node_id) in
      let r := Restored.set_artifact_replicas (<[key := artifact]> (Restored.artifact_replicas r)) r in
      Ok (match replica_receipt_of verified_at node_id artifact payload r with
          | Some receipt => Restored.set_replica_evidence (<[key := receipt]> (Restored.replica_evidence r)) r
          | None => r
          end)
  | _, _ => Ok r
  end.

Definition restore_invalidated (payload : Value) (r : Restored.t) : Restored.t :=
  match uuid_field "node_id" payload, field "digest" payload ≫= as_str with
  | Some node_id, Some digest =>
      Restored.set_replica_evidence (delete (digest, node_id) (Restored.replica_evidence r)) r
  | _, _ => r
  end.

(** The body of [for event in restore_events]: [t] is [now], [verified_at] gives the clock
    at the event of a sequence number. *)
Definition restore_event (t : DateTime) (verified_at : Z → DateTime) (epoch : Z) (r : Restored.t)
    (event : Ledger.LedgerEvent) : result RestoreError Restored.t :=
  let ty := Ledger.event_type event in
  let payload := Ledger.payload event in
  let subject := uuid_parse (Ledger.subject_id event) in
  if ty == "node.enrolled" then
    identity ← of_option (from_value (A := NodeIdentityV1.t) payload);
    Ok (Restored.set_nodes (<[NodeIdentityV1.node_id identity := identity]> (Restored.nodes r)) r)
  else if ty == "node.revoked" then
    Ok (match subject with Some node_id => restore_revoked node_id r | None => r end)
  else if ty == "enrollment.invite.created" then restore_invite t event r
  else if ty == "enrollment.invite.consumed" then
    Ok (match subject with
        | Some invite_id => Restored.set_invites (delete invite_id (Restored.invites r)) r
        | None => r
        end)
  else if ty == "job.proposed" then
    job ← of_option (from_value (A := JobSpecV1.t) payload);
    Ok (Restored.set_proposed_jobs (<[JobSpecV1.job_id job := job]> (Restored.proposed_jobs r)) r)
  else if ty == "lease.issued" then
    match field "lease" payload with
    | None => Ok r
    | Some lease_value =>
        lease ← of_option (from_value (A := CapabilityLeaseV1.t) lease_value);
        Ok (Restored.set_assignments
              (restore_lease t epoch (Restored.proposed_jobs r) (Restored.assignments r) lease) r)
    end
  else if ty == "shard_set.admitted" then restore_set t epoch payload r
  else if ty == "job.claimed" then
    Ok (match subject with
        | Some job_id => Restored.set_assignments (alter Assignment.claim job_id (Restored.assignments r)) r
        | None => r
        end)
  else if ty == "job.receipted" then
    Ok (match subject with
        | None => r
        | Some job_id =>
            let r := Restored.set_assignments (delete job_id (Restored.assignments r)) r in
            match from_value (A := ExecutionReceiptV1.t) payload with
            | Some receipt =>
                Restored.set_completed_receipts
                  (<[ExecutionReceiptV1.receipt_id receipt := ExecutionReceiptV1.job_id receipt]>
                     (Restored.completed_receipts r)) r
            | None => r
            end
        end)
  else if bool_decide (ty ∈ ["artifact.replicated"; "artifact.input.staged"; "artifact.output.recorded";
                             "artifact.replica.verified"; "artifact.repaired"])
  then restore_replica (verified_at (Ledger.sequence event)) payload r
  else if ty == "artifact.replica.invalidated" then Ok (restore_invalidated payload r)
  else Ok r.

(** ** The whole replay *)

(** The newest recorded offer of an enrolled node, if it is still good. *)
Definition restore_offer (t : DateTime) (l : Ledger.t) (offers : gmap Uuid ResourceOfferV1.t)
    (node_id : Uuid) : result RestoreError (gmap Uuid ResourceOfferV1.t) :=
  newest ← map_err LedgerError
             (Ledger.latest_event_for_subject_of_type (uuid_to_string node_id) "resource.offer.registered" l);
  match newest with
  | None => Ok offers
  | Some event =>
      offer ← of_option (from_value (A := ResourceOfferV1.t) (Ledger.payload event));
      Ok (if (ResourceOfferV1.node_id offer == node_id) && (t <? ResourceOfferV1.expires_at offer)
          then <[node_id := offer]> offers else offers)
  end.

Definition restored_idempotency (assignments : list Assignment.t) : gmap string Uuid :=
  foldl (λ m a, <[JobSpecV1.idempotency_key (Assignment.job a) := JobSpecV1.job_id (Assignment.job a)]> m)
    ∅ assignments.
Definition restored_reservations (assignments : list Assignment.t) : list ResourceReservation.t :=
  mjoin ((λ a, Admission.booked (Assignment.job a) (CapabilityLeaseV1.node_id (Assignment.lease a))
                 (CapabilityLeaseV1.expires_at (Assignment.lease a))) <$> assignments).

(** The maps and the offers; [None] is fuel exhausted. *)
Definition restore_state (t : DateTime) (verified_at : Z → DateTime) (l : Ledger.t) (epoch : Z)
    : option (result RestoreError (Restored.t * gmap Uuid ResourceOfferV1.t)) :=
  match read_classes RESTORE_TYPES l with
  | None => None
  | Some (Err e) => Some (Err (LedgerError e))
  | Some (Ok events) => Some (
      r ← try_fold (restore_event t verified_at epoch) Restored.init (merge_sort sequence_le events);
      offers ← try_fold (restore_offer t l) ∅ (hash_order (map_to_list (Restored.nodes r)).*1);
      Ok (r, offers))
  end.

(** ** The signed checkpoint of the chain *)

Context {wire_checkpoint : Wire LedgerCheckpoint.t}.

Definition LEDGER_CHECKPOINT_SCHEMA : string := "rampage.ledger-checkpoint.v1".
Definition newline : string := String "010" "".
Definition ledger_checkpoint_message (sequence : Z) (event_hash : string) : string :=
  LEDGER_CHECKPOINT_SCHEMA +:+ newline +:+ pretty sequence +:+ newline +:+ event_hash +:+ newline.

(** [file] is the text of the regular file at the path; an error of any kind is [Err]. *)
Definition read_ledger_checkpoint (l : Ledger.t) (file : option string) (key : SigningKey)
    : result () (option LedgerCheckpoint.t) :=
  match file with
  | None => Ok None
  | Some bytes =>
      checkpoint ← ok_or () (if 4096 <? len bytes then None else json_from_str bytes ≫= from_value);
      signature ← ok_or () (hex_decode (LedgerCheckpoint.signature checkpoint));
      if (LedgerCheckpoint.schema checkpoint != LEDGER_CHECKPOINT_SCHEMA)
         || (String.length signature != 64%nat)
         || negb (verify_bytes (verifying_key key)
                    (ledger_checkpoint_message (LedgerCheckpoint.sequence checkpoint)
                       (LedgerCheckpoint.event_hash checkpoint)) signature)
      then Err ()
      else if LedgerCheckpoint.sequence checkpoint =? 0
      then if LedgerCheckpoint.event_hash checkpoint == "GENESIS" then Ok (Some checkpoint) else Err ()
      else match Ledger.event (LedgerCheckpoint.sequence checkpoint) l with
           | Ok (Some event) =>
               if Ledger.event_hash event == LedgerCheckpoint.event_hash checkpoint
               then Ok (Some checkpoint) else Err ()
           | _ => Err ()
           end
  end.

Definition verify_ledger_with_checkpoint (l : Ledger.t) (file : option string) (key : SigningKey)
    : option (result Ledger.LedgerError Z) :=
  match read_ledger_checkpoint l file key with
  | Ok (Some checkpoint) =>
      Ledger.verify_after (LedgerCheckpoint.sequence checkpoint) (LedgerCheckpoint.event_hash checkpoint) l
  | Ok None | Err _ => Ledger.verify l
  end.

(** ** Startup *)


(** A failed startup.  The checkpoint file is an argument of [startup]: the one written
    after a successful verification is again such a file. *)
Definition start_or_die {E A} (r : result E A) : M A :=
  match r with Ok a => mret a | Err _ => fail 0 (Failure.Message "startup failed") end.

(** The epoch at start: the durable one, the first one, or a new one when a STOP was not
    completed. *)
Definition startup_epoch : M Z :=
  durable ← read (λ s, Ledger.current_fencing_epoch "controller" (AppState.ledger s));
  current ← (if durable =? 0 then advance_fencing_epoch "controller" else mret durable);
  stopped ← read AppState.kill_latch;
  marker ← read read_stop_epoch_marker;
  if stopped && (marker != Some current)
  then
    epoch ← advance_fencing_epoch "controller";
    _ ← write_stop_epoch_marker epoch;
    _ ← append "fabric.owner_stop.recovered" "local-fabric" (VObject [("fencing_epoch", VInt epoch)]);
    mret epoch
  else mret current.

(** The [AppState] [main] builds around what survived. *)
Definition rebuild (config : GovernorConfig.t) (loopback : bool) (epoch : Z) (r : Restored.t)
    (offers : gmap Uuid ResourceOfferV1.t) (s : AppState.t) : AppState.t :=
  let live := values (Restored.assignments r) in
  AppState.mk (AppState.ledger s)
    (Governor.from_signing_key config (Governor.signing_key (AppState.governor s)))
    offers ∅ (Restored.nodes r) (Restored.invites r) (Restored.assignments r)
    (restored_idempotency live) loopback (AppState.kill_latch s) (AppState.stop_epoch s)
    (restored_reservations live) AdmissionPolicy.default (Restored.completed_receipts r)
    (Restored.shard_sets r) (Restored.artifact_replicas r) (Restored.replica_evidence r)
    0 (AppState.artifact_store s) epoch ∅ None None AutonomousConstraints.default ∅
    (AppState.mesh_sent s).

(** [found?] for a step of the start that only succeeds or fails. *)
Definition found {A} (o : option A) : M A :=
  match o with Some a => mret a | None => fail 0 (Failure.Message "startup failed") end.
Definition succeeded (b : bool) : M () := found (if b then Some () else None).

Definition startup (around : Surroundings.t) (verified_at : Z → DateTime) : M () :=
  _ ← succeeded (Surroundings.opened around);
  key ← read (λ s, Governor.signing_key (AppState.governor s));
  ledger ← read AppState.ledger;
  verified ← unwrap (verify_ledger_with_checkpoint ledger (Surroundings.checkpoint around) key);
  _ ← start_or_die verified;
  epoch ← startup_epoch;
  _ ← succeeded (Surroundings.loopback around);
  config ← found (Surroundings.config around);
  _ ← append "governor.autonomy.envelope.loaded" "controller"
        (VObject [("authority_expansion", VString "denied");
                  ("per_change_approval_required", VBool false);
                  ("r1_projects", VInt (Z.of_nat (size (GovernorConfig.trusted_autopilot_projects config))));
                  ("r2_projects", VInt (Z.of_nat (size (GovernorConfig.autonomous_protected_projects config))))]);
  _ ← succeeded (Surroundings.token around);
  t ← now;
  ledger ← read AppState.ledger;
  restored ← unwrap (restore_state t verified_at ledger epoch);
  '(r, offers) ← start_or_die restored;
  mesh_info ← found (Surroundings.mesh around);
  endpoint_id ← ask mesh_endpoint_id;
  _ ← append "mesh.started" endpoint_id mesh_info;
  _ ← succeeded (Surroundings.store around);
  _ ← modify (rebuild config (Surroundings.loopback around) epoch r offers);
  refresh_diagnostics.

End restore.
End Restore.
