(* ===== verification/RestoreFacts.v ===== *)
(** * The replay of the ledger

    [restore_state] queries fifteen event classes page by page and sorts what it got;
    [replay] is one pass over the whole chain.  They agree on every ledger the controller
    can have written. *)

From S2P Require Import Prelude.
From S2P Require Import Codec.
From S2P Require Import Text.
From S2P Require Import Contracts.
From S2P Require Import Wire.
From S2P Require Import Signing.
From S2P Require Import Governor.
From S2P Require Import Scheduler.
From S2P Require Import Storage.
From S2P Require Import Ledger.
From S2P Require Import Mesh.
From S2P Require Import ControllerState.
From S2P Require Import Controller.
From S2P Require Import Admission.
From S2P Require Import Restore.
Import Text Controller Restore.
#[local] Open Scope Z_scope.

(** ** Paged reading of one class *)

Section reading.
Context {codec : Codec}.
Implicit Types (l : Ledger.t) (rows : list Ledger.row).
Import Ledger.

Lemma ascending_filter (P : row → Prop) `{∀ r, Decision (P r)} lo rows :
  ascending lo rows → ascending lo (filter P rows).
Proof.
  revert lo. induction rows as [|r rows IH]; intros lo; [done|]. intros [? Hasc].
  rewrite filter_cons. case_decide; [by split; auto|].
  eapply ascending_weaken; [|by apply IH]. lia.
Qed.

Lemma try_map_perm {E A B} (f : A → result E B) (l k : list A) ys :
  l ≡ₚ k → try_map f l = Ok ys → ∃ zs, try_map f k = Ok zs ∧ ys ≡ₚ zs.
Proof.
  setoid_rewrite try_map_ok. intros Hp. revert ys.
  induction Hp as [|x l k Hp IH|x y l|l k m _ IH1 _ IH2]; intros ys.
  - intros ->%Forall2_nil_inv_l. by exists [].
  - intros (y & ys' & Hy & (zs & Hzs & Hperm)%IH & ->)%Forall2_cons_inv_l.
    exists (y :: zs). split; [by constructor|by rewrite Hperm].
  - intros (y1 & ys1 & Hy1 & (y2 & ys2 & Hy2 & Hys & ->)%Forall2_cons_inv_l & ->)%Forall2_cons_inv_l.
    exists (y2 :: y1 :: ys2). split; [by repeat constructor|apply Permutation_swap].
  - intros (zs & Hzs & Hperm)%IH1. destruct (IH2 _ Hzs) as (zs' & ? & ?).
    exists zs'. split; [done|by etrans].
Qed.

Lemma read_class_ok fuel ty a l :
  ascending 0 (ledger_events l) → 0 ≤ a ≤ i64_max →
  (length (after a (of_type ty (ledger_events l))) < fuel)%nat →
  ∃ res, read_class fuel ty a l = Some res ∧
    ∀ evs, res = Ok evs ↔ try_map decode_row (after a (of_type ty (ledger_events l))) = Ok evs.
Proof.
  intros Hasc%(ascending_filter (λ r, row_event_type r = ty)). revert a.
  induction fuel as [|fuel IH]; intros a Ha Hfuel; [lia|].
  cbn [read_class]. unfold events_of_type, bind_u64.
  rewrite (proj2 (Z.leb_le a i64_max)) by lia.
  change (Z.to_nat (Z.min (Z.max 10000 1) 10000)) with page_size.
  fold (of_type ty (ledger_events l)) in Hasc.
  set (rows := of_type ty (ledger_events l)) in *. set (rest := after a rows) in *.
  pose proof (ascending_after 0 a _ Hasc) as Hrest. fold rest in Hrest.
  pose proof page_size_pos as Hpos. generalize dependent page_size. intros k Hpos.
  rewrite <-(take_drop k rest) in Hrest |- *. setoid_rewrite try_map_app.
  rewrite take_drop.
  destruct (try_map decode_row (take k rest)) as [page|e] eqn:Hpage; [|by exists (Err e)].
  apply try_map_ok in Hpage. cbn. destruct (last page) as [e|] eqn:Hlast; cycle 1.
  { apply last_None in Hlast as ->. apply Forall2_nil_inv_r in Hpage.
    destruct rest as [|r rest]; [|by destruct k; [lia|]]. rewrite drop_nil. by exists (Ok []). }
  destruct (Forall2_last_l _ _ _ _ Hpage Hlast) as (r & Hr & He%decode_row_sequence).
  assert (a < row_sequence r ≤ i64_max) as Hra.
  { pose proof (ascending_elem _ _ r Hrest) as Hr'. rewrite elem_of_app in Hr'.
    specialize (Hr' (or_introl (last_Some_elem_of _ _ Hr))). lia. }
  assert (after (sequence e) rows = drop k rest) as Hafter.
  { rewrite He, <-(after_after a) by lia. fold rest.
    pose proof (after_page _ _ _ _ Hrest Hr) as Hp. by rewrite take_drop in Hp. }
  destruct (IH (sequence e)) as (res & -> & Hiff); [lia| |].
  { rewrite Hafter, length_drop.
    assert (rest ≠ []) by (by intros Hnil; rewrite Hnil, take_nil in Hr).
    destruct rest; [done|]. simpl in *. lia. }
  rewrite Hafter in Hiff. destruct res as [rest'|err].
  - exists (Ok (page ++ rest')). split; [done|]. rewrite (proj1 (Hiff rest') eq_refl). done.
  - exists (Err err). split; [done|]. intros evs. destruct (try_map _ (drop k rest)) as [zs|]; [|done].
    by specialize (proj2 (Hiff zs) eq_refl).
Qed.

Definition of_types (types : list string) rows : list row :=
  filter (λ r, row_event_type r ∈ types) rows.

Lemma of_types_perm types rows :
  NoDup types → mjoin ((λ ty, of_type ty rows) <$> types) ≡ₚ of_types types rows.
Proof.
  unfold of_types. induction 1 as [|ty types Hty _ IH]; cbn.
  { induction rows; [done|]. rewrite filter_cons. case_decide as Hd; [by apply not_elem_of_nil in Hd|done]. }
  rewrite IH. clear IH. unfold of_type. induction rows as [|r rows IH]; [done|].
  assert (row_event_type r ∈ ty :: types ↔ row_event_type r = ty ∨ row_event_type r ∈ types) as Hin
    by apply elem_of_cons.
  rewrite !filter_cons. repeat case_decide; try naive_solver congruence.
  - rewrite <-app_comm_cons. by constructor.
  - rewrite <-Permutation_middle. by constructor.
Qed.

Lemma read_classes_ok types l :
  ascending 0 (ledger_events l) →
  ∃ res, read_classes types l = Some res ∧
    ∀ evs, res = Ok evs ↔
      try_map decode_row (mjoin ((λ ty, of_type ty (ledger_events l)) <$> types)) = Ok evs.
Proof.
  intros Hasc. induction types as [|ty types (res & Hres & Hiff)];
    cbn [read_classes]; [by exists (Ok [])|].
  change (mjoin (_ <$> ty :: types)) with
    (of_type ty (ledger_events l) ++ mjoin ((λ ty, of_type ty (ledger_events l)) <$> types)).
  destruct (read_class_ok (S (length (ledger_events l))) ty 0 l) as (res' & Hres' & Hiff');
    [done|unfold i64_max; lia| |].
  { apply Nat.lt_succ_r. unfold after, of_type. etrans; apply length_filter. }
  rewrite (after_all 0) in Hiff' by (done || by apply ascending_filter).
  rewrite Hres', Hres. setoid_rewrite try_map_app.
  destruct res' as [evs'|e'].
  - rewrite (proj1 (Hiff' evs') eq_refl). cbn. destruct res as [evs|e].
    + rewrite (proj1 (Hiff evs) eq_refl). by exists (Ok (evs' ++ evs)).
    + exists (Err e). split; [done|]. intros evs. destruct (try_map _ (mjoin _)) as [zs|]; [|done].
      by specialize (proj2 (Hiff zs) eq_refl).
  - exists (Err e'). split; [done|]. intros evs. destruct (try_map _ (of_type ty _)) as [zs|]; [|done].
    by specialize (proj2 (Hiff' zs) eq_refl).
Qed.

Definition sequence_lt (a b : LedgerEvent) : Prop := sequence a < sequence b.

Lemma decoded_sorted lo rows evs :
  ascending lo rows → try_map decode_row rows = Ok evs → StronglySorted sequence_lt evs.
Proof.
  rewrite try_map_ok. revert lo evs. induction rows as [|r rows IH]; intros lo evs Hasc Hevs.
  { apply Forall2_nil_inv_l in Hevs as ->. constructor. }
  apply Forall2_cons_inv_l in Hevs as (e & evs1 & He & Hevs & ->). destruct Hasc as [_ Hasc].
  constructor; [by eapply IH|]. apply Forall_forall. intros e' He'.
  unfold sequence_lt. apply decode_row_sequence in He as ->.
  apply list_elem_of_lookup_1 in He' as [i Hi].
  destruct (Forall2_lookup_r _ _ _ _ _ Hevs Hi) as (r' & Hr'%list_elem_of_lookup_2 & Hd).
  apply decode_row_sequence in Hd as ->. by apply (ascending_elem _ _ r') in Hasc as [? _].
Qed.

Lemma sequence_determines evs a b :
  StronglySorted sequence_lt evs → a ∈ evs → b ∈ evs → sequence a = sequence b → a = b.
Proof.
  unfold sequence_lt. induction 1 as [|e evs Hs IH He]; [by intros ?%not_elem_of_nil|].
  rewrite Forall_forall in He.
  intros [->|Ha]%elem_of_cons [->|Hb]%elem_of_cons Heq; [done|..|by apply IH].
  - specialize (He _ Hb). lia.
  - specialize (He _ Ha). lia.
Qed.

(** Sorting the classes restores the order of the chain. *)
Lemma sorted_events evs evs' :
  StronglySorted sequence_lt evs → evs' ≡ₚ evs → merge_sort sequence_le evs' = evs.
Proof.
  intros Hs Hp. assert (Total sequence_le) by (intros a b; unfold sequence_le; lia).
  assert (Transitive sequence_le) by (intros a b c; unfold sequence_le; lia).
  apply (StronglySorted_unique_strong sequence_le).
  - intros a b Ha Hb. rewrite merge_sort_Permutation, Hp in Ha. unfold sequence_le. intros.
    eapply sequence_determines; eauto. lia.
  - by apply StronglySorted_merge_sort.
  - clear Hp. induction Hs as [|e evs Hs IH He]; constructor; [done|].
    eapply Forall_impl; [exact He|]. unfold sequence_lt, sequence_le. cbn. lia.
  - by rewrite merge_sort_Permutation.
Qed.
End reading.

(** ** The replay *)

Section replay.
Context {codec : Codec} {crypto : Crypto} {ser : Serializer} {vault : Vault} {render : Render}
        {order : HashOrder} {wire : ContractWire} {iroh : Iroh}.
Context (t : DateTime) (verified_at : Z → DateTime) (epoch : Z).
Implicit Types (l : Ledger.t) (r : Restored.t) (events : list Ledger.LedgerEvent).

Definition replay_events : list Ledger.LedgerEvent → result RestoreError Restored.t :=
  try_fold (restore_event t verified_at epoch) Restored.init.

(** The reference: every event of the ledger, in one pass. *)
Definition replay l : result RestoreError (Restored.t * gmap Uuid ResourceOfferV1.t) :=
  events ← map_err LedgerError (try_map Ledger.decode_row (Ledger.ledger_events l));
  r ← replay_events events;
  offers ← try_fold (restore_offer t l) ∅ (hash_order (map_to_list (Restored.nodes r)).*1);
  Ok (r, offers).

(** An event of another class changes nothing. *)
Lemma restore_event_other r event :
  Ledger.event_type event ∉ RESTORE_TYPES → restore_event t verified_at epoch r event = Ok r.
Proof.
  unfold RESTORE_TYPES. rewrite !not_elem_of_cons. intros Hty. unfold restore_event.
  destruct_and! Hty. rewrite !bool_decide_false by (rewrite ?elem_of_cons, ?elem_of_nil; tauto). done.
Qed.

Lemma replay_filter r events :
  try_fold (restore_event t verified_at epoch) r events
    = try_fold (restore_event t verified_at epoch) r
        (filter (λ e, Ledger.event_type e ∈ RESTORE_TYPES) events).
Proof.
  revert r. induction events as [|e events IH]; intros r; [done|]. rewrite filter_cons. case_decide.
  - cbn. destruct (restore_event _ _ _ r e); cbn; [apply IH|done].
  - cbn. rewrite restore_event_other by done. apply IH.
Qed.

Lemma decode_row_type row event :
  Ledger.decode_row row = Ok event → Ledger.event_type event = Ledger.row_event_type row.
Proof. unfold Ledger.decode_row. intros. by res_inv. Qed.

Lemma decode_filter types rows events :
  try_map Ledger.decode_row rows = Ok events →
  try_map Ledger.decode_row (of_types types rows)
    = Ok (filter (λ e, Ledger.event_type e ∈ types) events).
Proof.
  rewrite !try_map_ok. unfold of_types.
  induction 1 as [|row event rows events Hd _ IH]; [constructor|].
  rewrite !filter_cons, <-(decode_row_type _ _ Hd). case_decide; [by constructor|done].
Qed.

Lemma restore_types_nodup : NoDup RESTORE_TYPES.
Proof. apply (bool_decide_unpack _). vm_compute. exact I. Qed.

(** The sorted result of the queries is the restorable part of the chain. *)
Lemma restore_reads l :
  Ledger.ascending 0 (Ledger.ledger_events l) →
  ∃ res, read_classes RESTORE_TYPES l = Some res ∧
    match res with
    | Ok events => try_map Ledger.decode_row (of_types RESTORE_TYPES (Ledger.ledger_events l))
                     = Ok (merge_sort sequence_le events)
    | Err _ => ∀ events, try_map Ledger.decode_row (of_types RESTORE_TYPES (Ledger.ledger_events l)) ≠ Ok events
    end.
Proof.
  intros Hasc. destruct (read_classes_ok RESTORE_TYPES l Hasc) as (res & Hres & Hiff).
  exists res. split; [done|].
  pose proof (of_types_perm RESTORE_TYPES (Ledger.ledger_events l) restore_types_nodup) as Hp.
  destruct res as [events|e].
  - destruct (try_map_perm _ _ _ _ Hp (proj1 (Hiff events) eq_refl)) as (zs & Hzs & Hperm).
    rewrite Hzs. f_equal. symmetry. apply sorted_events; [|done].
    eapply decoded_sorted; [|exact Hzs]. by apply ascending_filter.
  - intros events Hev. symmetry in Hp. destruct (try_map_perm _ _ _ _ Hp Hev) as (zs & Hzs%Hiff & _). done.
Qed.

(** A restore that succeeds has replayed exactly the restorable events, in order. *)
Lemma restore_state_inv l r offers :
  Ledger.ascending 0 (Ledger.ledger_events l) →
  restore_state t verified_at l epoch = Some (Ok (r, offers)) →
  ∃ events, try_map Ledger.decode_row (of_types RESTORE_TYPES (Ledger.ledger_events l)) = Ok events ∧
    replay_events events = Ok r.
Proof.
  intros Hasc. unfold restore_state. destruct (restore_reads l Hasc) as (res & -> & Hres).
  destruct res as [events|e]; [|done]. intros [= (r' & Hr & (? & _ & [= -> _])%bind_ok_inv)%bind_ok_inv].
  eauto.
Qed.

Lemma restore_state_replay l events :
  Ledger.ascending 0 (Ledger.ledger_events l) →
  try_map Ledger.decode_row (Ledger.ledger_events l) = Ok events →
  restore_state t verified_at l epoch = Some (replay l).
Proof.
  intros Hasc Hev. unfold restore_state, replay. destruct (restore_reads l Hasc) as (res & -> & Hres).
  rewrite (decode_filter _ _ _ Hev) in Hres. destruct res as [evs|e]; [|by destruct (Hres _ eq_refl)].
  injection Hres as <-. rewrite Hev. cbn. unfold replay_events. by rewrite <-replay_filter.
Qed.
End replay.

(** [C4] On every ledger the controller can have written, [restore_state] terminates, and its
    paged queries per event class followed by a sort give exactly what one pass over the
    whole chain gives: the same maps, the same offers and the same errors. *)
Theorem restore_is_replay {codec : Codec} {laws : CodecLaws codec} {crypto : Crypto} {ser : Serializer}
    {vault : Vault} {render : Render} {order : HashOrder} {wire : ContractWire} {iroh : Iroh}
    (t : DateTime) (verified_at : Z → DateTime) (epoch : Z) (l : Ledger.t) :
  Ledger.reachable l →
  restore_state t verified_at l epoch = Some (replay t verified_at epoch l).
Proof.
  intros Hl%Ledger.reachable_wf. pose proof (Ledger.wf_chain l Hl) as Hc.
  pose proof (Ledger.chained_check _ _ _ 0 Hc) as (events & Hev & _)%bind_ok_inv.
  eapply restore_state_replay; [by eapply Ledger.chained_ascending|exact Hev].
Qed.
