(* ===== verification/ControllerFacts.v ===== *)
(** * The invariant of the controller

    What an event of the ledger does to the replayed assignments, weakest preconditions of
    handler computations, and the invariant every handler and the startup keep: live and
    replayed assignments are keyed by their job, an unclaimed one carries a lease that was
    never handed out, and no epoch lies above the durable one. *)

From S2P Require Import Prelude.
From S2P Require Import Codec.
From S2P Require Import Text.
From S2P Require Import Contracts.
From S2P Require Import Wire.
From S2P Require Import Signing.
From S2P Require Import Governor.
From S2P Require Import Scheduler.
From S2P Require Import ModelPlanner.
From S2P Require Import ModelPlannerFacts.
From S2P Require Import Storage.
From S2P Require Import Ledger.
From S2P Require Import Mesh.
From S2P Require Import ControllerState.
From S2P Require Import Controller.
From S2P Require Import Admission.
From S2P Require Import Restore.
From S2P Require Import RestoreFacts.
Import Text Controller Admission Restore.
#[local] Open Scope Z_scope.

(** ** What an event does to the assignments *)

Section replayed.
Context {codec : Codec} {crypto : Crypto} {ser : Serializer} {vault : Vault} {render : Render}
        {order : HashOrder} {wire : ContractWire} {iroh : Iroh}.
Context (t : DateTime) (verified_at : Z → DateTime) (epoch : Z).

(** An assignment that was there, as it was or claimed. *)
Definition kept (A : gmap Uuid Assignment.t) (k : Uuid) (a : Assignment.t) : Prop :=
  ∃ a', A !! k = Some a' ∧ (a = a' ∨ a = Assignment.claim a').

(** An assignment [restore_lease] adds. *)
Definition added (leases : list CapabilityLeaseV1.t) (jobs : gmap Uuid JobSpecV1.t) (k : Uuid)
    (a : Assignment.t) : Prop :=
  ∃ lease job, lease ∈ leases ∧ jobs !! k = Some job ∧ a = Assignment.mk job lease false ∧
    CapabilityLeaseV1.job_id lease = k ∧ CapabilityLeaseV1.fencing_epoch lease = epoch.

Lemma restore_leases_spec jobs leases A k a :
  foldl (restore_lease t epoch jobs) A leases !! k = Some a →
  kept A k a ∨ added leases jobs k a.
Proof.
  revert A. induction leases as [|lease leases IH] using rev_ind; intros A; cbn.
  { intros Ha. left. exists a. auto. }
  rewrite foldl_snoc. unfold restore_lease at 1.
  assert (foldl (restore_lease t epoch jobs) A leases !! k = Some a →
          kept A k a ∨ added (leases ++ [lease]) jobs k a) as Hold.
  { intros [?|(lease' & job & Hin & ?)]%IH; [by left|right]. exists lease', job.
    split; [apply elem_of_app; by left|done]. }
  destruct (_ && _) eqn:Hc; [|exact Hold]. bool_prop.
  destruct (jobs !! _) as [job|] eqn:Hj; [|exact Hold].
  rewrite lookup_insert_Some. intros [[<- <-]|[_ Ha]]; [|by apply Hold].
  right. exists lease, job. split; [|done]. apply elem_of_app. right. by apply list_elem_of_singleton.
Qed.

Lemma kept_refl A k a : A !! k = Some a → kept A k a.
Proof. intros. exists a. auto. Qed.
Lemma kept_filter (P : Uuid * Assignment.t → Prop) `{∀ x, Decision (P x)} A k a :
  filter P A !! k = Some a → kept A k a.
Proof. intros [? _]%map_lookup_filter_Some. by apply kept_refl. Qed.
Lemma kept_delete A j k a : delete j A !! k = Some a → kept A k a.
Proof. intros [_ ?]%lookup_delete_Some. by apply kept_refl. Qed.
Lemma kept_claim A j k a : alter Assignment.claim j A !! k = Some a → kept A k a.
Proof.
  destruct (decide (j = k)) as [->|].
  - rewrite lookup_alter_eq. intros (a' & ? & ->)%fmap_Some. exists a'. auto.
  - rewrite lookup_alter_ne by done. apply kept_refl.
Qed.

(** The leases an event carries, and the jobs it finds for them. *)
Definition carried (r : Restored.t) (event : Ledger.LedgerEvent) (leases : list CapabilityLeaseV1.t)
    (jobs : gmap Uuid JobSpecV1.t) : Prop :=
  (Ledger.event_type event = "lease.issued" ∧ jobs = Restored.proposed_jobs r ∧
     ∃ v lease, field "lease" (Ledger.payload event) = Some v ∧
       from_value (A := CapabilityLeaseV1.t) v = Some lease ∧ leases = [lease]) ∨
  (Ledger.event_type event = "shard_set.admitted" ∧ (∀ k job, jobs !! k = Some job → JobSpecV1.job_id job = k) ∧
     ∃ v, field "leases" (Ledger.payload event) = Some v ∧ list_from_value v = Some leases).

Lemma jobs_of_set_keyed (shards : list JobSpecV1.t) k job :
  foldl (λ (m : gmap Uuid JobSpecV1.t) job, <[JobSpecV1.job_id job := job]> m) ∅ shards !! k = Some job →
  JobSpecV1.job_id job = k.
Proof.
  induction shards as [|j shards IH] using rev_ind; [done|]. rewrite foldl_snoc.
  rewrite lookup_insert_Some. intros [[? ?]|[_ ?]]; [congruence|auto].
Qed.

Lemma of_option_ok {A} (o : option A) a : of_option o = Ok a ↔ o = Some a.
Proof. destruct o; cbn; naive_solver. Qed.

(** Walk a successful [restore_event] down its branches. *)
#[local] Ltac replay_inv :=
  repeat (case_match || (match goal with H : _ ≫= _ = Ok _ |- _ => apply bind_ok_inv in H as (? & ? & H) end);
          simplify_eq/=).

(** The classes that carry no lease only keep assignments. *)
Lemma restore_event_keeps r event r' k a :
  Ledger.event_type event ≠ "lease.issued" → Ledger.event_type event ≠ "shard_set.admitted" →
  restore_event t verified_at epoch r event = Ok r' →
  Restored.assignments r' !! k = Some a → kept (Restored.assignments r) k a.
Proof.
  intros Hi Hs. unfold restore_event, restore_invite, restore_replica, restore_invalidated.
  rewrite (bool_decide_false _ Hi), (bool_decide_false _ Hs). cbn [negb].
  intros Hr Ha. replay_inv; eauto using kept_refl, kept_filter, kept_delete, kept_claim.
Qed.

Lemma restore_event_jobs r event r' k job :
  restore_event t verified_at epoch r event = Ok r' →
  Restored.proposed_jobs r' !! k = Some job →
  Restored.proposed_jobs r !! k = Some job ∨ JobSpecV1.job_id job = k.
Proof.
  unfold restore_event, restore_invite, restore_set, restore_replica, restore_invalidated.
  intros Hr Hj. replay_inv; auto.
  apply lookup_insert_Some in Hj as [[? ?]|[_ ?]]; [right; congruence|by left].
Qed.

Lemma restore_event_assignments r event r' k a :
  restore_event t verified_at epoch r event = Ok r' →
  Restored.assignments r' !! k = Some a →
  kept (Restored.assignments r) k a ∨
  ∃ leases jobs, carried r event leases jobs ∧ added leases jobs k a.
Proof.
  destruct (decide (Ledger.event_type event = "lease.issued")) as [Hi|Hi];
    [|destruct (decide (Ledger.event_type event = "shard_set.admitted")) as [Hs|Hs]].
  - unfold restore_event. rewrite Hi. cbn -[restore_lease].
    destruct (field "lease" _) as [v|] eqn:Hv; [|intros [= <-]; left; by apply kept_refl].
    intros (lease & Hl%of_option_ok & [= <-])%bind_ok_inv Ha.
    apply (restore_leases_spec _ [lease]) in Ha as [?|?]; [by left|right].
    exists [lease], (Restored.proposed_jobs r). split; [left; eauto 10|done].
  - unfold restore_event, restore_set. rewrite Hs. cbn -[restore_lease].
    destruct (field "set" _) as [v|]; [|intros [= <-]; left; by apply kept_refl].
    destruct (field "leases" _) as [w|] eqn:Hw; [|intros [= <-]; left; by apply kept_refl].
    intros (set & _ & (leases & Hl%of_option_ok & [= <-])%bind_ok_inv)%bind_ok_inv Ha.
    apply restore_leases_spec in Ha as [?|?]; [by left|right].
    eexists leases, _. split; [|done]. right. split; [done|].
    split; [intros; by eapply jobs_of_set_keyed|eauto].
  - intros Hr Ha. left. by eapply restore_event_keeps.
Qed.
End replayed.

(** ** Weakest preconditions *)

Section wp.
Context {codec : Codec} {crypto : Crypto}.
Context (env : Env).

(** What holds when the computation returns, and what holds when it fails. *)
Definition wp {A} (m : M A) (Q : A → nat * AppState.t → Prop) (E : nat * AppState.t → Prop)
    (c : nat * AppState.t) : Prop :=
  match m env c with
  | (Ok a, c') => Q a c'
  | (Err _, c') => E c'
  end.

Lemma wp_bind {A B} (m : M A) (f : A → M B) Q E c :
  wp m (λ a, wp (f a) Q E) E c → wp (m ≫= f) Q E c.
Proof. unfold wp, mbind, M_bind. by destruct (m env c) as [[a|e] c']. Qed.
Lemma wp_mono {A} (m : M A) (Q Q' : A → nat * AppState.t → Prop) (E E' : nat * AppState.t → Prop) c :
  wp m Q E c → (∀ a c', Q a c' → Q' a c') → (∀ c', E c' → E' c') → wp m Q' E' c.
Proof. unfold wp. destruct (m env c) as [[a|e] c']; auto. Qed.
Lemma wp_lift {X A} status (why : X → Failure.reason) (r : result X A) Q E c :
  (∀ a, r = Ok a → Q a c) → E c → wp (lift status why r) Q E c.
Proof. destruct r; cbn; auto. Qed.
Lemma wp_expect {A} status message (o : option A) Q E c :
  (∀ a, o = Some a → Q a c) → E c → wp (expect status message o) Q E c.
Proof. destruct o; cbn; auto. Qed.
Lemma wp_unwrap {A} (o : option A) Q E c :
  (∀ a, o = Some a → Q a c) → E c → wp (unwrap o) Q E c.
Proof. destruct o; cbn; auto. Qed.
Lemma wp_reject_if (b : bool) status message (Q : () → nat * AppState.t → Prop) E c :
  (b = false → Q () c) → E c → wp (reject_if b status message) Q E c.
Proof. destruct b; cbn; auto. Qed.
End wp.

(** ** The invariant *)

Section invariant.
Context {codec : Codec} {json : JsonLaws codec} {crypto : Crypto} {ser : Serializer} {vault : Vault}
        {render : Render} {rendering : RenderLaws render} {order : HashOrder} {wire : ContractWire} {iroh : Iroh}
        {faithful : FaithfulWire CapabilityLeaseV1.t}.
(* the identifiers [Uuid::now_v7] and [Uuid::new_v4] draw, one after the other *)
Context (draw : nat → Uuid) {distinct : Inj (=) (=) draw}.

(** [issued] maps the id of every lease ever signed to its job; [handed] lists the leases
    given to a worker. *)
Implicit Types (issued : gmap Uuid Uuid) (handed : list Uuid).

(** A lease that was issued for its job and not handed out. *)
Definition pending issued handed (lease : CapabilityLeaseV1.t) : Prop :=
  issued !! CapabilityLeaseV1.lease_id lease = Some (CapabilityLeaseV1.job_id lease) ∧
  CapabilityLeaseV1.lease_id lease ∉ handed.

Definition sound_at issued handed (k : Uuid) (a : Assignment.t) : Prop :=
  JobSpecV1.job_id (Assignment.job a) = k ∧ CapabilityLeaseV1.job_id (Assignment.lease a) = k ∧
  issued !! CapabilityLeaseV1.lease_id (Assignment.lease a) = Some k ∧
  (Assignment.claimed a = false → CapabilityLeaseV1.lease_id (Assignment.lease a) ∉ handed).
Definition sound issued handed (A : gmap Uuid Assignment.t) : Prop := map_Forall (sound_at issued handed) A.

Definition replay_sound issued handed (r : Restored.t) : Prop :=
  sound issued handed (Restored.assignments r) ∧
  map_Forall (λ k job, JobSpecV1.job_id job = k) (Restored.proposed_jobs r).

(** Every replay of the ledger is sound. *)
Definition ledger_sound issued handed (l : Ledger.t) : Prop :=
  ∀ t verified_at epoch events r,
    try_map Ledger.decode_row (of_types RESTORE_TYPES (Ledger.ledger_events l)) = Ok events →
    replay_events t verified_at epoch events = Ok r → replay_sound issued handed r.

Definition ledger_epoch (s : AppState.t) : Z :=
  Ledger.current_fencing_epoch "controller" (AppState.ledger s).

Record Inv (lo : Z) issued handed (c : nat * AppState.t) : Prop := {
  inv_drawn id : is_Some (issued !! id) → ∃ i, (i < c.1)%nat ∧ draw i = id;
  inv_handed id : id ∈ handed → is_Some (issued !! id);
  inv_live : sound issued handed (AppState.assignments c.2);
  inv_epochs : map_Forall (λ _ a, CapabilityLeaseV1.fencing_epoch (Assignment.lease a)
                                    ≤ AppState.fencing_epoch c.2) (AppState.assignments c.2);
  inv_lo : lo ≤ AppState.fencing_epoch c.2;
  inv_durable : AppState.fencing_epoch c.2 ≤ ledger_epoch c.2;
  inv_rows : Ledger.ascending 0 (Ledger.ledger_events (AppState.ledger c.2));
  inv_ledger : ledger_sound issued handed (AppState.ledger c.2)
}.

Lemma sound_kept issued handed A k a : sound issued handed A → kept A k a → sound_at issued handed k a.
Proof.
  intros HA (a' & Ha' & [->| ->]); [by apply HA|]. destruct (HA _ _ Ha') as (? & ? & ? & _).
  by split_and!.
Qed.

(** An event after which a sound replay is sound, for the leases handed out by then. *)
Definition harmless_to issued handed handed' (ty subject : string) (payload : Value) : Prop :=
  ∀ t verified_at epoch r event r',
    Ledger.event_type event = ty → Ledger.subject_id event = subject →
    reparse payload = Some (Ledger.payload event) →
    replay_sound issued handed r → restore_event t verified_at epoch r event = Ok r' →
    replay_sound issued handed' r'.
Definition harmless issued handed : string → string → Value → Prop := harmless_to issued handed handed.

Lemma harmless_carried issued handed ty subject payload :
  (∀ event r leases jobs, Ledger.event_type event = ty → reparse payload = Some (Ledger.payload event) →
     carried r event leases jobs → Forall (pending issued handed) leases) →
  harmless issued handed ty subject payload.
Proof.
  intros Hc t verified_at epoch r event r' Hty _ Hp [HA Hj] Hr. split; cycle 1.
  { intros k job Hk. destruct (restore_event_jobs _ _ _ _ _ _ _ _ Hr Hk) as [?|?]; [by apply Hj|done]. }
  intros k a Ha. destruct (restore_event_assignments _ _ _ _ _ _ _ _ Hr Ha) as [?|(leases & jobs & Hcar & Hadd)];
    [by eapply sound_kept|].
  destruct Hadd as (lease & job & Hin & Hjob & -> & <- & _).
  pose proof (proj1 (Forall_forall _ _) (Hc _ _ _ _ Hty Hp Hcar) _ Hin) as [Hiss Hnot].
  split_and!; [|done..]. cbn. destruct Hcar as [(_ & -> & _)|(_ & Hkeyed & _)]; [by apply Hj|by apply Hkeyed].
Qed.

Lemma harmless_other issued handed ty subject payload :
  ty ≠ "lease.issued" → ty ≠ "shard_set.admitted" → harmless issued handed ty subject payload.
Proof. intros Hi Hs. apply harmless_carried. intros event r leases jobs Hty _ [[? _]|[? _]]; congruence. Qed.

(** What an append leaves in the ledger. *)
Lemma append_shape now ty subject payload l l' e :
  Ledger.append now ty subject payload l = Ok (l', e) →
  Ledger.ascending 0 (Ledger.ledger_events l) →
  Ledger.ascending 0 (Ledger.ledger_events l') ∧ Ledger.authority_epochs l' = Ledger.authority_epochs l ∧
  ∃ row, Ledger.ledger_events l' = Ledger.ledger_events l ++ [row] ∧ Ledger.row_event_type row = ty ∧
    Ledger.row_subject_id row = subject ∧ Ledger.row_payload_json row = json_to_string payload.
Proof.
  intros (l1 & Hins & [= <- _])%bind_ok_inv Hasc. unfold Ledger.insert_row in Hins.
  destruct (Z.ltb_spec i64_max (Z.max (Ledger.sqlite_sequence l) (Ledger.last_sequence l) + 1)); [done|].
  destruct existsb in Hins; [done|]. injection Hins as <-. cbn. split_and!; [|done|by eexists].
  apply Ledger.ascending_snoc; [done|]. cbn. unfold Ledger.last_sequence in *. destruct (last _); lia.
Qed.

Lemma ledger_append_sound issued handed handed' now ty subject payload l l' e :
  Ledger.append now ty subject payload l = Ok (l', e) →
  Ledger.ascending 0 (Ledger.ledger_events l) → ledger_sound issued handed l →
  harmless_to issued handed handed' ty subject payload → (ty ∉ RESTORE_TYPES → handed' = handed) →
  ledger_sound issued handed' l'.
Proof.
  intros Happ Hasc Hl Hh Hother t verified_at epoch events r.
  destruct (append_shape _ _ _ _ _ _ _ Happ Hasc) as (_ & _ & row & -> & Hty & Hsub & Hpay).
  unfold of_types. rewrite filter_app, filter_cons, filter_nil. case_decide as Hin; cycle 1.
  { rewrite app_nil_r. rewrite Hother by congruence. apply Hl. }
  rewrite try_map_app. intros (evs & Hevs & Hrow)%bind_ok_inv. cbn [try_map] in Hrow.
  destruct (Ledger.decode_row row) as [event|] eqn:Hd; [|done]. injection Hrow as <-.
  unfold replay_events. rewrite try_fold_app. intros (r1 & Hr1 & Hr)%bind_ok_inv. cbn in Hr.
  destruct (restore_event _ _ _ r1 event) as [r2|] eqn:Hev; [|done]. injection Hr as <-.
  unfold Ledger.decode_row in Hd. rewrite Hpay in Hd.
  destruct (parse_rfc3339 _); [|done]. destruct (json_from_str _) as [v|] eqn:Hv; [|done].
  injection Hd as <-. eapply Hh; [| | | |exact Hev]; cbn; [done..|]. by eapply Hl.
Qed.

(** ** Computations that keep the invariant *)

Context (env : Env) (Henv : fresh env = draw).

Definition keeps {A} (m : M A) : Prop :=
  ∀ lo issued handed c, Inv lo issued handed c →
    wp env m (λ _, Inv lo issued handed) (Inv lo issued handed) c.

(** The parts of the state the invariant looks at. *)
Definition core (s : AppState.t) : Ledger.t * gmap Uuid Assignment.t * Z :=
  (AppState.ledger s, AppState.assignments s, AppState.fencing_epoch s).

Lemma inv_core lo issued handed n n' s s' :
  core s' = core s → (n ≤ n')%nat → Inv lo issued handed (n, s) → Inv lo issued handed (n', s').
Proof.
  intros [= Hl Ha He] Hn []. split; unfold ledger_epoch in *; cbn in *; rewrite ?Hl, ?Ha, ?He; try done.
  intros id Hid. destruct (inv_drawn0 id Hid) as (i & ? & ?). exists i. split; [lia|done].
Qed.

Lemma keeps_ret {A} (a : A) : keeps (mret a).
Proof. intros ????. done. Qed.
Lemma keeps_read {A} (f : AppState.t → A) : keeps (read f).
Proof. intros ????. done. Qed.
Lemma keeps_ask {A} (f : Env → A) : keeps (ask f).
Proof. intros ????. done. Qed.
Lemma keeps_now : keeps now.
Proof. intros ??? [n s] H. eapply inv_core; [| |exact H]; cbn; [done|lia]. Qed.
Lemma keeps_fresh : keeps fresh_uuid.
Proof. intros ??? [n s] H. eapply inv_core; [| |exact H]; cbn; [done|lia]. Qed.
Lemma keeps_fail {A} status why : keeps (A := A) (fail status why).
Proof. intros ????. done. Qed.
Lemma keeps_bind {A B} (m : M A) (f : A → M B) : keeps m → (∀ a, keeps (f a)) → keeps (m ≫= f).
Proof.
  intros Hm Hf lo issued handed c H. apply wp_bind.
  eapply wp_mono; [by apply Hm|intros a c' ?; by apply Hf|done].
Qed.
Lemma keeps_lift {X A} status (why : X → Failure.reason) (r : result X A) : keeps (lift status why r).
Proof. destruct r; [apply keeps_ret|apply keeps_fail]. Qed.
Lemma keeps_expect {A} status message (o : option A) : keeps (expect status message o).
Proof. destruct o; [apply keeps_ret|apply keeps_fail]. Qed.
Lemma keeps_unwrap {A} (o : option A) : keeps (unwrap o).
Proof. destruct o; [apply keeps_ret|apply keeps_fail]. Qed.
Lemma keeps_reject_if b status message : keeps (reject_if b status message).
Proof. destruct b; [apply keeps_fail|apply keeps_ret]. Qed.
Lemma keeps_over_mesh {A} status destination alpn message (call : Link → result Fault A) :
  keeps (over_mesh status destination alpn message call).
Proof.
  intros lo issued handed [n s] HI. unfold wp, over_mesh. cbn [fst snd].
  destruct (call _); cbn; (eapply inv_core; [|reflexivity|exact HI]); by repeat case_match.
Qed.
Lemma keeps_on_local_store {A} status
    (f : DateTime → (nat → string) → CasStore.t → result StorageError.t A * CasStore.t) :
  keeps (on_local_store status f).
Proof.
  intros lo issued handed [n s] HI. unfold wp, on_local_store. cbn [fst snd].
  destruct (f _ _ _) as [[a|] store]; cbn; (eapply inv_core; [| |exact HI]; [done|lia]).
Qed.
Lemma keeps_await : keeps await.
Proof. intros ??? [n s] H. eapply inv_core; [| |exact H]; cbn; [done|lia]. Qed.
Lemma keeps_attempt {A} (m : M A) : keeps m → keeps (attempt m).
Proof.
  intros Hm lo issued handed c H. specialize (Hm lo issued handed c H). unfold wp, attempt in *.
  by destruct (m env c) as [[]].
Qed.
Lemma keeps_map_failure {A} f (m : M A) : keeps m → keeps (map_failure f m).
Proof.
  intros Hm lo issued handed c H. specialize (Hm lo issued handed c H). unfold wp, map_failure in *.
  by destruct (m env c) as [[]].
Qed.
Lemma keeps_modify f : (∀ s, core (f s) = core s) → keeps (modify f).
Proof. intros Hf ??? [n s] H. eapply inv_core; [| |exact H]; [apply Hf|done]. Qed.
Lemma keeps_for_each {A} (f : A → M ()) l : (∀ x, keeps (f x)) → keeps (for_each f l).
Proof. intros Hf. induction l; [apply keeps_ret|]. apply keeps_bind; [done|auto]. Qed.

Lemma wp_append lo issued handed handed' ty subject payload c :
  Inv lo issued handed c → harmless_to issued handed handed' ty subject payload →
  (ty ∉ RESTORE_TYPES → handed' = handed) →
  (∀ id, id ∈ handed' → is_Some (issued !! id)) →
  sound issued handed' (AppState.assignments c.2) →
  wp env (append ty subject payload) (λ _, Inv lo issued handed') (Inv lo issued handed) c.
Proof.
  intros HI Hh Hother Hhanded Hlive. unfold wp, append. destruct c as [n s]. cbn in *.
  destruct (Ledger.append _ _ _ _ _) as [[l e]|err] eqn:Happ; cycle 1.
  { eapply inv_core; [| |exact HI]; [done|cbn; lia]. }
  pose proof HI as []. cbn in *.
  destruct (append_shape _ _ _ _ _ _ _ Happ inv_rows0) as (? & Hep & _).
  split; cbn; try done.
  - intros id Hid. destruct (inv_drawn0 id Hid) as (i & ? & ?). exists i. split; [lia|done].
  - unfold ledger_epoch, Ledger.current_fencing_epoch in *. cbn. by rewrite Hep.
  - by eapply ledger_append_sound.
Qed.

Lemma keeps_append ty subject payload :
  bool_decide (ty ∈ ["lease.issued"; "shard_set.admitted"]) = false → keeps (append ty subject payload).
Proof.
  intros Hty%bool_decide_eq_false lo issued handed c HI.
  rewrite !not_elem_of_cons in Hty. destruct Hty as (? & ? & _).
  eapply wp_append; [done|by apply harmless_other|done|apply HI|apply HI].
Qed.

(** Assignments may be dropped or marked as claimed. *)
Lemma keeps_shrink f :
  (∀ s, AppState.ledger (f s) = AppState.ledger s ∧ AppState.fencing_epoch (f s) = AppState.fencing_epoch s) →
  (∀ s k a, AppState.assignments (f s) !! k = Some a → kept (AppState.assignments s) k a) →
  keeps (modify f).
Proof.
  intros Hf Hkept lo issued handed [n s] []. destruct (Hf s) as [Hl He]. cbn in *.
  split; unfold ledger_epoch in *; cbn; rewrite ?Hl, ?He; try done.
  - intros k a Ha. by eapply sound_kept, Hkept.
  - intros k a (a' & Ha' & [->| ->])%Hkept; [|cbn]; by apply (inv_epochs0 k).
Qed.

Create HintDb keeps.
#[local] Hint Resolve keeps_over_mesh keeps_await keeps_attempt keeps_map_failure keeps_ret keeps_read keeps_ask keeps_now keeps_fresh keeps_fail keeps_lift keeps_expect
  keeps_unwrap keeps_reject_if : keeps.
Ltac keeps :=
  repeat (intros; first [ solve [eauto with keeps] | apply keeps_bind | apply keeps_for_each
                        | apply keeps_modify; reflexivity | apply keeps_append; reflexivity
                        | case_match ]).

Lemma keeps_denied {A} status (r : result Denial.t A) : keeps (denied status r).
Proof. apply keeps_lift. Qed.
Lemma keeps_stopped : keeps reject_if_stopped.
Proof. unfold reject_if_stopped. keeps. Qed.
Lemma keeps_arrival : keeps reject_if_stopped_on_arrival.
Proof. unfold reject_if_stopped_on_arrival. keeps. Qed.
Lemma keeps_gate message : keeps (try_gate message).
Proof. unfold try_gate. keeps. Qed.
#[local] Hint Resolve keeps_denied keeps_stopped keeps_arrival keeps_gate : keeps.

Lemma keeps_create_invite : keeps create_invite.
Proof. unfold create_invite. keeps. Qed.
Lemma keeps_enroll_node request : keeps (enroll_node request).
Proof. unfold enroll_node. keeps. Qed.
Lemma keeps_diagnostics : keeps (refresh_diagnostics).
Proof. unfold refresh_diagnostics. keeps. Qed.
#[local] Hint Resolve keeps_diagnostics : keeps.
Lemma keeps_revoke_node node_id confirmation :
  keeps (revoke_node node_id confirmation).
Proof.
  unfold revoke_node, cancel_model_sessions. keeps. apply keeps_shrink; [done|]. intros ???. apply kept_filter.
Qed.
Lemma keeps_resume confirmation : keeps (local_resume confirmation).
Proof. unfold local_resume. keeps. Qed.
Lemma keeps_register_offer offer : keeps (register_offer offer).
Proof. unfold register_offer, check_offer_endpoint. keeps. Qed.
Lemma keeps_stage offer job : keeps (stage_job_inputs offer job).
Proof. unfold stage_job_inputs, stage_input, replicate_to_offer, send_chunk, verify_replica_evidence, ensure. keeps. Qed.
Lemma keeps_plan_set set : keeps (plan_shard_set_request set).
Proof. unfold plan_shard_set_request. keeps. Qed.
Lemma keeps_list_receipts job_id : keeps (list_receipts job_id).
Proof. unfold list_receipts. keeps. Qed.
Lemma keeps_relay_manifest : keeps relay_access_manifest.
Proof. unfold relay_access_manifest. keeps. Qed.
Lemma keeps_recall candidate events : keeps (recall_canaries candidate events).
Proof. induction events; cbn; unfold recall_canary; keeps. Qed.
#[local] Hint Resolve keeps_recall keeps_stage : keeps.
Lemma keeps_canary candidate : keeps (authorize_promotion_canary candidate).
Proof. unfold authorize_promotion_canary. keeps. Qed.
Lemma keeps_receipt receipt : keeps (submit_receipt receipt).
Proof.
  unfold submit_receipt, record_output. keeps. apply keeps_shrink; [done|]. intros ???. apply kept_delete.
Qed.
Lemma keeps_retain book : keeps (retain_unexpired book).
Proof. induction book; cbn; keeps. Qed.

(** ** STOP *)

Lemma wp_advance lo issued handed c :
  Inv lo issued handed c →
  wp env (advance_fencing_epoch "controller")
    (λ epoch c', Inv lo issued handed c' ∧ epoch = ledger_epoch c'.2 ∧ ledger_epoch c.2 < epoch)
    (Inv lo issued handed) c.
Proof.
  intros HI. unfold wp, advance_fencing_epoch. destruct c as [n s]. cbn in *.
  destruct (Ledger.advance_fencing_epoch _ _ _) as [[l epoch]|err] eqn:Hadv; cycle 1.
  { eapply inv_core; [| |exact HI]; [done|cbn; lia]. }
  pose proof HI as []. unfold Ledger.advance_fencing_epoch in Hadv. cbn in *.
  unfold checked_add in Hadv. destruct (_ <=? u64_max); [|done]. destruct (_ <=? i64_max); [|done].
  apply bind_ok_inv in Hadv as ([l2 e] & Happ & [= -> <-]).
  destruct (append_shape _ _ _ _ _ _ _ Happ inv_rows0) as (Hasc & Hep & _).
  assert (ledger_epoch (AppState.set_ledger l s) = ledger_epoch s + 1) as Hepoch.
  { unfold ledger_epoch, Ledger.current_fencing_epoch. cbn. rewrite Hep. cbn. by rewrite lookup_insert_eq. }
  split_and!; [split; cbn; try done| |]; cbn.
  - intros id Hid. destruct (inv_drawn0 id Hid) as (i & ? & ?). exists i. split; [lia|done].
  - rewrite Hepoch. lia.
  - eapply ledger_append_sound; [exact Happ|done|done|by apply harmless_other|done].
  - rewrite Hepoch. reflexivity.
  - unfold ledger_epoch, Ledger.current_fencing_epoch. lia.
Qed.

Lemma inv_raise lo issued handed n s epoch :
  Inv lo issued handed (n, s) → AppState.fencing_epoch s ≤ epoch → epoch ≤ ledger_epoch s →
  Inv epoch issued handed (n, AppState.set_fencing_epoch epoch s).
Proof.
  intros [] ? ?. split; cbn in *; try done.
  intros k a Ha. specialize (inv_epochs0 k a Ha). cbn in *. lia.
Qed.
Lemma inv_weaken lo lo' issued handed c : lo' ≤ lo → Inv lo issued handed c → Inv lo' issued handed c.
Proof. intros ? []. split; [done..|lia|done|done|done]. Qed.

Lemma inv_self lo issued handed c : Inv lo issued handed c → Inv (AppState.fencing_epoch c.2) issued handed c.
Proof. intros []. by split. Qed.

(** Keeping the invariant for a higher bound. *)
Lemma wp_keeps {A} (m : M A) lo lo' issued handed c (Q : A → nat * AppState.t → Prop) :
  keeps m → lo' ≤ lo → Inv lo issued handed c → (∀ a c', Inv lo issued handed c' → Q a c') →
  wp env m Q (Inv lo' issued handed) c.
Proof. intros Hm ? HI HQ. eapply wp_mono; [by apply Hm|done|intros c'; by apply inv_weaken]. Qed.

(** A STOP that is not a repetition moves to an epoch no lease has. *)
Lemma wp_local_stop lo issued handed c :
  Inv lo issued handed c →
  wp env local_stop
    (λ x c', ∃ lo', lo ≤ lo' ∧ Inv lo' issued handed c' ∧
       (x.2.2 = false → x.2.1 = lo' ∧ AppState.fencing_epoch c.2 < lo'))
    (Inv lo issued handed) c.
Proof.
  intros HI. pose proof (inv_lo _ _ _ _ HI) as Hlo. pose proof (inv_self _ _ _ _ HI) as HI0.
  unfold local_stop. do 3 (apply wp_bind; cbn). case_match.
  { cbn. exists lo. done. }
  apply wp_bind. eapply wp_keeps; [by apply keeps_modify|exact Hlo|done|]. intros [] c1 HI1.
  apply wp_bind. eapply wp_mono; [by apply wp_advance|cbn|intros c'; by apply inv_weaken].
  intros epoch [n2 s2] (HI2 & -> & Hlt). cbn in *.
  pose proof (inv_lo _ _ _ _ HI1). pose proof (inv_durable _ _ _ _ HI1).
  pose proof (inv_durable _ _ _ _ HI2). cbn in *.
  apply wp_bind. cbn. apply (inv_raise _ _ _ _ _ (ledger_epoch s2)) in HI2; [|done..].
  do 4 (apply wp_bind; cbn). apply wp_bind.
  eapply (wp_keeps _ (ledger_epoch s2)); [by apply keeps_append|lia|by eapply inv_core, HI2; cbn|].
  intros [] c3 HI3. cbn. exists (ledger_epoch s2). split_and!; [lia|done|]. intros _. split; [done|lia].
Qed.

(** ** Issuing leases *)

Lemma sound_mono issued issued' handed A : issued ⊆ issued' → sound issued handed A → sound issued' handed A.
Proof.
  intros Hsub HA k a Ha. destruct (HA k a Ha) as (? & ? & ? & ?). split_and!; try done.
  by eapply lookup_weaken.
Qed.
Lemma pending_mono issued issued' handed lease :
  issued ⊆ issued' → pending issued handed lease → pending issued' handed lease.
Proof. intros ? [? ?]. split; [by eapply lookup_weaken|done]. Qed.

(** A new identifier is not the id of a lease. *)
Lemma inv_undrawn lo issued handed n s i : Inv lo issued handed (n, s) → (n ≤ i)%nat → issued !! draw i = None.
Proof.
  intros HI Hi. destruct (issued !! draw i) as [job|] eqn:E; [|done].
  destruct (inv_drawn _ _ _ _ HI (draw i)) as (j & ? & ->%(inj draw)); [by eexists|]. cbn in *. lia.
Qed.

Lemma inv_issue lo issued handed n s i n' job_id :
  Inv lo issued handed (n, s) → (n ≤ i < n')%nat → Inv lo (<[draw i := job_id]> issued) handed (n', s).
Proof.
  intros HI Hi. pose proof (insert_subseteq issued (draw i) job_id (inv_undrawn _ _ _ _ _ i HI (proj1 Hi))) as Hsub.
  destruct HI. split; cbn in *; try done.
  - intros id [job [[<- _]|[_ Hid]]%lookup_insert_Some]; [exists i; lia|].
    destruct (inv_drawn0 id) as (j & ? & ?); [by eexists|]. exists j. split; [lia|done].
  - intros id [job Hid]%inv_handed0. exists job. by eapply lookup_weaken.
  - by eapply sound_mono.
  - intros t v e events r Hev Hr. destruct (inv_ledger0 _ _ _ _ _ Hev Hr). split; [by eapply sound_mono|done].
Qed.

Lemma authorized_lease governor job offer node epoch t lease_id nonce_id lease :
  Governor.authorize_job_at_epoch governor job offer node epoch t lease_id nonce_id = Some (Ok lease) →
  CapabilityLeaseV1.lease_id lease = lease_id ∧ CapabilityLeaseV1.job_id lease = JobSpecV1.job_id job ∧
  CapabilityLeaseV1.fencing_epoch lease = epoch.
Proof.
  unfold Governor.authorize_job_at_epoch. destruct (Governor.check_job_at _ _ _ _ _); [|done].
  destruct (mapM _ _); cbn; [|done]. by intros [= <-].
Qed.

(** A lease just signed for a job, at the epoch of the state. *)
Definition issues (issued : gmap Uuid Uuid) handed (epoch : Z) (job : JobSpecV1.t) (lease : CapabilityLeaseV1.t)
    : Prop :=
  pending issued handed lease ∧ CapabilityLeaseV1.job_id lease = JobSpecV1.job_id job ∧
  CapabilityLeaseV1.fencing_epoch lease = epoch.

Lemma wp_authorize lo issued handed status job offer node c :
  Inv lo issued handed c →
  wp env (authorize status job offer node)
    (λ lease c', c'.2 = c.2 ∧ ∃ issued', issued ⊆ issued' ∧ Inv lo issued' handed c' ∧
       issues issued' handed (AppState.fencing_epoch c.2) job lease)
    (Inv lo issued handed) c.
Proof.
  intros HI. destruct c as [n s]. unfold authorize. do 5 (apply wp_bind; cbn).
  assert (∀ n', (n ≤ n')%nat → Inv lo issued handed (n', s)) as Hlater by (intros; by eapply inv_core, HI).
  apply wp_bind, wp_unwrap; [|apply Hlater; lia]. intros outcome Hout.
  apply wp_lift; [|apply Hlater; lia]. intros lease ->.
  destruct (authorized_lease _ _ _ _ _ _ _ _ _ Hout) as (Hid & Hjob & Hepoch). split; [done|].
  exists (<[draw (S n) := JobSpecV1.job_id job]> issued). rewrite Henv in Hid.
  pose proof (inv_undrawn _ _ _ _ _ (S n) HI (le_S _ _ (le_n n))) as Hnew.
  split_and!; [by apply insert_subseteq|eapply inv_issue; [exact HI|lia]|].
  split; [|done]. split; rewrite Hid; [by rewrite lookup_insert_eq, Hjob|].
  intros [? ?]%(inv_handed _ _ _ _ HI). congruence.
Qed.

Lemma inv_assign lo issued handed n s job lease :
  Inv lo issued handed (n, s) → issues issued handed lo job lease →
  Inv lo issued handed (n, assign job lease s).
Proof.
  intros [] ([Hiss Hnot] & Hjob & Hepoch). split; cbn in *; try done.
  - intros k a [[<- <-]|[_ Ha]]%lookup_insert_Some; [|by apply inv_live0]. split_and!; cbn; try done.
    by rewrite <-Hjob.
  - intros k a [[<- <-]|[_ Ha]]%lookup_insert_Some; [cbn; lia|by apply (inv_epochs0 k)].
Qed.

(** The member of a stored object is the stored member. *)
Lemma stored_field m v key w x :
  NoDup m.*1 → reparse (VObject m) = Some v → field key (VObject m) = Some w → field key v = Some x →
  reparse w = Some x.
Proof.
  intros Hnd Hv Hw Hx. destruct (json_object_inv m v Hnd Hv) as (m' & -> & Hm).
  rewrite Hm, Hw in Hx. done.
Qed.

Lemma harmless_lease issued handed subject lease w :
  pending issued handed lease →
  harmless issued handed "lease.issued" subject (VObject [("lease", to_value lease); ("placement", w)]).
Proof.
  intros Hp. apply harmless_carried. intros event r leases jobs Hty Hpay Hc.
  destruct Hc as [(_ & _ & v & lease' & Hf & Hl & ->)|[? _]]; [|congruence].
  apply Forall_singleton.
  eapply (stored_field _ _ "lease" (to_value lease)) in Hpay; [|by apply (bool_decide_unpack _)|done|exact Hf].
  by rewrite (wire_faithful _ _ _ Hpay Hl).
Qed.

Lemma harmless_set issued handed subject leases v w :
  Forall (pending issued handed) leases →
  harmless issued handed "shard_set.admitted" subject
    (VObject [("leases", list_to_value leases); ("placements", v); ("set", w)]).
Proof.
  intros Hp. apply harmless_carried. intros event r leases' jobs Hty Hpay Hc.
  destruct Hc as [[? _]|(_ & _ & u & Hf & Hl)]; [congruence|].
  eapply (stored_field _ _ "leases" (list_to_value leases)) in Hpay;
    [|by apply (bool_decide_unpack _)|done|exact Hf].
  by rewrite (list_faithful _ _ _ Hpay Hl).
Qed.

(** Every handler keeps the invariant for some growing record of issued leases. *)
Definition I (lo : Z) handed (c : nat * AppState.t) : Prop := ∃ issued, Inv lo issued handed c.
Definition safe {A} (m : M A) : Prop :=
  ∀ lo handed c, I lo handed c → wp env m (λ _, I lo handed) (I lo handed) c.

Lemma keeps_safe {A} (m : M A) : keeps m → safe m.
Proof.
  intros Hm lo handed c [issued HI]. eapply wp_mono; [by apply Hm|by exists issued|by exists issued].
Qed.
Lemma safe_bind {A B} (m : M A) (f : A → M B) : safe m → (∀ a, safe (f a)) → safe (m ≫= f).
Proof.
  intros Hm Hf lo handed c H. apply wp_bind.
  eapply wp_mono; [by apply Hm|intros a c' ?; by apply Hf|done].
Qed.

(** A computation that keeps the stronger bound, followed by one that is safe. *)
Lemma wp_keeps_I {A} (m : M A) lo lo' issued handed c (Q : A → nat * AppState.t → Prop) :
  keeps m → lo' ≤ lo → Inv lo issued handed c → (∀ a c', Inv lo issued handed c' → Q a c') →
  wp env m Q (I lo' handed) c.
Proof.
  intros Hm ? HI HQ. eapply wp_mono; [by apply Hm|done|]. intros c' ?. exists issued. by eapply inv_weaken.
Qed.

(** From a signed lease to its record. *)
Lemma record_lease_safe lo handed issued job lease offer subject score c :
  lo ≤ AppState.fencing_epoch c.2 →
  Inv (AppState.fencing_epoch c.2) issued handed c →
  issues issued handed (AppState.fencing_epoch c.2) job lease →
  wp env (_ ← stage_job_inputs offer job;
          _ ← append "lease.issued" subject (VObject [("lease", to_value lease); ("placement", score)]);
          _ ← modify (assign job lease);
          book ← read AppState.reservations;
          kept ← retain_unexpired book;
          _ ← modify (AppState.set_reservations
                 (kept ++ booked job (CapabilityLeaseV1.node_id lease) (CapabilityLeaseV1.expires_at lease)));
          mret (202, lease)) (λ _, I lo handed) (I lo handed) c.
Proof.
  generalize (AppState.fencing_epoch c.2). intros E Hlo HI Hiss.
  apply wp_bind. eapply (wp_keeps_I _ E); [apply keeps_stage|done|done|]. intros [] c1 HI1.
  apply wp_bind. eapply wp_mono.
  { apply (wp_append E issued handed handed); [done|apply harmless_lease, Hiss|done|apply HI1|apply HI1]. }
  2: { intros c' ?. exists issued. by eapply inv_weaken. }
  cbn. intros [] [n2 s2] HI2. apply wp_bind. cbn. apply (inv_assign _ _ _ _ _ job lease) in HI2; [|done].
  apply wp_bind. cbn. apply wp_bind. eapply (wp_keeps_I _ E); [apply keeps_retain|done|done|].
  intros kept [n3 s3] HI3. apply wp_bind. cbn. exists issued.
  eapply inv_weaken; [done|]. by eapply inv_core, HI3.
Qed.

Lemma safe_authorize {B} status job offer node (f : CapabilityLeaseV1.t → M B) :
  (∀ lo handed issued lease c,
     lo ≤ AppState.fencing_epoch c.2 → Inv (AppState.fencing_epoch c.2) issued handed c →
     issues issued handed (AppState.fencing_epoch c.2) job lease →
     wp env (f lease) (λ _, I lo handed) (I lo handed) c) →
  safe (authorize status job offer node ≫= f).
Proof.
  intros Hf lo handed c [issued HI]. pose proof (inv_lo _ _ _ _ HI) as Hlo.
  apply wp_bind. eapply wp_mono; [apply wp_authorize, (inv_self _ _ _ _ HI)| |].
  - cbn. intros lease c' (Hs & issued' & _ & HI' & Hl). rewrite <-Hs in *. by eapply Hf.
  - intros c' HI'. exists issued. by eapply inv_weaken.
Qed.

#[local] Hint Resolve keeps_safe : keeps.
Ltac safe :=
  repeat (intros; lazymatch goal with
    | |- safe _ => first [ solve [eauto with keeps] | apply keeps_safe; solve [keeps]
                         | apply safe_authorize | apply safe_bind | case_match ]
    end).

Lemma safe_submit_job job : safe (submit_job job).
Proof.
  unfold submit_job, admit_job. safe. intros. by eapply record_lease_safe.
Qed.

(** ** Shard sets *)

(** Signing one lease per member changes nothing but the draws. *)
Lemma wp_authorize_members offers members lo issued handed c :
  Inv lo issued handed c →
  wp env (collect (authorize_member offers) members)
    (λ leases c', c'.2 = c.2 ∧ ∃ issued', issued ⊆ issued' ∧ Inv lo issued' handed c' ∧
       Forall2 (λ p lease, issues issued' handed (AppState.fencing_epoch c.2) p.1 lease) members leases)
    (I lo handed) c.
Proof.
  revert issued c. induction members as [|[job placement] members IH]; intros issued c HI.
  { cbn. split; [done|]. exists issued. split_and!; [done|done|constructor]. }
  cbn [collect]. unfold authorize_member at 1. do 2 apply wp_bind. apply wp_unwrap; [|by exists issued].
  intros offer _. eapply wp_mono; [by apply wp_authorize|cbn|by exists issued].
  intros lease c1 (Hs1 & issued1 & Hsub1 & HI1 & Hl1). apply wp_bind.
  eapply wp_mono; [by apply IH|cbn|done]. intros leases c2 (Hs2 & issued2 & Hsub2 & HI2 & Hl2).
  split; [congruence|]. exists issued2. split_and!; [by etrans|done|]. constructor; [|by rewrite <-Hs1].
  destruct Hl1 as (? & ? & ?). split_and!; [by eapply pending_mono|done|done].
Qed.

Lemma zip_issued {A B C} (R : A → C → Prop) (xs : list A) (ys : list B) (zs : list C) :
  Forall2 (λ p z, R p.1 z) (zip xs ys) zs → Forall (λ p, R p.1.1 p.1.2) (zip (zip xs zs) ys).
Proof.
  revert ys zs. induction xs as [|x xs IH]; intros [|y ys] [|z zs] HF; cbn; try constructor.
  all: apply Forall2_cons in HF as [? ?]; auto.
Qed.

Lemma inv_record_members lo issued handed n s members :
  Inv lo issued handed (n, s) → Forall (λ p, issues issued handed lo p.1.1 p.1.2) members →
  Inv lo issued handed (n, foldl record_member s members).
Proof.
  intros HI HF. revert s HI. induction HF as [|[[job lease] placement] members Hp _ IH]; intros s HI; [done|].
  apply IH. apply (inv_assign _ _ _ _ _ job lease) in HI; [|done]. by eapply inv_core, HI.
Qed.

Lemma inv_record_set lo issued handed n s t set leases placements :
  Inv lo issued handed (n, s) →
  Forall2 (λ p lease, issues issued handed lo p.1 lease) (zip (ShardSetV1.shards set) placements) leases →
  Inv lo issued handed (n, record_set t set leases placements s).
Proof.
  intros HI Hl. unfold record_set. set (kept := List.filter _ _).
  assert (Inv lo issued handed (n, AppState.set_reservations kept s)) as HI' by (by eapply inv_core, HI).
  by eapply inv_core, (inv_record_members _ _ _ _ _ _ HI' (zip_issued _ _ _ _ Hl)).
Qed.

Lemma safe_admit_set t set : safe (admit_set t set).
Proof.
  unfold admit_set. do 7 (apply safe_bind; [solve [safe]|intros ?]).
  apply safe_bind; [unfold check_member; safe|intros _].
  apply safe_bind; [unfold stage_member; safe|intros _].
  intros lo handed c [issued HI]. pose proof (inv_lo _ _ _ _ HI) as Hlo. apply wp_bind.
  eapply wp_mono; [apply wp_authorize_members, (inv_self _ _ _ _ HI)|cbn|].
  2: { intros c' [issued' HI']. exists issued'. by eapply inv_weaken. }
  intros leases c1 (Hs & issued1 & _ & HI1 & Hl). revert Hl HI1 Hlo.
  generalize (AppState.fencing_epoch c.2). intros E Hl HI1 Hlo. apply wp_bind. eapply wp_mono.
  { eapply (wp_append E issued1 handed handed); [done|apply harmless_set|done|apply HI1|apply HI1].
    clear -Hl. induction Hl as [|? ? ? ? [? _]]; by constructor. }
  2: { intros c' ?. exists issued1. by eapply inv_weaken. }
  intros [] [n2 s2] HI2. cbn. exists issued1. eapply inv_weaken; [done|]. by apply inv_record_set.
Qed.

#[local] Hint Resolve safe_admit_set : keeps.
Lemma safe_submit_set set : safe (submit_shard_set set).
Proof. unfold submit_shard_set. safe. Qed.

(** ** Claims *)

(** Marking the assignment of a job hands out at most the leases of that job. *)
Lemma sound_claim issued handed A k id :
  sound issued handed A → issued !! id = Some k → sound issued (id :: handed) (alter Assignment.claim k A).
Proof.
  intros HA Hid j a. destruct (decide (k = j)) as [<-|Hne].
  - rewrite lookup_alter_eq. intros (a' & Ha' & ->)%fmap_Some. destruct (HA _ _ Ha') as (? & ? & ? & _).
    by split_and!.
  - rewrite lookup_alter_ne by done. intros Ha. destruct (HA _ _ Ha) as (? & ? & Hiss & Hun).
    split_and!; [done..|]. intros Hc. apply not_elem_of_cons. split; [|auto]. intros <-. congruence.
Qed.

Lemma claim_alter (A : gmap Uuid Assignment.t) k a :
  A !! k = Some a → <[k := Assignment.claim a]> A = alter Assignment.claim k A.
Proof.
  intros Ha. apply map_eq. intros j. destruct (decide (k = j)) as [<-|].
  - by rewrite lookup_insert_eq, lookup_alter_eq, Ha.
  - by rewrite lookup_insert_ne, lookup_alter_ne.
Qed.

Lemma harmless_claim issued handed k id payload :
  issued !! id = Some k → harmless_to issued handed (id :: handed) "job.claimed" (uuid_to_string k) payload.
Proof.
  intros Hid t verified_at epoch r event r' Hty Hsub _ [HA Hj]. unfold restore_event.
  rewrite Hty, Hsub, uuid_roundtrip. cbn. intros [= <-]. split; [by apply sound_claim|done].
Qed.

Lemma wp_claim_work node_id lo handed c :
  I lo handed c →
  wp env (claim_work node_id)
    (λ o c', match o with
             | None => I lo handed c'
             | Some claim =>
                 let lease := WorkClaimV1.lease claim in
                 CapabilityLeaseV1.lease_id lease ∉ handed ∧ lo ≤ CapabilityLeaseV1.fencing_epoch lease ∧
                 I lo (CapabilityLeaseV1.lease_id lease :: handed) c'
             end)
    (I lo handed) c.
Proof.
  intros [issued HI]. destruct c as [n s]. unfold claim_work.
  assert (∀ n', (n ≤ n')%nat → I lo handed (n', s)) as Hlater
    by (intros; exists issued; by eapply inv_core, HI).
  unfold try_gate, reject_if_stopped. do 2 (apply wp_bind; cbn). apply wp_reject_if; [intros _|by apply Hlater].
  apply wp_bind. cbn. apply wp_bind, wp_reject_if; [intros _|by apply Hlater].
  apply wp_bind. cbn. apply wp_bind, wp_reject_if; [intros _|by apply Hlater].
  do 3 (apply wp_bind; cbn).
  destruct (ModelPlanner.min_by_key _ _) as [[k a]|] eqn:Hmin; [|apply Hlater; lia].
  apply min_by_key_elem in Hmin. rewrite list_elem_of_In, filter_In, <-list_elem_of_In in Hmin.
  destruct Hmin as [Hin Hclaim]. rewrite hash_order_perm in Hin. apply elem_of_map_to_list in Hin.
  unfold claimable, CapabilityLeaseV1.is_active_at in Hclaim. bool_prop.
  destruct (inv_live _ _ _ _ HI k a Hin) as (Hjob & _ & Hiss & Hnot).
  apply wp_bind. cbn. rewrite claim_alter by done.
  apply wp_bind. cbn. apply wp_bind. rewrite Hjob.
  set (c1 := (S n, _ : AppState.t)).
  assert (Inv lo issued handed c1) as HI1.
  { refine (keeps_shrink (λ s, AppState.set_assignments (alter Assignment.claim k (AppState.assignments s)) s)
              _ _ lo issued handed (S n, s) _); [done|intros ???; apply kept_claim|].
    eapply inv_core, HI; [done|lia]. }
  eapply wp_mono.
  { apply (wp_append lo issued handed (CapabilityLeaseV1.lease_id (Assignment.lease a) :: handed));
      [done|by apply harmless_claim|intros []; set_solver| |apply sound_claim; [apply HI|done]].
    intros id [->|?]%elem_of_cons; [by eexists|by apply HI]. }
  - intros [] c2 HI2. cbn. split_and!; [by apply Hnot| |by eexists].
    pose proof (inv_lo _ _ _ _ HI). cbn in *. lia.
  - intros c2 HI2. by exists issued.
Qed.

(** ** Restart *)

Lemma replay_epochs t verified_at epoch events r :
  replay_events t verified_at epoch events = Ok r →
  map_Forall (λ _ a, CapabilityLeaseV1.fencing_epoch (Assignment.lease a) = epoch) (Restored.assignments r).
Proof.
  unfold replay_events. revert r. induction events as [|event events IH] using rev_ind; intros r.
  { intros [= <-]. apply map_Forall_empty. }
  rewrite try_fold_app. intros (r1 & Hr1%IH & Hr)%bind_ok_inv k a Ha. cbn in Hr.
  destruct (restore_event _ _ _ r1 event) as [r2|] eqn:Hev; [|done]. injection Hr as ->.
  destruct (restore_event_assignments _ _ _ _ _ _ _ _ Hev Ha) as [(a' & Ha' & [->| ->])|Hadd].
  - exact (Hr1 _ _ Ha').
  - exact (Hr1 _ _ Ha').
  - by destruct Hadd as (leases & jobs & _ & lease & job & _ & _ & -> & _ & ?).
Qed.

Lemma wp_and {A} (m : M A) (Q Q' : A → nat * AppState.t → Prop) (E E' : nat * AppState.t → Prop) c :
  wp env m Q E c → wp env m Q' E' c → wp env m (λ a c', Q a c' ∧ Q' a c') E c.
Proof. unfold wp. destruct (m env c) as [[a|e] c']; auto. Qed.

(** An append moves no epoch. *)
Lemma wp_append_epoch ty subject payload lo issued handed c :
  Inv lo issued handed c →
  wp env (append ty subject payload)
    (λ _ c', ledger_epoch c'.2 = ledger_epoch c.2 ∧ AppState.fencing_epoch c'.2 = AppState.fencing_epoch c.2)
    (λ _, True) c.
Proof.
  intros HI. unfold wp, append. destruct (Ledger.append _ _ _ _ _) as [[l e]|] eqn:Happ; [|done]. cbn.
  destruct (append_shape _ _ _ _ _ _ _ Happ (inv_rows _ _ _ _ HI)) as (_ & Hep & _).
  unfold ledger_epoch, Ledger.current_fencing_epoch. cbn. by rewrite Hep.
Qed.

(** The invariant, with the durable epoch known. *)
Definition InvAt (lo : Z) issued handed (epoch : Z) (c : nat * AppState.t) : Prop :=
  Inv lo issued handed c ∧ epoch = ledger_epoch c.2.

Lemma wp_neutral_at ty subject payload lo issued handed epoch c (Q : () → nat * AppState.t → Prop) :
  bool_decide (ty ∈ ["lease.issued"; "shard_set.admitted"]) = false →
  InvAt lo issued handed epoch c → (∀ c', InvAt lo issued handed epoch c' → Q () c') →
  wp env (append ty subject payload) Q (I lo handed) c.
Proof.
  intros Hty [HI ->] HQ. eapply wp_mono.
  { eapply wp_and; [by apply (keeps_append ty subject payload Hty)|by eapply wp_append_epoch]. }
  - intros [] c' (HI' & Hep & _). apply HQ. by split.
  - intros c' ?. by exists issued.
Qed.

Lemma wp_startup_epoch lo issued handed c :
  Inv lo issued handed c →
  wp env startup_epoch (λ epoch, InvAt lo issued handed epoch) (I lo handed) c.
Proof.
  intros HI. unfold startup_epoch. apply wp_bind. cbn. apply wp_bind.
  eapply (wp_mono _ _ (λ epoch, InvAt lo issued handed epoch) _ (I lo handed)); [| |done].
  { case_match; [|by split]. eapply wp_mono; [by apply wp_advance| |by exists issued].
    intros epoch c1 (? & ? & _). by split. }
  intros current c1 [HI1 Hcur]. do 2 (apply wp_bind; cbn). case_match; [|by split].
  apply wp_bind. eapply wp_mono; [by apply wp_advance|cbn|by exists issued].
  intros epoch [n2 s2] (HI2 & Hep & _). apply wp_bind. cbn. apply wp_bind.
  eapply wp_neutral_at; [done|split; [by eapply inv_core, HI2|exact Hep]|]. by cbn.
Qed.

Lemma inv_rebuild lo issued handed epoch config loopback t verified_at l r offers c :
  InvAt lo issued handed epoch c → Inv lo issued handed l →
  restore_state t verified_at (AppState.ledger l.2) epoch = Some (Ok (r, offers)) →
  Inv lo issued handed (c.1, rebuild config loopback epoch r offers c.2).
Proof.
  intros [HI ->] HIl Hr. destruct (restore_state_inv _ _ _ _ _ _ (inv_rows _ _ _ _ HIl) Hr) as (events & Hev & Hrep).
  destruct (inv_ledger _ _ _ _ HIl _ _ _ _ _ Hev Hrep) as [Hs _]. pose proof (replay_epochs _ _ _ _ _ Hrep) as He.
  destruct HI. split; cbn; try done.
  - intros k a Ha. rewrite (He k a Ha). done.
  - by etrans.
Qed.

Lemma wp_found_at {A} (o : option A) lo issued handed epoch (Q : A → nat * AppState.t → Prop) c :
  InvAt lo issued handed epoch c → (∀ a, o = Some a → Q a c) → wp env (found o) Q (I lo handed) c.
Proof. intros [HI _] HQ. destruct o; [by apply HQ|]. by exists issued. Qed.

Context {wire_checkpoint : Wire LedgerCheckpoint.t}.

Lemma safe_startup around verified_at : safe (startup around verified_at).
Proof.
  unfold startup, succeeded. do 5 (apply safe_bind; [unfold start_or_die, found; safe|intros ?]).
  intros lo handed c [issued HI]. apply wp_bind. eapply wp_mono; [by apply wp_startup_epoch| |done].
  intros epoch c1 Hat1. apply wp_bind, (wp_found_at _ _ _ _ _ _ _ Hat1). intros _ _.
  apply wp_bind, (wp_found_at _ _ _ _ _ _ _ Hat1). intros config _.
  apply wp_bind. eapply wp_neutral_at; [done|done|]. intros [n2 s2] Hat2.
  apply wp_bind, (wp_found_at _ _ _ _ _ _ _ Hat2). intros _ _. do 2 (apply wp_bind; cbn).
  assert (InvAt lo issued handed epoch (S n2, s2)) as Hat3.
  { destruct Hat2 as [? ?]. split; [|done]. by eapply inv_core; [| |done]; [done|lia]. }
  apply wp_bind, wp_unwrap; [|exists issued; apply Hat3]. intros restored Hr.
  apply wp_bind. destruct restored as [[r offers]|]; cbn; [|exists issued; apply Hat3].
  apply wp_bind, (wp_found_at _ _ _ _ _ _ _ Hat3). intros mesh_info _.
  do 2 (apply wp_bind; cbn). eapply wp_neutral_at; [done|exact Hat3|]. intros c4 Hat4.
  apply wp_bind, (wp_found_at _ _ _ _ _ _ _ Hat4). intros _ _. apply wp_bind. cbn.
  apply (keeps_safe _ keeps_diagnostics). exists issued.
  eapply inv_rebuild; [done|apply Hat3|exact Hr].
Qed.
End invariant.
