(* ===== verification/HandlersFacts.v ===== *)
(** * The other handlers keep the controller's invariant

    The artifact, Remote Assist and model endpoints, the repair cycle, dividends and control
    requests leave the assignments and the epochs alone, and nothing they record carries a
    lease of a job. *)

From S2P Require Import Prelude.
From S2P Require Import Codec.
From S2P Require Import Text.
From S2P Require Import Contracts.
From S2P Require Import Wire.
From S2P Require Import Signing.
From S2P Require Import Governor.
From S2P Require Import Storage.
From S2P Require Import Ledger.
From S2P Require Import Mesh.
From S2P Require Import Economics.
From S2P Require Import ControllerState.
From S2P Require Import Controller.
From S2P Require Import Artifacts.
From S2P Require Import Assist.
From S2P Require Import ModelGateway.
From S2P Require Import Admission.
From S2P Require Import Reports.
From S2P Require Import ControllerFacts.
Import Text Controller Artifacts Assist ModelGateway Admission Reports.

Create HintDb handlers discriminated.

Section handlers.
Context {codec : Codec} {json : JsonLaws codec} {crypto : Crypto} {ser : Serializer} {vault : Vault}
        {render : Render} {rendering : RenderLaws render} {order : HashOrder} {wire : ContractWire} {iroh : Iroh}
        {faithful : FaithfulWire CapabilityLeaseV1.t} {base64 : Base64}.
Context {wire_model_lease : Wire ModelSessionLeaseV1.t} {wire_model_receipt : Wire ModelExecutionReceiptV1.t}
        {wire_desktop_lease : Wire RemoteDesktopLeaseV1.t} {wire_desktop_frame : Wire RemoteDesktopFrameV1.t}.
Context (draw : nat → Uuid) (env : Env) (describe : Failure.reason → string).
#[local] Abbreviation keeps := (keeps draw env).

#[local] Hint Resolve keeps_over_mesh keeps_on_local_store keeps_await keeps_attempt keeps_map_failure keeps_ret
  keeps_read keeps_ask keeps_now keeps_fresh keeps_fail keeps_lift keeps_expect keeps_unwrap keeps_reject_if
  keeps_denied keeps_stopped keeps_diagnostics : handlers.
Ltac handler :=
  repeat (intros; first [ solve [eauto with handlers] | apply keeps_bind | apply keeps_for_each
                        | apply keeps_attempt | apply keeps_map_failure
                        | apply keeps_modify; reflexivity | apply keeps_append; reflexivity | case_match ]).

(** ** Artifacts *)

Lemma keeps_transfer {A} status endpoint context action index digest payload (call : Link → Uuid → result Fault A) :
  keeps (transfer status endpoint context action index digest payload call).
Proof. unfold transfer. handler. Qed.
Lemma keeps_evidence_check offer lease session_id nonce receipt :
  keeps (verify_replica_evidence offer lease session_id nonce receipt).
Proof. unfold verify_replica_evidence, ensure. handler. Qed.
#[local] Hint Resolve keeps_transfer keeps_evidence_check : handlers.
Lemma keeps_replicate offer endpoint source class : keeps (replicate_to_offer offer endpoint source class).
Proof. unfold replicate_to_offer, send_chunk, ensure. handler. Qed.
Lemma keeps_remote_offer node_id : keeps (remote_offer node_id).
Proof. unfold remote_offer. handler. Qed.
Lemma keeps_read_lease status offer artifact : keeps (read_lease status offer artifact).
Proof. unfold read_lease. handler. Qed.
#[local] Hint Resolve keeps_replicate keeps_remote_offer keeps_read_lease : handlers.
Lemma keeps_probe offer artifact : keeps (probe_replica offer artifact).
Proof. unfold probe_replica, ensure. handler. Qed.
#[local] Hint Resolve keeps_probe : handlers.

Lemma keeps_put_artifact request : keeps (put_artifact request).
Proof. unfold put_artifact. handler. Qed.
Lemma keeps_get_artifact digest : keeps (get_artifact digest).
Proof. unfold get_artifact. handler. Qed.
Lemma keeps_replicate_artifact request : keeps (replicate_artifact request).
Proof. unfold replicate_artifact, record_replica. handler. Qed.
Lemma keeps_retrieve_chunks offer endpoint remote session_id sink lease first missing lease_ids :
  keeps (retrieve_chunks offer endpoint remote session_id sink lease first missing lease_ids).
Proof.
  revert lease first lease_ids. induction missing; cbn [retrieve_chunks]; unfold retrieve_chunk; handler.
Qed.
#[local] Hint Resolve keeps_retrieve_chunks : handlers.
Lemma keeps_retrieve_artifact request : keeps (retrieve_artifact request).
Proof. unfold retrieve_artifact. handler. Qed.

Lemma keeps_probe_recorded offers selected digest artifact nodes verified :
  keeps (probe_recorded describe offers selected digest artifact nodes verified).
Proof. revert verified. induction nodes; cbn [probe_recorded]; unfold invalidate_replica; handler. Qed.
Lemma keeps_repair_onto offers digest source verified repairs :
  keeps (repair_onto describe offers digest source verified repairs).
Proof.
  revert verified repairs. induction offers; cbn [repair_onto]; unfold record_replica; handler.
Qed.
#[local] Hint Resolve keeps_probe_recorded keeps_repair_onto : handlers.
Lemma keeps_reconcile_each t offers evidence selected entries repairs :
  keeps (reconcile_each describe t offers evidence selected entries repairs).
Proof.
  revert repairs. induction entries as [|[? []]]; cbn [reconcile_each]; unfold reconcile_digest; handler.
Qed.
#[local] Hint Resolve keeps_reconcile_each : handlers.
Lemma keeps_reconcile : keeps (reconcile_protected_artifacts describe).
Proof. unfold reconcile_protected_artifacts, fetch_probe_cursor. handler. Qed.
#[local] Hint Resolve keeps_reconcile : handlers.
Lemma keeps_repair : keeps (repair_protected_artifacts describe).
Proof. unfold repair_protected_artifacts. handler. Qed.
Lemma keeps_self_scan : keeps self_scan.
Proof. unfold self_scan. handler. Qed.

(** ** Remote Assist *)

Lemma keeps_call_worker endpoint request message : keeps (call_worker endpoint request message).
Proof. unfold call_worker. handler. Qed.
Lemma keeps_authorize_session status offer session_id mode limits :
  keeps (authorize_session status offer session_id mode limits).
Proof. unfold authorize_session. handler. Qed.
#[local] Hint Resolve keeps_call_worker keeps_authorize_session : handlers.
Lemma keeps_open_assist request : keeps (open_remote_desktop request).
Proof. unfold open_remote_desktop, remote_desktop_request_for, set_session. handler. Qed.
Lemma keeps_current_session session_id : keeps (current_remote_desktop_session session_id).
Proof. unfold current_remote_desktop_session, drop_session, set_session. handler. Qed.
#[local] Hint Resolve keeps_current_session : handlers.
Lemma keeps_assist_frame session_id : keeps (remote_desktop_frame session_id).
Proof. unfold remote_desktop_frame, remote_desktop_request_for. handler. Qed.
Lemma keeps_assist_input session_id input : keeps (remote_desktop_input session_id input).
Proof. unfold remote_desktop_input, remote_desktop_request_for, note_control, set_session. handler. Qed.
Lemma keeps_close_assist session_id : keeps (close_remote_desktop session_id).
Proof. unfold close_remote_desktop, remote_desktop_request_for, drop_session. handler. Qed.

(** ** Models *)

Lemma keeps_fail_with {A} failure : keeps (fail_with (A := A) failure).
Proof. unfold fail_with. handler. Qed.
#[local] Hint Resolve keeps_fail_with : handlers.
Lemma keeps_reject_with b failure : keeps (reject_with b failure).
Proof. unfold reject_with. handler. Qed.
#[local] Hint Resolve keeps_reject_with : handlers.
Lemma keeps_start_invocation request limit : keeps (start_model_invocation request limit).
Proof. unfold start_model_invocation, evidence. handler. Qed.
Lemma keeps_await_frame invocation stream : keeps (await_frame invocation stream).
Proof. unfold await_frame. handler. Qed.
Lemma keeps_finish invocation frame expected output : keeps (finish_invocation invocation frame expected output).
Proof. unfold finish_invocation, verify_terminal_model_receipt, evidence. handler. Qed.
#[local] Hint Resolve keeps_start_invocation keeps_await_frame keeps_finish : handlers.
Lemma keeps_consume invocation format : keeps (consume_model_invocation invocation format).
Proof.
  unfold consume_model_invocation. generalize (S (String.length (receive (ActiveModelInvocation.stream invocation)))).
  generalize (ActiveModelInvocation.stream invocation), 0, "", (@nil string). intros stream expected output events fuel.
  revert stream expected output events. induction fuel; cbn [consume_frames]; handler.
Qed.
#[local] Hint Resolve keeps_consume : handlers.
Lemma keeps_chat payload : keeps (openai_chat_completions describe payload).
Proof. unfold openai_chat_completions, forget_session. handler. Qed.
Lemma keeps_anthropic payload : keeps (anthropic_messages describe payload).
Proof. unfold anthropic_messages, forget_session. handler. Qed.
Lemma keeps_cancel session_id : keeps (cancel_model_session session_id).
Proof. unfold cancel_model_session. handler. Qed.

(** ** Dividends *)

Lemma keeps_record_dividend result : keeps (record_dividend result).
Proof.
  unfold record_dividend, validate_dividend_evidence, validate_node, job_events. handler.
Qed.
End handlers.
