(* ===== verification/RegistryFacts.v ===== *)
(** * The registries are well typed

    What the controller keeps under a key belongs to that key: identities and offers under
    their node, shard sets under their id, replicas under their digest, sessions under the id
    their lease carries, and evidence of possession only as a receipt of that digest signed by
    that node.  Every handler preserves this, and the replay of the ledger establishes it.  And
    every handler changes the ledger only by appends and epoch advances. *)

From S2P Require Import Prelude.
From S2P Require Import Codec.
From S2P Require Import Text.
From S2P Require Import Contracts.
From S2P Require Import Wire.
From S2P Require Import Signing.
From S2P Require Import Governor.
From S2P Require Import Storage.
From S2P Require Import Ledger.
From S2P Require Import Mesh.
From S2P Require Import Economics.
From S2P Require Import ControllerState.
From S2P Require Import Controller.
From S2P Require Import Artifacts.
From S2P Require Import Assist.
From S2P Require Import ModelGateway.
From S2P Require Import Admission.
From S2P Require Import Reports.
From S2P Require Import Restore.
From S2P Require Import RestoreFacts.
Import Text Controller Artifacts Assist ModelGateway Admission Reports Restore.

Create HintDb registry discriminated.

Section registry.
Context {codec : Codec} {crypto : Crypto} {ser : Serializer} {vault : Vault} {render : Render}
        {order : HashOrder} {wire : ContractWire} {iroh : Iroh} {base64 : Base64}.
Context {wire_model_lease : Wire ModelSessionLeaseV1.t} {wire_model_receipt : Wire ModelExecutionReceiptV1.t}
        {wire_desktop_lease : Wire RemoteDesktopLeaseV1.t} {wire_desktop_frame : Wire RemoteDesktopFrameV1.t}.
Context (describe : Failure.reason → string).

(** A receipt of the digest and node of its key, which an identity of that node verified. *)
Definition proves (key : string * Uuid) (receipt : ArtifactReplicaReceiptV1.t) : Prop :=
  ArtifactReplicaReceiptV1.digest receipt = key.1 ∧ ArtifactReplicaReceiptV1.node_id receipt = key.2 ∧
  ∃ identity t, NodeIdentityV1.node_id identity = key.2 ∧ verify_artifact_replica_receipt t identity receipt = Ok ().

Record registry (s : AppState.t) : Prop := mkRegistry {
  reg_nodes : map_Forall (λ k n, NodeIdentityV1.node_id n = k) (AppState.nodes s);
  reg_offers : map_Forall (λ k o, ResourceOfferV1.node_id o = k) (AppState.offers s);
  reg_sets : map_Forall (λ k r, ShardSetV1.set_id (ShardSetRecord.spec r) = k) (AppState.shard_sets s);
  reg_replicas : map_Forall (λ k a, ArtifactRefV1.digest a = k.1) (AppState.artifact_replicas s);
  reg_evidence : map_Forall proves (AppState.replica_evidence s);
  reg_sessions : map_Forall (λ k r, RemoteDesktopLeaseV1.session_id (RemoteDesktopSession.lease r) = k)
                   (AppState.remote_desktop_sessions s)
}.

(** ** Computations *)

(** The registries stay well typed, whatever the outcome, and a result satisfies [P]. *)
Definition typed {A} (P : A → Prop) (m : M A) : Prop :=
  ∀ env c, registry c.2 → registry (m env c).2.2 ∧ match (m env c).1 with Ok a => P a | Err _ => True end.

Lemma typed_ret {A} (P : A → Prop) a : P a → typed P (mret a).
Proof. intros ? env c. done. Qed.
Lemma typed_bind {A B} (P : A → Prop) (Q : B → Prop) (m : M A) (f : A → M B) :
  typed P m → (∀ a, P a → typed Q (f a)) → typed Q (m ≫= f).
Proof.
  intros Hm Hf env c Hc. destruct (Hm env c Hc) as [Hc' Ha]. unfold mbind, M_bind.
  destruct (m env c) as [[a|e] c']; [by apply Hf|done].
Qed.
Lemma typed_conseq {A} (P Q : A → Prop) (m : M A) : typed P m → (∀ a, P a → Q a) → typed Q m.
Proof. intros Hm HPQ env c Hc. destruct (Hm env c Hc) as [? Ha]. split; [done|]. case_match; eauto. Qed.
Lemma typed_any {A} (P : A → Prop) (m : M A) : typed P m → typed (λ _, True) m.
Proof. intros Hm. by eapply typed_conseq. Qed.
Lemma typed_read {A} (f : AppState.t → A) : typed (λ a, ∃ s, registry s ∧ a = f s) (read f).
Proof. intros env c Hc. split; [done|]. cbn. eauto. Qed.
Lemma typed_ask {A} (f : Env → A) : typed (λ _, True) (ask f).
Proof. done. Qed.
Lemma typed_now : typed (λ _, True) now.
Proof. done. Qed.
Lemma typed_fresh : typed (λ _, True) fresh_uuid.
Proof. done. Qed.
Lemma typed_await : typed (λ _, True) await.
Proof. done. Qed.
Lemma typed_fail {A} (P : A → Prop) status why : typed P (fail status why).
Proof. done. Qed.
Lemma typed_lift {E A} status (why : E → Failure.reason) (r : result E A) :
  typed (λ a, r = Ok a) (lift status why r).
Proof. by destruct r. Qed.
Lemma typed_expect {A} status message (o : option A) : typed (λ a, o = Some a) (expect status message o).
Proof. by destruct o. Qed.
Lemma typed_unwrap {A} (o : option A) : typed (λ a, o = Some a) (unwrap o).
Proof. by destruct o. Qed.
Lemma typed_reject_if b status message : typed (λ _, b = false) (reject_if b status message).
Proof. by destruct b. Qed.
Lemma typed_modify f : (∀ s, registry s → registry (f s)) → typed (λ _, True) (modify f).
Proof. intros Hf env c Hc. split; [by apply Hf|done]. Qed.
Lemma typed_attempt {A} (P : A → Prop) (m : M A) :
  typed P m → typed (λ r, match r with Ok a => P a | Err _ => True end) (attempt m).
Proof. intros Hm env c Hc. destruct (Hm env c Hc). unfold attempt. by destruct (m env c) as [[]]. Qed.
Lemma typed_map_failure {A} (P : A → Prop) f (m : M A) : typed P m → typed P (map_failure f m).
Proof. intros Hm env c Hc. destruct (Hm env c Hc). unfold map_failure. by destruct (m env c) as [[]]. Qed.
Lemma typed_for_each {A} (f : A → M ()) l : (∀ x, typed (λ _, True) (f x)) → typed (λ _, True) (for_each f l).
Proof. intros Hf. induction l; [by apply typed_ret|]. eapply typed_bind; [done|auto]. Qed.
Lemma typed_collect {A B} (f : A → M B) l : (∀ x, typed (λ _, True) (f x)) → typed (λ _, True) (collect f l).
Proof.
  intros Hf. induction l; [by apply typed_ret|]. eapply typed_bind; [done|intros ? _].
  eapply typed_bind; [done|]. by intros; apply typed_ret.
Qed.

(** The registries of the state. *)
Definition parts (s : AppState.t) :=
  (AppState.nodes s, AppState.offers s, AppState.shard_sets s, AppState.artifact_replicas s,
   AppState.replica_evidence s, AppState.remote_desktop_sessions s).
Lemma registry_parts s s' : parts s' = parts s → registry s → registry s'.
Proof. intros [= Hn Ho Hs Hr He Hd] []. split; by rewrite ?Hn, ?Ho, ?Hs, ?Hr, ?He, ?Hd. Qed.
Lemma typed_elsewhere f : (∀ s, parts (f s) = parts s) → typed (λ _, True) (modify f).
Proof. intros Hf. apply typed_modify. intros s. by apply registry_parts. Qed.
Lemma typed_append ty subject payload : typed (λ _, True) (append ty subject payload).
Proof.
  intros env [n s] Hs. unfold append. destruct (Ledger.append _ _ _ _ _) as [[l e]|]; [|done].
  split; [by eapply registry_parts, Hs|done].
Qed.
Lemma typed_advance scope : typed (λ _, True) (advance_fencing_epoch scope).
Proof.
  intros env [n s] Hs. unfold advance_fencing_epoch. destruct (Ledger.advance_fencing_epoch _ _ _) as [[l e]|]; [|done].
  split; [by eapply registry_parts, Hs|done].
Qed.
Lemma typed_over_mesh {A} status destination alpn message (call : Link → result Fault A) :
  typed (λ _, True) (over_mesh status destination alpn message call).
Proof.
  intros env [n s] Hs. unfold over_mesh. cbn [fst snd]. split; [|by destruct (call _)].
  eapply registry_parts, Hs. by repeat case_match.
Qed.
Lemma typed_on_local_store {A} status
    (f : DateTime → (nat → string) → CasStore.t → result StorageError.t A * CasStore.t) :
  typed (λ _, True) (on_local_store status f).
Proof.
  intros env [n s] Hs. unfold on_local_store. cbn [fst snd]. destruct (f _ _ _) as [[a|] store];
    (split; [by eapply registry_parts, Hs|done]).
Qed.

#[local] Hint Resolve typed_any typed_read typed_ask typed_now typed_fresh typed_await typed_fail typed_lift
  typed_expect typed_unwrap typed_reject_if typed_append typed_advance typed_over_mesh typed_on_local_store : registry.
(** Step through a computation, keeping what its primitive steps yield. *)
Ltac typed_step :=
  intros; first
    [ solve [eauto with registry] | apply typed_ret; exact Logic.I
    | eapply typed_bind; [solve [eauto with registry]|cbn beta; intros]
    | apply (typed_bind (λ _, True))
    | apply typed_for_each | apply typed_collect | eapply typed_any, typed_attempt | eapply typed_map_failure
    | apply typed_elsewhere; reflexivity | case_match ].
Ltac typed := repeat typed_step.

(** ** Admission *)

Lemma typed_denied {A} status (r : result Denial.t A) : typed (λ a, r = Ok a) (denied status r).
Proof. apply typed_lift. Qed.
Lemma typed_stopped : typed (λ _, True) reject_if_stopped.
Proof. unfold reject_if_stopped. typed. Qed.
Lemma typed_arrival : typed (λ _, True) reject_if_stopped_on_arrival.
Proof. unfold reject_if_stopped_on_arrival. typed. Qed.
Lemma typed_gate message : typed (λ _, True) (try_gate message).
Proof. unfold try_gate. typed. Qed.
Lemma typed_diagnostics : typed (λ _, True) refresh_diagnostics.
Proof. unfold refresh_diagnostics. typed. Qed.
#[local] Hint Resolve typed_denied typed_stopped typed_arrival typed_gate typed_diagnostics : registry.

Lemma typed_create_invite : typed (λ _, True) create_invite.
Proof. unfold create_invite. typed. Qed.
Lemma typed_enroll request : typed (λ _, True) (enroll_node request).
Proof.
  unfold enroll_node. typed. apply typed_modify. intros s []. split; cbn; try done.
  by apply map_Forall_insert_2.
Qed.
Lemma map_Forall_kept {K A} `{Countable K} (P : K → A → Prop) (Q : K * A → Prop) `{∀ x, Decision (Q x)} (m : gmap K A) :
  map_Forall P m → map_Forall P (filter Q m).
Proof. intros Hm k a [? _]%map_lookup_filter_Some. by apply Hm. Qed.
Lemma registry_forget node_id s : registry s → registry (forget_node node_id s).
Proof.
  intros []. split; cbn; first [by apply map_Forall_delete|by apply map_Forall_kept].
Qed.
Lemma typed_revoke node_id confirmation : typed (λ _, True) (revoke_node node_id confirmation).
Proof. unfold revoke_node, cancel_model_sessions. typed. apply typed_modify. intros s. apply registry_forget. Qed.
Lemma typed_stop : typed (λ _, True) local_stop.
Proof.
  unfold local_stop, write_stop_epoch_marker, cancel_model_sessions. typed.
  apply typed_modify. intros s []. split; cbn; done.
Qed.
Lemma typed_resume confirmation : typed (λ _, True) (local_resume confirmation).
Proof. unfold local_resume. typed. Qed.
Lemma typed_register_offer offer : typed (λ _, True) (register_offer offer).
Proof.
  unfold register_offer, check_offer_endpoint. typed. apply typed_modify. intros s []. split; cbn; try done.
  by apply map_Forall_insert_2.
Qed.

(** ** Replicas *)

Lemma typed_evidence offer lease session_id nonce receipt :
  typed (λ _, proves (StorageLeaseV1.digest lease, ResourceOfferV1.node_id offer) receipt)
    (verify_replica_evidence offer lease session_id nonce receipt).
Proof.
  unfold verify_replica_evidence, ensure, denied.
  eapply typed_bind; [apply typed_read|cbn beta]. intros nodes (s & [Hnodes] & ->).
  eapply typed_bind; [apply typed_expect|cbn beta]. intros identity Hid.
  eapply typed_bind; [apply typed_now|intros t _]. eapply typed_bind; [apply typed_lift|cbn beta]. intros [] Hv.
  eapply typed_conseq; [apply typed_reject_if|cbn beta]. intros [] Hb. bool_prop.
  split_and!; [done|done|]. exists identity, t. split; [|done]. by apply Hnodes.
Qed.

(** The session lets a lease of the digest through. *)
Lemma storage_lease_digest governor offer digest size class operation epoch t lease_id nonce_id lease :
  Governor.authorize_storage_at_epoch governor offer digest size class operation epoch t lease_id nonce_id = Ok lease →
  StorageLeaseV1.digest lease = digest.
Proof.
  unfold Governor.authorize_storage_at_epoch. repeat case_match; try done; by intros [= <-].
Qed.

Lemma typed_transfer {A} status endpoint context action index digest payload (call : Link → Uuid → result Fault A) :
  typed (λ _, True) (transfer status endpoint context action index digest payload call).
Proof. unfold transfer. typed. Qed.
#[local] Hint Resolve typed_transfer : registry.

(** The outcome of a replication for the key it is recorded under. *)
Definition replicated (node_id : Uuid) (source : ArtifactRefV1.t) (outcome : ReplicationOutcome.t) : Prop :=
  ArtifactRefV1.digest (ReplicationOutcome.artifact outcome) = ArtifactRefV1.digest source ∧
  proves (ArtifactRefV1.digest source, node_id) (ReplicationOutcome.receipt outcome).

Lemma typed_replicate offer endpoint source class :
  typed (replicated (ResourceOfferV1.node_id offer) source) (replicate_to_offer offer endpoint source class).
Proof.
  unfold replicate_to_offer. do 5 typed_step.
  eapply typed_bind; [apply typed_denied|cbn beta]. intros lease Hl%storage_lease_digest.
  eapply typed_bind; [apply typed_append|intros _ _]. eapply typed_bind; [apply typed_fresh|intros challenge _].
  eapply typed_bind; [apply typed_transfer|intros progress _].
  eapply typed_bind; [unfold ensure; apply typed_reject_if|intros _ _].
  eapply typed_bind; [unfold send_chunk, ensure; typed|intros _ _].
  eapply typed_bind; [apply typed_fresh|intros challenge' _].
  eapply typed_bind; [apply typed_transfer|intros [artifact receipt] _].
  eapply typed_bind; [unfold ensure; apply typed_reject_if|cbn beta; intros _ Hb]. bool_prop.
  eapply typed_bind; [apply typed_evidence|cbn beta; intros _ Hp]. apply typed_ret.
  rewrite Hl in Hp. by split.
Qed.

Lemma registry_replica s node_id source outcome :
  replicated node_id source outcome → registry s →
  registry (AppState.set_replica_evidence
              (<[(ArtifactRefV1.digest source, node_id) := ReplicationOutcome.receipt outcome]> (AppState.replica_evidence s))
            (AppState.set_artifact_replicas
              (<[(ArtifactRefV1.digest source, node_id) := ReplicationOutcome.artifact outcome]> (AppState.artifact_replicas s)) s)).
Proof. intros [Hd Hp] []. split; cbn; try done; by apply map_Forall_insert_2. Qed.

Lemma registry_evidence s key receipt :
  proves key receipt → registry s →
  registry (AppState.set_replica_evidence (<[key := receipt]> (AppState.replica_evidence s)) s).
Proof. intros Hp []. split; cbn; try done. by apply map_Forall_insert_2. Qed.

Lemma typed_stage_input offer job input : typed (λ _, True) (stage_input offer job input).
Proof.
  unfold stage_input. do 3 typed_step. destruct (ResourceOfferV1.mesh_endpoint offer) as [record|]; [|typed].
  typed_step. destruct (is_some _); [typed|]. do 2 typed_step.
  eapply typed_bind; [apply typed_replicate|]. intros outcome [Hd Hp]. rewrite Hd.
  eapply typed_bind; [apply typed_modify|intros _ _].
  { intros s []. split; cbn; try done. by apply map_Forall_insert_2. }
  eapply typed_bind; [apply typed_modify; intros s; by apply registry_evidence|intros _ _]. typed.
Qed.
Lemma typed_stage offer job : typed (λ _, True) (stage_job_inputs offer job).
Proof. unfold stage_job_inputs. apply typed_for_each. apply typed_stage_input. Qed.
#[local] Hint Resolve typed_stage : registry.

(** ** Jobs, shard sets and receipts *)

Lemma typed_authorize status job offer node : typed (λ _, True) (authorize status job offer node).
Proof. unfold authorize. typed. Qed.
Lemma typed_retain book : typed (λ _, True) (retain_unexpired book).
Proof. induction book; cbn [retain_unexpired]; typed. Qed.
#[local] Hint Resolve typed_authorize typed_retain : registry.
Lemma typed_submit_job job : typed (λ _, True) (submit_job job).
Proof. unfold submit_job, admit_job. typed. Qed.

Lemma parts_record_members members s : parts (foldl record_member s members) = parts s.
Proof. revert s. induction members as [|[[job lease] placement] members IH]; intros s; [done|]. cbn. by rewrite IH. Qed.
Lemma registry_record_set t set leases placements s : registry s → registry (record_set t set leases placements s).
Proof.
  intros Hs. unfold record_set. set (s1 := foldl _ _ _).
  assert (registry s1) as [] by (eapply registry_parts, Hs; unfold s1; by rewrite parts_record_members).
  split; cbn; try done. by apply map_Forall_insert_2.
Qed.
Lemma typed_admit_set t set : typed (λ _, True) (admit_set t set).
Proof.
  unfold admit_set, check_member, stage_member, authorize_member. typed.
  apply typed_modify. intros s. apply registry_record_set.
Qed.
#[local] Hint Resolve typed_admit_set : registry.
Lemma typed_submit_set set : typed (λ _, True) (submit_shard_set set).
Proof. unfold submit_shard_set. typed. Qed.
Lemma typed_plan_set set : typed (λ _, True) (plan_shard_set_request set).
Proof. unfold plan_shard_set_request. typed. Qed.
Lemma typed_claim node_id : typed (λ _, True) (claim_work node_id).
Proof. unfold claim_work. typed. Qed.
Lemma typed_receipt receipt : typed (λ _, True) (submit_receipt receipt).
Proof.
  unfold submit_receipt, record_output. typed. apply typed_modify. intros s []. split; cbn; try done.
  by apply map_Forall_insert_2.
Qed.
Lemma typed_list_receipts job_id : typed (λ _, True) (list_receipts job_id).
Proof. unfold list_receipts. typed. Qed.
Lemma typed_relay : typed (λ _, True) relay_access_manifest.
Proof. unfold relay_access_manifest. typed. Qed.
Lemma typed_recall candidate events : typed (λ _, True) (recall_canaries candidate events).
Proof. induction events; cbn [recall_canaries]; unfold recall_canary; typed. Qed.
#[local] Hint Resolve typed_recall : registry.
Lemma typed_canary candidate : typed (λ _, True) (authorize_promotion_canary candidate).
Proof. unfold authorize_promotion_canary. typed. Qed.

(** ** Artifacts *)

Lemma typed_remote_offer node_id :
  typed (λ p, ResourceOfferV1.node_id p.1 = node_id) (remote_offer node_id).
Proof.
  unfold remote_offer. typed_step.
  eapply typed_bind; [apply typed_read|cbn beta]. intros offers (s & [] & ->).
  eapply typed_bind; [apply typed_expect|cbn beta]. intros offer Ho.
  destruct (AppState.offers s !! node_id) as [o|] eqn:E; cbn in Ho; [|done].
  case_match; simplify_eq. apply reg_offers0 in E. do 3 typed_step. by apply typed_ret.
Qed.
Lemma typed_read_lease status offer artifact :
  typed (λ lease, StorageLeaseV1.digest lease = ArtifactRefV1.digest artifact) (read_lease status offer artifact).
Proof.
  unfold read_lease. do 5 typed_step.
  eapply typed_bind; [apply typed_denied|cbn beta]. intros lease Hl%storage_lease_digest.
  typed_step. by apply typed_ret.
Qed.
Lemma typed_probe offer artifact :
  typed (proves (ArtifactRefV1.digest artifact, ResourceOfferV1.node_id offer)) (probe_replica offer artifact).
Proof.
  unfold probe_replica, ensure. do 3 typed_step.
  eapply typed_bind; [apply typed_read_lease|cbn beta]. intros lease Hl. typed_step.
  eapply typed_bind; [apply typed_transfer|]. intros [remote receipt] _. typed_step.
  eapply typed_bind; [apply typed_evidence|cbn beta]. intros _ Hp. rewrite Hl in Hp. by apply typed_ret.
Qed.
Lemma head_digest store digest a : CasStore.head store digest = Ok a → ArtifactRefV1.digest a = digest.
Proof.
  unfold CasStore.head. intros ([d m] & _ & H)%bind_ok_inv. apply bind_ok_inv in H as (row & _ & H).
  apply bind_ok_inv in H as (class & _ & H).
  apply bind_ok_inv in H as ([] & _ & H). by injection H as <-.
Qed.
#[local] Hint Resolve typed_remote_offer typed_read_lease typed_probe : registry.

Lemma typed_put request : typed (λ _, True) (put_artifact request).
Proof. unfold put_artifact. typed. Qed.
Lemma typed_replicate_artifact request : typed (λ _, True) (replicate_artifact request).
Proof.
  unfold replicate_artifact. do 2 typed_step.
  eapply typed_bind; [apply typed_lift|cbn beta]. intros source _. typed_step.
  eapply typed_bind; [apply typed_remote_offer|cbn beta]. intros [offer endpoint] Hnode. cbn in Hnode.
  eapply typed_bind; [apply typed_replicate|]. rewrite Hnode. intros outcome Ho. rewrite (proj1 Ho).
  eapply typed_bind; [|intros _ _; typed]. apply typed_modify. intros s. by apply registry_replica.
Qed.
Lemma typed_retrieve_chunks offer endpoint remote session_id sink lease first missing lease_ids :
  typed (λ _, True) (retrieve_chunks offer endpoint remote session_id sink lease first missing lease_ids).
Proof.
  revert lease first lease_ids. induction missing; cbn [retrieve_chunks]; unfold retrieve_chunk; typed.
Qed.
#[local] Hint Resolve typed_retrieve_chunks : registry.
Lemma get_digest store digest payload : CasStore.get store digest = Ok payload → CasStore.sha256_digest payload = digest.
Proof.
  unfold CasStore.get. intros ([d m] & _ & H)%bind_ok_inv. apply bind_ok_inv in H as (parts & _ & H).
  destruct (bool_decide_reflect (CasStore.sha256_digest (concat_bytes parts) = digest)); [|done].
  cbn in H. case_match; by simplify_eq.
Qed.
(** A response that carries content of the address [digest]. *)
Definition delivers (digest : string) (response : Value) : Prop :=
  ∃ local payload, field "artifact" response = Some (to_value (A := ArtifactRefV1.t) local) ∧
    field "data_base64" response = Some (VString (base64_encode payload)) ∧
    ArtifactRefV1.digest local = digest ∧ CasStore.sha256_digest payload = digest.
Lemma typed_retrieve_delivers request :
  typed (delivers (ArtifactRetrieveRequest.digest request)) (retrieve_artifact request).
Proof.
  unfold retrieve_artifact. typed_step.
  eapply typed_bind; [apply typed_read|cbn beta]. intros replicas (s & [] & ->).
  eapply typed_bind; [apply typed_expect|cbn beta]. intros remote Hremote%reg_replicas0. cbn in Hremote.
  eapply typed_bind; [apply typed_remote_offer|cbn beta]. intros [offer endpoint] Hnode. cbn in Hnode.
  do 6 typed_step.
  eapply typed_bind; [apply typed_reject_if|cbn beta]. intros _ Hdigest. bool_prop.
  eapply typed_bind; [apply typed_probe|]. rewrite Hnode. intros receipt Hp.
  eapply typed_bind; [apply typed_modify; intros st; by apply registry_evidence|]. intros _ _. typed_step.
  eapply typed_bind; [apply typed_lift|cbn beta]. intros payload Hpayload%get_digest. typed_step.
  apply typed_ret. do 2 eexists. split_and!; try reflexivity; congruence.
Qed.
Lemma typed_retrieve request : typed (λ _, True) (retrieve_artifact request).
Proof. eapply typed_any, typed_retrieve_delivers. Qed.

(** ** Reconciliation *)

Lemma typed_probe_recorded offers selected digest artifact nodes verified :
  ArtifactRefV1.digest artifact = digest →
  typed (λ _, True) (probe_recorded describe offers selected digest artifact nodes verified).
Proof.
  intros Hd. revert verified. induction nodes as [|node_id nodes IH]; intros verified; cbn [probe_recorded]; [typed|].
  apply (typed_bind (λ _, True)); [|intros; apply IH].
  destruct (negb _); [typed|]. destruct (List.find _ offers) as [offer|] eqn:Hf; [|typed].
  apply find_some in Hf as [_ Hnode]. bool_prop.
  eapply typed_bind; [apply typed_attempt, typed_probe|cbn beta]. rewrite Hd, Hnode. intros [receipt|failure] Hp.
  - eapply typed_bind; [apply typed_modify; intros s; by apply registry_evidence|]. typed.
  - unfold invalidate_replica. typed. apply typed_modify. intros s []. split; cbn; try done. by apply map_Forall_delete.
Qed.
Lemma typed_repair_onto offers digest source verified repairs :
  ArtifactRefV1.digest source = digest →
  typed (λ _, True) (repair_onto describe offers digest source verified repairs).
Proof.
  intros <-. revert verified repairs. induction offers as [|offer offers IH]; intros verified repairs;
    cbn [repair_onto]; [typed|].
  destruct (_ || _); [typed|]. destruct (ResourceOfferV1.mesh_endpoint offer); [|apply IH].
  typed_step. destruct (endpoint_addr_from_record _ _) as [endpoint|]; [|apply IH].
  eapply typed_bind; [apply typed_attempt, typed_replicate|cbn beta]. intros [outcome|failure] Ho.
  - eapply typed_bind; [apply typed_modify; intros s; by apply registry_replica|intros _ _]. typed_step. apply IH.
  - typed_step. apply IH.
Qed.
Lemma typed_reconcile_digest t offers evidence selected repairs entry :
  ArtifactRefV1.digest entry.2.1 = entry.1 →
  typed (λ _, True) (reconcile_digest describe t offers evidence selected repairs entry).
Proof.
  destruct entry as [digest [artifact recorded]]. cbn [fst snd]. intros Hd. unfold reconcile_digest.
  eapply typed_bind; [by apply typed_probe_recorded|intros verified _].
  destruct (_ || _); [typed|]. typed_step. destruct (CasStore.head _ digest) eqn:Hh; [|typed].
  apply typed_repair_onto. by eapply head_digest.
Qed.
Lemma typed_reconcile_each t offers evidence selected entries repairs :
  Forall (λ entry, ArtifactRefV1.digest entry.2.1 = entry.1) entries →
  typed (λ _, True) (reconcile_each describe t offers evidence selected entries repairs).
Proof.
  intros He. revert repairs. induction He as [|entry entries He _ IH]; intros repairs; cbn [reconcile_each]; [typed|].
  eapply typed_bind; [by apply typed_reconcile_digest|intros; apply IH].
Qed.

Lemma grouped_digest replicas (digests : list string) :
  Forall (λ r : Recorded, ArtifactRefV1.digest r.2 = r.1.1) replicas →
  Forall (λ entry : string * (ArtifactRefV1.t * gset Uuid), ArtifactRefV1.digest entry.2.1 = entry.1)
    (omap (λ digest, pair digest <$> foldl group_replica ∅ replicas !! digest) digests).
Proof.
  intros Hr. assert (map_Forall (λ digest e, ArtifactRefV1.digest e.1 = digest) (foldl group_replica ∅ replicas)) as Hm.
  { induction replicas as [|r replicas IH] using rev_ind.
    - apply map_Forall_empty.
    - rewrite Forall_app, Forall_singleton in Hr. destruct Hr as [Hr Hlast]. specialize (IH Hr).
      rewrite foldl_snoc. unfold group_replica at 1. destruct r as [[digest node] artifact]. cbn in Hlast.
      destruct (foldl group_replica ∅ replicas !! digest) as [[first nodes]|] eqn:E; cbn;
        apply map_Forall_insert_2; [by apply IH in E|done|done|done]. }
  apply Forall_forall. intros [digest e] (d & _ & Hd)%list_elem_of_omap.
  destruct (_ !! d) eqn:E; [|done]. injection Hd as <- <-. by apply Hm in E.
Qed.
Lemma protected_digest s : registry s →
  Forall (λ r : Recorded, ArtifactRefV1.digest r.2 = r.1.1) (protected_replicas s).
Proof.
  intros []. apply Forall_forall. intros r Hr. unfold protected_replicas in Hr. rewrite merge_sort_Permutation in Hr.
  apply list_elem_of_fmap in Hr as ([k a] & -> & Hin). apply list_elem_of_In, filter_In in Hin as [Hin _].
  apply list_elem_of_In in Hin. rewrite hash_order_perm in Hin. apply elem_of_map_to_list in Hin.
  by apply reg_replicas0 in Hin.
Qed.
Lemma typed_reconcile : typed (λ _, True) (reconcile_protected_artifacts describe).
Proof.
  unfold reconcile_protected_artifacts, fetch_probe_cursor. typed_step. case_match; [typed|]. do 2 typed_step.
  eapply typed_bind; [apply typed_read|cbn beta]. intros protected (s & Hs & ->). typed_step.
  apply (typed_bind (λ _, True)); [typed|intros cursor _].
  apply typed_reconcile_each, grouped_digest. by apply protected_digest.
Qed.
#[local] Hint Resolve typed_reconcile : registry.
Lemma typed_repair : typed (λ _, True) (repair_protected_artifacts describe).
Proof. unfold repair_protected_artifacts. typed. Qed.
Lemma typed_self_scan : typed (λ _, True) self_scan.
Proof. unfold self_scan. typed. Qed.

(** ** Remote Assist *)

Lemma desktop_lease_session governor offer endpoint session_id mode limits epoch t lease_id nonce_id lease :
  Governor.authorize_remote_desktop_at_epoch governor offer endpoint session_id mode limits epoch t lease_id nonce_id
  = Ok lease → RemoteDesktopLeaseV1.session_id lease = session_id.
Proof. unfold Governor.authorize_remote_desktop_at_epoch. repeat case_match; try done; by intros [= <-]. Qed.
Lemma typed_authorize_session status offer session_id mode limits :
  typed (λ lease, RemoteDesktopLeaseV1.session_id lease = session_id)
    (authorize_session status offer session_id mode limits).
Proof.
  unfold authorize_session. do 6 typed_step.
  eapply typed_conseq; [apply typed_denied|cbn beta]. intros lease. apply desktop_lease_session.
Qed.
Lemma typed_set_session session_id session :
  RemoteDesktopLeaseV1.session_id (RemoteDesktopSession.lease session) = session_id →
  typed (λ _, True) (set_session session_id session).
Proof. intros Hid. apply typed_modify. intros s []. split; cbn; try done. by apply map_Forall_insert_2. Qed.
Lemma typed_drop_session session_id : typed (λ _, True) (drop_session session_id).
Proof. apply typed_modify. intros s []. split; cbn; try done. by apply map_Forall_delete. Qed.
Lemma typed_request_for lease action sequence events :
  typed (λ _, True) (remote_desktop_request_for lease action sequence events).
Proof. unfold remote_desktop_request_for. typed. Qed.
Lemma typed_call_worker endpoint request message : typed (λ _, True) (call_worker endpoint request message).
Proof. unfold call_worker. typed. Qed.
#[local] Hint Resolve typed_authorize_session typed_set_session typed_drop_session typed_request_for typed_call_worker
  : registry.

Lemma typed_open_assist request : typed (λ _, True) (open_remote_desktop request).
Proof.
  unfold open_remote_desktop. do 2 typed_step.
  eapply typed_bind; [apply typed_modify|intros _ _].
  { intros s []. split; cbn; try done. by apply map_Forall_kept. }
  do 3 typed_step. eapply typed_bind; [apply typed_remote_offer|intros [offer endpoint] _]. typed.
Qed.
Lemma typed_current_session session_id : typed (λ _, True) (current_remote_desktop_session session_id).
Proof.
  unfold current_remote_desktop_session. do 3 typed_step. case_match; [typed|].
  eapply typed_bind; [apply typed_remote_offer|intros [offer endpoint] _]. case_match; typed.
Qed.
#[local] Hint Resolve typed_current_session : registry.
Lemma typed_assist_frame session_id : typed (λ _, True) (remote_desktop_frame session_id).
Proof. unfold remote_desktop_frame. typed. Qed.
Lemma typed_note_control session_id : typed (λ _, True) (note_control session_id).
Proof.
  unfold note_control. eapply typed_bind; [apply typed_read|cbn beta]. intros sessions (s & [] & ->).
  destruct (AppState.remote_desktop_sessions s !! session_id) eqn:E; [|typed]. apply reg_sessions0 in E. typed.
Qed.
#[local] Hint Resolve typed_note_control : registry.
Lemma typed_assist_input session_id input : typed (λ _, True) (remote_desktop_input session_id input).
Proof. unfold remote_desktop_input. typed. Qed.
Lemma typed_close_assist session_id : typed (λ _, True) (close_remote_desktop session_id).
Proof. unfold close_remote_desktop. typed. Qed.

(** ** Models and dividends *)

Lemma typed_fail_with {A} (P : A → Prop) failure : typed P (fail_with failure).
Proof. apply typed_fail. Qed.
Lemma typed_reject_with b failure : typed (λ _, True) (reject_with b failure).
Proof. by destruct b. Qed.
#[local] Hint Resolve typed_fail_with typed_reject_with : registry.
Lemma typed_start_invocation request limit : typed (λ _, True) (start_model_invocation request limit).
Proof. unfold start_model_invocation, evidence. typed. Qed.
Lemma typed_await_frame invocation stream : typed (λ _, True) (await_frame invocation stream).
Proof. unfold await_frame. typed. Qed.
Lemma typed_finish invocation frame expected output :
  typed (λ _, True) (finish_invocation invocation frame expected output).
Proof. unfold finish_invocation, verify_terminal_model_receipt, evidence. typed. Qed.
#[local] Hint Resolve typed_start_invocation typed_await_frame typed_finish : registry.
Lemma typed_consume invocation format : typed (λ _, True) (consume_model_invocation invocation format).
Proof.
  unfold consume_model_invocation. generalize (S (String.length (receive (ActiveModelInvocation.stream invocation)))).
  generalize (ActiveModelInvocation.stream invocation), 0, "", (@nil string). intros stream expected output events fuel.
  revert stream expected output events. induction fuel; cbn [consume_frames]; typed.
Qed.
#[local] Hint Resolve typed_consume : registry.
Lemma typed_chat payload : typed (λ _, True) (openai_chat_completions describe payload).
Proof. unfold openai_chat_completions, forget_session. typed. Qed.
Lemma typed_anthropic payload : typed (λ _, True) (anthropic_messages describe payload).
Proof. unfold anthropic_messages, forget_session. typed. Qed.
Lemma typed_cancel session_id : typed (λ _, True) (cancel_model_session session_id).
Proof. unfold cancel_model_session. typed. Qed.
Lemma typed_record_dividend result : typed (λ _, True) (record_dividend result).
Proof. unfold record_dividend, validate_dividend_evidence, validate_node, job_events. typed. Qed.

(** ** The replay *)

Definition restored_registry (r : Restored.t) : Prop :=
  map_Forall (λ k n, NodeIdentityV1.node_id n = k) (Restored.nodes r) ∧
  map_Forall (λ k r, ShardSetV1.set_id (ShardSetRecord.spec r) = k) (Restored.shard_sets r) ∧
  map_Forall (λ k a, ArtifactRefV1.digest a = k.1) (Restored.artifact_replicas r) ∧
  map_Forall proves (Restored.replica_evidence r).

Lemma try_fold_inv {E A B} (P : A → Prop) (f : A → B → result E A) l :
  (∀ a x b, P a → x ∈ l → f a x = Ok b → P b) → ∀ a b, P a → try_fold f a l = Ok b → P b.
Proof.
  induction l as [|x l IH]; intros Hf a b Ha H; cbn in H; [by injection H as <-|].
  destruct (f a x) as [a'|] eqn:Hx; [|done]. eapply IH; [|eapply Hf, Hx|exact H]; [|done|by left].
  intros. eapply Hf; [done|by right|done].
Qed.

Lemma replica_receipt_proves t node_id artifact payload r receipt :
  map_Forall (λ k n, NodeIdentityV1.node_id n = k) (Restored.nodes r) →
  replica_receipt_of t node_id artifact payload r = Some receipt →
  proves (ArtifactRefV1.digest artifact, node_id) receipt.
Proof.
  intros Hn. unfold replica_receipt_of. intros (receipt' & _ & H)%bind_Some.
  case_match; [|done]. injection H as ->. bool_prop.
  destruct (Restored.nodes r !! node_id) as [identity|] eqn:E; [|done]. cbn in *. apply Hn in E.
  split_and!; [done|done|]. exists identity, t. split; [done|].
  by destruct (verify_artifact_replica_receipt t identity receipt) as [[]|].
Qed.

Lemma restore_event_registry t verified_at epoch r event r' :
  restored_registry r → restore_event t verified_at epoch r event = Ok r' → restored_registry r'.
Proof.
  intros (Hn & Hs & Ha & He). unfold restore_event.
  destruct (_ == "node.enrolled").
  { intros (identity & _ & [= <-])%bind_ok_inv. split_and!; try done. by apply map_Forall_insert_2. }
  destruct (_ == "node.revoked").
  { intros [= <-]. case_match; [|done]. split_and!; cbn; first [by apply map_Forall_delete|by apply map_Forall_kept]. }
  destruct (_ == "enrollment.invite.created").
  { unfold restore_invite. repeat case_match; intros Hok; try (by injection Hok as <-).
    all: apply bind_ok_inv in Hok as (? & _ & Hok); apply bind_ok_inv in Hok as (? & _ & Hok); injection Hok as <-;
      by case_match. }
  destruct (_ == "enrollment.invite.consumed"); [intros [= <-]; by case_match|].
  destruct (_ == "job.proposed"); [by intros (? & _ & [= <-])%bind_ok_inv|].
  destruct (_ == "lease.issued").
  { case_match; [by intros (? & _ & [= <-])%bind_ok_inv|by intros [= <-]]. }
  destruct (_ == "shard_set.admitted").
  { unfold restore_set. repeat case_match; try (by intros [= <-]).
    intros (set & _ & (leases & _ & [= <-])%bind_ok_inv)%bind_ok_inv. split_and!; try done. by apply map_Forall_insert_2. }
  destruct (_ == "job.claimed"); [intros [= <-]; by case_match|].
  destruct (_ == "job.receipted"); [intros [= <-]; by repeat case_match|].
  destruct (bool_decide _).
  { unfold restore_replica. repeat case_match; try (by intros [= <-]).
    intros (artifact & _ & [= <-])%bind_ok_inv.
    destruct (replica_receipt_of _ _ _ _ _) as [receipt|] eqn:Hr; split_and!; cbn; try done;
      apply map_Forall_insert_2; try done. by eapply replica_receipt_proves, Hr. }
  destruct (_ == "artifact.replica.invalidated"); [|by intros [= <-]].
  intros [= <-]. unfold restore_invalidated. repeat case_match; try done. split_and!; try done. by apply map_Forall_delete.
Qed.

Lemma restore_offer_registry t l offers node_id offers' :
  map_Forall (λ k o, ResourceOfferV1.node_id o = k) offers → restore_offer t l offers node_id = Ok offers' →
  map_Forall (λ k o, ResourceOfferV1.node_id o = k) offers'.
Proof.
  intros Ho. unfold restore_offer. intros (newest & _ & H)%bind_ok_inv. destruct newest; [|by injection H as <-].
  apply bind_ok_inv in H as (offer & _ & H). injection H as <-. case_match; [|done]. bool_prop.
  by apply map_Forall_insert_2.
Qed.

Lemma restored_registries t verified_at l epoch r offers :
  restore_state t verified_at l epoch = Some (Ok (r, offers)) →
  restored_registry r ∧ map_Forall (λ k o, ResourceOfferV1.node_id o = k) offers.
Proof.
  unfold restore_state. destruct (read_classes _ _) as [[events|]|]; [|done|done]. intros [= H].
  apply bind_ok_inv in H as (r1 & Hr & H). apply bind_ok_inv in H as (offers1 & Hof & H). injection H as <- <-. split.
  - refine (try_fold_inv restored_registry _ _ _ Restored.init _ _ Hr); [|by split_and!].
    intros ?????. by apply restore_event_registry.
  - refine (try_fold_inv (map_Forall (λ k o, ResourceOfferV1.node_id o = k)) _ _ _ ∅ _ _ Hof); [|done].
    intros ?????. by apply restore_offer_registry.
Qed.

Context {wire_checkpoint : Wire LedgerCheckpoint.t}.
Lemma typed_start_or_die {E A} (r : result E A) : typed (λ a, r = Ok a) (start_or_die r).
Proof. by destruct r. Qed.
#[local] Hint Resolve typed_start_or_die : registry.
Lemma typed_found {A} (o : option A) : typed (λ _, True) (found o).
Proof. by destruct o. Qed.
Lemma typed_succeeded b : typed (λ _, True) (succeeded b).
Proof. apply typed_found. Qed.
#[local] Hint Resolve typed_found typed_succeeded : registry.
Lemma typed_startup around verified_at : typed (λ _, True) (startup around verified_at).
Proof.
  unfold startup. do 5 typed_step. apply (typed_bind (λ _, True)).
  { unfold startup_epoch, write_stop_epoch_marker. typed. }
  intros epoch _. do 6 typed_step.
  eapply typed_bind; [apply typed_unwrap|cbn beta]. intros restored Hr.
  eapply typed_bind; [apply typed_start_or_die|cbn beta]. intros [r offers] ->.
  destruct (restored_registries _ _ _ _ _ _ Hr) as [(Hn & Hs & Ha & He) Ho]. do 4 typed_step.
  eapply typed_bind; [apply typed_modify|intros _ _; typed]. intros s _. split; cbn; try done.
Qed.
End registry.

(** ** What a computation writes into the ledger *)

(** Nothing changes the ledger but appends of other types than the epoch event, and epoch
    advances, at the times the clock gives. *)

Create HintDb logs discriminated.

Section evidence.
Context {codec : Codec} {crypto : Crypto} {ser : Serializer} {vault : Vault} {render : Render}
        {order : HashOrder} {wire : ContractWire} {iroh : Iroh} {base64 : Base64}.
Context {wire_model_lease : Wire ModelSessionLeaseV1.t} {wire_model_receipt : Wire ModelExecutionReceiptV1.t}
        {wire_desktop_lease : Wire RemoteDesktopLeaseV1.t} {wire_desktop_frame : Wire RemoteDesktopFrameV1.t}
        {wire_checkpoint : Wire LedgerCheckpoint.t}.
Context (describe : Failure.reason → string).

Definition logs {A} (m : M A) : Prop :=
  ∀ env c, (∀ n, four_digit_year (clock env n)) →
  rtc Ledger.step (AppState.ledger c.2) (AppState.ledger (m env c).2.2).

Lemma logs_ret {A} (a : A) : logs (mret a).
Proof. constructor. Qed.
Lemma logs_bind {A B} (m : M A) (f : A → M B) : logs m → (∀ a, logs (f a)) → logs (m ≫= f).
Proof.
  intros Hm Hf env c Hc. specialize (Hm env c Hc). unfold mbind, M_bind.
  destruct (m env c) as [[a|e] c']; [|done]. etrans; [exact Hm|]. by apply Hf.
Qed.
Lemma logs_read {A} (f : AppState.t → A) : logs (read f).
Proof. constructor. Qed.
Lemma logs_ask {A} (f : Env → A) : logs (ask f).
Proof. constructor. Qed.
Lemma logs_now : logs now.
Proof. constructor. Qed.
Lemma logs_fresh : logs fresh_uuid.
Proof. constructor. Qed.
Lemma logs_await : logs await.
Proof. constructor. Qed.
Lemma logs_fail {A} status why : logs (fail (A := A) status why).
Proof. constructor. Qed.
Lemma logs_fail_with {A} failure : logs (fail_with (A := A) failure).
Proof. constructor. Qed.
Lemma logs_lift {E A} status (why : E → Failure.reason) (r : result E A) : logs (lift status why r).
Proof. destruct r; constructor. Qed.
Lemma logs_expect {A} status message (o : option A) : logs (expect status message o).
Proof. destruct o; constructor. Qed.
Lemma logs_unwrap {A} (o : option A) : logs (unwrap o).
Proof. destruct o; constructor. Qed.
Lemma logs_reject_if b status message : logs (reject_if b status message).
Proof. destruct b; constructor. Qed.
Lemma logs_reject_with b failure : logs (reject_with b failure).
Proof. destruct b; constructor. Qed.
Lemma logs_found {A} (o : option A) : logs (found o).
Proof. destruct o; constructor. Qed.
Lemma logs_start_or_die {E A} (r : result E A) : logs (start_or_die r).
Proof. destruct r; constructor. Qed.
Lemma logs_modify f : (∀ s, AppState.ledger (f s) = AppState.ledger s) → logs (modify f).
Proof. intros Hf env c _. cbn. rewrite Hf. constructor. Qed.
Lemma logs_attempt {A} (m : M A) : logs m → logs (attempt m).
Proof. intros Hm env c Hc. specialize (Hm env c Hc). unfold attempt. by destruct (m env c). Qed.
Lemma logs_map_failure {A} f (m : M A) : logs m → logs (map_failure f m).
Proof. intros Hm env c Hc. specialize (Hm env c Hc). unfold map_failure. by destruct (m env c). Qed.
Lemma logs_for_each {A} (f : A → M ()) l : (∀ x, logs (f x)) → logs (for_each f l).
Proof. intros Hf. induction l; [apply logs_ret|]. by apply logs_bind. Qed.
Lemma logs_collect {A B} (f : A → M B) l : (∀ x, logs (f x)) → logs (collect f l).
Proof.
  intros Hf. induction l; [apply logs_ret|]. apply logs_bind; [done|]. intros y. apply logs_bind; [done|].
  intros ys. apply logs_ret.
Qed.
Lemma logs_append ty subject payload : ty ≠ Ledger.EPOCH_EVENT → logs (append ty subject payload).
Proof.
  intros Hty env c Hc. unfold append. destruct (Ledger.append _ _ _ _ _) as [[l e]|] eqn:Happ; [|constructor].
  by eapply rtc_once, Ledger.step_append.
Qed.
Lemma logs_advance scope : logs (advance_fencing_epoch scope).
Proof.
  intros env c Hc. unfold advance_fencing_epoch.
  destruct (Ledger.advance_fencing_epoch _ _ _) as [[l e]|] eqn:Hadv; [|constructor].
  by eapply rtc_once, Ledger.step_advance.
Qed.
Lemma logs_over_mesh {A} status destination alpn message (call : Link → result Fault A) :
  logs (over_mesh status destination alpn message call).
Proof. intros env c _. unfold over_mesh. cbn [fst snd]. repeat case_match; constructor. Qed.
Lemma logs_on_local_store {A} status
    (f : DateTime → (nat → string) → CasStore.t → result StorageError.t A * CasStore.t) :
  logs (on_local_store status f).
Proof. intros env c _. unfold on_local_store. destruct (f _ _ _). constructor. Qed.

#[local] Hint Resolve logs_ret logs_read logs_ask logs_now logs_fresh logs_await logs_fail logs_fail_with logs_lift
  logs_expect logs_unwrap logs_reject_if logs_reject_with logs_found logs_start_or_die logs_advance logs_over_mesh
  logs_on_local_store logs_attempt logs_map_failure : logs.
Ltac logs :=
  repeat (intros; first
    [ solve [eauto 3 with logs] | apply logs_bind | apply logs_for_each | apply logs_collect
    | apply logs_attempt | apply logs_map_failure
    | apply logs_append; discriminate | apply logs_modify; reflexivity | case_match ]).

Lemma logs_members members s : AppState.ledger (foldl record_member s members) = AppState.ledger s.
Proof. revert s. induction members as [|[[job lease] placement] members IH]; intros s; [done|]. cbn. by rewrite IH. Qed.

Lemma logs_stopped : logs reject_if_stopped.
Proof. unfold reject_if_stopped. logs. Qed.
Lemma logs_arrival : logs reject_if_stopped_on_arrival.
Proof. unfold reject_if_stopped_on_arrival. logs. Qed.
Lemma logs_diagnostics : logs refresh_diagnostics.
Proof. unfold refresh_diagnostics. logs. Qed.
Lemma logs_evidence_of offer lease session_id nonce receipt :
  logs (verify_replica_evidence offer lease session_id nonce receipt).
Proof. unfold verify_replica_evidence, ensure, denied. logs. Qed.
Lemma logs_transfer {A} status endpoint context action index digest payload (call : Link → Uuid → result Fault A) :
  logs (transfer status endpoint context action index digest payload call).
Proof. unfold transfer. logs. Qed.
#[local] Hint Resolve logs_stopped logs_arrival logs_diagnostics logs_evidence_of logs_transfer : logs.
Lemma logs_replicate offer endpoint source class : logs (replicate_to_offer offer endpoint source class).
Proof. unfold replicate_to_offer, denied, send_chunk, ensure. logs. Qed.
#[local] Hint Resolve logs_replicate : logs.
Lemma logs_stage offer job : logs (stage_job_inputs offer job).
Proof. unfold stage_job_inputs, stage_input. logs. Qed.
Lemma logs_authorize status job offer node : logs (authorize status job offer node).
Proof. unfold authorize, denied. logs. Qed.
Lemma logs_retain book : logs (retain_unexpired book).
Proof. induction book; cbn [retain_unexpired]; logs. Qed.
#[local] Hint Resolve logs_stage logs_authorize logs_retain : logs.
Lemma logs_admit_set t set : logs (admit_set t set).
Proof.
  unfold admit_set, check_member, stage_member, authorize_member. logs.
  apply logs_modify. intros s. unfold record_set. cbn. by rewrite logs_members.
Qed.
Lemma logs_recall candidate events : logs (recall_canaries candidate events).
Proof. induction events; cbn [recall_canaries]; unfold recall_canary; logs. Qed.
Lemma logs_remote_offer node_id : logs (remote_offer node_id).
Proof. unfold remote_offer. logs. Qed.
Lemma logs_read_lease status offer artifact : logs (read_lease status offer artifact).
Proof. unfold read_lease, denied. logs. Qed.
#[local] Hint Resolve logs_admit_set logs_recall logs_remote_offer logs_read_lease : logs.
Lemma logs_probe offer artifact : logs (probe_replica offer artifact).
Proof. unfold probe_replica, ensure. logs. Qed.
#[local] Hint Resolve logs_probe : logs.
Lemma logs_retrieve_chunks offer endpoint remote session_id sink lease first missing lease_ids :
  logs (retrieve_chunks offer endpoint remote session_id sink lease first missing lease_ids).
Proof.
  revert lease first lease_ids. induction missing; cbn [retrieve_chunks]; unfold retrieve_chunk; logs.
Qed.
#[local] Hint Resolve logs_retrieve_chunks : logs.
Lemma logs_retrieve request : logs (retrieve_artifact request).
Proof. unfold retrieve_artifact. logs. Qed.
Lemma logs_probe_recorded offers selected digest artifact nodes verified :
  logs (probe_recorded describe offers selected digest artifact nodes verified).
Proof. revert verified. induction nodes; cbn [probe_recorded]; unfold invalidate_replica; logs. Qed.
Lemma logs_repair_onto offers digest source verified repairs :
  logs (repair_onto describe offers digest source verified repairs).
Proof. revert verified repairs. induction offers; cbn [repair_onto]; logs. Qed.
#[local] Hint Resolve logs_probe_recorded logs_repair_onto : logs.
Lemma logs_reconcile_each t offers evidence selected entries repairs :
  logs (reconcile_each describe t offers evidence selected entries repairs).
Proof. revert repairs. induction entries; cbn [reconcile_each]; unfold reconcile_digest; logs. Qed.
#[local] Hint Resolve logs_reconcile_each : logs.
Lemma logs_reconcile : logs (reconcile_protected_artifacts describe).
Proof. unfold reconcile_protected_artifacts, fetch_probe_cursor. logs. Qed.
Lemma logs_authorize_session status offer session_id mode limits :
  logs (authorize_session status offer session_id mode limits).
Proof. unfold authorize_session, denied. logs. Qed.
Lemma logs_call_worker endpoint request message : logs (call_worker endpoint request message).
Proof. unfold call_worker. logs. Qed.
#[local] Hint Resolve logs_reconcile logs_authorize_session logs_call_worker : logs.
Lemma logs_current_session session_id : logs (current_remote_desktop_session session_id).
Proof. unfold current_remote_desktop_session, set_session, drop_session. logs. Qed.
#[local] Hint Resolve logs_current_session : logs.
Lemma logs_start_invocation request limit : logs (start_model_invocation request limit).
Proof. unfold start_model_invocation, evidence. logs. Qed.
Lemma logs_consume invocation format : logs (consume_model_invocation invocation format).
Proof.
  unfold consume_model_invocation. generalize (S (String.length (receive (ActiveModelInvocation.stream invocation)))).
  generalize (ActiveModelInvocation.stream invocation), 0, "", (@nil string). intros stream expected output events fuel.
  revert stream expected output events. induction fuel; cbn [consume_frames];
    unfold await_frame, finish_invocation, verify_terminal_model_receipt, evidence; logs.
Qed.
#[local] Hint Resolve logs_start_invocation logs_consume : logs.
Lemma logs_startup around verified_at : logs (startup around verified_at).
Proof. unfold startup, startup_epoch, write_stop_epoch_marker, succeeded. logs. Qed.
#[local] Hint Resolve logs_retrieve logs_startup : logs.

Lemma logs_create_invite : logs create_invite.
Proof. unfold create_invite. logs. Qed.
Lemma logs_enroll request : logs (enroll_node request).
Proof. unfold enroll_node, denied. logs. Qed.
Lemma logs_revoke node_id confirmation : logs (revoke_node node_id confirmation).
Proof. unfold revoke_node, cancel_model_sessions. logs. Qed.
Lemma logs_stop : logs local_stop.
Proof. unfold local_stop, write_stop_epoch_marker, cancel_model_sessions. logs. Qed.
Lemma logs_resume confirmation : logs (local_resume confirmation).
Proof. unfold local_resume. logs. Qed.
Lemma logs_register_offer offer : logs (register_offer offer).
Proof. unfold register_offer, check_offer_endpoint, denied. logs. Qed.
Lemma logs_submit_job job : logs (submit_job job).
Proof. unfold submit_job, admit_job, try_gate. logs. Qed.
Lemma logs_submit_set set : logs (submit_shard_set set).
Proof. unfold submit_shard_set, try_gate. logs. Qed.
Lemma logs_plan_set set : logs (plan_shard_set_request set).
Proof. unfold plan_shard_set_request, try_gate. logs. Qed.
Lemma logs_claim node_id : logs (claim_work node_id).
Proof. unfold claim_work. logs. Qed.
Lemma logs_receipt receipt : logs (submit_receipt receipt).
Proof. unfold submit_receipt, record_output. logs. Qed.
Lemma logs_list_receipts job_id : logs (list_receipts job_id).
Proof. unfold list_receipts. logs. Qed.
Lemma logs_relay : logs relay_access_manifest.
Proof. unfold relay_access_manifest. logs. Qed.
Lemma logs_canary candidate : logs (authorize_promotion_canary candidate).
Proof. unfold authorize_promotion_canary, denied. logs. Qed.
Lemma logs_put request : logs (put_artifact request).
Proof. unfold put_artifact. logs. Qed.
Lemma logs_replicate_artifact request : logs (replicate_artifact request).
Proof. unfold replicate_artifact. logs. Qed.
Lemma logs_repair : logs (repair_protected_artifacts describe).
Proof. unfold repair_protected_artifacts. logs. Qed.
Lemma logs_self_scan : logs self_scan.
Proof. unfold self_scan. logs. Qed.
Lemma logs_open_assist request : logs (open_remote_desktop request).
Proof. unfold open_remote_desktop, remote_desktop_request_for, set_session, drop_session. logs. Qed.
Lemma logs_assist_frame session_id : logs (remote_desktop_frame session_id).
Proof. unfold remote_desktop_frame, remote_desktop_request_for, set_session, drop_session. logs. Qed.
Lemma logs_assist_input session_id input : logs (remote_desktop_input session_id input).
Proof. unfold remote_desktop_input, note_control, remote_desktop_request_for, set_session, drop_session. logs. Qed.
Lemma logs_close_assist session_id : logs (close_remote_desktop session_id).
Proof. unfold close_remote_desktop, remote_desktop_request_for, set_session, drop_session. logs. Qed.
Lemma logs_chat payload : logs (openai_chat_completions describe payload).
Proof. unfold openai_chat_completions, forget_session. logs. Qed.
Lemma logs_anthropic payload : logs (anthropic_messages describe payload).
Proof. unfold anthropic_messages, forget_session. logs. Qed.
Lemma logs_cancel session_id : logs (cancel_model_session session_id).
Proof. unfold cancel_model_session. logs. Qed.
Lemma logs_record_dividend result : logs (record_dividend result).
Proof. unfold record_dividend, validate_dividend_evidence, validate_node, job_events. logs. Qed.
End evidence.
