(* ===== verification/History.v ===== *)
(** * Histories of the controller

    Any sequence of requests and restarts, each run to its end in surroundings of its own.
    A lease is handed to a worker at most once, and a STOP fences every lease issued before
    it, also when the assignments are rebuilt from the ledger in between. *)

From S2P Require Import Prelude.
From S2P Require Import Codec.
From S2P Require Import Text.
From S2P Require Import Contracts.
From S2P Require Import Wire.
From S2P Require Import Signing.
From S2P Require Import Governor.
From S2P Require Import Scheduler.
From S2P Require Import Storage.
From S2P Require Import StorageFacts.
From S2P Require Import Ledger.
From S2P Require Import Mesh.
From S2P Require Import Economics.
From S2P Require Import ControllerState.
From S2P Require Import Controller.
From S2P Require Import Artifacts.
From S2P Require Import Assist.
From S2P Require Import ModelGateway.
From S2P Require Import Admission.
From S2P Require Import Reports.
From S2P Require Import Packing.
From S2P Require Import Samples.
From S2P Require Import Restore.
From S2P Require Import RestoreFacts.
From S2P Require Import ControllerFacts.
From S2P Require Import HandlersFacts.
From S2P Require Import RegistryFacts.
Import Text Controller Artifacts Assist ModelGateway Admission Reports Restore.
#[local] Open Scope Z_scope.

Module History.

(** The requests, each with the body its handler takes, and the restart of the process. *)
Inductive Request :=
| CreateInvite
| Enroll (request : EnrollmentRequestV1.t)
| Revoke (node_id : Uuid) (confirmation : string)
| Stop
| Resume (confirmation : string)
| RegisterOffer (offer : ResourceOfferV1.t)
| SubmitJob (job : JobSpecV1.t)
| SubmitShardSet (set : ShardSetV1.t)
| PlanShardSet (set : ShardSetV1.t)
| Claim (node_id : Uuid)
| SubmitReceipt (receipt : ExecutionReceiptV1.t)
| ListReceipts (job_id : Uuid)
| RelayAccess
| PromotionCanary (candidate : PromotionCandidateV1.t)
| PutArtifact (request : ArtifactPutRequest.t)
| Replicate (request : ArtifactReplicateRequest.t)
| Retrieve (request : ArtifactRetrieveRequest.t)
| RepairProtected
| SelfScan
| OpenAssist (request : OpenRemoteDesktopRequest.t)
| AssistFrame (session_id : Uuid)
| AssistInput (session_id : Uuid) (input : RemoteDesktopInputRequest.t)
| CloseAssist (session_id : Uuid)
| ChatCompletion (payload : option OpenAiChatCompletionRequest.t)
| AnthropicMessages (payload : option AnthropicMessagesRequest.t)
| CancelModel (session_id : Uuid)
| RecordDividend (result : FabricBenchmarkResultV1.t)
| Restart (around : Surroundings.t) (verified_at : Z → DateTime).

Section history.
Context {codec : Codec} {crypto : Crypto} {ser : Serializer} {vault : Vault} {render : Render}
        {order : HashOrder} {wire : ContractWire} {iroh : Iroh} {wire_checkpoint : Wire LedgerCheckpoint.t} {base64 : Base64}
    {wire_model_lease : Wire ModelSessionLeaseV1.t} {wire_model_receipt : Wire ModelExecutionReceiptV1.t}
    {wire_desktop_lease : Wire RemoteDesktopLeaseV1.t} {wire_desktop_frame : Wire RemoteDesktopFrameV1.t}.
(** The text of an error. *)
Context (describe : Failure.reason → string).

(** The handler of a request, and the claim it hands out. *)
Definition handle (request : Request) : M (option WorkClaimV1.t) :=
  let quiet {A} (m : M A) : M (option WorkClaimV1.t) := (_ ← m; mret None) in
  match request with
  | CreateInvite => quiet create_invite
  | Enroll request => quiet (enroll_node request)
  | Revoke node_id confirmation => quiet (revoke_node node_id confirmation)
  | Stop => quiet local_stop
  | Resume confirmation => quiet (local_resume confirmation)
  | RegisterOffer offer => quiet (register_offer offer)
  | SubmitJob job => quiet (submit_job job)
  | SubmitShardSet set => quiet (submit_shard_set set)
  | PlanShardSet set => quiet (plan_shard_set_request set)
  | Claim node_id => claim_work node_id
  | SubmitReceipt receipt => quiet (submit_receipt receipt)
  | ListReceipts job_id => quiet (list_receipts job_id)
  | RelayAccess => quiet relay_access_manifest
  | PromotionCanary candidate => quiet (authorize_promotion_canary candidate)
  | PutArtifact request => quiet (put_artifact request)
  | Replicate request => quiet (replicate_artifact request)
  | Retrieve request => quiet (retrieve_artifact request)
  | RepairProtected => quiet (repair_protected_artifacts describe)
  | SelfScan => quiet self_scan
  | OpenAssist request => quiet (open_remote_desktop request)
  | AssistFrame session_id => quiet (remote_desktop_frame session_id)
  | AssistInput session_id input => quiet (remote_desktop_input session_id input)
  | CloseAssist session_id => quiet (close_remote_desktop session_id)
  | ChatCompletion payload => quiet (openai_chat_completions describe payload)
  | AnthropicMessages payload => quiet (anthropic_messages describe payload)
  | CancelModel session_id => quiet (cancel_model_session session_id)
  | RecordDividend result => quiet (record_dividend result)
  | Restart around verified_at => quiet (startup around verified_at)
  end.

(** The claims of a history, in order, and where it ends. *)
Fixpoint run (steps : list (Env * Request)) (c : nat * AppState.t) : list WorkClaimV1.t * (nat * AppState.t) :=
  match steps with
  | [] => ([], c)
  | (env, request) :: steps =>
      match handle request env c with
      | (Ok (Some claim), c') => let '(claims, c'') := run steps c' in (claim :: claims, c'')
      | (_, c') => run steps c'
      end
  end.

(** A new data directory, before the first start. *)
Definition claimed_lease (claim : WorkClaimV1.t) : Uuid :=
  CapabilityLeaseV1.lease_id (WorkClaimV1.lease claim).

(** ** Facts *)

Lemma handle_typed request : typed (λ _, True) (handle request).
Proof.
  assert (∀ A (m : M A), typed (λ _, True) m → typed (λ _, True) (_ ← m; mret (None : option WorkClaimV1.t))) as Hquiet.
  { intros A m Hm. eapply typed_bind; [exact Hm|intros _ _]. by apply typed_ret. }
  destruct request; cbn [handle]; try apply Hquiet;
    eauto using typed_create_invite, typed_enroll, typed_revoke, typed_stop, typed_resume, typed_register_offer,
      typed_submit_job, typed_submit_set, typed_plan_set, typed_claim, typed_receipt, typed_list_receipts,
      typed_relay, typed_canary, typed_startup, typed_put, typed_replicate_artifact, typed_retrieve, typed_repair,
      typed_self_scan, typed_open_assist, typed_assist_frame, typed_assist_input, typed_close_assist, typed_chat,
      typed_anthropic, typed_cancel, typed_record_dividend.
Qed.

Lemma logs_handle request : logs (handle request).
Proof.
  assert (∀ A (m : M A), logs m → logs (_ ← m; mret (None : option WorkClaimV1.t))) as Hquiet.
  { intros A m Hm. apply logs_bind; [exact Hm|]. intros _. apply logs_ret. }
  destruct request; cbn [handle]; try apply Hquiet;
    eauto using logs_create_invite, logs_enroll, logs_revoke, logs_stop, logs_resume, logs_register_offer,
      logs_submit_job, logs_submit_set, logs_plan_set, logs_claim, logs_receipt, logs_list_receipts, logs_relay,
      logs_canary, logs_startup, logs_put, logs_replicate_artifact, logs_retrieve, logs_repair, logs_self_scan,
      logs_open_assist, logs_assist_frame, logs_assist_input, logs_close_assist, logs_chat, logs_anthropic,
      logs_cancel, logs_record_dividend.
Qed.

(** Whatever requests and restarts came, the ledger is one that appends and advances wrote. *)
Definition dated (env : Env) : Prop := ∀ n, four_digit_year (clock env n).
Lemma run_written governor store steps :
  Forall (λ step, dated step.1) steps →
  Ledger.written (AppState.ledger (run steps (0%nat, installed governor store)).2.2).
Proof.
  assert (Ledger.written (AppState.ledger (0%nat, installed governor store).2)) as Hstart by constructor.
  revert Hstart. generalize (0%nat, installed governor store) as c.
  induction steps as [|[env request] steps IH]; intros c Hc Hsteps; cbn [run]; [done|].
  apply Forall_cons in Hsteps as [Henv Hsteps].
  pose proof (logs_handle request env c Henv) as Hlog.
  destruct (handle request env c) as [[[claim|]|] c']; cbn in Hlog.
  1: assert (Ledger.written (AppState.ledger c'.2)) as Hc' by (unfold Ledger.written in *; by etrans);
     specialize (IH c' Hc' Hsteps); by destruct (run steps c').
  all: apply IH; [unfold Ledger.written in *; by etrans|done].
Qed.

Lemma run_registry governor store steps :
  registry (run steps (0%nat, installed governor store)).2.2.
Proof.
  assert (registry (installed governor store)) as Hstart by (split; apply map_Forall_empty).
  change (installed governor store) with (0%nat, installed governor store).2 in Hstart.
  revert Hstart. generalize (0%nat, installed governor store) as c.
  induction steps as [|[env request] steps IH]; intros c Hc; cbn [run]; [done|].
  destruct (handle_typed request env c Hc) as [Hc' _].
  destruct (handle request env c) as [[[claim|]|] c']; [|by apply IH..].
  specialize (IH c' Hc'). by destruct (run steps c').
Qed.

(** [C3] Over any history of requests and restarts the controller's registries stay well
    typed: every identity and every offer is kept under its own node, every shard set under its
    id, every replica under its digest, every Remote Assist session under the id its lease
    carries, and what is kept as evidence of a replica is a receipt of that digest by that node
    which an identity of the node verified; this holds after failed requests too. *)
Theorem registries_well_typed governor store steps :
  registry (run steps (0%nat, installed governor store)).2.2.
Proof. apply run_registry. Qed.

(** [C5] After any history, whatever the mesh answers, a retrieval that succeeds hands out
    content of the very address that was asked for: the payload in the response hashes to the
    requested digest and the contract beside it names that digest. *)
Theorem retrieval_is_content_addressed governor store steps env request response :
  (retrieve_artifact request env (run steps (0%nat, installed governor store)).2).1 = Ok response →
  delivers (ArtifactRetrieveRequest.digest request) response.
Proof.
  intros H. destruct (typed_retrieve_delivers request env _ (run_registry governor store steps)) as [_ Hd].
  by rewrite H in Hd.
Qed.

Context {json : JsonLaws codec} {rendering : RenderLaws render} {faithful : FaithfulWire CapabilityLeaseV1.t}.
Context (draw : nat → Uuid) {distinct : Inj (=) (=) draw}.

Lemma installed_inv governor store : I draw 0 [] (0%nat, installed governor store).
Proof.
  exists ∅. split; cbn.
  - intros id [job Hid]. by rewrite lookup_empty in Hid.
  - by intros id ?%not_elem_of_nil.
  - apply map_Forall_empty.
  - apply map_Forall_empty.
  - done.
  - done.
  - done.
  - intros t verified_at epoch events r [= <-] [= <-]. split; apply map_Forall_empty.
Qed.

(** What the invariant says after a request that may hand out a claim. *)
Definition handed_out (lo : Z) (handed : list Uuid) (o : option WorkClaimV1.t) (c : nat * AppState.t) : Prop :=
  match o with
  | None => I draw lo handed c
  | Some claim => claimed_lease claim ∉ handed ∧
      lo ≤ CapabilityLeaseV1.fencing_epoch (WorkClaimV1.lease claim) ∧
      I draw lo (claimed_lease claim :: handed) c
  end.

Lemma safe_stop env : fresh env = draw → safe draw env local_stop.
Proof.
  intros Henv lo handed c [issued HI]. eapply wp_mono; [by apply wp_local_stop|cbn|by exists issued].
  intros x c' (lo' & ? & ? & _). exists issued. by eapply inv_weaken.
Qed.

Lemma handle_step env request lo handed c :
  fresh env = draw → I draw lo handed c →
  wp env (handle request) (handed_out lo handed) (I draw lo handed) c.
Proof.
  intros Henv HI.
  assert (∀ A (m : M A), safe draw env m →
    wp env (_ ← m; mret (None : option WorkClaimV1.t)) (handed_out lo handed) (I draw lo handed) c) as Hquiet.
  { intros A m Hm. apply wp_bind. eapply wp_mono; [by apply Hm|by cbn|done]. }
  destruct request; cbn [handle]; try apply Hquiet;
    eauto using keeps_safe, keeps_create_invite, keeps_enroll_node, keeps_revoke_node, safe_stop, keeps_resume,
      keeps_register_offer, safe_submit_job, safe_submit_set, keeps_plan_set, keeps_receipt, keeps_list_receipts,
      keeps_relay_manifest, keeps_canary, safe_startup, keeps_put_artifact, keeps_replicate_artifact,
      keeps_retrieve_artifact, keeps_repair, keeps_self_scan, keeps_open_assist, keeps_assist_frame,
      keeps_assist_input, keeps_close_assist, keeps_chat, keeps_anthropic, keeps_cancel, keeps_record_dividend.
  by apply wp_claim_work.
Qed.

(** A whole history hands out leases that are new, pairwise distinct and of no old epoch. *)
Lemma run_claims steps lo handed c :
  Forall (λ step, fresh step.1 = draw) steps → I draw lo handed c →
  let '(claims, c') := run steps c in
  NoDup (claimed_lease <$> claims) ∧ Forall (λ claim, claimed_lease claim ∉ handed) claims ∧
  Forall (λ claim, lo ≤ CapabilityLeaseV1.fencing_epoch (WorkClaimV1.lease claim)) claims ∧
  ∃ handed', I draw lo handed' c'.
Proof.
  intros Henv. revert handed c. induction Henv as [|[env request] steps He _ IH]; intros handed c HI; cbn.
  { split_and!; [constructor..|]. by exists handed. }
  pose proof (handle_step env request lo handed c He HI) as Hstep. unfold wp in Hstep.
  destruct (handle request env c) as [[[claim|]|e] c']; [|by apply IH..].
  destruct Hstep as (Hnew & Hepoch & HI'). specialize (IH _ _ HI'). destruct (run steps c') as [claims c''].
  destruct IH as (Hnd & Hfresh & Hepochs & Hend). rewrite Forall_forall in Hfresh.
  split_and!; [|..|done].
  - constructor; [|done]. intros (claim' & Heq & Hin)%list_elem_of_fmap.
    apply (Hfresh _ Hin). rewrite <-Heq. set_solver.
  - constructor; [done|]. apply Forall_forall. intros claim' Hin Hold. apply (Hfresh _ Hin). set_solver.
  - by constructor.
Qed.

Lemma stop_fences steps c1 env epoch status c2 governor store :
  Forall (λ step, fresh step.1 = draw) steps → fresh env = draw →
  (run steps (0%nat, installed governor store)).2 = c1 →
  local_stop env c1 = (Ok (status, (epoch, false)), c2) →
  map_Forall (λ _ a, CapabilityLeaseV1.fencing_epoch (Assignment.lease a) < epoch) (AppState.assignments c1.2) ∧
  ∃ handed, I draw epoch handed c2.
Proof.
  intros Hsteps Henv Hrun Hstop.
  pose proof (run_claims _ _ _ _ Hsteps (installed_inv governor store)) as Hinv.
  destruct (run steps _) as [claims c]. cbn in Hrun. subst c. destruct Hinv as (_ & _ & _ & handed & issued & HI).
  pose proof (wp_local_stop draw env _ _ _ _ HI) as Hwp. unfold wp in Hwp. rewrite Hstop in Hwp.
  destruct Hwp as (lo' & _ & HI2 & Hlo). destruct (Hlo eq_refl) as [Heq Hlt]. cbn in Heq. subst lo'.
  split; [|by exists handed, issued]. intros k a Ha. pose proof (inv_epochs _ _ _ _ _ HI k a Ha). cbn in *. lia.
Qed.
End history.

(** [C1] Over any history of requests and restarts of a controller, in any surroundings whose
    random identifiers do not repeat, no lease is handed to a worker twice: the claims that
    [claim_work] returns carry pairwise different leases. *)
Theorem lease_handed_once {codec : Codec} {json : JsonLaws codec} {crypto : Crypto} {ser : Serializer}
    {vault : Vault} {render : Render} {rendering : RenderLaws render} {order : HashOrder} {wire : ContractWire} {iroh : Iroh}
    {faithful : FaithfulWire CapabilityLeaseV1.t} {wire_checkpoint : Wire LedgerCheckpoint.t} {base64 : Base64}
    {wire_model_lease : Wire ModelSessionLeaseV1.t} {wire_model_receipt : Wire ModelExecutionReceiptV1.t}
    {wire_desktop_lease : Wire RemoteDesktopLeaseV1.t} {wire_desktop_frame : Wire RemoteDesktopFrameV1.t}
    (describe : Failure.reason → string)
    (draw : nat → Uuid) (governor : Governor.t) (store : CasStore.t) (steps : list (Env * Request)) :
  Inj (=) (=) draw → Forall (λ step, fresh step.1 = draw) steps →
  NoDup (claimed_lease <$> (run describe steps (0%nat, installed governor store)).1).
Proof.
  intros Hinj Hsteps. pose proof (run_claims describe draw _ _ _ _ Hsteps (installed_inv draw governor store)) as H.
  destruct (run _). apply H.
Qed.

(** [C2] A STOP that takes effect moves to an epoch above every lease the controller holds,
    and from then on, whatever requests and restarts follow, every claim handed out is of
    that epoch or a later one: no lease issued before the STOP is handed out after it. *)
Theorem stop_fences_history {codec : Codec} {json : JsonLaws codec} {crypto : Crypto} {ser : Serializer}
    {vault : Vault} {render : Render} {rendering : RenderLaws render} {order : HashOrder} {wire : ContractWire} {iroh : Iroh}
    {faithful : FaithfulWire CapabilityLeaseV1.t} {wire_checkpoint : Wire LedgerCheckpoint.t} {base64 : Base64}
    {wire_model_lease : Wire ModelSessionLeaseV1.t} {wire_model_receipt : Wire ModelExecutionReceiptV1.t}
    {wire_desktop_lease : Wire RemoteDesktopLeaseV1.t} {wire_desktop_frame : Wire RemoteDesktopFrameV1.t}
    (describe : Failure.reason → string)
    (draw : nat → Uuid) (governor : Governor.t) (store : CasStore.t) (before after : list (Env * Request))
    (env : Env) (c1 c2 : nat * AppState.t) (epoch status : Z) :
  Inj (=) (=) draw → Forall (λ step, fresh step.1 = draw) (before ++ after) → fresh env = draw →
  (run describe before (0%nat, installed governor store)).2 = c1 →
  local_stop env c1 = (Ok (status, (epoch, false)), c2) →
  map_Forall (λ _ a, CapabilityLeaseV1.fencing_epoch (Assignment.lease a) < epoch) (AppState.assignments c1.2) ∧
  Forall (λ claim, epoch ≤ CapabilityLeaseV1.fencing_epoch (WorkClaimV1.lease claim)) (run describe after c2).1.
Proof.
  intros Hinj [Hbefore Hafter]%Forall_app Henv Hrun Hstop.
  destruct (stop_fences describe draw _ _ _ _ _ _ _ _ Hbefore Henv Hrun Hstop) as (Hheld & handed & HI).
  split; [done|]. pose proof (run_claims describe draw _ _ _ _ Hafter HI) as H. destruct (run describe after c2). apply H.
Qed.

(** ** Concrete instances *)

Module Witness.
Import ReferenceCrypto StorageFacts.Witness Samples.

#[local] Instance sized_json_laws : JsonLaws sized_codec.
Proof.
  split.
  - exact (json_object_inv (JsonLaws := ReferenceWire.reference_json_laws)).
  - exact (json_array_inv (JsonLaws := ReferenceWire.reference_json_laws)).
Qed.
Lemma sized_reparse v : reparse (codec := sized_codec) v = Some v.
Proof. apply ReferenceWire.reference_reparse. Qed.

(** Leases as numbers. *)
#[local] Instance class_countable : Countable ResourceClass.t := finite_countable.
#[local] Instance quantity_eq_dec : EqDecision ResourceQuantityV1.t.
Proof. solve_decision. Defined.
#[local] Instance quantity_countable : Countable ResourceQuantityV1.t.
Proof.
  refine (inj_countable' (λ q, (ResourceQuantityV1.class q, ResourceQuantityV1.capacity q,
      ResourceQuantityV1.available q, ResourceQuantityV1.unit q, ResourceQuantityV1.labels q))
    (λ '(a, b, c, d, e), ResourceQuantityV1.mk a b c d e) _). by intros [].
Defined.
#[local] Instance lease_eq_dec : EqDecision CapabilityLeaseV1.t.
Proof. solve_decision. Defined.
#[local] Instance lease_countable : Countable CapabilityLeaseV1.t.
Proof.
  refine (inj_countable' (λ l : CapabilityLeaseV1.t,
      let '(CapabilityLeaseV1.mk a b c d e f g h i j k l m n o) := l in
      (a, b, c, d, e, f, g, h, (i, j, k, l, m, n, o)))
    (λ '(a, b, c, d, e, f, g, h, (i, j, k, l, m, n, o)), CapabilityLeaseV1.mk a b c d e f g h i j k l m n o) _).
  by intros [].
Defined.
#[local] Instance lease_wire : Wire CapabilityLeaseV1.t := {|
  to_value l := VInt (Zpos (encode l));
  from_value v := match v with VInt (Zpos p) => decode p | _ => None end
|}.
#[local] Instance lease_faithful : FaithfulWire CapabilityLeaseV1.t.
Proof.
  intros x y v Hv. rewrite sized_reparse in Hv. injection Hv as <-. cbn.
  rewrite decode_encode. by intros [= <-].
Qed.

Definition node_key : @SigningKey reference_crypto := "node".
Definition owner_key : @SigningKey reference_crypto := "owner".
Definition governor : Governor.t := Governor.from_signing_key GovernorConfig.default owner_key.
Definition identity : NodeIdentityV1.t :=
  NodeIdentityV1.mk NodeIdentityV1.SCHEMA 7 8 "worker" DeviceKind.Desktop "linux"
    (hex_encode (verifying_key node_key)) 0 0.
Definition offer : ResourceOfferV1.t :=
  sign_offer node_key (ResourceOfferV1.mk "rampage.resource-offer.v1" 5 7 0 (minutes 1)
    [ResourceQuantityV1.mk ResourceClass.CpuCompute 64 64 "cores" {["device_kind" := "desktop"]}]
    (AvailabilityV1.mk true None 80 true true) {["rampage.hash.v1"]} [] [] None None "").
Definition job (job_id : Uuid) (key : string) : JobSpecV1.t :=
  JobSpecV1.mk JobSpecV1.SCHEMA job_id 12 13 "rampage.hash.v1" "hash" ∅ []
    [ResourceRequestV1.mk ResourceClass.CpuCompute 2 4 "cores" ∅]
    WorkloadTrust.NativeTrusted true ∅ (minutes 10) key.

#[local] Instance wire : ContractWire := {|
  wire_identity := table (λ _, 0) [identity];
  wire_job := table JobSpecV1.job_id [job 0 "a"; job 1 "b"; job 2 "c"];
  wire_lease := lease_wire;
  wire_set := unsent;
  wire_claim := unsent;
  wire_receipt := unsent;
  wire_artifact := unsent;
  wire_replica := unsent;
  wire_offer := table (λ _, 0) [offer];
  wire_benchmark := unsent;
  wire_storage_lease := unsent;
  wire_score := unsent;
  wire_placement := unsent;
  wire_constraints := unsent;
  wire_candidate := unsent;
  wire_canary := unsent;
  wire_enrollment := unsent;
  wire_link_probe := unsent;
  wire_result := unsent;
  wire_mesh := packed_mesh_wire
|}.
#[local] Instance checkpoint_wire : Wire LedgerCheckpoint.t := unsent.
#[local] Instance model_lease_wire : Wire ModelSessionLeaseV1.t := unsent.
#[local] Instance model_receipt_wire : Wire ModelExecutionReceiptV1.t := unsent.
#[local] Instance desktop_lease_wire : Wire RemoteDesktopLeaseV1.t := unsent.
#[local] Instance desktop_frame_wire : Wire RemoteDesktopFrameV1.t := unsent.
Definition unnamed (why : Failure.reason) : string := "".

Definition draw (n : nat) : Uuid := Z.of_nat n + 1.
#[local] Instance draw_inj : Inj (=) (=) draw.
Proof. intros a b. unfold draw. lia. Qed.
Definition env : Env :=
  mkEnv (λ _, seconds 1) draw false false "controller" [] [] (λ _, Proceeds) (λ _ _ _, None) (λ _ _, "").
Definition restart : Request :=
  Restart (Surroundings.mk true None true (Some GovernorConfig.default) true (Some VNull) true) (λ _, seconds 1).

Definition start : nat * AppState.t := (0%nat, installed governor (CasStore.open_with_limits None)).
Definition enrollment : EnrollmentRequestV1.t :=
  sign_contract (T := EnrollmentRequestV1.t) node_key
    (EnrollmentRequestV1.mk "rampage.enrollment-request.v1" 8 (uuid_simple 9) identity "").
(* a node is enrolled, offers its cores, and a job is placed on it *)
Definition submitted : list (Env * Request) :=
  pair env <$> [restart; CreateInvite; Enroll enrollment; RegisterOffer offer; SubmitJob (job 0 "a")].
(* the claim, a restart, and a second job *)
Definition claimed : list (Env * Request) :=
  submitted ++ (pair env <$> [Claim 7; restart; Claim 7; SubmitJob (job 1 "b"); Claim 7; Claim 7]).
Definition resumed : list (Env * Request) :=
  pair env <$> [Claim 7; Resume "OWNER_RESUME"; SubmitJob (job 1 "b"); restart; Claim 7; Claim 7].

Lemma claimed_twice : claimed_lease <$> (run unnamed claimed start).1 = [23; 39].
Proof. vm_compute. reflexivity. Qed.

Lemma lease_handed_once_witness :
  ∃ a b, claimed_lease <$> (run unnamed claimed start).1 = [a; b] ∧ a ≠ b.
Proof.
  exists 23, 39. split; [exact claimed_twice|].
  pose proof (lease_handed_once unnamed draw governor (CasStore.open_with_limits None) claimed draw_inj) as H.
  change (0%nat, installed governor _) with start in H. rewrite claimed_twice in H.
  apply NoDup_cons in H as [H _]; [|repeat constructor].
  intros Heq. apply H. apply list_elem_of_singleton. exact Heq.
Defined.

Definition stopped : result Failure.t (Z * (Z * bool)) * (nat * AppState.t) :=
  local_stop env (run unnamed submitted start).2.
Lemma stopped_ok : stopped.1 = Ok (202, (2, false)).
Proof. vm_compute. reflexivity. Qed.
Lemma resumed_claim : claimed_lease <$> (run unnamed resumed stopped.2).1 = [33].
Proof. vm_compute. reflexivity. Qed.

Lemma stop_fences_history_witness :
  ∃ claim, (run unnamed resumed stopped.2).1 = [claim] ∧
    2 ≤ CapabilityLeaseV1.fencing_epoch (WorkClaimV1.lease claim).
Proof.
  destruct (stop_fences_history unnamed draw governor (CasStore.open_with_limits None) submitted resumed env
              (run unnamed submitted start).2 stopped.2 2 202) as [_ Hafter].
  - exact draw_inj.
  - repeat constructor.
  - reflexivity.
  - reflexivity.
  - rewrite <-stopped_ok. exact (surjective_pairing stopped).
  - pose proof resumed_claim as Hone. destruct (run unnamed resumed stopped.2).1 as [|claim [|]]; [done| |done].
    exists claim. split; [reflexivity|]. by apply Forall_cons in Hafter as [? _].
Defined.

(** The idempotency key is the only guard against a second submission: the same job under
    another key replaces the claimed assignment and is handed out again, with a new lease. *)
Example job_resubmitted_under_other_key :
  (λ claim, (JobSpecV1.job_id (WorkClaimV1.job claim), claimed_lease claim)) <$>
    (run unnamed (submitted ++ (pair env <$> [Claim 7; SubmitJob (job 0 "b"); Claim 7])) start).1
  = [(0, 23); (0, 32)].
Proof. vm_compute. reflexivity. Qed.

(** The latch is looked at before the wait for the gate: a job that waited while the owner
    stopped the fabric is admitted, at the new epoch. *)
Example admitted_behind_stop :
  AppState.kill_latch stopped.2.2 = true ∧
  match submit_job (job 1 "b") env stopped.2 with
  | (Ok (status, lease), _) => (status, CapabilityLeaseV1.fencing_epoch lease) = (202, 2)
  | (Err _, _) => False
  end.
Proof. split; vm_compute; reflexivity. Qed.

(** A ledger with one enrollment. *)
Definition ledger : Ledger.t :=
  match Ledger.append (codec := Reference.reference_codec) 1 "node.enrolled" "node" (VInt 0) Ledger.open with
  | Ok (l, _) => l
  | Err _ => Ledger.open
  end.

Lemma restore_is_replay_witness :
  ∃ r offers, restore_state (codec := Reference.reference_codec) 0 (λ _, 0) ledger 1 = Some (Ok (r, offers)) ∧
    Restored.nodes r !! 7 = Some identity.
Proof.
  rewrite (restore_is_replay (laws := Reference.reference_laws) 0 (λ _, 0) 1 ledger).
  - eexists _, _. split; [vm_compute; reflexivity|]. vm_compute. reflexivity.
  - split.
    + eapply rtc_once, Ledger.step_append with (now := 1) (ty := "node.enrolled") (sid := "node") (v := VInt 0).
      * done.
      * unfold four_digit_year. lia.
      * vm_compute. reflexivity.
    + repeat (constructor; [eexists; split; vm_compute; reflexivity|]). constructor.
Defined.
End Witness.
End History.
