(* ===== verification/ArtifactsFacts.v ===== *)
(** * Facts about the artifact endpoints

    The probes of a cycle are bounded; a retrieved payload is the content that was asked for;
    a stopped controller sends and stores nothing. *)

From S2P Require Import Prelude.
From S2P Require Import Codec.
From S2P Require Import Text.
From S2P Require Import Contracts.
From S2P Require Import Wire.
From S2P Require Import Signing.
From S2P Require Import Governor.
From S2P Require Import Storage.
From S2P Require Import StorageFacts.
From S2P Require Import Ledger.
From S2P Require Import Mesh.
From S2P Require Import MeshFacts.
From S2P Require Import Gateway.
From S2P Require Import GatewayFacts.
From S2P Require Import Packing.
From S2P Require Import ControllerState.
From S2P Require Import Controller.
From S2P Require Import Artifacts.
From S2P Require Import Samples.
From S2P Require Import Admission.
From S2P Require Import RegistryFacts.
From S2P Require Import Restore.
From S2P Require Import GovernorFacts.
From S2P Require Import History.
Import Text Controller Artifacts.
#[local] Open Scope Z_scope.

(** ** The choice of probes *)

Definition recorded_bytes (chosen : list Recorded) : Z :=
  zsum ((λ r, ArtifactRefV1.size_bytes r.2) <$> chosen).

(** What the loop has selected: some of the candidates it has seen. *)
Definition chosen_from (seen : list Recorded) (acc : gset (string * Uuid) * Z) : Prop :=
  ∃ chosen, chosen ⊆ seen ∧ acc.1 = list_to_set (recorded_key <$> chosen) ∧ acc.2 = recorded_bytes chosen ∧
    Z.of_nat (size acc.1) ≤ MAX_REPLICA_PROBES_PER_CYCLE ∧
    (recorded_bytes chosen ≤ MAX_REPLICA_VERIFICATION_BYTES_PER_CYCLE ∨ length chosen = 1%nat).

Lemma consider_chosen seen acc candidate : chosen_from seen acc → chosen_from (seen ++ [candidate]) (consider acc candidate).
Proof.
  intros (chosen & Hsub & Hsel & Hbytes & Hsize & Hmax). destruct acc as [selected bytes]. cbn [fst snd] in *.
  assert (chosen_from (seen ++ [candidate]) (selected, bytes)) as Hkeep.
  { exists chosen. split_and!; try done. set_solver. }
  unfold consider. destruct (Z.leb_spec MAX_REPLICA_PROBES_PER_CYCLE (Z.of_nat (size selected))) as [|Hroom]; [done|].
  unfold checked_add. destruct (_ <=? u64_max); [|done]. cbn.
  destruct (Z.ltb_spec MAX_REPLICA_VERIFICATION_BYTES_PER_CYCLE (bytes + ArtifactRefV1.size_bytes candidate.2)) as [Hbig|Hfit].
  - destruct (bool_decide_reflect (selected = ∅)) as [Hempty|]; [|done]. cbn.
    assert (chosen = []) as ->.
    { destruct chosen as [|r chosen]; [done|]. rewrite Hempty in Hsel. cbn in Hsel. set_solver. }
    exists [candidate]. rewrite Hempty, Hbytes. cbn. split_and!; [set_solver|set_solver|unfold recorded_bytes, zsum; cbn; lia| |by right].
    rewrite union_empty_l_L, size_singleton. unfold MAX_REPLICA_PROBES_PER_CYCLE. lia.
  - exists (candidate :: chosen). split_and!.
    + set_solver.
    + cbn. set_solver.
    + cbn. rewrite Hbytes. unfold recorded_bytes, zsum. cbn. lia.
    + cbn [andb fst]. rewrite size_union_alt.
      assert (size ({[recorded_key candidate]} ∖ selected) ≤ size (C := gset (string * Uuid)) {[recorded_key candidate]})%nat
        as Hone by (apply subseteq_size; set_solver).
      rewrite size_singleton in Hone. lia.
    + left. unfold recorded_bytes, zsum in *. cbn. lia.
Qed.

Lemma consider_all todo : ∀ seen acc,
  chosen_from seen acc → chosen_from (seen ++ todo) (foldl consider acc todo).
Proof.
  induction todo as [|r todo IH]; intros seen acc H; cbn; [by rewrite app_nil_r|].
  rewrite cons_middle, app_assoc. by apply IH, consider_chosen.
Qed.

Lemma rotate_perm start candidates : rotate start candidates ≡ₚ candidates.
Proof. unfold rotate. by rewrite (Permutation_app_comm _ _), take_drop. Qed.

Lemma selected_chosen candidates cursor :
  ∃ acc, select_replica_probes candidates cursor = acc.1 ∧ chosen_from candidates acc.
Proof.
  assert (chosen_from [] (∅, 0)) as Hstart.
  { exists []. unfold MAX_REPLICA_PROBES_PER_CYCLE, MAX_REPLICA_VERIFICATION_BYTES_PER_CYCLE.
    split_and!; try done. left. unfold recorded_bytes. cbn. lia. }
  destruct candidates as [|r candidates]; [by exists (∅, 0)|].
  eexists. split; [reflexivity|].
  pose proof (consider_all (rotate (Z.to_nat (cursor `mod` zlen (r :: candidates))) (r :: candidates)) [] _ Hstart)
    as (chosen & Hsub & Hrest).
  exists chosen. split; [|exact Hrest]. cbn [app] in Hsub. by rewrite rotate_perm in Hsub.
Qed.

Lemma consider_grows todo : ∀ acc, acc.1 ⊆ (foldl consider acc todo).1.
Proof.
  induction todo as [|r todo IH]; intros acc; cbn [foldl]; [done|]. etrans; [|apply IH].
  destruct acc as [selected bytes]. unfold consider. repeat case_match; cbn; set_solver.
Qed.

Lemma selected_nonempty candidates cursor :
  candidates ≠ [] → Forall (λ r, ArtifactRefV1.size_bytes r.2 ≤ u64_max) candidates →
  select_replica_probes candidates cursor ≠ ∅.
Proof.
  intros Hne Hu64. unfold select_replica_probes. destruct candidates as [|r0 candidates]; [done|].
  rewrite <-(rotate_perm (Z.to_nat (cursor `mod` zlen (r0 :: candidates)))) in Hu64.
  destruct (rotate _ _) as [|first rest] eqn:E.
  { pose proof (rotate_perm (Z.to_nat (cursor `mod` zlen (r0 :: candidates))) (r0 :: candidates)) as Hp.
    rewrite E in Hp. by apply Permutation_nil_cons in Hp. }
  apply Forall_cons in Hu64 as [Hfirst _]. cbn [foldl].
  assert ((consider (∅, 0) first).1 = {[recorded_key first]}) as Hone.
  { unfold consider, checked_add. rewrite size_empty.
    destruct (Z.leb_spec (0 + ArtifactRefV1.size_bytes first.2) u64_max); [|lia].
    rewrite bool_decide_true by done. cbn [negb]. rewrite andb_false_r.
    cbn [fst]. set_solver. }
  pose proof (consider_grows rest (consider (∅, 0) first)) as Hg. rewrite Hone in Hg.
  intros He. rewrite He in Hg. set_solver.
Qed.

(** The replicas one cycle probes are among the stale ones, at most four, and together at
    most 128 MiB, unless a single larger one takes the whole cycle; when there are stale ones,
    each of a size below two to the power 64, the cycle probes at least one. *)
Theorem probe_selection_bounded candidates cursor :
  let selected := select_replica_probes candidates cursor in
  (∃ chosen, chosen ⊆ candidates ∧ selected = list_to_set (recorded_key <$> chosen) ∧
     (recorded_bytes chosen ≤ MAX_REPLICA_VERIFICATION_BYTES_PER_CYCLE ∨ length chosen = 1%nat)) ∧
  Z.of_nat (size selected) ≤ MAX_REPLICA_PROBES_PER_CYCLE ∧
  (candidates ≠ [] ∧ Forall (λ r, ArtifactRefV1.size_bytes r.2 ≤ u64_max) candidates → selected ≠ ∅).
Proof.
  cbn zeta. split_and!.
  - destruct (selected_chosen candidates cursor) as (acc & -> & chosen & Hsub & Hsel & _ & _ & Hmax). eauto.
  - destruct (selected_chosen candidates cursor) as (acc & -> & chosen & _ & _ & _ & Hsize & _). done.
  - intros [Hne Hu64]. by apply selected_nonempty.
Qed.

(** ** A cursor that starves *)

Module ProbeStarvation.
(** Four stale replicas of 64 MiB, on four nodes. *)
Definition replica (node_id : Uuid) : Recorded :=
  ("d", node_id,
   ArtifactRefV1.mk "rampage.artifact.v1" "d" (64 * 1024 * 1024) "m" StorageClass.Protected true).
Definition stale : list Recorded := replica <$> [0; 1; 2; 3].

(** The cursor starts at zero and moves by the limit on probes, not by the probes made: with
    four candidates every cycle starts at the first and has bytes for two, so that while those
    two stay stale (their nodes have no current offer, say) the others are never probed. *)
Lemma probes_starve cycles :
  select_replica_probes stale ((MAX_REPLICA_PROBES_PER_CYCLE * cycles) `mod` (u64_max + 1))
  = {[("d", 0); ("d", 1)]}.
Proof.
  unfold select_replica_probes, MAX_REPLICA_PROBES_PER_CYCLE.
  change (zlen stale) with 4. change (u64_max + 1) with (4 * 2 ^ 62).
  rewrite Z.mul_mod_distr_l, Z.mul_comm, Z.mod_mul by lia. by vm_compute.
Qed.

End ProbeStarvation.

(** ** An artifact's history *)

(** A controller and the worker it replicates to, as one run: the worker's store is what the
    messages on record made of it. *)
Module ReplicaHistory.
Import ReferenceCrypto StorageFacts.Witness Samples History.
Import History.Witness (unnamed, restart, node_key, governor, identity, draw, start, enrollment).

Definition record : MeshEndpointRecordV1.t :=
  sign_contract (T := MeshEndpointRecordV1.t) node_key
    (MeshEndpointRecordV1.mk MeshEndpointRecordV1.SCHEMA (NodeIdentityV1.public_key identity) ["192.168.0.7:4433"] [] 0 (minutes 1) "").
Definition offer : ResourceOfferV1.t :=
  sign_offer node_key (ResourceOfferV1.mk "rampage.resource-offer.v1" 5 7 0 (minutes 1)
    [ResourceQuantityV1.mk ResourceClass.StorageCache 1024 1024 "bytes" {["device_kind" := "desktop"]}]
    (AvailabilityV1.mk true None 80 true true) ∅ [] [] None (Some record) "").

#[local] Instance wire : ContractWire := {|
  wire_identity := table (λ _, 0) [identity];
  wire_job := unsent; wire_lease := unsent; wire_set := unsent; wire_claim := unsent; wire_receipt := unsent;
  wire_artifact := packed_wire packed_ArtifactRefV1;
  wire_replica := packed_wire packed_ArtifactReplicaReceiptV1;
  wire_offer := table (λ _, 0) [offer];
  wire_benchmark := unsent;
  wire_storage_lease := packed_wire packed_StorageLeaseV1;
  wire_score := unsent; wire_placement := unsent; wire_constraints := unsent; wire_candidate := unsent;
  wire_canary := unsent; wire_enrollment := unsent; wire_link_probe := unsent; wire_result := unsent;
  wire_mesh := packed_mesh_wire
|}.
#[local] Instance checkpoint_wire : Wire LedgerCheckpoint.t := unsent.
#[local] Instance model_lease_wire : Wire ModelSessionLeaseV1.t := unsent.
#[local] Instance model_receipt_wire : Wire ModelExecutionReceiptV1.t := unsent.
#[local] Instance desktop_lease_wire : Wire RemoteDesktopLeaseV1.t := unsent.
#[local] Instance desktop_frame_wire : Wire RemoteDesktopFrameV1.t := unsent.

#[local] Instance request_lossless : Lossless ArtifactTransferRequestV2.t.
Proof. apply packed_lossless. exact Reference.reference_stable. Qed.
#[local] Instance response_lossless : Lossless ArtifactTransferResponseV2.t.
Proof. apply packed_lossless. exact Reference.reference_stable. Qed.

Definition stream : StreamEnv := mkStream (seconds 1) (seconds 1) (seconds 1) (seconds 1) 40 "twelve bytes".
Definition config : WorkerGatewayConfig.t :=
  WorkerGatewayConfig.mk "controller" 7 (Governor.public_key governor) node_key.
Definition failed (e : GatewayError) : string := "failed".
Definition worker_store (sent : list Sent) : CasStore.t :=
  foldl (λ store m, (serve_artifact failed stream config m.2 store).2) (CasStore.open_with_limits None) sent.
Definition env : Env :=
  mkEnv (λ _, seconds 1) draw false false "controller" [] [] (λ _, Proceeds)
    (λ sent _ _, worker_link failed stream config (worker_store sent)) (λ _ _, "twelve bytes").
Definition content : string := "the artifact".
Definition digest : string := CasStore.sha256_digest content.
Definition steps : list (Env * Request) :=
  pair env <$> [restart; CreateInvite; Enroll enrollment; RegisterOffer offer;
                PutArtifact (ArtifactPutRequest.mk (hex_encode content) "text/plain" StorageClass.Cache);
                Replicate (ArtifactReplicateRequest.mk digest 7 "text/plain" StorageClass.Cache)].
Definition request : ArtifactRetrieveRequest.t := ArtifactRetrieveRequest.mk digest 7.
Definition retrieved : result Failure.t Value * (nat * AppState.t) :=
  retrieve_artifact request env (run unnamed steps start).2.

(** The worker is sent a beginning, a chunk and a commit, and then a fetch and a challenge. *)
Example exchanged :
  (λ m, match read_artifact_request m.2 with Ok (r, _) => Some (ArtifactTransferRequestV2.action r) | Err _ => None end)
    <$> AppState.mesh_sent retrieved.2.2
  = Some <$> [ArtifactTransferActionV2.Begin; ArtifactTransferActionV2.PutChunk; ArtifactTransferActionV2.Commit;
              ArtifactTransferActionV2.GetChunk; ArtifactTransferActionV2.Head].
Proof. vm_compute. reflexivity. Qed.

Definition response : Value := match retrieved.1 with Ok v => v | Err _ => VNull end.
Lemma retrieved_ok : retrieved.1 = Ok response ∧ field_str "data_base64" response = Some (hex_encode content).
Proof. vm_compute. split; reflexivity. Qed.
Lemma retrieval_is_content_addressed_witness :
  ∃ payload, field "data_base64" response = Some (VString (hex_encode payload)) ∧
    CasStore.sha256_digest payload = digest.
Proof.
  destruct (retrieval_is_content_addressed unnamed governor (CasStore.open_with_limits None) steps env request response)
    as (local & payload & _ & Hp & _ & Hd).
  - exact (proj1 retrieved_ok).
  - exists payload. split; [exact Hp|exact Hd].
Defined.

(** The commit, as the worker received it. *)
Definition sent : list Sent := AppState.mesh_sent retrieved.2.2.
Definition committed : option (ArtifactTransferRequestV2.t * string) :=
  match sent !! 2%nat with
  | Some m => match read_artifact_request m.2 with Ok r => Some r | Err _ => None end
  | None => None
  end.
Definition before : CasStore.t := worker_store (take 2 sent).
Lemma commit_answered :
  match committed with
  | Some (request, payload) =>
      match artifact_request (worker_link failed stream config before) request payload with
      | Ok (response, _) =>
          is_some (ArtifactTransferResponseV2.replica_receipt response)
          && (StorageLeaseV1.digest (ArtifactTransferRequestV2.lease request) == digest)
      | Err _ => false
      end
  | None => false
  end = true.
Proof. vm_compute. reflexivity. Qed.
Lemma possession_is_real_witness : ∃ message receipt,
  holds (serve_artifact failed stream config message before).2 digest ∧
  ArtifactReplicaReceiptV1.digest receipt = digest ∧
  verify_contract (NodeIdentityV1.public_key identity) receipt = Ok ().
Proof.
  pose proof commit_answered as H. destruct committed as [[request payload]|]; [|discriminate H].
  destruct (artifact_request _ request payload) as [[response answer]|] eqn:Ha; [|discriminate H].
  apply andb_true_iff in H as [Hr Hd%bool_decide_eq_true].
  destruct (ArtifactTransferResponseV2.replica_receipt response) as [receipt|] eqn:Hreceipt; [|discriminate Hr].
  destruct (possession_is_real failed stream config request payload before response answer receipt identity)
    as (_ & (message & _ & Hh) & Hg & _ & _ & Hv).
  - exact Ha.
  - exact Hreceipt.
  - split; reflexivity.
  - rewrite Hd in Hh, Hg. exists message, receipt. exact (conj Hh (conj Hg Hv)).
Defined.
End ReplicaHistory.
