(* ===== verification/ReportsFacts.v ===== *)
(** * What a worker's control stream reaches

    A request over the mesh gets to the controller's own interface only on the routes meant for
    workers and only in the name of the peer that sent it; the answer is bounded. *)

From S2P Require Import Prelude.
From S2P Require Import Codec.
From S2P Require Import Text.
From S2P Require Import Contracts.
From S2P Require Import Wire.
From S2P Require Import Signing.
From S2P Require Import Storage.
From S2P Require Import StorageFacts.
From S2P Require Import Ledger.
From S2P Require Import Mesh.
From S2P Require Import ControllerState.
From S2P Require Import Controller.
From S2P Require Import Artifacts.
From S2P Require Import Admission.
From S2P Require Import Reports.
Import Text Controller Artifacts Admission Reports.
#[local] Open Scope Z_scope.

Section mesh.
Context {codec : Codec} {crypto : Crypto} {ser : Serializer} {vault : Vault} {render : Render}
        {order : HashOrder} {wire : ContractWire} {iroh : Iroh} {base64 : Base64}.

(** The node a request names, by its route. *)
Definition names_node (request : MeshControlRequestV1.t) (node_id : Uuid) : Prop :=
  let method := MeshControlRequestV1.method request in
  let path := MeshControlRequestV1.path request in
  (method = "POST" ∧ path = "/v1/offers" ∧
     ∃ offer v, MeshControlRequestV1.body request = Some v ∧ from_value v = Some offer ∧
       ResourceOfferV1.node_id offer = node_id ∧ is_Some (ResourceOfferV1.mesh_endpoint offer)) ∨
  (method = "POST" ∧ path = "/v1/receipts" ∧
     ∃ receipt v, MeshControlRequestV1.body request = Some v ∧ from_value v = Some receipt ∧
       ExecutionReceiptV1.node_id receipt = node_id) ∨
  (method = "POST" ∧ path = "/v1/benchmarks/link" ∧
     ∃ probe v, MeshControlRequestV1.body request = Some v ∧ from_value v = Some probe ∧
       LinkProbeRequest.node_id probe = node_id) ∨
  (method = "GET" ∧ starts_with CLAIM_PREFIX path = true ∧ strip_prefix CLAIM_PREFIX path ≫= uuid_parse = Some node_id).

(** What a worker may ask of the controller: its health, an enrollment of the key it connects
    with, or something in the name of a node enrolled under that key. *)
Definition speaks_for (s : AppState.t) (peer : string) (request : MeshControlRequestV1.t) : Prop :=
  (MeshControlRequestV1.method request = "GET" ∧ MeshControlRequestV1.path request = "/health") ∨
  (MeshControlRequestV1.method request = "POST" ∧ MeshControlRequestV1.path request = "/v1/nodes/enroll" ∧
     ∃ enrollment v, MeshControlRequestV1.body request = Some v ∧ from_value v = Some enrollment ∧
       NodeIdentityV1.public_key (EnrollmentRequestV1.identity enrollment) = peer) ∨
  ∃ node_id identity, names_node request node_id ∧ AppState.nodes s !! node_id = Some identity ∧
    NodeIdentityV1.public_key identity = peer.

Lemma require_mesh_node_ok s peer node_id :
  require_mesh_node s peer node_id = Ok () →
  ∃ identity, AppState.nodes s !! node_id = Some identity ∧ NodeIdentityV1.public_key identity = peer.
Proof.
  unfold require_mesh_node. destruct (AppState.nodes s !! node_id) as [identity|]; [|done].
  destruct (bool_decide_reflect (NodeIdentityV1.public_key identity = peer)); [|done]. eauto.
Qed.
Lemma mesh_body_ok {A} `{Wire A} what request (a : A) :
  mesh_body what request = Ok a → ∃ v, MeshControlRequestV1.body request = Some v ∧ from_value v = Some a.
Proof. unfold mesh_body. destruct (MeshControlRequestV1.body request); [|done]. case_match; [|done]. intros [= <-]. eauto. Qed.

Ltac route H :=
  match type of H with
  | (if ?b && ?c then _ else _) = _ =>
      let E := fresh "E" in destruct (b && c) eqn:E; bool_prop
  end.
Lemma authorized_speaks_for s peer request : authorize_mesh_control s peer request = Ok () → speaks_for s peer request.
Proof.
  unfold authorize_mesh_control, speaks_for. destruct (_ || _ || _); [done|]. intros H.
  route H; [by left|]. route H.
  { right; left. apply bind_ok_inv in H as (enrollment & (v & Hv & Hf)%mesh_body_ok & H).
    destruct (bool_decide_reflect (NodeIdentityV1.public_key (EnrollmentRequestV1.identity enrollment) = peer)); [|done].
    split_and!; eauto. }
  right; right. unfold names_node. route H.
  { apply bind_ok_inv in H as (offer & (v & Hv & Hf)%mesh_body_ok & H).
    destruct (ResourceOfferV1.mesh_endpoint offer) eqn:He; [|done]. apply require_mesh_node_ok in H as (identity & Hi & Hk).
    exists (ResourceOfferV1.node_id offer), identity. split_and!; [left|done..]. split_and!; [done..|].
    exists offer, v. rewrite He. eauto 10. }
  route H.
  { apply bind_ok_inv in H as (receipt & (v & Hv & Hf)%mesh_body_ok & (identity & Hi & Hk)%require_mesh_node_ok).
    exists (ExecutionReceiptV1.node_id receipt), identity. split_and!; [right; left|done..]. eauto 10. }
  route H.
  { apply bind_ok_inv in H as (probe & (v & Hv & Hf)%mesh_body_ok & (identity & Hi & Hk)%require_mesh_node_ok).
    exists (LinkProbeRequest.node_id probe), identity. split_and!; [do 2 right; left|done..]. eauto 10. }
  route H; [|done]. destruct (strip_prefix CLAIM_PREFIX _ ≫= uuid_parse) as [node_id|] eqn:Hp; [|done].
  apply require_mesh_node_ok in H as (identity & Hi & Hk). exists node_id, identity. split_and!; [do 3 right|done..]. done.
Qed.

(** An answer that does not depend on the controller's own interface and leaves the state
    alone, but for a record in the ledger. *)
Definition confined (serve : (string → string → option Value → M (option LocalResponse)) → M string) env c : Prop :=
  ∃ r c', (∀ local, serve local env c = (Ok r, c')) ∧ ∃ l, c'.2 = AppState.set_ledger l c.2.
Lemma unchanged_answer response env c : confined (λ _, r ← mret response; mret (encode_json (A := MeshControlResponseV1.t) r)) env c.
Proof. eexists _, c. split; [done|]. exists (AppState.ledger c.2). by destruct c as [? []]. Qed.

(** [C19] A worker's stream reaches the controller's own interface only to ask for its health, to
    enroll the key it connects with, or, on one of four routes, in the name of a node enrolled
    under that key; otherwise the answer and the state left behind do not depend on that
    interface at all, and no registry has changed. *)
Theorem mesh_request_confined peer received env c :
  confined (λ local, serve_mesh_control local peer received) env c ∨
  ∃ request, decode_json (A := MeshControlRequestV1.t) received = Ok request ∧ len received ≤ 1024 * 1024 ∧
    MeshControlRequestV1.schema request = MeshControlRequestV1.SCHEMA ∧ speaks_for c.2 peer request.
Proof.
  unfold serve_mesh_control. destruct (Z.ltb_spec (1024 * 1024) (len received)).
  { left. by apply unchanged_answer. }
  destruct (decode_json received) as [request|e] eqn:Hd; [|left; by apply unchanged_answer].
  unfold process_mesh_control.
  destruct (bool_decide_reflect (MeshControlRequestV1.schema request = MeshControlRequestV1.SCHEMA)) as [Hs|];
    [|left; by apply unchanged_answer].
  destruct (authorize_mesh_control c.2 peer request) as [[]|reason] eqn:Ha.
  - right. exists request. split_and!; [done..|]. by apply authorized_speaks_for.
  - left. unfold confined, mbind, M_bind, read, attempt, append. cbn. rewrite Ha.
    destruct (Ledger.append _ _ _ _ _) as [[l e]|]; cbn; eexists _, _; (split; [done|]); cbn; [by exists l|].
    exists (AppState.ledger c.2). by destruct c as [? []].
Qed.

(** The body read from the controller's own interface is at most a mebibyte. *)
Lemma append_bounded_size pieces : ∀ buffer bytes,
  append_bounded_bytes buffer pieces = Some bytes → len buffer ≤ 1024 * 1024 → len bytes ≤ 1024 * 1024.
Proof.
  induction pieces as [|[piece|] pieces IH]; intros buffer bytes; cbn [append_bounded_bytes]; [by intros [= <-]|..|done].
  destruct (Z.leb_spec (sat_add (len buffer) (len piece)) (1024 * 1024)) as [Hle|]; [|done].
  intros H _. eapply IH; [exact H|]. rewrite len_app. unfold sat_add in Hle. unfold u64_max in *. lia.
Qed.
End mesh.
