(* ===== verification/Registration.v ===== *)
(** * What the controller promises a contributor

    An offer that is signed by an enrolled node, describes it, and is fresh, is registered.
    The workers' files show that what they offer is of this kind. *)

From S2P Require Import Prelude.
From S2P Require Import Codec.
From S2P Require Import Text.
From S2P Require Import Contracts.
From S2P Require Import Wire.
From S2P Require Import Signing.
From S2P Require Import Ledger.
From S2P Require Import ControllerState.
From S2P Require Import Controller.
Import Text Controller.
#[local] Open Scope Z_scope.

Section registration.
Context {codec : Codec} {crypto : Crypto} {laws : CryptoLaws codec crypto} {ser : Serializer}.
Context {render : Render} {wire : ContractWire}.

(** The controller does not refuse an offer: it takes it, or its ledger is full. *)
Definition registered (offer : ResourceOfferV1.t) (r : result Failure.t (Z * Uuid)) : Prop :=
  match r with
  | Ok (status, id) => status = 201 ∧ id = ResourceOfferV1.offer_id offer
  | Err failure => ∃ e, Failure.why failure = Failure.LedgerFailed e
  end.

(** An endpoint record of the offer's own period, signed with the node's key. *)
Definition own_endpoint (key : SigningKey) (identity : NodeIdentityV1.t) (offer : ResourceOfferV1.t)
    (endpoint : MeshEndpointRecordV1.t) : Prop :=
  ∃ record, endpoint = sign_mesh_endpoint key record ∧
    MeshEndpointRecordV1.schema record = MeshEndpointRecordV1.SCHEMA ∧
    MeshEndpointRecordV1.endpoint_id record = NodeIdentityV1.public_key identity ∧
    MeshEndpointRecordV1.issued_at record = ResourceOfferV1.observed_at offer ∧
    MeshEndpointRecordV1.expires_at record = ResourceOfferV1.expires_at offer.

Record acceptable (key : SigningKey) (identity : NodeIdentityV1.t) (offer : ResourceOfferV1.t) (env : Env)
    (s : AppState.t) : Prop := {
  offer_signed : ∃ unsigned, offer = sign_offer key unsigned;
  node_known : AppState.nodes s !! ResourceOfferV1.node_id offer = Some identity;
  node_named : NodeIdentityV1.node_id identity = ResourceOfferV1.node_id offer;
  node_keyed : NodeIdentityV1.public_key identity = hex_encode (verifying_key key);
  kind_bound : validate_offer_identity_binding identity offer = Ok ();
  runtimes_valid : validate_model_runtime_contracts offer = Ok ();
  benchmark_valid : ∀ benchmark, ResourceOfferV1.link_benchmark offer = Some benchmark →
    LinkBenchmarkV1.is_valid_for benchmark (mesh_endpoint_id env) (ResourceOfferV1.observed_at offer)
      (ResourceOfferV1.expires_at offer) = true;
  endpoint_own : ∀ endpoint, ResourceOfferV1.mesh_endpoint offer = Some endpoint → own_endpoint key identity offer endpoint;
  clock_within : ∀ n, ResourceOfferV1.observed_at offer <= clock env n < ResourceOfferV1.expires_at offer
}.

Lemma step {A B} (m : M A) (f : A → M B) env c a c' (Q : result Failure.t B → Prop) :
  m env c = (Ok a, c') → Q (f a env c').1 → Q ((m ≫= f) env c).1.
Proof. unfold mbind, M_bind. by intros ->. Qed.

Lemma own_endpoint_verifies key identity offer endpoint t1 t2 :
  own_endpoint key identity offer endpoint → NodeIdentityV1.public_key identity = hex_encode (verifying_key key) →
  t1 < ResourceOfferV1.expires_at offer → ResourceOfferV1.observed_at offer <= t2 →
  verify_mesh_endpoint_with_key t1 t2 (NodeIdentityV1.public_key identity) endpoint = Ok ().
Proof.
  intros (record & -> & Hs & _ & Hi & He) -> H1 H2.
  unfold verify_mesh_endpoint_with_key, verify_pinned_mesh_endpoint_with_key.
  assert (verify_contract (hex_encode (verifying_key key)) (sign_mesh_endpoint key record) = Ok ()) as ->
    by apply verify_sign_contract.
  change (MeshEndpointRecordV1.schema (sign_mesh_endpoint key record)) with (MeshEndpointRecordV1.schema record).
  change (MeshEndpointRecordV1.expires_at (sign_mesh_endpoint key record)) with (MeshEndpointRecordV1.expires_at record).
  change (MeshEndpointRecordV1.issued_at (sign_mesh_endpoint key record)) with (MeshEndpointRecordV1.issued_at record).
  rewrite Hs, Hi, He, bool_decide_eq_true_2, (proj2 (Z.leb_gt _ _)), (proj2 (Z.ltb_ge _ _)) by done. done.
Qed.

Lemma endpoint_accepted key identity offer env s k :
  acceptable key identity offer env s → ∃ k', check_offer_endpoint identity offer env (k, s) = (Ok (), (k', s)).
Proof.
  intros Ha. unfold check_offer_endpoint. destruct (ResourceOfferV1.mesh_endpoint offer) as [endpoint|] eqn:He;
    [|by eexists].
  apply (endpoint_own _ _ _ _ _ Ha) in He as Hown. pose proof Hown as (record & -> & _ & Hid & _ & Hexp).
  change (MeshEndpointRecordV1.endpoint_id (sign_mesh_endpoint key record)) with (MeshEndpointRecordV1.endpoint_id record).
  change (MeshEndpointRecordV1.expires_at (sign_mesh_endpoint key record)) with (MeshEndpointRecordV1.expires_at record).
  rewrite Hid, Hexp, !bool_decide_eq_true_2 by done. unfold mbind, M_bind, now. cbn [reject_if negb mret M_ret fst snd].
  rewrite (own_endpoint_verifies key identity offer) by (done || apply Ha). by eexists.
Qed.

(** An acceptable offer is registered. *)
Lemma acceptable_registered key identity offer env c :
  acceptable key identity offer env c.2 → registered offer (register_offer offer env c).1.
Proof.
  intros Ha. pose proof (offer_signed _ _ _ _ _ Ha) as [unsigned Hsigned].
  assert (is_empty (ResourceOfferV1.signature offer) = false) as Hne by (rewrite Hsigned; apply hex_signature_not_empty).
  assert (verify_offer identity offer = Ok ()) as Hverified.
  { unfold verify_offer. rewrite (node_named _ _ _ _ _ Ha), (node_keyed _ _ _ _ _ Ha), bool_decide_eq_true_2 by done.
    rewrite Hsigned. apply verify_sign_contract. }
  unfold register_offer. eapply (step _ _ _ _ _ (S c.1, c.2)); [reflexivity|].
  rewrite Hne, (proj2 (Z.leb_gt _ _)) by apply Ha. eapply step; [reflexivity|]. eapply step; [reflexivity|].
  cbv zeta. cbn [snd]. rewrite (node_known _ _ _ _ _ Ha). eapply step; [reflexivity|].
  rewrite Hverified. eapply step; [reflexivity|]. rewrite (kind_bound _ _ _ _ _ Ha). eapply step; [reflexivity|].
  rewrite (runtimes_valid _ _ _ _ _ Ha). eapply step; [reflexivity|]. eapply step; [reflexivity|].
  assert (is_some_and (λ benchmark, negb (LinkBenchmarkV1.is_valid_for benchmark (mesh_endpoint_id env)
            (ResourceOfferV1.observed_at offer) (ResourceOfferV1.expires_at offer))) (ResourceOfferV1.link_benchmark offer)
          = false) as ->.
  { destruct (ResourceOfferV1.link_benchmark offer) eqn:Hb; [|done]. cbn. by rewrite (benchmark_valid _ _ _ _ _ Ha _ Hb). }
  eapply step; [reflexivity|]. destruct (endpoint_accepted _ _ _ _ _ (S c.1) Ha) as [k Hk].
  eapply step; [exact Hk|]. eapply step; [reflexivity|]. eapply step; [reflexivity|].
  unfold mbind, M_bind, mret, M_ret, append, modify. cbn [fst snd].
  destruct (should_record_offer_evidence _ _); [|split; reflexivity].
  destruct (ResourceOfferV1.link_benchmark offer) as [benchmark|];
    repeat (destruct (Ledger.append _ _ _ _ _) as [[? ?]|e]; [|exists e; reflexivity]); split; reflexivity.
Qed.

(** An endpoint dated after the controller's clock is refused, with an answer that does not
    tell that clock. *)
Lemma future_endpoint_refused identity offer endpoint env k s :
  ResourceOfferV1.mesh_endpoint offer = Some endpoint →
  MeshEndpointRecordV1.endpoint_id endpoint = NodeIdentityV1.public_key identity →
  (∀ n, clock env n < MeshEndpointRecordV1.issued_at endpoint) →
  (check_offer_endpoint identity offer env (k, s)).1 = Err (Failure.mk 401 (Failure.Denied Denial.InvalidSignature)).
Proof.
  intros He Hid Hclock. unfold check_offer_endpoint. rewrite He. cbv beta iota. rewrite Hid, (bool_decide_eq_true_2 (NodeIdentityV1.public_key identity = _)) by done.
  unfold mbind, M_bind, now. cbn [reject_if negb mret M_ret fst snd]. unfold verify_mesh_endpoint_with_key.
  rewrite (proj2 (Z.ltb_lt _ _) (Hclock _)), orb_true_r. done.
Qed.
End registration.
