(* ===== verification/Contribution.v ===== *)
(** * A contributor's offer and what it is offered to

    The offer an edge worker makes from eligible telemetry passes every check the controller
    makes when it is registered, if the controller's clock is within its period, and the Governor
    admits on it every job that fits a handheld device. *)

From S2P Require Import Prelude.
From S2P Require Import Codec.
From S2P Require Import Text.
From S2P Require Import Contracts.
From S2P Require Import Wire.
From S2P Require Import Signing.
From S2P Require Import Governor.
From S2P Require Import GovernorFacts.
From S2P Require Import Storage.
From S2P Require Import StorageFacts.
From S2P Require Import Worker.
From S2P Require Import WorkerFacts.
From S2P Require Import Mesh.
From S2P Require Import Process.
From S2P Require Import Edge.
From S2P Require Import EdgeFacts.
From S2P Require Import Packing.
From S2P Require Import Ledger.
From S2P Require Import ControllerState.
From S2P Require Import Controller.
From S2P Require Import Samples.
From S2P Require Import Registration.
Import Text Edge Controller.
#[local] Open Scope Z_scope.

Section offer.
Context {codec : Codec} {crypto : Crypto} {laws : CryptoLaws codec crypto} {ser : Serializer}.
Context (version : string).

(** What the two capabilities of an edge worker are. *)
Definition edge_profile (adapter operation : string) (domain : WorkloadDomain.t) : WorkloadCapabilityV1.t :=
  WorkloadCapabilityV1.mk WorkloadCapabilityV1.SCHEMA adapter domain {[operation]}
    {[ExecutionPattern.IndependentShard]} {[ResourceClass.CpuCompute]}
    WorkloadIsolation.AllowlistedInProcess ("shipped-edge:" +:+ version) false true false
    WorkloadCapabilityStatus.Shipped None.
Definition edge_profiles : list WorkloadCapabilityV1.t :=
  [edge_profile "rampage.eval-shard.v1" "score" WorkloadDomain.AiEvaluation;
   edge_profile "rampage.hash.v1" "hash" WorkloadDomain.DataProcessing].
Lemma edge_capabilities_are : edge_capabilities version edge_adapters = Some edge_profiles.
Proof.
  unfold edge_capabilities.
  assert (merge_sort String.le (elements edge_adapters) = ["rampage.eval-shard.v1"; "rampage.hash.v1"]) as ->
    by (vm_compute; reflexivity).
  reflexivity.
Qed.

Definition edge_record (now : DateTime) (address : Address) : MeshEndpointRecordV1.t :=
  MeshEndpointRecordV1.mk MeshEndpointRecordV1.SCHEMA (address_id address) (ip_addrs address) (relay_addrs address)
    now (now + seconds OFFER_TTL_SECONDS) "".
(** An edge worker always makes an offer, and this is its content. *)
Definition edge_offer (worker : EdgeWorker.t) (telemetry : EdgeTelemetry.t) (now : DateTime) (threads : Z)
    (address : Address) (offer_id : Uuid) : ResourceOfferV1.t :=
  let key := EdgeWorker.signing_key worker in
  let expires_at := now + seconds OFFER_TTL_SECONDS in
  sign_offer key
    (ResourceOfferV1.mk "rampage.resource-offer.v1" offer_id (NodeIdentityV1.node_id (EdgeWorker.identity worker))
       now expires_at
       [ResourceQuantityV1.mk ResourceClass.CpuCompute threads (Z.max (sat_sub threads 1) 1) "logical_core"
          (edge_labels telemetry)]
       (AvailabilityV1.mk (EdgeTelemetry.on_external_power telemetry)
          (Some (EdgeTelemetry.battery_percent telemetry)) (EdgeTelemetry.thermal_headroom_percent telemetry)
          (EdgeTelemetry.foreground telemetry && EdgeTelemetry.donation_requested telemetry) true)
       edge_adapters edge_profiles [] None
       (Some (sign_mesh_endpoint key (edge_record now address))) "").
Lemma make_offer_is {S} worker telemetry env (w : World S) :
  let n := draws w in
  make_offer version worker telemetry env w =
    (Ok (edge_offer worker telemetry (Process.clock env n) (default 1 (available_parallelism env (n + 1)))
           (Process.address env (n + 2)) (Process.fresh env (n + 3))),
     mkWorld (n + 4) (sent w) (state w)).
Proof.
  cbn zeta. unfold make_offer, obtain. rewrite edge_capabilities_are. rewrite !(Nat.add_comm (draws w)). reflexivity.
Qed.

Lemma edge_profiles_each_valid : bounded_ascii 200 ("shipped-edge:" +:+ version) = true →
  Forall (λ c, WorkloadCapabilityV1.is_valid c = true) edge_profiles.
Proof.
  intros Hv. unfold edge_profiles, edge_profile. repeat constructor; unfold WorkloadCapabilityV1.is_valid;
  cbn [WorkloadCapabilityV1.runtime_digest WorkloadCapabilityV1.schema WorkloadCapabilityV1.adapter
       WorkloadCapabilityV1.operations WorkloadCapabilityV1.execution_patterns WorkloadCapabilityV1.resource_classes
       WorkloadCapabilityV1.status WorkloadCapabilityV1.qualification_digest]; rewrite Hv; vm_compute; reflexivity.
Qed.
Lemma edge_profiles_valid : bounded_ascii 200 ("shipped-edge:" +:+ version) = true →
  any_bad_or_repeated
    (λ capability, negb (WorkloadCapabilityV1.is_valid capability)
       || negb (bool_decide (WorkloadCapabilityV1.adapter capability ∈ edge_adapters)))
    WorkloadCapabilityV1.adapter [] edge_profiles = false.
Proof.
  intros Hv. unfold edge_profiles, any_bad_or_repeated, WorkloadCapabilityV1.is_valid, edge_profile.
  cbn [WorkloadCapabilityV1.runtime_digest WorkloadCapabilityV1.schema WorkloadCapabilityV1.adapter
       WorkloadCapabilityV1.operations WorkloadCapabilityV1.execution_patterns WorkloadCapabilityV1.resource_classes
       WorkloadCapabilityV1.status WorkloadCapabilityV1.qualification_digest].
  rewrite Hv. vm_compute. reflexivity.
Qed.

Context {render : Render} {order : HashOrder} {wire : ContractWire} {iroh : Iroh}.

Lemma edge_label_kind telemetry : edge_labels telemetry !! "device_kind" = Some (EdgeTelemetry.device_kind telemetry).
Proof. unfold edge_labels. by simplify_map_eq. Qed.

(** The worker as the controller and its own shell know it: enrolled under the key it signs
    and dials with, as the kind of device the telemetry names. *)
Record enrolled_as (worker : EdgeWorker.t) (telemetry : EdgeTelemetry.t) (surroundings : Surroundings)
    (s : AppState.t) : Prop := {
  known : AppState.nodes s !! NodeIdentityV1.node_id (EdgeWorker.identity worker) = Some (EdgeWorker.identity worker);
  keyed : NodeIdentityV1.public_key (EdgeWorker.identity worker) = hex_encode (verifying_key (EdgeWorker.signing_key worker));
  kind : EdgeTelemetry.device_kind telemetry = Governor.device_kind_label (NodeIdentityV1.device_kind (EdgeWorker.identity worker));
  dialled : ∀ n, address_id (Process.address surroundings n) = NodeIdentityV1.public_key (EdgeWorker.identity worker)
}.

Lemma edge_offer_acceptable worker telemetry surroundings now threads n offer_id env (s : AppState.t) :
  bounded_ascii 200 ("shipped-edge:" +:+ version) = true →
  enrolled_as worker telemetry surroundings s →
  (∀ n, now <= ControllerState.clock env n < now + seconds OFFER_TTL_SECONDS) →
  acceptable (EdgeWorker.signing_key worker) (EdgeWorker.identity worker)
    (edge_offer worker telemetry now threads (Process.address surroundings n) offer_id) env s.
Proof.
  intros Hversion [Hknown Hkeyed Hkind Hdialled] Hclock. set (offer := edge_offer _ _ _ _ _ _). split; try done.
  - by eexists.
  - unfold validate_offer_identity_binding, offer, edge_offer. cbn -[lookup Governor.device_kind_label edge_labels].
    rewrite edge_label_kind, Hkind, bool_decide_eq_true_2 by done. by destruct (NodeIdentityV1.device_kind _).
  - unfold validate_model_runtime_contracts.
    change (ResourceOfferV1.workload_capabilities offer) with edge_profiles.
    change (ResourceOfferV1.adapters offer) with edge_adapters. change (ResourceOfferV1.model_runtimes offer) with (@nil ModelRuntimeOfferV1.t).
    by rewrite edge_profiles_valid.
  - intros endpoint [= <-]. exists (edge_record now (Process.address surroundings n)). split_and!; [done|done|apply Hdialled|done|done].
Qed.

(** The Governor's floors for handheld devices are the edge worker's. *)
Lemma edge_offer_mobile worker telemetry now threads address offer_id governor job :
  EdgeTelemetry.eligible telemetry = true →
  Governor.config governor = GovernorConfig.default →
  JobSpecV1.restart_tolerant job = true →
  JobSpecV1.adapter job ∈ GovernorConfig.mobile_adapters GovernorConfig.default →
  let offer := edge_offer worker telemetry now threads address offer_id in
  Governor.is_mobile_kind (Governor.offer_device_kind offer) = true ∧ Governor.check_mobile governor job offer = Ok ().
Proof.
  intros Heligible Hconfig Hrestart Hadapter. cbn zeta. set (offer := edge_offer _ _ _ _ _ _).
  unfold EdgeTelemetry.eligible in Heligible.
  do 6 (apply andb_prop in Heligible as [Heligible ?]). rename Heligible into Hforeground.
  match goal with H : EdgeTelemetry.is_handheld _ = true |- _ => rename H into Hhand end.
  match goal with H : (MINIMUM_THERMAL_HEADROOM_PERCENT <=? _) = true |- _ => rename H into Hthermal end.
  match goal with H : _ || _ = true |- _ => rename H into Hpower end.
  match goal with H : EdgeTelemetry.donation_requested _ = true |- _ => rename H into Hdonation end.
  split.
  - assert (Governor.offer_device_kind offer = Some (EdgeTelemetry.device_kind telemetry)) as ->
      by exact (edge_label_kind telemetry).
    apply bool_decide_eq_true_2. apply orb_true_iff in Hhand as [->%bool_decide_eq_true| ->%bool_decide_eq_true]; set_solver.
  - unfold Governor.check_mobile. rewrite Hconfig, Hrestart, bool_decide_eq_true_2 by done.
    change (ResourceOfferV1.availability offer) with (AvailabilityV1.mk (EdgeTelemetry.on_external_power telemetry)
          (Some (EdgeTelemetry.battery_percent telemetry)) (EdgeTelemetry.thermal_headroom_percent telemetry)
          (EdgeTelemetry.foreground telemetry && EdgeTelemetry.donation_requested telemetry) true).
    cbn [AvailabilityV1.foreground_allowed AvailabilityV1.on_ac_power AvailabilityV1.battery_percent
         AvailabilityV1.thermal_headroom_percent]. rewrite Hforeground, Hdonation.
    unfold MINIMUM_BATTERY_PERCENT, MINIMUM_THERMAL_HEADROOM_PERCENT in *. cbn.
    rewrite !Z.ltb_antisym, Hthermal. destruct (EdgeTelemetry.on_external_power telemetry); cbn in *; [done|by rewrite Hpower].
Qed.

(** A job that fits the handheld device of an offer at [now]: its contract is in order and due
    within the hour, it tolerates restarts, it is of one of the two operations an edge worker
    has, and each of its requests can be served from what is offered. *)
Definition fits_handheld (job : JobSpecV1.t) (offer : ResourceOfferV1.t) (now : DateTime) : Prop :=
  in_order job now ∧ JobSpecV1.deadline job <= now + seconds 3600 ∧ JobSpecV1.restart_tolerant job = true ∧
  (JobSpecV1.adapter job = "rampage.hash.v1" ∧ JobSpecV1.operation job = "hash" ∨
   JobSpecV1.adapter job = "rampage.eval-shard.v1" ∧ JobSpecV1.operation job = "score") ∧
  (∀ r, r ∈ JobSpecV1.requests job → ∃ q, q ∈ ResourceOfferV1.resources offer ∧ supplies r q).

Lemma edge_offer_admits worker telemetry at_ threads address offer_id governor job now :
  EdgeTelemetry.eligible telemetry = true →
  bounded_ascii 200 ("shipped-edge:" +:+ version) = true →
  Governor.config governor = GovernorConfig.default →
  let offer := edge_offer worker telemetry at_ threads address offer_id in
  now < ResourceOfferV1.expires_at offer → fits_handheld job offer now →
  Governor.check_job_at governor job offer (NodeIdentityV1.node_id (EdgeWorker.identity worker)) now = Ok ().
Proof.
  intros Heligible Hversion Hconfig offer Hnow (Horder & Hdeadline & Hrestart & Hop & Hserved).
  apply check_job_spec. unfold admissible. rewrite Hconfig.
  assert (JobSpecV1.adapter job ∈ GovernorConfig.mobile_adapters GovernorConfig.default
          ∧ JobSpecV1.adapter job ∈ GovernorConfig.trusted_adapters GovernorConfig.default
          ∧ JobSpecV1.adapter job ∈ edge_adapters
          ∧ (JobSpecV1.adapter job, ResourceClass.CpuCompute) ∈ entitlements) as (Hmobile & Htrusted & Hadapter & Hclass).
  { destruct Hop as [[-> _]|[-> _]]; split_and!; apply (bool_decide_unpack _); vm_compute; exact Logic.I. }
  split_and!; try done.
  - intros r Hr. destruct (Hserved r Hr) as (q & Hq & Hs). apply list_elem_of_singleton in Hq as ->.
    destruct Hs as [<- _]. exact Hclass.
  - right. change (ResourceOfferV1.workload_capabilities offer) with edge_profiles.
    assert (Forall (λ c, WorkloadCapabilityV1.is_valid c = true) edge_profiles) as Hvalid by by apply edge_profiles_each_valid.
    unfold edge_profiles in *. rewrite !Forall_cons in Hvalid. destruct Hvalid as (Hscore & Hhash & _).
    destruct Hop as [[-> ->]|[-> ->]].
    + eexists. split; [right; left|]. split_and!; [exact Hhash|done|apply (bool_decide_unpack _); vm_compute; exact Logic.I|done].
    + eexists. split; [left|]. split_and!; [exact Hscore|done|apply (bool_decide_unpack _); vm_compute; exact Logic.I|done].
  - intros _. apply check_mobile_ok. by apply edge_offer_mobile.
Qed.

(** [C25] What a contributor offers can be used.  From telemetry the edge worker accepts, the
    offer it makes is registered by the controller it is enrolled with (unless the ledger is
    full), if the controller's clock lies within the period the worker's own clock gave the
    offer; and at every moment before the offer expires the Governor, at its default
    configuration, admits on that device every job that fits it: in order, due within the hour,
    restart tolerant, of one of the two operations an edge worker has, and asking for no more
    than is offered. *)
Theorem edge_offer_is_usable {S} worker telemetry surroundings (w w' : World S) offer env c governor :
  EdgeTelemetry.eligible telemetry = true →
  bounded_ascii 200 ("shipped-edge:" +:+ version) = true →
  enrolled_as worker telemetry surroundings c.2 →
  make_offer version worker telemetry surroundings w = (Ok offer, w') →
  (∀ n, ResourceOfferV1.observed_at offer <= ControllerState.clock env n < ResourceOfferV1.expires_at offer) →
  Governor.config governor = GovernorConfig.default →
  registered offer (register_offer offer env c).1 ∧
  ∀ job now, now < ResourceOfferV1.expires_at offer → fits_handheld job offer now →
    Governor.check_job_at governor job offer (NodeIdentityV1.node_id (EdgeWorker.identity worker)) now = Ok ().
Proof.
  intros Heligible Hversion Henrolled Hmake Hclock Hconfig.
  rewrite make_offer_is in Hmake. injection Hmake as <- _.
  split; [by eapply acceptable_registered, edge_offer_acceptable|]. intros. by apply edge_offer_admits.
Qed.
End offer.

(** ** A phone's session *)

Module Phone.
Import ReferenceCrypto StorageFacts.Witness WorkerFacts.Witness Samples.

#[local] Instance pretty : Pretty := {| json_to_string_pretty := json_to_string |}.
#[local] Instance pretty_laws : PrettyLaws pretty.
Proof. done. Qed.

Definition version : string := "0.1.0".
Definition key : @SigningKey reference_crypto := "phone".
Definition identity : NodeIdentityV1.t :=
  NodeIdentityV1.mk NodeIdentityV1.SCHEMA 3 9 "phone" DeviceKind.Phone "android" (hex_encode (verifying_key key)) 0 0.
Definition worker : EdgeWorker.t :=
  EdgeWorker.mk key identity (mkAddr "controller" []) "controller" 0 None "ready".
Definition telemetry : EdgeTelemetry.t := EdgeTelemetry.mk "android" "phone" true true 55 false false 60.

(** The hash claim of the worker's examples, given to the phone. *)
Definition work : WorkClaimV1.t := claim "rampage.hash.v1" "hash" {["value" := "hi"]}.
Definition receipt : option ExecutionReceiptV1.t :=
  match (Worker.execute_claim_with_store (env (seconds 1)) work 3 4 key (CasStore.open_with_limits None)).1 with
  | Ok receipt => Some receipt | Err _ => None
  end.
Example executed : ExecutionReceiptV1.state <$> receipt = Some JobState.Succeeded.
Proof. vm_compute. reflexivity. Qed.

Definition answer (status : Z) (body : Value) : MeshControlResponseV1.t :=
  MeshControlResponseV1.mk MeshControlResponseV1.SCHEMA 5 status body.
#[local] Instance wire_claim : Wire WorkClaimV1.t := table (λ _, 0) [work].
#[local] Instance wire_receipt : Wire ExecutionReceiptV1.t := table (λ _, 0) (option_list receipt).
#[local] Instance wire_offer : Wire ResourceOfferV1.t := unsent.
#[local] Instance wire_mesh : MeshWire := {|
  wire_control_request := unsent;
  wire_control_response := table MeshControlResponseV1.status [answer 201 VNull; answer 200 (VInt 0)];
  wire_artifact_request := unsent; wire_artifact_response := unsent; wire_model_request := unsent;
  wire_model_frame := unsent; wire_desktop_request := unsent; wire_desktop_response := unsent
|}.
(** The controller takes the offer (the draw 5) and hands out the claim (7); it is out of reach
    when the receipt is due (10), and takes it before the next offer (12). *)
Definition link (n : nat) : Timed Link :=
  match n with
  | 5%nat | 12%nat => Completed (Some (λ _, Some (json_to_string (VInt 0))))
  | 7%nat => Completed (Some (λ _, Some (json_to_string (VInt 1))))
  | _ => Elapsed
  end.
Definition surroundings : Surroundings :=
  mkSurroundings (λ n, Z.of_nat n) (λ _, 5) (λ _, "secret") (λ _, mkAddress (hex_encode (verifying_key key)) [] [])
    (λ _, Some 8) link (λ _, 0) (λ _, Completed ()) (λ _, env (seconds 1)) (λ _, 0) (λ _, false) (λ _, None) (λ _, false).
Definition start : World Session :=
  mkWorld 0 [] (mkSession (Disk.mk false None None None None None (CasStore.open_with_limits None)) worker).

Example first_pulse : owed (pulses version [telemetry] surroundings start) = pretty_json <$> receipt.
Proof. vm_compute. reflexivity. Qed.
Example second_pulse : owed (pulses version [telemetry; telemetry] surroundings start) = None.
Proof. vm_compute. reflexivity. Qed.
Lemma receipt_is_made : option_list receipt = receipts version [telemetry; telemetry] surroundings start.
Proof. vm_compute. reflexivity. Qed.
Lemma receipt_comes_back : Forall (λ receipt, decode_json (encode_json receipt) = Ok receipt) (option_list receipt).
Proof. vm_compute. repeat constructor. Qed.

Lemma receipts_survive_witness :
  Forall (λ receipt, took_receipt surroundings receipt ∨
            owed (pulses version [telemetry; telemetry] surroundings start) = Some (pretty_json receipt))
    (receipts version [telemetry; telemetry] surroundings start).
Proof.
  apply Forall_forall. intros r Hr. apply (receipts_survive version [telemetry; telemetry] surroundings start r).
  - revert r Hr. apply Forall_forall. rewrite <- receipt_is_made. apply receipt_comes_back.
  - left. exact Hr.
Defined.
End Phone.

(** The same phone, enrolled with a new installation of the controller. *)
Module PhoneOffer.
Import ReferenceCrypto Samples StorageFacts.Witness.
Import Phone (version, key, identity, worker, telemetry, surroundings, start, pretty).

#[local] Instance wire : ContractWire := {|
  wire_identity := unsent; wire_job := unsent; wire_lease := unsent; wire_set := unsent; wire_claim := unsent;
  wire_receipt := unsent; wire_artifact := unsent; wire_replica := unsent; wire_offer := unsent;
  wire_benchmark := unsent; wire_storage_lease := unsent; wire_score := unsent; wire_placement := unsent;
  wire_constraints := unsent; wire_candidate := unsent; wire_canary := unsent; wire_enrollment := unsent;
  wire_link_probe := unsent; wire_result := unsent; wire_mesh := Phone.wire_mesh
|}.
Definition owner_key : @SigningKey reference_crypto := "owner".
Definition governor : Governor.t := Governor.from_signing_key GovernorConfig.default owner_key.
Definition controller : nat * AppState.t :=
  (0%nat, AppState.set_nodes {[3 := identity]} (installed governor (CasStore.open_with_limits None))).
Definition env : Env :=
  mkEnv (λ _, seconds 1) Z.of_nat false false "controller" [] [] (λ _, Proceeds) (λ _ _ _, None) (λ _ _, "").
Definition offer : ResourceOfferV1.t :=
  edge_offer version worker telemetry 0 8 (mkAddress (hex_encode (verifying_key key)) [] []) 5.
Definition job : JobSpecV1.t :=
  JobSpecV1.mk JobSpecV1.SCHEMA 7 12 13 "rampage.hash.v1" "hash" ∅ []
    [ResourceRequestV1.mk ResourceClass.CpuCompute 2 4 "logical_core" ∅]
    WorkloadTrust.NativeTrusted true ∅ (minutes 10) "key".

Lemma phone_enrolled : enrolled_as worker telemetry surroundings controller.2.
Proof. split; [vm_compute; reflexivity..|intros n; reflexivity]. Qed.
Lemma phone_offers : make_offer version worker telemetry surroundings start = (Ok offer, mkWorld 4 [] (state start)).
Proof. exact (make_offer_is version worker telemetry surroundings start). Qed.

Lemma job_fits : fits_handheld job offer (seconds 1).
Proof.
  split_and!; [vm_compute; split_and!; [done..|]|vm_compute; discriminate|done|by left|].
  - intros r [->|[]%not_elem_of_nil]%elem_of_cons. vm_compute. discriminate.
  - intros r [->|[]%not_elem_of_nil]%elem_of_cons. eexists. split; [left; reflexivity|].
    split_and!; [done|done|vm_compute; discriminate|apply map_empty_subseteq].
Qed.
Lemma edge_offer_is_usable_witness :
  registered offer (register_offer offer env controller).1 ∧
  Governor.check_job_at governor job offer 3 (seconds 1) = Ok ().
Proof.
  destruct (edge_offer_is_usable version worker telemetry surroundings start (mkWorld 4 [] (state start))
              offer env controller governor) as [Hregistered Hadmits].
  - vm_compute. reflexivity.
  - vm_compute. reflexivity.
  - exact phone_enrolled.
  - exact phone_offers.
  - intros n. vm_compute. split; [discriminate|reflexivity].
  - reflexivity.
  - split; [exact Hregistered|]. apply (Hadmits job (seconds 1)); [reflexivity|exact job_fits].
Defined.
Example registered_there : (register_offer offer env controller).1 = Ok (201, 5).
Proof. vm_compute. reflexivity. Qed.
End PhoneOffer.
