(* ===== verification/DiscoveryFacts.v ===== *)
(** * Facts about discovery

    The storage a machine offers is within what it has and what its owner gives; the models it
    lists are valid; and what it advertises is what the controller takes, but for three checks
    on the manifest of runtimes that only the controller makes. *)

From S2P Require Import Prelude.
From S2P Require Import Codec.
From S2P Require Import Text.
From S2P Require Import Contracts.
From S2P Require Import Wire.
From S2P Require Import Signing.
From S2P Require Import Float.
From S2P Require Import Mesh.
From S2P Require Import Discovery.
From S2P Require Import ControllerState.
From S2P Require Import Controller.
From S2P Require Import Packing.
Import Text Controller.
#[local] Open Scope Z_scope.

(** ** Storage *)

Lemma shares_within protected budget cache scratch rest :
  0 <= budget → storage_shares protected budget = (cache, scratch, rest) →
  0 <= cache ∧ 0 <= scratch ∧ 0 <= rest ∧ cache + scratch + rest <= budget.
Proof. intros Hb. destruct protected; intros [= <- <- <-]; repeat split; try lia; Z.to_euclidean_division_equations; lia. Qed.

(** What a machine offers of its disk is together within the free space, and within the
    contribution its owner configured. *)
Lemma storage_within_contribution (m : Machine.t) (labels : gmap string string) (disk : Disk.t) :
  selected_disk (Machine.disks m) = Some disk → 0 <= Disk.available_space disk →
  (∀ gib, Machine.contribution_gb m ≫= parse_unsigned u64_max = Some gib → 0 <= gib) →
  let total := zsum (ResourceQuantityV1.available <$> discover_storage m labels) in
  total <= Disk.available_space disk ∧
  total <= default 10 (Machine.contribution_gb m ≫= parse_unsigned u64_max) * GIB ∧ total <= 1024 * GIB.
Proof.
  intros Hdisk Hspace Hgib. cbn zeta. unfold discover_storage. rewrite Hdisk. cbv beta iota zeta.
  assert (0 <= default 10 (Machine.contribution_gb m ≫= parse_unsigned u64_max)) as Hc
    by (destruct (_ ≫= _) eqn:E; cbn; [by apply Hgib|lia]).
  set (configured := default 10 _) in *.
  assert (storage_budget m disk <= Disk.available_space disk ∧ storage_budget m disk <= configured * GIB
          ∧ storage_budget m disk <= 1024 * GIB) as (H1 & H2 & H3).
  { unfold storage_budget. fold configured. unfold sat_mul, GIB. lia. }
  assert (0 <= storage_budget m disk) as H0 
    by (assert (0 <= u64_max) by done; unfold storage_budget, sat_mul, GIB; fold configured; lia).
  destruct (_ <? _); [cbn; unfold GIB; lia|].
  destruct (storage_shares _ _) as [[cache scratch] rest] eqn:Es.
  apply shares_within in Es as (? & ? & ? & ?); [|done].
  destruct (0 <? rest) eqn:Er; cbn; lia.
Qed.

(** ** Models *)

Section models.
Context {codec : Codec} {wire_tags : Wire OllamaTags.t} {wire_manifest : Wire ModelRuntimeManifestV1.t}.
Context (os arch version : string).

Lemma any_bad_false {A K} `{EqDecision K} (bad : A → bool) (key : A → K) seen l :
  any_bad_or_repeated bad key seen l = false ↔
  (∀ x, x ∈ l → bad x = false ∧ key x ∉ seen) ∧ NoDup (key <$> l).
Proof.
  revert seen. induction l as [|x l IH]; intros seen; cbn.
  { split; [|done]. intros _. split; [by intros x ?%not_elem_of_nil|constructor]. }
  rewrite !orb_false_iff, bool_decide_eq_false, IH, NoDup_cons. split.
  - intros [[Hx Hs] [Hl Hn]]. split_and!.
    + intros y [->|Hy]%elem_of_cons; [done|]. destruct (Hl y Hy). set_solver.
    + intros (y & Hy & Hin)%list_elem_of_fmap. destruct (Hl y Hin). set_solver.
    + done.
  - intros [Hl [Hx Hn]]. split_and!; [apply Hl; set_solver..| |done].
    intros y Hy. destruct (Hl y ltac:(set_solver)). split; [done|].
    intros [Heq|?]%elem_of_cons; [|done]. apply Hx. rewrite <- Heq. by apply list_elem_of_fmap_2.
Qed.

Lemma parse_models_ok candidates models names models' :
  parse_models models names candidates = Ok models' →
  (∀ m, m ∈ models → InstalledModelV1.is_valid m = true ∧ is_cloud (InstalledModelV1.model_id m) = false) →
  NoDup (InstalledModelV1.model_id <$> models) → names = list_to_set (InstalledModelV1.model_id <$> models) →
  (∀ m, m ∈ models' → InstalledModelV1.is_valid m = true ∧ is_cloud (InstalledModelV1.model_id m) = false) ∧
  NoDup (InstalledModelV1.model_id <$> models') ∧ zlen models' <= zlen models + zlen candidates.
Proof.
  revert models names. induction candidates as [|candidate candidates IH]; intros models names; cbn [parse_models].
  { intros [= <-] Hm Hn _. split_and!; [done..|]. unfold zlen. cbn. lia. }
  intros (model_id & _ & H)%bind_ok_inv Hm Hn ->.
  destruct (is_cloud model_id) eqn:Hc.
  { apply IH in H as (? & ? & ?); [|done..]. split_and!; [done..|]. unfold zlen in *. cbn. lia. }
  set (model := InstalledModelV1.mk _ _ _ _) in H.
  destruct (_ || _) eqn:Hb in H; [done|]. apply orb_false_iff in Hb as [Hv%negb_false_iff Hin%bool_decide_eq_false].
  apply IH in H as (? & ? & ?).
  - split_and!; [done..|]. unfold zlen in *. rewrite length_app in *. cbn in *. lia.
  - intros m [?| ->%list_elem_of_singleton]%elem_of_app; [by apply Hm|done].
  - rewrite fmap_app. apply NoDup_app. split_and!; [done| |apply NoDup_singleton].
    intros x Hx ->%list_elem_of_singleton. apply Hin. by apply elem_of_list_to_set.
  - rewrite fmap_app, list_to_set_app_L. cbn. set_solver.
Qed.

(** The models an agent lists are valid, local, at most 128, and each named once. *)
Lemma parse_ollama_models_sound payload models :
  parse_ollama_models payload = Ok models →
  (∀ m, m ∈ models → InstalledModelV1.is_valid m = true ∧ is_cloud (InstalledModelV1.model_id m) = false) ∧
  NoDup (InstalledModelV1.model_id <$> models) ∧ zlen models <= 128.
Proof.
  unfold parse_ollama_models. intros (tags & _ & H)%bind_ok_inv. destruct (128 <? _) eqn:Hl; [done|].
  apply Z.ltb_ge in Hl. apply bind_ok_inv in H as (parsed & Hp & [= <-]).
  apply parse_models_ok in Hp as (Hv & Hn & Hz); [|by intros m ?%not_elem_of_nil|constructor|done].
  split_and!.
  - intros m. rewrite merge_sort_Permutation. apply Hv.
  - by rewrite merge_sort_Permutation.
  - unfold zlen in *. rewrite merge_sort_Permutation. cbn in Hz. lia.
Qed.

(** ** Capabilities *)

Lemma capability_of_spec runtimes adapter c :
  capability_of version runtimes adapter = Some c →
  bounded_ascii 200 (shipped_runtime version) = true →
  (∀ r, r ∈ runtimes → ModelRuntimeOfferV1.adapter r = "rampage.ollama.v1" →
     bounded_ascii 200 (ModelRuntimeOfferV1.runtime_digest r) = true) →
  WorkloadCapabilityV1.adapter c = adapter ∧ WorkloadCapabilityV1.is_valid c = true ∧
  adapter ∈ ["rampage.echo.v1"; "rampage.hash.v1"; "rampage.eval-shard.v1"; "rampage.benchmark.v1";
             "rampage.artifact-hash.v1"; "rampage.remote-assist.v1"; "rampage.ollama.v1"].
Proof.
  intros Hcap Hs Hr. unfold capability_of in Hcap. revert Hcap.
  repeat (case_bool_decide; [subst adapter|]); intros Hc; try done; cbn in Hc; simplify_eq.
  1-6: split_and!; [done| |set_solver]; unfold WorkloadCapabilityV1.is_valid;
    cbn [WorkloadCapabilityV1.runtime_digest capability]; rewrite Hs; vm_compute; done.
  destruct (List.find _ _) as [r|] eqn:Hf; [|done]. simplify_eq.
  apply find_some in Hf as [Hin%list_elem_of_In Ha%bool_decide_eq_true].
  cbn in Hc. simplify_eq.   split_and!; [done| |set_solver]. unfold WorkloadCapabilityV1.is_valid.
  cbn [WorkloadCapabilityV1.runtime_digest capability]. rewrite (Hr r Hin Ha). vm_compute. done.
Qed.

Lemma fmap_omap_sublist {A B} (f : A → option B) (key : B → A) l :
  (∀ a b, f a = Some b → key b = a) → key <$> omap f l `sublist_of` l.
Proof.
  intros Hf. induction l as [|a l IH]; cbn; [constructor|].
  destruct (f a) as [b|] eqn:E; cbn; [rewrite (Hf _ _ E)|]; by constructor.
Qed.
Lemma capabilities_accepted adapters runtimes :
  bounded_ascii 200 (shipped_runtime version) = true →
  (∀ r, r ∈ runtimes → ModelRuntimeOfferV1.adapter r = "rampage.ollama.v1" →
     bounded_ascii 200 (ModelRuntimeOfferV1.runtime_digest r) = true) →
  let capabilities := discover_workload_capabilities version adapters runtimes in
  zlen capabilities <= 64 ∧
  any_bad_or_repeated
    (λ capability, negb (WorkloadCapabilityV1.is_valid capability)
       || negb (bool_decide (WorkloadCapabilityV1.adapter capability ∈ adapters)))
    WorkloadCapabilityV1.adapter [] capabilities = false.
Proof.
  intros Hs Hr. cbn zeta. unfold discover_workload_capabilities.
  set (l := merge_sort String.le (elements adapters)).
  assert (∀ a c, capability_of version runtimes a = Some c → WorkloadCapabilityV1.adapter c = a) as Hkey
    by (intros a c H; by apply capability_of_spec in H as [? _]).
  assert (WorkloadCapabilityV1.adapter <$> omap (capability_of version runtimes) l `sublist_of` l) as Hsub
    by by apply fmap_omap_sublist.
  assert (NoDup l) as Hl by (unfold l; rewrite merge_sort_Permutation; apply NoDup_elements).
  assert (NoDup (WorkloadCapabilityV1.adapter <$> omap (capability_of version runtimes) l)) as Hn
    by (eapply sublist_NoDup; done).
  split.
  - unfold zlen. rewrite <- (length_fmap WorkloadCapabilityV1.adapter).
    enough (length (WorkloadCapabilityV1.adapter <$> omap (capability_of version runtimes) l) <= 7)%nat by lia.
    change 7%nat with (length ["rampage.echo.v1"; "rampage.hash.v1"; "rampage.eval-shard.v1"; "rampage.benchmark.v1";
      "rampage.artifact-hash.v1"; "rampage.remote-assist.v1"; "rampage.ollama.v1"]).
    apply submseteq_length, NoDup_submseteq; [done|].
    intros ? (c & -> & (a & _ & Ha)%list_elem_of_omap)%list_elem_of_fmap.
    rewrite (Hkey a c Ha). by apply capability_of_spec in Ha as (_ & _ & ?).
  - apply any_bad_false. split; [|done]. intros c (a & Hin & Hc)%list_elem_of_omap. split; [|by apply not_elem_of_nil].
    apply capability_of_spec in Hc as (-> & -> & _); [|done..]. cbn. apply negb_false_iff, bool_decide_eq_true.
    unfold l in Hin. rewrite merge_sort_Permutation in Hin. by apply elem_of_elements.
Qed.

(** ** Runtimes *)

Definition runtime_key (r : ModelRuntimeOfferV1.t) : ModelBackend.t * string :=
  (ModelRuntimeOfferV1.backend r, ModelRuntimeOfferV1.compatibility_key r).

Lemma check_runtimes_ok offer seen runtimes :
  (∀ r, r ∈ runtimes →
     malformed_runtime offer r = false ∧ runtime_key r ∉ seen ∧
     any_bad_or_repeated (λ model, negb (InstalledModelV1.is_valid model)) InstalledModelV1.model_id []
       (ModelRuntimeOfferV1.installed_models r) = false ∧ runtime_status_consistent r = true) →
  NoDup (runtime_key <$> runtimes) → check_runtimes offer seen runtimes = Ok ().
Proof.
  revert seen. induction runtimes as [|r runtimes IH]; intros seen Hr Hn; cbn [check_runtimes]; [done|].
  destruct (Hr r) as (-> & Hs & -> & ->); [set_solver|]. fold (runtime_key r).
  rewrite bool_decide_eq_false_2 by done. cbn. apply NoDup_cons in Hn as [Hx Hn]. apply IH; [|done].
  intros r' Hr'. destruct (Hr r' ltac:(set_solver)) as (? & ? & ? & ?). split_and!; [done| |done..].
  intros [Heq|?]%elem_of_cons; [|done]. apply Hx. rewrite <- Heq. by apply list_elem_of_fmap_2.
Qed.

Lemma check_profiles_ok identities profiles :
  check_profiles identities profiles = Ok () →
  (∀ r, r ∈ profiles → malformed_profile r = false ∧ runtime_key r ∉ identities ∧
     (ModelRuntimeOfferV1.status r = ModelRuntimeStatus.Qualified → ModelRuntimeOfferV1.is_qualified_for_distributed r = true)) ∧
  NoDup (runtime_key <$> profiles).
Proof.
  revert identities. induction profiles as [|r profiles IH]; intros identities; cbn [check_profiles].
  { intros _. split; [by intros r ?%not_elem_of_nil|constructor]. }
  fold (runtime_key r). destruct (malformed_profile r) eqn:Hm; [done|]. case_bool_decide as Hi; [done|].
  destruct (_ && _) eqn:Hq; [done|]. intros (H & Hn)%IH. split.
  - intros r' [->|Hr']%elem_of_cons.
    + split_and!; [done..|]. intros Hs. rewrite Hs, bool_decide_eq_true_2 in Hq by done. cbn in Hq.
      by apply negb_false_iff in Hq.
    + destruct (H r' Hr') as (? & ? & ?). split_and!; [done|set_solver|done].
  - cbn. apply NoDup_cons. split; [|done]. intros (r' & Heq & Hr')%list_elem_of_fmap.
    destruct (H r' Hr') as (_ & Hk & _). apply Hk. rewrite <- Heq. set_solver.
Qed.

(** What the agent does not check of a runtime in the manifest, and the controller does. *)
Definition listed_well (offer : ResourceOfferV1.t) (r : ModelRuntimeOfferV1.t) : Prop :=
  blank (ModelRuntimeOfferV1.runtime_digest r) = false ∧
  ModelRuntimeOfferV1.available_model_bytes r <= runtime_capacity_from_offer offer r ∧
  ModelRuntimeOfferV1.adapter r ∈ ResourceOfferV1.adapters offer.

Lemma remote_profile r : malformed_profile r = false →
  ModelRuntimeOfferV1.backend r ≠ ModelBackend.LocalOllama ∧ ModelRuntimeOfferV1.adapter r ≠ "rampage.ollama.v1".
Proof.
  unfold malformed_profile. rewrite !orb_false_iff, !negb_false_iff. intros [[_ H] _]. unfold adapter_matches_backend in H.
  destruct (ModelRuntimeOfferV1.backend r); try done; (split; [done|]); intros Ha; by rewrite Ha in H.
Qed.
Lemma listed_runtime_accepted offer r :
  malformed_profile r = false → listed_well offer r →
  (ModelRuntimeOfferV1.status r = ModelRuntimeStatus.Qualified → ModelRuntimeOfferV1.is_qualified_for_distributed r = true) →
  malformed_runtime offer r = false ∧ ModelRuntimeOfferV1.installed_models r = [] ∧
  runtime_status_consistent r = true.
Proof.
  unfold malformed_profile. rewrite !orb_false_iff, !negb_false_iff. intros [[[[[[[H1 H2] H3] H4] H5] H6] H7] H8] (Hd & Hc & Ha) Hq.
  destruct (ModelRuntimeOfferV1.installed_models r) as [|model models] eqn:Hm; [|done].
  apply bool_decide_eq_false in H6. split_and!.
  - unfold malformed_runtime. rewrite H1, H2, H3, H4, H5, Hd, Hm, bool_decide_eq_true_2 by done.
    rewrite (proj2 (Z.ltb_ge _ _) Hc). done.
  - done.
  - unfold runtime_status_consistent. rewrite Hm. destruct (ModelRuntimeOfferV1.status r) eqn:Hs; [done..|].
    cbn. by apply Hq.
Qed.

(** The version a local Ollama server answers with, if it does, fits the contracts. *)
Definition sane_version (answers : Answers.t) : Prop :=
  ∀ v, ollama_version answers = Some v → blank v = false ∧ bounded_ascii 200 ("shipped-local:" +:+ v) = true.

Lemma local_capacity resources kind available offer r :
  local_memory resources = (kind, available) → ResourceOfferV1.resources offer = resources →
  ModelRuntimeOfferV1.memory_kind r = kind → ModelRuntimeOfferV1.available_model_bytes r = available →
  runtime_capacity_from_offer offer r = available.
Proof.
  unfold local_memory, runtime_capacity_from_offer. intros H <- Hk <-. rewrite Hk. revert H.
  unfold resource_bytes. destruct (_ && _); [|destruct (0 <? _)]; intros [= <- <-]; apply Z.min_id.
Qed.

Lemma local_runtime_accepted offer answers runtimes r :
  local_runtimes os arch (ResourceOfferV1.resources offer) answers = Ok runtimes → r ∈ runtimes →
  sane_version answers → "rampage.ollama.v1" ∈ ResourceOfferV1.adapters offer →
  runtimes = [r] ∧ ModelRuntimeOfferV1.backend r = ModelBackend.LocalOllama ∧
  bounded_ascii 200 (ModelRuntimeOfferV1.runtime_digest r) = true ∧
  malformed_runtime offer r = false ∧ runtime_status_consistent r = true ∧
  any_bad_or_repeated (λ model, negb (InstalledModelV1.is_valid model)) InstalledModelV1.model_id []
    (ModelRuntimeOfferV1.installed_models r) = false.
Proof.
  unfold local_runtimes. destruct (local_memory _) as [kind available] eqn:Hmem.
  destruct (0 <? available) eqn:Hpos; cbn [negb]; [|by intros [= <-] ?%not_elem_of_nil].
  intros (models & Hmodels & [= <-])%bind_ok_inv ->%list_elem_of_singleton Hv Ha.
  set (v := default _ _) in *. assert (blank v = false ∧ bounded_ascii 200 ("shipped-local:" +:+ v) = true) as [Hblank Hascii].
  { unfold v. destruct (ollama_version answers) eqn:E; cbn [default from_option id]; [by apply Hv|by vm_compute]. }
  apply bind_ok_inv in Hmodels as (payload & _ & Hmodels). destruct (_ <? len payload) in Hmodels; [done|].
  apply parse_ollama_models_sound in Hmodels as (Hvalid & Hn & Hz).
  set (r := ModelRuntimeOfferV1.mk _ _ _ _ _ _ _ _ _ _ _ _). split_and!; [done..| | |].
  - assert (runtime_capacity_from_offer offer r = available) as Hc by by eapply local_capacity.
    unfold malformed_runtime. rewrite Hc. change (ModelRuntimeOfferV1.available_model_bytes r) with available.
    change (ModelRuntimeOfferV1.runtime_version r) with v. change (ModelRuntimeOfferV1.installed_models r) with models.
    change (ModelRuntimeOfferV1.adapter r) with "rampage.ollama.v1".
    apply Z.ltb_lt in Hpos. rewrite Hblank, (bool_decide_eq_true_2 (_ ∈ _)), Z.ltb_irrefl, (proj2 (Z.eqb_neq available 0)), (proj2 (Z.ltb_ge 128 _)) by (done || lia).
    done.
  - vm_compute. done.
  - apply any_bad_false. split; [|done]. intros m Hm. cbn in Hm. destruct (Hvalid m Hm) as [-> _]. split; [done|by apply not_elem_of_nil].
Qed.

Lemma discovered_split offer has_ollama answers :
  discover_model_runtimes os arch (ResourceOfferV1.resources offer) has_ollama answers = Ok (ResourceOfferV1.model_runtimes offer) →
  ∃ local listed, ResourceOfferV1.model_runtimes offer = local ++ listed ∧
    (local = [] ∨ has_ollama = true ∧ local_runtimes os arch (ResourceOfferV1.resources offer) answers = Ok local) ∧
    check_profiles [] listed = Ok ().
Proof.
  unfold discover_model_runtimes. intros (local & Hlocal & H)%bind_ok_inv.
  assert (local = [] ∨ has_ollama = true ∧ local_runtimes os arch (ResourceOfferV1.resources offer) answers = Ok local)
    by (destruct has_ollama; [by right|left; congruence]).
  destruct (Answers.manifest answers) as [payload|].
  - apply bind_ok_inv in H as (listed & Hm & [= <-]). exists local, listed. split_and!; [done..|].
    unfold manifest_runtimes in Hm. apply bind_ok_inv in Hm as (text & _ & Hm).
    apply bind_ok_inv in Hm as (manifest & _ & Hm). destruct (_ != _); [done|]. destruct (_ <? _); [done|].
    apply bind_ok_inv in Hm as ([] & Hc & [= <-]). done.
  - injection H as <-. exists local, []. rewrite app_nil_r. done.
Qed.

(** What a machine advertises, the controller takes.  The runtimes and capabilities an
    agent discovers for its offer pass the controller's validation of the offer, if the
    versions fit the contracts, and if each runtime of the manifest has a digest, room in
    the memory offered and its adapter in the offer, and there are at most sixteen in all:
    what the agent itself does not check. *)
Lemma discovered_offer_accepted offer has_ollama answers :
  discover_model_runtimes os arch (ResourceOfferV1.resources offer) has_ollama answers = Ok (ResourceOfferV1.model_runtimes offer) →
  ResourceOfferV1.workload_capabilities offer =
    discover_workload_capabilities version (ResourceOfferV1.adapters offer) (ResourceOfferV1.model_runtimes offer) →
  bounded_ascii 200 (shipped_runtime version) = true → sane_version answers →
  (has_ollama = true → "rampage.ollama.v1" ∈ ResourceOfferV1.adapters offer) →
  (∀ r, r ∈ ResourceOfferV1.model_runtimes offer → ModelRuntimeOfferV1.backend r ≠ ModelBackend.LocalOllama →
     listed_well offer r) →
  zlen (ResourceOfferV1.model_runtimes offer) <= 16 →
  validate_model_runtime_contracts offer = Ok ().
Proof.
  intros (local & listed & Hsplit & Hlocal & [Hlisted Hkeys]%check_profiles_ok)%discovered_split Hcap Hversion Hsane Hadapter Hwell Hmax.
  assert (∀ r, r ∈ listed → ModelRuntimeOfferV1.backend r ≠ ModelBackend.LocalOllama) as Hremote.
  { intros r Hr. destruct (Hlisted r Hr) as (Hm & _ & _). by apply remote_profile in Hm as [? _]. }
  assert (∀ r, r ∈ local → local = [r] ∧ ModelRuntimeOfferV1.backend r = ModelBackend.LocalOllama ∧
    bounded_ascii 200 (ModelRuntimeOfferV1.runtime_digest r) = true ∧ malformed_runtime offer r = false ∧
    runtime_status_consistent r = true ∧
    any_bad_or_repeated (λ model, negb (InstalledModelV1.is_valid model)) InstalledModelV1.model_id []
      (ModelRuntimeOfferV1.installed_models r) = false) as Hown.
  { intros r Hr. destruct Hlocal as [->|[Ho Hl]]; [by apply not_elem_of_nil in Hr|].
    eapply local_runtime_accepted; [done..|]. by apply Hadapter. }
  destruct (capabilities_accepted (ResourceOfferV1.adapters offer) (ResourceOfferV1.model_runtimes offer)) as [H64 Hcaps]; [done| |].
  { rewrite Hsplit. intros r [Hr|Hr]%elem_of_app Ha; [by apply Hown|]. exfalso.
    destruct (Hlisted r Hr) as (Hm & _ & _). by apply remote_profile in Hm as [_ ?]. }
  unfold validate_model_runtime_contracts. rewrite Hcap, Hcaps, (proj2 (Z.ltb_ge _ _) H64), (proj2 (Z.ltb_ge _ _) Hmax).
  rewrite Hsplit in Hwell |- *. apply check_runtimes_ok.
  - intros r [Hr|Hr]%elem_of_app.
    + destruct (Hown r Hr) as (_ & _ & _ & ? & ? & ?). split_and!; [done|by apply not_elem_of_nil|done..].
    + destruct (Hlisted r Hr) as (Hm & _ & Hq). destruct (listed_runtime_accepted offer r) as (? & Hi & ?); [done| |done|].
      { apply Hwell; [set_solver|by apply Hremote]. }
      rewrite Hi. split_and!; [done|by apply not_elem_of_nil|done..].
  - rewrite fmap_app. apply NoDup_app. split_and!; [|intros k|done].
    + destruct local as [|r local]; [constructor|]. destruct (Hown r ltac:(set_solver)) as [[= ->] _]. apply NoDup_singleton.
    + intros (r & -> & Hr)%list_elem_of_fmap (r' & Hk & Hr')%list_elem_of_fmap.
      apply (Hremote r' Hr'). destruct (Hown r Hr) as (_ & Hb & _). unfold runtime_key in Hk. congruence.
Qed.
End models.

(** ** A machine and its manifest *)

Module DiscoveryWitness.
Import ReferenceCrypto.

Definition machine : Machine.t :=
  Machine.mk 16 (64 * GIB) (32 * GIB) true (Some ("RTX 4090, GPU-1, 24564, 20000, 3, 41" +:+ String "010" "bad line"))
    [Disk.mk "/" "ext4" (500 * GIB) true; Disk.mk "/mnt" "ext4" (900 * GIB) false] (Some "100") None (true, None).
Definition found : DiscoverySnapshot.t := discover {["device_kind" := "desktop"]} machine.
Example found_resources :
  (λ r, (ResourceQuantityV1.class r, ResourceQuantityV1.available r)) <$> DiscoverySnapshot.resources found =
  [(ResourceClass.CpuCompute, 15); (ResourceClass.RamWorkingSet, 32 * GIB * 8 / 10); (ResourceClass.RamCache, 32 * GIB * 6 / 10);
   (ResourceClass.GpuCompute, 97); (ResourceClass.GpuMemory, 20000 * 1024 * 1024);
   (ResourceClass.StorageCache, 60 * GIB); (ResourceClass.StorageScratch, 40 * GIB)].
Proof. vm_compute. reflexivity. Qed.
Example found_headroom : DiscoverySnapshot.thermal_headroom_percent found = 98.
Proof. vm_compute. reflexivity. Qed.

Definition profile (key digest : string) (bytes : Z) : ModelRuntimeOfferV1.t :=
  ModelRuntimeOfferV1.mk ModelRuntimeOfferV1.SCHEMA "rampage.vllm-ray.v1" ModelBackend.VllmRay "1.0" digest key
    ModelMemoryKind.Host bytes {[ModelParallelism.Pipeline]} ModelRuntimeStatus.Candidate [] None.
Definition keys : list string :=
  ["a"; "b"; "c"; "d"; "e"; "f"; "g"; "h"; "i"; "j"; "k"; "l"; "m"; "n"; "o"; "p"].
Definition manifest (profiles : list ModelRuntimeOfferV1.t) : ModelRuntimeManifestV1.t :=
  ModelRuntimeManifestV1.mk "rampage.model-runtime-manifest.v1" profiles.
Definition manifests : list ModelRuntimeManifestV1.t :=
  [manifest [profile "a" "digest" 1024]; manifest ((λ key, profile key "digest" 1024) <$> keys);
   manifest [profile "a" "" 1024]; manifest [profile "a" "digest" (64 * GIB)]].
#[local] Instance wire_manifest : Wire ModelRuntimeManifestV1.t := table (λ _, 0) manifests.
#[local] Instance wire_tags : Wire OllamaTags.t :=
  table (λ _, 0) [OllamaTags.mk [OllamaTag.mk (Some "llama3:8b") None 4661224676 (String.concat "" (replicate 64 "a"));
                                 OllamaTag.mk None (Some "gpt:120b-cloud") 5 "remote"]].
Definition answers (index : Z) : Answers.t :=
  Answers.mk true (Some (VObject [("version", VString "0.5.1")])) (Some (json_to_string (VInt 0)))
    (Some (Some (json_to_string (VInt index)))).
Definition runtimes (index : Z) : list ModelRuntimeOfferV1.t :=
  match discover_model_runtimes "linux" "x86_64" (DiscoverySnapshot.resources found) true (answers index) with
  | Ok runtimes => runtimes | Err _ => []
  end.
Definition adapters : gset string := {["rampage.hash.v1"; "rampage.ollama.v1"; "rampage.vllm-ray.v1"]}.
Definition offer (index : Z) : ResourceOfferV1.t :=
  ResourceOfferV1.mk "rampage.resource-offer.v1" 5 7 0 (minutes 1) (DiscoverySnapshot.resources found)
    (AvailabilityV1.mk true None 98 true true) adapters
    (discover_workload_capabilities "0.1.0" adapters (runtimes index)) (runtimes index) None None "".

Lemma discovered : discover_model_runtimes "linux" "x86_64" (DiscoverySnapshot.resources found) true (answers 0)
  = Ok (runtimes 0) ∧ ModelRuntimeOfferV1.adapter <$> runtimes 0 = ["rampage.ollama.v1"; "rampage.vllm-ray.v1"].
Proof. split; vm_compute; reflexivity. Qed.
Lemma runtimes_listed_well :
  Forall (λ r, ModelRuntimeOfferV1.backend r ≠ ModelBackend.LocalOllama → listed_well (offer 0) r) (runtimes 0).
Proof.
  assert (runtimes 0 = take 1 (runtimes 0) ++ [profile "a" "digest" 1024]) as -> by (vm_compute; reflexivity).
  assert (Forall (λ r, ModelRuntimeOfferV1.backend r = ModelBackend.LocalOllama) (take 1 (runtimes 0))) as Hlocal
    by (vm_compute; repeat constructor).
  apply Forall_app. split; [eapply Forall_impl; [exact Hlocal|]; by intros r Hr []|]. apply Forall_singleton. intros _.
  split_and!; [reflexivity|vm_compute; discriminate|by apply (bool_decide_unpack _); vm_compute].
Qed.

Lemma discovered_offer_accepted_witness : validate_model_runtime_contracts (offer 0) = Ok ().
Proof.
  apply (discovered_offer_accepted "linux" "x86_64" "0.1.0" (offer 0) true (answers 0)).
  - exact (proj1 discovered).
  - reflexivity.
  - vm_compute. reflexivity.
  - intros v Hv. injection Hv as <-. vm_compute. split; reflexivity.
  - intros _. apply (bool_decide_unpack _). vm_compute. exact I.
  - intros r Hr. pose proof runtimes_listed_well as Hall. rewrite Forall_forall in Hall. exact (Hall r Hr).
  - vm_compute. discriminate.
Defined.

(** A manifest of sixteen profiles, one without a digest, and one that asks for more memory
    than the machine offers: the agent takes each, and the controller refuses the offer. *)
Example manifest_refused :
  (λ index, (length (runtimes index), validate_model_runtime_contracts (offer index))) <$> [1; 2; 3] =
  [(17%nat, Err "offer exceeds the 16 model-runtime profile limit");
   (2%nat, Err "offer contains a malformed or contradictory model-runtime profile");
   (2%nat, Err "offer contains a malformed or contradictory model-runtime profile")].
Proof. vm_compute. reflexivity. Qed.
End DiscoveryWitness.
