(* ===== verification/AgentFacts.v ===== *)
(** * Facts about the agent process

    The clock it keeps of the controller is within half a round trip; its loop has at most one
    claim in execution and backs off within bounds; what it offers, the controller registers.
    A receipt that could not be delivered is lost when the next one is ready. *)

From S2P Require Import Prelude.
From S2P Require Import Codec.
From S2P Require Import Text.
From S2P Require Import Contracts.
From S2P Require Import Wire.
From S2P Require Import Signing.
From S2P Require Import Governor.
From S2P Require Import Storage.
From S2P Require Import StorageFacts.
From S2P Require Import Worker.
From S2P Require Import WorkerFacts.
From S2P Require Import RemoteAssist.
From S2P Require Import Net.
From S2P Require Import Mesh.
From S2P Require Import Packing.
From S2P Require Import Process.
From S2P Require Import Discovery.
From S2P Require Import Agent.
From S2P Require Import ControllerState.
From S2P Require Import Controller.
From S2P Require Import Samples.
From S2P Require Import DiscoveryFacts.
From S2P Require Import Registration.
Import Text Controller.
#[local] Open Scope Z_scope.

(** ** Routes *)

(** Whatever the local networks are, the destination chosen for a controller is under its
    identity, keeps every relay, and dials no address the record does not list. *)
Lemma destination_sound aggregate candidates networks :
  (∀ candidate, candidate ∈ candidates → addr_id candidate = addr_id aggregate ∧
     ∀ address, address ∈ addrs candidate → address ∈ addrs aggregate) →
  let destination := select_controller_destination_for aggregate candidates networks in
  addr_id destination = addr_id aggregate ∧
  (∀ address, address ∈ addrs aggregate → is_relay address = true → address ∈ addrs destination) ∧
  (∀ address, address ∈ addrs destination → address ∈ addrs aggregate).
Proof.
  intros Hc. unfold select_controller_destination_for.
  destruct (List.find _ candidates) as [preferred|] eqn:Hf; [|done].
  apply find_some in Hf as [Hin%list_elem_of_In _]. destruct (Hc _ Hin) as [Hid Haddrs]. cbn. split_and!; [done|..].
  - intros address Ha Hr. apply elem_of_app. right. apply list_elem_of_In, filter_In. split; [|done]. by apply list_elem_of_In.
  - intros address [Ha|Ha]%elem_of_app; [by apply Haddrs|]. apply list_elem_of_In, filter_In in Ha as [Ha _]. by apply list_elem_of_In.
Qed.

(** ** The clock *)

(** The estimate is off by at most half the round trip (rounded up), whenever in it the
    controller read its clock. *)
Lemma offset_error local_sent_at round_trip t difference offset :
  0 <= t <= round_trip →
  estimated_controller_clock_offset local_sent_at round_trip (local_sent_at + t + difference) = Some offset →
  Z.abs (offset - difference) <= round_trip / 2 + 1.
Proof.
  unfold estimated_controller_clock_offset. intros Ht. destruct (_ <? _); [done|]. intros [= <-].
  Z.to_euclidean_division_equations. lia.
Qed.

(** ** The link *)

Lemma effective_bps_bounds bytes elapsed rtt :
  0 <= bytes → 1 <= effective_bps bytes elapsed rtt <= Z.max 1 (bytes * 8 * 1000).
Proof.
  intros Hb. unfold effective_bps. set (d := Z.max (sat_sub elapsed rtt) 1000). split; [lia|].
  apply Z.max_lub; [|lia]. apply Z.le_trans with (bytes * 8 * 1000); [|lia].
  assert (sat_mul (sat_mul bytes 8) 1000000 <= bytes * 8 * 1000000) as Hs by (unfold sat_mul; lia).
  assert (0 <= sat_mul (sat_mul bytes 8) 1000000) as H0 by (unfold sat_mul, u64_max; lia).
  apply Z.div_le_upper_bound; [lia|]. nia.
Qed.

Section agent.
Context {codec : Codec} {pretty : Pretty} {crypto : Crypto} {laws : CryptoLaws codec crypto} {ser : Serializer}
        {vault : Vault} {display : Display} {render : Render} {base64 : Base64} {wire_mesh : MeshWire}
        {wire_receipt : Wire ExecutionReceiptV1.t} {wire_offer : Wire ResourceOfferV1.t}
        {wire_claim : Wire WorkClaimV1.t}
        {wire_tags : Wire OllamaTags.t} {wire_manifest : Wire ModelRuntimeManifestV1.t}.
Context (os arch version : string) (reports : nat → Answers.t)
        (remote_info : nat → option (list (bool * TransportAddr))).
Context (signing_key : SigningKey) (node_id : Uuid) (transport : ControllerTransport.t).
(** What the machine was found to have when the process started. *)
Context (resources : list ResourceQuantityV1.t) (availability : AvailabilityV1.t).
Hypothesis reports_sane : ∀ n, sane_version (reports n).

(** ** The invariant of the loop *)

Definition measured (b : LinkBenchmarkV1.t) : Prop :=
  transport = ControllerTransport.Mesh (LinkBenchmarkV1.controller_endpoint_id b) ∧
  LinkBenchmarkV1.schema b = LinkBenchmarkV1.SCHEMA ∧ 1 <= LinkBenchmarkV1.rtt_micros_p50 b ∧
  1 <= LinkBenchmarkV1.uplink_bps b ∧ 1 <= LinkBenchmarkV1.downlink_bps b ∧
  LinkBenchmarkV1.transfer_bytes b = LINK_BENCHMARK_TRANSFER_BYTES ∧ LinkBenchmarkV1.samples b = 3 ∧
  LinkBenchmarkV1.transport b = "authenticated_quic".
(** The capabilities are the adapters', and the runtimes are what the services reported. *)
Definition advertised (o : ResourceOfferV1.t) : Prop :=
  ResourceOfferV1.workload_capabilities o =
    discover_workload_capabilities version (ResourceOfferV1.adapters o) (ResourceOfferV1.model_runtimes o) ∧
  (ResourceOfferV1.model_runtimes o = [] ∨
   ∃ has_ollama n, (has_ollama = true → "rampage.ollama.v1" ∈ ResourceOfferV1.adapters o) ∧
     discover_model_runtimes os arch (ResourceOfferV1.resources o) has_ollama (reports n) = Ok (ResourceOfferV1.model_runtimes o)).
Record described (o : ResourceOfferV1.t) : Prop := {
  describes_node : ResourceOfferV1.node_id o = node_id;
  describes_resources : ResourceOfferV1.resources o = resources;
  describes_availability : ResourceOfferV1.availability o = availability;
  describes_runtimes : advertised o;
  describes_link : ∀ b, ResourceOfferV1.link_benchmark o = Some b → measured b
}.
Record well (s : Agent.t) : Prop := {
  one_claim : Agent.work_in_flight s = is_some (Agent.executing s);
  one_refresh : Agent.capability_refresh_in_flight s = is_some (Agent.refreshing s);
  one_probe : Agent.link_probe_in_flight s = is_some (Agent.probing s);
  backs_off : seconds 1 <= Agent.reconnect_delay s <= seconds 10;
  offer_described : described (Agent.offer s);
  refreshing_described : ∀ o, Agent.refreshing s = Some o → described o
}.

(** An update that touches neither the flags nor the offer. *)
Definition minor (f : Agent.t → Agent.t) : Prop := ∀ s,
  Agent.work_in_flight (f s) = Agent.work_in_flight s ∧ Agent.executing (f s) = Agent.executing s ∧
  Agent.capability_refresh_in_flight (f s) = Agent.capability_refresh_in_flight s ∧
  Agent.refreshing (f s) = Agent.refreshing s ∧ Agent.link_probe_in_flight (f s) = Agent.link_probe_in_flight s ∧
  Agent.probing (f s) = Agent.probing s ∧ Agent.reconnect_delay (f s) = Agent.reconnect_delay s ∧
  Agent.offer (f s) = Agent.offer s.
Lemma well_minor f s : minor f → well s → well (f s).
Proof.
  intros Hf []. destruct (Hf s) as (H1 & H2 & H3 & H4 & H5 & H6 & H7 & H8).
  split; rewrite ?H1, ?H2, ?H3, ?H4, ?H5, ?H6, ?H7, ?H8; done.
Qed.
Lemma holds_minor f : minor f → holds well (on f) (λ _, True).
Proof. intros Hf. apply holds_change. intros s. by apply well_minor. Qed.
Lemma holds_on f : (∀ s, well s → well (f s)) → holds well (on f) (λ _, True).
Proof. apply holds_change. Qed.
#[local] Hint Resolve holds_minor : holds.
#[local] Hint Extern 2 (minor _) => (intros []; repeat split) : holds.

Lemma holds_call deadline one_shot request : holds well (call deadline one_shot request) (λ _, True).
Proof. apply holds_quiet, quiet_call. Qed.
#[local] Hint Resolve holds_call : holds.
Lemma holds_instant_after d : holds well (instant_after d) (λ _, True).
Proof. unfold instant_after. hold; done. Qed.
Lemma holds_now_is_past d : holds well (now_is_past d) (λ _, True).
Proof. unfold now_is_past. hold; done. Qed.
#[local] Hint Resolve holds_instant_after holds_now_is_past : holds.
Lemma holds_observe local_sent_at started body :
  holds well (observe_controller_time local_sent_at started body) (λ _, True).
Proof. unfold observe_controller_time. hold; done. Qed.
#[local] Hint Resolve holds_observe : holds.
Lemma holds_request method path body deadline one_shot :
  holds well (request_with_policy method path body deadline one_shot) (λ _, True).
Proof. unfold request_with_policy. hold; done. Qed.
#[local] Hint Resolve holds_request : holds.
Lemma holds_controller_now : holds well (controller_now transport) (λ _, True).
Proof. unfold controller_now. hold; done. Qed.
Lemma holds_success response : holds well (ensure_success response) (λ _, True).
Proof. unfold ensure_success. hold; done. Qed.
#[local] Hint Resolve holds_success : holds.
Lemma holds_post `{Wire A} path (body : A) deadline :
  holds well (post_json_with_deadline transport path body deadline) (λ _, True).
Proof. unfold post_json_with_deadline, request_with_deadline. hold; done. Qed.
Lemma holds_claim path deadline : holds well (get_claim_with_deadline transport path deadline) (λ _, True).
Proof. unfold get_claim_with_deadline, request_with_deadline. hold; done. Qed.
#[local] Hint Resolve holds_controller_now holds_post holds_claim : holds.
Lemma holds_endpoint issued_at expires_at :
  holds well (signed_worker_endpoint signing_key transport issued_at expires_at) (λ _, True).
Proof. unfold signed_worker_endpoint. hold; done. Qed.
#[local] Hint Resolve holds_endpoint : holds.

(** ** The measurement *)

Lemma holds_micros started : holds well (micros_since started) (λ _, True).
Proof. unfold micros_since. hold; done. Qed.
#[local] Hint Resolve holds_micros : holds.
Lemma holds_sample : holds well rtt_sample (λ _, True).
Proof. unfold rtt_sample, request_with_deadline. hold. Qed.
Lemma holds_transfer upload encoded bytes : holds well (probe_transfer node_id upload encoded bytes) (λ _, True).
Proof. unfold probe_transfer, request_with_deadline. hold; done. Qed.
#[local] Hint Resolve holds_sample holds_transfer : holds.
Lemma holds_measure observed_at :
  holds well (measure_link remote_info node_id transport observed_at)
    (λ b, ∀ benchmark, b = Some benchmark → measured benchmark).
Proof.
  unfold measure_link. destruct transport as [|endpoint_id] eqn:Ht; hold; [done|]. intros benchmark [= <-].
  unfold measured. cbn. rewrite Ht. split_and!; try done; try apply effective_bps_bounds; try done. lia.
Qed.
#[local] Hint Resolve holds_measure : holds.

(** ** The updates *)

Lemma described_capabilities o answers assist o' :
  described o → described o' → (∃ (env : Surroundings) n, answers = reports n) →
  let refreshed := refresh_dynamic_capabilities os arch version answers assist o' in
  described (with_capabilities (ResourceOfferV1.adapters refreshed) (ResourceOfferV1.model_runtimes refreshed)
               (ResourceOfferV1.workload_capabilities refreshed) o).
Proof.
  intros [Hn Hr Ha Hd Hl] [Hn' Hr' _ _ _] (_ & n & ->). cbn zeta. split; try done. split; [done|].
  cbn [ResourceOfferV1.adapters ResourceOfferV1.model_runtimes ResourceOfferV1.resources with_capabilities
       refresh_dynamic_capabilities].
  destruct (discover_model_runtimes _ _ _ _ _) as [profiles|e] eqn:E; [right|by left].
  exists (Answers.available (reports n)), n. rewrite Hr, <- Hr'. split; [|exact E].
  intros ->. destruct assist; set_solver.
Qed.
Lemma described_link o b : described o → (∀ benchmark, b = Some benchmark → measured benchmark) →
  described (with_link_benchmark b o).
Proof. intros [Hn Hr Ha Hd Hl] Hb. by split. Qed.
Lemma described_renewed o offer_id now endpoint : described o → described (renewed signing_key offer_id now endpoint o).
Proof.
  intros [Hn Hr Ha Hd Hl]. split; try done. intros b. cbn. destruct (is_some_and _ _); [done|apply Hl].
Qed.
Lemma well_offer f s : (∀ o, described o → described (f o)) → well s → well (Agent.set_offer (f (Agent.offer s)) s).
Proof. intros Hf []. split; cbn; auto. Qed.

(** ** The steps of a turn *)

Lemma holds_receive_capabilities : holds well (receive_capabilities os arch version reports) (λ _, True).
Proof.
  unfold receive_capabilities. hold; try done.
  - match goal with H : ∃ s, well s ∧ _ |- _ => destruct H as (s0 & Hs0 & Heq) end.
    apply holds_on. intros s Hs. apply well_offer; [|done]. intros o Ho. apply described_capabilities; [done| |done].
    apply (refreshing_described s0); [done|congruence].
  - apply holds_on. intros s []. split; cbn; done.
Qed.
Lemma holds_receive_link : holds well (receive_link_probe remote_info node_id transport) (λ _, True).
Proof.
  unfold receive_link_probe. hold; try done.
  - apply holds_on. intros s []. split; cbn; done.
  - apply holds_on. intros s Hs. apply well_offer; [|done]. intros o' Ho. apply described_link; [done|].
    match goal with H : match ?r with _ => _ end = _ |- _ => destruct r; injection H as <- _ end; [eauto|done].
Qed.
Lemma holds_start_refresh : holds well start_capability_refresh (λ _, True).
Proof.
  unfold start_capability_refresh. hold; try done.
  apply holds_on. intros s []. split; cbn; try done. by intros o [= <-].
Qed.
Lemma holds_renew : holds well (renew_offer signing_key transport) (λ _, True).
Proof.
  unfold renew_offer. hold; try done. apply holds_on. intros s Hs. apply well_offer; [|done].
  intros o. apply described_renewed.
Qed.
#[local] Hint Resolve holds_renew : holds.
Lemma holds_post_offer : holds well (post_offer signing_key transport) (λ _, True).
Proof.
  unfold post_offer. hold; try done.
  - apply holds_on. intros s []. split; cbn; done || (unfold seconds in *; lia).
  - apply holds_on. intros s []. split; cbn; done || (unfold seconds in *; lia).
Qed.
Lemma holds_deliver : holds well (deliver_receipt transport) (λ _, True).
Proof. unfold deliver_receipt. hold; done. Qed.
Lemma holds_execute claim : holds well (execute signing_key node_id claim) (λ _, True).
Proof. unfold execute. hold; done. Qed.
#[local] Hint Resolve holds_execute : holds.
Lemma holds_receive_execution : holds well (receive_execution signing_key node_id) (λ _, True).
Proof. unfold receive_execution. hold; try done. apply holds_on. intros s []. split; cbn; done. Qed.
Lemma holds_poll : holds well (poll_work node_id transport) (λ _, True).
Proof. unfold poll_work. hold; try done. apply holds_on. intros s []. split; cbn; done. Qed.
Lemma holds_start_probe : holds well (start_link_probe transport) (λ _, True).
Proof. unfold start_link_probe. hold; try done. apply holds_on. intros s []. split; cbn; done. Qed.
#[local] Hint Resolve holds_receive_capabilities holds_receive_link holds_start_refresh holds_post_offer holds_deliver
  holds_receive_execution holds_poll holds_start_probe : holds.
Lemma holds_turn : holds well (turn os arch version reports remote_info signing_key node_id transport) (λ _, True).
Proof. unfold turn. hold; done. Qed.
Lemma holds_serve n : holds well (serve os arch version reports remote_info signing_key node_id transport n) (λ _, True).
Proof.
  induction n as [|n IH]; cbn [serve]; hold; try done. eapply holds_any, holds_turn.
Qed.

(** ** The offers *)

Lemma advertised_accepted offer :
  advertised offer → bounded_ascii 200 (shipped_runtime version) = true →
  (∀ r, r ∈ ResourceOfferV1.model_runtimes offer → ModelRuntimeOfferV1.backend r ≠ ModelBackend.LocalOllama →
     listed_well offer r) →
  zlen (ResourceOfferV1.model_runtimes offer) <= 16 →
  validate_model_runtime_contracts offer = Ok ().
Proof.
  intros [Hcap [Hnone|(has_ollama & n & Ha & Hd)]] Hversion Hwell Hmax; [|by eapply discovered_offer_accepted].
  destruct (capabilities_accepted version (ResourceOfferV1.adapters offer) []) as [H64 Hok];
    [done|by intros r ?%not_elem_of_nil|].
  unfold validate_model_runtime_contracts. rewrite Hcap, Hnone, Hok, (proj2 (Z.ltb_ge _ _) H64). done.
Qed.

Lemma binding_ext identity o o' :
  ResourceOfferV1.resources o = ResourceOfferV1.resources o' →
  ResourceOfferV1.availability o = ResourceOfferV1.availability o' →
  validate_offer_identity_binding identity o = validate_offer_identity_binding identity o'.
Proof. intros Hr Ha. unfold validate_offer_identity_binding. by rewrite Hr, Ha. Qed.

(** What a renewal makes of the offer. *)
Lemma renew_is env w w' :
  renew_offer signing_key transport env w = (Ok (), w') →
  ∃ offer_id now endpoint,
    Agent.offer (state w') = renewed signing_key offer_id now endpoint (Agent.offer (state w)) ∧
    ∀ e, endpoint = Some e → ∃ n, e = sign_mesh_endpoint signing_key
      (MeshEndpointRecordV1.mk MeshEndpointRecordV1.SCHEMA (address_id (Process.address env n))
         (ip_addrs (Process.address env n)) (relay_addrs (Process.address env n)) now (now + OFFER_LIFETIME) "").
Proof.
  unfold renew_offer, controller_now, signed_worker_endpoint. destruct transport as [|id].
  - intros [= <-]. do 3 eexists. split; [reflexivity|]. by intros e.
  - intros [= <-]. do 3 eexists. split; [reflexivity|]. intros e [= <-]. eexists. reflexivity.
Qed.

Lemma measured_valid b now :
  measured b → transport = ControllerTransport.Mesh (LinkBenchmarkV1.controller_endpoint_id b) →
  LinkBenchmarkV1.observed_at b <= now → now + OFFER_LIFETIME <= LinkBenchmarkV1.expires_at b →
  LinkBenchmarkV1.is_valid_for b (LinkBenchmarkV1.controller_endpoint_id b) now (now + OFFER_LIFETIME) = true.
Proof.
  intros (_ & Hs & Hr & Hu & Hd & Ht & Hn & Hq) _ Ho He. unfold LinkBenchmarkV1.is_valid_for.
  rewrite Hs, Ht, Hn, Hq. repeat (apply andb_true_intro; split); try (by apply bool_decide_eq_true_2);
    try apply Z.leb_le; try apply Z.ltb_lt; try lia; done.
Qed.

Context {wire : ContractWire}.


(** ** The clock of the controller *)

Lemma offset_within sent took t difference :
  0 <= t <= took → Z.abs difference + took <= seconds MAX_TRUSTED_CLOCK_OFFSET_SECONDS →
  ∃ offset, estimated_controller_clock_offset sent took (sent + t + difference) = Some offset ∧
    trusted_offset offset = true ∧ Z.abs (offset - difference) <= took / 2 + 1.
Proof.
  intros Ht Hday. destruct (estimated_controller_clock_offset _ _ _) as [offset|] eqn:He.
  - pose proof (offset_error _ _ _ _ _ Ht He) as Herr. exists offset. split; [done|]. split; [|done].
    unfold trusted_offset, MAX_TRUSTED_CLOCK_OFFSET_SECONDS, seconds in *. apply Z.leb_le.
    Z.to_euclidean_division_equations. lia.
  - exfalso. unfold estimated_controller_clock_offset, MAX_DURATION, i64_max, seconds, MAX_TRUSTED_CLOCK_OFFSET_SECONDS in *.
    destruct (_ <? _) eqn:Hlt in He; [|done]. apply Z.ltb_lt in Hlt. Z.to_euclidean_division_equations. lia.
Qed.
Lemma offset_beyond sent took t difference offset :
  0 <= t <= took → seconds (MAX_TRUSTED_CLOCK_OFFSET_SECONDS + 1) + took < Z.abs difference →
  estimated_controller_clock_offset sent took (sent + t + difference) = Some offset → trusted_offset offset = false.
Proof.
  intros Ht Hday He. pose proof (offset_error _ _ _ _ _ Ht He) as Herr.
  unfold trusted_offset, MAX_TRUSTED_CLOCK_OFFSET_SECONDS, seconds in *. apply Z.leb_gt.
  Z.to_euclidean_division_equations. lia.
Qed.

(** What a successful request leaves of the clock, when the response tells the time. *)
Lemma request_observes method path body deadline one_shot env w response w' time :
  request_with_policy method path body deadline one_shot env w = (Ok response, w') →
  response_controller_time (MeshControlResponseV1.body response) = Some time →
  0 <= instant env (4 + draws w) - instant env (2 + draws w) →
  Agent.controller_clock_offset (state w') =
    match estimated_controller_clock_offset (Process.clock env (1 + draws w))
            (instant env (4 + draws w) - instant env (2 + draws w)) time with
    | Some offset => if trusted_offset offset then offset else Agent.controller_clock_offset (state w)
    | None => Agent.controller_clock_offset (state w)
    end.
Proof.
  intros Hrequest Htime Htook. unfold request_with_policy in Hrequest.
  apply P_bind_ok in Hrequest as (request_id & w1 & [= <- <-] & H). apply P_bind_ok in H as (at_ & w2 & [= <- <-] & H).
  apply P_bind_ok in H as (started & w3 & [= <- <-] & H). apply P_bind_ok in H as (answer & w4 & Hcall & H).
  apply P_bind_ok in H as ([] & w5 & Hobserve & [= -> ->]). cbn [draws] in *.
  assert (draws w4 = Datatypes.S (Datatypes.S (Datatypes.S (Datatypes.S (draws w)))) ∧ state w4 = state w)
    as [Hdraws Hstate] by by injection Hcall as _ <-.
  unfold observe_controller_time in Hobserve. rewrite Htime in Hobserve.
  apply P_bind_ok in Hobserve as (finished & w6 & [= <- <-] & H). rewrite Hdraws in H.
  rewrite <-Hstate. cbn [Nat.add] in *. unfold sat_sub in H. rewrite Z.max_r in H by lia.
  destruct (estimated_controller_clock_offset _ _ _) as [offset|]; [destruct (trusted_offset offset)|]; by injection H as <-.
Qed.

(** [C26] The agent's idea of the controller's clock.  When a response tells the controller's
    time, read at some moment between the request and the response, and the clocks differ, then
    what the process takes for the controller's time over the mesh is from then on its own
    clock plus the true difference, up to half of the time the request took and one
    nanosecond, if the difference and that time together are at most a day; and if the clocks
    differ by more than a day, a second and that time, the response changes nothing. *)
Theorem controller_clock_bounded method path body deadline one_shot env w response w' t difference :
  request_with_policy method path body deadline one_shot env w = (Ok response, w') →
  let sent_at := Process.clock env (1 + draws w) in
  let took := instant env (4 + draws w) - instant env (2 + draws w) in
  0 <= t <= took →
  response_controller_time (MeshControlResponseV1.body response) = Some (sent_at + t + difference) →
  ∀ env' now w'', controller_now transport env' w' = (Ok now, w'') →
    transport ≠ ControllerTransport.Http →
    (Z.abs difference + took <= seconds MAX_TRUSTED_CLOCK_OFFSET_SECONDS →
       Z.abs (now - (Process.clock env' (draws w') + difference)) <= took / 2 + 1) ∧
    (seconds (MAX_TRUSTED_CLOCK_OFFSET_SECONDS + 1) + took < Z.abs difference →
       now = Process.clock env' (draws w') + Agent.controller_clock_offset (state w)).
Proof.
  intros Hrequest sent_at took Ht Htime env' now w'' Hnow Hmesh.
  pose proof (request_observes _ _ _ _ _ _ _ _ _ _ Hrequest Htime ltac:(lia)) as Hoffset.
  fold sent_at took in Hoffset.
  assert (now = Process.clock env' (draws w') + Agent.controller_clock_offset (state w')) as ->.
  { unfold controller_now in Hnow. destruct transport as [|id]; [done|]. by injection Hnow as <- _. }
  rewrite Hoffset. split; intros Hday.
  - destruct (offset_within sent_at took t difference Ht Hday) as (offset & -> & -> & Herr). lia.
  - destruct (estimated_controller_clock_offset _ _ _) as [offset|] eqn:He; [|done].
    by rewrite (offset_beyond _ _ _ _ _ Ht Hday He).
Qed.

(** No answer over the mesh tells the controller's time, as the refusal of an offer does not. *)
Definition tells_nothing (env : Surroundings) : Prop := ∀ deadline n request one_shot response,
  (control_request_with_policy deadline (connected env n) (Process.elapsed env n) (answered env n) request one_shot).1
    = Ok response → response_controller_time (MeshControlResponseV1.body response) = None.
Definition keeps_clock {A} (env : Surroundings) (m : P Agent.t A) : Prop := ∀ w,
  Agent.controller_clock_offset (state (m env w).2) = Agent.controller_clock_offset (state w).
Lemma keeps_clock_bind {A B} env (m : P Agent.t A) (f : A → P Agent.t B) :
  keeps_clock env m → (∀ a, keeps_clock env (f a)) → keeps_clock env (m ≫= f).
Proof.
  intros Hm Hf w. unfold mbind, P_bind. specialize (Hm w). destruct (m env w) as [[a|e] w1]; [|done].
  by rewrite Hf.
Qed.
Lemma keeps_clock_request env method path body deadline one_shot :
  tells_nothing env → keeps_clock env (request_with_policy method path body deadline one_shot).
Proof.
  intros Hnone w. unfold request_with_policy, mbind, P_bind, draw, call. cbn [draws sent state].
  destruct (map_err _ _) as [response|e] eqn:He; [|done]. apply map_err_ok in He.
  unfold observe_controller_time. by rewrite (Hnone _ _ _ _ _ He).
Qed.
(** A worker whose offers are refused does not correct its clock: as long as no answer tells the
    time, an offer dated ahead of the controller is renewed with the same offset. *)
Lemma refused_offer_keeps_clock env w :
  tells_nothing env → Agent.controller_clock_offset (state (post_offer signing_key transport env w).2) =
    Agent.controller_clock_offset (state w).
Proof.
  intros Hnone. revert w. fold (keeps_clock env (post_offer signing_key transport)).
  assert (∀ o : ResourceOfferV1.t, keeps_clock env (outcome (post_json_with_deadline transport "/v1/offers" o WORK_CONTROL_REQUEST_DEADLINE))) as Hpost.
  { intros o w. unfold outcome.
    assert (keeps_clock env (post_json_with_deadline transport "/v1/offers" o WORK_CONTROL_REQUEST_DEADLINE)) as Hk.
    { unfold post_json_with_deadline. destruct transport.
      - intros w'. unfold mbind, P_bind, draw. cbn. destruct (Process.http env _) as [[status text]|]; [|done].
        cbn. by destruct (is_success status).
      - apply keeps_clock_bind; [by apply keeps_clock_request|]. intros response w'. unfold ensure_success. by destruct (is_success _). }
    specialize (Hk w). by destruct (post_json_with_deadline _ _ _ _ env w). }
  unfold post_offer. apply keeps_clock_bind; [done|]. intros deadline. apply keeps_clock_bind; [done|]. intros due.
  destruct (negb due); [done|]. apply keeps_clock_bind.
  { intros w. unfold renew_offer, controller_now, signed_worker_endpoint. by destruct transport. }
  intros _. apply keeps_clock_bind; [done|]. intros o. apply keeps_clock_bind; [apply Hpost|]. by intros [[]|e].
Qed.
End agent.

(** ** Three turns of a worker *)

Module Desk.
Import ReferenceCrypto StorageFacts.Witness WorkerFacts.Witness Samples.

#[local] Instance pretty : Pretty := {| json_to_string_pretty := json_to_string |}.

Definition key : @SigningKey reference_crypto := "desk".
Definition identity : NodeIdentityV1.t :=
  NodeIdentityV1.mk NodeIdentityV1.SCHEMA 3 9 "desk" DeviceKind.Desktop "linux" (hex_encode (verifying_key key)) 0 0.
Definition mesh : ControllerTransport.t := ControllerTransport.Mesh "controller".

(** Two claims, under leases of their own, and what executing the first and then the second yields. *)
Definition task (id : Uuid) (value : string) : WorkClaimV1.t :=
  WorkClaimV1.mk WorkClaimV1.SCHEMA
    (JobSpecV1.mk JobSpecV1.SCHEMA id 8 9 "rampage.echo.v1" "echo" {["value" := value]} [] []
       WorkloadTrust.NativeTrusted true ∅ (seconds 50) value)
    (sign_contract (T := CapabilityLeaseV1.t) governor_key
       (CapabilityLeaseV1.mk CapabilityLeaseV1.SCHEMA (20 + id) id 3 8 "rampage.echo.v1" "echo" ∅ [] ∅ 0 (seconds 50)
          value 4 ""))
    (hex_encode (verifying_key governor_key)).
Definition work : list WorkClaimV1.t := [task 1 "hi"; task 2 "ho"].
Definition executed (store : CasStore.t) (task : WorkClaimV1.t) : list ExecutionReceiptV1.t * CasStore.t :=
  let '(r, store) := Worker.execute_claim_with_store (env (seconds 1)) task 3 4 key store in
  (match r with Ok receipt => [receipt] | Err _ => [] end, store).
Definition first : list ExecutionReceiptV1.t * CasStore.t := executed (CasStore.open_with_limits None) (task 1 "hi").
Definition second : list ExecutionReceiptV1.t := (executed first.2 (task 2 "ho")).1.
#[local] Instance wire_claim : Wire WorkClaimV1.t := table (λ _, 0) work.
#[local] Instance wire_receipt : Wire ExecutionReceiptV1.t :=
  table (λ r, ExecutionReceiptV1.job_id r - 1) (first.1 ++ second).
#[local] Instance wire_offer : Wire ResourceOfferV1.t := unsent.
#[local] Instance wire_tags : Wire OllamaTags.t := unsent.
#[local] Instance wire_manifest : Wire ModelRuntimeManifestV1.t := unsent.
Definition answer (status : Z) (body : Value) : MeshControlResponseV1.t :=
  MeshControlResponseV1.mk MeshControlResponseV1.SCHEMA 5 status body.
#[local] Instance wire_mesh : MeshWire := {|
  wire_control_request := unsent;
  wire_control_response :=
    table (λ _, 0) [answer 201 (VObject [("controller_time", VString (to_rfc3339 (seconds 7)))]);
                    answer 200 (VInt 0); answer 200 (VInt 1)];
  wire_artifact_request := unsent; wire_artifact_response := unsent; wire_model_request := unsent;
  wire_model_frame := unsent; wire_desktop_request := unsent; wire_desktop_response := unsent
|}.
Definition answers : nat → Answers.t := λ _, Answers.mk false None None None.
Definition resources : list ResourceQuantityV1.t :=
  [ResourceQuantityV1.mk ResourceClass.CpuCompute 8 7 "logical_core" {["device_kind" := "desktop"]}].
Definition availability : AvailabilityV1.t := AvailabilityV1.mk true None 70 true true.
Definition adapters : gset string := {["rampage.echo.v1"; "rampage.hash.v1"]}.
Definition first_offer : ResourceOfferV1.t :=
  sign_offer key (ResourceOfferV1.mk "rampage.resource-offer.v1" 4 3 0 OFFER_LIFETIME resources availability adapters
    (discover_workload_capabilities "0.1.0" adapters []) [] None None "").
Definition start : World Agent.t :=
  mkWorld 0 [] (Agent.mk first_offer None false None false None false false (seconds 1) 0 0 0 CAPABILITY_REFRESH_INTERVAL
    None (CasStore.open_with_limits None) 0 RemoteAssist.Missing).
Definition replies (l : list (nat * Z)) (n : nat) : Timed Link :=
  match List.find (λ p, Nat.eqb p.1 n) l with
  | Some (_, index) => Completed (Some (λ _, Some (json_to_string (VInt index))))
  | None => Elapsed
  end.
Definition surroundings_at (ticks : nat → Z) (l : list (nat * Z)) (sights : list nat) : Surroundings :=
  mkSurroundings (λ _, seconds 5) (λ _, 5) (λ _, "secret") (λ _, mkAddress (hex_encode (verifying_key key)) [] [])
    (λ _, Some 8) (replies l) (λ _, 0) (λ _, Completed ()) (λ _, env (seconds 1)) ticks
    (λ n, bool_decide (n ∈ sights)) (λ _, None) (λ _, false).
Definition surroundings : list (nat * Z) → list nat → Surroundings := surroundings_at (λ _, 0).
Definition run (l : list (nat * Z)) (sights : list nat) (n : nat) : result Trouble.t bool * World Agent.t :=
  serve "linux" "x86_64" "0.1.0" answers (λ _, None) key 3 mesh n (surroundings l sights) start.

(** The first turn posts the offer and takes the first claim; the second finds it executed and
    takes the second; in the third the controller cannot be reached with the first receipt, the
    second is executed, and its receipt takes the place of the first. *)
Definition script : list (nat * Z) := [(11%nat, 0); (19%nat, 1); (33%nat, 2)].
Definition sights : list nat := [27%nat; 45%nat].
Example receipt_overwritten :
  Agent.outbox (state (run script sights 2).2) = pretty_json <$> head first.1 ∧
  Agent.outbox (state (run script sights 3).2) = pretty_json <$> head second ∧
  MeshControlRequestV1.path <$> Process.sent (run script sights 3).2 =
    ["/v1/offers"; claim_path 3; claim_path 3] ∧
  pretty_json <$> head first.1 ≠ pretty_json <$> head second.
Proof. vm_compute. split_and!; [reflexivity..|discriminate]. Qed.

Lemma start_well : well "linux" "x86_64" "0.1.0" answers 3 mesh resources availability (state start).
Proof. split; try done. split; try done. split; [vm_compute; reflexivity|by left]. Qed.

#[local] Instance wire : ContractWire := {|
  wire_identity := unsent; wire_job := unsent; wire_lease := unsent; wire_set := unsent;
  Controller.wire_claim := unsent; Controller.wire_receipt := unsent; wire_artifact := unsent; wire_replica := unsent;
  Controller.wire_offer := unsent; wire_benchmark := unsent; wire_storage_lease := unsent; wire_score := unsent;
  wire_placement := unsent; wire_constraints := unsent; wire_candidate := unsent; wire_canary := unsent;
  Controller.wire_enrollment := unsent; wire_link_probe := unsent; wire_result := unsent; Controller.wire_mesh := wire_mesh
|}.
Definition owner_key : @SigningKey reference_crypto := "owner".
Definition controller : nat * AppState.t :=
  (0%nat, AppState.set_nodes {[3 := identity]}
            (installed (Governor.from_signing_key GovernorConfig.default owner_key) (CasStore.open_with_limits None))).
Definition controller_env : ControllerState.Env :=
  ControllerState.mkEnv (λ _, seconds 8) Z.of_nat false false "controller" [] [] (λ _, Proceeds) (λ _ _ _, None) (λ _ _, "").
Definition served : World Agent.t := (run script sights 3).2.
Definition renewed_world : World Agent.t := (renew_offer key mesh (surroundings script sights) served).2.
Definition posted : ResourceOfferV1.t := Agent.offer (state renewed_world).
Lemma posted_is : ResourceOfferV1.observed_at posted = seconds 7 ∧ ResourceOfferV1.expires_at posted = seconds 52 ∧
  ResourceOfferV1.model_runtimes posted = [] ∧ ResourceOfferV1.link_benchmark posted = None.
Proof. vm_compute. split_and!; reflexivity. Qed.
Lemma pair_fst {A B} (p : A * B) a : p.1 = a → p = (a, p.2).
Proof. by destruct p as [? ?]; intros <-. Qed.
Lemma served_is :
  serve "linux" "x86_64" "0.1.0" answers (λ _, None) key 3 mesh 3 (surroundings script sights) start = (Ok true, served) ∧
  renew_offer key mesh (surroundings script sights) served = (Ok (), renewed_world).
Proof.
  split; [unfold served, run|unfold renewed_world]; apply pair_fst; vm_compute; reflexivity.
Qed.


(** A request that takes a second, answered with a clock that is 1.75 seconds ahead, read a
    quarter of a second after it was sent. *)
Definition ticking : Surroundings := surroundings_at (λ n, Z.of_nat n * 500000000) [(3%nat, 0)] [].
Definition asked : result Trouble.t MeshControlResponseV1.t * World Agent.t :=
  request_with_policy "GET" "/health" None CONTROL_REQUEST_DEADLINE false ticking start.
Lemma asked_ok :
  asked = (Ok (answer 201 (VObject [("controller_time", VString (to_rfc3339 (seconds 7)))])), asked.2).
Proof. apply pair_fst. vm_compute. reflexivity. Qed.
Lemma controller_clock_bounded_witness :
  Z.abs (seconds 5 + Agent.controller_clock_offset (state asked.2) - (seconds 5 + 1750000000)) <= 500000001.
Proof.
  refine (proj1 (controller_clock_bounded mesh "GET" "/health" None CONTROL_REQUEST_DEADLINE false ticking start
            _ asked.2 250000000 1750000000 asked_ok _ _ ticking _
            (mkWorld (Datatypes.S (draws asked.2)) (Process.sent asked.2) (state asked.2)) _ _) _).
  - vm_compute. split; discriminate.
  - vm_compute. reflexivity.
  - reflexivity.
  - discriminate.
  - vm_compute. discriminate.
Defined.
End Desk.
