(* ===== verification/StartupFacts.v ===== *)
(** * Facts about starting an agent

    A node keeps its key and its identifiers over restarts; an enrolled node goes to the
    controller it pinned and to no other; and what it offers from its start on is what the
    controller registers. *)

From S2P Require Import Prelude.
From S2P Require Import Codec.
From S2P Require Import Text.
From S2P Require Import Contracts.
From S2P Require Import Wire.
From S2P Require Import Signing.
From S2P Require Import Governor.
From S2P Require Import Storage.
From S2P Require Import Worker.
From S2P Require Import RemoteAssist.
From S2P Require Import Mesh.
From S2P Require Import Process.
From S2P Require Import Discovery.
From S2P Require Import Agent.
From S2P Require Import ControllerState.
From S2P Require Import Controller.
From S2P Require Import Packing.
From S2P Require Import Samples.
From S2P Require Import StorageFacts.
From S2P Require Import WorkerFacts.
From S2P Require Import DiscoveryFacts.
From S2P Require Import Registration.
From S2P Require Import AgentFacts.
From S2P Require Import Startup.
Import Text Controller.
#[local] Open Scope Z_scope.

(** ** Hexadecimal text *)

Lemma hex_not_blank a s : lower_hex_byte (N_of_ascii a) = true → blank (String a s) = false.
Proof. destruct a as [[] [] [] [] [] [] [] []]; try discriminate; intros _; destruct s as [|b [|c s]]; reflexivity. Qed.
Lemma hex_trim_start a s : lower_hex_byte (N_of_ascii a) = true → trim_start (String a s) = String a s.
Proof. destruct a as [[] [] [] [] [] [] [] []]; try discriminate; intros _; destruct s as [|b [|c s]]; reflexivity. Qed.
Lemma trim_hex s : all_bytes lower_hex_byte s = true → trim s = s.
Proof.
  intros H. unfold trim. assert (trim_end s = s) as He.
  { induction s as [|a s IH]; [done|]. cbn in H. apply andb_prop in H as [Ha Hs].
    cbn [trim_end]. rewrite (hex_not_blank a s Ha). by rewrite IH. }
  destruct s as [|a s]; [done|]. cbn in H. apply andb_prop in H as [Ha _]. by rewrite hex_trim_start.
Qed.

Section startup.
Context {codec : Codec} {pretty : Pretty} {crypto : Crypto} {laws : CryptoLaws codec crypto} {ser : Serializer}
        {render : Render} {iroh : Iroh} {wire_mesh : MeshWire} {wire_enrollment : Wire EnrollmentRequestV1.t}
        {wire_invite : Wire EnrollmentInviteV1.t} {wire_pin : Wire PinnedControllerV1.t} {wire_ids : Wire IdentityIds.t}
        {wire_tags : Wire OllamaTags.t} {wire_manifest : Wire ModelRuntimeManifestV1.t}.
Context (signing_key_of : string → SigningKey) (parse_url : string → option Relay.Url.t).
Context (os arch system_name version : string) (reports : nat → Answers.t).

Abbreviation start := (start signing_key_of parse_url os arch system_name version reports).
Abbreviation start_as := (start_as os arch system_name version reports).

(** ** What the steps leave alone *)

(** The steps after the identifiers: what they keep of the files. *)
Section kept.
Context (I : Boot.t → Prop).
(** They only touch the clock, the store, the storage key, the marker, the pin and the invitation. *)
Hypothesis keeps_clock : ∀ x s, I s → I (Boot.set_controller_clock_offset x s).
Hypothesis keeps_store : ∀ x s, I s → I (Boot.set_store x s).
Hypothesis keeps_storage_key : ∀ x s, I s → I (Boot.set_storage_key x s).
Hypothesis keeps_marker : ∀ x s, I s → I (Boot.set_enrollment_marker x s).
Hypothesis keeps_invite : ∀ x s, I s → I (Boot.set_invite_file x s).

Lemma kept_change f : (∀ s, I s → I (f s)) → holds I (change f) (λ _, True).
Proof. apply holds_change. Qed.
#[local] Hint Resolve kept_change : holds.
#[local] Hint Extern 1 (∀ s, I s → I _) => (intros ? ?; solve [auto]) : holds.
Lemma kept_call deadline one_shot request : holds I (call deadline one_shot request) (λ _, True).
Proof. apply holds_quiet, quiet_call. Qed.
#[local] Hint Resolve kept_call : holds.
Lemma kept_observe sent_at started body : holds I (observe_controller_time sent_at started body) (λ _, True).
Proof. unfold observe_controller_time. hold; done. Qed.
#[local] Hint Resolve kept_observe : holds.
Lemma kept_request method path body deadline one_shot :
  holds I (request_with_policy method path body deadline one_shot) (λ _, True).
Proof. unfold request_with_policy. hold; done. Qed.
#[local] Hint Resolve kept_request : holds.
Lemma kept_post `{Wire A} transport path (body : A) : holds I (post_json_one_shot transport path body) (λ _, True).
Proof.
  unfold post_json_one_shot, post_json, post_json_with_deadline, request_with_deadline, request_one_shot_with_deadline, ensure_success.
  hold; done.
Qed.
Lemma kept_now transport : holds I (controller_now transport) (λ _, True).
Proof. unfold controller_now. hold; done. Qed.
Lemma kept_endpoint key transport issued_at expires_at :
  holds I (signed_worker_endpoint key transport issued_at expires_at) (λ _, True).
Proof. unfold signed_worker_endpoint. hold; done. Qed.
#[local] Hint Resolve kept_post kept_now kept_endpoint : holds.
Lemma kept_optional `{Wire A} max file :
  holds I (read_optional (A := A) max file)
    (λ v, match file with None => v = None | Some bytes => ∃ a, v = Some a ∧ read_json_file_bounded max bytes = Ok a end).
Proof. unfold read_optional. hold; eauto. Qed.
#[local] Hint Resolve kept_optional : holds.
Lemma kept_secret : holds I (load_or_create_secret_bytes Boot.storage_key Boot.set_storage_key "agent storage secret") (λ _, True).
Proof. unfold load_or_create_secret_bytes. hold; try done. Qed.
Lemma kept_enroll args e key transport identity : holds I (enroll args e key transport identity) (λ _, True).
Proof. unfold enroll. hold; done. Qed.
#[local] Hint Resolve kept_secret kept_enroll : holds.

(** ** Where a connection goes *)

(** To the loopback, to the endpoint of a valid pin, or to the endpoint of an invitation that
    the Governor it names signed. *)
Definition goes_to (controller : string) (remote : option RemoteController) (c : Connection.t) : Prop :=
  match remote with
  | None => Connection.transport c = ControllerTransport.Http ∧ is_loopback_url controller = true
  | Some (Pinned pin) =>
      Connection.transport c = ControllerTransport.Mesh (MeshEndpointRecordV1.endpoint_id (PinnedControllerV1.endpoint pin)) ∧
      Connection.governor_public_key c = Some (PinnedControllerV1.governor_public_key pin) ∧
      validate_controller_pin pin = Ok ()
  | Some (Invitation invitation) =>
      ∃ record key, EnrollmentInviteV1.controller_mesh invitation = Some record ∧
        EnrollmentInviteV1.governor_public_key invitation = Some key ∧
        Connection.transport c = ControllerTransport.Mesh (MeshEndpointRecordV1.endpoint_id record) ∧
        Connection.governor_public_key c = Some key ∧ ∃ t1 t2, verify_mesh_endpoint_with_key t1 t2 key record = Ok ()
  end.
Lemma kept_route remote :
  holds I (controller_route remote) (λ route, ∀ c,
    Connection.transport c = ControllerTransport.Mesh (MeshEndpointRecordV1.endpoint_id route.1.1.1) →
    Connection.governor_public_key c = Some route.1.1.2 → goes_to "" (Some remote) c).
Proof.
  unfold controller_route. destruct remote as [invitation|pin].
  - repeat (eapply holds_bind; [solve [eauto with holds]|let H := fresh "H" in intros ? H; cbv beta in H]).
    apply holds_ret. intros c Ht Hk. cbn in *. repeat match goal with u : () |- _ => destruct u end. eauto 10.
  - repeat (eapply holds_bind; [solve [eauto with holds]|let H := fresh "H" in intros ? H; cbv beta in H]).
    apply holds_ret. intros c Ht Hk. cbn in *. repeat match goal with u : () |- _ => destruct u end. eauto.
Qed.
Lemma kept_connect interfaces controller remote :
  holds I (connect_controller interfaces controller remote) (goes_to controller remote).
Proof.
  unfold connect_controller. destruct remote as [remote|].
  - eapply holds_bind; [apply kept_route|]. intros [[[record key] aggregate] candidates] Hroute.
    eapply holds_bind; [eauto with holds|intros config _]. eapply holds_bind; [eauto with holds|intros endpoint _].
    eapply holds_bind; [eauto with holds|intros ? _]. eapply holds_bind.
    { eapply holds_outcome. unfold request, request_with_deadline. eauto with holds. }
    intros ? _. apply holds_ret. by apply (Hroute (Connection.mk _ _ _)).
  - hold; done.
Qed.

Lemma kept_enrollment args (Q : Enrollment.t → Prop) :
  (∀ s e, I s →
     match (if Args.local_controller args then None else Boot.controller_pin_file s) with
     | None => Enrollment.stored_pin e = None
     | Some bytes => ∃ pin, Enrollment.stored_pin e = Some pin ∧ read_json_file_bounded (64 * 1024) bytes = Ok pin
     end → Q e) →
  holds I (read_enrollment args) Q.
Proof.
  intros HQ. unfold read_enrollment. eapply holds_bind; [apply holds_look|]. intros files (s & Hs & ->).
  eapply holds_bind; [eauto with holds|intros _ _]. eapply holds_bind; [apply kept_optional|intros invitation _].
  eapply holds_bind; [apply kept_optional|intros stored Hstored].
  eapply (holds_bind _ _ _ (λ _, True)); [hold; done|]. intros migrated _. apply holds_ret. eapply HQ; [exact Hs|].
  destruct (if Args.local_controller args then _ else _); [|done]. destruct Hstored as (pin & -> & ?). eauto.
Qed.

Lemma kept_offer key transport node_id kind foreground discovered :
  holds I (make_offer os arch version reports key transport node_id kind foreground discovered) (λ _, True).
Proof. unfold make_offer. hold; done. Qed.
Lemma kept_key : (∀ x s, I s → I (Boot.set_key_file x s)) → holds I (load_or_create_key signing_key_of) (λ _, True).
Proof. intros Hkey. unfold load_or_create_key, load_or_create_secret_bytes. hold; done. Qed.
Lemma kept_ids node owner : (∀ x s, I s → I (Boot.set_identity_file x s)) →
  holds I (load_or_create_identity_ids node owner) (λ _, True).
Proof. intros Hids. unfold load_or_create_identity_ids. hold; done. Qed.
Lemma kept_pin args e : (∀ x s, I s → I (Boot.set_controller_pin_file x s)) → holds I (pin_controller args e) (λ _, True).
Proof. intros Hpin. unfold pin_controller. hold; done. Qed.
Lemma kept_start_as args machine interfaces foreground kind key node owner :
  (∀ x s, I s → I (Boot.set_controller_pin_file x s)) →
  holds I (start_as args machine interfaces foreground kind key node owner)
    (λ started, Started.signing_key started = key ∧
       NodeIdentityV1.public_key (Started.identity started) = hex_encode (verifying_key key) ∧
       NodeIdentityV1.node_id (Started.identity started) = node ∧ NodeIdentityV1.owner_id (Started.identity started) = owner).
Proof.
  intros Hpin. unfold Startup.start_as. eapply holds_bind; [by apply (kept_enrollment args (λ _, True))|intros e _].
  eapply holds_bind; [apply holds_draw|intros enrolled_at _]. eapply holds_bind; [apply kept_secret|intros ? _].
  eapply holds_bind; [apply holds_change; auto|intros ? _]. eapply holds_bind; [apply kept_connect|intros connection _].
  eapply holds_bind; [apply kept_offer|intros offer _]. eapply holds_bind; [apply kept_enroll|intros ? _].
  eapply holds_bind; [by apply kept_pin|intros ? _]. by apply holds_ret.
Qed.
End kept.

(** ** The pinned controller *)

(** [C23] An enrolled node goes to the controller it pinned and to no other. Once a pin is on
    record, take any start without --local-controller, whatever invitation, enrollment code or
    address it is given: if it succeeds, there is a valid pin in that file, and the process is
    connected to its endpoint and obeys its Governor; and whether it succeeds or fails, it
    leaves the file as it is. *)
Theorem pinned_controller_kept args machine interfaces ollama_url edge_foreground bytes env w :
  Args.local_controller args = false → Boot.controller_pin_file (state w) = Some bytes →
  let '(r, w') := start args machine interfaces ollama_url edge_foreground env w in
  Boot.controller_pin_file (state w') = Some bytes ∧
  ∀ started, r = Ok started → ∃ pin,
    read_json_file_bounded (64 * 1024) bytes = Ok pin ∧ validate_controller_pin pin = Ok () ∧
    Connection.transport (Started.connection started) =
      ControllerTransport.Mesh (MeshEndpointRecordV1.endpoint_id (PinnedControllerV1.endpoint pin)) ∧
    Connection.governor_public_key (Started.connection started) = Some (PinnedControllerV1.governor_public_key pin).
Proof.
  intros Hremote Hpin. set (I := λ s, Boot.controller_pin_file s = Some bytes).
  enough (holds I (start args machine interfaces ollama_url edge_foreground) (λ started, ∃ pin,
    read_json_file_bounded (64 * 1024) bytes = Ok pin ∧ validate_controller_pin pin = Ok () ∧
    Connection.transport (Started.connection started) =
      ControllerTransport.Mesh (MeshEndpointRecordV1.endpoint_id (PinnedControllerV1.endpoint pin)) ∧
    Connection.governor_public_key (Started.connection started) = Some (PinnedControllerV1.governor_public_key pin))) as H.
  { destruct (start _ _ _ _ _ env w) as [r w'] eqn:E. specialize (H env w Hpin). rewrite E in H. exact H. }
  unfold Startup.start. eapply holds_bind; [apply holds_look|intros killed _].
  eapply holds_bind; [apply holds_assert|intros _ _]. eapply holds_bind; [apply holds_try|intros kind _].
  eapply holds_bind; [apply kept_key; done|intros key _]. eapply holds_bind; [apply kept_ids; done|intros [node owner] _].
  eapply holds_bind; [apply holds_try|intros url _]. unfold Startup.start_as.
  eapply (holds_bind _ _ _ (λ e, ∃ pin, Enrollment.stored_pin e = Some pin ∧ read_json_file_bounded (64 * 1024) bytes = Ok pin)).
  { apply kept_enrollment. intros s e Hs. rewrite Hremote, Hs. done. }
  intros e (pin & Hstored & Hread). eapply holds_bind; [apply holds_draw|intros enrolled_at _].
  eapply holds_bind; [apply kept_secret; done|intros ? _]. eapply holds_bind; [by apply holds_change|intros ? _].
  eapply holds_bind; [apply kept_connect; done|intros connection Hgoes].
  eapply holds_bind; [apply kept_offer; done|intros offer _]. eapply holds_bind; [apply kept_enroll; done|intros ? _].
  unfold pin_controller. rewrite Hstored. cbn. apply holds_ret. exists pin.
  unfold remote_controller in Hgoes. rewrite Hremote, Hstored in Hgoes. destruct Hgoes as (? & ? & ?). done.
Qed.

(** ** Keys and identifiers *)

(** The text of the identifiers, as written, reads back. *)
Definition readable (node owner : Uuid) : Prop :=
  read_json_file_bounded (16 * 1024) (pretty_json (IdentityIds.mk node owner)) = Ok (IdentityIds.mk node owner).
Definition full_secrets (env : Surroundings) : Prop := ∀ n, len (secret env n) = 32.
Abbreviation key_label := "agent signing key".

Lemma key_written env w k w' :
  full_secrets env → load_or_create_key signing_key_of env w = (Ok k, w') →
  ∃ bytes, read_secret_file (Boot.key_file (state w')) key_label = Ok bytes ∧ k = signing_key_of bytes.
Proof.
  intros Hlen. unfold load_or_create_key, load_or_create_secret_bytes. intros (bytes & w1 & H & [= <- <-])%P_bind_ok.
  apply P_bind_ok in H as (file & w2 & [= <- <-] & H). exists bytes. split; [|done].
  destruct (Boot.key_file (state w)) eqn:Hfile.
  - injection H as <- <-. cbn. rewrite trim_hex by apply hex_digits. rewrite hex_decode_encode.
    specialize (Hlen (draws w)). unfold len in *. rewrite hex_length, Nat2Z.inj_mul, Hlen. cbn. by rewrite Hlen.
  - apply try_ok in H as [Hr ->]. by rewrite Hfile.
  - apply try_ok in H as [Hr ->]. by rewrite Hfile.
Qed.
Lemma key_read env w k w' bytes :
  read_secret_file (Boot.key_file (state w)) key_label = Ok bytes →
  load_or_create_key signing_key_of env w = (Ok k, w') → k = signing_key_of bytes ∧ w' = w.
Proof.
  unfold load_or_create_key, load_or_create_secret_bytes. intros Hread (bytes' & w1 & H & [= <- <-])%P_bind_ok.
  apply P_bind_ok in H as (file & w2 & [= <- <-] & H).
  destruct (Boot.key_file (state w)) eqn:Hfile; [done|..]; apply try_ok in H as [Hr ->]; split; congruence.
Qed.
Lemma ids_written node owner env w ids w' :
  load_or_create_identity_ids node owner env w = (Ok ids, w') → readable ids.1 ids.2 →
  ∃ text, Boot.identity_file (state w') = Some text ∧
    read_json_file_bounded (16 * 1024) text = Ok (IdentityIds.mk ids.1 ids.2).
Proof.
  unfold load_or_create_identity_ids. intros (existing & w1 & [= <- <-] & H)%P_bind_ok Hreadable.
  destruct (Boot.identity_file (state w)) as [text|] eqn:Hfile.
  - apply P_bind_ok in H as (read & w1 & [Hr ->]%try_ok & H). exists text. destruct (_ || _); [done|].
    injection H as <- <-. split; [done|]. by destruct read.
  - apply P_bind_ok in H as (n & w1 & _ & H). apply P_bind_ok in H as (o & w2 & _ & H).
    injection H as <- <-. eexists. split; [reflexivity|]. exact Hreadable.
Qed.
Lemma ids_read node owner env w ids w' text read :
  Boot.identity_file (state w) = Some text → read_json_file_bounded (16 * 1024) text = Ok read →
  load_or_create_identity_ids node owner env w = (Ok ids, w') →
  ids = (IdentityIds.node_id read, IdentityIds.owner_id read).
Proof.
  unfold load_or_create_identity_ids. intros Hfile Hread (existing & w1 & [= <- <-] & H)%P_bind_ok. rewrite Hfile in H.
  apply P_bind_ok in H as (read' & w1 & [Hr ->]%try_ok & H). destruct (_ || _); [done|]. injection H as <- _. congruence.
Qed.

(** A start, step by step: the key, the identifiers, and the rest, which touches neither file. *)
Lemma start_steps args machine interfaces url foreground env w a w' :
  start args machine interfaces url foreground env w = (Ok a, w') →
  ∃ key w1 ids w2, load_or_create_key signing_key_of env w = (Ok key, w1) ∧
    load_or_create_identity_ids (Args.node_id args) (Args.owner_id args) env w1 = (Ok ids, w2) ∧
    Boot.identity_file (state w1) = Boot.identity_file (state w) ∧
    Boot.key_file (state w') = Boot.key_file (state w1) ∧ Boot.identity_file (state w') = Boot.identity_file (state w2) ∧
    Started.signing_key a = key ∧ NodeIdentityV1.public_key (Started.identity a) = hex_encode (verifying_key key) ∧
    NodeIdentityV1.node_id (Started.identity a) = ids.1 ∧ NodeIdentityV1.owner_id (Started.identity a) = ids.2.
Proof.
  unfold Startup.start. intros (killed & w1 & [= <- <-] & H)%P_bind_ok. apply P_bind_ok in H as ([] & w2 & [_ ->]%assert_ok & H).
  apply P_bind_ok in H as (kind & w3 & [_ ->]%try_ok & H). apply P_bind_ok in H as (key & w1 & Hkey & H).
  apply P_bind_ok in H as ([node owner] & w2 & Hids & H). apply P_bind_ok in H as (? & w3 & [_ ->]%try_ok & H).
  exists key, w1, (node, owner), w2. do 2 (split; [done|]).
  destruct (kept_key (λ s, Boot.identity_file s = Boot.identity_file (state w)) ltac:(done) env w eq_refl) as [Hi1 _].
  rewrite Hkey in Hi1.
  destruct (kept_ids (λ s, Boot.key_file s = Boot.key_file (state w1)) (Args.node_id args) (Args.owner_id args)
    ltac:(done) env w1 eq_refl) as [Hk2 _]. rewrite Hids in Hk2.
  destruct (kept_start_as (λ s, Boot.key_file s = Boot.key_file (state w2) ∧ Boot.identity_file s = Boot.identity_file (state w2))
    ltac:(done) ltac:(done) ltac:(done) ltac:(done) ltac:(done) args machine interfaces foreground kind key
    node owner ltac:(done) env w2 (conj eq_refl eq_refl)) as [[Hk Hi] Hpost].
  rewrite H in Hk, Hi. cbn in Hk, Hi, Hi1, Hk2. rewrite Hk, Hi. split; [exact Hi1|]. split; [exact Hk2|]. split; [done|]. apply Hpost. by rewrite H.
Qed.

(** A node keeps its identity.  Two starts between which the key file and the identity file
    are left alone, whatever arguments they are given, have the same key and the same node and
    owner identifiers: a generated secret has 32 bytes, and identifiers read back as written. *)
Theorem node_keeps_identity args machine interfaces url foreground env w a w1
    args' machine' interfaces' url' foreground' env' w2 b w3 :
  full_secrets env →
  start args machine interfaces url foreground env w = (Ok a, w1) →
  readable (NodeIdentityV1.node_id (Started.identity a)) (NodeIdentityV1.owner_id (Started.identity a)) →
  Boot.key_file (state w2) = Boot.key_file (state w1) → Boot.identity_file (state w2) = Boot.identity_file (state w1) →
  start args' machine' interfaces' url' foreground' env' w2 = (Ok b, w3) →
  Started.signing_key b = Started.signing_key a ∧
  NodeIdentityV1.public_key (Started.identity b) = NodeIdentityV1.public_key (Started.identity a) ∧
  NodeIdentityV1.node_id (Started.identity b) = NodeIdentityV1.node_id (Started.identity a) ∧
  NodeIdentityV1.owner_id (Started.identity b) = NodeIdentityV1.owner_id (Started.identity a).
Proof.
  intros Hlen (key & w1' & ids & w2' & Hkey & Hids & _ & Hk & Hi & -> & -> & -> & ->)%start_steps Hreadable HkeyKept HidsKept
    (key' & v1 & ids' & v2 & Hkey' & Hids' & Hi' & _ & _ & -> & -> & -> & ->)%start_steps.
  apply key_written in Hkey as (bytes & Hbytes & ->); [|done]. apply ids_written in Hids as (text & Htext & Hread); [|exact Hreadable].
  rewrite <- Hk, <- HkeyKept in Hbytes. eapply key_read in Hkey' as [-> ->]; [|exact Hbytes].
  rewrite <- Hi, <- HidsKept in Htext. eapply ids_read in Hids' as ->; [|done..]. done.
Qed.
End startup.

(** ** A machine that is started *)

Module Restart.
Import ReferenceCrypto StorageFacts.Witness WorkerFacts.Witness Samples.
Import Desk (pretty, wire_tags, wire_manifest, wire_mesh, answers, pair_fst).
#[local] Existing Instances pretty wire_tags wire_manifest wire_mesh.

#[local] Instance wire_ids : Wire IdentityIds.t := table (λ _, 0) [IdentityIds.mk 5 5].
#[local] Instance wire_enrollment : Wire EnrollmentRequestV1.t := unsent.
#[local] Instance wire_invite : Wire EnrollmentInviteV1.t := unsent.
Definition governor_public_key : string := hex_encode (verifying_key governor_key).
Definition route : MeshEndpointRecordV1.t :=
  sign_contract (T := MeshEndpointRecordV1.t) governor_key
    (MeshEndpointRecordV1.mk MeshEndpointRecordV1.SCHEMA (hex_encode (fit 32 "controller")) ["192.168.1.2:4433"] [] 0
       (seconds 60) "").
Definition pin : PinnedControllerV1.t := PinnedControllerV1.mk PinnedControllerV1.SCHEMA route governor_public_key 0.
#[local] Instance wire_pin : Wire PinnedControllerV1.t := table (λ _, 0) [pin].

Definition args (local_controller : bool) : Args.t :=
  Args.mk None "desktop" "desk" None None false "http://127.0.0.1:8080" local_controller.
Definition machine : Machine.t :=
  Machine.mk 8 16000000000 8000000000 true None [Disk.mk "/" "ext4" 500000000000 true] None None (true, None).
Definition files (pin : option string) : Boot.t :=
  Boot.mk false RemoteAssist.Missing None None pin None RemoteAssist.Missing None (CasStore.open_with_limits None) 0.
Definition surroundings (secret : string) : Surroundings :=
  mkSurroundings (λ _, seconds 5) (λ _, 5) (λ _, fit 32 secret) (λ _, mkAddress (hex_encode (fit 32 "desk")) [] [])
    (λ _, Some 8) (λ _, Elapsed) (λ _, 0) (λ _, Completed ()) (λ _, env (seconds 1)) (λ _, 0) (λ _, false) (λ _, None) (λ _, false).
Definition url (_ : string) : option Relay.Url.t :=
  Some (Relay.Url.mk "http" "" None (Some "127.0.0.1") "/" None None).
Definition key_of (bytes : string) : @SigningKey reference_crypto := bytes.
Definition run (local : bool) (secret : string) (w : World Boot.t) : result Trouble.t Started.t * World Boot.t :=
  start key_of url "linux" "x86_64" "Linux" "0.1.0" answers (args local) machine [] None None (surroundings secret) w.

(** The first start makes the key and the identifiers; the second, with another source of
    randomness, finds them. *)
Definition clean : World Boot.t := mkWorld 0 [] (files None).
Definition once : result Trouble.t Started.t * World Boot.t := run true "one" clean.
Definition again : result Trouble.t Started.t * World Boot.t := run true "two" once.2.
#[local] Strategy expand [run once again].
Definition started (r : result Trouble.t Started.t * World Boot.t) (other : Started.t) : Started.t :=
  match r.1 with Ok a => a | Err _ => other end.
Definition nothing : Started.t :=
  Started.mk "" Desk.identity (Connection.mk ControllerTransport.Http None None) Desk.first_offer.
Lemma started_ok r : (if r.1 is Ok _ then true else false) = true → r = (Ok (started r nothing), r.2).
Proof. destruct r as [[a|e] w]; done. Qed.
Lemma once_ok :
  start key_of url "linux" "x86_64" "Linux" "0.1.0" answers (args true) machine [] None None (surroundings "one") clean =
  (Ok (started once nothing), once.2).
Proof. apply (started_ok once). vm_compute. reflexivity. Qed.
Lemma again_ok :
  start key_of url "linux" "x86_64" "Linux" "0.1.0" answers (args true) machine [] None None (surroundings "two") once.2 =
  (Ok (started again nothing), again.2).
Proof. apply (started_ok again). vm_compute. reflexivity. Qed.

Lemma node_keeps_identity_witness :
  Started.signing_key (started again nothing) = Started.signing_key (started once nothing) ∧
  NodeIdentityV1.public_key (Started.identity (started again nothing)) =
    NodeIdentityV1.public_key (Started.identity (started once nothing)) ∧
  NodeIdentityV1.node_id (Started.identity (started again nothing)) =
    NodeIdentityV1.node_id (Started.identity (started once nothing)) ∧
  NodeIdentityV1.owner_id (Started.identity (started again nothing)) =
    NodeIdentityV1.owner_id (Started.identity (started once nothing)).
Proof.
  apply (node_keeps_identity key_of url "linux" "x86_64" "Linux" "0.1.0" answers
           (args true) machine [] None None (surroundings "one") clean (started once nothing) once.2
           (args true) machine [] None None (surroundings "two") once.2 (started again nothing) again.2).
  - intros n. vm_compute. reflexivity.
  - exact once_ok.
  - vm_compute. reflexivity.
  - reflexivity.
  - reflexivity.
  - exact again_ok.
Defined.

(** A start with a pin on record. *)
Definition pinned : World Boot.t := mkWorld 0 [] (files (Some (pretty_json pin))).
Definition back : result Trouble.t Started.t * World Boot.t := run false "one" pinned.
Example back_ok : Connection.transport (Started.connection (started back nothing)) =
  ControllerTransport.Mesh (hex_encode (fit 32 "controller")).
Proof. vm_compute. reflexivity. Qed.
Lemma pinned_controller_kept_witness :
  let '(r, w') :=
    start key_of url "linux" "x86_64" "Linux" "0.1.0" answers (args false) machine [] None None (surroundings "one") pinned in
  Boot.controller_pin_file (state w') = Some (pretty_json pin) ∧
  ∀ started, r = Ok started → ∃ pin',
    read_json_file_bounded (64 * 1024) (pretty_json pin) = Ok pin' ∧ validate_controller_pin pin' = Ok () ∧
    Connection.transport (Started.connection started) =
      ControllerTransport.Mesh (MeshEndpointRecordV1.endpoint_id (PinnedControllerV1.endpoint pin')) ∧
    Connection.governor_public_key (Started.connection started) = Some (PinnedControllerV1.governor_public_key pin').
Proof.
  apply (pinned_controller_kept key_of url "linux" "x86_64" "Linux" "0.1.0" answers (args false) machine [] None None
           (pretty_json pin) (surroundings "one") pinned).
  - reflexivity.
  - reflexivity.
Defined.
End Restart.
