(* ===== verification/Pairing.v ===== *)
(** * Nearby pairing (apps/desktop/src-tauri/src/pairing.rs)

    A machine that wants to join broadcasts a hello; the owner's inbox answers with a challenge
    and lists the request for approval; both screens show four digits derived from the key
    exchange; the approval carries the invitation in encrypted fragments, and the machine
    confirms.  The state both ends keep is behind one lock: each definition below that changes
    it is one critical section, with the readings of the clock, the random bytes and the fate
    of the datagrams it sends as arguments. *)

From S2P Require Import Prelude.
From S2P Require Import Codec.
From S2P Require Import Text.
From S2P Require Import Contracts.
From S2P Require Import Wire.
From S2P Require Import Net.
From S2P Require Import Mesh.
Import Text.
#[local] Open Scope Z_scope.

Definition PAIRING_SCHEMA : string := "rampage.lan-pairing.v1".
Definition PAIRING_PORT : Z := 47839.
Definition PAIRING_MULTICAST : Z := Ipv4Addr.to_bits 239 255 73 82.
Definition PAIRING_WINDOW_MS : Z := 365 * 24 * 60 * 60 * 1000.
Definition WORKER_WAIT_MS : Z := 15 * 60 * 1000.
Definition MAX_DATAGRAM_BYTES : Z := 8 * 1024.
Definition MAX_INVITATION_BYTES : Z := 5 * 1024.
Definition MAX_APPROVAL_CHUNK_CHARS : Z := 640.
Definition MAX_APPROVAL_CHUNKS : Z := 16.
Definition MAX_APPROVAL_CIPHERTEXT_CHARS : Z := 7 * 1024.
Definition MAX_PENDING_REQUESTS : Z := 16.
Definition MAX_NEW_REQUESTS_PER_IP_PER_MINUTE : Z := 5.

#[global] Instance ip_countable : Countable IpAddr.
Proof.
  refine (inj_countable' (λ ip, match ip with V4 a b c d => inl (a, b, c, d) | V6 segments => inr segments end)
    (λ x, match x with inl (a, b, c, d) => V4 a b c d | inr segments => V6 segments end) _).
  by intros [].
Defined.

(** ** Data *)

Module PairingRequestState.
Inductive t := AwaitingApproval | Approved | Completed.
#[global] Instance eq_dec : EqDecision t.
Proof. solve_decision. Defined.
Definition as_str (self : t) : string :=
  match self with AwaitingApproval => "awaiting_approval" | Approved => "approved" | Completed => "completed" end.
End PairingRequestState.

Module PendingPair.
Record t := mk {
  request_id : string; device_name : string; device_kind : string; peer_addr : SocketAddr; peer_public_key : string;
  verification_code : string; key : string; aad : string; expires_at_ms : Z; challenge_payload : string;
  approval_payloads : option (list string); state : PairingRequestState.t
}.
Definition set_peer_addr (x : SocketAddr) (p : t) : t :=
  mk (request_id p) (device_name p) (device_kind p) x (peer_public_key p) (verification_code p) (key p) (aad p)
    (expires_at_ms p) (challenge_payload p) (approval_payloads p) (state p).
Definition set_approval_payloads (x : option (list string)) (p : t) : t :=
  mk (request_id p) (device_name p) (device_kind p) (peer_addr p) (peer_public_key p) (verification_code p) (key p) (aad p)
    (expires_at_ms p) (challenge_payload p) x (state p).
Definition set_state (x : PairingRequestState.t) (p : t) : t :=
  mk (request_id p) (device_name p) (device_kind p) (peer_addr p) (peer_public_key p) (verification_code p) (key p) (aad p)
    (expires_at_ms p) (challenge_payload p) (approval_payloads p) x.
End PendingPair.

Module PairingRequestView.
Record t := mk {
  request_id : string; device_name : string; device_kind : string; verification_code : string; expires_at_ms : Z;
  state : string
}.
Definition from (value : PendingPair.t) : t :=
  mk (PendingPair.request_id value) (PendingPair.device_name value) (PendingPair.device_kind value)
    (PendingPair.verification_code value) (PendingPair.expires_at_ms value)
    (PairingRequestState.as_str (PendingPair.state value)).
End PairingRequestView.

Module PairingWindowView.
Record t := mk { schema : string; open : bool; open_until_ms : Z; requests : list PairingRequestView.t }.
End PairingWindowView.

Module WorkerPairingView.
Inductive t :=
| Idle
| Searching (request_id : string) (expires_at_ms : Z)
| WaitingApproval (request_id owner_name verification_code : string) (expires_at_ms : Z)
| Approved (request_id owner_name : string)
| Failed (message : string).
End WorkerPairingView.

Module PairingDatagram.
Inductive t :=
| Hello (schema request_id device_name device_kind ephemeral_public_key : string) (issued_at_ms expires_at_ms : Z)
| Challenge (schema request_id owner_name ephemeral_public_key : string) (expires_at_ms : Z)
| Approval (schema request_id nonce ciphertext : string)
| ApprovalChunk (schema request_id nonce : string) (chunk_index chunk_count : Z) (ciphertext_chunk : string)
| Rejected (schema request_id reason : string)
| EnrollmentComplete (schema request_id nonce ciphertext : string).
End PairingDatagram.

(** The state behind the lock.  The socket and the notifier are set together: whether there is
    one. *)
Module PairingInner.
Record t := mk {
  owner_socket : bool; owner_name : string; owner_open_until_ms : Z; owner_attention_active : bool;
  pending : gmap string PendingPair.t; attempts : gmap IpAddr (list Z); worker_generation : Z;
  worker : WorkerPairingView.t
}.
Definition default : t := mk false "" 0 false ∅ ∅ 0 WorkerPairingView.Idle.
Definition set_owner_socket (x : bool) (s : t) : t :=
  mk x (owner_name s) (owner_open_until_ms s) (owner_attention_active s) (pending s) (attempts s) (worker_generation s) (worker s).
Definition set_window (name : string) (open_until_ms : Z) (s : t) : t :=
  mk (owner_socket s) name open_until_ms (owner_attention_active s) (pending s) (attempts s) (worker_generation s) (worker s).
Definition set_owner_attention_active (x : bool) (s : t) : t :=
  mk (owner_socket s) (owner_name s) (owner_open_until_ms s) x (pending s) (attempts s) (worker_generation s) (worker s).
Definition set_pending (x : gmap string PendingPair.t) (s : t) : t :=
  mk (owner_socket s) (owner_name s) (owner_open_until_ms s) (owner_attention_active s) x (attempts s) (worker_generation s) (worker s).
Definition set_attempts (x : gmap IpAddr (list Z)) (s : t) : t :=
  mk (owner_socket s) (owner_name s) (owner_open_until_ms s) (owner_attention_active s) (pending s) x (worker_generation s) (worker s).
Definition set_worker_generation (x : Z) (s : t) : t :=
  mk (owner_socket s) (owner_name s) (owner_open_until_ms s) (owner_attention_active s) (pending s) (attempts s) x (worker s).
Definition set_worker (x : WorkerPairingView.t) (s : t) : t :=
  mk (owner_socket s) (owner_name s) (owner_open_until_ms s) (owner_attention_active s) (pending s) (attempts s) (worker_generation s) x.
End PairingInner.

(** Fragments of an approval, as far as they have come in. *)
Module ApprovalAssembly.
Record t := mk { nonce : string; chunk_count : Z; chunks : list (option string); encoded_len : Z }.
Definition new (nonce : string) (chunk_count : Z) : option t :=
  if in_range 1 MAX_APPROVAL_CHUNKS chunk_count
  then Some (mk nonce chunk_count (replicate (Z.to_nat chunk_count) None) 0) else None.
Definition is_base64_byte (byte : N) : bool :=
  is_ascii_alphanumeric byte || (byte =? 43)%N || (byte =? 47)%N || (byte =? 61)%N.
Definition concat_all (pieces : list string) : string := foldr String.app "" pieces.
Definition complete (self : t) : option string := concat_all <$> mapM id (chunks self).
Definition push (index : Z) (chunk : string) (self : t) : result string (option string) * t :=
  if (chunk_count self <=? index) || is_empty chunk || (MAX_APPROVAL_CHUNK_CHARS <? len chunk)
     || negb (all_bytes is_base64_byte chunk)
  then (Ok None, self)
  else match chunks self !! Z.to_nat index with
       | Some (Some existing) => (Ok (if existing == chunk then complete self else None), self)
       | Some None =>
           if MAX_APPROVAL_CIPHERTEXT_CHARS <? sat_add (encoded_len self) (len chunk)
           then (Err "encrypted pairing approval exceeds its bounded reassembly limit", self)
           else
             let self := mk (nonce self) (chunk_count self) (<[Z.to_nat index := Some chunk]> (chunks self))
                           (encoded_len self + len chunk) in
             (Ok (complete self), self)
       | None => (Ok None, self)
       end.
End ApprovalAssembly.

(** ** Cryptography *)

(** x25519-dalek, hkdf over SHA-256 and aes-gcm. *)
Class PairingCrypto := {
  x25519_public : string → string;
  diffie_hellman : string → string → string;
  hkdf_expand : string → string → string → nat → string;    (* salt, input key, info, bytes *)
  aead_encrypt : string → string → string → string → string;    (* key, nonce, data, plaintext *)
  aead_decrypt : string → string → string → string → option string
}.

(** What goes out of a socket. *)
Definition Sends : Type := list (string * SocketAddr).
(** A loop of sends that stops at the first one that fails, and whether all went out. *)
Fixpoint send_all (send_ok : nat → bool) (n : nat) (payloads : list string) (addr : SocketAddr) : bool * Sends :=
  match payloads with
  | [] => (true, [])
  | payload :: payloads =>
      if send_ok n then let '(ok, sent) := send_all send_ok (S n) payloads addr in (ok, (payload, addr) :: sent)
      else (false, [])
  end.
(** What [worker_pairing_loop] is started with. *)
Record Attempt := mkAttempt {
  attempt_generation : Z; attempt_request_id : string; attempt_device_name : string; attempt_expires_at_ms : Z
}.
(** The locals of the loop. *)
Module WorkerLoop.
Record t := mk {
  attempt : Attempt; secret : string; public : string; hello : string; destinations : list SocketAddr;
  selected_owner : option (SocketAddr * string * string * string); approval_assembly : option ApprovalAssembly.t
}.
Definition set_selected_owner (x : SocketAddr * string * string * string) (l : t) : t :=
  mk (attempt l) (secret l) (public l) (hello l) (destinations l) (Some x) (approval_assembly l).
Definition set_approval_assembly (x : option ApprovalAssembly.t) (l : t) : t :=
  mk (attempt l) (secret l) (public l) (hello l) (destinations l) (selected_owner l) x.
End WorkerLoop.

Definition NUL : string := String "000" "".

Section pairing.
Context {codec : Codec} {base64 : Base64} {crypto : PairingCrypto} {wire : Wire PairingDatagram.t}.

Definition valid_request_id (value : string) : bool := (len value =? 32) && all_bytes is_ascii_hexdigit value.
Definition bounded_label (value label : string) : result string string :=
  let trimmed := trim value in
  if is_empty trimmed || (64 <? len trimmed) || any_control trimmed
  then Err (label +:+ " must contain 1 to 64 visible characters")
  else Ok trimmed.
Definition decode_32 (value : string) : result string string :=
  decoded ← ok_or "pairing public key is not valid base64" (base64_decode value);
  if len decoded =? 32 then Ok decoded else Err "pairing public key has the wrong size".

Definition pairing_transcript (request_id worker_public owner_public : string) : string :=
  "rampage.lan-pairing.transcript.v1" +:+ NUL +:+ request_id +:+ NUL +:+ worker_public +:+ owner_public.
(** [format!("{:04}", n)] for n below 10000. *)
Definition digit (n : Z) : ascii := ascii_of_N (Z.to_N (48 + n mod 10)).
Definition four_digits (n : Z) : string :=
  String (digit (n / 1000)) (String (digit (n / 100)) (String (digit (n / 10)) (String (digit n) ""))).
(** The key, the code both screens show, and the associated data. *)
Definition derive_material (shared transcript : string) : string * string * string :=
  let salt := "rampage-lan-pairing-v1" in
  (hkdf_expand salt shared ("invite-key" +:+ NUL +:+ transcript) 32,
   four_digits (from_be_bytes (hkdf_expand salt shared ("verification-code" +:+ NUL +:+ transcript) 4) mod 10000),
   sha256 transcript).

(** The nonce is what [fresh_bytes::<12>] gives, if it gives anything. *)
Definition encrypt_payload (random : option string) (key aad plaintext : string) : result string (string * string) :=
  nonce ← ok_or "system randomness is unavailable" random;
  Ok (base64_encode nonce, base64_encode (aead_encrypt key nonce aad plaintext)).
Definition decrypt_payload (key aad nonce ciphertext : string) : result string string :=
  nonce ← ok_or "pairing approval nonce is invalid" (base64_decode nonce);
  if negb (len nonce =? 12) then Err "pairing approval nonce has the wrong size"
  else
    ciphertext ← ok_or "pairing approval ciphertext is invalid" (base64_decode ciphertext);
    ok_or "pairing payload could not be authenticated" (aead_decrypt key nonce aad ciphertext).
Definition decrypt_approval (key aad nonce ciphertext : string) : result string string :=
  plaintext ← decrypt_payload key aad nonce ciphertext;
  if is_utf8 plaintext then Ok plaintext else Err "pairing approval is not UTF-8".
Definition encrypted_completion (random : option string) (request_id key aad : string) : result string string :=
  '(nonce, ciphertext) ← encrypt_payload random key aad "enrollment-complete";
  Ok (encode_json (PairingDatagram.EnrollmentComplete PAIRING_SCHEMA request_id nonce ciphertext)).

(** [slice.chunks(n)]; the length of the text is fuel enough. *)
Fixpoint pieces (fuel n : nat) (s : string) : list string :=
  match fuel, s with
  | S fuel, String _ _ => let '(piece, rest) := split_at n s in piece :: pieces fuel n rest
  | _, _ => []
  end.
Definition chunks_of (n : nat) (s : string) : list string := pieces (String.length s) n s.
Definition approval_chunk (request_id nonce : string) (count : Z) (index : nat) (chunk : string) : PairingDatagram.t :=
  PairingDatagram.ApprovalChunk PAIRING_SCHEMA request_id nonce (Z.of_nat index) count chunk.
Definition encode_chunk (request_id nonce : string) (count : Z) (fragment : nat * string) : result string string :=
  let payload := encode_json (approval_chunk request_id nonce count fragment.1 fragment.2) in
  if 1024 <? len payload then Err "encrypted pairing fragment exceeds its safe UDP size" else Ok payload.
Definition encrypted_approval_chunks (random : option string) (pending : PendingPair.t) (invitation : string)
    : result string (list string) :=
  if MAX_INVITATION_BYTES <? len invitation then Err "invite exceeds the pairing payload limit"
  else
    '(nonce, ciphertext) ← encrypt_payload random (PendingPair.key pending) (PendingPair.aad pending) invitation;
    if MAX_APPROVAL_CIPHERTEXT_CHARS <? len ciphertext
    then Err "encrypted invite exceeds the pairing reassembly limit"
    else
      let chunks := chunks_of (Z.to_nat MAX_APPROVAL_CHUNK_CHARS) ciphertext in
      if (zlen chunks =? 0) || (MAX_APPROVAL_CHUNKS <? zlen chunks)
      then Err "encrypted invite requires too many pairing fragments"
      else try_map (encode_chunk (PendingPair.request_id pending) nonce (zlen chunks)) (imap pair chunks).

(** ** Interfaces *)

Record Ifv4Addr := mkIfv4 { ifv4_ip : Z; ifv4_broadcast : option Z }.
(** An address of an interface: up, loopback, point to point, link local, and its IPv4 part. *)
Record NetInterface := mkNetInterface {
  is_oper_up : bool; is_loopback : bool; is_p2p : bool; is_link_local : bool; ifv4 : option Ifv4Addr
}.
(** [dedup_by_key]: of neighbours with the same key the first stays. *)
Fixpoint dedup_by_key {A} (key : A → Z) (l : list A) : list A :=
  match l with
  | [] => []
  | a :: rest =>
      match dedup_by_key key rest with
      | [] => [a]
      | b :: rest => if key a =? key b then a :: rest else a :: b :: rest
      end
  end.
Definition ip_le (a b : Ifv4Addr) : Prop := ifv4_ip a ≤ ifv4_ip b.
#[local] Instance ip_le_dec : RelDecision ip_le.
Proof. intros a b. unfold ip_le. apply _. Defined.
Definition active_ipv4_interfaces (interfaces : list NetInterface) : list Ifv4Addr :=
  dedup_by_key ifv4_ip (merge_sort ip_le
    (omap (λ interface,
       if is_oper_up interface && negb (is_loopback interface) && negb (is_p2p interface)
          && negb (is_link_local interface)
       then address ← ifv4 interface; if ifv4_ip address != 0 then Some address else None
       else None) interfaces)).
Definition source_is_local_on (source : IpAddr) (interfaces : list Ifv4Addr) : bool :=
  match source with
  | V4 a b c d => existsb (λ interface, ifv4_ip interface =? Ipv4Addr.to_bits a b c d) interfaces
  | V6 _ => false
  end.
Definition source_is_local (interfaces : list NetInterface) (source : IpAddr) : bool :=
  source_is_local_on source (active_ipv4_interfaces interfaces).
Definition ipv4_from_bits (n : Z) : IpAddr :=
  V4 (n / 16777216 mod 256) (n / 65536 mod 256) (n / 256 mod 256) (n mod 256).
Definition pairing_destinations_for (interfaces : list Ifv4Addr) : list SocketAddr :=
  let addresses := [Ipv4Addr.to_bits 255 255 255 255; PAIRING_MULTICAST] ++ omap ifv4_broadcast interfaces in
  (λ address, mkSocket (ipv4_from_bits address) PAIRING_PORT 0) <$> dedup_by_key id (merge_sort Z.le addresses).
Definition pairing_destinations (interfaces : list NetInterface) : list SocketAddr :=
  pairing_destinations_for (active_ipv4_interfaces interfaces).

(** ** The owner *)

Fixpoint drop_expired (now : Z) (timestamps : list Z) : list Z :=
  match timestamps with
  | timestamp :: rest => if sat_add timestamp 60000 <=? now then drop_expired now rest else timestamps
  | [] => []
  end.
Definition prune_owner_state (now : Z) (inner : PairingInner.t) : PairingInner.t :=
  let pending := filter (λ e, now < PendingPair.expires_at_ms e.2) (PairingInner.pending inner) in
  let attempts := filter (λ e, e.2 ≠ []) (drop_expired now <$> PairingInner.attempts inner) in
  PairingInner.set_attempts attempts
    (PairingInner.set_pending (if PairingInner.owner_open_until_ms inner <=? now then ∅ else pending) inner).
Definition admit_source_attempt (attempts : gmap IpAddr (list Z)) (source : IpAddr) (now : Z)
    : bool * gmap IpAddr (list Z) :=
  let own := drop_expired now (default [] (attempts !! source)) in
  if MAX_NEW_REQUESTS_PER_IP_PER_MINUTE <=? zlen own then (false, <[source := own]> attempts)
  else (true, <[source := own ++ [now]]> attempts).

Definition view_le (a b : PairingRequestView.t) : Prop :=
  String.le (PairingRequestView.request_id a) (PairingRequestView.request_id b).
#[local] Instance view_le_dec : RelDecision view_le.
Proof. intros a b. unfold view_le. apply _. Defined.
Definition is_awaiting (request : PendingPair.t) : bool :=
  PendingPair.state request == PairingRequestState.AwaitingApproval.
(** The view, and whether the notifier is called with nothing. *)
Definition owner_window (now : Z) (inner : PairingInner.t) : PairingWindowView.t * bool * PairingInner.t :=
  let inner := prune_owner_state now inner in
  let requests := merge_sort view_le (PairingRequestView.from <$> (map_to_list (PairingInner.pending inner)).*2) in
  let quiet := PairingInner.owner_attention_active inner
               && negb (existsb is_awaiting (map_to_list (PairingInner.pending inner)).*2) in
  let inner := if quiet then PairingInner.set_owner_attention_active false inner else inner in
  (PairingWindowView.mk "rampage.pairing-window.v1" (now <? PairingInner.owner_open_until_ms inner)
     (PairingInner.owner_open_until_ms inner) requests,
   quiet && PairingInner.owner_socket inner, inner).
(** [bound] is what binding the socket gives, when there is none yet. *)
Definition open_owner_window (bound : result string ()) (now now' : Z) (owner_name : string) (inner : PairingInner.t)
    : result string PairingWindowView.t * bool * PairingInner.t :=
  match bounded_label owner_name "owner name", (if PairingInner.owner_socket inner then Ok () else bound) with
  | Err e, _ => (Err e, false, inner)
  | Ok owner_name, Err e => (Err e, false, inner)
  | Ok owner_name, Ok () =>
      let inner := PairingInner.set_owner_socket true inner in
      let inner := prune_owner_state now (PairingInner.set_window owner_name (sat_add now PAIRING_WINDOW_MS) inner) in
      let '(view, quiet, inner) := owner_window now' inner in (Ok view, quiet, inner)
  end.
(** The notifier, if there is one, is called with nothing. *)
Definition deactivate_owner_window (inner : PairingInner.t) : PairingInner.t :=
  PairingInner.set_owner_attention_active false (PairingInner.set_attempts ∅ (PairingInner.set_pending ∅
    (PairingInner.set_window (PairingInner.owner_name inner) 0 inner))).

(** The payloads are sent after the lock is released, to the peer as it was then. *)
Definition approve (now : Z) (random : option string) (send_ok : nat → bool) (request_id invitation : string)
    (inner : PairingInner.t) : result string PairingRequestView.t * PairingInner.t * Sends :=
  let inner := prune_owner_state now inner in
  if negb (PairingInner.owner_socket inner) then (Err "pairing window is not open", inner, [])
  else match PairingInner.pending inner !! request_id with
       | None => (Err "pairing request expired or is unknown", inner, [])
       | Some pending =>
           match encrypted_approval_chunks random pending invitation with
           | Err e => (Err e, inner, [])
           | Ok payloads =>
               let pending := PendingPair.set_state PairingRequestState.Approved
                                (PendingPair.set_approval_payloads (Some payloads) pending) in
               let inner := PairingInner.set_pending (<[request_id := pending]> (PairingInner.pending inner)) inner in
               let '(ok, sent) := send_all send_ok 0 payloads (PendingPair.peer_addr pending) in
               (if ok then Ok (PairingRequestView.from pending) else Err "could not deliver pairing approval", inner, sent)
           end
       end.
Definition reject (send_ok : bool) (request_id : string) (inner : PairingInner.t)
    : result string () * PairingInner.t * Sends :=
  if negb (PairingInner.owner_socket inner) then (Err "pairing window is not open", inner, [])
  else match PairingInner.pending inner !! request_id with
       | None => (Err "pairing request expired or is unknown", inner, [])
       | Some pending =>
           let inner := PairingInner.set_pending (delete request_id (PairingInner.pending inner)) inner in
           let payload := encode_json (PairingDatagram.Rejected PAIRING_SCHEMA request_id "The owner declined this device.") in
           if send_ok then (Ok (), inner, [(payload, PendingPair.peer_addr pending)])
           else (Err "could not deliver pairing rejection", inner, [])
       end.

Definition complete_enrollment (now : Z) (source : SocketAddr) (schema request_id nonce ciphertext : string)
    (inner : PairingInner.t) : PairingInner.t :=
  if (schema != PAIRING_SCHEMA) || negb (valid_request_id request_id) then inner
  else
    let inner := prune_owner_state now inner in
    match PairingInner.pending inner !! request_id with
    | None => inner
    | Some pending =>
        if (PendingPair.peer_addr pending != source) || (PendingPair.state pending != PairingRequestState.Approved)
        then inner
        else match decrypt_payload (PendingPair.key pending) (PendingPair.aad pending) nonce ciphertext with
             | Ok payload =>
                 if payload == "enrollment-complete"
                 then PairingInner.set_pending
                        (<[request_id := PendingPair.set_state PairingRequestState.Completed pending]>
                           (PairingInner.pending inner)) inner
                 else inner
             | Err _ => inner
             end
    end.
(** A request as it is first recorded: the owner's half of the key exchange. *)
Definition challenge (now : Z) (source : SocketAddr) (request_id device_name device_kind ephemeral_public_key : string)
    (peer_public owner_secret : string) (inner : PairingInner.t) : PendingPair.t :=
  let owner_public := x25519_public owner_secret in
  let shared := diffie_hellman owner_secret peer_public in
  let '(key, verification_code, aad) := derive_material shared (pairing_transcript request_id peer_public owner_public) in
  let effective_expiry := Z.min (sat_add now WORKER_WAIT_MS) (PairingInner.owner_open_until_ms inner) in
  PendingPair.mk request_id device_name device_kind source ephemeral_public_key verification_code key aad effective_expiry
    (encode_json (PairingDatagram.Challenge PAIRING_SCHEMA request_id (PairingInner.owner_name inner)
       (base64_encode owner_public) effective_expiry))
    None PairingRequestState.AwaitingApproval.
Definition receive_hello (now : Z) (interfaces : list NetInterface) (random : option string) (source : SocketAddr)
    (schema request_id device_name device_kind ephemeral_public_key : string) (inner : PairingInner.t)
    : PairingInner.t * list string * option PairingRequestView.t :=
  if (schema != PAIRING_SCHEMA) || negb (valid_request_id request_id)
     || negb (is_ok (bounded_label device_name "device name")) || (device_kind != "desktop")
     || source_is_local interfaces (ip source)
  then (inner, [], None)
  else match decode_32 ephemeral_public_key with
  | Err _ => (inner, [], None)
  | Ok peer_public =>
      let inner := prune_owner_state now inner in
      if PairingInner.owner_open_until_ms inner <=? now then (inner, [], None)
      else match PairingInner.pending inner !! request_id with
      | Some existing =>
          if (PendingPair.peer_public_key existing != ephemeral_public_key)
             || (ip (PendingPair.peer_addr existing) != ip source)
          then (inner, [], None)
          else
            let existing := PendingPair.set_peer_addr source existing in
            (PairingInner.set_pending (<[request_id := existing]> (PairingInner.pending inner)) inner,
             default [PendingPair.challenge_payload existing] (PendingPair.approval_payloads existing), None)
      | None =>
          if MAX_PENDING_REQUESTS <=? Z.of_nat (size (PairingInner.pending inner)) then (inner, [], None)
          else
            let '(admitted, attempts) := admit_source_attempt (PairingInner.attempts inner) (ip source) now in
            let inner := PairingInner.set_attempts attempts inner in
            match (if admitted then random else None) with
            | None => (inner, [], None)
            | Some owner_secret =>
                let pending := challenge now source request_id device_name device_kind ephemeral_public_key peer_public
                                 owner_secret inner in
                (PairingInner.set_owner_attention_active true
                   (PairingInner.set_pending (<[request_id := pending]> (PairingInner.pending inner)) inner),
                 [PendingPair.challenge_payload pending], Some (PairingRequestView.from pending))
            end
      end
  end.
(** One turn of the inbox; sends that fail are ignored.  With the request the owner is told of. *)
Definition owner_receive (now : Z) (interfaces : list NetInterface) (random : option string)
    (received : option (string * SocketAddr)) (inner : PairingInner.t)
    : PairingInner.t * Sends * option PairingRequestView.t :=
  match received with
  | None => (inner, [], None)
  | Some (bytes, source) =>
      if (len bytes =? 0) || (MAX_DATAGRAM_BYTES <? len bytes) then (inner, [], None)
      else match decode_json bytes with
      | Ok (PairingDatagram.EnrollmentComplete schema request_id nonce ciphertext) =>
          (complete_enrollment now source schema request_id nonce ciphertext inner, [], None)
      | Ok (PairingDatagram.Hello schema request_id device_name device_kind ephemeral_public_key _ _) =>
          let '(inner, payloads, signal) :=
            receive_hello now interfaces random source schema request_id device_name device_kind ephemeral_public_key inner in
          (inner, (λ payload, (payload, source)) <$> payloads, signal)
      | _ => (inner, [], None)
      end
  end.

(** ** The machine that joins *)

(** A loop speaks only for the attempt it was started for. *)
Definition set_worker_status (generation : Z) (status : WorkerPairingView.t) (inner : PairingInner.t) : PairingInner.t :=
  if PairingInner.worker_generation inner =? generation then PairingInner.set_worker status inner else inner.
Definition generation_is_current (generation : Z) (inner : PairingInner.t) : bool :=
  PairingInner.worker_generation inner =? generation.
Definition worker_status (inner : PairingInner.t) : WorkerPairingView.t := PairingInner.worker inner.
Definition cancel_worker (inner : PairingInner.t) : PairingInner.t :=
  PairingInner.set_worker WorkerPairingView.Idle
    (PairingInner.set_worker_generation (sat_add (PairingInner.worker_generation inner) 1) inner).

Definition is_waiting (view : WorkerPairingView.t) : bool :=
  match view with WorkerPairingView.Searching _ _ | WorkerPairingView.WaitingApproval _ _ _ _ => true | _ => false end.
Definition begin_worker (now : Z) (random : option string) (device_name : string) (inner : PairingInner.t)
    : result string WorkerPairingView.t * option Attempt * PairingInner.t :=
  match bounded_label device_name "device name" with
  | Err e => (Err e, None, inner)
  | Ok device_name =>
      let inner := deactivate_owner_window inner in
      if is_waiting (PairingInner.worker inner) then (Ok (PairingInner.worker inner), None, inner)
      else
        let generation := sat_add (PairingInner.worker_generation inner) 1 in
        let inner := PairingInner.set_worker_generation generation inner in
        match hex_encode <$> random with
        | None => (Err "system randomness is unavailable", None, inner)
        | Some request_id =>
            let expires_at_ms := sat_add now WORKER_WAIT_MS in
            let inner := set_worker_status generation (WorkerPairingView.Searching request_id expires_at_ms) inner in
            (Ok (worker_status inner), Some (mkAttempt generation request_id device_name expires_at_ms), inner)
        end
  end.

(** [worker_pairing_loop] up to its loop; a failure to bind is one of [bound]. *)
Definition start_loop (bound : result string ()) (random : option string) (now : Z) (interfaces : list NetInterface)
    (attempt : Attempt) : result string WorkerLoop.t :=
  _ ← bound;
  secret ← ok_or "system randomness is unavailable" random;
  let public := x25519_public secret in
  let hello := encode_json (PairingDatagram.Hello PAIRING_SCHEMA (attempt_request_id attempt) (attempt_device_name attempt)
                              "desktop" (base64_encode public) now (attempt_expires_at_ms attempt)) in
  Ok (WorkerLoop.mk attempt secret public hello (pairing_destinations interfaces) None None).

(** What the select waits for: the interval, or a datagram (or an error of the socket). *)
Inductive Event :=
| Tick
| Received (received : option (string * SocketAddr)).
(** What becomes of the loop. *)
Inductive Progress :=
| Continues (l : WorkerLoop.t)
| Superseded
| Fails (message : string)
| Restarts.

Section worker.
(** The files of the machine, and [persist_remote_invite] on them. *)
Context {Disk : Type} (persist_remote_invite : string → Disk → result string () * Disk).

Definition finish_worker_enrollment (random : option string) (send_ok : nat → bool) (l : WorkerLoop.t)
    (owner_name : string) (source : SocketAddr) (key aad nonce ciphertext : string) (inner : PairingInner.t) (disk : Disk)
    : Progress * PairingInner.t * Disk * Sends :=
  let attempt := WorkerLoop.attempt l in
  match decrypt_approval key aad nonce ciphertext with
  | Err e => (Fails e, inner, disk, [])
  | Ok invitation =>
      match persist_remote_invite invitation disk with
      | (Err e, disk) => (Fails e, inner, disk, [])
      | (Ok (), disk) =>
          match encrypted_completion random (attempt_request_id attempt) key aad with
          | Err e => (Fails e, inner, disk, [])
          | Ok completion =>
              let '(ok, sent) := send_all send_ok 0 [completion; completion; completion] source in
              if ok
              then (Restarts,
                    set_worker_status (attempt_generation attempt)
                      (WorkerPairingView.Approved (attempt_request_id attempt) owner_name) inner, disk, sent)
              else (Fails "could not confirm secure enrollment", inner, disk, sent)
          end
      end
  end.

Definition receive_challenge (source : SocketAddr) (owner_name ephemeral_public_key : string) (l : WorkerLoop.t)
    (inner : PairingInner.t) : Progress * PairingInner.t :=
  let attempt := WorkerLoop.attempt l in
  let request_id := attempt_request_id attempt in
  match decode_32 ephemeral_public_key with
  | Err _ => (Continues l, inner)
  | Ok owner_public =>
      if is_some_and (λ owner, owner.1.1.1 != source) (WorkerLoop.selected_owner l) then (Continues l, inner)
      else
        let shared := diffie_hellman (WorkerLoop.secret l) owner_public in
        let '(key, verification_code, aad) :=
          derive_material shared (pairing_transcript request_id (WorkerLoop.public l) owner_public) in
        match bounded_label owner_name "owner name" with
        | Err e => (Fails e, inner)
        | Ok owner_name =>
            (Continues (WorkerLoop.set_selected_owner (source, key, aad, owner_name) l),
             set_worker_status (attempt_generation attempt)
               (WorkerPairingView.WaitingApproval request_id owner_name verification_code (attempt_expires_at_ms attempt)) inner)
        end
  end.

(** The assembly a fragment goes to: the one under way if it has this nonce and count, or a new
    one, which begins with the fragment 0. *)
Definition assembly_for (nonce : string) (count index : Z) (current : option ApprovalAssembly.t)
    : option ApprovalAssembly.t :=
  match current with
  | Some assembly =>
      if (ApprovalAssembly.nonce assembly != nonce) || (ApprovalAssembly.chunk_count assembly != count)
      then None else Some assembly
  | None => if index =? 0 then ApprovalAssembly.new nonce count else None
  end.
Definition receive_chunk (random : option string) (send_ok : nat → bool) (source : SocketAddr) (nonce : string)
    (chunk_index chunk_count : Z) (chunk : string) (l : WorkerLoop.t) (inner : PairingInner.t) (disk : Disk)
    : Progress * PairingInner.t * Disk * Sends :=
  match WorkerLoop.selected_owner l with
  | None => (Continues l, inner, disk, [])
  | Some (owner_addr, key, aad, owner_name) =>
      if owner_addr != source then (Continues l, inner, disk, [])
      else match assembly_for nonce chunk_count chunk_index (WorkerLoop.approval_assembly l) with
      | None => (Continues l, inner, disk, [])
      | Some assembly =>
          let '(pushed, assembly) := ApprovalAssembly.push chunk_index chunk assembly in
          let l := WorkerLoop.set_approval_assembly (Some assembly) l in
          match pushed with
          | Err e => (Fails e, inner, disk, [])
          | Ok None => (Continues l, inner, disk, [])
          | Ok (Some ciphertext) =>
              finish_worker_enrollment random send_ok l owner_name source key aad nonce ciphertext inner disk
          end
      end
  end.
Definition worker_receive (random : option string) (send_ok : nat → bool) (received : option (string * SocketAddr))
    (l : WorkerLoop.t) (inner : PairingInner.t) (disk : Disk) : Progress * PairingInner.t * Disk * Sends :=
  let request_id := attempt_request_id (WorkerLoop.attempt l) in
  let ours schema response_id := (schema == PAIRING_SCHEMA) && (response_id == request_id) in
  match received with
  | None => (Continues l, inner, disk, [])
  | Some (bytes, source) =>
      if (len bytes =? 0) || (MAX_DATAGRAM_BYTES <? len bytes) then (Continues l, inner, disk, [])
      else match decode_json bytes with
      | Ok (PairingDatagram.Challenge schema response_id owner_name ephemeral_public_key _) =>
          if ours schema response_id
          then let '(progress, inner) := receive_challenge source owner_name ephemeral_public_key l inner in
               (progress, inner, disk, [])
          else (Continues l, inner, disk, [])
      | Ok (PairingDatagram.Approval schema response_id nonce ciphertext) =>
          match ours schema response_id, WorkerLoop.selected_owner l with
          | true, Some (owner_addr, key, aad, owner_name) =>
              if owner_addr != source then (Continues l, inner, disk, [])
              else finish_worker_enrollment random send_ok l owner_name source key aad nonce ciphertext inner disk
          | _, _ => (Continues l, inner, disk, [])
          end
      | Ok (PairingDatagram.ApprovalChunk schema response_id nonce chunk_index chunk_count chunk) =>
          if ours schema response_id
          then receive_chunk random send_ok source nonce chunk_index chunk_count chunk l inner disk
          else (Continues l, inner, disk, [])
      | Ok (PairingDatagram.Rejected schema response_id reason) =>
          match ours schema response_id, WorkerLoop.selected_owner l with
          | true, Some (owner_addr, _, _, _) =>
              (if owner_addr != source then Continues l else Fails reason, inner, disk, [])
          | _, _ => (Continues l, inner, disk, [])
          end
      | _ => (Continues l, inner, disk, [])
      end
  end.
(** One turn of the loop.  The sends of a tick may fail without consequence. *)
Definition worker_turn (now : Z) (event : Event) (random : option string) (send_ok : nat → bool) (l : WorkerLoop.t)
    (inner : PairingInner.t) (disk : Disk) : Progress * PairingInner.t * Disk * Sends :=
  let attempt := WorkerLoop.attempt l in
  if negb (generation_is_current (attempt_generation attempt) inner) then (Superseded, inner, disk, [])
  else if attempt_expires_at_ms attempt <=? now
  then (Fails "No owner approved this laptop within fifteen minutes. Try again beside the owner PC.", inner, disk, [])
  else match event with
       | Tick => (Continues l, inner, disk, (λ destination, (WorkerLoop.hello l, destination)) <$> WorkerLoop.destinations l)
       | Received received => worker_receive random send_ok received l inner disk
       end.
(** The task around the loop: a failure becomes the status. *)
Definition worker_task (now : Z) (event : Event) (random : option string) (send_ok : nat → bool) (l : WorkerLoop.t)
    (inner : PairingInner.t) (disk : Disk) : Progress * PairingInner.t * Disk * Sends :=
  let '(progress, inner, disk, sent) := worker_turn now event random send_ok l inner disk in
  match progress with
  | Fails message =>
      (progress, set_worker_status (attempt_generation (WorkerLoop.attempt l)) (WorkerPairingView.Failed message) inner,
       disk, sent)
  | _ => (progress, inner, disk, sent)
  end.
End worker.
End pairing.
