(* ===== verification/PairingFacts.v ===== *)
(** * Facts about nearby pairing

    The two ends derive the same key and show the same code; an approval that the owner gives
    reaches the machine whatever the network does to the order and number of its fragments;
    nothing of an invitation leaves the owner without an approval; and what waits for approval
    is bounded. *)

From S2P Require Import Prelude.
From S2P Require Import Codec.
From S2P Require Import Text.
From S2P Require Import Contracts.
From S2P Require Import Wire.
From S2P Require Import Net.
From S2P Require Import Mesh.
From S2P Require Import Pairing.
Import Text.
#[local] Open Scope Z_scope.

(** A value of the Rust type: text in UTF-8, and integers of their width. *)
Definition typed (d : PairingDatagram.t) : Prop :=
  match d with
  | PairingDatagram.Hello a b c d e issued expires =>
      Forall (λ s, is_utf8 s = true) [a; b; c; d; e] ∧ is_u64 issued ∧ is_u64 expires
  | PairingDatagram.Challenge a b c d expires => Forall (λ s, is_utf8 s = true) [a; b; c; d] ∧ is_u64 expires
  | PairingDatagram.ApprovalChunk a b c index count e =>
      Forall (λ s, is_utf8 s = true) [a; b; c; e] ∧ is_u16 index ∧ is_u16 count
  | PairingDatagram.Approval a b c d | PairingDatagram.EnrollmentComplete a b c d =>
      Forall (λ s, is_utf8 s = true) [a; b; c; d]
  | PairingDatagram.Rejected a b c => Forall (λ s, is_utf8 s = true) [a; b; c]
  end.
(** What x25519, AES-GCM, base64 and serde_json promise. *)
Class PairingLaws {codec : Codec} {base64 : Base64} {crypto : PairingCrypto} {wire : Wire PairingDatagram.t} : Prop := {
  dh_agrees a b : diffie_hellman a (x25519_public b) = diffie_hellman b (x25519_public a);
  public_is_32 a : len (x25519_public a) = 32;
  decrypt_encrypt key nonce aad m : aead_decrypt key nonce aad (aead_encrypt key nonce aad m) = Some m;
  base64_back s : base64_decode (base64_encode s) = Some s;
  base64_alphabet s : all_bytes ApprovalAssembly.is_base64_byte (base64_encode s) = true;
  datagram_back d : typed d → decode_json (encode_json d) = Ok d;
  datagram_not_empty d : len (encode_json (A := PairingDatagram.t) d) ≠ 0
}.

(** ** Cutting and joining *)

Lemma str_app_assoc s t u : (s +:+ t) +:+ u = s +:+ (t +:+ u).
Proof. apply chars_inj. by rewrite !chars_app, app_assoc. Qed.
Lemma all_bytes_app p s t : all_bytes p (s +:+ t) = all_bytes p s && all_bytes p t.
Proof. unfold all_bytes. rewrite chars_app. apply forallb_app. Qed.

Lemma all_bytes_cons p a s : all_bytes p (String a s) = p (N_of_ascii a) && all_bytes p s.
Proof. done. Qed.
Lemma all_bytes_weaken (p q : N → bool) s : (∀ b, p b = true → q b = true) → all_bytes p s = true → all_bytes q s = true.
Proof.
  intros Hpq. induction s as [|a s IH]; [done|]. rewrite !all_bytes_cons. intros [Ha Hs]%andb_prop.
  by rewrite Hpq, IH.
Qed.
Lemma ascii_utf8 s : all_bytes (λ b, b <? 128)%N s = true → is_utf8 s = true.
Proof.
  induction s as [|a s IH]; [done|]. rewrite all_bytes_cons. intros [Ha Hs]%andb_prop.
  cbn [is_utf8]. rewrite Ha. by apply IH.
Qed.
Lemma base64_byte_ascii b : ApprovalAssembly.is_base64_byte b = true → (b <? 128)%N = true.
Proof.
  unfold ApprovalAssembly.is_base64_byte, is_ascii_alphanumeric, is_ascii_digit, between. intros H.
  apply N.ltb_lt. repeat (apply orb_prop in H as [H|H]); try apply andb_prop in H as [H1 H2];
    rewrite ?N.leb_le, ?N.eqb_eq in *; lia.
Qed.
Lemma hex_byte_ascii b : is_ascii_hexdigit b = true → (b <? 128)%N = true.
Proof.
  unfold is_ascii_hexdigit, is_ascii_digit, lower_hex_byte, is_ascii_digit, between. intros H.
  apply N.ltb_lt. repeat (apply orb_prop in H as [H|H]); try apply andb_prop in H as [H1 H2];
    rewrite ?N.leb_le, ?N.eqb_eq in *; lia.
Qed.

Section cutting.
Variable n : nat.
Hypothesis n_pos : (0 < n)%nat.

Lemma pieces_spec fuel s p :
  (String.length s ≤ fuel)%nat →
  ApprovalAssembly.concat_all (pieces fuel n s) = s ∧
  (p ∈ pieces fuel n s → p ≠ "" ∧ (String.length p ≤ n)%nat).
Proof.
  revert s. induction fuel as [|fuel IH]; intros [|a s] Hlen; cbn [pieces]; try (by split; [|intros ?%not_elem_of_nil]).
  { cbn in Hlen. lia. }
  pose proof (split_at_app n (String a s)) as Happ. pose proof (split_at_length n (String a s)) as Hn.
  destruct (split_at n (String a s)) as [piece rest]. cbn [fst snd] in *.
  assert (String.length piece + String.length rest = S (String.length s))%nat as Hsum.
  { by rewrite <- length_append_string, Happ. }
  cbn in Hn, Hlen. destruct (IH rest) as [Hcat Hin]; [lia|]. split.
  - cbn. unfold ApprovalAssembly.concat_all in Hcat. by rewrite Hcat.
  - intros [->|Hp]%elem_of_cons; [|by apply Hin]. split; [|lia]. intros ->. cbn in Hn. lia.
Qed.
Lemma chunks_of_concat s : ApprovalAssembly.concat_all (chunks_of n s) = s.
Proof. by apply (pieces_spec _ _ ""). Qed.
Lemma chunks_of_elem s p : p ∈ chunks_of n s → p ≠ "" ∧ (String.length p ≤ n)%nat.
Proof. by apply pieces_spec. Qed.
End cutting.

Lemma concat_all_length l : len (ApprovalAssembly.concat_all l) = zsum (len <$> l).
Proof.
  induction l as [|s l IH]; [done|]. cbn. unfold ApprovalAssembly.concat_all, len in *. cbn.
  rewrite length_append_string, Nat2Z.inj_add, IH. done.
Qed.
Lemma concat_all_bytes p l s : all_bytes p (ApprovalAssembly.concat_all l) = true → s ∈ l → all_bytes p s = true.
Proof.
  induction l as [|t l IH]; [by intros _ ?%not_elem_of_nil|].
  change (ApprovalAssembly.concat_all (t :: l)) with (t +:+ ApprovalAssembly.concat_all l).
  rewrite all_bytes_app. intros [Ht Hl]%andb_prop.
  by intros [->|Hs]%elem_of_cons; [|apply IH].
Qed.

(** ** Reassembly *)

(** The bytes of the pieces that are there. *)
Definition total (l : list (option string)) : Z := zsum (len <$> omap id l).
Lemma total_cons o l : total (o :: l) = from_option len 0 o + total l.
Proof. by destruct o. Qed.
Lemma total_insert l i c : l !! i = Some None → total (<[i := Some c]> l) = total l + len c.
Proof.
  revert i. induction l as [|o l IH]; intros [|i] Hi; try done.
  - injection Hi as ->. change (total (Some c :: l) = total (None :: l) + len c). rewrite !total_cons. cbn. lia.
  - change (total (o :: <[i := Some c]> l) = total (o :: l) + len c). rewrite !total_cons, IH by done. lia.
Qed.
Lemma total_part (f : nat → string → option string) cs :
  (∀ i c, f i c = Some c ∨ f i c = None) → total (imap f cs) <= zsum (len <$> cs).
Proof.
  revert f. induction cs as [|c cs IH]; intros f Hf; [done|]. rewrite imap_cons, total_cons.
  specialize (IH (λ i, f (S i)) ltac:(intros; apply Hf)). unfold compose.
  change (zsum (len <$> c :: cs)) with (len c + zsum (len <$> cs)).
  assert (0 <= len c) by (unfold len; lia). destruct (Hf 0%nat c) as [-> | ->]; cbn [from_option]; lia.
Qed.

(** The assembly of the fragments [cs] that holds those in [got]. *)
Section assembly.
Variables (nonce : string) (cs : list string).
Hypothesis count_ok : in_range 1 MAX_APPROVAL_CHUNKS (zlen cs) = true.
Hypothesis total_ok : zsum (len <$> cs) <= MAX_APPROVAL_CIPHERTEXT_CHARS.
Hypothesis piece_ok : ∀ c, c ∈ cs →
  c ≠ "" ∧ len c <= MAX_APPROVAL_CHUNK_CHARS ∧ all_bytes ApprovalAssembly.is_base64_byte c = true.

Definition part (got : gset nat) (i : nat) (c : string) : option string := if decide (i ∈ got) then Some c else None.
Definition held (got : gset nat) : ApprovalAssembly.t :=
  ApprovalAssembly.mk nonce (zlen cs) (imap (part got) cs) (total (imap (part got) cs)).

Lemma held_new : ApprovalAssembly.new nonce (zlen cs) = Some (held ∅).
Proof.
  unfold ApprovalAssembly.new. rewrite count_ok. unfold held.
  assert (imap (part ∅) cs = replicate (Z.to_nat (zlen cs)) None) as ->.
  { unfold zlen. rewrite Nat2Z.id. apply list_eq. intros i. rewrite list_lookup_imap.
    destruct (decide (i < length cs)%nat) as [Hi|Hi].
    - rewrite lookup_replicate_2 by done. destruct (lookup_lt_is_Some_2 cs i Hi) as [c ->]. done.
    - rewrite (lookup_ge_None_2 cs i), (lookup_ge_None_2 (replicate _ _) i); rewrite ?length_replicate; done || lia. }
  do 2 f_equal. unfold total. induction (Z.to_nat (zlen cs)); done.
Qed.
Lemma imap_part_insert got i c : cs !! i = Some c → imap (part ({[i]} ∪ got)) cs = <[i := Some c]> (imap (part got) cs).
Proof.
  intros Hi. apply list_eq. intros j. rewrite list_lookup_imap. destruct (decide (j = i)) as [->|Hne].
  - rewrite list_lookup_insert_eq by (rewrite length_imap; by eapply lookup_lt_Some).
    rewrite Hi. cbn. unfold part. rewrite decide_True by set_solver. done.
  - rewrite list_lookup_insert_ne by done. rewrite list_lookup_imap. destruct (cs !! j); [|done]. cbn. f_equal.
    unfold part. destruct (decide (j ∈ got)); [rewrite decide_True by set_solver|rewrite decide_False by set_solver]; done.
Qed.
Lemma push_held got i c :
  cs !! i = Some c →
  ApprovalAssembly.push (Z.of_nat i) c (held got) =
  (Ok (ApprovalAssembly.complete (held ({[i]} ∪ got))), held ({[i]} ∪ got)).
Proof.
  intros Hi. pose proof (lookup_lt_Some _ _ _ Hi) as Hlt. destruct (piece_ok c) as (Hne & Hlen & Hb).
  { by apply list_elem_of_lookup_2 with i. }
  assert (sat_add (total (imap (part got) cs)) (len c) <= MAX_APPROVAL_CIPHERTEXT_CHARS ∨ i ∈ got) as Hroom.
  { destruct (decide (i ∈ got)) as [|Hnot]; [by right|left].
    assert (imap (part got) cs !! i = Some None) as Hnone by (rewrite list_lookup_imap, Hi; cbn; unfold part; by rewrite decide_False).
    pose proof (total_part (part ({[i]} ∪ got)) cs) as Hle. rewrite imap_part_insert with (c := c), total_insert in Hle by done.
    specialize (Hle ltac:(intros j x; unfold part; destruct (decide _); auto)). unfold sat_add. lia. }
  unfold ApprovalAssembly.push. cbn [ApprovalAssembly.chunk_count ApprovalAssembly.chunks ApprovalAssembly.encoded_len ApprovalAssembly.nonce held].
  rewrite (proj2 (Z.leb_gt _ _)) by (unfold zlen; lia). rewrite Hb.
  rewrite (proj2 (Z.ltb_ge _ _)) by done. destruct c as [|a c']; [done|]. cbn [is_empty orb negb]. set (c := String a c') in *.
  rewrite Nat2Z.id, list_lookup_imap, Hi. cbn. unfold part at 1. destruct (decide (i ∈ got)) as [Hin|Hnot].
  - cbn. rewrite bool_decide_true by done. assert ({[i]} ∪ got = got) as -> by set_solver. done.
  - destruct Hroom as [Hroom|]; [|done]. cbn. rewrite (proj2 (Z.ltb_ge _ _)) by done.
    unfold held. rewrite imap_part_insert with (c := c) by done. rewrite total_insert; [done|].
    rewrite list_lookup_imap, Hi. cbn. unfold part. by rewrite decide_False.
Qed.
Lemma complete_all got : (∀ i, (i < length cs)%nat → i ∈ got) →
  ApprovalAssembly.complete (held got) = Some (ApprovalAssembly.concat_all cs).
Proof.
  intros Hall. unfold ApprovalAssembly.complete. assert (mapM id (imap (part got) cs) = Some cs) as Hm; [|by cbn; rewrite Hm].
  apply mapM_Some. apply Forall2_same_length_lookup. split; [by rewrite length_imap|].
  intros i x y Hx Hy. rewrite list_lookup_imap, Hy in Hx. cbn in Hx. injection Hx as <-.
  unfold part. rewrite decide_True; [done|]. by eapply Hall, lookup_lt_Some.
Qed.
Lemma complete_some got i : (i < length cs)%nat → i ∉ got → ApprovalAssembly.complete (held got) = None.
Proof.
  intros Hi Hnot. unfold ApprovalAssembly.complete. cbn. destruct (mapM id (imap (part got) cs)) as [l|] eqn:Hm; [|done].
  apply mapM_Some in Hm. destruct (lookup_lt_is_Some_2 cs i Hi) as [c Hc].
  assert (imap (part got) cs !! i = Some None) as Hx by (rewrite list_lookup_imap, Hc; cbn; unfold part; by rewrite decide_False).
  destruct (Forall2_lookup_l _ _ _ _ _ Hm Hx) as (y & _ & Hy). done.
Qed.
End assembly.

(** ** An approval on its way *)

(** The fragments from the first that carries the index 0 on. *)
Fixpoint from_anchor (ks : list nat) : list nat :=
  match ks with
  | [] => []
  | O :: _ => ks
  | S _ :: ks => from_anchor ks
  end.
(** Among them are all of [n]. *)
Definition covered (n : nat) (ks : list nat) : Prop := ∀ i, (i < n)%nat → i ∈ from_anchor ks.

Section delivery.
Context {codec : Codec} {base64 : Base64} {crypto : PairingCrypto} {wire : Wire PairingDatagram.t}.
Context {laws : PairingLaws}.
Context {Disk : Type} (persist_remote_invite : string → Disk → result string () * Disk).
Abbreviation worker_turn := (worker_turn persist_remote_invite).
Abbreviation receive_chunk := (receive_chunk persist_remote_invite).

(** Datagrams that come in one after the other, at the times given. *)
Fixpoint deliver (random : option string) (send_ok : nat → bool) (events : list (Z * (string * SocketAddr)))
    (l : WorkerLoop.t) (inner : PairingInner.t) (disk : Disk) : Progress * PairingInner.t * Disk :=
  match events with
  | [] => (Continues l, inner, disk)
  | (now, datagram) :: events =>
      match worker_turn now (Received (Some datagram)) random send_ok l inner disk with
      | (Continues l, inner, disk, _) => deliver random send_ok events l inner disk
      | (progress, inner, disk, _) => (progress, inner, disk)
      end
  end.

Lemma turn_receives now event random send_ok l inner disk :
  generation_is_current (attempt_generation (WorkerLoop.attempt l)) inner = true →
  now < attempt_expires_at_ms (WorkerLoop.attempt l) →
  worker_turn now (Received event) random send_ok l inner disk =
  worker_receive persist_remote_invite random send_ok event l inner disk.
Proof. intros Hgen Hnow. unfold Pairing.worker_turn. rewrite Hgen. cbn. by rewrite (proj2 (Z.leb_gt _ _)). Qed.

(** What is in a datagram the other end can read. *)
Lemma datagram_size_ok d : typed d → len (encode_json d) <= MAX_DATAGRAM_BYTES →
  (len (encode_json d) =? 0) || (MAX_DATAGRAM_BYTES <? len (encode_json d)) = false ∧ decode_json (encode_json d) = Ok d.
Proof.
  intros Ht Hlen. rewrite (proj2 (Z.eqb_neq _ _)) by apply datagram_not_empty.
  rewrite (proj2 (Z.ltb_ge _ _)) by done. split; [done|]. by apply datagram_back.
Qed.
Lemma schema_utf8 : is_utf8 PAIRING_SCHEMA = true.
Proof. reflexivity. Qed.
Lemma base64_utf8 s : is_utf8 (base64_encode s) = true.
Proof. apply ascii_utf8. eapply all_bytes_weaken; [apply base64_byte_ascii|apply base64_alphabet]. Qed.
Lemma request_id_utf8 id : valid_request_id id = true → is_utf8 id = true.
Proof. intros [_ H]%andb_prop. apply ascii_utf8. by eapply all_bytes_weaken; [apply hex_byte_ascii|]. Qed.

(** An approval as the owner prepared it for a request. *)
Section approval.
Variables (p : PendingPair.t) (nonce invitation : string) (payloads : list string).
Hypothesis prepared : encrypted_approval_chunks (Some nonce) p invitation = Ok payloads.
Hypothesis nonce_ok : len nonce = 12.
Hypothesis invitation_text : is_utf8 invitation = true.
Hypothesis id_ok : valid_request_id (PendingPair.request_id p) = true.

Definition ciphertext : string :=
  base64_encode (aead_encrypt (PendingPair.key p) nonce (PendingPair.aad p) invitation).
Definition fragments : list string := chunks_of (Z.to_nat MAX_APPROVAL_CHUNK_CHARS) ciphertext.

Lemma chunk_pos : (0 < Z.to_nat MAX_APPROVAL_CHUNK_CHARS)%nat.
Proof. unfold MAX_APPROVAL_CHUNK_CHARS. lia. Qed.
Lemma approval_readable :
  decrypt_approval (PendingPair.key p) (PendingPair.aad p) (base64_encode nonce) ciphertext = Ok invitation.
Proof.
  unfold decrypt_approval, decrypt_payload, ciphertext. rewrite !base64_back.
  cbn [ok_or mbind result_bind]. rewrite nonce_ok. change (negb (12 =? 12)) with false.
  cbn [ok_or mbind result_bind]. rewrite decrypt_encrypt. cbn [ok_or mbind result_bind].
  by rewrite invitation_text.
Qed.
Lemma prepared_spec :
  in_range 1 MAX_APPROVAL_CHUNKS (zlen fragments) = true ∧ zsum (len <$> fragments) <= MAX_APPROVAL_CIPHERTEXT_CHARS ∧
  try_map (encode_chunk (PendingPair.request_id p) (base64_encode nonce) (zlen fragments)) (imap pair fragments) = Ok payloads.
Proof.
  pose proof prepared as H. unfold encrypted_approval_chunks, encrypt_payload in H. destruct (_ <? len invitation); [done|].
  cbn in H. fold ciphertext in H. destruct (Z.ltb_spec MAX_APPROVAL_CIPHERTEXT_CHARS (len ciphertext)) as [|Hlen]; [done|].
  change (chunks_of (Z.to_nat MAX_APPROVAL_CHUNK_CHARS) ciphertext) with fragments in H.
  destruct (_ || _) eqn:Hcount; [done|]. apply orb_false_elim in Hcount as [H0 H16]. split; [|split; [|done]].
  - unfold in_range. apply andb_true_intro. rewrite !Z.leb_le. apply Z.eqb_neq in H0. apply Z.ltb_ge in H16.
    unfold zlen in *. lia.
  - rewrite <- concat_all_length. unfold fragments. by rewrite chunks_of_concat by apply chunk_pos.
Qed.
Lemma fragment_ok c : c ∈ fragments →
  c ≠ "" ∧ len c <= MAX_APPROVAL_CHUNK_CHARS ∧ all_bytes ApprovalAssembly.is_base64_byte c = true.
Proof.
  intros Hc. pose proof (chunks_of_elem (Z.to_nat MAX_APPROVAL_CHUNK_CHARS) chunk_pos _ _ Hc) as [Hne Hlen].
  split; [done|]. split; [unfold len, MAX_APPROVAL_CHUNK_CHARS in *; lia|].
  eapply concat_all_bytes; [|exact Hc]. unfold fragments. rewrite chunks_of_concat by apply chunk_pos. apply base64_alphabet.
Qed.
Lemma payloads_length : length payloads = length fragments.
Proof.
  destruct prepared_spec as (_ & _ & H). apply try_map_ok in H. apply Forall2_length in H. by rewrite <- H, length_imap.
Qed.
Lemma payload_is k payload :
  payloads !! k = Some payload → ∃ c, fragments !! k = Some c ∧
    (len payload =? 0) || (MAX_DATAGRAM_BYTES <? len payload) = false ∧
    decode_json payload =
      Ok (approval_chunk (PendingPair.request_id p) (base64_encode nonce) (zlen fragments) k c).
Proof.
  intros Hk. destruct prepared_spec as (Hcount & _ & H). apply try_map_ok in H.
  destruct (Forall2_lookup_r _ _ _ _ _ H Hk) as ([i c] & Hi & He). rewrite list_lookup_imap in Hi.
  destruct (fragments !! k) as [c'|] eqn:Hc; [|done]. cbn in Hi. injection Hi as <- <-. exists c'. split; [done|].
  unfold encode_chunk in He. cbn in He. destruct (Z.ltb_spec 1024 (len (encode_json (approval_chunk (PendingPair.request_id p)
    (base64_encode nonce) (zlen fragments) k c')))) as [|Hlen]; [done|]. injection He as <-.
  apply datagram_size_ok; [|unfold MAX_DATAGRAM_BYTES; lia].
  apply lookup_lt_Some in Hc as Hlt. destruct (fragment_ok c') as (_ & _ & Hb); [by eapply list_elem_of_lookup_2|].
  unfold in_range, MAX_APPROVAL_CHUNKS, zlen in Hcount. apply andb_prop in Hcount as [_ Hle%Z.leb_le].
  split; [|unfold is_u16, u16_max, zlen; lia].
  repeat constructor; [by apply request_id_utf8|apply base64_utf8|].
  apply ascii_utf8. by eapply all_bytes_weaken; [apply base64_byte_ascii|].
Qed.

(** The machine that asked, once it has chosen the owner: its loop, its files before and after
    the invitation is stored, and that its datagrams get out. *)
Section machine.
Variables (l : WorkerLoop.t) (owner_addr : SocketAddr) (owner_name : string) (inner : PairingInner.t) (disk disk' : Disk).
Variables (random : string) (send_ok : nat → bool).
Hypothesis same_request : attempt_request_id (WorkerLoop.attempt l) = PendingPair.request_id p.
Hypothesis owner_selected :
  WorkerLoop.selected_owner l = Some (owner_addr, PendingPair.key p, PendingPair.aad p, owner_name).
Hypothesis no_assembly : WorkerLoop.approval_assembly l = None.
Hypothesis is_current : generation_is_current (attempt_generation (WorkerLoop.attempt l)) inner = true.
Hypothesis stored : persist_remote_invite invitation disk = (Ok (), disk').
Hypothesis sends_ok : ∀ n, send_ok n = true.

Definition approved_state : PairingInner.t :=
  PairingInner.set_worker (WorkerPairingView.Approved (PendingPair.request_id p) owner_name) inner.
Definition holding (got : gset nat) : WorkerLoop.t :=
  WorkerLoop.set_approval_assembly (Some (held (base64_encode nonce) fragments got)) l.
(** What a delivery comes to, when the fragments in [got] have come in. *)
Definition comes_to (got : gset nat) (r : Progress * PairingInner.t * Disk) : Prop :=
  ((∀ i, (i < length fragments)%nat → i ∈ got) ∧ r = (Restarts, approved_state, disk')) ∨
  ((∃ i, (i < length fragments)%nat ∧ i ∉ got) ∧ r = (Continues (holding got), inner, disk)).

Lemma all_or_missing (got : gset nat) n : (∀ i, (i < n)%nat → i ∈ got) ∨ (∃ i, (i < n)%nat ∧ i ∉ got).
Proof.
  induction n as [|n [IH|(i & Hi & Hn)]]; [left; lia| |right; exists i; split; [lia|done]].
  destruct (decide (n ∈ got)); [left|right; exists n; split; [lia|done]]. intros i Hi. destruct (decide (i = n)) as [->|]; [done|apply IH; lia].
Qed.
Lemma finishes l' : WorkerLoop.attempt l' = WorkerLoop.attempt l →
  (finish_worker_enrollment persist_remote_invite (Some random) send_ok l' owner_name owner_addr (PendingPair.key p)
     (PendingPair.aad p) (base64_encode nonce) ciphertext inner disk).1 = (Restarts, approved_state, disk').
Proof.
  intros Hl. unfold finish_worker_enrollment. rewrite approval_readable, stored. cbn. rewrite !sends_ok, Hl, same_request. cbn.
  unfold set_worker_status. unfold generation_is_current in is_current. by rewrite is_current.
Qed.
Lemma pushes l' k c : WorkerLoop.attempt l' = WorkerLoop.attempt l → WorkerLoop.selected_owner l' = WorkerLoop.selected_owner l →
  (∀ x, WorkerLoop.set_approval_assembly x l' = WorkerLoop.set_approval_assembly x l) →
  ∀ got, assembly_for (base64_encode nonce) (zlen fragments) (Z.of_nat k) (WorkerLoop.approval_assembly l') =
    Some (held (base64_encode nonce) fragments got) →
  fragments !! k = Some c →
  comes_to ({[k]} ∪ got) (receive_chunk (Some random) send_ok owner_addr (base64_encode nonce) (Z.of_nat k) (zlen fragments) c
                            l' inner disk).1.
Proof.
  intros Hl Hsel Hset got Hasm Hc. unfold Pairing.receive_chunk. rewrite Hsel, owner_selected. cbn.
  rewrite bool_decide_true by done. cbn. rewrite Hasm.
  destruct prepared_spec as (Hcount & Htotal & _). rewrite (push_held _ _ Hcount Htotal fragment_ok) by done.
  destruct (all_or_missing ({[k]} ∪ got) (length fragments)) as [Hall|(i & Hi & Hn)].
  - left. split; [done|]. rewrite complete_all by done. unfold fragments at 2. rewrite chunks_of_concat by apply chunk_pos.
    by apply finishes.
  - right. split; [by exists i|]. rewrite (complete_some _ _ _ i) by done. cbn. by rewrite Hset.
Qed.

(** Fragments, at times within the attempt. *)
Definition arrivals (ks : list (Z * nat)) : list (Z * (string * SocketAddr)) :=
  omap (λ e, payload ← payloads !! e.2; Some (e.1, (payload, owner_addr))) ks.
Definition in_time (ks : list (Z * nat)) : Prop :=
  Forall (λ e, e.1 < attempt_expires_at_ms (WorkerLoop.attempt l) ∧ (e.2 < length payloads)%nat) ks.

Lemma receives_chunk l' k payload :
  WorkerLoop.attempt l' = WorkerLoop.attempt l → payloads !! k = Some payload →
  ∃ c, fragments !! k = Some c ∧
    worker_receive persist_remote_invite (Some random) send_ok (Some (payload, owner_addr)) l' inner disk =
    receive_chunk (Some random) send_ok owner_addr (base64_encode nonce) (Z.of_nat k) (zlen fragments) c l' inner disk.
Proof.
  intros Hl Hk. destruct (payload_is k payload Hk) as (c & Hc & Hsize & Hdecode). exists c. split; [done|].
  unfold worker_receive. rewrite Hsize, Hdecode. cbn [approval_chunk].
  rewrite Hl, same_request, !bool_decide_true by done. done.
Qed.
Lemma delivers_holding ks : in_time ks → ∀ got, (∃ i, (i < length fragments)%nat ∧ i ∉ got) →
  comes_to (list_to_set ks.*2 ∪ got) (deliver (Some random) send_ok (arrivals ks) (holding got) inner disk).
Proof.
  induction 1 as [|[now k] ks [Hnow Hk] _ IH]; intros got Hmissing.
  - right. assert (list_to_set (([] : list (Z * nat)).*2) ∪ got = got) as -> by set_solver. done.
  - cbn in Hnow, Hk. destruct (lookup_lt_is_Some_2 _ _ Hk) as [payload Hp]. cbn. rewrite Hp. cbn.
    destruct (receives_chunk (holding got) k payload eq_refl Hp) as (c & Hc & Hrecv).
    rewrite turn_receives, Hrecv by done.
    assert (comes_to ({[k]} ∪ got) (receive_chunk (Some random) send_ok owner_addr (base64_encode nonce) (Z.of_nat k)
      (zlen fragments) c (holding got) inner disk).1) as Hcomes.
    { apply pushes; try done. cbn. by rewrite !bool_decide_true. }
    destruct (receive_chunk _ _ _ _ _ _ _ _ _ _) as [[[progress inner'] disk''] sent]. cbn [fst] in Hcomes.
    destruct Hcomes as [[Hall [= -> -> ->]]|[Hmore [= -> -> ->]]].
    + left. split; [|done]. intros i Hi. specialize (Hall i Hi). set_solver.
    + specialize (IH _ Hmore). replace ({[k]} ∪ list_to_set ks.*2 ∪ got) with (list_to_set ks.*2 ∪ ({[k]} ∪ got)) by set_solver. done.
Qed.
Lemma delivers ks : in_time ks → payloads ≠ [] →
  let r := deliver (Some random) send_ok (arrivals ks) l inner disk in
  (covered (length payloads) ks.*2 ∧ r = (Restarts, approved_state, disk')) ∨
  (¬ covered (length payloads) ks.*2 ∧ ∃ l', r = (Continues l', inner, disk)).
Proof.
  intros Htime Hne. rewrite payloads_length. assert (0 < length fragments)%nat as Hpos.
  { rewrite <- payloads_length. destruct payloads; [done|cbn; lia]. }
  induction Htime as [|[now k] ks [Hnow Hk] Htime IH].
  - right. split; [|by exists l]. intros Hcov. specialize (Hcov 0%nat Hpos). by apply not_elem_of_nil in Hcov.
  - cbn in Hnow, Hk. destruct (lookup_lt_is_Some_2 _ _ Hk) as [payload Hp]. cbn. rewrite Hp. cbn.
    destruct (receives_chunk l k payload eq_refl Hp) as (c & Hc & Hrecv). rewrite turn_receives, Hrecv by done.
    destruct k as [|k].
    + assert (comes_to ({[0%nat]} ∪ ∅) (receive_chunk (Some random) send_ok owner_addr (base64_encode nonce) (Z.of_nat 0)
        (zlen fragments) c l inner disk).1) as Hcomes.
      { apply pushes; try done. rewrite no_assembly. cbn. apply held_new. apply prepared_spec. }
      destruct (receive_chunk _ _ _ _ _ _ _ _ _ _) as [[[progress inner'] disk''] sent]. cbn [fst] in Hcomes.
      destruct Hcomes as [[Hall [= -> -> ->]]|[Hmore [= -> -> ->]]].
      * left. split; [|done]. intros i Hi. specialize (Hall i Hi). cbn. set_solver.
      * destruct (delivers_holding ks Htime _ Hmore) as [[Hall Hr]|[(i & Hi & Hn) Hr]].
        -- left. split; [|done]. intros i Hi. specialize (Hall i Hi). cbn. set_solver.
        -- right. split; [|eauto]. intros Hcov. specialize (Hcov i Hi). cbn in Hcov. set_solver.
    + unfold Pairing.receive_chunk. rewrite owner_selected. cbn. rewrite bool_decide_true by done. cbn.
      rewrite no_assembly. cbn. apply IH.
Qed.
End machine.
End approval.

(** What an approval that succeeds leaves on record. *)
Lemma approve_prepares now random send_ok id invitation owner view owner' sent p payloads :
  approve now random send_ok id invitation owner = (Ok view, owner', sent) →
  PairingInner.pending owner' !! id = Some p → PendingPair.approval_payloads p = Some payloads →
  encrypted_approval_chunks random p invitation = Ok payloads ∧ sent = (λ payload, (payload, PendingPair.peer_addr p)) <$> payloads.
Proof.
  unfold approve. destruct (negb _); [done|]. destruct (_ !! id) as [pending|]; [|done].
  destruct (encrypted_approval_chunks random pending invitation) as [ps|] eqn:Hps; [|done].
  destruct (send_all send_ok 0 ps _) as [ok sent'] eqn:Hsend. destruct ok; [|done].
  intros [= _ <- <-]. cbn. rewrite lookup_insert_eq. intros [= <-]. cbn. intros [= <-]. split; [exact Hps|].
  clear -Hsend. revert Hsend. generalize 0%nat as n. revert sent'.
  induction ps as [|q ps IH]; intros sent n; cbn; [by intros [= <-]|]. destruct (send_ok n); [|done].
  destruct (send_all send_ok (S n) ps _) as [ok s] eqn:E. intros [= -> <-]. f_equal. by eapply IH.
Qed.

(** An approval arrives.  When the owner approves a request and the machine that made it
    has chosen that owner, then whatever subset of the fragments comes in, in whatever order and
    number: once all of them have come since the first fragment 0, the invitation that is stored
    is the one the owner approved, the machine shows the approval and restarts; until then
    nothing has changed, and the loop goes on. *)
Theorem approval_arrives now nonce approve_ok id invitation owner view owner' sent p payloads
    l owner_addr owner_name inner disk disk' random send_ok ks :
  approve now (Some nonce) approve_ok id invitation owner = (Ok view, owner', sent) →
  PairingInner.pending owner' !! id = Some p → PendingPair.approval_payloads p = Some payloads →
  len nonce = 12 → is_utf8 invitation = true → valid_request_id (PendingPair.request_id p) = true →
  attempt_request_id (WorkerLoop.attempt l) = PendingPair.request_id p →
  WorkerLoop.selected_owner l = Some (owner_addr, PendingPair.key p, PendingPair.aad p, owner_name) →
  WorkerLoop.approval_assembly l = None →
  generation_is_current (attempt_generation (WorkerLoop.attempt l)) inner = true →
  persist_remote_invite invitation disk = (Ok (), disk') → (∀ n, send_ok n = true) →
  in_time payloads l ks →
  let r := deliver (Some random) send_ok (arrivals payloads owner_addr ks) l inner disk in
  (covered (length payloads) ks.*2 ∧
     r = (Restarts, PairingInner.set_worker (WorkerPairingView.Approved (PendingPair.request_id p) owner_name) inner, disk')) ∨
  (¬ covered (length payloads) ks.*2 ∧ ∃ l', r = (Continues l', inner, disk)).
Proof.
  intros Happrove Hp Hpayloads Hnonce Htext Hid Hreq Hsel Hasm Hgen Hpersist Hsend Htime.
  destruct (approve_prepares _ _ _ _ _ _ _ _ _ _ _ Happrove Hp Hpayloads) as [Hprep _].
  refine (delivers p nonce invitation payloads Hprep Hnonce Htext Hid l owner_addr owner_name inner disk disk' random
            send_ok Hreq Hsel Hasm Hgen Hpersist Hsend ks Htime _).
  intros ->. destruct (prepared_spec p nonce invitation [] Hprep) as (Hcount & _).
  pose proof (payloads_length p nonce invitation [] Hprep) as Hlen. unfold zlen in Hcount. rewrite <- Hlen in Hcount. done.
Qed.

(** ** The key exchange *)

Lemma challenge_derives now source id name kind peer_key peer_public owner_secret owner :
  let p := challenge now source id name kind peer_key peer_public owner_secret owner in
  (PendingPair.key p, PendingPair.verification_code p, PendingPair.aad p) =
    derive_material (diffie_hellman owner_secret peer_public) (pairing_transcript id peer_public (x25519_public owner_secret)) ∧
  PendingPair.challenge_payload p =
    encode_json (PairingDatagram.Challenge PAIRING_SCHEMA id (PairingInner.owner_name owner)
      (base64_encode (x25519_public owner_secret)) (PendingPair.expires_at_ms p)) ∧
  PendingPair.expires_at_ms p = Z.min (sat_add now WORKER_WAIT_MS) (PairingInner.owner_open_until_ms owner).
Proof. unfold challenge. destruct (derive_material _ _) as [[key code] aad]. done. Qed.
Lemma decode_32_public secret : decode_32 (base64_encode (x25519_public secret)) = Ok (x25519_public secret).
Proof. unfold decode_32. rewrite base64_back. cbn [ok_or mbind result_bind]. by rewrite public_is_32. Qed.
(** A new request. *)
Lemma hello_recorded now ifs random source schema id name kind peer_key owner owner' payloads view :
  receive_hello now ifs random source schema id name kind peer_key owner = (owner', payloads, Some view) →
  ∃ peer_public owner_secret base, decode_32 peer_key = Ok peer_public ∧ random = Some owner_secret ∧
    PairingInner.owner_name base = PairingInner.owner_name owner ∧
    PairingInner.owner_open_until_ms base = PairingInner.owner_open_until_ms owner ∧
    let p := challenge now source id name kind peer_key peer_public owner_secret base in
    PairingInner.pending owner' !! id = Some p ∧ payloads = [PendingPair.challenge_payload p] ∧ view = PairingRequestView.from p.
Proof.
  unfold receive_hello. destruct (_ || _); [done|]. destruct (decode_32 peer_key) as [peer_public|]; [|done].
  destruct (_ <=? now); [done|]. destruct (_ !! id) as [existing|]; [by destruct (_ || _)|].
  destruct (_ <=? Z.of_nat _); [done|].
  destruct (admit_source_attempt _ _ _) as [[] attempts]; [|done]. destruct random as [owner_secret|]; [|done].
  intros [= <- <- <-]. exists peer_public, owner_secret, (PairingInner.set_attempts attempts (prune_owner_state now owner)).
  do 4 (split; [done|]).
  cbn. rewrite lookup_insert_eq. split_and!; done.
Qed.

(** The two ends agree.  The machine's hello reaches the owner's inbox, which records a new
    request and answers; when that answer comes back, the machine has chosen this owner under
    the same key and the same associated data, and shows the code the owner is shown. *)
Theorem pairing_agrees bound secret t0 interfaces attempt l now ifs owner_secret source owner owner' sent view
    payload dest owner_addr t random send_ok inner disk :
  start_loop bound (Some secret) t0 interfaces attempt = Ok l →
  is_utf8 (attempt_device_name attempt) = true → is_u64 t0 → is_u64 (attempt_expires_at_ms attempt) →
  valid_request_id (attempt_request_id attempt) = true →
  owner_receive now ifs (Some owner_secret) (Some (WorkerLoop.hello l, source)) owner = (owner', sent, Some view) →
  bounded_label (PairingInner.owner_name owner) "owner name" = Ok (PairingInner.owner_name owner) →
  is_utf8 (PairingInner.owner_name owner) = true → is_u64 now → is_u64 (PairingInner.owner_open_until_ms owner) →
  (payload, dest) ∈ sent → len payload <= MAX_DATAGRAM_BYTES →
  generation_is_current (attempt_generation attempt) inner = true → t < attempt_expires_at_ms attempt →
  ∃ p l', PairingInner.pending owner' !! attempt_request_id attempt = Some p ∧ dest = source ∧
    view = PairingRequestView.from p ∧
    worker_turn t (Received (Some (payload, owner_addr))) random send_ok l inner disk =
      (Continues l', PairingInner.set_worker (WorkerPairingView.WaitingApproval (attempt_request_id attempt)
         (PairingInner.owner_name owner) (PairingRequestView.verification_code view) (attempt_expires_at_ms attempt)) inner,
       disk, []) ∧
    WorkerLoop.selected_owner l' = Some (owner_addr, PendingPair.key p, PendingPair.aad p, PairingInner.owner_name owner).
Proof.
  intros Hstart Hname Ht0 Hexp Hid Howner Hlabel Hutf Hnow Huntil Hsent Hsize Hgen Ht.
  unfold start_loop in Hstart. destruct bound as [[]|]; [|done]. injection Hstart as <-. cbn [WorkerLoop.hello] in Howner.
  unfold owner_receive in Howner. destruct (_ || _); [done|]. rewrite datagram_back in Howner.
  2: { split; [|done]. repeat constructor; [by apply request_id_utf8|done|apply base64_utf8]. }
  destruct (receive_hello _ _ _ _ _ _ _ _ _ _) as [[owner1 payloads] signal] eqn:Hhello. injection Howner as -> <- ->.
  apply hello_recorded in Hhello as (peer_public & os & base & Hpeer & [= <-] & Hbn & Hbu & Hp & -> & ->).
  rewrite decode_32_public in Hpeer. injection Hpeer as <-.
  set (p := challenge _ _ _ _ _ _ _ _ _) in *.
  assert (payload = PendingPair.challenge_payload p ∧ dest = source) as [-> ->].
  { apply list_elem_of_singleton in Hsent. by injection Hsent as -> ->. }
  destruct (challenge_derives now source (attempt_request_id attempt) (attempt_device_name attempt) "desktop"
    (base64_encode (x25519_public secret)) (x25519_public secret) owner_secret base) as (Hmat & Hpay & Hexpiry).
  fold p in Hmat, Hpay, Hexpiry.
  rewrite Hpay in Hsize |- *. eexists p, _. do 3 (split; [done|]). rewrite turn_receives by done.
  edestruct datagram_size_ok as [Hs Hd]; [|exact Hsize|].
  { rewrite Hbn, Hexpiry, Hbu. split; [repeat constructor; [by apply request_id_utf8|done|apply base64_utf8]|].
       unfold is_u64, sat_add, WORKER_WAIT_MS in *. lia. }
  unfold worker_receive. rewrite Hs, Hd. cbn [WorkerLoop.attempt]. rewrite !bool_decide_true by done. cbn [andb].
  unfold receive_challenge. rewrite decode_32_public. cbn [WorkerLoop.selected_owner is_some_and WorkerLoop.secret WorkerLoop.public WorkerLoop.attempt].
  rewrite dh_agrees, <- Hmat, Hbn, Hlabel. unfold set_worker_status, generation_is_current in *. rewrite Hgen.
  split; reflexivity.
Qed.
End delivery.

(** ** What the owner gives away *)

Section owner.
Context {codec : Codec} {base64 : Base64} {crypto : PairingCrypto} {wire : Wire PairingDatagram.t}.

(** One critical section of the owner's machine, with the approval that was asked for and what
    was sent: the commands of the window, a datagram in the inbox, and the machine's own
    attempts to join, which share the state. *)
Inductive owner_step (s : PairingInner.t) : list (string * string) → Sends → PairingInner.t → Prop :=
| step_open bound now now' name r q s' : open_owner_window bound now now' name s = (r, q, s') → owner_step s [] [] s'
| step_window now v q s' : owner_window now s = (v, q, s') → owner_step s [] [] s'
| step_approve now random send_ok id invitation r s' sent :
    approve now random send_ok id invitation s = (r, s', sent) → owner_step s [(id, invitation)] sent s'
| step_reject send_ok id r s' sent : reject send_ok id s = (r, s', sent) → owner_step s [] sent s'
| step_receive now ifs random received s' sent signal :
    owner_receive now ifs random received s = (s', sent, signal) → owner_step s [] sent s'
| step_begin now random name r attempt s' : begin_worker now random name s = (r, attempt, s') → owner_step s [] [] s'
| step_cancel : owner_step s [] [] (cancel_worker s)
| step_status generation status : owner_step s [] [] (set_worker_status generation status s).
Inductive history : list (string * string) → Sends → PairingInner.t → Prop :=
| history_start : history [] [] PairingInner.default
| history_step approvals sent s asked more s' :
    history approvals sent s → owner_step s asked more s' → history (approvals ++ asked) (sent ++ more) s'.

(** The key, the code and the associated data come from an exchange with the peer's own key. *)
Definition genuine (p : PendingPair.t) : Prop :=
  ∃ peer_public owner_secret, decode_32 (PendingPair.peer_public_key p) = Ok peer_public ∧
    (PendingPair.key p, PendingPair.verification_code p, PendingPair.aad p) =
      derive_material (diffie_hellman owner_secret peer_public)
        (pairing_transcript (PendingPair.request_id p) peer_public (x25519_public owner_secret)).
Definition announces (payload : string) : Prop :=
  ∃ d, payload = encode_json d ∧
    match d with PairingDatagram.Challenge _ _ _ _ _ | PairingDatagram.Rejected _ _ _ => True | _ => False end.
(** What was prepared for a request. *)
Definition approved_for (approvals : list (string * string)) (p : PendingPair.t) (payloads : list string) : Prop :=
  ∃ random invitation, (PendingPair.request_id p, invitation) ∈ approvals ∧
    encrypted_approval_chunks random p invitation = Ok payloads.
Record entry_ok (approvals : list (string * string)) (id : string) (p : PendingPair.t) : Prop := {
  entry_key : PendingPair.request_id p = id;
  entry_genuine : genuine p;
  entry_challenge : announces (PendingPair.challenge_payload p);
  entry_approval : match PendingPair.approval_payloads p with
                   | None => PendingPair.state p = PairingRequestState.AwaitingApproval
                   | Some payloads => PendingPair.state p ≠ PairingRequestState.AwaitingApproval ∧
                                      approved_for approvals p payloads
                   end
}.
Record owner_well (approvals : list (string * string)) (s : PairingInner.t) : Prop := {
  entries_ok : map_Forall (entry_ok approvals) (PairingInner.pending s);
  pending_bounded : Z.of_nat (size (PairingInner.pending s)) <= MAX_PENDING_REQUESTS
}.
(** What may be sent: announcements, and approvals to the address the request came from. *)
Definition may_send (approvals : list (string * string)) (datagram : string * SocketAddr) : Prop :=
  announces datagram.1 ∨
  ∃ p payloads, genuine p ∧ ip (PendingPair.peer_addr p) = ip datagram.2 ∧ approved_for approvals p payloads ∧
    datagram.1 ∈ payloads.

Lemma entry_mono approvals more id p : entry_ok approvals id p → entry_ok (approvals ++ more) id p.
Proof.
  intros [Hk Hg Hc Ha]. split; [done..|]. destruct (PendingPair.approval_payloads p); [|done].
  destruct Ha as (? & random & invitation & Hin & ?). split; [done|]. exists random, invitation. set_solver.
Qed.
Lemma well_pending approvals s s' :
  PairingInner.pending s' = PairingInner.pending s → owner_well approvals s → owner_well approvals s'.
Proof. intros E [H1 H2]. split; by rewrite E. Qed.
Lemma well_empty approvals s : PairingInner.pending s = ∅ → owner_well approvals s.
Proof. intros E. split; rewrite E; [done|]. by rewrite map_size_empty. Qed.
Lemma well_prune approvals now s : owner_well approvals s → owner_well approvals (prune_owner_state now s).
Proof.
  intros [H1 H2]. unfold prune_owner_state. destruct (_ <=? now).
  - by apply well_empty.
  - split; cbn; [intros id p [Hp _]%map_lookup_filter_Some; by apply H1|]. etrans; [|exact H2]. apply inj_le.
    apply map_subseteq_size, map_filter_subseteq.
Qed.
Lemma well_insert approvals id p s s' :
  owner_well approvals s → PairingInner.pending s' = <[id := p]> (PairingInner.pending s) → entry_ok approvals id p →
  is_Some (PairingInner.pending s !! id) ∨ Z.of_nat (size (PairingInner.pending s)) < MAX_PENDING_REQUESTS →
  owner_well approvals s'.
Proof.
  intros [H1 H2] E Hp Hroom. split; rewrite E.
  - by apply map_Forall_insert_2.
  - destruct (PairingInner.pending s !! id) as [q|] eqn:Hq.
    + by rewrite map_size_insert, Hq.
    + destruct Hroom as [[? ?]|Hroom]; [done|]. rewrite map_size_insert, Hq. lia.
Qed.
#[local] Hint Resolve well_prune : core.

Lemma well_window approvals now s v q s' : owner_window now s = (v, q, s') → owner_well approvals s → owner_well approvals s'.
Proof.
  unfold owner_window. intros [= _ _ <-] Hs. apply (well_pending _ (prune_owner_state now s)); [by destruct (_ && _)|]. by apply well_prune.
Qed.
Lemma well_complete approvals now source schema id nonce text s :
  owner_well approvals s → owner_well approvals (complete_enrollment now source schema id nonce text s).
Proof.
  intros Hs. unfold complete_enrollment. destruct (_ || _); [done|].
  destruct (PairingInner.pending (prune_owner_state now s) !! id) as [p|] eqn:Hp; [|by auto].
  destruct (_ || _) eqn:Hstate; [by auto|]. destruct (decrypt_payload _ _ _ _) as [payload|]; [|by auto].
  destruct (bool_decide (payload = "enrollment-complete")); [|by auto]. eapply well_insert; [by apply well_prune|reflexivity| |by left].
  destruct (entries_ok _ _ (well_prune _ now _ Hs) _ _ Hp) as [Hk Hg Hc Ha]. split; [done..|]. cbn.
  apply orb_false_elim in Hstate as [_ Hst]. apply negb_false_iff, bool_decide_eq_true in Hst.
  destruct (PendingPair.approval_payloads p); [by destruct Ha|]. by rewrite Ha in Hst.
Qed.

Lemma well_approve approvals now random send_ok id invitation s r s' sent :
  approve now random send_ok id invitation s = (r, s', sent) → owner_well approvals s →
  owner_well (approvals ++ [(id, invitation)]) s' ∧ Forall (may_send (approvals ++ [(id, invitation)])) sent.
Proof.
  intros H Hs. assert (owner_well (approvals ++ [(id, invitation)]) (prune_owner_state now s)) as Hp.
  { apply well_prune. destruct Hs as [H1 H2]. split; [|done]. intros i p Hi. by apply entry_mono, H1. }
  unfold approve in H. destruct (negb _); [by injection H as _ <- <-|].
  destruct (_ !! id) as [p|] eqn:Hid; [|by injection H as _ <- <-].
  destruct (encrypted_approval_chunks random p invitation) as [ps|] eqn:Hps; [|by injection H as _ <- <-].
  destruct (entries_ok _ _ Hp _ _ Hid) as [Hk Hg Hc _].
  assert (approved_for (approvals ++ [(id, invitation)]) p ps) as Happ.
  { exists random, invitation. rewrite Hk. split; [set_solver|done]. }
  destruct (send_all send_ok 0 ps _) as [ok sent'] eqn:Hsend. injection H as _ <- <-. split.
  - eapply well_insert; [exact Hp|reflexivity| |by left]. split; [done..|]. cbn. done.
  - apply Forall_forall. intros [payload addr] Hin.
    assert (payload ∈ ps ∧ addr = PendingPair.peer_addr p) as [Hpl ->].
    { clear -Hsend Hin. revert Hsend Hin. generalize 0%nat as n. revert ok sent'.
      induction ps as [|q ps IH]; intros ok sent n; cbn; [by intros [= <- <-] ?%not_elem_of_nil|].
      destruct (send_ok n); [|by intros [= <- <-] ?%not_elem_of_nil].
      destruct (send_all send_ok (S n) ps _) as [ok' s'] eqn:E. intros [= <- <-] [[= -> ->]|Hin]%elem_of_cons; [set_solver|].
      destruct (IH _ _ _ E Hin). set_solver. }
    right. exists p, ps. done.
Qed.
Lemma well_hello approvals now ifs random source schema id name kind key s s' payloads signal :
  receive_hello now ifs random source schema id name kind key s = (s', payloads, signal) → owner_well approvals s →
  owner_well approvals s' ∧ Forall (λ payload, may_send approvals (payload, source)) payloads.
Proof.
  intros H Hs. unfold receive_hello in H. destruct (_ || _); [by injection H as <- <- <-|].
  destruct (decode_32 key) as [peer_public|] eqn:Hpeer; [|by injection H as <- <- <-].
  pose proof (well_prune _ now _ Hs) as Hp. set (s0 := prune_owner_state now s) in *.
  destruct (_ <=? now); [by injection H as <- <- <-|]. destruct (PairingInner.pending s0 !! id) as [p|] eqn:Hid.
  - destruct (_ || _) eqn:Hsame; [by injection H as <- <- <-|]. injection H as <- <- <-.
    apply orb_false_elim in Hsame as [_ Hip]. apply negb_false_iff, bool_decide_eq_true in Hip.
    destruct (entries_ok _ _ Hp _ _ Hid) as [Hk Hg Hc Ha]. split.
    + eapply well_insert; [exact Hp|reflexivity| |by left]. by split.
    + cbn. destruct (PendingPair.approval_payloads p) as [ps|]; cbn; [|apply Forall_singleton; by left].
      apply Forall_forall. intros payload Hin. right. exists p, ps. by destruct Ha.
  - destruct (Z.leb_spec MAX_PENDING_REQUESTS (Z.of_nat (size (PairingInner.pending s0)))) as [|Hroom]; [by injection H as <- <- <-|].
    destruct (admit_source_attempt _ _ _) as [admitted attempts].
    assert (owner_well approvals (PairingInner.set_attempts attempts s0)) as Ha by (by apply (well_pending _ s0)).
    destruct (if admitted then random else None) as [secret|]; [|by injection H as <- <- <-]. injection H as <- <- <-.
    destruct (challenge_derives now source id name kind key peer_public secret (PairingInner.set_attempts attempts s0))
      as (Hmat & Hpay & _). set (p := challenge _ _ _ _ _ _ _ _ _) in *.
    assert (announces (PendingPair.challenge_payload p)) as Hann by (rewrite Hpay; eexists; split; [reflexivity|done]).
    assert (PendingPair.request_id p = id ∧ PendingPair.peer_public_key p = key ∧ PendingPair.approval_payloads p = None ∧
            PendingPair.state p = PairingRequestState.AwaitingApproval) as (E1 & E2 & E3 & E4).
    { unfold p, challenge. by destruct (derive_material _ _) as [[? ?] ?]. }
    split; [|apply Forall_singleton; by left]. eapply well_insert; [exact Ha|reflexivity| |by right]. split; [done|..].
    + exists peer_public, secret. rewrite E1, E2. done.
    + done.
    + by rewrite E3.
Qed.
Lemma well_receive approvals now ifs random received s s' sent signal :
  owner_receive now ifs random received s = (s', sent, signal) → owner_well approvals s →
  owner_well approvals s' ∧ Forall (may_send approvals) sent.
Proof.
  intros H Hs. unfold owner_receive in H. destruct received as [[bytes source]|]; [|by injection H as <- <- <-].
  destruct (_ || _); [by injection H as <- <- <-|].
  destruct (decode_json bytes) as [[]|]; try by injection H as <- <- <-.
  - destruct (receive_hello _ _ _ _ _ _ _ _ _ _) as [[s1 payloads] sig] eqn:Hh. injection H as <- <- <-.
    destruct (well_hello _ _ _ _ _ _ _ _ _ _ _ _ _ _ Hh Hs) as [Hw Hf]. split; [done|]. by apply Forall_fmap.
  - injection H as <- <- <-. split; [by apply well_complete|done].
Qed.

Lemma may_send_mono approvals more datagram : may_send approvals datagram → may_send (approvals ++ more) datagram.
Proof.
  intros [H|(p & ps & Hg & Hip & (random & invitation & Hin & He) & Hps)]; [by left|].
  right. exists p, ps. do 2 (split; [done|]). split; [|done]. exists random, invitation. split; [set_solver|done].
Qed.
Lemma well_step approvals s asked more s' :
  owner_step s asked more s' → owner_well approvals s →
  owner_well (approvals ++ asked) s' ∧ Forall (may_send (approvals ++ asked)) more.
Proof.
  intros Hstep Hs. destruct Hstep as [bound now now' name r q s' H|now v q s' H|now random send_ok id invitation r s' sent H|
    send_ok id r s' sent H|now ifs random received s' sent signal H|now random name r attempt s' H| |generation status];
    rewrite ?app_nil_r.
  - split; [|done]. unfold open_owner_window in H.
    destruct (bounded_label _ _); [|by injection H as _ _ <-].
    destruct (if PairingInner.owner_socket s then Ok () else bound) as [[]|]; [|by injection H as _ _ <-].
    destruct (owner_window _ _) as [[v q'] s1] eqn:Hw. injection H as _ _ <-. eapply well_window; [exact Hw|].
    apply well_prune. by apply (well_pending _ s).
  - split; [by eapply well_window|done].
  - by eapply well_approve.
  - unfold reject in H. destruct (negb _); [by injection H as _ <- <-|].
    destruct (_ !! id) as [p|] eqn:Hid; [|by injection H as _ <- <-].
    assert (owner_well approvals (PairingInner.set_pending (delete id (PairingInner.pending s)) s)) as Hd.
    { destruct Hs as [H1 H2]. split; cbn; [by apply map_Forall_delete|]. etrans; [|exact H2].
      apply inj_le, map_subseteq_size, delete_subseteq. }
    destruct send_ok; injection H as _ <- <-; (split; [done|]); [|done].
    apply Forall_singleton. left. eexists. split; [reflexivity|done].
  - by eapply well_receive.
  - split; [|done]. unfold begin_worker in H. destruct (bounded_label _ _); [|by injection H as _ _ <-].
    apply well_empty. destruct (is_waiting _); [by injection H as _ _ <-|].
    destruct (hex_encode <$> random); [|by injection H as _ _ <-]. injection H as _ _ <-.
    unfold set_worker_status. cbn. by rewrite Z.eqb_refl.
  - split; [by apply (well_pending _ s)|done].
  - split; [|done]. apply (well_pending _ s); [|done]. unfold set_worker_status. by destruct (_ =? _).
Qed.

(** [C28] No invitation leaves the owner unapproved.  Over any history of the owner's machine,
    whatever the network sends it, each datagram that went out is a challenge or a rejection, or
    a fragment of an invitation the owner approved for the request it belongs to, encrypted
    under the key exchanged with the peer that made that request and sent to the address of that
    peer; and at most sixteen requests wait, each under its own identifier. *)
Theorem invitation_needs_approval approvals sent s :
  history approvals sent s → owner_well approvals s ∧ Forall (may_send approvals) sent.
Proof.
  induction 1 as [|approvals sent s asked more s' _ [Hs Hf] Hstep].
  - split; [by apply well_empty|done].
  - destruct (well_step _ _ _ _ _ Hstep Hs) as [Hw Hm]. split; [done|]. apply Forall_app. split; [|done].
    eapply Forall_impl; [exact Hf|]. intros datagram. apply may_send_mono.
Qed.

(** A second approval, as after one whose sending failed half way, has another nonce: a machine
    that holds a fragment of the first takes none of the second, whatever comes in. *)
Lemma reapproval_ignored nonce count index current :
  ApprovalAssembly.nonce current ≠ nonce → assembly_for nonce count index (Some current) = None.
Proof. intros Hne. cbn. by rewrite bool_decide_false. Qed.
End owner.
