(* ===== verification/PairingSamples.v ===== *)
(** * Two machines that pair

    A concrete serializer and concrete primitives, for which the promises the pairing theorems
    rest on hold, and the theorems at a laptop and an owner's machine. *)

From S2P Require Import Prelude.
From S2P Require Import Codec.
From S2P Require Import Text.
From S2P Require Import Contracts.
From S2P Require Import Wire.
From S2P Require Import Signing.
From S2P Require Import Net.
From S2P Require Import Mesh.
From S2P Require Import Samples.
From S2P Require Import Pairing.
From S2P Require Import PairingFacts.
Import Text.
#[local] Open Scope Z_scope.

Module Neighbours.
Import ReferenceCrypto.

(** ** Text with an end *)

Definition special (c : ascii) : bool := bool_decide (c = "000"%char) || bool_decide (c = "001"%char).
Fixpoint quote (s rest : string) : string :=
  match s with
  | "" => String "000" rest
  | String c s => if special c then String "001" (String c (quote s rest)) else String c (quote s rest)
  end.
Fixpoint unquote (s : string) : option (string * string) :=
  match s with
  | "" => None
  | String c s1 =>
      if bool_decide (c = "000"%char) then Some ("", s1)
      else if bool_decide (c = "001"%char) then
        match s1 with
        | "" => None
        | String c s2 => '(t, rest) ← unquote s2; Some (String c t, rest)
        end
      else '(t, rest) ← unquote s1; Some (String c t, rest)
  end.
Lemma unquote_quote s rest : unquote (quote s rest) = Some (s, rest).
Proof.
  induction s as [|c s IH]; [done|]. cbn [quote]. unfold special.
  destruct (bool_decide (c = "000"%char)) eqn:H0; [|destruct (bool_decide (c = "001"%char)) eqn:H1]; cbn [orb unquote].
  - change (bool_decide ("001"%char = "000"%char)) with false. change (bool_decide ("001"%char = "001"%char)) with true.
    cbv iota. by rewrite IH.
  - change (bool_decide ("001"%char = "000"%char)) with false. change (bool_decide ("001"%char = "001"%char)) with true.
    cbv iota. by rewrite IH.
  - by rewrite H0, H1, IH.
Qed.
Definition of_z (z : Z) : string := Reference.bits (encode z).
Definition to_z (s : string) : option Z := Reference.of_bits s ≫= decode.
Lemma to_of_z z : to_z (of_z z) = Some z.
Proof. unfold to_z, of_z. rewrite Reference.of_bits_bits. cbn. apply decode_encode. Qed.

Fixpoint quote_all (fields : list string) : string :=
  match fields with [] => "" | s :: fields => quote s (quote_all fields) end.
Fixpoint unquote_all (n : nat) (s : string) : option (list string) :=
  match n with
  | O => if is_empty s then Some [] else None
  | S n => '(t, rest) ← unquote s; fields ← unquote_all n rest; Some (t :: fields)
  end.
Lemma unquote_quote_all fields : unquote_all (length fields) (quote_all fields) = Some fields.
Proof. induction fields as [|s fields IH]; [done|]. cbn. rewrite unquote_quote. cbn. by rewrite IH. Qed.

(** ** Datagrams *)

Definition serialize (d : PairingDatagram.t) : string :=
  match d with
  | PairingDatagram.Hello a b c d e issued expires => String "H" (quote_all [a; b; c; d; e; of_z issued; of_z expires])
  | PairingDatagram.Challenge a b c d expires => String "C" (quote_all [a; b; c; d; of_z expires])
  | PairingDatagram.Approval a b c d => String "A" (quote_all [a; b; c; d])
  | PairingDatagram.ApprovalChunk a b c index count e => String "F" (quote_all [a; b; c; of_z index; of_z count; e])
  | PairingDatagram.Rejected a b c => String "R" (quote_all [a; b; c])
  | PairingDatagram.EnrollmentComplete a b c d => String "E" (quote_all [a; b; c; d])
  end.
Definition parse (s : string) : option PairingDatagram.t :=
  match s with
  | String "H" s =>
      fields ← unquote_all 7 s;
      match fields with
      | [a; b; c; d; e; issued; expires] =>
          issued ← to_z issued; expires ← to_z expires; Some (PairingDatagram.Hello a b c d e issued expires)
      | _ => None
      end
  | String "C" s =>
      fields ← unquote_all 5 s;
      match fields with
      | [a; b; c; d; expires] => expires ← to_z expires; Some (PairingDatagram.Challenge a b c d expires)
      | _ => None
      end
  | String "A" s =>
      fields ← unquote_all 4 s;
      match fields with [a; b; c; d] => Some (PairingDatagram.Approval a b c d) | _ => None end
  | String "F" s =>
      fields ← unquote_all 6 s;
      match fields with
      | [a; b; c; index; count; e] =>
          index ← to_z index; count ← to_z count; Some (PairingDatagram.ApprovalChunk a b c index count e)
      | _ => None
      end
  | String "R" s =>
      fields ← unquote_all 3 s; match fields with [a; b; c] => Some (PairingDatagram.Rejected a b c) | _ => None end
  | String "E" s =>
      fields ← unquote_all 4 s;
      match fields with [a; b; c; d] => Some (PairingDatagram.EnrollmentComplete a b c d) | _ => None end
  | _ => None
  end.
Lemma parse_serialize d : parse (serialize d) = Some d.
Proof.
  destruct d; cbn [parse serialize].
  all: match goal with |- context [quote_all ?l] => pose proof (unquote_quote_all l) as H; cbn [length] in H; rewrite H end.
  all: cbn [mbind option_bind]; rewrite ?to_of_z; reflexivity.
Qed.

(** The text of an invitation and what it stands for. *)
Fixpoint times (n : nat) (s : string) : string := match n with O => "" | S n => s +:+ times n s end.
Definition invitation : string := times 30 "invitation".
Definition invitation_value : Value := VObject [
  ("schema", VString "rampage.enrollment-invite.v1"); ("controller_mesh", VObject [("signature", VString "signed")]);
  ("governor_public_key", VString "key")].
(** All other values that are text print as that text. *)
#[local] Instance text_codec : Codec := {|
  json_to_string v := match v with VString s => s | _ => "" end;
  json_from_str s := if bool_decide (s = invitation) then Some invitation_value else Some (VString s);
  to_rfc3339 := @to_rfc3339 sized_codec; to_rfc3339_nanos := @to_rfc3339_nanos sized_codec;
  parse_rfc3339 := @parse_rfc3339 sized_codec; sha256 := fit 32; hex_encode := Reference.hex
|}.
#[local] Instance wire : Wire PairingDatagram.t := {|
  to_value d := VString (serialize d);
  from_value v := match v with VString s => parse s | _ => None end
|}.
#[local] Instance base64 : Base64 := {| base64_encode := Reference.hex; base64_decode := unhex |}.

(** Bytes added one by one; the tag of a ciphertext is its key. *)
Fixpoint add_bytes (a b : string) : string :=
  match a, b with
  | String x a, String y b => String (ascii_of_N ((N_of_ascii x + N_of_ascii y) mod 256)) (add_bytes a b)
  | _, _ => ""
  end.
#[local] Instance crypto : PairingCrypto := {|
  x25519_public := fit 32;
  diffie_hellman a b := add_bytes (fit 32 a) (fit 32 b);
  hkdf_expand salt shared info n := fit n (shared +:+ info);
  aead_encrypt key nonce aad m := key +:+ m;
  aead_decrypt key nonce aad c := strip_prefix key c
|}.

Lemma fit_fit n s : fit n (fit n s) = fit n s.
Proof. revert s. induction n as [|n IH]; intros [|c s]; cbn; by rewrite ?IH. Qed.
Lemma add_bytes_comm a b : add_bytes a b = add_bytes b a.
Proof. revert b. induction a as [|x a IH]; intros [|y b]; cbn; [done..|]. by rewrite IH, N.add_comm. Qed.
Lemma hex_alphabet s : all_bytes ApprovalAssembly.is_base64_byte (Reference.hex s) = true.
Proof.
  induction s as [|c s IH]; [done|]. cbn [Reference.hex]. rewrite !all_bytes_cons, IH. clear.
  destruct c as [[] [] [] [] [] [] [] []]; reflexivity.
Qed.
#[local] Instance laws : PairingLaws.
Proof.
  split.
  - intros a b. change (add_bytes (fit 32 a) (fit 32 (fit 32 b)) = add_bytes (fit 32 b) (fit 32 (fit 32 a))).
    by rewrite !fit_fit, add_bytes_comm.
  - intros a. change (len (fit 32 a) = 32). unfold len. by rewrite fit_length.
  - intros key nonce aad m. by apply strip_prefix_spec.
  - intros s. exact (hex_decode_encode (CryptoLaws := reference_crypto_laws) s).
  - apply hex_alphabet.
  - intros d _. unfold decode_json, encode_json. cbn [json_from_str json_to_string text_codec to_value wire].
    rewrite bool_decide_false by (by destruct d). cbn. by rewrite parse_serialize.
  - intros d. change (len (serialize d) ≠ 0). unfold len. destruct d; cbn [serialize String.length]; lia.
Qed.

(** ** A laptop and an owner's machine *)

Definition laptop_addr : SocketAddr := mkSocket (V4 192 168 1 20) 40000 0.
Definition owner_addr : SocketAddr := mkSocket (V4 192 168 1 10) PAIRING_PORT 0.
Definition id : string := Reference.hex (fit 16 "request").
Definition attempt : Attempt := mkAttempt 1 id "laptop" 900000.
Definition laptop : PairingInner.t :=
  PairingInner.set_worker_generation 1 (PairingInner.set_worker (WorkerPairingView.Searching id 900000) PairingInner.default).
Definition started : result string WorkerLoop.t := start_loop (Ok ()) (Some "laptop secret") 0 [] attempt.
Definition loop : WorkerLoop.t :=
  WorkerLoop.mk attempt "laptop secret" (fit 32 "laptop secret")
    (encode_json (PairingDatagram.Hello PAIRING_SCHEMA id "laptop" "desktop" (Reference.hex (fit 32 "laptop secret")) 0 900000))
    (pairing_destinations []) None None.
Lemma attempt_started : started = Ok loop.
Proof. reflexivity. Qed.
Definition owner : PairingInner.t := (open_owner_window (Ok ()) 0 0 "owner" PairingInner.default).2.
(** The request as it is recorded, and the code both screens show. *)
Definition request : PendingPair.t :=
  challenge 5 laptop_addr id "laptop" "desktop" (Reference.hex (fit 32 "laptop secret")) (fit 32 "laptop secret") "owner secret" owner.
Definition code : string := PendingPair.verification_code request.
Definition asked : PairingInner.t * Sends * option PairingRequestView.t :=
  owner_receive 5 [] (Some "owner secret") (Some (WorkerLoop.hello loop, laptop_addr)) owner.
Lemma asked_is : asked.1.2 = [(PendingPair.challenge_payload request, laptop_addr)] ∧
  asked.2 = Some (PairingRequestView.from request).
Proof. vm_compute. split; reflexivity. Qed.
Lemma asked_eq : asked = (asked.1.1, [(PendingPair.challenge_payload request, laptop_addr)], Some (PairingRequestView.from request)).
Proof. destruct asked_is as [<- <-]. by destruct asked as [[? ?] ?]. Qed.
Definition no_persist (_ : string) (disk : list string) : result string () * list string := (Ok (), disk).

Lemma pairing_agrees_witness : ∃ p l', PairingInner.pending asked.1.1 !! id = Some p ∧ laptop_addr = laptop_addr ∧
  PairingRequestView.from request = PairingRequestView.from p ∧
  worker_turn no_persist 10 (Received (Some (PendingPair.challenge_payload request, owner_addr))) None (λ _, true) loop laptop [] =
    (Continues l', PairingInner.set_worker (WorkerPairingView.WaitingApproval id "owner" code 900000) laptop, [], []) ∧
  WorkerLoop.selected_owner l' = Some (owner_addr, PendingPair.key p, PendingPair.aad p, "owner").
Proof.
  apply (pairing_agrees no_persist (Ok ()) "laptop secret" 0 [] attempt loop 5 [] "owner secret" laptop_addr owner asked.1.1
           [(PendingPair.challenge_payload request, laptop_addr)] (PairingRequestView.from request)
           (PendingPair.challenge_payload request) laptop_addr owner_addr 10 None (λ _, true) laptop []).
  - exact attempt_started.
  - reflexivity.
  - vm_compute. split; discriminate.
  - vm_compute. split; discriminate.
  - vm_compute. reflexivity.
  - exact asked_eq.
  - vm_compute. reflexivity.
  - vm_compute. reflexivity.
  - vm_compute. split; discriminate.
  - vm_compute. split; discriminate.
  - apply list_elem_of_singleton. reflexivity.
  - vm_compute. discriminate.
  - reflexivity.
  - reflexivity.
Defined.

(** The owner approves; the invitation takes two fragments. *)
Definition approved (nonce : string) (owner : PairingInner.t) : result string PairingRequestView.t * PairingInner.t * Sends :=
  approve 20 (Some (fit 12 nonce)) (λ _, true) id invitation owner.
Definition agreed : PairingInner.t := (approved "one" asked.1.1).1.2.
Definition entry (owner : PairingInner.t) : PendingPair.t := default request (PairingInner.pending owner !! id).
Definition fragments_of (owner : PairingInner.t) : list string := default [] (PendingPair.approval_payloads (entry owner)).
Definition waiting : WorkerLoop.t :=
  WorkerLoop.set_selected_owner (owner_addr, PendingPair.key request, PendingPair.aad request, "owner") loop.
Definition keep (invitation : string) (disk : list string) : result string () * list string := (Ok (), invitation :: disk).
Definition shuffled : list (Z * nat) := [(30, 1%nat); (30, 0%nat); (31, 0%nat); (32, 1%nat)].

Lemma agreed_ok : (approved "one" asked.1.1).1.1 = Ok (PairingRequestView.from (entry agreed)).
Proof. vm_compute. reflexivity. Qed.
Lemma agreed_is : approved "one" asked.1.1 =
  (Ok (PairingRequestView.from (entry agreed)), agreed, (approved "one" asked.1.1).2).
Proof.
  pose proof agreed_ok as H. unfold agreed at 2. destruct (approved "one" asked.1.1) as [[r o] sent]. cbn [fst snd] in *. by rewrite H.
Qed.
Lemma two_fragments : length (fragments_of agreed) = 2%nat.
Proof. vm_compute. reflexivity. Qed.
Lemma shuffled_in_time : in_time (fragments_of agreed) waiting shuffled.
Proof.
  unfold in_time. rewrite two_fragments. change (attempt_expires_at_ms (WorkerLoop.attempt waiting)) with 900000.
  repeat apply List.Forall_cons; try apply List.Forall_nil; cbn; lia.
Qed.
Lemma approval_arrives_witness :
  let r := deliver keep (Some "r") (λ _, true) (arrivals (fragments_of agreed) owner_addr shuffled) waiting laptop [] in
  (covered (length (fragments_of agreed)) shuffled.*2 ∧
     r = (Restarts, PairingInner.set_worker (WorkerPairingView.Approved (PendingPair.request_id (entry agreed)) "owner") laptop,
          [invitation])) ∨
  (¬ covered (length (fragments_of agreed)) shuffled.*2 ∧ ∃ l', r = (Continues l', laptop, [])).
Proof.
  apply (approval_arrives keep 20 (fit 12 "one") (λ _, true) id invitation asked.1.1
           (PairingRequestView.from (entry agreed)) agreed (approved "one" asked.1.1).2 (entry agreed) (fragments_of agreed)
           waiting owner_addr "owner" laptop [] [invitation] "r" (λ _, true) shuffled).
  - exact agreed_is.
  - vm_compute. reflexivity.
  - vm_compute. reflexivity.
  - reflexivity.
  - vm_compute. reflexivity.
  - vm_compute. reflexivity.
  - vm_compute. reflexivity.
  - vm_compute. reflexivity.
  - reflexivity.
  - reflexivity.
  - reflexivity.
  - reflexivity.
  - exact shuffled_in_time.
Defined.
Example arrived : (deliver keep (Some "r") (λ _, true) (arrivals (fragments_of agreed) owner_addr shuffled) waiting laptop []).2 =
  [invitation].
Proof. vm_compute. reflexivity. Qed.

Lemma agreed_history : history [(id, invitation)] (asked.1.2 ++ (approved "one" asked.1.1).2) agreed.
Proof.
  pose proof (history_step [] [] _ [] [] owner history_start) as H.
  assert (history [] [] owner) as H1.
  { apply H. destruct (open_owner_window (Ok ()) 0 0 "owner" PairingInner.default) as [[r q] s] eqn:E.
    assert (owner = s) as -> by (unfold owner; by rewrite E). by eapply step_open. }
  pose proof (history_step [] [] owner [] asked.1.2 asked.1.1 H1) as H2. cbn [app] in H2.
  assert (history [] asked.1.2 asked.1.1) as H3.
  { apply H2. apply (step_receive owner 5 [] (Some "owner secret") (Some (WorkerLoop.hello loop, laptop_addr)) _ _ asked.2).
    unfold asked. by destruct (owner_receive _ _ _ _ _) as [[? ?] ?]. }
  apply (history_step [] asked.1.2 asked.1.1 [(id, invitation)] _ agreed H3).
  eapply step_approve. exact agreed_is.
Qed.
Lemma invitation_needs_approval_witness :
  owner_well [(id, invitation)] agreed ∧
  Forall (may_send [(id, invitation)]) (asked.1.2 ++ (approved "one" asked.1.1).2).
Proof. apply invitation_needs_approval. exact agreed_history. Defined.

(** The laptop has the first fragment of an approval whose second one was lost; the owner
    approves again; from then on every hello is answered with the fragments of the second
    approval, and the laptop takes none of them. *)
Definition again : PairingInner.t := (approved "two" agreed).1.2.
Definition retries : list (Z * (string * SocketAddr)) :=
  arrivals (fragments_of agreed) owner_addr [(30, 0%nat)] ++ arrivals (fragments_of again) owner_addr (shuffled ++ shuffled).
Example reapproval_strands :
  (deliver keep (Some "r") (λ _, true) retries waiting laptop []).2 = [] ∧
  (deliver keep (Some "r") (λ _, true) (arrivals (fragments_of again) owner_addr shuffled) waiting laptop []).2 = [invitation].
Proof. vm_compute. split; reflexivity. Qed.
End Neighbours.
