(* ===== verification/Desktop.v ===== *)
(** * The role of a machine (apps/desktop/src-tauri/src/lib.rs)

    Whether a machine is an owner, a worker or in setup is what files its runtime directory
    holds.  The commands of the desktop application move it between these roles; every access
    to the file system can fail, and the commands undo what they did as far as they can.  Also
    the lines the supervised worker prints. *)

From S2P Require Import Prelude.
From S2P Require Import Codec.
From S2P Require Import Text.
From S2P Require Import Contracts.
From S2P Require Import Wire.
From S2P Require Import Signing.
From S2P Require Import Relay.
From S2P Require Import Net.
From S2P Require Import Mesh.
From S2P Require Import Process.
From S2P Require Import Pairing.
Import Text.
#[local] Open Scope Z_scope.

Definition BACKGROUND_ARG : string := "--background".
Definition OWNER_FABRIC_MARKER : string := "owner-fabric-v1.ready".
Definition OWNER_CONFIRMED_MARKER : string := "owner-confirmed-v1.ready".
Definition SETUP_REQUIRED_MARKER : string := "setup-required-v1.ready".
Definition WORKER_PAIRING_INTENT_MARKER : string := "worker-pairing-v1.pending".
Definition REMOTE_ASSIST_POLICY_FILE : string := "remote-assist-policy.json".
Definition REMOTE_ASSIST_ACTIVE_FILE : string := "remote-assist-active.json".
Definition FIREWALL_MARKER_FILE : string := "firewall-private-v2.ready".
Definition LEAVE_FABRIC_CONFIRMATION : string := "LEAVE FABRIC".
Definition FACTORY_RESET_CONFIRMATION : string := "RESET RAMPAGE".
Definition line (s : string) : string := s +:+ String "010" "".

(** ** The runtime directory *)

Inductive Target := ToFile | ToDirectory.
(** A directory entry; a link may lead nowhere. *)
Inductive Entry :=
| File (bytes : string)
| Directory
| Link (target : option Target)
| Special.
Inductive Root := Absent | RealDirectory | LinkedDirectory | NotDirectory.

(** The directory, the child processes, whether the application starts with the session, and
    the state of pairing. *)
Module Runtime.
Record t := mk {
  root : Root; files : gmap string Entry; sidecars : list Z; autostart : bool; pairing : PairingInner.t
}.
Definition set_root (x : Root) (s : t) : t := mk x (files s) (sidecars s) (autostart s) (pairing s).
Definition set_files (x : gmap string Entry) (s : t) : t := mk (root s) x (sidecars s) (autostart s) (pairing s).
Definition set_sidecars (x : list Z) (s : t) : t := mk (root s) (files s) x (autostart s) (pairing s).
Definition set_autostart (x : bool) (s : t) : t := mk (root s) (files s) (sidecars s) x (pairing s).
Definition set_pairing (x : PairingInner.t) (s : t) : t := mk (root s) (files s) (sidecars s) (autostart s) x.
End Runtime.

(** What [path.is_file()] and [path.exists()], which follow links, report when they can look. *)
Definition is_file (d : gmap string Entry) (name : string) : bool :=
  match d !! name with Some (File _) | Some (Link (Some ToFile)) => true | _ => false end.
Definition exists_ (d : gmap string Entry) (name : string) : bool :=
  match d !! name with None | Some (Link None) => false | Some _ => true end.

Abbreviation R := (P Runtime.t).
Definition fails {A} (text : string) : R A := raise (Trouble.Complaint text).
(** A call of the operating system that may fail. *)
Definition io : R () := failed ← draw sight; if (failed : bool) then fails "I/O error" else mret ().
Definition put (name : string) (e : Entry) : R () := change (λ s, Runtime.set_files (<[name := e]> (Runtime.files s)) s).
Definition drop (name : string) : R () := change (λ s, Runtime.set_files (delete name (Runtime.files s)) s).
Definition files_of : R (gmap string Entry) := look Runtime.files.
(** [path.is_file()] and [path.exists()]: a look that fails is taken for no file. *)
Definition is_file_at (name : string) : R bool :=
  failed ← draw unseen;
  if (failed : bool) then mret false else d ← files_of; mret (is_file d name).
Definition exists_at (name : string) : R bool :=
  failed ← draw unseen;
  if (failed : bool) then mret false else d ← files_of; mret (exists_ d name).
Definition symlink_metadata (name : string) : R (option Entry) := _ ← io; d ← files_of; mret (d !! name).
(** [remove_file]: whether there was one. *)
Definition remove_file (name : string) : R bool :=
  _ ← io;
  d ← files_of;
  match d !! name with
  | None => mret false
  | Some Directory => fails "is a directory"
  | Some _ => _ ← drop name; mret true
  end.
(** [create_new] open, [write_all] and [sync_all]; a write that fails leaves some bytes. *)
Definition create_new (name bytes : string) : R () :=
  partial ← draw secret;
  _ ← put name (File partial);
  _ ← io;
  _ ← put name (File bytes);
  io.
Definition create_dir_all : R () :=
  _ ← io;
  root ← look Runtime.root;
  match root with
  | Absent => change (Runtime.set_root RealDirectory)
  | NotDirectory => fails "not a directory"
  | _ => mret ()
  end.
Definition write_new_marker (name bytes : string) : R () :=
  _ ← io;
  d ← files_of;
  match d !! name with Some _ => mret () | None => create_new name bytes end.
Definition read_bounded_regular_file (name : string) (limit : Z) (label : string) : R string :=
  entry ← symlink_metadata name;
  match entry with
  | None => fails ("could not inspect " +:+ label +:+ " path")
  | Some (File bytes) =>
      _ ← io;
      _ ← assert_ (len bytes <=? limit) (label +:+ " is not a bounded regular file");
      _ ← io;
      mret bytes
  | Some _ => fails (label +:+ " is not a regular non-symlink file")
  end.

Definition text_of (e : Trouble.t) : string := match e with Trouble.Complaint text => text | _ => "" end.

(** ** Roles *)

(** The role the files give a machine, and what the code finds out about it, look by look. *)
Definition setup_required (d : gmap string Entry) : bool := is_file d SETUP_REQUIRED_MARKER.
Definition worker_enrollment_exists (d : gmap string Entry) : bool :=
  negb (is_file d SETUP_REQUIRED_MARKER) && negb (is_file d OWNER_FABRIC_MARKER)
  && (is_file d "remote-invite.json" || is_file d "agent.controller-pin.json").
Definition fabric_role_at (d : gmap string Entry) : string :=
  if setup_required d then "setup" else if worker_enrollment_exists d then "worker" else "owner".

Definition setup_required_at : R bool := is_file_at SETUP_REQUIRED_MARKER.
Definition worker_enrollment_exists_at : R bool :=
  setup ← is_file_at SETUP_REQUIRED_MARKER;
  if (setup : bool) then mret false
  else
    owner ← is_file_at OWNER_FABRIC_MARKER;
    if (owner : bool) then mret false
    else
      invite ← is_file_at "remote-invite.json";
      if (invite : bool) then mret true else is_file_at "agent.controller-pin.json".
Definition role_at : R string :=
  setup ← setup_required_at;
  if (setup : bool) then mret "setup"
  else worker ← worker_enrollment_exists_at; mret (if (worker : bool) then "worker" else "owner").

Definition fabric_state : list string :=
  [SETUP_REQUIRED_MARKER; OWNER_FABRIC_MARKER; "remote-invite.json"; "agent.controller-pin.json"; "agent.enrolled";
   "agent.identity.json"; "agent.key"; "controller.token"; "controller.db"; "governor.key"; "mesh.key"; "storage.key"].
(** [names.iter().any(|name| data_dir.join(name).exists())]. *)
Fixpoint any_exists (names : list string) : R bool :=
  match names with
  | [] => mret false
  | name :: names => there ← exists_at name; if (there : bool) then mret true else any_exists names
  end.
Definition ensure_neutral_first_run : R bool :=
  _ ← create_dir_all;
  has_fabric_state ← any_exists fabric_state;
  if (has_fabric_state : bool) then mret false
  else _ ← write_new_marker SETUP_REQUIRED_MARKER (line "rampage.setup-required.v1"); mret true.

Module RecoveryControllerPinDisk.
Record t := mk { schema : string; endpoint_id : string; governor_public_key : string }.
End RecoveryControllerPinDisk.
Module RemoteAssistPolicyDisk.
Record t := mk { schema : string; enabled : bool }.
End RemoteAssistPolicyDisk.
Module RemoteAssistActiveDisk.
Record t := mk {
  schema : string; session_id : string; mode : string; controller_endpoint_id : string; updated_at : DateTime;
  expires_at : DateTime
}.
End RemoteAssistActiveDisk.
Module RecoveryStatusView.
Record t := mk {
  schema : string; version : string; role : string; state : string; healthy : bool; issues : list string;
  can_leave_fabric : bool; can_factory_reset : bool
}.
End RecoveryStatusView.
Module RemoteAssistStatusView.
Record t := mk {
  supported : bool; enabled : bool; active : bool; session_id : option string; mode : option string;
  expires_at : option string
}.
End RemoteAssistStatusView.

(** A command returns, or the application restarts. *)
Inductive Ended (A : Type) := Returns (a : A) | Restarting.
Arguments Returns {A} a.
Arguments Restarting {A}.

(** The path of the runtime directory, as the check before a reset sees it. *)
Record Location := mkLocation { is_absolute : bool; file_name : option string; parent_name : option string }.

Section desktop.
Context {codec : Codec} {crypto : Crypto} {order : HashOrder}.
Context {wire_pin : Wire RecoveryControllerPinDisk.t} {wire_policy : Wire RemoteAssistPolicyDisk.t}
        {wire_active : Wire RemoteAssistActiveDisk.t}.
Context {base64 : Base64} {pairing_crypto : PairingCrypto} {wire_datagram : Wire PairingDatagram.t}.
(** [SigningKey::from_bytes], [Url::parse], and the build: its platform and version. *)
Context (signing_key_of : string → SigningKey) (parse_url : string → option Url.t) (windows : bool) (version : string).
Context (location : Location) (install_dir : string).

Definition eq_ignore_ascii_case (a b : string) : bool := to_ascii_lowercase a == to_ascii_lowercase b.
Definition validate_owner_local_enrollment : R () :=
  pin_bytes ← read_bounded_regular_file "agent.controller-pin.json" (64 * 1024) "local controller pin";
  pin ← try_ (λ _, Trouble.Complaint "local controller pin is invalid")
          (decode_json (A := RecoveryControllerPinDisk.t) pin_bytes);
  _ ← assert_ (RecoveryControllerPinDisk.schema pin == "rampage.pinned-controller.v1")
        "local controller pin has an unexpected schema";
  enrollment ← read_bounded_regular_file "agent.enrolled" (4 * 1024) "local enrollment marker";
  _ ← assert_ (is_utf8 enrollment) "local enrollment marker is invalid UTF-8";
  _ ← assert_ (trim enrollment == RecoveryControllerPinDisk.endpoint_id pin)
        "local enrollment marker does not match its pinned controller";
  governor_secret ← read_bounded_regular_file "governor.key" 128 "local governor key";
  _ ← assert_ (is_utf8 governor_secret) "local governor key is invalid UTF-8";
  governor_bytes ← obtain (hex_decode (trim governor_secret)) (Trouble.Complaint "local governor key is invalid");
  _ ← assert_ (len governor_bytes =? 32) "local governor key must contain exactly 32 bytes";
  assert_ (eq_ignore_ascii_case (RecoveryControllerPinDisk.governor_public_key pin)
             (hex_encode (verifying_key (signing_key_of governor_bytes))))
    "local agent is pinned to a different owner controller".

Definition enrollment_file_state : R (string * list string) :=
  setup ← setup_required_at;
  owner ← is_file_at OWNER_FABRIC_MARKER;
  invite ← is_file_at "remote-invite.json";
  pin ← is_file_at "agent.controller-pin.json";
  enrolled ← is_file_at "agent.enrolled";
  identity ← is_file_at "agent.identity.json";
  key ← is_file_at "agent.key";
  if (setup : bool) then
    mret (if owner || invite || pin || enrolled || identity || key
          then ("cleanup_required", ["Setup mode still contains fabric credentials; run Reset Rampage again."])
          else ("ready_to_configure", []))
  else if (owner : bool) then
    if (invite : bool) then mret ("repair_required", ["Owner runtime still contains a pending worker invitation."])
    else if (pin : bool) then
      if negb enrolled || negb identity || negb key
      then mret ("repair_required", ["The owner's local worker identity is incomplete."])
      else
        valid ← outcome validate_owner_local_enrollment;
        mret (match valid with
              | Err e => ("repair_required", ["The owner's local worker identity is inconsistent: " +:+ text_of e +:+ "."])
              | Ok _ => ("owner_active", [])
              end)
    else if (enrolled : bool)
    then mret ("repair_required", ["The owner has an enrollment marker without a pinned local controller."])
    else mret ("owner_active", [])
  else if (pin : bool) then
    mret (if negb enrolled || negb identity || negb key
          then ("repair_required", ["The paired-worker identity is incomplete or was interrupted during an update."])
          else ("worker_paired", []))
  else if (invite : bool) then mret ("enrollment_pending", [])
  else if enrolled || identity || key
  then mret ("repair_required", ["Local worker identity exists without a pinned owner."])
  else mret ("owner_starting", []).
Definition no_issues (issues : list string) : bool := match issues with [] => true | _ => false end.
Definition recovery_status_at : R RecoveryStatusView.t :=
  role ← role_at;
  '(state, issues) ← enrollment_file_state;
  mret (RecoveryStatusView.mk "rampage.recovery-status.v1" version role state (no_issues issues) issues (role == "worker") true).

(** ** Starting over *)

Definition validate_runtime_reset_target : R () :=
  _ ← assert_ (is_absolute location && (file_name location == Some "runtime")
               && is_some_and (λ value, eq_ignore_ascii_case value "ai.obtuse.rampage") (parent_name location))
        "refusing to reset a path outside the Rampage runtime directory";
  failed ← draw unseen;
  root ← look Runtime.root;
  match root with
  | Absent => mret ()
  | _ =>
      if (failed : bool) then mret ()
      else
        _ ← io;
        match root with
        | RealDirectory => mret ()
        | _ => fails "Rampage runtime path is not a regular directory"
        end
  end.
Definition remove_runtime_entry (name : string) : R () :=
  entry ← symlink_metadata name;
  match entry with
  | None => fails "no such entry"
  | Some (File _) | Some (Link _) | Some Directory => _ ← io; drop name
  | Some Special => fails ("refusing to reset unsupported runtime entry " +:+ name)
  end.
Fixpoint remove_all (names : list string) : R () :=
  match names with
  | [] => mret ()
  | name :: names => _ ← io; _ ← remove_runtime_entry name; remove_all names
  end.
Definition reset_runtime_to_setup : R () :=
  _ ← validate_runtime_reset_target;
  _ ← create_dir_all;
  _ ← io;
  d ← files_of;
  _ ← remove_all (keys d);
  write_new_marker SETUP_REQUIRED_MARKER (line "rampage.setup-required.v1").

(** ** Joining another fabric *)

Definition stale_credentials : list string :=
  ["remote-invite.json"; "agent.controller-pin.json"; "agent.enrolled"; "agent.identity.json"; "agent.key";
   REMOTE_ASSIST_POLICY_FILE; REMOTE_ASSIST_ACTIVE_FILE].
Fixpoint remove_stale (names : list string) (removed : Z) : R Z :=
  match names with
  | [] => mret removed
  | name :: names =>
      entry ← symlink_metadata name;
      match entry with
      | Some (File _) => _ ← remove_file name; remove_stale names (removed + 1)
      | None => remove_stale names removed
      | Some _ => fails ("refusing to replace non-regular stale pairing entry " +:+ name)
      end
  end.
Definition remove_stale_worker_credentials_in_setup : R Z :=
  setup ← setup_required_at;
  if negb setup then mret 0 else remove_stale stale_credentials 0.

Definition INTENT : string := line "rampage.worker-pairing.v1".
Definition write_intent : R () :=
  read ← outcome (read_bounded_regular_file WORKER_PAIRING_INTENT_MARKER 128 "worker pairing intent");
  match read with
  | Ok bytes =>
      assert_ (bytes == INTENT) "worker pairing intent has unexpected contents; use Fix Rampage before retrying"
  | Err _ =>
      there ← exists_at WORKER_PAIRING_INTENT_MARKER;
      if (there : bool)
      then fails "worker pairing intent is not a bounded regular file; use Fix Rampage before retrying"
      else write_new_marker WORKER_PAIRING_INTENT_MARKER INTENT
  end.
(** On Windows the firewall marker survives. *)
Definition reset_keeping_firewall : R () :=
  if windows then
    marker ← outcome (read_bounded_regular_file FIREWALL_MARKER_FILE 4096 "private-network firewall marker");
    _ ← reset_runtime_to_setup;
    match marker with Ok bytes => write_new_marker FIREWALL_MARKER_FILE bytes | Err _ => mret () end
  else reset_runtime_to_setup.
Definition prepare_worker_pairing_files : R () :=
  role ← role_at;
  _ ← (if role == "worker" then fails "this machine is already enrolled as a worker"
       else if role == "owner" then
         confirmed ← is_file_at OWNER_CONFIRMED_MARKER;
         if (confirmed : bool)
         then fails "this machine owns a configured fabric; use Reset Rampage before joining another owner"
         else reset_keeping_firewall
       else mret ());
  _ ← remove_stale_worker_credentials_in_setup;
  write_intent.

Definition invite_is_signed (parsed : Value) : bool :=
  (field_str "schema" parsed == Some "rampage.enrollment-invite.v1")
  && is_some_and (λ s, negb (is_empty s)) (endpoint ← field "controller_mesh" parsed; field_str "signature" endpoint)
  && is_some_and (λ s, negb (is_empty s)) (field_str "governor_public_key" parsed).
Definition write_invite (temporary invitation : string) : R () :=
  _ ← io;
  d ← files_of;
  match d !! temporary with
  | Some _ => fails "could not create the protected enrollment file"
  | None =>
      _ ← create_new temporary invitation;
      _ ← io;
      _ ← drop temporary;
      put "remote-invite.json" (File invitation)
  end.
Definition persist_remote_invite_at (invitation : string) : R () :=
  parsed ← obtain (json_from_str invitation) (Trouble.Complaint "invite is not valid JSON");
  _ ← assert_ (invite_is_signed parsed) "invite is missing its signed Rampage mesh endpoint";
  _ ← create_dir_all;
  setup ← setup_required_at;
  active ← (if (setup : bool) then is_file_at WORKER_PAIRING_INTENT_MARKER else mret false);
  _ ← assert_ active
        "the protected nearby-pairing transaction is not active; start Join my fabric again";
  _ ← remove_stale_worker_credentials_in_setup;
  invited ← exists_at "remote-invite.json";
  enrolled ← (if (invited : bool) then mret true else exists_at "agent.controller-pin.json");
  _ ← assert_ (negb enrolled)
        "this machine is already enrolled; remove it from the current fabric before enrolling again";
  token ← draw secret;
  let temporary := "remote-invite." +:+ (split_at 16 (hex_encode token)).1 +:+ ".tmp" in
  written ← outcome (write_invite temporary invitation);
  _ ← match written with
      | Ok _ => mret ()
      | Err e => _ ← outcome (remove_file temporary); raise e
      end;
  marked ← is_file_at SETUP_REQUIRED_MARKER;
  left_setup ← (if (marked : bool) then outcome (remove_file SETUP_REQUIRED_MARKER) else mret (Ok true));
  _ ← match left_setup with
      | Ok true => mret ()
      | _ => _ ← outcome (remove_file "remote-invite.json"); fails "could not leave setup mode after enrollment"
      end;
  removed ← outcome (remove_file WORKER_PAIRING_INTENT_MARKER);
  match removed with
  | Ok true => mret ()
  | _ =>
      _ ← outcome (remove_file "remote-invite.json");
      _ ← outcome (write_new_marker SETUP_REQUIRED_MARKER (line "rampage.setup-required.v1"));
      fails "could not commit the protected pairing transaction"
  end.

(** ** Commands *)

(** Every child is taken off the list and killed with its descendants; the ones that do not
    exit in time are reported. *)
Fixpoint kill_all (children : list Z) : R (list Z) :=
  match children with
  | [] => mret []
  | child :: children =>
      killed ← outcome io;
      failures ← kill_all children;
      mret (if is_ok killed then failures else child :: failures)
  end.
Definition stop_all_sidecars : R Z :=
  children ← look Runtime.sidecars;
  _ ← change (Runtime.set_sidecars []);
  failures ← kill_all children;
  _ ← assert_ (zlen failures =? 0) "could not stop every supervised sidecar";
  mret (zlen children).

Definition repair_connection : R (Ended ()) :=
  '(_, issues) ← enrollment_file_state;
  _ ← assert_ (no_issues issues) "Enrollment files are inconsistent; use Leave fabric or Reset Rampage.";
  mret Restarting.
Definition leave_fabric (confirmation : string) : R (Ended ()) :=
  _ ← assert_ (confirmation == LEAVE_FABRIC_CONFIRMATION) "exact LEAVE FABRIC confirmation is required";
  role ← role_at;
  _ ← assert_ (role == "worker") "Leave fabric is available only on a paired worker";
  _ ← stop_all_sidecars;
  _ ← reset_runtime_to_setup;
  mret Restarting.
Definition platform_set_autostart (enabled : bool) : R () := _ ← io; change (Runtime.set_autostart enabled).
Definition factory_reset (confirmation : string) : R (Ended ()) :=
  _ ← assert_ (confirmation == FACTORY_RESET_CONFIRMATION) "exact RESET RAMPAGE confirmation is required";
  _ ← stop_all_sidecars;
  _ ← platform_set_autostart false;
  _ ← reset_runtime_to_setup;
  mret Restarting.
Definition activate_owner_fabric : R (Ended ()) :=
  worker ← worker_enrollment_exists_at;
  _ ← assert_ (negb worker) "this device is still paired as a worker";
  marked ← is_file_at SETUP_REQUIRED_MARKER;
  if (marked : bool) then
    _ ← write_new_marker OWNER_FABRIC_MARKER (line "rampage.owner-fabric.v1");
    confirmed ← outcome (write_new_marker OWNER_CONFIRMED_MARKER (line "rampage.owner-confirmed.v1"));
    _ ← match confirmed with
        | Ok _ => mret ()
        | Err e => _ ← outcome (remove_file OWNER_FABRIC_MARKER); raise e
        end;
    removed ← outcome (remove_file SETUP_REQUIRED_MARKER);
    _ ← match removed with
        | Ok true => mret ()
        | _ =>
            _ ← outcome (remove_file OWNER_FABRIC_MARKER);
            _ ← outcome (remove_file OWNER_CONFIRMED_MARKER);
            fails "could not activate the owner fabric"
        end;
    mret Restarting
  else mret (Returns ()).
Definition confirm_owner_fabric : R () :=
  role ← role_at;
  active ← (if role == "owner" then is_file_at OWNER_FABRIC_MARKER else mret false);
  _ ← assert_ active
        "only an active owner fabric can be confirmed";
  write_new_marker OWNER_CONFIRMED_MARKER (line "rampage.owner-confirmed.v1").
(** The stop is also sent to the controller of this machine, if there is one. *)
Definition local_stop : R () :=
  _ ← create_dir_all;
  _ ← io;
  d ← files_of;
  _ ← match d !! "KILL" with Some _ => mret () | None => create_new "KILL" (line "owner-stop-v1") end;
  _ ← remove_file REMOTE_ASSIST_ACTIVE_FILE;
  mret ().

(** ** Remote Assist *)

Definition remote_assist_enabled_at : R bool :=
  read ← outcome (read_bounded_regular_file REMOTE_ASSIST_POLICY_FILE (4 * 1024) "Remote Assist policy");
  mret (match read with
        | Ok bytes =>
            match decode_json (A := RemoteAssistPolicyDisk.t) bytes with
            | Ok policy => (RemoteAssistPolicyDisk.schema policy == "rampage.remote-assist-policy.v1")
                           && RemoteAssistPolicyDisk.enabled policy
            | Err _ => false
            end
        | Err _ => false
        end).
Definition is_live (now : DateTime) (active : RemoteAssistActiveDisk.t) : bool :=
  (RemoteAssistActiveDisk.schema active == "rampage.remote-assist-active.v1")
  && negb (is_empty (RemoteAssistActiveDisk.session_id active))
  && negb (is_empty (RemoteAssistActiveDisk.controller_endpoint_id active))
  && ((RemoteAssistActiveDisk.mode active == "view") || (RemoteAssistActiveDisk.mode active == "control"))
  && (RemoteAssistActiveDisk.updated_at active <=? now + seconds 5)
  && (now <? RemoteAssistActiveDisk.expires_at active)
  && (RemoteAssistActiveDisk.expires_at active - RemoteAssistActiveDisk.updated_at active <=? seconds 35).
Definition remote_assist_active_at : R (option RemoteAssistActiveDisk.t) :=
  read ← outcome (read_bounded_regular_file REMOTE_ASSIST_ACTIVE_FILE (16 * 1024) "Remote Assist activity");
  match read with
  | Err _ => mret None
  | Ok bytes =>
      match decode_json (A := RemoteAssistActiveDisk.t) bytes with
      | Err _ => mret None
      | Ok active => now ← draw clock; mret (if is_live now active then Some active else None)
      end
  end.
Definition remote_assist_status : R RemoteAssistStatusView.t :=
  supported ← (if windows then worker_enrollment_exists_at else mret false);
  enabled ← (if (supported : bool) then remote_assist_enabled_at else mret false);
  active ← (if (enabled : bool) then remote_assist_active_at else mret None);
  mret (RemoteAssistStatusView.mk supported enabled (is_some active) (RemoteAssistActiveDisk.session_id <$> active)
          (RemoteAssistActiveDisk.mode <$> active) (to_rfc3339 ∘ RemoteAssistActiveDisk.expires_at <$> active)).
Definition set_remote_assist_enabled (enabled : bool) : R RemoteAssistStatusView.t :=
  _ ← assert_ windows "Remote Assist is currently qualified only on Windows workers";
  worker ← worker_enrollment_exists_at;
  _ ← assert_ worker "Remote Assist can only be enabled on a paired worker";
  _ ← create_dir_all;
  there ← exists_at REMOTE_ASSIST_POLICY_FILE;
  _ ← (if (there : bool) then
         entry ← symlink_metadata REMOTE_ASSIST_POLICY_FILE;
         match entry with
         | Some (File _) => mret ()
         | _ => fails "Remote Assist policy path is not a regular non-symlink file"
         end
       else mret ());
  _ ← io;
  d ← files_of;
  _ ← match d !! REMOTE_ASSIST_POLICY_FILE with
      | Some Directory | Some (Link (Some ToDirectory)) => fails "is a directory"
      | Some (Link _) => _ ← put REMOTE_ASSIST_POLICY_FILE (Link (Some ToFile)); io
      | Some Special => io
      | _ =>
          create_new REMOTE_ASSIST_POLICY_FILE
            (encode_json (RemoteAssistPolicyDisk.mk "rampage.remote-assist-policy.v1" enabled))
      end;
  _ ← (if (enabled : bool) then mret true else remove_file REMOTE_ASSIST_ACTIVE_FILE);
  remote_assist_status.

(** ** Pairing *)

(** The firewall rule of the private network, on Windows: unless the marker says that it was set
    up for this installation, a helper process sets it up with the consent of the owner, and the
    marker is written. *)
Definition FIREWALL_MARKER_V1 : string := "firewall-private-v1.ready".
Definition firewall_marker_body : string :=
  line "rampage.firewall-private.v2" +:+ line ("install_dir=" +:+ install_dir).
Definition ensure_private_network_firewall : R () :=
  if negb windows then mret ()
  else
    _ ← io;
    read ← outcome (read_bounded_regular_file FIREWALL_MARKER_FILE 4096 "private-network firewall marker");
    set_up ← match read with
             | Ok bytes =>
                 if bytes == firewall_marker_body then mret true
                 else
                   removed ← remove_file FIREWALL_MARKER_FILE;
                   _ ← assert_ removed "no such file";
                   mret false
             | Err _ =>
                 there ← exists_at FIREWALL_MARKER_FILE;
                 _ ← assert_ (negb there) "private-network firewall marker is not a bounded regular file";
                 mret false
             end;
    if (set_up : bool) then mret ()
    else
      _ ← io;
      _ ← create_dir_all;
      _ ← write_new_marker FIREWALL_MARKER_FILE firewall_marker_body;
      previous ← is_file_at FIREWALL_MARKER_V1;
      if (previous : bool) then _ ← outcome (remove_file FIREWALL_MARKER_V1); mret () else mret ().

Definition leave_unconfirmed_ownership : R () :=
  role ← role_at;
  if role == "owner" then
    confirmed ← is_file_at OWNER_CONFIRMED_MARKER;
    if (confirmed : bool)
    then fails "this machine owns a configured fabric; use Reset Rampage before joining another owner"
    else _ ← stop_all_sidecars; mret ()
  else mret ().
Definition begin_pairing (device_name : string) : R (WorkerPairingView.t * option Attempt) :=
  _ ← leave_unconfirmed_ownership;
  _ ← prepare_worker_pairing_files;
  _ ← ensure_private_network_firewall;
  now ← draw clock;
  random ← draw secret;
  inner ← look Runtime.pairing;
  let '(result, attempt, inner) := begin_worker (now / 1000000) (Some (split_at 16 random).1) device_name inner in
  _ ← change (Runtime.set_pairing inner);
  view ← try_ Trouble.Complaint result;
  mret (view, attempt).
Definition cancel_pairing : R () :=
  _ ← change (λ s, Runtime.set_pairing (cancel_worker (Runtime.pairing s)) s);
  _ ← remove_file WORKER_PAIRING_INTENT_MARKER;
  mret ().
Definition join_remote (invitation : string) : R (Ended ()) :=
  _ ← leave_unconfirmed_ownership;
  _ ← prepare_worker_pairing_files;
  _ ← persist_remote_invite_at invitation;
  mret Restarting.
(** The guards of the owner's commands. *)
Definition open_pairing_window (bound : result string ()) (owner_name : string) : R PairingWindowView.t :=
  role ← role_at;
  _ ← assert_ (role == "owner") "only the owner PC can approve a new machine";
  _ ← ensure_private_network_firewall;
  now ← draw clock; now' ← draw clock;
  inner ← look Runtime.pairing;
  let '(result, _, inner) := open_owner_window bound (now / 1000000) (now' / 1000000) owner_name inner in
  _ ← change (Runtime.set_pairing inner);
  try_ Trouble.Complaint result.
(** The controller makes the invitation that the approval carries. *)
Definition approve_pairing (send_ok : nat → bool) (request_id : string) : R (PairingRequestView.t * Sends) :=
  role ← role_at;
  _ ← assert_ (role == "owner") "only the owner PC can approve a new machine";
  token ← read_bounded_regular_file "controller.token" 512 "controller token";
  _ ← assert_ (is_utf8 token) "controller token is not UTF-8";
  answer ← draw http;
  '(status, invitation) ← obtain answer (Trouble.Complaint "could not create the encrypted enrollment invite");
  _ ← assert_ ((200 <=? status) && (status <? 300)) "controller refused enrollment approval";
  now ← draw clock;
  random ← draw secret;
  inner ← look Runtime.pairing;
  let '(result, inner, sent) := approve (now / 1000000) (Some (split_at 12 random).1) send_ok request_id invitation inner in
  _ ← change (Runtime.set_pairing inner);
  view ← try_ Trouble.Complaint result;
  mret (view, sent).

Definition reject_pairing (send_ok : bool) (request_id : string) : R Sends :=
  inner ← look Runtime.pairing;
  let '(result, inner, sent) := reject send_ok request_id inner in
  _ ← change (Runtime.set_pairing inner);
  _ ← try_ Trouble.Complaint result;
  mret sent.

(** ** Launch *)

Definition configured_private_relay : R (option string) :=
  configured ← is_file_at "rampage-relay.json";
  if negb configured then mret None
  else
    bytes ← read_bounded_regular_file "rampage-relay.json" (1024 * 1024) "owner relay configuration";
    config ← obtain (json_from_str bytes) (Trouble.Complaint "owner relay configuration is invalid");
    _ ← assert_ (field_str "schema" config == Some "rampage.owner-relay-config.v1")
          "owner relay configuration has an unsupported schema";
    public_url ← obtain (field_str "public_url" config)
                   (Trouble.Complaint "owner relay configuration is missing public_url");
    parsed ← obtain (parse_url public_url) (Trouble.Complaint "invalid URL");
    _ ← assert_ ((Url.scheme parsed == "https") && is_empty (Url.username parsed) && is_none (Url.password parsed)
                 && is_none (Url.query parsed) && is_none (Url.fragment parsed))
          "owner relay public_url must be credential-free HTTPS";
    mret (Some public_url).
Definition controller_bind (bind : option string) : result string SocketAddr :=
  address ← ok_or "invalid RAMPAGE_BIND" (parse_socket_addr (default "127.0.0.1:47831" bind));
  if match ip address with V4 a _ _ _ => Ipv4Addr.is_loopback a | V6 segments => Ipv6Addr.is_loopback segments end
  then Ok address else Err "RAMPAGE_BIND must remain loopback-only".
(** What a launch does, up to the first process it starts. *)
Inductive Launch :=
| Setup
| Worker
| Owner (relay : option string) (bind : SocketAddr).
(** [create_dir_all(&intelligence_dir)]. *)
Definition create_intelligence_dir : R () :=
  _ ← io;
  d ← files_of;
  match d !! "intelligence" with
  | None => put "intelligence" Directory
  | Some Directory | Some (Link (Some ToDirectory)) => mret ()
  | Some _ => fails "not a directory"
  end.
Definition launch_fabric (bind : option string) : R Launch :=
  _ ← create_dir_all;
  _ ← ensure_neutral_first_run;
  setup ← setup_required_at;
  if (setup : bool) then mret Setup
  else
    worker ← worker_enrollment_exists_at;
    if (worker : bool) then mret Worker
    else
      _ ← write_new_marker OWNER_FABRIC_MARKER (line "rampage.owner-fabric.v1");
      _ ← create_intelligence_dir;
      relay ← configured_private_relay;
      address ← try_ Trouble.Complaint (controller_bind bind);
      mret (Owner relay address).
(** The processes of an owner: each is looked up, started and listed. *)
Definition start_sidecar (pid : Z) : R () :=
  _ ← io;
  _ ← io;
  change (λ s, Runtime.set_sidecars (Runtime.sidecars s ++ [pid]) s).
(** The wait for the token that the controller writes; [appears] is what it has written between
    two looks. *)
Fixpoint await_token (looks : nat) (appears : nat → option string) : R () :=
  match looks with
  | O => mret ()
  | S looks =>
      there ← is_file_at "controller.token";
      if (there : bool) then mret ()
      else
        _ ← match appears looks with Some bytes => put "controller.token" (File bytes) | None => mret () end;
        await_token looks appears
  end.
Definition launch_owner_relay_if_configured (pid : Z) : R () :=
  configured ← is_file_at "rampage-relay.json";
  if negb configured then mret () else start_sidecar pid.
Definition launch_services (controller relay intelligence : Z) (appears : nat → option string) : R string :=
  _ ← start_sidecar controller;
  _ ← await_token 300 appears;
  bytes ← read_bounded_regular_file "controller.token" 512 "controller token";
  _ ← assert_ (is_utf8 bytes) "controller token is not UTF-8";
  let token := trim bytes in
  _ ← assert_ (negb (is_empty token)) "controller token is empty";
  _ ← launch_owner_relay_if_configured relay;
  _ ← start_sidecar intelligence;
  mret token.

(** The benchmark of the fabric, run by a helper process (in Supervisor.v, [Assist] and [Assisted]):
    what the command line printed, unless it could not be started;
    [bounded] is the beginning of its complaints. *)
Definition MAX_RESULT_BYTES : Z := 1024 * 1024.
Definition run_fabric_benchmark (bounded : string → string) (output : option (bool * string * string)) : R Value :=
  role ← role_at;
  _ ← assert_ (role == "owner") "only the owner PC can benchmark the compute fabric";
  '(success, stdout, stderr) ← obtain output (Trouble.Complaint "could not start the signed fabric benchmark");
  _ ← assert_ success ("fabric benchmark failed: " +:+ trim (bounded stderr));
  _ ← assert_ (len stdout <=? MAX_RESULT_BYTES) "fabric benchmark result exceeded the 1 MiB desktop limit";
  result ← obtain (json_from_str stdout) (Trouble.Complaint "fabric benchmark returned invalid JSON");
  _ ← assert_ (field_str "schema" result == Some "rampage.fabric-benchmark-result.v1")
        "fabric benchmark returned an unexpected result schema";
  mret result.
End desktop.

(** ** The output of the worker *)

Section heartbeats.
Context {codec : Codec}.

Definition MAX_BUFFER_BYTES : Z := 64 * 1024.
Definition worker_heartbeat_node (value : Value) : option (option string) :=
  if is_some_and (λ schema, (schema == "rampage.worker-ready.v1") || (schema == "rampage.worker-heartbeat.v1"))
       (field_str "schema" value)
  then Some (field_str "node_id" value) else None.
Definition is_newline (c : ascii) : bool := c == "010"%char.
(** Carriage returns at the end of a line. *)
Fixpoint strip_returns (s : string) : string :=
  match s with
  | "" => ""
  | String c s =>
      match strip_returns s with
      | "" => if c == "013"%char then "" else String c ""
      | rest => String c rest
      end
  end.
Definition heartbeat_of (s : string) : option (option string) :=
  value ← json_from_str (strip_returns s); worker_heartbeat_node value.
Definition drain_worker_heartbeats (buffer bytes : string) : list (option string) * string :=
  let buffer := (if MAX_BUFFER_BYTES <? sat_add (len buffer) (len bytes) then "" else buffer) +:+ bytes in
  let segments := split is_newline buffer in
  match segments, json_from_str buffer with
  | [_], Some value => (option_list (worker_heartbeat_node value), "")
  | _, _ => (omap heartbeat_of (removelast segments), List.last segments "")
  end.
Definition worker_requires_restart (now worker_started_at : Z) (ready_announced : bool) (last_heartbeat_at : option Z)
    (startup_threshold threshold : Z) : bool :=
  if negb ready_announced then startup_threshold <? now - worker_started_at
  else is_some_and (λ last, threshold <? now - last) last_heartbeat_at.
Definition launched_in_background (args : list string) : bool := existsb (λ arg, arg == BACKGROUND_ARG) args.
Definition should_focus_existing_instance (args : list string) : bool := negb (launched_in_background args).
End heartbeats.
