(* ===== verification/DesktopFacts.v ===== *)
(** * Facts about the role of a machine

    A confirmed owner stays one until it is reset, as long as no look at a path fails; an
    invitation is stored completely or not at all, also when one call fails, except where a look
    that fails leaves the machine in setup; a reset leaves nothing behind; a launch lists the
    processes it has started; a machine whose request is approved becomes a worker.  At the end,
    the theorems at concrete directories, and courses of events in which a call or a look that
    failed leaves a machine in a role nobody chose. *)

From S2P Require Import Prelude.
From S2P Require Import Codec.
From S2P Require Import Text.
From S2P Require Import Contracts.
From S2P Require Import Wire.
From S2P Require Import Signing.
From S2P Require Import Relay.
From S2P Require Import Net.
From S2P Require Import Mesh.
From S2P Require Import Process.
From S2P Require Import Pairing.
From S2P Require Import PairingFacts.
From S2P Require Import Desktop.
From S2P Require Import Samples.
From S2P Require Import WorkerFacts.
From S2P Require Import PairingSamples.
Import Text.
#[local] Open Scope Z_scope.

(** ** Reasoning with faults *)

(** How many calls of the operating system may still fail: any number, one, one that is not a
    look at a path, or none. *)
Inductive Faults := Many | One | OneCall | Zero.
Definition allowed (env : Surroundings) (n : nat) (f : Faults) : Prop :=
  match f with
  | Many => True
  | One => ∃ k, ∀ m, (n ≤ m)%nat → sight env m = true ∨ unseen env m = true → m = k
  | OneCall => ∃ k, ∀ m, (n ≤ m)%nat → unseen env m = false ∧ (sight env m = true → m = k)
  | Zero => ∀ m, (n ≤ m)%nat → sight env m = false ∧ unseen env m = false
  end.
(** What may fail after a call, or a look, that failed. *)
Definition after_fault (f : Faults) : option Faults :=
  match f with Many => Some Many | One | OneCall => Some Zero | Zero => None end.
Definition after_look (f : Faults) : option Faults :=
  match f with Many => Some Many | One => Some Zero | OneCall | Zero => None end.

(** What is needed for [m] to end in [Q], which sees the faults left, the result and the state. *)
Definition wp {A} (m : R A) (Q : Faults → result Trouble.t A → Runtime.t → Prop) (f : Faults) (s : Runtime.t) : Prop :=
  ∀ env w, allowed env (draws w) f → state w = s →
    ∃ f', allowed env (draws (m env w).2) f' ∧ Q f' (m env w).1 (state (m env w).2).

Lemma allowed_S env n f : allowed env n f → allowed env (S n) f.
Proof. destruct f; cbn; [done|intros [k Hk]; exists k; intros m Hm; apply Hk; lia..|intros H m Hm; apply H; lia]. Qed.

(** The one call that may fail is a look at a path, or no look fails. *)
Lemma look_or_call env n : allowed env n One → (∃ m, (n ≤ m)%nat ∧ unseen env m = true) ∨ allowed env n OneCall.
Proof.
  intros [k Hk]. destruct (decide (n ≤ k)%nat) as [Hle|Hgt].
  - destruct (unseen env k) eqn:Hu; [left; by exists k|right]. exists k. intros m Hm. split; [|by auto].
    destruct (unseen env m) eqn:E; [|done]. rewrite <- E, (Hk m); auto.
  - right. exists k. intros m Hm. split; [|by auto]. destruct (unseen env m) eqn:E; [|done].
    pose proof (Hk m Hm (or_intror E)). lia.
Qed.

Section rules.
Context {A : Type}.
Implicit Type Q : Faults → result Trouble.t A → Runtime.t → Prop.

Lemma wp_ret (a : A) Q f s : Q f (Ok a) s → wp (mret a) Q f s.
Proof. intros HQ env w Hf <-. by exists f. Qed.
Lemma wp_raise e Q f s : Q f (Err e) s → wp (raise e) Q f s.
Proof. intros HQ env w Hf <-. by exists f. Qed.
Lemma wp_seq {B} (m : R B) (k : B → R A) Q f s :
  wp m (λ f r s, match r with Ok b => wp (k b) Q f s | Err e => Q f (Err e) s end) f s → wp (m ≫= k) Q f s.
Proof.
  intros Hm env w Hf Hs. destruct (Hm env w Hf Hs) as (f' & Hf' & HQ). unfold mbind, P_bind.
  destruct (m env w) as [[b|e] w1]; [by apply HQ|]. by exists f'.
Qed.
Lemma wp_weaken (m : R A) Q Q' f s : wp m Q f s → (∀ f r s, Q f r s → Q' f r s) → wp m Q' f s.
Proof. intros Hm HQ env w Hf Hs. destruct (Hm env w Hf Hs) as (f' & ? & ?). exists f'. eauto. Qed.
Lemma wp_look (g : Runtime.t → A) Q f s : Q f (Ok (g s)) s → wp (look g) Q f s.
Proof. intros HQ env w Hf <-. by exists f. Qed.
Lemma wp_draw (g : Surroundings → nat → A) Q f s : (∀ a, Q f (Ok a) s) → wp (draw g) Q f s.
Proof. intros HQ env w Hf <-. exists f. split; [by apply allowed_S|apply HQ]. Qed.
Lemma wp_try {E} g (r : result E A) Q f s :
  match r with Ok a => Q f (Ok a) s | Err e => Q f (Err (g e)) s end → wp (try_ g r) Q f s.
Proof. intros HQ env w Hf <-. exists f. by destruct r. Qed.
Lemma wp_obtain (o : option A) e Q f s :
  match o with Some a => Q f (Ok a) s | None => Q f (Err e) s end → wp (obtain o e) Q f s.
Proof. intros HQ env w Hf <-. exists f. by destruct o. Qed.
End rules.
Definition post (A : Type) : Type := Faults → result Trouble.t A → Runtime.t → Prop.
Lemma wp_outcome {A} (m : R A) (Q : Faults → result Trouble.t (result Trouble.t A) → Runtime.t → Prop) f s :
  wp m (λ f r s, Q f (Ok r) s) f s → wp (outcome m) Q f s.
Proof.
  intros Hm env w Hf Hs. destruct (Hm env w Hf Hs) as (f' & Hf' & HQ). exists f'. unfold outcome.
  by destruct (m env w) as [r w1].
Qed.
Lemma wp_change (g : Runtime.t → Runtime.t) (Q : post ()) f s : Q f (Ok ()) (g s) → wp (change g) Q f s.
Proof. intros HQ env w Hf <-. by exists f. Qed.
Lemma wp_assert (b : bool) text (Q : post ()) f s :
  (if b then Q f (Ok ()) s else Q f (Err (Trouble.Complaint text)) s) → wp (assert_ b text) Q f s.
Proof. intros HQ env w Hf <-. exists f. by destruct b. Qed.
(** A fault that was the only one is used up. *)
Lemma used_up env n :
  (∀ m, (n ≤ m)%nat → sight env m = true ∨ unseen env m = true → m = n) →
  ∀ m, (S n ≤ m)%nat → sight env m = false ∧ unseen env m = false.
Proof.
  intros Hone m Hm. split.
  - destruct (sight env m) eqn:E; [|done]. pose proof (Hone m ltac:(lia) (or_introl E)). lia.
  - destruct (unseen env m) eqn:E; [|done]. pose proof (Hone m ltac:(lia) (or_intror E)). lia.
Qed.
Lemma wp_io (Q : post ()) f s :
  Q f (Ok ()) s → (∀ f', after_fault f = Some f' → Q f' (Err (Trouble.Complaint "I/O error")) s) → wp io Q f s.
Proof.
  intros Hok Herr env w Hf <-. unfold io, mbind, P_bind, draw. cbn.
  destruct (sight env (draws w)) eqn:Hs; cbn; [|exists f; split; [by apply allowed_S|done]].
  destruct f; cbn in Hf |- *.
  - exists Many. split; [done|]. by apply Herr.
  - exists Zero. split; [|by apply Herr]. destruct Hf as [k Hk]. refine (used_up env (draws w) _).
    intros m Hm Hfail. rewrite (Hk m), (Hk (draws w)); auto.
  - exists Zero. split; [|by apply Herr]. destruct Hf as [k Hk]. refine (used_up env (draws w) _).
    intros m Hm Hfail. destruct (Hk m Hm) as [Hno Hm'], (Hk (draws w) ltac:(lia)) as [_ Hn'].
    rewrite Hn' by done. apply Hm'. destruct Hfail; congruence.
  - by rewrite (proj1 (Hf _ (Nat.le_refl _))) in Hs.
Qed.
(** A look that fails finds nothing. *)
Lemma wp_glance (found : gmap string Entry → bool) (Q : post bool) f s :
  Q f (Ok (found (Runtime.files s))) s → (∀ f', after_look f = Some f' → Q f' (Ok false) s) →
  wp (failed ← draw unseen; if (failed : bool) then mret false else d ← files_of; mret (found d)) Q f s.
Proof.
  intros Hok Herr env w Hf <-. unfold mbind, P_bind, draw. cbn.
  destruct (unseen env (draws w)) eqn:Hs; cbn; [|exists f; split; [by apply allowed_S|done]].
  destruct f; cbn in Hf |- *.
  - exists Many. split; [done|]. by apply Herr.
  - exists Zero. split; [|by apply Herr]. destruct Hf as [k Hk]. refine (used_up env (draws w) _).
    intros m Hm Hfail. rewrite (Hk m), (Hk (draws w)); auto.
  - destruct Hf as [k Hk]. by rewrite (proj1 (Hk _ (Nat.le_refl _))) in Hs.
  - by rewrite (proj2 (Hf _ (Nat.le_refl _))) in Hs.
Qed.
(** One rule per form of computation. *)
Ltac step :=
  match goal with
  | |- wp (_ ≫= _) _ _ _ => apply wp_seq
  | |- wp (mret _) _ _ _ => apply wp_ret
  | |- wp (raise _) _ _ _ => apply wp_raise
  | |- wp (fails _) _ _ _ => apply wp_raise
  | |- wp (look _) _ _ _ => apply wp_look
  | |- wp files_of _ _ _ => apply wp_look
  | |- wp (draw _) _ _ _ => apply wp_draw; intros ?
  | |- wp (change _) _ _ _ => apply wp_change
  | |- wp (put _ _) _ _ _ => apply wp_change
  | |- wp (drop _) _ _ _ => apply wp_change
  | |- wp (assert_ _ _) _ _ _ => apply wp_assert
  | |- wp (try_ _ _) _ _ _ => apply wp_try
  | |- wp (obtain _ _) _ _ _ => apply wp_obtain
  | |- wp (outcome _) _ _ _ => apply wp_outcome
  | |- wp io _ _ _ => apply wp_io; [|intros ? ?]
  | |- wp (is_file_at ?name) _ _ _ => apply (wp_glance (λ d, is_file d name)); [|intros ? ?]
  | |- wp (exists_at ?name) _ _ _ => apply (wp_glance (λ d, exists_ d name)); [|intros ? ?]
  end.

(** ** Calls *)

Abbreviation files := Runtime.files.
Lemma wp_symlink_metadata name (Q : post (option Entry)) f s :
  Q f (Ok (files s !! name)) s → (∀ f' e, after_fault f = Some f' → Q f' (Err e) s) → wp (symlink_metadata name) Q f s.
Proof. intros Hok Herr. unfold symlink_metadata. repeat step; auto. Qed.
Lemma wp_remove_file name (Q : post bool) f s :
  (∀ f' e, after_fault f = Some f' → Q f' (Err e) s) →
  match files s !! name with
  | None => Q f (Ok false) s
  | Some Directory => ∀ e, Q f (Err e) s
  | Some _ => Q f (Ok true) (Runtime.set_files (delete name (files s)) s)
  end → wp (remove_file name) Q f s.
Proof.
  intros Herr Hok. unfold remove_file. repeat step; auto. destruct (files s !! name) as [[]|]; repeat step; auto.
Qed.
Lemma wp_create_dir_all (Q : post ()) f s :
  (∀ r, r ≠ NotDirectory → Q f (Ok ()) (Runtime.set_root r s)) → (∀ f' e, (f = Zero → Runtime.root s = NotDirectory) → Q f' (Err e) s) →
  wp create_dir_all Q f s.
Proof.
  intros Hok Herr. unfold create_dir_all. repeat step; [|apply Herr; by intros ->].
  destruct (Runtime.root s) eqn:E; repeat step; [by apply Hok|..|auto].
  all: specialize (Hok (Runtime.root s)); rewrite E in Hok; destruct s; cbn in E; subst; by apply Hok.
Qed.
(** A new file is there when it is written; when that fails, something may be there. *)
Lemma wp_create_new name bytes (Q : post ()) f s :
  Q f (Ok ()) (Runtime.set_files (<[name := File bytes]> (files s)) s) →
  (∀ f' e any, after_fault f = Some f' → Q f' (Err e) (Runtime.set_files (<[name := File any]> (files s)) s)) →
  wp (create_new name bytes) Q f s.
Proof.
  destruct s as [root d sidecars autostart pairing]. unfold Runtime.set_files. cbn. intros Hok Herr. unfold create_new.
  repeat step; unfold Runtime.set_files; cbn; rewrite ?insert_insert_eq; auto.
Qed.
Lemma wp_write_new_marker name bytes (Q : post ()) f s :
  (∀ e, files s !! name = Some e → Q f (Ok ()) s) →
  (files s !! name = None → Q f (Ok ()) (Runtime.set_files (<[name := File bytes]> (files s)) s)) →
  (∀ f' e, after_fault f = Some f' → Q f' (Err e) s) →
  (∀ f' e any, after_fault f = Some f' → files s !! name = None →
     Q f' (Err e) (Runtime.set_files (<[name := File any]> (files s)) s)) →
  wp (write_new_marker name bytes) Q f s.
Proof.
  intros Hthere Hnew Herr Hpartial. unfold write_new_marker. repeat step; auto.
  destruct (files s !! name) eqn:E; [repeat step; eauto|]. apply wp_create_new; eauto.
Qed.

Section desktop.
Context {codec : Codec} {crypto : Crypto} {order : HashOrder}.
Context {wire_pin : Wire RecoveryControllerPinDisk.t} {wire_policy : Wire RemoteAssistPolicyDisk.t}
        {wire_active : Wire RemoteAssistActiveDisk.t}.
Context {base64 : Base64} {pairing_crypto : PairingCrypto} {wire_datagram : Wire PairingDatagram.t}.
Context (signing_key_of : string → SigningKey) (parse_url : string → option Url.t) (windows : bool).
Context (location : Location) (install_dir : string).

(** ** Starting over *)

Abbreviation with_files := Runtime.set_files.
Lemma with_files_same s : with_files (files s) s = s.
Proof. by destruct s. Qed.
Lemma wp_remove_runtime_entry name f s :
  wp (remove_runtime_entry name) (λ _ r s', match r with
    | Ok _ => s' = with_files (delete name (files s)) s | Err _ => s' = s end) f s.
Proof.
  unfold remove_runtime_entry. apply wp_seq, wp_symlink_metadata; [|done].
  destruct (files s !! name) as [[]|]; repeat step; done.
Qed.
Lemma wp_remove_all names f s :
  wp (remove_all names) (λ _ r s', ∃ d, s' = with_files d s ∧ d ⊆ files s ∧
    match r with Ok _ => ∀ name, name ∈ names → d !! name = None | Err _ => True end) f s.
Proof.
  revert f s. induction names as [|name names IH]; intros f s; cbn [remove_all].
  - step. exists (files s). rewrite with_files_same. split_and!; [done..|by intros ? ?%not_elem_of_nil].
  - repeat step; [|exists (files s); by rewrite with_files_same].
    eapply wp_weaken; [apply wp_remove_runtime_entry|]. intros f' r s' Hr; cbv beta in Hr.
    destruct r as [[]|e]; subst s'; [|exists (files s); by rewrite with_files_same].
    eapply wp_weaken; [apply IH|]. intros f'' r s' (d & -> & Hsub & Hr). exists d. cbn in Hsub. split_and!.
    + by destruct s.
    + etrans; [exact Hsub|apply delete_subseteq].
    + destruct r; [|done]. intros n [->|Hn]%elem_of_cons; [|by apply Hr].
      eapply lookup_weaken_None; [|exact Hsub]. apply lookup_delete_eq.
Qed.
Definition setup_only : gmap string Entry := {[SETUP_REQUIRED_MARKER := File (line "rampage.setup-required.v1")]}.
(** A reset leaves nothing behind.  However the file system behaves, a reset that succeeds
    leaves the setup marker and nothing else in the runtime directory; one that fails at worst
    adds that marker to what was there. *)
Theorem reset_forgets env w :
  let '(r, w') := reset_runtime_to_setup location env w in
  match r with
  | Ok _ => files (state w') = setup_only ∧ fabric_role_at (files (state w')) = "setup"
  | Err _ => delete SETUP_REQUIRED_MARKER (files (state w')) ⊆ files (state w)
  end.
Proof.
  assert (wp (reset_runtime_to_setup location) (λ _ r s', match r with
    | Ok _ => files s' = setup_only
    | Err _ => delete SETUP_REQUIRED_MARKER (files s') ⊆ files (state w) end) Many (state w)) as H.
  { unfold reset_runtime_to_setup. assert (delete SETUP_REQUIRED_MARKER (files (state w)) ⊆ files (state w)) as Hsame
      by apply delete_subseteq. apply wp_seq. unfold validate_runtime_reset_target. repeat step.
    destruct (_ && _); [|done]. repeat step. apply (wp_weaken _ (λ _ _ s', s' = state w)).
    { destruct (Runtime.root (state w)), a; repeat step; done. }
    intros f' [[]|e] s' ->; [|done]. apply wp_seq, wp_create_dir_all; [|done]. intros root _. repeat step; [|done].
    eapply wp_weaken; [apply wp_remove_all|]. intros f'' r s' (d & -> & Hsub & Hr). cbn in Hsub, Hr.
    destruct r as [[]|e]; cbn; [|etrans; [apply delete_subseteq|done]].
    assert (d = ∅) as ->.
    { apply map_eq. intros n. rewrite lookup_empty. destruct (d !! n) as [x|] eqn:E; [|done].
      rewrite <- E. apply Hr, elem_of_keys. exists x. eapply lookup_weaken; [exact E|done]. }
    apply wp_write_new_marker; cbn.
    - intros e. by rewrite lookup_empty.
    - intros _. by rewrite insert_empty.
    - intros f3 e _. rewrite delete_empty. apply map_empty_subseteq.
    - intros f3 e any _ _. rewrite delete_insert_eq, delete_empty. apply map_empty_subseteq. }
  destruct (H env w I eq_refl) as (f & _ & Hpost). destruct (reset_runtime_to_setup location env w) as [[r|e] w'].
  - cbn in Hpost. rewrite Hpost. split; [done|]. reflexivity.
  - exact Hpost.
Qed.

(** ** A confirmed owner *)

(** Files that any command may touch: the stop, the activity of Remote Assist, the intent to
    pair, the markers of the firewall rule and the directory of the intelligence service. *)
Definition scratch : list string :=
  ["KILL"; REMOTE_ASSIST_ACTIVE_FILE; WORKER_PAIRING_INTENT_MARKER; FIREWALL_MARKER_FILE; FIREWALL_MARKER_V1; "intelligence"].
(** The markers that make a machine a confirmed owner. *)
Definition role_marks : list string := [OWNER_FABRIC_MARKER; OWNER_CONFIRMED_MARKER; SETUP_REQUIRED_MARKER].
(** The rest is as it was, but for what was touched besides. *)
Definition kept (touched : list string) (d : gmap string Entry) (s : Runtime.t) : Prop :=
  ∀ name, name ∉ scratch ++ touched → files s !! name = d !! name.
Definition confirmed_owner (d : gmap string Entry) : Prop :=
  is_file d OWNER_FABRIC_MARKER = true ∧ is_file d OWNER_CONFIRMED_MARKER = true ∧ is_file d SETUP_REQUIRED_MARKER = false.

(** A computation keeps an invariant where no look at a path fails. *)
Definition seen {A} (I : Runtime.t → Prop) (m : R A) (Q : A → Prop) : Prop :=
  ∀ env w, (∀ n, unseen env n = false) → I (state w) → I (state (m env w).2) ∧ ∀ a, (m env w).1 = Ok a → Q a.
Section seen.
Context {A : Type} (I : Runtime.t → Prop).
Lemma seen_holds (m : R A) Q : holds I m Q → seen I m Q.
Proof. intros Hm env w _. apply Hm. Qed.
Lemma seen_bind {B} (m : R A) (k : A → R B) (Q : A → Prop) (T : B → Prop) :
  seen I m Q → (∀ a, Q a → seen I (k a) T) → seen I (m ≫= k) T.
Proof.
  intros Hm Hk env w He Hw. unfold mbind, P_bind. destruct (Hm env w He Hw) as [H1 H2].
  destruct (m env w) as [[a|e] w1]; [|done]. apply Hk; [by apply H2|done|done].
Qed.
Lemma seen_weaken (m : R A) (Q T : A → Prop) : seen I m Q → (∀ a, Q a → T a) → seen I m T.
Proof. intros Hm HQT env w He Hw. destruct (Hm env w He Hw). eauto. Qed.
Lemma seen_outcome (m : R A) (Q : A → Prop) : seen I m Q → seen I (outcome m) (λ _, True).
Proof.
  intros Hm env w He Hw. unfold outcome. destruct (Hm env w He Hw) as [H1 _]. by destruct (m env w) as [r w1].
Qed.
Lemma seen_ret a (Q : A → Prop) : Q a → seen I (mret a) Q.
Proof. intros HQ. by apply seen_holds, holds_ret. Qed.
Lemma seen_raise e (Q : A → Prop) : seen I (raise e) Q.
Proof. apply seen_holds, holds_raise. Qed.
End seen.

Section confirmed.
Variable touched : list string.
Variable d : gmap string Entry.
Hypothesis unmarked : ∀ name, name ∈ role_marks → name ∉ touched.
Hypothesis confirmed : confirmed_owner d.
Abbreviation kept := (kept touched).

Lemma mark_kept s name : kept d s → name ∈ role_marks → files s !! name = d !! name.
Proof.
  intros Hs Hn. apply Hs. intros [Hin|Hin]%elem_of_app; [|by apply (unmarked name)].
  cbn in Hn, Hin. repeat (apply elem_of_cons in Hn as [->|Hn]; [set_solver|]). by apply not_elem_of_nil in Hn.
Qed.
Lemma kept_is_file s name : kept d s → name ∈ role_marks → is_file (files s) name = is_file d name.
Proof. intros Hs Hn. unfold is_file. by rewrite (mark_kept s). Qed.
Lemma kept_role s : kept d s → fabric_role_at (files s) = "owner".
Proof.
  intros Hs. destruct confirmed as (Ho & _ & Hn). unfold fabric_role_at, worker_enrollment_exists, setup_required.
  rewrite (kept_is_file s OWNER_FABRIC_MARKER), (kept_is_file s SETUP_REQUIRED_MARKER), Ho, Hn by (done || (cbn; set_solver)). done.
Qed.
(** What the looks show. *)
Lemma seen_file name : name ∈ role_marks → seen (kept d) (is_file_at name) (λ b, b = is_file d name).
Proof.
  intros Hn env w He Hw. unfold is_file_at, mbind, P_bind, draw. cbn. rewrite He. cbn. split; [done|].
  intros b [= <-]. by apply kept_is_file.
Qed.
Lemma seen_setup : seen (kept d) setup_required_at (λ b, b = false).
Proof. destruct confirmed as (_ & _ & Hn). rewrite <-Hn. apply seen_file. cbn. set_solver. Qed.
Lemma seen_worker : seen (kept d) worker_enrollment_exists_at (λ b, b = false).
Proof.
  unfold worker_enrollment_exists_at. eapply seen_bind; [apply seen_setup|intros ? ->].
  eapply seen_bind; [apply seen_file; cbn; set_solver|intros ? ->]. destruct confirmed as (-> & _). by apply seen_ret.
Qed.
Lemma seen_role : seen (kept d) role_at (λ r, r = "owner").
Proof.
  unfold role_at. eapply seen_bind; [apply seen_setup|intros ? ->]. eapply seen_bind; [apply seen_worker|intros ? ->].
  by apply seen_ret.
Qed.
Lemma seen_confirmed : seen (kept d) (is_file_at OWNER_CONFIRMED_MARKER) (λ b, b = true).
Proof. destruct confirmed as (_ & Hc & _). rewrite <-Hc. apply seen_file. cbn. set_solver. Qed.

Lemma holds_io : holds (kept d) io (λ _, True).
Proof. unfold io. hold; done. Qed.
Lemma holds_put name e : name ∈ scratch ++ touched → holds (kept d) (put name e) (λ _, True).
Proof. intros Hn. apply holds_change. intros s Hs n Hnot. cbn. rewrite lookup_insert_ne; [by apply Hs|]. by intros ->. Qed.
Lemma holds_drop name : name ∈ scratch ++ touched → holds (kept d) (drop name) (λ _, True).
Proof. intros Hn. apply holds_change. intros s Hs n Hnot. cbn. rewrite lookup_delete_ne; [by apply Hs|]. by intros ->. Qed.
Lemma holds_is_file name : holds (kept d) (is_file_at name) (λ _, True).
Proof. unfold is_file_at, files_of. hold; done. Qed.
Lemma holds_exists name : holds (kept d) (exists_at name) (λ _, True).
Proof. unfold exists_at, files_of. hold; done. Qed.
Lemma holds_files : holds (kept d) files_of (λ _, True).
Proof. eapply holds_any, holds_look. Qed.
#[local] Hint Resolve holds_files holds_io holds_put holds_drop holds_is_file holds_exists : holds.
#[local] Hint Extern 1 (_ ∈ scratch ++ touched) => (apply elem_of_app; left; cbn; set_solver) : holds.
Lemma holds_same f : (∀ s, files (f s) = files s) → holds (kept d) (change f) (λ _, True).
Proof. intros Hf. apply holds_change. intros s Hs n Hn. rewrite Hf. by apply Hs. Qed.
#[local] Hint Resolve holds_same : holds.
Lemma holds_remove_scratch name : name ∈ scratch ++ touched → holds (kept d) (remove_file name) (λ _, True).
Proof. intros Hn. unfold remove_file. hold; try done. Qed.
Lemma holds_create_scratch name bytes : name ∈ scratch ++ touched → holds (kept d) (create_new name bytes) (λ _, True).
Proof. intros Hn. unfold create_new. hold; try done. Qed.
Lemma holds_create_dir_all : holds (kept d) create_dir_all (λ _, True).
Proof. unfold create_dir_all. hold; try done. Qed.
#[local] Hint Resolve holds_remove_scratch holds_create_scratch holds_create_dir_all : holds.
Lemma holds_mark_scratch name bytes : name ∈ scratch ++ touched → holds (kept d) (write_new_marker name bytes) (λ _, True).
Proof. intros Hn. unfold write_new_marker. hold; try done. Qed.
Lemma holds_metadata name : holds (kept d) (symlink_metadata name) (λ _, True).
Proof. unfold symlink_metadata. hold; done. Qed.
#[local] Hint Resolve holds_metadata holds_mark_scratch : holds.
Lemma holds_read name limit label : holds (kept d) (read_bounded_regular_file name limit label) (λ _, True).
Proof. unfold read_bounded_regular_file, fails. hold; done. Qed.
#[local] Hint Resolve holds_read : holds.
(** A marker that is there stays as it is. *)
Lemma holds_marker name bytes : is_file d name = true → name ∈ role_marks → holds (kept d) (write_new_marker name bytes) (λ _, True).
Proof.
  intros Hfile Hn. unfold write_new_marker. eapply holds_bind; [apply holds_io|intros _ _].
  eapply holds_bind; [apply holds_look|]. intros e (s & Hs & ->). rewrite (mark_kept s) by done. unfold is_file in Hfile.
  destruct (d !! name) as [[]|]; try done; by apply holds_ret.
Qed.
Lemma holds_state : holds (kept d) (enrollment_file_state signing_key_of) (λ _, True).
Proof. unfold enrollment_file_state, setup_required_at, validate_owner_local_enrollment. hold; try done. Qed.
Lemma holds_kill children : holds (kept d) (kill_all children) (λ _, True).
Proof. induction children; cbn [kill_all]; hold; try done. Qed.
#[local] Hint Resolve holds_state holds_kill : holds.
Lemma holds_stop_all : holds (kept d) stop_all_sidecars (λ _, True).
Proof. unfold stop_all_sidecars. hold; try done. Qed.
Lemma holds_firewall : holds (kept d) (ensure_private_network_firewall windows install_dir) (λ _, True).
Proof. unfold ensure_private_network_firewall. destruct windows; [|by apply holds_ret]. cbn [negb]. hold; try done. Qed.
Lemma holds_intelligence : holds (kept d) create_intelligence_dir (λ _, True).
Proof. unfold create_intelligence_dir, fails. hold; try done. Qed.
Lemma holds_relay : holds (kept d) (configured_private_relay parse_url) (λ _, True).
Proof. unfold configured_private_relay. hold; try done. Qed.
#[local] Hint Resolve holds_stop_all holds_firewall holds_intelligence holds_relay : holds.

Ltac refused := apply (seen_raise _ _ (λ _, True)).
Ltac past H := eapply seen_bind; [apply H|intros ? ->; cbn].
Ltac pass := eapply seen_bind; [apply seen_holds; solve [apply holds_assert|apply (holds_ret _ _ (λ _, True)); done|eauto with holds]|intros ? _].
Lemma seen_repair : seen (kept d) (repair_connection signing_key_of) (λ _, True).
Proof. apply seen_holds. unfold repair_connection. hold; try done. Qed.
Lemma seen_leave confirmation : seen (kept d) (leave_fabric location confirmation) (λ _, True).
Proof. unfold leave_fabric. pass. past seen_role. refused. Qed.
Lemma seen_activate : seen (kept d) activate_owner_fabric (λ _, True).
Proof. unfold activate_owner_fabric. past seen_worker. pass. past seen_setup. by apply seen_ret. Qed.
Lemma seen_confirm : seen (kept d) confirm_owner_fabric (λ _, True).
Proof.
  unfold confirm_owner_fabric. past seen_role. eapply seen_bind; [apply seen_holds, holds_is_file|intros active _]. pass.
  apply seen_holds, holds_marker; [by destruct confirmed as (_ & ? & _)|cbn; set_solver].
Qed.
Lemma seen_local_stop : seen (kept d) local_stop (λ _, True).
Proof. apply seen_holds. unfold local_stop. hold; try done. Qed.
Lemma seen_set_remote_assist enabled : seen (kept d) (set_remote_assist_enabled windows enabled) (λ _, True).
Proof. unfold set_remote_assist_enabled. pass. past seen_worker. refused. Qed.
Lemma seen_unconfirmed : seen (kept d) leave_unconfirmed_ownership (λ _, False).
Proof. unfold leave_unconfirmed_ownership. past seen_role. past seen_confirmed. apply seen_raise. Qed.
Lemma seen_begin name : seen (kept d) (begin_pairing windows location install_dir name) (λ _, True).
Proof. unfold begin_pairing. eapply seen_bind; [apply seen_unconfirmed|done]. Qed.
Lemma seen_join invitation : seen (kept d) (join_remote windows location invitation) (λ _, True).
Proof. unfold join_remote. eapply seen_bind; [apply seen_unconfirmed|done]. Qed.
Lemma seen_cancel : seen (kept d) cancel_pairing (λ _, True).
Proof. apply seen_holds. unfold cancel_pairing. hold; try done. Qed.
Lemma seen_persist invitation : seen (kept d) (persist_remote_invite_at invitation) (λ _, True).
Proof.
  unfold persist_remote_invite_at. eapply seen_bind; [apply seen_holds, holds_obtain|intros parsed _]. pass. pass.
  past seen_setup. eapply seen_bind; [by apply (seen_ret _ false (λ b, b = false))|intros ? ->]. refused.
Qed.
Lemma seen_open bound name : seen (kept d) (open_pairing_window windows install_dir bound name) (λ _, True).
Proof.
  unfold open_pairing_window. past seen_role. apply seen_holds. eapply holds_bind; [apply holds_assert|intros _ _].
  eapply holds_bind; [apply holds_firewall|intros _ _]. eapply holds_bind; [apply holds_draw|intros now _].
  eapply holds_bind; [apply holds_draw|intros now' _]. eapply holds_bind; [apply holds_look|intros inner _].
  destruct (open_owner_window _ _ _ _ _) as [[r q] inner']. hold; try done.
Qed.
Lemma seen_approve send_ok id : seen (kept d) (approve_pairing send_ok id) (λ _, True).
Proof.
  unfold approve_pairing. past seen_role. apply seen_holds. eapply holds_bind; [apply holds_assert|intros _ _].
  eapply holds_bind; [apply holds_read|intros token _]. eapply holds_bind; [apply holds_assert|intros _ _].
  eapply holds_bind; [apply holds_draw|intros answer _]. eapply holds_bind; [apply holds_obtain|intros [status invitation] _].
  eapply holds_bind; [apply holds_assert|intros _ _]. eapply holds_bind; [apply holds_draw|intros now _].
  eapply holds_bind; [apply holds_draw|intros random _]. eapply holds_bind; [apply holds_look|intros inner _].
  destruct (approve _ _ _ _ _ _) as [[r inner'] sent]. hold; try done.
Qed.
(** The marker of the owner is among the files that a first start looks for. *)
Lemma seen_any_exists names :
  (∃ name, name ∈ names ∧ name ∈ role_marks ∧ is_file d name = true) → seen (kept d) (any_exists names) (λ b, b = true).
Proof.
  intros (name & Hin & Hn & Hfile). induction names as [|n names IH]; [by apply not_elem_of_nil in Hin|]. cbn [any_exists].
  apply elem_of_cons in Hin as [<-|Hin].
  - eapply (seen_bind _ _ _ (λ b, b = true)); [|intros ? ->; by apply seen_ret].
    intros env w He Hw. unfold exists_at, mbind, P_bind, draw. cbn. rewrite He. cbn. split; [done|]. intros b [= <-].
    unfold exists_, is_file in *. rewrite (mark_kept _ name Hw) by done. by destruct (d !! name) as [[bytes| |[[]|]|]|].
  - eapply seen_bind; [apply seen_holds, holds_exists|intros [] _]; [by apply seen_ret|by apply IH].
Qed.
Lemma seen_reject send_ok id : seen (kept d) (reject_pairing send_ok id) (λ _, True).
Proof.
  apply seen_holds. unfold reject_pairing. eapply holds_bind; [apply holds_look|intros inner _].
  destruct (reject _ _ _) as [[r inner'] sent]. hold; try done.
Qed.
Lemma seen_autostart enabled : seen (kept d) (platform_set_autostart enabled) (λ _, True).
Proof. apply seen_holds. unfold platform_set_autostart. hold; try done. Qed.
Lemma seen_benchmark bounded output : seen (kept d) (run_fabric_benchmark bounded output) (λ _, True).
Proof. unfold run_fabric_benchmark. past seen_role. apply seen_holds. hold; try done. Qed.
Lemma seen_others name entry :
  name ∈ touched → seen (kept d) (match entry with Some e => put name e | None => drop name end) (λ _, True).
Proof.
  intros Hn. apply seen_holds. destruct entry; [apply holds_put|apply holds_drop]; apply elem_of_app; by right.
Qed.
Lemma seen_launch bind : seen (kept d) (launch_fabric parse_url bind) (λ _, True).
Proof.
  unfold launch_fabric, ensure_neutral_first_run. pass.
  eapply (seen_bind _ _ _ (λ _, True)).
  - pass. eapply seen_bind; [apply seen_any_exists|intros ? ->; by apply seen_ret].
    exists OWNER_FABRIC_MARKER. destruct confirmed as (Ho & _). split_and!; [cbn; set_solver..|done].
  - intros _ _. past seen_setup. past seen_worker. apply seen_holds.
    eapply holds_bind; [apply holds_marker; [by destruct confirmed|cbn; set_solver]|intros _ _]. hold; try done.
Qed.
End confirmed.

(** The commands of the application that do more than report, all but the factory reset; the
    storing of an invitation at the end of a pairing; and the other writers of the directory, the
    services, the agent and the task that supervises it, which may do anything to any file. *)
Inductive Command :=
| RepairConnection
| LeaveFabric (confirmation : string)
| ActivateOwnerFabric
| ConfirmOwnerFabric
| LocalStop
| SetRemoteAssist (enabled : bool)
| BeginPairing (device_name : string)
| CancelPairing
| JoinRemote (invitation : string)
| PersistInvite (invitation : string)
| OpenPairingWindow (bound : result string ()) (owner_name : string)
| ApprovePairing (send_ok : nat → bool) (request_id : string)
| LaunchFabric (bind : option string)
| RejectPairing (send_ok : bool) (request_id : string)
| SetAutostart (enabled : bool)
| RunFabricBenchmark (bounded : string → string) (output : option (bool * string * string))
| Others (name : string) (entry : option Entry).
Definition perform (c : Command) : R () :=
  match c with
  | RepairConnection => _ ← repair_connection signing_key_of; mret ()
  | LeaveFabric confirmation => _ ← leave_fabric location confirmation; mret ()
  | ActivateOwnerFabric => _ ← activate_owner_fabric; mret ()
  | ConfirmOwnerFabric => confirm_owner_fabric
  | LocalStop => local_stop
  | SetRemoteAssist enabled => _ ← set_remote_assist_enabled windows enabled; mret ()
  | BeginPairing name => _ ← begin_pairing windows location install_dir name; mret ()
  | CancelPairing => cancel_pairing
  | JoinRemote invitation => _ ← join_remote windows location invitation; mret ()
  | PersistInvite invitation => persist_remote_invite_at invitation
  | OpenPairingWindow bound name => _ ← open_pairing_window windows install_dir bound name; mret ()
  | ApprovePairing send_ok id => _ ← approve_pairing send_ok id; mret ()
  | LaunchFabric bind => _ ← launch_fabric parse_url bind; mret ()
  | RejectPairing send_ok id => _ ← reject_pairing send_ok id; mret ()
  | SetAutostart enabled => platform_set_autostart enabled
  | RunFabricBenchmark bounded output => _ ← run_fabric_benchmark bounded output; mret ()
  | Others name entry => match entry with Some e => put name e | None => drop name end
  end.
Fixpoint perform_all (cs : list Command) : R () :=
  match cs with
  | [] => mret ()
  | c :: cs => _ ← outcome (perform c); perform_all cs
  end.
(** What the other writers touch. *)
Definition touched_by (cs : list Command) : list string :=
  omap (λ c, match c with Others name _ => Some name | _ => None end) cs.
Lemma seen_perform touched d c :
  (∀ name, name ∈ role_marks → name ∉ touched) → confirmed_owner d → (∀ name, name ∈ touched_by [c] → name ∈ touched) →
  seen (kept touched d) (perform c) (λ _, True).
Proof.
  intros Hmarks Hd Hc. destruct c; cbn [perform]; try (eapply seen_bind; [|intros ? _; by apply seen_ret]).
  all: first [by apply seen_repair|by apply seen_leave|by apply seen_activate|by apply seen_confirm|by apply seen_local_stop
             |by apply seen_set_remote_assist|by apply seen_begin|by apply seen_cancel|by apply seen_join
             |by apply seen_persist|by apply seen_open|by apply seen_approve|by apply seen_launch|by apply seen_reject
             |by apply seen_autostart|by apply seen_benchmark|apply seen_others, Hc; by left].
Qed.

Lemma seen_perform_all touched d cs :
  (∀ name, name ∈ role_marks → name ∉ touched) → confirmed_owner d → (∀ name, name ∈ touched_by cs → name ∈ touched) →
  seen (kept touched d) (perform_all cs) (λ _, True).
Proof.
  intros Hmarks Hd. induction cs as [|c cs IH]; intros Htouched; cbn [perform_all]; [by apply seen_ret|].
  assert (touched_by (c :: cs) = touched_by [c] ++ touched_by cs) as Happ by (unfold touched_by; cbn; by destruct c).
  setoid_rewrite Happ in Htouched. setoid_rewrite elem_of_app in Htouched.
  eapply seen_bind; [eapply seen_outcome, (seen_perform touched d c Hmarks Hd); auto|]. auto.
Qed.

End desktop.

(** ** Storing an invitation *)

Section invitation.
Context {codec : Codec}.
Abbreviation with_files := Runtime.set_files.

Definition all_regular (names : list string) (s : Runtime.t) : Prop :=
  ∀ name e, name ∈ names → files s !! name = Some e → ∃ bytes, e = File bytes.
Lemma fault_left f f' : after_fault f = Some f' → f ≠ Zero.
Proof. by intros H ->. Qed.
Lemma last_fault f f' : f ≠ Many → after_fault f = Some f' → f ≠ Zero ∧ f' = Zero.
Proof. destruct f; [done|by intros _ [= <-]..|done]. Qed.
Lemma last_look f f' : f ≠ Many → after_look f = Some f' → f = One ∧ f' = Zero.
Proof. destruct f; [done|by intros _ [= <-]|done..]. Qed.
(** What the removal of stale files leaves: the other files, and on success none of the named. *)
Definition cleaned (names : list string) (f : Faults) (s : Runtime.t) (f' : Faults) (r : result Trouble.t Z) (s' : Runtime.t) : Prop :=
  ∃ d, s' = with_files d s ∧ (∀ name, name ∉ names → d !! name = files s !! name) ∧
    (∀ name, d !! name = None ∨ d !! name = files s !! name) ∧
    match r with Ok _ => f' = f ∧ ∀ name, name ∈ names → d !! name = None | Err _ => f = Zero → ¬ all_regular names s end.
Lemma cleaned_failed names f s f' e : (f = Zero → ¬ all_regular names s) → cleaned names f s f' (Err e) s.
Proof. exists (files s). rewrite with_files_same. auto. Qed.
Lemma cleaned_cons name names f s d f' r s' :
  d !! name = None → (∀ m, m ≠ name → d !! m = files s !! m) →
  cleaned names f (with_files d s) f' r s' → cleaned (name :: names) f s f' r s'.
Proof.
  intros Hnone Hother (d' & -> & Hout & Hor & Hr). cbn in Hout, Hor. exists d'. split_and!.
  - by destruct s.
  - intros k [? ?]%not_elem_of_cons. by rewrite Hout, Hother.
  - intros k. destruct (Hor k) as [?|Hk]; [by left|]. destruct (decide (k = name)) as [->|]; [left; congruence|].
    right. by rewrite Hk, Hother.
  - destruct r as [n|err]; [|intros Hf Hall; apply Hr; [done|]; intros k e Hk He; cbn in He].
    + destruct Hr as [-> Hin]. split; [done|]. intros k [->|Hk]%elem_of_cons; [|by apply Hin]. destruct (Hor name); congruence.
    + apply (Hall k); [by right|]. destruct (decide (k = name)) as [->|]; [congruence|]. by rewrite <- Hother.
Qed.
Lemma wp_remove_stale names n f s : wp (remove_stale names n) (cleaned names f s) f s.
Proof.
  revert n s. induction names as [|name names IH]; intros n s; cbn [remove_stale].
  { step. exists (files s). rewrite with_files_same. split_and!; [done..|auto|done|by intros ? ?%not_elem_of_nil]. }
  step. apply wp_symlink_metadata; [|intros f' e Hf; apply cleaned_failed; by intros ->].
  assert (∀ e, files s !! name = Some e → (∀ bytes, e ≠ File bytes) → ¬ all_regular (name :: names) s) as Hodd.
  { intros e He Hno Hall. destruct (Hall name e) as [bytes ->]; [by left|done|by eapply Hno]. }
  destruct (files s !! name) as [[]|] eqn:E; try (step; apply cleaned_failed; intros _; by eapply Hodd).
  - step. apply wp_remove_file; [intros f' e Hf; apply cleaned_failed; by intros ->|]. rewrite E. eapply wp_weaken; [apply IH|]. intros f' r s'.
    apply cleaned_cons; [apply lookup_delete_eq|]. intros m Hm. by rewrite lookup_delete_ne.
  - eapply wp_weaken; [apply IH|]. intros f' r s' Hs. apply (cleaned_cons _ _ _ _ (files s)); [done..|by rewrite with_files_same].
Qed.
(** A look at the setup marker that fails skips the removal. *)
Lemma wp_remove_stale_in_setup f s :
  f ≠ Many → setup_required (files s) = true →
  wp remove_stale_worker_credentials_in_setup (λ f' r s',
    cleaned stale_credentials f s f' r s' ∨ f = One ∧ f' = Zero ∧ r = Ok 0 ∧ s' = s) f s.
Proof.
  unfold setup_required. intros Hmany Hsetup. unfold remove_stale_worker_credentials_in_setup, setup_required_at. repeat step.
  - rewrite Hsetup. eapply wp_weaken; [apply wp_remove_stale|]. by left.
  - cbn [negb]. step. right. by apply last_look in H as [-> ->].
Qed.

(** What is left of an attempt to store an invitation, at every point of it. *)
Definition unstored (old : option Entry) (d : gmap string Entry) : Prop :=
  fabric_role_at d = "setup" ∧ (d !! "remote-invite.json" = None ∨ d !! "remote-invite.json" = old).
Definition stored (invitation : string) (d : gmap string Entry) : Prop :=
  fabric_role_at d = "worker" ∧ d !! "remote-invite.json" = Some (File invitation) ∧ d !! WORKER_PAIRING_INTENT_MARKER = None.
(** The invitation is there, and the machine is still in setup. *)
Definition stranded (invitation : string) (d : gmap string Entry) : Prop :=
  fabric_role_at d = "setup" ∧ d !! "remote-invite.json" = Some (File invitation) ∧ d !! WORKER_PAIRING_INTENT_MARKER = None.
Lemma wp_write_invite temporary invitation f s :
  wp (write_invite temporary invitation) (λ f' r s', match r with
    | Ok _ => f' = f ∧ s' = with_files (<["remote-invite.json" := File invitation]> (files s)) s
    | Err _ => (f = Zero → files s !! temporary ≠ None) ∧
               ∃ d, s' = with_files d s ∧ ∀ name, name ≠ temporary → d !! name = files s !! name
    end) f s.
Proof.
  assert (∀ f', after_fault f = Some f' → f = Zero → files s !! temporary ≠ None) as Hf
    by (intros f' H ->; by apply fault_left in H).
  unfold write_invite. step. apply wp_io; [|intros; split; [by eapply Hf|]; exists (files s); by rewrite with_files_same].
  step. step. destruct (files s !! temporary) eqn:E; [step; split; [done|]; exists (files s); by rewrite with_files_same|].
  assert (∀ any name, name ≠ temporary → <[temporary := any]> (files s) !! name = files s !! name) as Hother
    by (intros; by rewrite lookup_insert_ne).
  step. apply wp_create_new; [|intros; split; [by eapply Hf|]; by eexists; split; [reflexivity|apply Hother]].
  repeat step; [|split; [by eapply Hf|]; by eexists; split; [reflexivity|apply Hother]]. split; [done|]. cbn.
  rewrite delete_insert_id by done. by destruct s.
Qed.
Lemma temporary_is_new token name :
  name ∈ ["remote-invite.json"; SETUP_REQUIRED_MARKER; OWNER_FABRIC_MARKER; WORKER_PAIRING_INTENT_MARKER] →
  name ≠ "remote-invite." +:+ token +:+ ".tmp".
Proof.
  intros Hname. repeat (apply elem_of_cons in Hname as [->|Hname]); [| | | |by apply not_elem_of_nil in Hname]; try done.
  intros H. change ("remote-invite." +:+ "json" = "remote-invite." +:+ (token +:+ ".tmp")) in H. apply (inj _) in H.
  destruct token as [|a token]; [done|]. apply (f_equal String.length) in H. cbn in H. rewrite length_append_string in H.
  cbn in H. lia.
Qed.
Lemma role_setup d : is_file d SETUP_REQUIRED_MARKER = true → fabric_role_at d = "setup".
Proof. intros H. unfold fabric_role_at, setup_required. by rewrite H. Qed.
(** The last part: the invitation is there, the machine leaves setup. *)
Lemma is_file_lookup d name : is_file d name = true → ∃ e, d !! name = Some e ∧ e ≠ Directory.
Proof. unfold is_file. intros H. destruct (d !! name) as [e|]; [|done]. exists e. split; [done|]. by destruct e. Qed.
Lemma wp_remove_there name (Q : post bool) f s :
  is_file (files s) name = true → (∀ f' e, after_fault f = Some f' → Q f' (Err e) s) →
  Q f (Ok true) (with_files (delete name (files s)) s) → wp (remove_file name) Q f s.
Proof.
  intros (e & He & Hdir)%is_file_lookup Herr Hok. apply wp_remove_file; [done|]. rewrite He. by destruct e.
Qed.
(** The mark of the intended pairing goes last. *)
Definition commit_pairing : R () :=
  removed ← outcome (remove_file WORKER_PAIRING_INTENT_MARKER);
  match removed with
  | Ok true => mret ()
  | _ =>
      _ ← outcome (remove_file "remote-invite.json");
      _ ← outcome (write_new_marker SETUP_REQUIRED_MARKER (line "rampage.setup-required.v1"));
      fails "could not commit the protected pairing transaction"
  end.
(** Leaving setup once the invitation is there: the machine is a worker, or it is in setup again;
    or the setup marker is not found, and stays. *)
Definition leave_setup : R () :=
  marked ← is_file_at SETUP_REQUIRED_MARKER;
  left_setup ← (if (marked : bool) then outcome (remove_file SETUP_REQUIRED_MARKER) else mret (Ok true));
  _ ← match left_setup with
      | Ok true => mret ()
      | _ => _ ← outcome (remove_file "remote-invite.json"); fails "could not leave setup mode after enrollment"
      end;
  commit_pairing.
Lemma wp_commit_pairing invitation old f s :
  f ≠ Many →
  files s !! "remote-invite.json" = Some (File invitation) → is_file (files s) SETUP_REQUIRED_MARKER = false →
  is_file (files s) WORKER_PAIRING_INTENT_MARKER = true → is_file (files s) OWNER_FABRIC_MARKER = false →
  files s !! SETUP_REQUIRED_MARKER = None →
  wp commit_pairing (λ _ r s', match r with
    | Ok _ => stored invitation (files s') ∧ Runtime.root s' = Runtime.root s
    | Err _ => f ≠ Zero ∧ unstored old (files s') end) f s.
Proof.
  intros Hmany Hinvite Hsetup Hintent Howner Hgone. unfold commit_pairing. repeat step. apply wp_remove_there; [done| |].
  - intros f' e [Hf ->]%last_fault; [|done]. repeat step. apply wp_remove_there; [by unfold is_file; rewrite Hinvite|done|].
    repeat step. apply wp_write_new_marker; cbn; try done.
    + intros any. by rewrite lookup_delete_ne, Hgone.
    + intros _. step. cbn. split; [done|]. split; [apply role_setup; unfold is_file; by rewrite lookup_insert_eq|left].
      by rewrite lookup_insert_ne, lookup_delete_eq.
  - step. cbn. split; [|done]. split_and!; [|by rewrite lookup_delete_ne|apply lookup_delete_eq].
    unfold fabric_role_at, setup_required, worker_enrollment_exists, is_file in *.
    rewrite !lookup_delete_ne, Hinvite by done. by rewrite Hsetup, Howner.
Qed.
Lemma wp_leave_setup invitation old f s :
  f ≠ Many →
  files s !! "remote-invite.json" = Some (File invitation) → is_file (files s) SETUP_REQUIRED_MARKER = true →
  is_file (files s) WORKER_PAIRING_INTENT_MARKER = true → is_file (files s) OWNER_FABRIC_MARKER = false →
  wp leave_setup (λ _ r s', match r with
    | Ok _ => (stored invitation (files s') ∨ f = One ∧ stranded invitation (files s')) ∧ Runtime.root s' = Runtime.root s
    | Err _ => f ≠ Zero ∧ unstored old (files s') end) f s.
Proof.
  intros Hmany Hinvite Hsetup Hintent Howner. unfold leave_setup. step. step.
  - rewrite Hsetup. repeat step. apply wp_remove_there; [done| |].
    + intros f' e [Hf ->]%last_fault; [|done]. repeat step. apply wp_remove_there; [by unfold is_file; rewrite Hinvite|done|].
      repeat step. cbn. split; [done|]. split; [|left; apply lookup_delete_eq]. apply role_setup. unfold is_file in *.
      by rewrite lookup_delete_ne.
    + do 2 step. eapply wp_weaken; [apply (wp_commit_pairing invitation old f); cbn; try done|].
      * by rewrite lookup_delete_ne.
      * unfold is_file. by rewrite lookup_delete_eq.
      * unfold is_file in *. by rewrite lookup_delete_ne.
      * unfold is_file in *. by rewrite lookup_delete_ne.
      * apply lookup_delete_eq.
      * cbv beta. cbn. intros f' [] s' [Hs' Hr]; auto.
  - apply last_look in H as [-> ->]; [|done]. do 3 step. unfold commit_pairing. repeat step. apply wp_remove_there; [done..|].
    step. cbn. split; [right; split; [done|]|done]. split_and!; [|by rewrite lookup_delete_ne|apply lookup_delete_eq].
    apply role_setup. unfold is_file in *. by rewrite lookup_delete_ne.
Qed.
(** What a machine in setup must have for the invitation to be stored when nothing fails. *)
Definition ready (invitation : string) (s : Runtime.t) : Prop :=
  is_some_and invite_is_signed (json_from_str invitation) = true ∧ Runtime.root s ≠ NotDirectory ∧
  is_file (files s) WORKER_PAIRING_INTENT_MARKER = true ∧ all_regular stale_credentials s ∧
  ∀ token, files s !! ("remote-invite." +:+ token +:+ ".tmp") = None.
Definition attempted (invitation : string) (f : Faults) (s : Runtime.t) (r : result Trouble.t ()) (s' : Runtime.t) : Prop :=
  match r with
  | Ok _ => (stored invitation (files s') ∨ f = One ∧ stranded invitation (files s')) ∧ Runtime.root s' ≠ NotDirectory
  | Err _ => (f = Zero → ¬ ready invitation s) ∧ unstored (files s !! "remote-invite.json") (files s')
  end.
#[local] Arguments attempted : simpl never.
Lemma temporary_not_stale token : "remote-invite." +:+ token +:+ ".tmp" ∉ stale_credentials.
Proof.
  pose proof (temporary_is_new token "remote-invite.json" ltac:(cbn; set_solver)).
  intros Hin. repeat (apply elem_of_cons in Hin as [Hin|Hin]; [done|]). by apply not_elem_of_nil in Hin.
Qed.
(** The invitation is written under another name first; when that fails, the rest is as it was. *)
Definition store_invite (invitation : string) : R () :=
  token ← draw secret;
  let temporary := "remote-invite." +:+ (split_at 16 (hex_encode token)).1 +:+ ".tmp" in
  written ← outcome (write_invite temporary invitation);
  _ ← match written with
      | Ok _ => mret ()
      | Err e => _ ← outcome (remove_file temporary); raise e
      end;
  leave_setup.
Lemma wp_store_invite invitation f s :
  f ≠ Many → is_file (files s) SETUP_REQUIRED_MARKER = true → is_file (files s) WORKER_PAIRING_INTENT_MARKER = true →
  is_file (files s) OWNER_FABRIC_MARKER = false →
  wp (store_invite invitation) (λ _ r s', match r with
    | Ok _ => (stored invitation (files s') ∨ f = One ∧ stranded invitation (files s')) ∧ Runtime.root s' = Runtime.root s
    | Err _ => (f = Zero → ∃ token, files s !! ("remote-invite." +:+ token +:+ ".tmp") ≠ None) ∧
               unstored (files s !! "remote-invite.json") (files s') end) f s.
Proof.
  intros Hmany Hsetup Hintent Howner. unfold store_invite. step. step. rename a into token. set (temporary := "remote-invite." +:+ _ +:+ ".tmp").
  pose proof (temporary_is_new (split_at 16 (hex_encode token)).1) as Hnew. fold temporary in Hnew.
  repeat step. eapply wp_weaken; [apply wp_write_invite|]. intros f' r s' Hr. cbv beta in Hr. destruct r as [[]|e].
  - destruct Hr as [-> ->]. do 2 step. eapply wp_weaken; [apply (wp_leave_setup invitation (files s !! "remote-invite.json") f)|].
    1: done.
    1: apply lookup_insert_eq.
    1-3: cbn; unfold is_file in *; by rewrite lookup_insert_ne.
    cbn. intros f'' [] s' [Hr Hr']; [by split|]. by split; [intros ->|].
  - destruct Hr as (Hthere & d & -> & Hd). repeat step. cbn in Hd.
    assert (∀ s', (∀ name, name ≠ temporary → files s' !! name = d !! name) →
      (f = Zero → ∃ token, files s !! ("remote-invite." +:+ token +:+ ".tmp") ≠ None) ∧
      unstored (files s !! "remote-invite.json") (files s')) as Hx.
    { intros s' Hx. split; [intros Hf; eexists; by apply Hthere|].
      split; [|right; by rewrite Hx, Hd by (apply Hnew; cbn; set_solver)].
      apply role_setup. unfold is_file. rewrite Hx, Hd; [done|..]; apply Hnew; cbn; set_solver. }
    apply wp_remove_file; [intros f'' e' _; step; by apply Hx|]. cbn.
    destruct (d !! temporary) as [[]|]; intros; step; apply Hx; try done; intros name Hname; cbn; by rewrite lookup_delete_ne.
Qed.
(** What comes before, once the machine is known to be in setup. *)
Definition store_new (invitation : string) : R () :=
  invited ← exists_at "remote-invite.json";
  enrolled ← (if (invited : bool) then mret true else exists_at "agent.controller-pin.json");
  _ ← assert_ (negb enrolled)
        "this machine is already enrolled; remove it from the current fabric before enrolling again";
  store_invite invitation.
Lemma wp_store_new invitation f s (Q : post ()) :
  f ≠ Many →
  (∀ f' e, exists_ (files s) "remote-invite.json" || exists_ (files s) "agent.controller-pin.json" = true → Q f' (Err e) s) →
  (∀ f', f' = f ∨ f = One ∧ f' = Zero → wp (store_invite invitation) Q f' s) → wp (store_new invitation) Q f s.
Proof.
  intros Hmany Herr Hok. unfold store_new. step. step.
  - destruct (exists_ (files s) "remote-invite.json") eqn:Hinvite; [do 4 step; by apply Herr|]. step. step.
    + do 2 step. destruct (exists_ (files s) "agent.controller-pin.json") eqn:Hpin; [by apply Herr|]. cbn [negb]. auto.
    + apply last_look in H as [-> ->]; [|done]. do 2 step. cbn [negb]. auto.
  - apply last_look in H as [-> ->]; [|done]. step. step; [|done]. do 2 step.
    destruct (exists_ (files s) "agent.controller-pin.json") eqn:Hpin; [|cbn [negb]; auto]. cbn [negb].
    apply Herr. by rewrite orb_true_r.
Qed.
Lemma wp_persist_in_setup invitation f s :
  f ≠ Many → is_file (files s) SETUP_REQUIRED_MARKER = true → is_file (files s) WORKER_PAIRING_INTENT_MARKER = true →
  is_file (files s) OWNER_FABRIC_MARKER = false →
  wp (_ ← remove_stale_worker_credentials_in_setup; store_new invitation) (λ _ r s', match r with
    | Ok _ => (stored invitation (files s') ∨ f = One ∧ stranded invitation (files s')) ∧ Runtime.root s' = Runtime.root s
    | Err _ => (f = Zero → ¬ all_regular stale_credentials s ∨
                  ∃ token, files s !! ("remote-invite." +:+ token +:+ ".tmp") ≠ None) ∧
               unstored (files s !! "remote-invite.json") (files s') end) f s.
Proof.
  intros Hmany Hsetup Hintent Howner. eapply wp_seq, wp_weaken; [by apply wp_remove_stale_in_setup|].
  intros f' r s' [(d & -> & Hother & Hor & Hr)|(-> & -> & -> & ->)].
  - assert (unstored (files s !! "remote-invite.json") d) as Hd.
    { split; [|apply Hor]. apply role_setup. unfold is_file. rewrite Hother; [done|cbn; set_solver]. }
    destruct r as [n|e]; [|by split; [left; apply Hr|]]. destruct Hr as [-> Hnone]. apply wp_store_new; [done|..].
    { cbn. unfold exists_. by rewrite !Hnone by (cbn; set_solver). }
    intros f' Hf'. assert (f' ≠ Many) as Hm by (by destruct Hf' as [->|[_ ->]]).
    eapply wp_weaken; [apply wp_store_invite; [done|..]|]; cbn.
    1-3: unfold is_file; rewrite Hother by (cbn; set_solver); done.
    cbv beta. intros f'' [] s' [Hs' Hr]; cbn in Hs', Hr.
    + split; [|done]. destruct Hs' as [?|[-> ?]]; [by left|right]. by destruct Hf' as [->|[_ ?]].
    + rewrite (Hnone "remote-invite.json") in Hr by (cbn; set_solver). split; [|split; [|left]; by destruct Hr as [? []]].
      intros ->. right. destruct Hf' as [->|[? _]]; [|done].
      destruct Hs' as [token Ht]; [done|]. exists token. by rewrite Hother in Ht by apply temporary_not_stale.
  - apply wp_store_new; [done|intros; split; [done|]; split; [by apply role_setup|by right]|].
    intros f' Hf'. assert (f' = Zero) as -> by (by destruct Hf' as [->|[? _]]).
    eapply wp_weaken; [by apply wp_store_invite|]. cbv beta. intros f'' [] s' [Hs' Hr]; [|by split].
    split; [|done]. by destruct Hs' as [?|[? _]]; [left|].
Qed.
Lemma wp_persist invitation f s :
  f ≠ Many → fabric_role_at (files s) = "setup" → is_file (files s) OWNER_FABRIC_MARKER = false →
  wp (persist_remote_invite_at invitation) (λ _, attempted invitation f s) f s.
Proof.
  intros Hmany Hrole Howner. assert (unstored (files s !! "remote-invite.json") (files s)) as Hsame by (split; [done|by right]).
  assert (∀ e s', (f = Zero → ¬ ready invitation s) → unstored (files s !! "remote-invite.json") (files s') →
            attempted invitation f s (Err e) s') as Hfail by done.
  unfold persist_remote_invite_at. step. step.
  destruct (json_from_str invitation) as [parsed|] eqn:Hjson; [|apply Hfail; [|done]; intros _ (H & _); by rewrite Hjson in H].
  repeat step. destruct (invite_is_signed parsed) eqn:Hsigned;
    [|apply Hfail; [|done]; intros _ (H & _); rewrite Hjson in H; cbn in H; congruence].
  step. apply wp_create_dir_all; [|intros f' e Hroot; apply Hfail; [|done]; intros Hf (_ & H & _); by apply H, Hroot].
  intros root Hroot. unfold setup_required_at.
  assert (is_file (files s) SETUP_REQUIRED_MARKER = true) as Hsetup.
  { unfold fabric_role_at, setup_required in Hrole. by destruct (is_file _ SETUP_REQUIRED_MARKER); [|destruct (worker_enrollment_exists _)]. }
  step. step; [|apply last_look in H as [-> ->]; [|done]; do 4 step; by apply Hfail].
  cbn. rewrite Hsetup. step. step; [|apply last_look in H as [-> ->]; [|done]; do 2 step; by apply Hfail].
  cbn. do 2 step. destruct (is_file (files s) WORKER_PAIRING_INTENT_MARKER) eqn:Hintent;
    [|apply Hfail; [|done]; intros _ (_ & _ & H & _); congruence].
  eapply wp_weaken; [apply (wp_persist_in_setup invitation f); done|]. cbv beta. intros f' [] s' [Hs' Hr].
  - split; [done|]. by rewrite Hr.
  - apply Hfail; [|done]. intros Hf (_ & _ & _ & Hall & Hnew). destruct (Hs' Hf) as [H|[token Ht]]; [by apply H|by apply Ht, Hnew].
Qed.

(** [C30] An invitation is stored completely or not at all.  On a machine in setup that carries no
    mark of an owner, with at most one call of the operating system that fails, the looks of
    [Path::is_file] and [Path::exists] included: an attempt that fails leaves the machine in setup,
    with no invitation or the one it had; one that succeeds leaves a worker with exactly this
    invitation and no mark of the pairing, except that when it was a look at a path that failed it
    may leave the invitation on a machine that is still in setup. *)
Theorem invitation_stored_or_not invitation env w :
  fabric_role_at (files (state w)) = "setup" → is_file (files (state w)) OWNER_FABRIC_MARKER = false →
  (∃ k, ∀ m, (draws w ≤ m)%nat → sight env m = true ∨ unseen env m = true → m = k) →
  let '(r, w') := persist_remote_invite_at invitation env w in
  match r with
  | Ok _ => stored invitation (files (state w')) ∨
            stranded invitation (files (state w')) ∧ ∃ m, (draws w ≤ m)%nat ∧ unseen env m = true
  | Err _ => unstored (files (state w) !! "remote-invite.json") (files (state w'))
  end.
Proof.
  intros Hrole Howner Hone. destruct (look_or_call env (draws w) Hone) as [Hlook|Hcall].
  - destruct (wp_persist invitation One (state w) ltac:(done) Hrole Howner env w Hone eq_refl) as (f & _ & Hpost).
    destruct (persist_remote_invite_at invitation env w) as [[[]|e] w']; [|by destruct Hpost].
    destruct Hpost as [[?|[_ ?]] _]; [by left|by right].
  - destruct (wp_persist invitation OneCall (state w) ltac:(done) Hrole Howner env w Hcall eq_refl) as (f & _ & Hpost).
    destruct (persist_remote_invite_at invitation env w) as [[[]|e] w']; [|by destruct Hpost].
    destruct Hpost as [[?|[? _]] _]; [by left|done].
Qed.
End invitation.

(** ** From the approval to the worker *)

Section joining.
Context {codec : Codec} {base64 : Base64} {pairing_crypto : PairingCrypto} {wire_datagram : Wire PairingDatagram.t}.
Context (parse_url : string → option Url.t) {laws : PairingLaws}.

(** When no look fails, the looks show the role that the files give. *)
Lemma wp_any_exists names (Q : post bool) s :
  Q Zero (Ok (existsb (exists_ (files s)) names)) s → wp (any_exists names) Q Zero s.
Proof.
  revert Q. induction names as [|name names IH]; intros Q HQ; cbn [any_exists]; [by step|]. step. step; [|done].
  cbn in HQ. destruct (exists_ (files s) name); [by step|by apply IH].
Qed.
Lemma wp_worker_exists (Q : post bool) s :
  Q Zero (Ok (worker_enrollment_exists (files s))) s → wp worker_enrollment_exists_at Q Zero s.
Proof.
  unfold worker_enrollment_exists. intros HQ. unfold worker_enrollment_exists_at. step. step; [|done].
  destruct (is_file (files s) SETUP_REQUIRED_MARKER); [by step|]. step. step; [|done].
  destruct (is_file (files s) OWNER_FABRIC_MARKER); [by step|]. step. step; [|done].
  destruct (is_file (files s) "remote-invite.json"); [by step|by step].
Qed.
Lemma wp_launch_stored bind invitation s :
  stored invitation (files s) → Runtime.root s ≠ NotDirectory →
  wp (launch_fabric parse_url bind) (λ _ r s', r = Ok Worker ∧ files s' = files s) Zero s.
Proof.
  intros (Hrole & Hinvite & _) Hroot. unfold launch_fabric. step. apply wp_create_dir_all; [|intros f e H; by destruct (Hroot (H eq_refl))].
  intros root Hroot'. unfold ensure_neutral_first_run. do 2 step. apply wp_create_dir_all; [|intros f e H; by destruct (Hroot' (H eq_refl))].
  intros root2 _. step. apply wp_any_exists. cbn [Runtime.files Runtime.set_root]. destruct (existsb _ _) eqn:Hexists; cycle 1.
  { eapply existsb_none in Hexists; [|do 2 right; left]. unfold exists_ in Hexists. by rewrite Hinvite in Hexists. }
  do 2 step. unfold setup_required_at. step; [|done]. cbn. unfold fabric_role_at, setup_required in Hrole.
  destruct (is_file _ SETUP_REQUIRED_MARKER); [done|]. step. apply wp_worker_exists. cbn.
  destruct (worker_enrollment_exists _); [|done]. by step.
Qed.
Definition persist_invite (env : Surroundings) (invitation : string) (w : World Runtime.t) : result string () * World Runtime.t :=
  let '(r, w) := persist_remote_invite_at invitation env w in (map_err text_of r, w).
Lemma persists env invitation w :
  fabric_role_at (files (state w)) = "setup" → is_file (files (state w)) OWNER_FABRIC_MARKER = false →
  ready invitation (state w) → (∀ m, sight env m = false ∧ unseen env m = false) →
  ∃ w', persist_invite env invitation w = (Ok (), w') ∧ stored invitation (files (state w')) ∧
    ∀ bind, (launch_fabric parse_url bind env w').1 = Ok Worker.
Proof.
  intros Hrole Howner Hready Hnone.
  destruct (wp_persist invitation Zero (state w) ltac:(done) Hrole Howner env w (λ m _, Hnone m) eq_refl) as (f & _ & Hpost).
  unfold persist_invite. destruct (persist_remote_invite_at invitation env w) as [[[]|e] w']; [|by destruct Hpost as [H _]; destruct H].
  destruct Hpost as [[Hstored|[? _]] Hroot]; [|done]. cbn in Hstored, Hroot. exists w'. split_and!; [done..|]. intros bind.
  by destruct (wp_launch_stored bind invitation (state w') Hstored Hroot env w' (λ m _, Hnone m) eq_refl) as (f' & _ & -> & _).
Qed.

End joining.

(** ** The processes of an owner *)

(** What follows the list of children, and whether it is the list after a launch. *)
Definition service_lists (controller relay intelligence : Z) : list (list Z) :=
  [[]; [controller]; [controller; relay]; [controller; intelligence]; [controller; relay; intelligence]].
Lemma wp_start_sidecar pid (Q : post ()) f s :
  Q f (Ok ()) (Runtime.set_sidecars (Runtime.sidecars s ++ [pid]) s) → (∀ f e, Q f (Err e) s) → wp (start_sidecar pid) Q f s.
Proof. intros Hok Herr. unfold start_sidecar. repeat step; auto. Qed.
Lemma wp_await_token looks appears (Q : post ()) f s :
  (∀ f' s', Runtime.sidecars s' = Runtime.sidecars s → Q f' (Ok ()) s') → wp (await_token looks appears) Q f s.
Proof.
  revert f s. induction looks as [|looks IH]; intros f s HQ; cbn [await_token]; [step; by apply HQ|]. step. step.
  1: destruct (is_file _ _); [step; by apply HQ|].
  all: step; destruct (appears looks); step; by apply IH.
Qed.
Lemma wp_read_bounded name limit label (Q : post string) f s :
  (∀ f r, Q f r s) → wp (read_bounded_regular_file name limit label) Q f s.
Proof.
  intros HQ. unfold read_bounded_regular_file, symlink_metadata. repeat step; auto.
  destruct (files s !! name) as [[bytes| |target|]|]; repeat step; auto. destruct (_ <=? _); repeat step; auto.
Qed.
(** Whatever fails, the processes a launch has started are listed, so that they are stopped with
    the application; and a launch that succeeds has started the controller, the relay if it is
    configured, and the intelligence service, and holds a token that is not blank. *)
Theorem started_is_listed controller relay intelligence appears env w r w' :
  launch_services controller relay intelligence appears env w = (r, w') →
  ∃ l, l ∈ service_lists controller relay intelligence ∧ Runtime.sidecars (state w') = Runtime.sidecars (state w) ++ l ∧
    ∀ token, r = Ok token → token ≠ "" ∧ last l = Some intelligence ∧ head l = Some controller.
Proof.
  intros H.
  assert (wp (launch_services controller relay intelligence appears) (λ _ r s',
    ∃ l, l ∈ service_lists controller relay intelligence ∧ Runtime.sidecars s' = Runtime.sidecars (state w) ++ l ∧
      ∀ token, r = Ok token → token ≠ "" ∧ last l = Some intelligence ∧ head l = Some controller) Many (state w)) as Hwp.
  { assert (∀ l (s : Runtime.t) e, l ∈ service_lists controller relay intelligence → Runtime.sidecars s = Runtime.sidecars (state w) ++ l →
      ∃ l, l ∈ service_lists controller relay intelligence ∧ Runtime.sidecars s = Runtime.sidecars (state w) ++ l ∧
        ∀ token : string, @Err Trouble.t string e = Ok token → token ≠ "" ∧ last l = Some intelligence ∧ head l = Some controller) as Hfail
      by (intros l s e Hl Hs; exists l; by split_and!).
    unfold launch_services, launch_owner_relay_if_configured. step.
    apply wp_start_sidecar; [|intros f e; apply (Hfail []); [set_solver|by rewrite app_nil_r]].
    step. apply wp_await_token. intros f1 s1 Hs1. cbn in Hs1.
    step. apply wp_read_bounded. intros f [bytes|e]; [|apply (Hfail [controller]); [set_solver|done]].
    step. step. destruct (is_utf8 bytes); [|apply (Hfail [controller]); [set_solver|done]].
    step. step. destruct (is_empty (trim bytes)) eqn:Hblank; [apply (Hfail [controller]); [set_solver|done]|]. cbn [negb].
    assert (trim bytes ≠ "") as Hne by (by intros E; rewrite E in Hblank).
    assert (∀ f' l s2, l ∈ [[controller]; [controller; relay]] → Runtime.sidecars s2 = Runtime.sidecars (state w) ++ l →
      wp (_ ← start_sidecar intelligence; mret (trim bytes)) (λ _ r s', ∃ l, l ∈ service_lists controller relay intelligence ∧
        Runtime.sidecars s' = Runtime.sidecars (state w) ++ l ∧
        ∀ token, r = Ok token → token ≠ "" ∧ last l = Some intelligence ∧ head l = Some controller) f' s2) as Hlast.
    { intros f2 l s2 Hl Hs2. step. apply wp_start_sidecar; [|intros f' e; apply (Hfail l); [set_solver|done]].
      step. exists (l ++ [intelligence]). cbn. rewrite Hs2, <-(assoc (++)). split_and!; [set_solver|done|].
      intros token [= <-]. split_and!; [done|by rewrite last_snoc|]. set_unfold in Hl. by destruct Hl as [->|[->|[]]]. }
    step. step. step; [|cbn [negb]; step; by apply (Hlast _ [controller]); [set_solver|]].
    destruct (negb _); [step; by apply (Hlast _ [controller]); [set_solver|]|].
    apply wp_start_sidecar; [|intros f' e; apply (Hfail [controller]); [set_solver|done]].
    apply (Hlast _ [controller; relay]); [set_solver|]. cbn. by rewrite Hs1, <-(assoc (++)). }
  destruct (Hwp env w I eq_refl) as (_ & _ & Hpost). by rewrite H in Hpost.
Qed.

Module Laptop.
Import ReferenceCrypto Neighbours.
(** A directory is read from its last entry. *)
#[local] Instance reading : HashOrder := {| hash_order A l := reverse l; hash_order_perm A l := reverse_Permutation l |}.
#[local] Existing Instances text_codec wire base64 crypto laws.
#[local] Instance wire_pin : Wire RecoveryControllerPinDisk.t := {| to_value _ := VNull; from_value _ := None |}.
#[local] Instance wire_policy : Wire RemoteAssistPolicyDisk.t := {| to_value _ := VNull; from_value _ := None |}.
#[local] Instance wire_active : Wire RemoteAssistActiveDisk.t := {| to_value _ := VNull; from_value _ := None |}.

(** The calls of the operating system for which [fails] holds fail, and the looks at a path for
    which [looks] holds. *)
Definition surroundings (fails looks : nat → bool) : Surroundings :=
  mkSurroundings (λ _, seconds 5) (λ _, 5) (λ _, fit 32 "secret") (λ _, mkAddress "" [] [])
    (λ _, None) (λ _, Elapsed) (λ _, 0) (λ _, Completed ()) (λ _, WorkerFacts.Witness.env (seconds 1)) (λ _, 0) fails (λ _, None) looks.
Definition calm : Surroundings := surroundings (λ _, false) (λ _, false).
Definition once (n : nat) : Surroundings := surroundings (λ m, bool_decide (m = n)) (λ _, false).
Definition blind (n : nat) : Surroundings := surroundings (λ _, false) (λ m, bool_decide (m = n)).
Definition url (_ : string) : option Url.t := None.
Definition key_of (bytes : string) : @SigningKey reference_crypto := bytes.
Definition place : Location := mkLocation true (Some "runtime") (Some "ai.obtuse.rampage").
Definition machine (files : list (string * Entry)) : World Runtime.t :=
  mkWorld 0 [] (Runtime.mk RealDirectory (list_to_map files) [7] true PairingInner.default).
Definition marker : Entry := File "marker".

Definition joining : World Runtime.t :=
  machine [(SETUP_REQUIRED_MARKER, marker); (WORKER_PAIRING_INTENT_MARKER, File INTENT); ("agent.key", File "old")].
Definition owning : World Runtime.t :=
  machine [(OWNER_FABRIC_MARKER, marker); (OWNER_CONFIRMED_MARKER, marker); ("governor.key", File "key")].
Definition serving : World Runtime.t := machine [("remote-invite.json", File invitation); ("agent.key", File "key")].

Lemma one_fault n : ∃ k, ∀ m, (0 ≤ m)%nat → sight (blind n) m = true ∨ unseen (blind n) m = true → m = k.
Proof. exists n. intros m _ [H|H]; [done|]. by apply bool_decide_eq_true in H. Qed.
Lemma joining_files name : files (state joining) !! name =
  if bool_decide (name = SETUP_REQUIRED_MARKER) then Some marker
  else if bool_decide (name = WORKER_PAIRING_INTENT_MARKER) then Some (File INTENT)
  else if bool_decide (name = "agent.key") then Some (File "old") else None.
Proof.
  unfold joining, machine. cbn [state Runtime.files list_to_map foldr].
  repeat (case_bool_decide; [subst; vm_compute; reflexivity|]). cbn [fst snd]. rewrite !lookup_insert_ne by congruence.
  apply lookup_empty.
Qed.
Lemma joining_ready : ready invitation (state joining).
Proof.
  split_and!; [vm_compute; reflexivity|done|vm_compute; reflexivity|..].
  - intros name e _. rewrite joining_files. repeat case_bool_decide; intros [= <-]; eauto.
  - intros token. rewrite joining_files. by rewrite !bool_decide_false.
Qed.
Lemma invitation_stored_or_not_witness :
  let '(r, w') := persist_remote_invite_at invitation (blind 20) joining in
  match r with
  | Ok _ => stored invitation (files (state w')) ∨
            stranded invitation (files (state w')) ∧ ∃ m, (draws joining ≤ m)%nat ∧ unseen (blind 20) m = true
  | Err _ => unstored (files (state joining) !! "remote-invite.json") (files (state w'))
  end.
Proof.
  apply (invitation_stored_or_not invitation (blind 20) joining); [vm_compute; reflexivity|vm_compute; reflexivity|apply one_fault].
Defined.
(** The look at the setup marker fails: the machine reports success, and stays in setup. *)
Example unseen_marker_strands :
  let '(r, w') := persist_remote_invite_at invitation (blind 20) joining in
  r = Ok () ∧ fabric_role_at (files (state w')) = "setup" ∧
  files (state w') !! "remote-invite.json" = Some (File invitation).
Proof. vm_compute. split_and!; reflexivity. Qed.
Definition tried : list Command :=
  [LeaveFabric LEAVE_FABRIC_CONFIRMATION; BeginPairing "laptop"; JoinRemote invitation; PersistInvite invitation; LocalStop;
   ActivateOwnerFabric; LaunchFabric None; Others "controller.token" (Some (File "token"))].
(** Both looks at the mark of the confirmed owner fail: joining a fabric resets the owner, and its
    key is gone. *)
Example unseen_owner_reset :
  let env := surroundings (λ _, false) (λ m, bool_decide (m = 3%nat) || bool_decide (m = 8%nat)) in
  let '(_, w') := begin_pairing true place "install" "laptop" env owning in
  fabric_role_at (files (state w')) = "setup" ∧ files (state w') !! "governor.key" = None.
Proof. vm_compute. split_and!; reflexivity. Qed.

(** A worker leaves its fabric, and its last file cannot be removed: its credentials are gone,
    the setup marker is not written, and the next launch makes it the owner of a fabric. *)
Definition bind_ok : option string := None.
Example interrupted_reset :
  let left := leave_fabric place LEAVE_FABRIC_CONFIRMATION (once 14) serving in
  fabric_role_at (files (state serving)) = "worker" ∧ is_ok left.1 = false ∧ fabric_role_at (files (state left.2)) = "owner" ∧
  match (launch_fabric url bind_ok calm left.2).1 with Ok (Owner _ _) => true | _ => false end = true ∧
  is_file (files (state (launch_fabric url bind_ok calm left.2).2)) OWNER_FABRIC_MARKER = true.
Proof. vm_compute. split_and!; reflexivity. Qed.

(** A machine in setup is activated as an owner, and the process ends before the setup marker is
    removed; it then joins another fabric.  The invitation is stored, but the markers of the
    activation are still there, and the machine is a confirmed owner. *)
Definition half_activated : World Runtime.t :=
  machine [(SETUP_REQUIRED_MARKER, marker); (OWNER_FABRIC_MARKER, marker); (OWNER_CONFIRMED_MARKER, marker)].
Example interrupted_activation :
  let joined := join_remote true place invitation calm half_activated in
  is_ok joined.1 = true ∧ files (state joined.2) !! "remote-invite.json" = Some (File invitation) ∧
  fabric_role_at (files (state joined.2)) = "owner".
Proof. vm_compute. split_and!; reflexivity. Qed.
End Laptop.
