(* ===== verification/Project.v ===== *)
(** * Project discovery (crates/rampage-project/src/lib.rs)

    What the controller learns of a folder: the walk over its files, their count and size, the
    languages and toolchains, and a fingerprint.  The walk never enters an excluded directory, and
    the fingerprint commits to the path and size of every file that is met and to the content of
    the manifests. *)

From S2P Require Import Prelude.
From S2P Require Import Codec.
From S2P Require Import Text.
From S2P Require Import Contracts.
From S2P Require Import Ledger.
Import Text.
#[local] Open Scope Z_scope.

(** ** The file system *)

(** A path below the root of the file system, by its components. *)
Definition PathBuf : Type := list string.
(** A node of the file system as it is found: a regular file, whose metadata and content may be
    unavailable; a directory; a directory whose entries cannot be read; or something else, such as
    a link. *)
Inductive Node :=
| RegularFile (metadata_len : option Z) (content : option string)
| Directory (children : Folder)
| ClosedDirectory
| Other
with Folder :=
| Empty
| Child (name : string) (node : Node) (rest : Folder).

Module ProjectTwinV1.
Record t := mk {
  schema : string; root : PathBuf; name : string; fingerprint : string; languages : gmap string Z; toolchains : gset string;
  manifests : list PathBuf; file_count : Z; total_bytes : Z; discovered_at : DateTime; read_only_discovery : bool
}.
End ProjectTwinV1.

Definition EXCLUDED : list string := [".git"; "node_modules"; "target"; ".venv"; "dist"; "build"; ".rampage"].
Definition include_entry (depth : nat) (file_name : string) : bool :=
  match depth with O => true | _ => negb (existsb (λ x, x == file_name) EXCLUDED) end.

(** [path.file_name()?.to_str()?]. *)
Definition file_name (path : PathBuf) : option string := List.last (Some <$> path) None.
Definition to_str (name : string) : option string := if is_utf8 name then Some name else None.
(** [path.extension()]: what follows the last dot, unless the name starts with it. *)
Fixpoint after_last_dot (s : string) : option string :=
  match s with
  | "" => None
  | String c s => match after_last_dot s with Some t => Some t | None => if c == "."%char then Some s else None end
  end.
Definition extension (path : PathBuf) : option string :=
  name ← file_name path;
  if name == ".." then None else match name with "" => None | String _ s => after_last_dot s end.
Definition language_for (path : PathBuf) : option string :=
  extension ← extension path;
  extension ← to_str extension;
  let one_of l := existsb (λ x, x == to_ascii_lowercase extension) l in
  if one_of ["rs"] then Some "rust"
  else if one_of ["py"] then Some "python"
  else if one_of ["ts"; "tsx"] then Some "typescript"
  else if one_of ["js"; "jsx"] then Some "javascript"
  else if one_of ["swift"] then Some "swift"
  else if one_of ["kt"; "kts"] then Some "kotlin"
  else if one_of ["go"] then Some "go"
  else if one_of ["cpp"; "cc"; "cxx"; "h"; "hpp"] then Some "cpp"
  else if one_of ["cs"] then Some "csharp"
  else None.
Definition toolchain_for (path : PathBuf) : option string :=
  name ← file_name path;
  name ← to_str name;
  let one_of l := existsb (λ x, x == name) l in
  if one_of ["Cargo.toml"] then Some "cargo"
  else if one_of ["pyproject.toml"; "uv.lock"] then Some "python-uv"
  else if one_of ["package.json"; "pnpm-lock.yaml"] then Some "node-pnpm"
  else if one_of ["go.mod"] then Some "go"
  else if one_of ["Package.swift"] then Some "swiftpm"
  else if one_of ["build.gradle"; "build.gradle.kts"] then Some "gradle"
  else None.

(** [start.ancestors().find(..)]: the nearest one with a repository, the root of the file system
    excepted. *)
Fixpoint prefixes (path : PathBuf) : list PathBuf :=
  match path with [] => [[]] | x :: path => [] :: (cons x <$> prefixes path) end.
Definition ancestors (path : PathBuf) : list PathBuf := reverse (prefixes path).
Definition find_repository_root (has_git : PathBuf → bool) (start : PathBuf) : option PathBuf :=
  List.find (λ candidate, negb (no_elems candidate) && has_git candidate) (ancestors start).

(** ** The walk *)

(** A regular file that is met: its path below the root, and what is found of it. *)
Record Found := mkFound { relative : PathBuf; metadata_len : option Z; content : option string }.
Fixpoint walk (relative : PathBuf) (node : Node) : list Found :=
  match node with
  | RegularFile metadata_len content => [mkFound relative metadata_len content]
  | Directory children => walk_folder relative children
  | ClosedDirectory | Other => []
  end
with walk_folder (relative : PathBuf) (folder : Folder) : list Found :=
  match folder with
  | Empty => []
  | Child name node rest =>
      (if include_entry 1 name then walk (relative ++ [name]) node else []) ++ walk_folder relative rest
  end.

(** Paths in the order of [PathBuf]: by components. *)
Fixpoint path_leb (a b : PathBuf) : bool :=
  match a, b with
  | [], _ => true
  | _, [] => false
  | x :: a, y :: b => if x == y then path_leb a b else bool_decide (String.le x y)
  end.
Definition path_le (a b : PathBuf) : Prop := path_leb a b = true.
#[global] Instance path_le_dec a b : Decision (path_le a b) := bool_eq_dec _ _.

Inductive ProjectError := NotFound | NotADirectory | MetadataUnavailable | Unreadable.

(** What the loop has gathered. *)
Module Survey.
Record t := mk {
  languages : gmap string Z; toolchains : gset string; manifests : list PathBuf; file_count : Z; total_bytes : Z; hashed : string
}.
Definition empty : t := mk ∅ ∅ [] 0 0 "".
End Survey.

Section discovery.
Context {codec : Codec}.
(** [to_string_lossy], and the order in which the components of a path are written. *)
Context (to_string_lossy : string → string).

Definition join_path (path : PathBuf) : string := String.concat "/" path.
Definition rendered (path : PathBuf) : string := replace_byte "\" "/" (to_string_lossy (join_path path)).
Definition MAX_MANIFEST_BYTES : Z := 1024 * 1024.
Definition count_language (language : option string) (languages : gmap string Z) : gmap string Z :=
  match language with
  | Some language => <[language := default 0 (languages !! language) + 1]> languages
  | None => languages
  end.
Definition survey_file (root : PathBuf) (s : Survey.t) (entry : Found) : result ProjectError Survey.t :=
  size ← ok_or MetadataUnavailable (metadata_len entry);
  let hashed := Survey.hashed s +:+ rendered (relative entry) +:+ Ledger.to_be_bytes size in
  let languages := count_language (language_for (root ++ relative entry)) (Survey.languages s) in
  let file_count := Survey.file_count s + 1 in
  let total_bytes := sat_add (Survey.total_bytes s) size in
  match toolchain_for (relative entry) with
  | None => Ok (Survey.mk languages (Survey.toolchains s) (Survey.manifests s) file_count total_bytes hashed)
  | Some toolchain =>
      bytes ← (if size <=? MAX_MANIFEST_BYTES then ok_or Unreadable (content entry) else Ok "");
      Ok (Survey.mk languages ({[toolchain]} ∪ Survey.toolchains s) (Survey.manifests s ++ [relative entry]) file_count
            total_bytes (hashed +:+ bytes))
  end.
Definition survey (root : PathBuf) (entries : list Found) : result ProjectError Survey.t :=
  try_fold (survey_file root) Survey.empty entries.

(** [canonicalize] gives the path and the node there; [tree] the node at the chosen root. *)
Definition discover_project (now : DateTime) (canonicalize : option (PathBuf * Node)) (has_git : PathBuf → bool)
    (tree : PathBuf → Node) : result ProjectError ProjectTwinV1.t :=
  '(requested, node) ← ok_or NotFound canonicalize;
  _ ← match node with Directory _ | ClosedDirectory => Ok () | _ => Err NotADirectory end;
  let root := default requested (find_repository_root has_git requested) in
  s ← survey root (walk [] (tree root));
  Ok (ProjectTwinV1.mk "rampage.project-twin.v1" root (default "project" (file_name root ≫= to_str))
        ("sha256:" +:+ hex_encode (sha256 (Survey.hashed s))) (Survey.languages s) (Survey.toolchains s)
        (merge_sort path_le (Survey.manifests s)) (Survey.file_count s) (Survey.total_bytes s) now true).
End discovery.

Scheme Node_mut := Induction for Node Sort Prop
with Folder_mut := Induction for Folder Sort Prop.
Combined Scheme tree_ind from Node_mut, Folder_mut.

(** ** The walk *)

Definition included (path : PathBuf) : Prop := Forall (λ name, name ∉ EXCLUDED) path.
Lemma include_entry_spec n name : include_entry (S n) name = true ↔ name ∉ EXCLUDED.
Proof.
  unfold include_entry. rewrite negb_true_iff. split.
  - intros H Hin. assert (existsb (λ x, x == name) EXCLUDED = true) as He.
    { apply existsb_exists. exists name. split; [by apply list_elem_of_In|by apply bool_decide_eq_true]. }
    congruence.
  - intros Hin. apply not_true_is_false. intros (x & Hx & ->%bool_decide_eq_true)%existsb_exists. apply Hin. by apply list_elem_of_In.
Qed.
Lemma walk_included :
  (∀ node path, included path → Forall (λ e, included (relative e)) (walk path node)) ∧
  (∀ folder path, included path → Forall (λ e, included (relative e)) (walk_folder path folder)).
Proof.
  apply tree_ind; cbn [walk walk_folder]; [by intros; constructor|auto|by constructor..|].
  intros name node IHnode rest IHrest path Hpath. apply Forall_app. split; [|by apply IHrest].
  destruct (include_entry 1 name) eqn:Hname; [|constructor]. apply IHnode, Forall_app. split; [done|].
  constructor; [|constructor]. by apply (include_entry_spec 0).
Qed.
(** The same tree without the excluded entries. *)
Fixpoint prune (node : Node) : Node :=
  match node with Directory children => Directory (prune_folder children) | node => node end
with prune_folder (folder : Folder) : Folder :=
  match folder with
  | Empty => Empty
  | Child name node rest =>
      if include_entry 1 name then Child name (prune node) (prune_folder rest) else prune_folder rest
  end.
Lemma walk_prune :
  (∀ node path, walk path (prune node) = walk path node) ∧ (∀ folder path, walk_folder path (prune_folder folder) = walk_folder path folder).
Proof.
  apply tree_ind; cbn [walk walk_folder prune prune_folder]; try done.
  intros name node IHnode rest IHrest path. destruct (include_entry 1 name) eqn:Hname; cbn [walk_folder]; [|apply IHrest].
  by rewrite Hname, IHnode, IHrest.
Qed.

Section discovery.
Context {codec : Codec}.
Context (to_string_lossy : string → string).
Abbreviation rendered := (rendered to_string_lossy).

(** ** What is hashed *)

Definition size_of (e : Found) : Z := default 0 (metadata_len e).
(** The bytes of a manifest that are read. *)
Definition manifest_bytes (e : Found) : option string :=
  match toolchain_for (relative e) with
  | Some _ => if size_of e <=? MAX_MANIFEST_BYTES then content e else None
  | None => None
  end.
Definition encoded (e : Found) : string :=
  rendered (relative e) +:+ Ledger.to_be_bytes (size_of e) +:+ default "" (manifest_bytes e).
Fixpoint encoding (l : list Found) : string := match l with [] => "" | e :: l => encoded e +:+ encoding l end.

Lemma text_app_assoc (a b c : string) : (a +:+ b) +:+ c = a +:+ b +:+ c.
Proof. apply chars_inj. rewrite !chars_app. by rewrite app_assoc. Qed.
Lemma append_nil (a : string) : a +:+ "" = a.
Proof. apply chars_inj. by rewrite chars_app, app_nil_r. Qed.
Lemma survey_file_ok root s e s' :
  survey_file to_string_lossy root s e = Ok s' →
  Survey.hashed s' = Survey.hashed s +:+ encoded e ∧ Survey.file_count s' = Survey.file_count s + 1 ∧
  Survey.total_bytes s' = sat_add (Survey.total_bytes s) (size_of e).
Proof.
  unfold survey_file, encoded, manifest_bytes, size_of. destruct (metadata_len e) as [size|]; [|done].
  cbn [ok_or mbind result_bind default from_option id]. destruct (toolchain_for (relative e)) as [t|].
  - destruct (size <=? MAX_MANIFEST_BYTES).
    + destruct (content e) as [bytes|]; [|done]. cbn. intros [= <-]. split_and!; [|done..]. cbn [Survey.hashed default from_option id]. by rewrite !text_app_assoc, ?append_nil.
    + cbn. intros [= <-]. split_and!; [|done..]. cbn [Survey.hashed default from_option id]. by rewrite !text_app_assoc, ?append_nil.
  - intros [= <-]. split_and!; [|done..]. cbn [Survey.hashed default from_option id]. by rewrite append_nil.
Qed.
Lemma survey_ok root entries : ∀ s s',
  try_fold (survey_file to_string_lossy root) s entries = Ok s' →
  Survey.hashed s' = Survey.hashed s +:+ encoding entries ∧ Survey.file_count s' = Survey.file_count s + zlen entries.
Proof.
  induction entries as [|e entries IH]; intros s s'; cbn [try_fold encoding].
  - intros [= <-]. rewrite append_nil. split; [done|]. unfold zlen. cbn. lia.
  - destruct (survey_file _ root s e) as [s1|] eqn:E; [|done]. cbn. intros H.
    apply survey_file_ok in E as (Hh & Hc & _). apply IH in H as [-> ->]. rewrite Hh, Hc, text_app_assoc. split; [done|].
    unfold zlen. cbn. lia.
Qed.

(** ** The fingerprint *)

Definition plain_name (name : string) : Prop :=
  ("/"%char ∉ chars name) ∧ ("\"%char ∉ chars name) ∧ ("000"%char ∉ chars name).
(** A file with an ordinary name that does not change while it is read. *)
Definition settled (e : Found) : Prop :=
  relative e ≠ [] ∧ Forall plain_name (relative e) ∧ is_utf8 (join_path (relative e)) = true ∧
  ∃ bytes, content e = Some bytes ∧ metadata_len e = Some (len bytes) ∧ len bytes < 2 ^ 56.
(** What the fingerprint commits to. *)
Definition committed (e : Found) : PathBuf * Z * option string := (relative e, size_of e, manifest_bytes e).

Lemma join_chars c path : c ≠ "/"%char → Forall (λ name, c ∉ chars name) path → c ∉ chars (join_path path).
Proof.
  intros Hc. unfold join_path. induction path as [|a path IH]; intros Hall; [by apply not_elem_of_nil|].
  apply Forall_cons in Hall as [Ha Hall]. destruct path as [|b path]; [done|]. cbn [String.concat].
  change (c ∉ chars (a +:+ String "/" (String.concat "/" (b :: path)))). rewrite chars_app. intros [?|H]%elem_of_app; [done|].
  apply elem_of_cons in H as [->|H]; [done|]. by apply IH.
Qed.
Lemma join_inj p q :
  p ≠ [] → q ≠ [] → Forall plain_name p → Forall plain_name q → join_path p = join_path q → p = q.
Proof.
  unfold join_path. revert q. induction p as [|a p IH]; intros q Hp Hq HPp HPq; [done|].
  destruct q as [|b q]; [done|]. apply Forall_cons in HPp as [(Ha & _) HPp], HPq as [(Hb & _) HPq].
  destruct p as [|a' p], q as [|b' q]; cbn [String.concat].
  - by intros ->.
  - intros ->. exfalso. apply Ha. change ("/"%char ∈ chars (b +:+ String "/" (String.concat "/" (b' :: q)))).
    rewrite chars_app. apply elem_of_app. right. by left.
  - intros <-. exfalso. apply Hb. change ("/"%char ∈ chars (a +:+ String "/" (String.concat "/" (a' :: p)))).
    rewrite chars_app. apply elem_of_app. right. by left.
  - intros H. change (a +:+ String "/" (String.concat "/" (a' :: p)) = b +:+ String "/" (String.concat "/" (b' :: q))) in H.
    apply app_inj_separator in H as [-> H]; [|done..]. f_equal. by apply IH.
Qed.
Lemma replace_absent from to s : from ∉ chars s → replace_byte from to s = s.
Proof.
  unfold replace_byte. induction s as [|c s IH]; cbn; [done|]. intros [Hc Hs]%not_elem_of_cons.
  rewrite bool_decide_false by done. f_equal. by apply IH.
Qed.

Hypothesis lossy : ∀ s, is_utf8 s = true → to_string_lossy s = s.
Lemma rendered_settled e : settled e → rendered (relative e) = join_path (relative e) ∧ ("000"%char ∉ chars (rendered (relative e))).
Proof.
  intros (_ & Hplain & Hutf & _). assert (rendered (relative e) = join_path (relative e)) as ->.
  { unfold Project.rendered. rewrite lossy by done. apply replace_absent, join_chars; [done|].
    eapply Forall_impl; [exact Hplain|]. by intros ? (_ & ? & _). }
  split; [done|]. apply join_chars; [done|]. eapply Forall_impl; [exact Hplain|]. by intros ? (_ & _ & ?).
Qed.
(** The first byte of a size is zero, so that it ends the path before it. *)
Lemma size_bytes n : 0 ≤ n < 2 ^ 56 → ∃ s, Ledger.to_be_bytes n = String "000" s.
Proof.
  intros Hn. eexists. unfold Ledger.to_be_bytes. cbn. f_equal. unfold Ledger.byte_of.
  rewrite Z.shiftr_div_pow2, Z.div_small by lia. done.
Qed.
Lemma to_be_bytes_length n : String.length (Ledger.to_be_bytes n) = 8%nat.
Proof. reflexivity. Qed.
Lemma encoding_inj l k : Forall settled l → Forall settled k → encoding l = encoding k → committed <$> l = committed <$> k.
Proof.
  intros Hl. revert k. induction Hl as [|e l He Hl IH]; intros k Hk H.
  - destruct Hk as [|e k He _]; [done|]. exfalso. cbn [encoding] in H. unfold encoded in H. apply (f_equal String.length) in H.
    rewrite !length_append_string, to_be_bytes_length in H. cbn in H. lia.
  - destruct Hk as [|e' k He' Hk].
    { exfalso. cbn [encoding] in H. unfold encoded in H. apply (f_equal String.length) in H.
      rewrite !length_append_string, to_be_bytes_length in H. cbn in H. lia. }
    cbn [encoding] in H. unfold encoded in H. rewrite !text_app_assoc in H.
    destruct (rendered_settled e He) as [Hr Hnul], (rendered_settled e' He') as [Hr' Hnul'].
    destruct He as (Hne & Hplain & _ & bytes & Hbytes & Hsize & Hmax), He' as (Hne' & Hplain' & _ & bytes' & Hbytes' & Hsize' & Hmax').
    assert (size_of e = len bytes) as Hs by (unfold size_of; by rewrite Hsize).
    assert (size_of e' = len bytes') as Hs' by (unfold size_of; by rewrite Hsize').
    assert (rendered (relative e) = rendered (relative e')) as Hpath.
    { destruct (size_bytes (size_of e)) as [t Ht]; [unfold len in *; lia|].
      destruct (size_bytes (size_of e')) as [t' Ht']; [unfold len in *; lia|]. rewrite Ht, Ht' in H.
      by apply app_inj_separator in H as [? _]. }
    rewrite Hpath in H. apply app_inj_length in H as [_ H]; [|done].
    apply app_inj_length in H as [Hn H]; [|done]. apply Ledger.to_be_bytes_inj in Hn;
      [|unfold is_u64, u64_max, len in *; lia..].
    assert (relative e = relative e') as Hrel by (apply join_inj; [done..|congruence]).
    assert (manifest_bytes e = manifest_bytes e' ∧ encoding l = encoding k) as [Hm Hrest].
    { unfold manifest_bytes in *. rewrite <- Hrel, <- Hn in H |- *. rewrite Hbytes, Hbytes' in *.
      destruct (toolchain_for _); [|done]. destruct (size_of e <=? _); [|done]. cbn in H.
      apply app_inj_length in H as [-> ?]; [done|]. unfold len in *. lia. }
    cbn. unfold committed at 1 3. rewrite Hrel, Hn, Hm. f_equal. by apply IH.
Qed.

Lemma discovery_spec now canonical has_git tree t :
  discover_project to_string_lossy now canonical has_git tree = Ok t →
  ProjectTwinV1.fingerprint t = "sha256:" +:+ hex_encode (sha256 (encoding (walk [] (tree (ProjectTwinV1.root t))))) ∧
  ProjectTwinV1.file_count t = zlen (walk [] (tree (ProjectTwinV1.root t))).
Proof.
  unfold discover_project. destruct canonical as [[requested node]|]; [|done]. cbn [ok_or mbind result_bind].
  destruct node; try done; cbn [mbind result_bind]; (destruct (survey _ _ _) as [s|] eqn:E; [|done]); cbn; intros [= <-]; cbn.
  all: apply survey_ok in E as [-> ->]; done.
Qed.
Context {laws : CodecLaws codec}.
(** [C35] A fingerprint commits to the project. Let every file that two discoveries meet be
    settled: its path is valid UTF-8, its names hold no slash, backslash or NUL, it is shorter than 2^56
    bytes, and it can be read and is as long as its metadata say. If both report the same fingerprint, they met the
    same files in the same order: the same paths and sizes, and the same content of every
    manifest of up to one mebibyte; or they exhibit a SHA-256 collision. *)
Theorem fingerprint_commits now canonical has_git tree t now' canonical' has_git' tree' t' :
  discover_project to_string_lossy now canonical has_git tree = Ok t →
  discover_project to_string_lossy now' canonical' has_git' tree' = Ok t' →
  Forall settled (walk [] (tree (ProjectTwinV1.root t))) → Forall settled (walk [] (tree' (ProjectTwinV1.root t'))) →
  ProjectTwinV1.fingerprint t = ProjectTwinV1.fingerprint t' →
  committed <$> walk [] (tree (ProjectTwinV1.root t)) = committed <$> walk [] (tree' (ProjectTwinV1.root t')) ∨
  Ledger.sha256_collision.
Proof.
  intros [Hf _]%discovery_spec [Hf' _]%discovery_spec Hs Hs' H. rewrite Hf, Hf' in H. apply (inj _), hex_encode_inj in H.
  set (a := encoding (walk [] (tree _))) in *. set (b := encoding (walk [] (tree' _))) in *.
  destruct (decide (a = b)) as [Heq|Hne]; [left; by apply encoding_inj|right; by exists a, b].
Qed.
(** What is excluded does not matter: the discovery of the pruned tree is the same, and every
    file that counts is outside the excluded directories. *)
Theorem excluded_ignored now canonical has_git tree :
  discover_project to_string_lossy now canonical has_git (prune ∘ tree) =
  discover_project to_string_lossy now canonical has_git tree ∧
  ∀ root, Forall (λ e, included (relative e)) (walk [] (tree root)).
Proof.
  split; [|intros root; apply walk_included; constructor]. unfold discover_project. destruct canonical as [[requested node]|]; [|done].
  cbn [ok_or mbind result_bind]. unfold compose. by rewrite (proj1 walk_prune).
Qed.
End discovery.

(** ** Two folders *)

Module Folders.
Import Reference.
Definition repo : Node := Directory (
  Child "Cargo.toml" (RegularFile (Some 9) (Some "[package]"))
  (Child "src" (Directory (Child "main.rs" (RegularFile (Some 12) (Some "fn main() {}")) Empty))
  (Child "target" (Directory (Child "out" (RegularFile (Some 3) (Some "bin")) Empty)) Empty))).
(** The same files, listed in another order. *)
Definition relisted : Node := Directory (
  Child "src" (Directory (Child "main.rs" (RegularFile (Some 12) (Some "fn main() {}")) Empty))
  (Child "Cargo.toml" (RegularFile (Some 9) (Some "[package]")) Empty)).
Definition discover (node : Node) : result ProjectError ProjectTwinV1.t :=
  discover_project id 0 (Some (["home"; "repo"], node)) (λ _, false) (λ _, node).
Definition twin (node : Node) : ProjectTwinV1.t :=
  match discover node with Ok t => t | Err _ => ProjectTwinV1.mk "" [] "" "" ∅ ∅ [] 0 0 0 false end.
Definition moved : ProjectTwinV1.t :=
  match discover_project id 5 (Some (["mnt"; "copy"], prune repo)) (λ _, false) (λ _, prune repo) with
  | Ok t => t | Err _ => twin repo end.
Lemma settled_repo : Forall settled (walk [] repo).
Proof.
  repeat constructor; try done; try (intros H; repeat (apply elem_of_cons in H as [H|H]; [done|]); by apply not_elem_of_nil in H).
  all: eexists; split_and!; reflexivity.
Qed.
Lemma fingerprint_commits_witness :
  committed <$> walk [] repo = committed <$> walk [] (prune repo) ∨ Ledger.sha256_collision.
Proof.
  apply (fingerprint_commits id ltac:(done) 0 (Some (["home"; "repo"], repo)) (λ _, false) (λ _, repo) (twin repo)
           5 (Some (["mnt"; "copy"], prune repo)) (λ _, false) (λ _, prune repo) moved).
  - vm_compute. reflexivity.
  - vm_compute. reflexivity.
  - exact settled_repo.
  - exact settled_repo.
  - vm_compute. reflexivity.
Defined.
(** The fingerprint of a folder depends on the order in which its directories are read. *)
Example order_matters :
  ProjectTwinV1.file_count (twin repo) = ProjectTwinV1.file_count (twin relisted) ∧
  ProjectTwinV1.manifests (twin repo) = ProjectTwinV1.manifests (twin relisted) ∧
  ProjectTwinV1.languages (twin repo) = ProjectTwinV1.languages (twin relisted) ∧
  ProjectTwinV1.total_bytes (twin repo) = ProjectTwinV1.total_bytes (twin relisted) ∧
  encoding id (walk [] repo) ≠ encoding id (walk [] relisted).
Proof. vm_compute. split_and!; [reflexivity..|discriminate]. Qed.
End Folders.
