(* ===== verification/Client.v ===== *)
(** * The client library (crates/rampage-sdk/src/lib.rs)

    The typed client, which refuses every controller that is not on this machine: the request each
    of its methods sends and what it makes of the answer.  [Console] is the state of a client
    program, shared with the command line. *)

From stdpp Require Import pretty.
From S2P Require Import Prelude.
From S2P Require Import Codec.
From S2P Require Import Text.
From S2P Require Import Contracts.
From S2P Require Import Wire.
From S2P Require Import Float.
From S2P Require Import Economics.
From S2P Require Import Signing.
From S2P Require Import Relay.
From S2P Require Import Net.
From S2P Require Import Mesh.
From S2P Require Import Process.
Import Text.
#[local] Open Scope Z_scope.

(** ** Requests *)

Inductive Method := GET | POST (body : Value).
Module Request.
Record t := mk { method : Method; url : string; token : option string }.
End Request.
(** What a client has sent and printed, and the files it sees. *)
Module Console.
Record t := mk { requests : list Request.t; printed : list Value; files : gmap (list string) string }.
Definition push (r : Request.t) (s : t) : t := mk (requests s ++ [r]) (printed s) (files s).
Definition print (v : Value) (s : t) : t := mk (requests s) (printed s ++ [v]) (files s).
Definition write (path : list string) (bytes : string) (s : t) : t := mk (requests s) (printed s) (<[path := bytes]> (files s)).
End Console.
Abbreviation C := (P Console.t).
(** The status and the body of the answer. *)
Definition send (r : Request.t) : C (Z * string) :=
  _ ← change (Console.push r);
  answer ← draw http;
  obtain answer Trouble.HttpFailed.

#[global] Instance wire_value : Wire Value := {| to_value v := v; from_value v := Some v |}.
Definition as_bool (v : Value) : option bool := match v with VBool b => Some b | _ => None end.

(** ** The typed client *)

Module RampageClient.
Record t := mk { base_url : string; token : option string }.
End RampageClient.

Section sdk.
Context {codec : Codec} {render : Render} {base64 : Base64}.
Context {wire_invite : Wire EnrollmentInviteV1.t} {wire_nodes : Wire (list NodeIdentityV1.t)} {wire_job : Wire JobSpecV1.t}
        {wire_offers : Wire (list ResourceOfferV1.t)} {wire_dividends : Wire (list FabricDividendRecordV1.t)}
        {wire_break_even : Wire BreakEvenRequestV1.t} {wire_break_even_plan : Wire BreakEvenPlanV1.t}
        {wire_autopilot : Wire NetworkAutopilotStatusV1.t} {wire_model_session : Wire ModelSessionRequestV1.t}
        {wire_lease : Wire CapabilityLeaseV1.t} {wire_receipts : Wire (list ExecutionReceiptV1.t)}
        {wire_artifact : Wire ArtifactRefV1.t} {wire_class : Wire StorageClass.t} {wire_events : Wire (list Value)}.
Context (parse_url : string → option Url.t).

(** [s.trim_end_matches('/')]. *)
Fixpoint trim_slashes (s : string) : string :=
  match s with
  | "" => ""
  | String c s => match trim_slashes s with "" => if c == "/"%char then "" else String c "" | rest => String c rest end
  end.
Definition new_with_token (base_url : string) (token : option string) : result Trouble.t RampageClient.t :=
  let base_url := trim_slashes base_url in
  parsed ← ok_or (Trouble.Complaint "invalid URL") (parse_url base_url);
  if is_some_and (λ host, (host == "127.0.0.1") || (host == "localhost")) (Url.host_str parsed)
  then Ok (RampageClient.mk base_url (token ← token; if blank token then None else Some token))
  else Err (Trouble.Complaint "the public controller SDK only connects to the loopback API").
Definition new (RAMPAGE_TOKEN : option string) (base_url : string) : result Trouble.t RampageClient.t :=
  new_with_token base_url RAMPAGE_TOKEN.

(** [error_for_status()?.json()]. *)
Definition decoded `{Wire T} (answer : Z * string) : C T :=
  let '(status, body) := answer in
  if in_range 400 599 status then raise (Trouble.Rejected status VNull)
  else try_ (λ _, Trouble.Complaint "Rampage returned an invalid response") (decode_json body).
Section calls.
Variable self : RampageClient.t.
Definition get `{Wire T} (path : string) : C T :=
  answer ← send (Request.mk GET (RampageClient.base_url self +:+ path) (RampageClient.token self)); decoded answer.
Definition post `{Wire B, Wire T} (path : string) (body : B) : C T :=
  answer ← send (Request.mk (POST (to_value body)) (RampageClient.base_url self +:+ path) (RampageClient.token self));
  decoded answer.

Definition health : C Value := get "/health".
Definition create_invite : C EnrollmentInviteV1.t := post "/v1/enrollment/invites" (VObject []).
Definition nodes : C (list NodeIdentityV1.t) := get "/v1/nodes".
Definition revoke_node (node_id : Uuid) : C Value :=
  post ("/v1/nodes/" +:+ uuid_to_string node_id +:+ "/revoke")
    (VObject [("confirmation", VString ("FORGET " +:+ uuid_to_string node_id))]).
Definition plan (job : JobSpecV1.t) : C Value := post "/v1/jobs/plan" job.
Definition topology : C (list ResourceOfferV1.t) := get "/v1/offers".
Definition dividend_history (limit : Z) : C (list FabricDividendRecordV1.t) :=
  get ("/v1/dividends?limit=" +:+ pretty (Z.max 1 (Z.min limit 250))).
Definition plan_break_even (request : BreakEvenRequestV1.t) : C BreakEvenPlanV1.t := post "/v1/plans/break-even" request.
Definition network_autopilot : C NetworkAutopilotStatusV1.t := get "/v1/network/autopilot".
Definition plan_model_session (request : ModelSessionRequestV1.t) : C Value := post "/v1/model-sessions/plan" request.
Definition submit (job : JobSpecV1.t) : C CapabilityLeaseV1.t := post "/v1/jobs" job.
Definition receipts (job_id : Uuid) : C (list ExecutionReceiptV1.t) := get ("/v1/receipts?job_id=" +:+ uuid_to_string job_id).
Definition put_artifact (payload media_type : string) (storage_class : StorageClass.t) : C ArtifactRefV1.t :=
  post "/v1/artifacts/put"
    (VObject [("data_base64", VString (base64_encode payload)); ("media_type", VString media_type);
              ("storage_class", to_value storage_class)]).
(** The bytes in an answer. *)
Definition payload_of (response : Value) : result Trouble.t string :=
  encoded ← ok_or (Trouble.Complaint "artifact response omitted data_base64") (field_str "data_base64" response);
  ok_or (Trouble.Complaint "artifact response was not valid base64") (base64_decode encoded).
Definition get_artifact (digest : string) : C string :=
  response ← get (T := Value) ("/v1/artifacts/get?digest=" +:+ digest);
  try_ id (payload_of response).
Definition replicate_artifact (digest : string) (node_id : Uuid) (media_type : string) (storage_class : StorageClass.t) : C Value :=
  post "/v1/artifacts/replicate"
    (VObject [("digest", VString digest); ("media_type", VString media_type); ("node_id", VString (uuid_to_string node_id));
              ("storage_class", to_value storage_class)]).
Definition retrieve_artifact (digest : string) (node_id : Uuid) : C string :=
  response ← post (T := Value) "/v1/artifacts/retrieve"
               (VObject [("digest", VString digest); ("node_id", VString (uuid_to_string node_id))]);
  try_ id (payload_of response).
Definition events (after : Z) : C (list Value) := get ("/v1/events?after=" +:+ pretty after).
Definition stop : C Value := post "/v1/stop" (VObject []).
Definition resume : C Value := post "/v1/resume" (VObject [("confirmation", VString "OWNER_RESUME")]).
End calls.
End sdk.
