(* ===== verification/Cli.v ===== *)
(** * The command line (crates/rampage-cli/src/main.rs)

    Every command, as the requests it sends to the controller and what it prints and writes.  The
    answers, the clocks and the identifiers are drawn from the surroundings; a loop that waits
    takes the number of times it may ask, and [None] is a command that still waits. *)

From stdpp Require Import pretty.
From S2P Require Import Prelude.
From S2P Require Import Codec.
From S2P Require Import Text.
From S2P Require Import Contracts.
From S2P Require Import Wire.
From S2P Require Import Float.
From S2P Require Import Economics.
From S2P Require Import Signing.
From S2P Require Import Mesh.
From S2P Require Import Process.
From S2P Require Import Client.
Import Text.
#[local] Open Scope Z_scope.

Inductive Platform := Windows | MacOs | OtherPlatform.
(** A path by the parts it is joined from. *)
Definition PathBuf : Type := list string.
Module StrategyArg.
Inductive t := MaximumModelSize | SpeedBoost | MaximumThroughput | Efficiency | AutonomousBalanced.
End StrategyArg.
Definition strategy_of (value : StrategyArg.t) : ComputeStrategy.t :=
  match value with
  | StrategyArg.MaximumModelSize => ComputeStrategy.MaximumModelSize
  | StrategyArg.SpeedBoost => ComputeStrategy.SpeedBoost
  | StrategyArg.MaximumThroughput => ComputeStrategy.MaximumThroughput
  | StrategyArg.Efficiency => ComputeStrategy.Efficiency
  | StrategyArg.AutonomousBalanced => ComputeStrategy.AutonomousBalanced
  end.
Inductive Command :=
| Doctor
| Status
| Invite (output : option PathBuf)
| Discover (path : string)
| Join (invitation name device_kind : string)
| Generate (model prompt : string) (gpu_memory_gb max_tokens timeout_seconds : Z)
| ModelPlan (model : string) (weights_gib kv_cache_gib context_tokens : Z) (strategy : StrategyArg.t) (max_nodes : Z)
| ArtifactPut (path : PathBuf) (storage_class : string)
| ArtifactGet (digest : string) (output : PathBuf)
| ArtifactReplicate (digest : string) (node_id : Uuid) (storage_class media_type : string)
| ArtifactRetrieve (digest : string) (node_id : Uuid) (output : PathBuf)
| ArtifactRepair
| ArtifactHash (digest : string) (timeout_seconds : Z)
| Plan (adapter operation value : string) (cores : Z)
| Topology
| Benchmark (cores_per_node iterations_per_core timeout_seconds : Z)
| ShardPlan (values : list string) (cores_per_shard : Z)
| ShardRun (values : list string) (cores_per_shard : Z) (minimum_successes : option Z) (timeout_seconds : Z)
| ShardStatus (set_id : Uuid)
| Run (adapter operation value : string) (cores : Z) (project_id : option Uuid)
| Explain (subject_id : string)
| Replay (after : Z)
| Verify
| Stop
| Resume (confirm_owner_resume : bool)
| Events (after : Z).

Section cli.
Context {codec : Codec} {render : Render} {base64 : Base64} {pretty_json : Pretty}.
Context {wire_job : Wire JobSpecV1.t} {wire_set : Wire ShardSetV1.t} {wire_model_session : Wire ModelSessionRequestV1.t}
        {wire_artifact : Wire ArtifactRefV1.t}.
(** The build, the environment variables, the agent beside this program, and the regular files. *)
Context (platform : Platform) (env_var : string → option string) (agent_beside is_file_path : string → bool).

(** ** Talking to the controller *)

Definition default_token_path : PathBuf :=
  let rest := ["ai.obtuse.rampage"; "runtime"; "controller.token"] in
  let fallback := [".rampage/runtime/controller.token"] in
  match env_var "RAMPAGE_DATA_DIR" with
  | Some data_dir => [data_dir; "controller.token"]
  | None =>
      match platform with
      | Windows => match env_var "APPDATA" with Some app_data => app_data :: rest | None => fallback end
      | MacOs =>
          match env_var "HOME" with Some home => home :: "Library" :: "Application Support" :: rest | None => fallback end
      | OtherPlatform =>
          match env_var "XDG_DATA_HOME" with
          | Some data_home => data_home :: rest
          | None => match env_var "HOME" with Some home => home :: ".local" :: "share" :: rest | None => fallback end
          end
      end
  end.
Definition local_token (files : gmap PathBuf string) : option string :=
  value ← match env_var "RAMPAGE_TOKEN" with
          | Some value => Some value
          | None => bytes ← files !! default_token_path; if is_utf8 bytes then Some bytes else None
          end;
  if is_empty (trim value) then None else Some (trim value).
Definition decode_json_response (answer : Z * string) : C Value :=
  let '(status, body) := answer in
  if in_range 200 299 status then
    obtain (json_from_str body) (Trouble.Complaint "response was not valid JSON")
  else
    let reason := default (trim body) (value ← json_from_str body; field_str "error" value) in
    raise (Trouble.Rejected status (VString
      (if (status =? 401) || (status =? 403)
       then reason +:+ "; expected token at " +:+ String.concat "/" default_token_path +:+ " or RAMPAGE_TOKEN"
       else reason))).
Definition fetch_json (url : string) : C Value :=
  files ← look Console.files;
  answer ← send (Request.mk GET url (local_token files));
  decode_json_response answer.
Definition post_json `{Wire T} (url : string) (body : T) : C Value :=
  files ← look Console.files;
  answer ← send (Request.mk (POST (to_value body)) url (local_token files));
  decode_json_response answer.
Definition print_json (value : Value) : C () := change (Console.print value).
(** A call of the operating system that may fail. *)
Definition io : C () := failed ← draw sight; if (failed : bool) then raise (Trouble.Complaint "I/O error") else mret ().
Definition write_file (path : PathBuf) (bytes : string) : C () := _ ← io; change (Console.write path bytes).
Definition write_artifact_payload (response : Value) (output : PathBuf) : C () :=
  payload ← try_ id (payload_of response);
  _ ← io;
  write_file output payload.
Definition parse_storage_class (value : string) : result Trouble.t string :=
  if existsb (λ x, x == value) ["cache"; "scratch"; "protected"] then Ok value
  else Err (Trouble.Complaint "storage class must be cache, scratch, or protected").
(** The lines that report the state of the machine are left out. *)
Definition doctor (controller : string) : C () :=
  health ← outcome (fetch_json (controller +:+ "/health"));
  match health with Ok health => print_json health | Err _ => mret () end.
(** The arguments the agent is started with. *)
Definition join_arguments (controller invitation name kind : string) : list string :=
  (if is_file_path invitation then ["--invite-file"; invitation; "--serve"]
   else ["--controller"; controller; "--enrollment-code"; invitation; "--register"])
  ++ ["--display-name"; name; "--device-kind"; kind].
Definition join (controller invitation name kind : string) : C (string * list string) :=
  _ ← io;
  let sibling := match platform with Windows => "rampage-agent.exe" | _ => "rampage-agent" end in
  let agent := if agent_beside sibling then "./" +:+ sibling else "rampage-agent" in
  _ ← io;
  success ← draw sight;
  _ ← assert_ success "rampage-agent enrollment failed";
  mret (agent, join_arguments controller invitation name kind).

(** ** Jobs *)

Definition cpu_request (minimum preferred : Z) (labels : gmap string string) : ResourceRequestV1.t :=
  ResourceRequestV1.mk ResourceClass.CpuCompute minimum preferred "logical_core" labels.
Definition bytes_request (class : ResourceClass.t) (bytes : Z) : ResourceRequestV1.t :=
  ResourceRequestV1.mk class bytes bytes "byte" ∅.
Definition make_job (adapter operation value : string) (cores : Z) (project_id : option Uuid) : C JobSpecV1.t :=
  job_id ← draw fresh;
  project_id ← match project_id with Some id => mret id | None => draw fresh end;
  submitted_by ← draw fresh;
  now ← draw clock;
  key ← draw fresh;
  mret (JobSpecV1.mk JobSpecV1.SCHEMA job_id project_id submitted_by adapter operation {["value" := value]} []
          [cpu_request cores cores ∅] WorkloadTrust.NativeTrusted true ∅ (now + minutes 10) (uuid_to_string key)).
Definition make_generation_job (model prompt : string) (gpu_memory_gb max_tokens : Z) : C JobSpecV1.t :=
  let requests :=
    cpu_request 1 2 ∅ ::
    (if 0 <? gpu_memory_gb then [bytes_request ResourceClass.GpuMemory (sat_mul gpu_memory_gb (1024 * 1024 * 1024))] else []) in
  job_id ← draw fresh;
  project_id ← draw fresh;
  submitted_by ← draw fresh;
  now ← draw clock;
  key ← draw fresh;
  mret (JobSpecV1.mk JobSpecV1.SCHEMA job_id project_id submitted_by "rampage.ollama.v1" "generate"
          (list_to_map [("model", model); ("prompt", prompt); ("max_tokens", pretty (Z.max 1 (Z.min max_tokens 4096)))]) []
          requests WorkloadTrust.NativeTrusted true ∅ (now + minutes 10) (uuid_to_string key)).
Definition GIB : Z := 1024 * 1024 * 1024.
Definition make_model_session_request (model : string) (weights_gib kv_cache_gib context_tokens : Z)
    (strategy : ComputeStrategy.t) (max_nodes : Z) : C ModelSessionRequestV1.t :=
  session_id ← draw fresh;
  weights ← obtain (checked_mul weights_gib GIB) (Trouble.Complaint "model weight estimate overflowed");
  kv_cache ← obtain (checked_mul kv_cache_gib GIB) (Trouble.Complaint "KV-cache estimate overflowed");
  now ← draw clock;
  key ← draw fresh;
  let request := ModelSessionRequestV1.mk ModelSessionRequestV1.SCHEMA session_id model weights kv_cache context_tokens strategy
                   max_nodes (now + minutes 10) (uuid_to_string key) in
  now ← draw clock;
  _ ← try_ (λ e, Trouble.Complaint (ContractError.to_string e)) (ModelSessionRequestV1.validate_at request now);
  mret request.
Definition make_artifact_hash_job (input : ArtifactRefV1.t) : C JobSpecV1.t :=
  job_id ← draw fresh;
  project_id ← draw fresh;
  submitted_by ← draw fresh;
  now ← draw clock;
  key ← draw fresh;
  mret (JobSpecV1.mk JobSpecV1.SCHEMA job_id project_id submitted_by "rampage.artifact-hash.v1" "hash_artifact" ∅ [input]
          [cpu_request 1 1 ∅; bytes_request ResourceClass.StorageCache (ArtifactRefV1.size_bytes input)]
          WorkloadTrust.NativeTrusted true ∅ (now + minutes 10) (uuid_to_string key)).

(** ** Sets of jobs *)

Fixpoint make_shards (set_id project_id submitted_by : Uuid) (deadline : DateTime) (cores : Z) (index : Z) (values : list string)
    : C (list JobSpecV1.t) :=
  match values with
  | [] => mret []
  | partition :: values =>
      job_id ← draw fresh;
      rest ← make_shards set_id project_id submitted_by deadline cores (index + 1) values;
      mret (JobSpecV1.mk JobSpecV1.SCHEMA job_id project_id submitted_by "rampage.eval-shard.v1" "score"
              {["values" := partition]} [] [cpu_request cores cores ∅] WorkloadTrust.NativeTrusted true ∅ deadline
              (uuid_to_string set_id +:+ ":shard:" +:+ pretty index) :: rest)
  end.
Definition validated (set : ShardSetV1.t) : C ShardSetV1.t :=
  now ← draw clock;
  _ ← try_ (λ e, Trouble.Complaint (ContractError.to_string e)) (ShardSetV1.validate_at set now);
  mret set.
Definition make_shard_set (values : list string) (cores_per_shard : Z) (minimum_successes : option Z) : C ShardSetV1.t :=
  _ ← assert_ (negb (no_elems values)) "at least one shard is required";
  _ ← assert_ (forallb (λ partition, negb (blank partition)) values) "shard value partitions cannot be empty";
  set_id ← draw fresh;
  project_id ← draw fresh;
  submitted_by ← draw fresh;
  now ← draw clock;
  let deadline := now + minutes 10 in
  shards ← make_shards set_id project_id submitted_by deadline (Z.max cores_per_shard 1) 0 values;
  let minimum_successes := default (zlen shards `mod` 2 ^ 32) minimum_successes in
  validated (ShardSetV1.mk ShardSetV1.SCHEMA set_id project_id submitted_by shards minimum_successes deadline
               (uuid_to_string set_id +:+ ":set")).

(** The benchmark: one job for each offer that advertises its adapter, bound to its node. *)
Definition MAX_CHAIN : Z := 400000000.
Definition is_cpu (resource : Value) : bool := field_str "class" resource == Some "cpu_compute".
Definition benchmark_job (set_id project_id submitted_by job_id node_id : Uuid) (deadline : DateTime) (lanes iterations : Z)
    : JobSpecV1.t :=
  JobSpecV1.mk JobSpecV1.SCHEMA job_id project_id submitted_by "rampage.benchmark.v1" "sha256_chain"
    {["iterations_per_lane" := pretty iterations]} []
    [cpu_request lanes lanes {["node_id" := uuid_to_string node_id]}] WorkloadTrust.NativeTrusted true ∅ deadline
    (uuid_to_string set_id +:+ ":benchmark:" +:+ uuid_to_string node_id).
Fixpoint benchmark_jobs (set_id project_id submitted_by : Uuid) (deadline : DateTime) (cores_per_node iterations : Z)
    (offers : list Value) (names : gmap Uuid string) : C (list JobSpecV1.t * gmap Uuid string) :=
  match offers with
  | [] => mret ([], names)
  | offer :: offers =>
      let continue names := benchmark_jobs set_id project_id submitted_by deadline cores_per_node iterations offers names in
      adapters ← obtain (field "adapters" offer ≫= as_array) (Trouble.Complaint "resource offer omitted adapters");
      if negb (existsb (λ adapter, as_str adapter == Some "rampage.benchmark.v1") adapters) then continue names
      else
        text ← obtain (field_str "node_id" offer) (Trouble.Complaint "resource offer omitted node_id");
        node_id ← obtain (uuid_parse text) Trouble.NotUuid;
        cpu ← obtain (resources ← field "resources" offer ≫= as_array; List.find is_cpu resources)
                (Trouble.Complaint "resource offer omitted CPU capacity");
        available ← obtain (field "available" cpu ≫= as_u64) (Trouble.Complaint "CPU offer omitted available logical cores");
        let lanes := Z.min (Z.min available cores_per_node) 64 in
        if (lanes =? 0) || (MAX_CHAIN <? sat_mul lanes iterations) then continue names
        else
          let name := default "Rampage node" (labels ← field "labels" cpu; field_str "device_name" labels) in
          job_id ← draw fresh;
          '(jobs, names) ← continue (<[node_id := name]> names);
          mret (benchmark_job set_id project_id submitted_by job_id node_id deadline lanes iterations :: jobs, names)
  end.
Definition make_benchmark_set (offers : Value) (cores_per_node iterations_per_core : Z) : C (ShardSetV1.t * gmap Uuid string) :=
  set_id ← draw fresh;
  project_id ← draw fresh;
  submitted_by ← draw fresh;
  now ← draw clock;
  let deadline := now + minutes 10 in
  offers ← obtain (as_array offers) (Trouble.Complaint "controller offers response is not an array");
  '(shards, names) ← benchmark_jobs set_id project_id submitted_by deadline cores_per_node iterations_per_core offers ∅;
  _ ← assert_ (negb (no_elems shards)) "no live node advertises the sustained benchmark adapter";
  set ← validated (ShardSetV1.mk ShardSetV1.SCHEMA set_id project_id submitted_by shards (zlen shards `mod` 2 ^ 32) deadline
                     (uuid_to_string set_id +:+ ":benchmark-set"));
  mret (set, names).

(** ** The summary of a benchmark *)

(** [json!] of an [f64]. *)
Definition number (f : F64.t) : Value := if F64.is_finite f then VFloat (F64.to_bits f) else VNull.
Definition get_or_null (key : string) (v : Value) : Value := default VNull (field key v).
(** A member that succeeded: its node and the rate it reports. *)
Definition summarize_member (names : gmap Uuid string) (member : Value) : result Trouble.t (Value * Z) :=
  let need {A} (o : option A) text := ok_or (Trouble.Complaint text) o in
  node_text ← need (field_str "node_id" member) "benchmark member omitted node_id";
  node_id ← ok_or Trouble.NotUuid (uuid_parse node_text);
  job_text ← need (field_str "job_id" member) "benchmark member omitted job_id";
  job_id ← ok_or Trouble.NotUuid (uuid_parse job_text);
  result_text ← need (field_str "result" member) "benchmark member omitted its signed result";
  result ← need (json_from_str result_text) "benchmark member returned malformed result JSON";
  _ ← (if field_str "schema" result == Some "rampage.cpu-benchmark-result.v1" then Ok ()
       else Err (Trouble.Complaint "benchmark member returned an unsupported result schema"));
  rate ← need (field "hashes_per_second" result ≫= as_u64) "benchmark result omitted hashes_per_second";
  Ok (VObject [("elapsed_ms", get_or_null "elapsed_ms" result); ("hashes_per_second", VInt rate);
               ("job_id", VString (uuid_to_string job_id)); ("lanes", get_or_null "lanes" result);
               ("name", VString (default "Rampage node" (names !! node_id))); ("node_id", VString (uuid_to_string node_id));
               ("receipt_id", get_or_null "receipt_id" member); ("result_digest", get_or_null "result_digest" result);
               ("total_hashes", get_or_null "total_hashes" result)], rate).
Fixpoint summarize (names : gmap Uuid string) (members : list Value) (nodes : list Value) (fabric fastest : Z)
    : result Trouble.t (list Value * Z * Z) :=
  match members with
  | [] => Ok (nodes, fabric, fastest)
  | member :: members =>
      if field_str "status" member != Some "succeeded" then summarize names members nodes fabric fastest
      else
        '(node, rate) ← summarize_member names member;
        summarize names members (nodes ++ [node]) (sat_add fabric rate) (Z.max fastest rate)
  end.
Definition zero : F64.t := F64.of_Z 0.
Definition benchmark_summary (status : Value) (names : gmap Uuid string) : result Trouble.t Value :=
  members ← ok_or (Trouble.Complaint "benchmark status omitted members") (field "members" status ≫= as_array);
  '(nodes, fabric, fastest) ← summarize names members [] 0 0;
  if no_elems nodes then Err (Trouble.Complaint "benchmark produced no successful signed results")
  else
    let effective_scale := ratio fabric (Z.max fastest 1) in
    let verified_extra := F64.mul (F64.max (F64.sub effective_scale one) zero) hundred in
    let time_saved :=
      if SFltb zero effective_scale then F64.mul (F64.max (F64.sub one (F64.div one effective_scale)) zero) hundred else zero in
    Ok (VObject [("all_results_signed", VBool true); ("applicability", VString "matching_fully_divisible_cpu_work_only");
                 ("effective_scale_over_fastest_node", number effective_scale);
                 ("estimated_time_saved_percent", number time_saved); ("fabric_hashes_per_second", VInt fabric);
                 ("fastest_node_hashes_per_second", VInt fastest); ("nodes", VArray nodes);
                 ("proof_basis", VString "concurrent_signed_sustained_cpu_receipts");
                 ("schema", VString "rampage.fabric-benchmark-result.v1"); ("set_id", get_or_null "set_id" status);
                 ("status", get_or_null "status" status); ("time_returned_hours_per_100", number time_saved);
                 ("verified_extra_capacity_percent", number verified_extra)]).

(** ** Waiting *)

(** Ask until there is an answer or the deadline has passed; [sleep] between two questions is part
    of the surroundings. *)
Fixpoint poll {A} (fuel : nat) (ask : C (option A)) (deadline : Z) (late : string) : C (option A) :=
  match fuel with
  | O => mret None
  | S fuel =>
      answer ← ask;
      match answer with
      | Some a => mret (Some a)
      | None => now ← draw instant; _ ← assert_ (now <? deadline) late; poll fuel ask deadline late
      end
  end.
Definition deadline_after (timeout_seconds : Z) : C Z :=
  now ← draw instant; mret (now + seconds (Z.max timeout_seconds 1)).
Definition last_receipt (controller : string) (job_id : Uuid) : C (option Value) :=
  receipts ← fetch_json (controller +:+ "/v1/receipts?job_id=" +:+ uuid_to_string job_id);
  mret (as_array receipts ≫= last).
Definition finished_set (controller : string) (set_id : Uuid) : C (option Value) :=
  status ← fetch_json (controller +:+ "/v1/shard-sets/" +:+ uuid_to_string set_id);
  mret (if field_str "status" status != Some "running" then Some status else None).
(** What is done with the answer, once there is one. *)
Definition whenever {A} (answer : option A) (f : A → C ()) : C (option ()) :=
  match answer with Some a => _ ← f a; mret (Some ()) | None => mret None end.
Definition run_to_receipt (fuel : nat) (controller : string) (job : JobSpecV1.t) (timeout_seconds : Z) (late : string)
    : C (option ()) :=
  _ ← post_json (controller +:+ "/v1/jobs") job;
  deadline ← deadline_after timeout_seconds;
  receipt ← poll fuel (last_receipt controller (JobSpecV1.job_id job)) deadline late;
  whenever receipt print_json.
Definition run_benchmark (fuel : nat) (controller : string) (cores_per_node iterations_per_core timeout_seconds : Z) : C (option ()) :=
  _ ← assert_ (in_range 1 64 cores_per_node) "cores-per-node must be between 1 and 64";
  _ ← assert_ (in_range 1 20000000 iterations_per_core) "iterations-per-core must be between 1 and 20000000";
  offers ← fetch_json (controller +:+ "/v1/offers");
  '(set, names) ← make_benchmark_set offers cores_per_node iterations_per_core;
  admission ← post_json (controller +:+ "/v1/shard-sets") set;
  _ ← assert_ ((field "all_admitted" admission ≫= as_bool) == Some true) "fabric benchmark was not atomically admitted";
  deadline ← deadline_after timeout_seconds;
  status ← poll fuel (finished_set controller (ShardSetV1.set_id set)) deadline "fabric benchmark did not finish before the timeout";
  whenever status (λ status,
    _ ← assert_ (field_str "status" status == Some "succeeded") "fabric benchmark finished below its success threshold";
    summary ← try_ id (benchmark_summary status names);
    persisted ← post_json (controller +:+ "/v1/dividends") summary;
    print_json persisted).
Definition run_shards (fuel : nat) (controller : string) (values : list string) (cores_per_shard : Z)
    (minimum_successes : option Z) (timeout_seconds : Z) : C (option ()) :=
  set ← make_shard_set values cores_per_shard minimum_successes;
  _ ← post_json (controller +:+ "/v1/shard-sets") set;
  deadline ← deadline_after timeout_seconds;
  status ← poll fuel (finished_set controller (ShardSetV1.set_id set)) deadline "shard set did not finish before the timeout";
  whenever status (λ status,
    _ ← print_json status;
    assert_ (field_str "status" status == Some "succeeded") "shard set finished below its success threshold").

(** ** Commands *)

Definition EVENTS : string := "/v1/events?after=0&limit=10000".
Definition about_subject (subject_id : string) (events : Value) : list Value :=
  filter (λ event, field_str "subject_id" event = Some subject_id) (default [] (as_array events)).
Definition done_ (m : C ()) : C (option ()) := _ ← m; mret (Some ()).
Definition fetch_and_print (url : string) : C (option ()) := done_ (value ← fetch_json url; print_json value).
Definition post_and_print `{Wire T} (url : string) (body : T) : C (option ()) := done_ (value ← post_json url body; print_json value).
Definition path_value (path : PathBuf) : Value := VString (String.concat "/" path).
Definition main (fuel : nat) (controller : string) (command : Command) : C (option ()) :=
  match command with
  | Doctor => done_ (doctor controller)
  | Status => fetch_and_print (controller +:+ "/health")
  | Invite output => done_ (
      invite ← post_json (controller +:+ "/v1/enrollment/invites") (VObject []);
      match output with
      | Some path => write_file path (json_to_string_pretty invite)
      | None => print_json invite
      end)
  | Discover path => post_and_print (controller +:+ "/v1/projects/discover") (VObject [("path", VString path)])
  | Join invitation name device_kind => done_ (_ ← join controller invitation name device_kind; mret ())
  | Generate model prompt gpu_memory_gb max_tokens timeout_seconds =>
      job ← make_generation_job model prompt gpu_memory_gb max_tokens;
      run_to_receipt fuel controller job timeout_seconds "generation did not finish before the timeout"
  | ModelPlan model weights_gib kv_cache_gib context_tokens strategy max_nodes =>
      request ← make_model_session_request model weights_gib kv_cache_gib context_tokens (strategy_of strategy) max_nodes;
      post_and_print (controller +:+ "/v1/model-sessions/plan") request
  | ArtifactPut path storage_class =>
      files ← look Console.files;
      payload ← obtain (files !! path) (Trouble.Complaint "no such file");
      _ ← assert_ (len payload <=? MAX_ARTIFACT_TRANSFER_BYTES) "artifact exceeds the 64 MiB transfer limit";
      class ← try_ id (parse_storage_class storage_class);
      post_and_print (controller +:+ "/v1/artifacts/put")
        (VObject [("data_base64", VString (base64_encode payload)); ("media_type", VString "application/octet-stream");
                  ("storage_class", VString class)])
  | ArtifactGet digest output => done_ (
      response ← fetch_json (controller +:+ "/v1/artifacts/get?digest=" +:+ digest);
      _ ← write_artifact_payload response output;
      print_json (VObject [("digest", VString digest); ("output", path_value output)]))
  | ArtifactReplicate digest node_id storage_class media_type =>
      class ← try_ id (parse_storage_class storage_class);
      post_and_print (controller +:+ "/v1/artifacts/replicate")
        (VObject [("digest", VString digest); ("media_type", VString media_type); ("node_id", VString (uuid_to_string node_id));
                  ("storage_class", VString class)])
  | ArtifactRetrieve digest node_id output => done_ (
      response ← post_json (controller +:+ "/v1/artifacts/retrieve")
                   (VObject [("digest", VString digest); ("node_id", VString (uuid_to_string node_id))]);
      _ ← write_artifact_payload response output;
      print_json (VObject [("digest", VString digest); ("node_id", VString (uuid_to_string node_id)); ("output", path_value output)]))
  | ArtifactRepair => post_and_print (controller +:+ "/v1/artifacts/repair") (VObject [])
  | ArtifactHash digest timeout_seconds =>
      stored ← fetch_json (controller +:+ "/v1/artifacts/get?digest=" +:+ digest);
      input ← obtain (field "artifact" stored) (Trouble.Complaint "artifact metadata is missing");
      input ← obtain (from_value (A := ArtifactRefV1.t) input) Trouble.NotJson;
      job ← make_artifact_hash_job input;
      run_to_receipt fuel controller job timeout_seconds "artifact job did not finish before the timeout"
  | Plan adapter operation value cores =>
      job ← make_job adapter operation value cores None;
      post_and_print (controller +:+ "/v1/jobs/plan") job
  | Topology => fetch_and_print (controller +:+ "/v1/offers")
  | Benchmark cores_per_node iterations_per_core timeout_seconds =>
      run_benchmark fuel controller cores_per_node iterations_per_core timeout_seconds
  | ShardPlan values cores_per_shard =>
      set ← make_shard_set values cores_per_shard None;
      post_and_print (controller +:+ "/v1/shard-sets/plan") set
  | ShardRun values cores_per_shard minimum_successes timeout_seconds =>
      run_shards fuel controller values cores_per_shard minimum_successes timeout_seconds
  | ShardStatus set_id => fetch_and_print (controller +:+ "/v1/shard-sets/" +:+ uuid_to_string set_id)
  | Run adapter operation value cores project_id =>
      job ← make_job adapter operation value cores project_id;
      post_and_print (controller +:+ "/v1/jobs") job
  | Explain subject_id => done_ (
      events ← fetch_json (controller +:+ EVENTS);
      print_json (VArray (about_subject subject_id events)))
  | Replay after | Events after => fetch_and_print (controller +:+ "/v1/events?after=" +:+ pretty after)
  | Verify => done_ (
      health ← fetch_json (controller +:+ "/health");
      events ← fetch_json (controller +:+ EVENTS);
      print_json (VObject [("controller", health); ("event_count", VInt (zlen (default [] (as_array events))));
                           ("ledger_verified_on_controller_start", VBool true)]))
  | Stop => post_and_print (controller +:+ "/v1/stop") (VObject [])
  | Resume confirm_owner_resume =>
      _ ← assert_ confirm_owner_resume "resume refused; pass --confirm-owner-resume after checking the fabric";
      post_and_print (controller +:+ "/v1/resume") (VObject [("confirmation", VString "OWNER_RESUME")])
  end.
End cli.
