(* ===== verification/CliFacts.v ===== *)
(** * Facts about the clients

    The jobs of a benchmark are bound to distinct nodes and are run by the workers they reach;
    every wait of the command line ends; an artifact that is fetched is written as it was stored.
    At the end, a benchmark over two machines and the command line at an artifact. *)

From stdpp Require Import pretty.
From S2P Require Import Prelude.
From S2P Require Import Codec.
From S2P Require Import Text.
From S2P Require Import Contracts.
From S2P Require Import ContractFacts.
From S2P Require Import Wire.
From S2P Require Import Float.
From S2P Require Import Economics.
From S2P Require Import Signing.
From S2P Require Import Storage.
From S2P Require Import Worker.
From S2P Require Import Governor.
From S2P Require Import GovernorFacts.
From S2P Require Import Mesh.
From S2P Require Import ControllerState.
From S2P Require Import Controller.
From S2P Require Import Artifacts.
From S2P Require Import RegistryFacts.
From S2P Require Import Process.
From S2P Require Import Client.
From S2P Require Import Cli.
From S2P Require Import WorkerFacts.
From S2P Require Import Relay.
From S2P Require Import Samples.
From S2P Require Import History.
From S2P Require Import ArtifactsFacts.
Import Text.
#[local] Open Scope Z_scope.

Section cli.
Context {codec : Codec} {crypto : Crypto} {ser : Serializer} {render : Render} {render_laws : RenderLaws render}.

(** ** The benchmark *)

Lemma obtain_ok {S A} (o : option A) e env (w w' : World S) a : obtain o e env w = (Ok a, w') → o = Some a ∧ w' = w.
Proof. destruct o; intros [= <- <-]; done. Qed.
(** A job of the benchmark: bound to its node, within the bounds of the adapter. *)
Definition bounded_job (set_id project_id submitted_by : Uuid) (deadline : DateTime) (cores iterations : Z) (job : JobSpecV1.t)
    (node_id : Uuid) : Prop :=
  ∃ job_id lanes, job = benchmark_job set_id project_id submitted_by job_id node_id deadline lanes iterations ∧
    1 ≤ lanes ≤ 64 ∧ lanes ≤ cores ∧ sat_mul lanes iterations ≤ MAX_CHAIN.
Lemma benchmark_jobs_ok set_id project_id submitted_by deadline cores iterations : 1 ≤ cores → ∀ offers names env w jobs names' w',
  benchmark_jobs set_id project_id submitted_by deadline cores iterations offers names env w = (Ok (jobs, names'), w') →
  ∃ ids, Forall2 (bounded_job set_id project_id submitted_by deadline cores iterations) jobs ids.
Proof.
  intros Hcores. induction offers as [|offer offers IH]; intros names env w jobs names' w'; cbn [benchmark_jobs].
  { intros [= <- <- <-]. by exists []. }
  intros (adapters & w1 & _ & H)%P_bind_ok. destruct (negb _); [by eapply IH|].
  apply P_bind_ok in H as (text & w2 & _ & H). apply P_bind_ok in H as (node_id & w3 & _ & H).
  apply P_bind_ok in H as (cpu & w4 & _ & H). apply P_bind_ok in H as (available & w5 & Hav & H).
  apply obtain_ok in Hav as [Hav _]. destruct (_ || _) eqn:Hskip; [by eapply IH|]. apply orb_false_iff in Hskip as [Hzero Hmax].
  apply P_bind_ok in H as (job_id & w6 & _ & H). apply P_bind_ok in H as ([rest names1] & w7 & Hrest & H).
  injection H as <- <- <-. destruct (IH _ _ _ _ _ _ Hrest) as [ids Hids]. exists (node_id :: ids). constructor; [|done].
  exists job_id, (Z.min (Z.min available cores) 64). split; [done|].
  assert (0 ≤ available). { destruct (field "available" cpu) as [[]|]; try done. cbn in Hav. unfold as_u64, in_range in Hav.
    destruct (_ && _) eqn:E; [|done]. injection Hav as <-. lia. }
  apply Z.eqb_neq in Hzero. apply Z.ltb_ge in Hmax. lia.
Qed.

Lemma uuid_text_inj a b : uuid_to_string a = uuid_to_string b → a = b.
Proof. intros H. apply (f_equal uuid_parse) in H. rewrite !uuid_roundtrip in H. by injection H. Qed.
Lemma benchmark_keys_inj set_id project_id submitted_by deadline cores iterations jobs ids :
  Forall2 (bounded_job set_id project_id submitted_by deadline cores iterations) jobs ids →
  NoDup (JobSpecV1.idempotency_key <$> jobs) → NoDup ids.
Proof.
  induction 1 as [|job id jobs ids Hjob Hrest IH]; [by constructor|]. cbn. intros [Hnot Hnd]%NoDup_cons.
  constructor; [|by apply IH]. intros Hin. apply Hnot. apply list_elem_of_lookup in Hin as [k Hk].
  destruct (Forall2_lookup_r _ _ _ _ _ Hrest Hk) as (job' & Hjob' & (job_id' & lanes' & -> & _)).
  destruct Hjob as (job_id & lanes & -> & _). apply list_elem_of_fmap. eexists. split; [|by eapply list_elem_of_lookup_2]. done.
Qed.
(** A worker that holds a lease of the Governor for such a job runs it. *)
Lemma bounded_job_runs set_id project_id submitted_by deadline cores iterations job node_id governor offer selected epoch now
    lease_id nonce_id lease e claim :
  bounded_job set_id project_id submitted_by deadline cores iterations job node_id → 1 ≤ iterations ≤ 20000000 →
  Governor.authorize_job_at_epoch governor job offer selected epoch now lease_id nonce_id = Some (Ok lease) →
  WorkClaimV1.job claim = job → WorkClaimV1.lease claim = lease → ∃ text, Worker.run_cpu_benchmark e claim = Ok text.
Proof.
  intros (job_id & lanes & -> & Hlanes & _ & Hmax) Hit Hlease Hj Hl. unfold Governor.authorize_job_at_epoch in Hlease.
  destruct (Governor.check_job_at _ _ _ _ _) as [[]|]; [|done]. apply bind_Some in Hlease as (granted & Hg & Hlease).
  injection Hlease as Hlease. cbn [mapM JobSpecV1.requests benchmark_job Governor.grant] in Hg.
  apply bind_Some in Hg as (g & Hgrant & Hg). injection Hg as <-. unfold Governor.grant in Hgrant.
  apply bind_Some in Hgrant as (offered & _ & Hgrant). injection Hgrant as <-.
  assert (Worker.benchmark_lanes claim = Ok lanes) as Hlanes'.
  { unfold Worker.benchmark_lanes. rewrite Hl, <- Hlease. cbn -[in_range].
    rewrite !bool_decide_true by done. cbn -[in_range].
    assert (in_range 1 Worker.MAX_LANES lanes = true) as -> by (unfold in_range, Worker.MAX_LANES; lia). done. }
  unfold Worker.run_cpu_benchmark, Worker.required, Worker.argument. rewrite Hlanes', Hj.
  cbn [mbind result_bind benchmark_job JobSpecV1.arguments]. rewrite lookup_singleton_eq. cbn [ok_or mbind result_bind].
  rewrite parse_pretty by (unfold u64_max; lia). cbn [ok_or mbind result_bind].
  assert (in_range 1 Worker.MAX_ITERATIONS_PER_LANE iterations = true) as -> by (unfold in_range, Worker.MAX_ITERATIONS_PER_LANE; lia).
  rewrite (proj2 (Z.ltb_ge _ _)) by done. cbn [negb orb]. eauto.
Qed.

Context {laws : CryptoLaws codec crypto} {vault : Vault} {display : Display}.

(** The claim the controller hands out for a lease. *)
Definition claim_of (governor : Governor.t) (job : JobSpecV1.t) (lease : CapabilityLeaseV1.t) : WorkClaimV1.t :=
  WorkClaimV1.mk WorkClaimV1.SCHEMA job lease (Governor.public_key governor).

(** The worker executes the claim, and its receipt reports success. *)
Lemma benchmark_claim_succeeds set_id project_id submitted_by deadline cores iterations job node_id governor offer selected
    epoch at_ lease_id nonce_id lease e key store :
  bounded_job set_id project_id submitted_by deadline cores iterations job node_id → 1 ≤ iterations ≤ 20000000 →
  Governor.authorize_job_at_epoch governor job offer selected epoch at_ lease_id nonce_id = Some (Ok lease) →
  at_ - seconds 5 ≤ Worker.now e < CapabilityLeaseV1.expires_at lease →
  (CasStore.accept_authority store "governor" (CapabilityLeaseV1.fencing_epoch lease) (CapabilityLeaseV1.nonce lease)
     (CapabilityLeaseV1.expires_at lease) (Worker.accept_now e)).1 = Ok () →
  ∃ receipt store',
    Worker.execute_claim_with_store e (claim_of governor job lease) (CapabilityLeaseV1.node_id lease) epoch key store
      = (Ok receipt, store') ∧
    ExecutionReceiptV1.state receipt = JobState.Succeeded ∧
    ExecutionReceiptV1.job_id receipt = JobSpecV1.job_id job.
Proof.
  intros Hjob Hit Hlease Hnow Haccept.
  destruct (bounded_job_runs _ _ _ _ _ _ _ _ _ _ _ _ _ _ _ _ e (claim_of governor job lease) Hjob Hit Hlease eq_refl eq_refl)
    as [text Hrun].
  destruct (minted_lease_usable _ _ _ _ _ _ _ _ _ Hlease) as (Hid & Hproject & Hadapter & Hop & Hverify & Hactive).
  destruct (Hactive (Worker.now e) epoch) as [_ Hact]; [lia|].
  assert (Worker.check_claim e (claim_of governor job lease) (CapabilityLeaseV1.node_id lease) epoch = Ok ()) as Hcheck.
  { unfold Worker.check_claim, claim_of. cbn. rewrite Hid, Hproject, Hadapter, Hop, Hverify. cbn.
    rewrite Hact by lia. by rewrite !bool_decide_eq_true_2. }
  unfold Worker.execute_claim_with_store, Worker.execute_claim_inner. rewrite Hcheck.
  unfold Worker.consume_lease. cbn [claim_of WorkClaimV1.lease].
  destruct (CasStore.accept_authority _ _ _ _ _ _) as [r s'] eqn:Ha. cbn in Haccept. subst r. cbn [map_err].
  assert (Worker.run_adapter e (claim_of governor job lease) (Some s') = (Ok (Worker.AdapterOutput.of_text text), Some s')) as ->.
  { destruct Hjob as (job_id & lanes & -> & _). unfold Worker.run_adapter. rewrite Hrun. reflexivity. }
  by do 2 eexists.
Qed.


(** ** Waiting *)

Definition SLEEP : Z := 250000000.
(** From draw [n] on the clock shows at least [start], and two readings are a sleep apart. *)
Definition paced (env : Surroundings) (n : nat) (start : Z) : Prop :=
  (∀ m, (n ≤ m)%nat → start ≤ instant env m) ∧ (∀ m k, (n ≤ m)%nat → (m < k)%nat → instant env m + SLEEP ≤ instant env k).
Lemma poll_ends {A} (ask : C (option A)) deadline late env : (∀ w, (draws w ≤ draws (ask env w).2)%nat) →
  ∀ fuel start w, paced env (draws w) start → deadline - start ≤ SLEEP * Z.of_nat fuel →
  (poll (S fuel) ask deadline late env w).1 ≠ Ok None.
Proof.
  intros Hask fuel. induction fuel as [|fuel IH]; intros start w [Hstart Hapart] Hleft.
  all: cbn [poll]; unfold mbind at 1, P_bind at 1; specialize (Hask w) as Hw.
  all: destruct (ask env w) as [[[a|]|e] w1]; cbn [fst snd] in *; try done.
  all: unfold mbind at 1, P_bind at 1, draw; unfold mbind at 1, P_bind at 1, assert_; specialize (Hstart (draws w1) Hw) as Ht.
  - rewrite (proj2 (Z.ltb_ge _ _)) by lia. done.
  - destruct (instant env (draws w1) <? deadline) eqn:Hlt; [|done]. cbn [mret P_ret].
    apply (IH (instant env (draws w1) + SLEEP)); [|cbn [draws]; lia]. split; cbn [draws].
    + intros m Hm. apply Hapart; lia.
    + intros m k Hm Hk. apply Hapart; lia.
Qed.
Lemma send_draws r env w : (draws w ≤ draws (send r env w).2)%nat.
Proof. unfold send, mbind, P_bind, change, draw. cbn. destruct (http env (draws w)); cbn; lia. Qed.
Context (platform : Platform) (env_var : string → option string).
Lemma fetch_draws url env w : (draws w ≤ draws (fetch_json platform env_var url env w).2)%nat.
Proof.
  unfold fetch_json, mbind, P_bind, look. cbn. pose proof (send_draws (Request.mk GET url (local_token platform env_var (Console.files (state w)))) env w) as H.
  destruct (send _ env w) as [[[status body]|e] w1]; [|done]. unfold decode_json_response.
  destruct (in_range _ _ _); [|done]. by destruct (json_from_str body).
Qed.
(** A wait of the command line ends: after at most four questions per second of its timeout, and
    one more, there is an answer or an error. *)
Theorem wait_ends timeout_seconds late env w controller job_id set_id :
  (∀ m, (draws w < m)%nat → instant env (draws w) ≤ instant env m) →
  (∀ m k, (draws w < m)%nat → (m < k)%nat → instant env m + SLEEP ≤ instant env k) →
  let fuel := S (Z.to_nat (4 * Z.max timeout_seconds 1)) in
  ((deadline ← deadline_after timeout_seconds; poll fuel (last_receipt platform env_var controller job_id) deadline late) env w).1 ≠ Ok None ∧
  ((deadline ← deadline_after timeout_seconds; poll fuel (finished_set platform env_var controller set_id) deadline late) env w).1 ≠ Ok None.
Proof.
  intros Hmono Hapart fuel. unfold deadline_after. split; unfold mbind at 1, P_bind at 1, mbind at 1, P_bind at 1, draw.
  all: apply (poll_ends _ _ _ _) with (start := instant env (draws w)); cbn [draws].
  all: try (split; [intros m Hm; apply Hmono; lia|intros m k Hm Hk; apply Hapart; lia]).
  all: try (unfold seconds, SLEEP; lia).
  - intros w'. unfold last_receipt, mbind at 1, P_bind at 1. pose proof (fetch_draws (controller +:+ "/v1/receipts?job_id=" +:+ uuid_to_string job_id) env w').
    by destruct (fetch_json _ _ _ env w') as [[v|e] w1].
  - intros w'. unfold finished_set, mbind at 1, P_bind at 1. pose proof (fetch_draws (controller +:+ "/v1/shard-sets/" +:+ uuid_to_string set_id) env w').
    by destruct (fetch_json _ _ _ env w') as [[v|e] w1].
Qed.
End cli.

(** ** Artifacts *)

Section artifacts.
Context {codec : Codec} {crypto : Crypto} {ser : Serializer} {vault : Vault} {render : Render}
        {order : HashOrder} {wire : ContractWire} {iroh : Iroh} {base64 : Base64} {pretty_json : Pretty}.
Context {wire_model_session : Wire ModelSessionRequestV1.t}.
Context (platform : Platform) (env_var : string → option string) (agent_beside is_file_path : string → bool).
Hypothesis base64_back : ∀ s, base64_decode (base64_encode s) = Some s.

Lemma answer_of_get digest env c v c' :
  Artifacts.get_artifact digest env c = (Ok v, c') →
  ∃ payload, CasStore.get (AppState.artifact_store c.2) digest = Ok payload ∧ CasStore.sha256_digest payload = digest ∧
    payload_of v = Ok payload.
Proof.
  unfold Artifacts.get_artifact, mbind, M_bind, ControllerState.read, lift. cbn.
  destruct (CasStore.head _ digest) as [artifact|]; [|done]. cbn. destruct (CasStore.get _ digest) as [payload|] eqn:E; [|done].
  cbn. intros [= <- _]. exists payload. split_and!; [done|by eapply get_digest|]. unfold payload_of.
  assert (∀ a b, field_str "data_base64" (VObject [("artifact", a); ("data_base64", VString b); ("schema", VString "rampage.artifact-payload.v1")]) = Some b)
    as -> by reflexivity. cbn. by rewrite base64_back.
Qed.
(** An artifact arrives as it was named.  When the controller answers a request for an
    artifact, the bytes that the client library returns, and that the command line writes to the
    output file, are those of the store and hash to the digest that was asked for. *)
Theorem fetched_artifact_arrives fuel controller client digest output env c v c' surroundings w :
  Artifacts.get_artifact digest env c = (Ok v, c') → json_stable v →
  http surroundings (draws w) = Some (200, json_to_string v) → (∀ n, sight surroundings n = false) →
  ∃ payload, CasStore.get (AppState.artifact_store c.2) digest = Ok payload ∧ CasStore.sha256_digest payload = digest ∧
    (Client.get_artifact client digest surroundings w).1 = Ok payload ∧
    ∃ w', Cli.main platform env_var agent_beside is_file_path fuel controller (ArtifactGet digest output) surroundings w = (Ok (Some ()), w') ∧
      Console.files (state w') = <[output := payload]> (Console.files (state w)).
Proof.
  intros (payload & Hget & Hdigest & Hv)%answer_of_get Hstable Hhttp Hsight. exists payload. split_and!; [done..| |].
  - unfold Client.get_artifact, Client.get, send, mbind, P_bind, change, draw, decoded. cbn. rewrite Hhttp. cbn.
    unfold decode_json. rewrite Hstable. cbn. by rewrite Hv.
  - cbn [Cli.main]. unfold done_, fetch_json, send, write_artifact_payload, write_file, io, print_json, mbind, P_bind, look, change, draw,
      obtain, try_, mret, P_ret. cbn [draws sent state]. rewrite Hhttp. cbv beta iota zeta.
    unfold decode_json_response. change (in_range 200 299 200) with true. cbv beta iota. rewrite Hstable.
    unfold obtain, mret, P_ret. cbv beta iota. rewrite Hv. cbn [draws sent state]. rewrite !Hsight. cbv beta iota. eexists.
    split; [reflexivity|]. done.
Qed.
End artifacts.

Module Terminal.
Import ReferenceCrypto Samples.

Definition offer (node cores : Z) (adapter name : string) : Value := VObject [
  ("adapters", VArray [VString adapter]); ("node_id", VString (uuid_to_string node));
  ("resources", VArray [VObject [("available", VInt cores); ("class", VString "cpu_compute");
                                 ("labels", VObject [("device_name", VString name)])]])].
(** The second machine does not advertise the benchmark. *)
Definition offers : Value := VArray [
  offer 11 3 "rampage.benchmark.v1" "Main PC"; offer 12 8 "rampage.echo.v1" "Old worker"; offer 13 8 "rampage.benchmark.v1" "Laptop"].
Definition surroundings (answer : nat → option (Z * string)) : Surroundings :=
  mkSurroundings (λ _, seconds 5) (λ n, Z.of_nat n + 100) (λ _, "") (λ _, mkAddress "" [] []) (λ _, None) (λ _, Elapsed) (λ _, 0)
    (λ _, Completed ()) (λ _, WorkerFacts.Witness.env (seconds 1)) (λ n, Z.of_nat n * SLEEP) (λ _, false) answer (λ _, false).
Definition terminal : World Console.t := mkWorld 0 [] (Console.mk [] [] {[["home"; "data"] := "artifact"]}).
Definition made : result Trouble.t (ShardSetV1.t * gmap Uuid string) * World Console.t :=
  make_benchmark_set offers 4 100 (surroundings (λ _, None)) terminal.
Definition nothing : ShardSetV1.t := ShardSetV1.mk "" 0 0 0 [] 0 0 "".
Definition set : ShardSetV1.t := match made.1 with Ok (set, _) => set | Err _ => nothing end.
Definition names : gmap Uuid string := match made.1 with Ok (_, names) => names | Err _ => ∅ end.
Lemma made_ok : made = (Ok (set, names), made.2).
Proof.
  assert (is_ok made.1 = true) as H by (vm_compute; reflexivity). unfold set, names. by destruct made as [[[s n]|e] w].
Qed.
Example two_jobs : length (ShardSetV1.shards set) = 2%nat ∧ names !! 11 = Some "Main PC" ∧ names !! 12 = None.
Proof. vm_compute. split_and!; reflexivity. Qed.
(** The Governor leases the first job on the main machine, and the worker there executes it. *)
#[local] Existing Instances StorageFacts.Witness.reference_vault WorkerFacts.Witness.reference_display.
Definition governor : Governor.t := Governor.from_signing_key GovernorConfig.default WorkerFacts.Witness.governor_key.
Definition machine : ResourceOfferV1.t :=
  ResourceOfferV1.mk "rampage.resource-offer.v1" 21 11 0 (minutes 1)
    [ResourceQuantityV1.mk ResourceClass.CpuCompute 4 3 "logical_core" {["node_id" := uuid_to_string 11]}]
    (AvailabilityV1.mk true None 80 true true) {["rampage.benchmark.v1"]} [] [] None None "".
Definition first_job : option JobSpecV1.t := head (ShardSetV1.shards set).
Definition leased : option (JobSpecV1.t * CapabilityLeaseV1.t) :=
  match first_job ≫= λ job, pair job <$> Governor.authorize_job_at_epoch governor job machine 11 4 (seconds 5) 31 32 with
  | Some (job, Ok lease) => Some (job, lease)
  | _ => None
  end.
Lemma leased_ok job lease : leased = Some (job, lease) →
  job ∈ ShardSetV1.shards set ∧
  Governor.authorize_job_at_epoch governor job machine 11 4 (seconds 5) 31 32 = Some (Ok lease).
Proof.
  unfold leased, first_job. destruct (ShardSetV1.shards set) as [|job' jobs]; [done|]. cbn [head mbind option_bind].
  destruct (Governor.authorize_job_at_epoch _ _ _ _ _ _ _ _) as [[lease'|]|] eqn:E; cbn; [|done|done].
  intros [= -> ->]. split; [left|exact E].
Qed.
End Terminal.

(** The controller holds an artifact; the client library and the command line fetch it. *)
Module Fetch.
Import ReferenceCrypto StorageFacts.Witness Samples History History.Witness.
Import ReplicaHistory (wire, env, content, digest, steps, checkpoint_wire, model_lease_wire, model_receipt_wire, desktop_lease_wire, desktop_frame_wire).
#[local] Existing Instances wire checkpoint_wire model_lease_wire model_receipt_wire desktop_lease_wire desktop_frame_wire.
#[local] Instance spaced : Pretty := {| json_to_string_pretty := json_to_string |}.
#[local] Instance wire_model_session : Wire ModelSessionRequestV1.t := {| to_value _ := VNull; from_value _ := None |}.

Definition controller : nat * AppState.t := (run unnamed steps start).2.
Definition answer : result Failure.t Value * (nat * AppState.t) := Artifacts.get_artifact digest env controller.
Definition response : Value := match answer.1 with Ok v => v | Err _ => VNull end.
Lemma answered : answer = (Ok response, answer.2).
Proof.
  assert (is_ok answer.1 = true) as H by (vm_compute; reflexivity). unfold response. by destruct answer as [[v|e] c].
Qed.
Definition surroundings : Surroundings := Terminal.surroundings (λ _, Some (200, json_to_string response)).
Definition client : RampageClient.t := RampageClient.mk "http://127.0.0.1:47831" (Some "token").
Definition output : PathBuf := ["home"; "copy"].
Lemma hex_back s : base64_decode (base64_encode s) = Some s.
Proof. apply (hex_decode_encode (CryptoLaws := reference_crypto_laws)). Qed.
Lemma fetched_artifact_arrives_witness :
  ∃ payload, CasStore.get (AppState.artifact_store controller.2) digest = Ok payload ∧ CasStore.sha256_digest payload = digest ∧
    (Client.get_artifact client digest surroundings Terminal.terminal).1 = Ok payload ∧
    ∃ w', Cli.main OtherPlatform (λ _, None) (λ _, false) (λ _, false) 0 "http://127.0.0.1:47831" (ArtifactGet digest output)
            surroundings Terminal.terminal = (Ok (Some ()), w') ∧
      Console.files (state w') = <[output := payload]> (Console.files (state Terminal.terminal)).
Proof.
  apply (fetched_artifact_arrives OtherPlatform (λ _, None) (λ _, false) (λ _, false) hex_back 0 "http://127.0.0.1:47831" client
           digest output env controller response answer.2 surroundings Terminal.terminal).
  - exact answered.
  - exact (Reference.reference_stable response).
  - reflexivity.
  - reflexivity.
Defined.
End Fetch.
