(* ===== verification/RelayProcess.v ===== *)
(** * The relay process (crates/rampage-relay/src/main.rs)

    The three commands of the relay: making a configuration from the controller of this machine,
    checking one, and the start of the server.  A configuration that is written can be loaded,
    and no existing one is overwritten. *)

From S2P Require Import Prelude.
From S2P Require Import Codec.
From S2P Require Import Text.
From S2P Require Import Contracts.
From S2P Require Import Signing.
From S2P Require Import Relay.
Import Text Relay.
#[local] Open Scope Z_scope.

Definition MAX_CONTROLLER_RESPONSE_BYTES : Z := 1024 * 1024.

(** Regular files by path. *)
Abbreviation Disk := (gmap string string).
Definition as_files (d : Disk) (path : string) : option File := (λ bytes, mkFile true (len bytes) bytes) <$> d !! path.
(** Whether the staging file can be created, written and published; a write that fails leaves some
    bytes. *)
Record Outcomes := mkOutcomes { created : bool; written : bool; partial : string; renamed : bool }.

(** [path.with_extension(ext)]: the name without what follows its last dot, unless that is its
    first character. *)
Fixpoint stem (s : string) : option string :=
  match s with
  | "" => None
  | String c s => match stem s with Some t => Some (String c t) | None => if c == "."%char then Some "" else None end
  end.
Definition name_with_extension (ext name : string) : string :=
  match name with
  | "" => ""
  | String c s => String c (default s (stem s)) +:+ "." +:+ ext
  end.
Fixpoint with_extension (ext path : string) : string :=
  match path with
  | "" => ""
  | String c rest =>
      if contains "/" rest then String c (with_extension ext rest)
      else if c == "/"%char then String c (name_with_extension ext rest)
      else name_with_extension ext path
  end.

Section process.
Context {codec : Codec} {crypto : Crypto} {ser : Serializer} {parsers : RelayParsers}.
(** [base.join(path)] as text, [serde_json::to_vec_pretty] of a configuration, and the key in the
    answer of the controller. *)
Context (url_join : Url.t → string → option string) (config_to_json : OwnerRelayConfigV1.t → string)
        (governor_key_from_json : string → option string).

Definition validated_controller_base (input : string) : option Url.t :=
  parsed ← url_parse input;
  host ← Url.host_str parsed;
  ip ← IpAddr.parse (trim_end_matches "]" (trim_start_matches "[" host));
  _ ← ensure (((Url.scheme parsed == "http") || (Url.scheme parsed == "https")) && IpAddr.is_loopback ip
              && is_empty (Url.username parsed) && is_none (Url.password parsed) && is_none (Url.query parsed)
              && is_none (Url.fragment parsed) && ((Url.path parsed == "") || (Url.path parsed == "/")));
  Some parsed.
Definition read_controller_token (files : string → option File) (path : string) : option string :=
  token ← read_bounded_file files path 512;
  _ ← ensure (is_utf8 token);
  Some token.
Definition bounded_response : Response → option string := read_bounded_response.

(** What is checked before anything is written. *)
Definition prepare (env : Env) (public_url controller_url controller_token_file : string) (bind : SocketAddr.t)
    : option OwnerRelayConfigV1.t :=
  base ← validated_controller_base controller_url;
  governor_url ← url_join base "/v1/governor/key";
  manifest_url ← url_join base "/v1/mesh/relay-access";
  token ← read_controller_token (files env) controller_token_file;
  let token := trim token in
  _ ← ensure (negb (is_empty token) && (len token <=? 512));
  response ← http_get env governor_url token;
  _ ← ensure (is_success response);
  _ ← ensure (default 0 (content_length response) <=? MAX_CONTROLLER_RESPONSE_BYTES);
  body ← bounded_response response;
  public_key ← governor_key_from_json body;
  let config := OwnerRelayConfigV1.reverse_proxy public_url public_key manifest_url controller_token_file bind in
  _ ← validate config;
  access ← new config;
  _ ← (check_access env access).1;
  Some config.
(** Publishing it: a staging file that must be new, renamed over a path that must be free. *)
Definition publish (outcomes : Outcomes) (path encoded : string) (d : Disk) : bool * Disk :=
  let temporary := with_extension "json.tmp" path in
  if is_some (d !! path) then (false, d)
  else if is_some (d !! temporary) || negb (created outcomes) then (false, d)
  else if negb (written outcomes) then (false, <[temporary := partial outcomes]> d)
  else if renamed outcomes then (true, <[path := encoded]> d)
  else (false, d).
Definition init (env : Env) (outcomes : Outcomes) (public_url path controller_url controller_token_file : string)
    (bind : SocketAddr.t) (d : Disk) : option OwnerRelayConfigV1.t * Disk :=
  match prepare env public_url controller_url controller_token_file bind with
  | None => (None, d)
  | Some config =>
      let '(published, d) := publish outcomes path (config_to_json config) d in
      (if published then Some config else None, d)
  end.
Definition check (env : Env) (path : string) : option (OwnerRelayConfigV1.t * RelayAccessManifestV1.t) :=
  config ← load (files env) path;
  access ← new config;
  manifest ← (check_access env access).1;
  Some (config, manifest).
Definition serve (env : Env) (tls_ok : ManualTlsConfigV1.t → bool) (path : string) : option (t * Z * Z) :=
  config ← load (files env) path;
  spawn_owner_relay env tls_ok config.

(** ** Facts *)

(** A write that fails leaves the staging file, and every later attempt is refused because of it. *)
Theorem failed_write_blocks outcomes path encoded d :
  d !! path = None → d !! with_extension "json.tmp" path = None → created outcomes = true → written outcomes = false →
  ∀ outcomes' encoded', (publish outcomes' path encoded' (publish outcomes path encoded d).2).1 = false.
Proof.
  intros Hpath Htemporary Hcreated Hwritten outcomes' encoded'. unfold publish. rewrite Hpath, Htemporary, Hcreated, Hwritten. cbn.
  rewrite lookup_insert_eq. cbn. by destruct (is_some _).
Qed.
Hypothesis config_back : ∀ config, config_from_json (config_to_json config) = Some config.
Lemma relay_bind_some {A B} (o : option A) (f : A → option B) b : (o ≫= f) = Some b → ∃ a, o = Some a ∧ f a = Some b.
Proof. destruct o; [eauto|done]. Qed.
Lemma prepared_valid env public_url controller_url token_file bind config :
  prepare env public_url controller_url token_file bind = Some config →
  validate config = Some () ∧ ∃ access manifest, new config = Some access ∧ (check_access env access).1 = Some manifest.
Proof.
  unfold prepare. intros H. do 10 (apply relay_bind_some in H as (? & _ & H)).
  apply relay_bind_some in H as ([] & Hvalid & H). apply relay_bind_some in H as (access & Hnew & H).
  apply relay_bind_some in H as (manifest & Hcheck & H). injection H as <-. eauto 6.
Qed.
Lemma substring_all n s : (String.length s <= n)%nat → String.substring 0 n s = s.
Proof. revert s. induction n as [|n IH]; intros [|c s] Hn; cbn in *; [done|lia|done|]. f_equal. apply IH. lia. Qed.
(** A configuration that was made loads again, checks and starts as long as the controller
    answers; whatever happens, no file that was there is changed. *)
Theorem relay_initialized env outcomes public_url path controller_url token_file bind d :
  let '(made, d') := init env outcomes public_url path controller_url token_file bind d in
  (∀ name bytes, d !! name = Some bytes → d' !! name = Some bytes) ∧
  match made with
  | Some config =>
      d' !! path = Some (config_to_json config) ∧ validate config = Some () ∧
      (len (config_to_json config) ≤ MAX_MANIFEST_BYTES → load (as_files d') path = Some config) ∧
      ∃ access manifest, new config = Some access ∧ (check_access env access).1 = Some manifest
  | None => True
  end.
Proof.
  unfold init. destruct (prepare _ _ _ _ _) as [config|] eqn:Hp; [|done]. apply prepared_valid in Hp as [Hvalid Haccess].
  unfold publish. destruct (d !! path) eqn:Hpath; [done|]. cbn [is_some].
  destruct (is_some (d !! _)) eqn:Htemp; [done|]. cbn [orb]. destruct (created outcomes); [|done]. cbn [negb].
  destruct (written outcomes); cbn [negb].
  - destruct (renamed outcomes); [|done]. split; [intros name bytes Hn; rewrite lookup_insert_ne; [done|congruence]|].
    split_and!; [apply lookup_insert_eq|done| |done]. intros Hlen. unfold load, read_bounded_file, as_files. rewrite lookup_insert_eq.
    cbn [fmap option_fmap option_map mbind option_bind is_file metadata_len content andb]. apply Z.leb_le in Hlen as Hle. rewrite Hle.
    cbn [ensure mbind option_bind]. rewrite substring_all by (unfold MAX_MANIFEST_BYTES, len in *; lia). rewrite Hle.
    cbn [ensure mbind option_bind]. rewrite config_back. cbn. by rewrite Hvalid.
  - split; [|done]. intros name bytes Hn. rewrite lookup_insert_ne; [done|]. intros <-. by rewrite Hn in Htemp.
Qed.
End process.
