(* ===== verification/LocalAi.v ===== *)
(** * The local model server (apps/desktop/src-tauri/src/local_ai.rs)

    The desktop application installs a model server of a fixed version and a model of a fixed
    digest.  What it shows as ready is qualified. *)

From S2P Require Import Prelude.
From S2P Require Import Codec.
From S2P Require Import Text.
From S2P Require Import Contracts.
From S2P Require Import Wire.
From S2P Require Import Mesh.
From S2P Require Import Process.
From S2P Require Import Pairing.
From S2P Require Import Desktop.
Import Text.
#[local] Open Scope Z_scope.

Definition DEFAULT_MODEL_ID : string := "qwen3:4b".
Definition DEFAULT_MODEL_DIGEST : string := "359d7dd4bcdab3d86b87d73ac27966f4dbb9f5efdfcc75d34a8764a09474fae7".
Definition OLLAMA_VERSION : string := "0.32.5".
Definition MAX_OLLAMA_RESPONSE_BYTES : Z := 1024 * 1024.

Module LocalAiRuntimeView.
Record t := mk { state : string; model_id : string; runtime_version : option string; model_digest : option string; message : string }.
Definition default : t := mk "detecting" DEFAULT_MODEL_ID None None "Checking the local AI runtime.".
End LocalAiRuntimeView.
Abbreviation L := (P LocalAiRuntimeView.t).

Section bootstrap.
Context {codec : Codec}.
(** The platform, and the environment variable [LOCALAPPDATA]. *)
Context (windows : bool) (LOCALAPPDATA : option string).

Definition update (state message : string) (runtime_version model_digest : option string) : L () :=
  change (λ _, LocalAiRuntimeView.mk state DEFAULT_MODEL_ID runtime_version model_digest message).
Definition view : L LocalAiRuntimeView.t := look id.
Definition bootstrap_disabled (value : option string) : bool :=
  is_some_and (λ value, eq_ignore_ascii_case value "true" || (value == "1")) value.

(** [send().and_then(error_for_status)]: the body of an answer that is no error. *)
Definition answer : L string :=
  answer ← draw http;
  '(status, body) ← obtain answer Trouble.HttpFailed;
  _ ← assert_ (negb (in_range 400 599 status)) "HTTP status";
  mret body.
Definition ollama_version : L (option string) :=
  body ← outcome answer;
  mret (match body with Ok body => value ← json_from_str body; field_str "version" value | Err _ => None end).
Definition read_bounded (body : string) (limit : Z) : result Trouble.t string :=
  if limit <? len body then Err (Trouble.Complaint "local AI response exceeds the limit") else Ok body.
Definition ollama_tags : L Value :=
  body ← answer;
  payload ← try_ id (read_bounded body MAX_OLLAMA_RESPONSE_BYTES);
  obtain (json_from_str payload) (Trouble.Complaint "Ollama returned an invalid model inventory").
Definition find_map {A B} (f : A → option B) (l : list A) : option B := head (omap f l).
Definition qualified_model_digest (tags : Value) (model_id expected_digest : string) : option string :=
  models ← field "models" tags;
  models ← match models with VArray models => Some models | _ => None end;
  find_map (λ model,
    candidate ← match field "model" model with Some v => Some v | None => field "name" model end;
    candidate ← as_str candidate;
    digest ← field_str "digest" model;
    let digest := to_ascii_lowercase (trim digest) in
    if eq_ignore_ascii_case candidate model_id && (digest == expected_digest) then Some ("sha256:" +:+ digest) else None) models.
Fixpoint wait (attempts : nat) : L () :=
  match attempts with
  | O => raise (Trouble.Complaint "Ollama did not become ready within three minutes")
  | S attempts => version ← ollama_version; if is_some version then mret () else wait attempts
  end.
Definition wait_for_ollama : L () := wait 180.
(** The installer and the start of the server are processes that may fail. *)
Definition process (text : string) : L () := failed ← draw sight; assert_ (negb failed) text.
Definition install_ollama : L () :=
  if windows then
    _ ← process "could not start the pinned winget installer";
    process "winget failed while installing Ollama"
  else raise (Trouble.Complaint "automatic Ollama installation is currently implemented only for Windows").
Definition ensure_ollama_started : L () :=
  if windows then
    _ ← obtain LOCALAPPDATA (Trouble.Complaint "LOCALAPPDATA is unavailable");
    _ ← process "the Ollama installer completed but ollama.exe is missing";
    process "could not start Ollama's loopback service"
  else mret ().
Definition READY : string := DEFAULT_MODEL_ID +:+ " is installed and qualified for signed whole-model work.".
Definition bootstrap : L () :=
  _ ← update "detecting" "Checking Ollama on loopback." None None;
  found ← ollama_version;
  _ ← (if is_some found then mret ()
       else
         _ ← update "installing" "Installing the pinned Ollama runtime. This one-time download is about 1.6 GB." None None;
         _ ← install_ollama;
         _ ← ensure_ollama_started;
         wait_for_ollama);
  version ← ollama_version;
  version ← obtain version (Trouble.Complaint "Ollama did not expose its loopback version endpoint");
  _ ← assert_ (version == OLLAMA_VERSION) "Ollama is running a version that this Rampage build does not qualify";
  tags ← ollama_tags;
  match qualified_model_digest tags DEFAULT_MODEL_ID DEFAULT_MODEL_DIGEST with
  | Some digest => update "ready" READY (Some version) (Some digest)
  | None =>
      _ ← update "pulling_model"
            ("Downloading " +:+ DEFAULT_MODEL_ID +:+ " once (about 2.5 GB), then verifying its digest.") (Some version) None;
      body ← answer;
      payload ← try_ id (read_bounded body MAX_OLLAMA_RESPONSE_BYTES);
      result ← obtain (json_from_str payload) (Trouble.Complaint "Ollama returned an invalid pull result");
      _ ← assert_ (field_str "status" result == Some "success") "Ollama did not report a successful model pull";
      tags ← ollama_tags;
      digest ← obtain (qualified_model_digest tags DEFAULT_MODEL_ID DEFAULT_MODEL_DIGEST)
                 (Trouble.Complaint "the pulled model digest does not match Rampage's qualified inventory");
      update "ready" READY (Some version) (Some digest)
  end.
Definition schedule (disabled : bool) (RAMPAGE_DISABLE_LOCAL_AI_BOOTSTRAP : option string) : L () :=
  if disabled || bootstrap_disabled RAMPAGE_DISABLE_LOCAL_AI_BOOTSTRAP then
    update "disabled" "Automatic local AI setup is disabled for this diagnostic run." None None
  else
    result ← outcome bootstrap;
    match result with
    | Ok _ => mret ()
    | Err error => update "failed" ("Local AI setup needs attention: " +:+ text_of error) None None
    end.

(** ** Facts *)

(** What is shown as ready has the version and the digest this build qualifies. *)
Definition honest (v : LocalAiRuntimeView.t) : Prop :=
  LocalAiRuntimeView.state v = "ready" →
  LocalAiRuntimeView.runtime_version v = Some OLLAMA_VERSION ∧
  LocalAiRuntimeView.model_digest v = Some ("sha256:" +:+ DEFAULT_MODEL_DIGEST).
Lemma qualified_is_expected tags model_id expected digest :
  qualified_model_digest tags model_id expected = Some digest → digest = "sha256:" +:+ expected.
Proof.
  unfold qualified_model_digest, find_map. destruct (field "models" tags) as [[]|]; try done. cbn. intros H.
  apply head_Some_elem_of, list_elem_of_omap in H as (model & _ & H).
  apply bind_Some in H as (c & _ & H). apply bind_Some in H as (c' & _ & H). apply bind_Some in H as (d & _ & H).
  destruct (_ && _) eqn:E; [|done]. apply andb_prop in E as [_ E%bool_decide_eq_true]. rewrite E in H. by injection H as <-.
Qed.
Lemma holds_update_shown state message version digest :
  state ≠ "ready" → holds honest (update state message version digest) (λ _, True).
Proof. intros Hs. apply holds_change. by intros s _ ?. Qed.
Lemma holds_update_ready digest message :
  digest = "sha256:" +:+ DEFAULT_MODEL_DIGEST → holds honest (update "ready" message (Some OLLAMA_VERSION) (Some digest)) (λ _, True).
Proof. intros ->. apply holds_change. by intros s _ _. Qed.
#[local] Hint Resolve holds_update_shown holds_update_ready : holds.
#[local] Hint Extern 1 (_ ≠ "ready") => discriminate : holds.
Lemma holds_answer : holds honest answer (λ _, True).
Proof. unfold answer. hold; done. Qed.
#[local] Hint Resolve holds_answer : holds.
Lemma holds_version : holds honest ollama_version (λ _, True).
Proof. unfold ollama_version. hold; done. Qed.
Lemma holds_tags : holds honest ollama_tags (λ _, True).
Proof. unfold ollama_tags. hold; done. Qed.
#[local] Hint Resolve holds_version holds_tags : holds.
Lemma holds_wait n : holds honest (wait n) (λ _, True).
Proof. induction n; cbn [wait]; hold; done. Qed.
Lemma holds_process text : holds honest (process text) (λ _, True).
Proof. unfold process. hold; done. Qed.
#[local] Hint Resolve holds_wait holds_process : holds.
Lemma holds_install : holds honest install_ollama (λ _, True).
Proof. unfold install_ollama. hold; done. Qed.
Lemma holds_started : holds honest ensure_ollama_started (λ _, True).
Proof. unfold ensure_ollama_started. hold; done. Qed.
#[local] Hint Resolve holds_install holds_started : holds.
Lemma holds_bootstrap : holds honest bootstrap (λ _, True).
Proof.
  unfold bootstrap, wait_for_ollama. hold; try done.
  all: repeat match goal with H : _ |- _ => progress cbv beta in H end.
  all: repeat match goal with H : bool_decide _ = true |- _ => apply bool_decide_eq_true in H; subst end.
  all: apply holds_update_ready; by eapply qualified_is_expected.
Qed.
(** The view of the local model server is honest: whatever the server, the installer and the
    network answer, it says that the server is ready only with the version and the model digest
    that this build qualifies. *)
Theorem ready_is_qualified disabled variable env w :
  honest (state w) → honest (state (schedule disabled variable env w).2).
Proof.
  intros Hw. assert (holds honest (schedule disabled variable) (λ _, True)) as H.
  { unfold schedule. pose proof holds_bootstrap. hold; done. }
  by apply (H env w).
Qed.
End bootstrap.
