(* ===== verification/ProcessTree.v ===== *)
(** * Killing a process with its descendants (apps/desktop/src-tauri/src/lib.rs)

    A child is killed from a snapshot of all processes: its descendants first, then itself, and
    then the application waits until all of them are gone.  The recursion over the snapshot ends
    unless the child is among its own descendants, it finds exactly the descendants, and each of
    them before its parent. *)

From S2P Require Import Prelude.
From S2P Require Import Codec.
From S2P Require Import Text.
From S2P Require Import Contracts.
From S2P Require Import Storage.
Import Text.
#[local] Open Scope Z_scope.

(** [System]: the processes with their parents, in the order of the table. *)
Abbreviation System := (list (Z * option Z)).

(** The loop of [descendant_pids] over the processes, and its recursion; [None] if that is deeper
    than [fuel]. *)
Fixpoint collect (recur : Z → option (list Z)) (root : Z) (processes : System) : option (list Z) :=
  match processes with
  | [] => Some []
  | (pid, parent) :: processes =>
      if parent == Some root then
        below ← recur pid;
        rest ← collect recur root processes;
        Some (below ++ pid :: rest)
      else collect recur root processes
  end.
Fixpoint descendant_pids (fuel : nat) (system : System) (root : Z) : option (list Z) :=
  match fuel with O => None | S fuel => collect (descendant_pids fuel system) root system end.

(** [wait_for_process_exit]: what each look sees, and when; [Err] names the ones that remain. *)
Fixpoint wait_for_process_exit (pids : list Z) (deadline : Z) (looks : list (gset Z * Z)) : option (result (list Z) ()) :=
  match looks with
  | [] => None
  | (alive, now) :: looks =>
      let remaining := filter (λ pid, pid ∈ alive) pids in
      if no_elems remaining then Some (Ok ())
      else if deadline <=? now then Some (Err remaining)
      else wait_for_process_exit pids deadline looks
  end.
Definition SIDECAR_STOP_TIMEOUT : Z := seconds 5.
(** The processes that are asked to end, in this order, and the outcome of the wait. *)
Definition kill_process_tree (system : System) (child now : Z) (looks : list (gset Z * Z))
    : option (list Z * option (result (list Z) ())) :=
  descendants ← descendant_pids (S (length system)) system child;
  let watched := descendants ++ [child] in
  Some (filter (λ pid, pid ∈ system.*1) watched, wait_for_process_exit watched (now + SIDECAR_STOP_TIMEOUT) looks).

(** ** Descendants *)

Definition child_of (system : System) (pid parent : Z) : Prop := (pid, Some parent) ∈ system.
Definition descends (system : System) : Z → Z → Prop := tc (child_of system).

Section snapshot.
Context (system : System) (Hunique : NoDup system.*1).

Lemma parent_unique pid p q : child_of system pid p → child_of system pid q → p = q.
Proof.
  unfold child_of. intros [i Hp]%list_elem_of_lookup [j Hq]%list_elem_of_lookup.
  assert (i = j) as ->; [|congruence]. eapply (NoDup_lookup system.*1); [done|rewrite list_lookup_fmap, Hp|rewrite list_lookup_fmap, Hq]; done.
Qed.
(** The way up from a process to the root. *)
Inductive way (root : Z) : Z → list Z → Prop :=
| way_root : way root root [root]
| way_child pid parent l : child_of system pid parent → way root parent l → way root pid (pid :: l).
Lemma way_head root pid l : way root pid l → ∃ l', l = pid :: l'.
Proof. intros []; eauto. Qed.
(** On the way up there is only one step from a process that is not the root. *)
Lemma way_next root pid l x : way root pid l → x ∈ l → x = root ∨ ∃ l1 y l2, child_of system x y ∧ l = l1 ++ x :: y :: l2.
Proof.
  induction 1 as [|pid parent l Hc Hw IH]; intros Hx.
  - apply list_elem_of_singleton in Hx. auto.
  - apply elem_of_cons in Hx as [->|Hx].
    + right. destruct (way_head _ _ _ Hw) as [l' ->]. by exists [], parent, l'.
    + destruct (IH Hx) as [?|(l1 & y & l2 & Hy & ->)]; [by left|]. right. by exists (pid :: l1), y, l2.
Qed.
Lemma way_descends root pid l child : way root pid l → child_of system child pid → descends system child root.
Proof.
  intros Hw. revert child. induction Hw as [|pid parent l Hc Hw IH]; intros child Hchild; [by apply tc_once|].
  eapply tc_l; [done|]. by apply IH.
Qed.
(** A child of the current process is not on the way to the root. *)
Lemma way_fresh root pid l child :
  ¬ descends system root root → way root pid l → NoDup l → child_of system child pid → child ∉ l.
Proof.
  intros Hroot Hw Hnd Hchild Hin. destruct (way_next _ _ _ _ Hw Hin) as [->|(l1 & y & l2 & Hy & Hl)].
  - apply Hroot. by eapply way_descends.
  - assert (y = pid) as -> by by eapply parent_unique. destruct (way_head _ _ _ Hw) as [l' Hl'].
    rewrite Hl' in Hl. destruct l1 as [|z l1]; injection Hl as -> Hl.
    + rewrite Hl', Hl in Hnd. apply NoDup_cons in Hnd as [Hnot _]. apply Hnot. left.
    + rewrite Hl', Hl in Hnd. apply NoDup_cons in Hnd as [Hnot _]. apply Hnot. rewrite elem_of_app. right. right. left.
Qed.
Lemma way_length root pid l : way root pid l → NoDup l → (length l <= S (length system))%nat.
Proof.
  intros Hw Hnd. assert (l ⊆ root :: system.*1) as Hsub.
  { clear Hnd. induction Hw as [|pid parent l Hc Hw IH]; [set_solver|]. intros x [->|Hx]%elem_of_cons; [|by apply IH].
    right. by apply (list_elem_of_fmap_2 fst _ (pid, Some parent)). }
  apply NoDup_submseteq in Hsub; [|done]. apply submseteq_length in Hsub. cbn in Hsub. by rewrite length_fmap in Hsub.
Qed.

(** The recursion ends. *)
Lemma collect_total recur root processes :
  (∀ pid, (pid, Some root) ∈ processes → is_Some (recur pid)) → is_Some (collect recur root processes).
Proof.
  induction processes as [|[pid parent] processes IH]; intros Hrec; [by eexists|]. cbn.
  destruct (bool_decide_reflect (parent = Some root)) as [->|_].
  - destruct (Hrec pid ltac:(left)) as [below ->]. destruct IH as [rest ->]; [|by eexists]. intros x Hx. apply Hrec. by right.
  - apply IH. intros x Hx. apply Hrec. by right.
Qed.
Lemma descendants_total root fuel pid l :
  ¬ descends system root root → way root pid l → NoDup l → (S (length system) < fuel + length l)%nat →
  is_Some (descendant_pids fuel system pid).
Proof.
  intros Hroot. revert pid l. induction fuel as [|fuel IH]; intros pid l Hw Hnd Hfuel.
  - pose proof (way_length _ _ _ Hw Hnd). lia.
  - cbn. apply collect_total. intros child Hchild. apply (IH child (child :: l)).
    + by eapply way_child.
    + constructor; [by eapply way_fresh|done].
    + cbn. lia.
Qed.
(** What it finds: the children with what is below them, each after what is below it. *)
Lemma collect_spec recur root processes found :
  processes ⊆ system → collect recur root processes = Some found →
  (∀ pid below, child_of system pid root → recur pid = Some below →
     (∀ x, x ∈ below ↔ descends system x pid) ∧ (∀ l1 x l2 y, below = l1 ++ x :: l2 → child_of system y x → y ∈ l1)) →
  (∀ x, x ∈ found ↔ ∃ pid, (pid, Some root) ∈ processes ∧ (x = pid ∨ descends system x pid)) ∧
  (∀ l1 x l2 y, found = l1 ++ x :: l2 → child_of system y x → y ∈ l1).
Proof.
  intros Hsub Hfound Hrec. revert found Hfound. induction processes as [|[pid parent] processes IH]; intros found Hfound.
  - injection Hfound as <-. split; [set_solver|]. by intros [|] ? ? ?.
  - cbn in Hfound. assert (processes ⊆ system) as Hsub' by set_solver.
    destruct (bool_decide_reflect (parent = Some root)) as [->|Hne].
    + apply bind_Some in Hfound as (below & Hbelow & Hfound). apply bind_Some in Hfound as (rest & Hrest & [= <-]).
      destruct (IH Hsub' rest Hrest) as [Hin Horder]. destruct (Hrec pid below ltac:(apply Hsub; left) Hbelow) as [Hin' Horder']. split.
      * intros x. rewrite elem_of_app, elem_of_cons, Hin, Hin'. setoid_rewrite elem_of_cons. naive_solver.
      * intros l1 x l2 y Hl Hy. apply app_eq_inv in Hl as [(k & -> & Hl)|(k & -> & Hl)].
        { destruct k as [|z k]; cbn in Hl; injection Hl as -> Hl.
          - rewrite app_nil_r in Hin'. apply Hin'. by apply tc_once.
          - by eapply (Horder' l1 z k). }
        { destruct k as [|z k]; cbn in Hl.
          - injection Hl as -> ->. rewrite app_nil_r. apply Hin'. by apply tc_once.
          - injection Hl as -> ->. rewrite elem_of_app, elem_of_cons. right. right. by eapply (Horder k x l2). }
    + destruct (IH Hsub' found Hfound) as [Hin Horder]. split; [|done].
      intros x. rewrite Hin. setoid_rewrite elem_of_cons. naive_solver.
Qed.
Lemma descends_last x root : descends system x root → ∃ pid, child_of system pid root ∧ (x = pid ∨ descends system x pid).
Proof.
  induction 1 as [x y Hy|x y z Hy Hz (pid & Hpid & Hdown)]; [by exists x; auto|]. exists pid. split; [done|]. right.
  destruct Hdown as [->|Hdown]; [by apply tc_once|by eapply tc_l].
Qed.
Lemma descendants_spec fuel root found :
  descendant_pids fuel system root = Some found →
  (∀ x, x ∈ found ↔ descends system x root) ∧ (∀ l1 x l2 y, found = l1 ++ x :: l2 → child_of system y x → y ∈ l1).
Proof.
  revert root found. induction fuel as [|fuel IH]; intros root found Hfound; [done|]. cbn in Hfound.
  apply collect_spec in Hfound as [Hin Horder]; [|done|intros pid below _; apply IH]. split; [|done].
  intros x. rewrite Hin. split.
  - intros (pid & Hpid & [->|Hx]); [by apply tc_once|]. by eapply tc_r.
  - apply descends_last.
Qed.
End snapshot.

Lemma keep_all {A} (P : A → Prop) `{∀ x, Decision (P x)} (l : list A) : Forall P l → filter P l = l.
Proof. induction 1 as [|x l Hx _ IH]; [done|]. by rewrite filter_cons_True, IH. Qed.
(** A wait that ends well has seen all of them gone; one that does not names those it saw. *)
Lemma wait_spec pids deadline looks r :
  wait_for_process_exit pids deadline looks = Some r →
  ∃ alive now, (alive, now) ∈ looks ∧
    match r with
    | Ok _ => ∀ pid, pid ∈ pids → pid ∉ alive
    | Err remaining => deadline ≤ now ∧ remaining ≠ [] ∧ ∀ pid, pid ∈ remaining ↔ pid ∈ pids ∧ pid ∈ alive
    end.
Proof.
  induction looks as [|[alive now] looks IH]; [done|]. cbn. destruct (filter _ pids) as [|p remaining] eqn:Hf; cbn.
  - intros [= <-]. exists alive, now. split; [left|]. intros pid Hpid Halive.
    assert (pid ∈ filter (λ pid, pid ∈ alive) pids) as Hin by by apply list_elem_of_filter. rewrite Hf in Hin. by apply not_elem_of_nil in Hin.
  - destruct (deadline <=? now) eqn:Hlate.
    + intros [= <-]. exists alive, now. apply Z.leb_le in Hlate. split_and!; [left|done|done|]. intros pid. rewrite <-Hf, list_elem_of_filter. naive_solver.
    + intros Hr. destruct (IH Hr) as (alive' & now' & Hin & H). exists alive', now'. split; [by right|done].
Qed.

(** [C33] A child is killed from the leaves.  When the child is not among its own descendants, which
    is so as long as the application that started it is not, the collection of its descendants ends however deep they
    are nested; exactly the child and its descendants are asked to end, each after all its
    children; and if the wait ends well, it has seen all of them gone. *)
Theorem tree_killed_bottom_up system child now looks :
  NoDup system.*1 → child ∈ system.*1 → ¬ descends system child child →
  ∃ asked r, kill_process_tree system child now looks = Some (asked, r) ∧
    (∀ pid, pid ∈ asked ↔ pid = child ∨ descends system pid child) ∧
    (∀ l1 pid l2 below, asked = l1 ++ pid :: l2 → child_of system below pid → below ∈ l1) ∧
    (r = Some (Ok ()) → ∃ alive at_, (alive, at_) ∈ looks ∧ ∀ pid, pid ∈ asked → pid ∉ alive).
Proof.
  intros Hnd Hchild Hroot.
  destruct (descendants_total system Hnd child (S (length system)) child [child] Hroot) as [found Hfound]; [constructor|apply NoDup_singleton|cbn; lia|].
  destruct (descendants_spec system Hnd _ _ _ Hfound) as [Hin Horder]. unfold kill_process_tree. rewrite Hfound. cbn.
  assert (filter (λ pid, pid ∈ system.*1) (found ++ [child]) = found ++ [child]) as ->.
  { apply keep_all, Forall_app. split; [|by constructor]. apply Forall_forall. intros x Hx. apply Hin in Hx.
    destruct Hx as [x y Hx|x y z Hx]; by apply (list_elem_of_fmap_2 fst _ (x, Some y)). }
  do 2 eexists. split; [done|]. split_and!.
  - intros pid. rewrite elem_of_app, list_elem_of_singleton, Hin. tauto.
  - intros l1 pid l2 below Hl Hbelow. apply app_eq_inv in Hl as [(k & -> & Hl)|(k & -> & Hl)].
    + destruct k as [|z k]; cbn in Hl; injection Hl as -> Hl.
      * rewrite app_nil_r in Hin. apply Hin. by apply tc_once.
      * by eapply (Horder l1 z k).
    + destruct k as [|z k]; cbn in Hl; [|by destruct k]. injection Hl as -> _. rewrite app_nil_r. apply Hin. by apply tc_once.
  - intros (alive & at_ & Hlook & Hgone)%wait_spec. by exists alive, at_.
Qed.

Module Launcher.
(** A launcher 10 with a server 20, which has two workers; the shell of the desktop is 1. *)
Definition table : System := [(31, Some 20); (1, None); (20, Some 10); (10, Some 1); (32, Some 20); (40, Some 1)].
Definition looks : list (gset Z * Z) := [({[1; 10; 40; 20]}, 0); ({[1; 40]}, 25000)].
Example killed : kill_process_tree table 10 0 looks = Some ([31; 32; 20; 10], Some (Ok ())).
Proof. vm_compute. reflexivity. Qed.
Lemma launcher_parent x : child_of table 10 x → x = 1.
Proof. unfold child_of, table. rewrite !elem_of_cons, elem_of_nil. naive_solver. Qed.
Lemma shell_has_none x : ¬ child_of table 1 x.
Proof. unfold child_of, table. rewrite !elem_of_cons, elem_of_nil. naive_solver. Qed.
Lemma tree_killed_bottom_up_witness :
  ∃ asked r, kill_process_tree table 10 0 looks = Some (asked, r) ∧
    (∀ pid, pid ∈ asked ↔ pid = 10 ∨ descends table pid 10) ∧
    (∀ l1 pid l2 below, asked = l1 ++ pid :: l2 → child_of table below pid → below ∈ l1) ∧
    (r = Some (Ok ()) → ∃ alive at_, (alive, at_) ∈ looks ∧ ∀ pid, pid ∈ asked → pid ∉ alive).
Proof.
  apply (tree_killed_bottom_up table 10 0 looks).
  - apply (bool_decide_unpack _). vm_compute. exact I.
  - apply (bool_decide_unpack _). vm_compute. exact I.
  - intros H. inversion H as [? ? Hx|? y ? Hx Hy]; subst; apply launcher_parent in Hx; [done|subst].
    inversion Hy as [? ? Hz|? ? ? Hz]; subst; by apply shell_has_none in Hz.
Defined.
End Launcher.
