(* ===== verification/Supervisor.v ===== *)
(** * Supervision of the agent (apps/desktop/src-tauri/src/lib.rs)

    The application keeps an agent running, on a paired machine ([launch_remote_worker]) and on
    the owner's own ([launch_fabric]).  A task starts the agent, reads what it prints, restarts it
    when it falls silent, and stops when sharing has ended.  Meanwhile processes die, commands
    stop the children or start helper processes of their own, and the owner may quit: a fence is
    set and the children are killed.  All of these interleave; a run is a list of moves. *)

From stdpp Require Import pretty.
From S2P Require Import Prelude.
From S2P Require Import Codec.
From S2P Require Import Text.
From S2P Require Import Contracts.
From S2P Require Import Wire.
From S2P Require Import Mesh.
From S2P Require Import Desktop.
Import Text.
#[local] Open Scope Z_scope.

(** A move that is possible only if [b]. *)
Definition when {A} (b : bool) (x : A) : option A := if b then Some x else None.

(** A run: the moves one after the other. *)
Fixpoint run {M S} (move : M → S → option S) (ms : list M) (s : S) : option S :=
  match ms with [] => Some s | m :: ms => s ← move m s; run move ms s end.

(** ** The children of the application *)

(** Quitting: not begun; the fence set; the children taken off the list for the last time; gone. *)
Inductive Quit := Open | Fenced | Draining | Exited.
#[export] Instance quit_eq_dec : EqDecision Quit.
Proof. solve_decision. Defined.

(** The children that are listed, the ones being killed, the services and agents that run, and the
    helper processes that run: the ones that commands start and never list. *)
Module Host.
Record t := mk { sidecars : list Z; doomed : gset Z; running : gset Z; quit : Quit; helpers : gset Z }.
Definition set_sidecars (x : list Z) (h : t) : t := mk x (doomed h) (running h) (quit h) (helpers h).
Definition set_doomed (x : gset Z) (h : t) : t := mk (sidecars h) x (running h) (quit h) (helpers h).
Definition set_running (x : gset Z) (h : t) : t := mk (sidecars h) (doomed h) x (quit h) (helpers h).
Definition set_quit (x : Quit) (h : t) : t := mk (sidecars h) (doomed h) (running h) x (helpers h).
Definition set_helpers (x : gset Z) (h : t) : t := mk (sidecars h) (doomed h) (running h) (quit h) x.
End Host.
Import Host.

Definition is_fenced (h : Host.t) : bool := quit h != Open.
Definition push (pid : Z) (h : Host.t) : Host.t := set_sidecars (sidecars h ++ [pid]) h.
Definition spawn (pid : Z) (h : Host.t) : Host.t := set_running ({[pid]} ∪ running h) h.
Fixpoint remove_first (pid : Z) (l : list Z) : option (list Z) :=
  match l with
  | [] => None
  | x :: l => if x =? pid then Some l else cons x <$> remove_first pid l
  end.
(** Whether the child was listed, and the list without it. *)
Definition take_sidecar (pid : Z) (h : Host.t) : bool * Host.t :=
  match remove_first pid (sidecars h) with Some l => (true, set_sidecars l h) | None => (false, h) end.
(** [failure] is what [kill_process_tree] reports when the process does not exit in time. *)
Definition stop_sidecar (failure : option string) (pid : Z) (h : Host.t) : result string () * Host.t :=
  let '(listed, h) := take_sidecar pid h in
  if negb listed then (Err ("worker sidecar " +:+ pretty pid +:+ " is no longer supervised"), h)
  else match failure with
       | None => (Ok (), set_running (running h ∖ {[pid]}) h)
       | Some error => (Err error, h)
       end.
(** The first half of [stop_all_sidecars]: the list is emptied; its processes are then killed one
    after the other. *)
Definition doom_all (h : Host.t) : Host.t :=
  set_sidecars [] (set_doomed (doomed h ∪ list_to_set (sidecars h)) h).

(** A new process has a number that no known one has. *)
Definition fresh (pid : Z) (h : Host.t) : bool :=
  bool_decide (pid ∉ running h) && bool_decide (pid ∉ sidecars h) && bool_decide (pid ∉ doomed h)
  && bool_decide (pid ∉ helpers h).

(** What happens around the task: a process ends; a killed one is gone; a command stops the
    children; the application starts a helper, which is never listed ([run_fabric_benchmark],
    [ensure_private_network_firewall], [install_ollama], [ensure_ollama_started]); a helper ends; [exit_app] or the end of [run] sets the fence; the end of [run] empties the list and
    returns when the children have died or, if not [sure], when their time is up. *)
Inductive Turn :=
| Die (pid : Z)
| Reap (pid : Z)
| StopAll
| Assist (pid : Z)
| Assisted (pid : Z)
| Fence
| Drain
| Exit (sure : bool).
Definition turn (x : Turn) (h : Host.t) : option Host.t :=
  match x with
  | Die pid => Some (set_running (running h ∖ {[pid]}) h)
  | Reap pid => when (bool_decide (pid ∉ running h)) (set_doomed (doomed h ∖ {[pid]}) h)
  | StopAll => Some (doom_all h)
  | Assist pid => when (fresh pid h && (quit h != Exited)) (set_helpers ({[pid]} ∪ helpers h) h)
  | Assisted pid => Some (set_helpers (helpers h ∖ {[pid]}) h)
  | Fence => when (quit h == Open) (set_quit Fenced h)
  | Drain => when (quit h == Fenced) (set_quit Draining (doom_all h))
  | Exit sure =>
      when ((quit h == Draining) && (negb sure || bool_decide (running h ## doomed h))) (set_quit Exited h)
  end.
(** ** What both tasks keep of the agent they watch *)

Record Watch := mkWatch {
  started_at : Z; ready_announced : bool; last_heartbeat_at : option Z; worker_stdout : string; waiting_since : Z
}.
Definition wait_again (now : Z) (w : Watch) : Watch :=
  mkWatch (started_at w) (ready_announced w) (last_heartbeat_at w) (worker_stdout w) now.
Definition new_watch (now : Z) : Watch := mkWatch now false None "" now.
(** What the task receives: an event of the process, the end of its events, or five seconds of
    silence, in which case an overdue process is stopped. *)
Inductive Event :=
| Stdout (bytes : string)
| Stderr (bytes : string)
| Error (text : string)
| Terminated (code : string)
| Closed
| Silence (failure : option string).
(** The end of a process is seen after it; the timer is set anew whenever the task waits. *)
Definition event_fits (pid : Z) (w : Watch) (now : Z) (event : Event) (h : Host.t) : bool :=
  match event with
  | Terminated _ | Closed => bool_decide (pid ∉ running h)
  | Silence _ => waiting_since w + seconds 5 <=? now
  | _ => waiting_since w <=? now
  end.
Definition overdue (now : Z) (w : Watch) : bool :=
  worker_requires_restart now (started_at w) (ready_announced w) (last_heartbeat_at w) (seconds 20) (seconds 15).
(** The delay after a failure doubles up to ten seconds. *)
Definition back_off (retry_delay : Z) : Z := Z.min (retry_delay * 2) 10.
(** The reading of the output, up to what a heartbeat does to the rest of the state. *)
Definition listen `{Codec} (now : Z) (bytes : string) (w : Watch) : list (option string) * Watch :=
  let '(heartbeats, buffer) := drain_worker_heartbeats (worker_stdout w) bytes in
  let heard := negb (no_elems heartbeats) in
  (heartbeats, mkWatch (started_at w) (ready_announced w || heard) (if heard then Some now else last_heartbeat_at w) buffer now).

(** ** On a paired machine *)

Module WorkerRuntimeView.
Record t := mk { state : string; node_id : option string; message : option string }.
End WorkerRuntimeView.

Module WorkerTask.
(** Where the task is: before its checks, between the checks and the start of the agent, with an
    agent that is not yet listed, reading its output, after the inner loop, asleep, or finished. *)
Inductive Phase :=
| Top
| Checked
| Spawned (pid : Z)
| Watching (pid : Z) (watch : Watch) (last_error : option string)
| Broken (pid : Z) (last_error : option string)
| Sleeping
| Returned.
Record t := mk {
  phase : Phase; retry_delay : Z; view : WorkerRuntimeView.t; host : Host.t; enrolled : bool; killed : bool
}.
Definition set_phase (x : Phase) (s : t) : t := mk x (retry_delay s) (view s) (host s) (enrolled s) (killed s).
Definition set_retry_delay (x : Z) (s : t) : t := mk (phase s) x (view s) (host s) (enrolled s) (killed s).
Definition set_view (x : WorkerRuntimeView.t) (s : t) : t := mk (phase s) (retry_delay s) x (host s) (enrolled s) (killed s).
Definition set_host (x : Host.t) (s : t) : t := mk (phase s) (retry_delay s) (view s) x (enrolled s) (killed s).
Definition set_policy (enrolled killed : bool) (s : t) : t := mk (phase s) (retry_delay s) (view s) (host s) enrolled killed.

Definition may_share (s : t) : bool := enrolled s && negb (killed s).
Definition set_worker_retrying (message : string) : t → t :=
  set_view (WorkerRuntimeView.mk "retrying" None (Some message)).
Definition STARTING : WorkerRuntimeView.t :=
  WorkerRuntimeView.mk "starting" None (Some "Connecting to the owner PC and publishing a signed resource offer.").
Definition INACTIVE : WorkerRuntimeView.t :=
  WorkerRuntimeView.mk "inactive" None (Some "Worker sharing is stopped by local policy.").
Definition launch_remote_worker (h : Host.t) (enrolled killed : bool) : t := mk Top 1 STARTING h enrolled killed.
Definition check_top (s : t) : t :=
  if is_fenced (host s) then set_phase Returned s
  else if may_share s then set_phase Checked s
  else set_phase Returned (set_view INACTIVE s).
Definition spawn_failed (text : string) (s : t) : t :=
  set_phase Sleeping (set_worker_retrying ("Worker launch failed: " +:+ text) s).
Definition hear (s : t) (node_id : option string) : t :=
  set_retry_delay 1
    (set_view (WorkerRuntimeView.mk "active" node_id (Some "Signed compute offer accepted by the owner PC.")) s).
Definition after_watch (pid : Z) (error : option string) (s : t) : t :=
  let s := set_host (take_sidecar pid (host s)).2 s in
  if is_fenced (host s) then set_phase Returned s
  else if negb (may_share s) then set_phase Top s
  else
    set_phase Sleeping (set_worker_retrying
      (default "Worker connection ended." error +:+ " Restarting automatically in " +:+ pretty (retry_delay s) +:+ " second(s).") s).
Definition wake (s : t) : t := set_phase Top (set_retry_delay (back_off (retry_delay s)) s).

Section watching.
Context {codec : Codec}.
(** [chars().take(n)]. *)
Context (take_chars : nat → string → string).

Definition bounded_worker_retry_message (bytes : string) : option string :=
  let detail := take_chars 384 (trim bytes) in
  if is_empty detail then None else Some ("Automatic signed-route recovery is retrying. " +:+ detail).
Definition STALE : string := "Signed worker heartbeat is stale; restarting the worker automatically.".
Definition SILENT : string := "Worker startup produced no signed heartbeat; restarting automatically.".
Definition watch (pid : Z) (w : Watch) (last_error : option string) (now : Z) (event : Event) (s : t) : t :=
  match event with
  | Stdout bytes =>
      let '(heartbeats, w) := listen now bytes w in
      set_phase (Watching pid w last_error) (foldl hear s heartbeats)
  | Stderr bytes =>
      match bounded_worker_retry_message bytes with
      | None => set_phase (Watching pid (wait_again now w) last_error) s
      | Some message =>
          set_phase (Watching pid (wait_again now w) (Some message))
            (if ready_announced w then s else set_worker_retrying message s)
      end
  | Error text => set_phase (Watching pid (wait_again now w) (Some (take_chars 512 text))) s
  | Terminated code =>
      set_phase (Broken pid (Some (default ("Worker stopped unexpectedly (code " +:+ code +:+ ").") last_error))) s
  | Closed => set_phase (Broken pid last_error) s
  | Silence failure =>
      if overdue now w then
        let message := if ready_announced w then STALE else SILENT in
        let '(stopped, h) := stop_sidecar failure pid (host s) in
        set_phase (Broken pid (Some (match stopped with Ok _ => message | Err error => message +:+ " " +:+ error end)))
          (set_host h (set_worker_retrying message s))
      else set_phase (Watching pid (wait_again now w) last_error) s
  end.

(** ** Moves *)

Inductive Move :=
| Around (x : Turn)
| Policy (enrolled killed : bool)
| Check
| StartFails (text : string)
| Start (pid : Z)
| Enlist (now : Z)
| Hear (now : Z) (event : Event)
| Finish
| Wake.
Definition move (m : Move) (s : t) : option t :=
  match m, phase s with
  | Around x, _ => h ← turn x (host s); Some (set_host h s)
  | Policy enrolled killed, _ => Some (set_policy enrolled killed s)
  | Check, Top => Some (check_top s)
  | StartFails text, Checked => Some (spawn_failed text s)
  | Start pid, Checked =>
      when (fresh pid (host s)) (set_phase (Spawned pid) (set_host (spawn pid (host s)) s))
  | Enlist now, Spawned pid => Some (set_phase (Watching pid (new_watch now) None) (set_host (push pid (host s)) s))
  | Hear now event, Watching pid w error =>
      when (event_fits pid w now event (host s)) (watch pid w error now event s)
  | Finish, Broken pid error => Some (after_watch pid error s)
  | Wake, Sleeping => Some (wake s)
  | _, _ => None
  end.
(** What is killed dies in time. *)
Definition sure (m : Move) : Prop :=
  match m with Around (Exit sure) => sure = true | Hear _ (Silence failure) => failure = None | _ => True end.
End watching.
End WorkerTask.

(** ** On the owner's machine *)

Module OwnerTask.
(** Where the task is: before its checks, waiting for the controller, ready to prepare a start,
    with its arguments prepared, with an agent that is not yet listed, reading its output, after
    the inner loop, asleep with or without a longer delay next time, or finished.  From the
    preparation on, it may have written an invitation for the agent. *)
Inductive Phase :=
| Top
| Probing
| Ready
| Prepared (invite_file : option string)
| Spawned (pid : Z) (invite_file : option string)
| Watching (pid : Z) (watch : Watch) (invite_file : option string)
| Broken (pid : Z) (invite_file : option string)
| Sleeping (backing_off : bool)
| Returned.
(** [killed] and [pinned]: whether the stop latch and the pin of the controller are there;
    [invites]: the invitations in the runtime directory. *)
Record t := mk {
  phase : Phase; retry_delay : Z; host : Host.t; killed : bool; pinned : bool; invites : gmap string string
}.
Definition set_phase (x : Phase) (s : t) : t := mk x (retry_delay s) (host s) (killed s) (pinned s) (invites s).
Definition set_retry_delay (x : Z) (s : t) : t := mk (phase s) x (host s) (killed s) (pinned s) (invites s).
Definition set_host (x : Host.t) (s : t) : t := mk (phase s) (retry_delay s) x (killed s) (pinned s) (invites s).
Definition set_policy (killed pinned : bool) (s : t) : t := mk (phase s) (retry_delay s) (host s) killed pinned (invites s).
Definition set_invites (x : gmap string string) (s : t) : t := mk (phase s) (retry_delay s) (host s) (killed s) (pinned s) x.

Definition MAX_INVITE_BYTES : Z := 256 * 1024.
Definition PROBES : nat := 80.
Definition launch (h : Host.t) (killed pinned : bool) (invites : gmap string string) : t := mk Top 1 h killed pinned invites.
Definition check_top (s : t) : t := set_phase (if is_fenced (host s) then Returned else Probing) s.
(** Whether the controller answers in time. *)
Definition probe (answers : list bool) (s : t) : t :=
  set_phase (if existsb id (take PROBES answers) then Ready else Sleeping true) s.

Section watching.
Context {codec : Codec}.
(** [serde_json::to_vec_pretty]. *)
Context (to_vec_pretty : Value → option string).

(** What the request for an invitation comes to: refused, not usable, or a text to write. *)
Inductive Invited := Refused | Unusable | Usable (bytes : string).
Definition invited (reply : option (Z * option string)) : Invited :=
  match reply with
  | None => Refused
  | Some (status, body) =>
      if negb (is_success status) then Refused
      else
        match body with
        | None => Unusable
        | Some bytes =>
            if MAX_INVITE_BYTES <? len bytes then Unusable
            else
              match json_from_str bytes with
              | None => Unusable
              | Some invite =>
                  if negb (field_str "schema" invite == Some "rampage.enrollment-invite.v1")
                     || is_none (field "controller_mesh" invite)
                  then Unusable
                  else
                    match to_vec_pretty invite with
                    | None => Unusable
                    | Some bytes => if MAX_INVITE_BYTES <? len bytes then Unusable else Usable bytes
                    end
              end
        end
  end.
(** The outcome of writing the file: [create_new] fails; the write fails and leaves some bytes,
    which are removed if that succeeds; or it is written. *)
Inductive Written := NotCreated | NotWritten (partial : string) (removed : bool) | WrittenOut.
Definition invite_name (suffix : string) : string := "owner-agent-invite-" +:+ suffix +:+ ".json".
Definition prepare (dir_ok : bool) (reply : option (Z * option string)) (suffix : string) (written : Written) (s : t) : t :=
  if negb dir_ok then set_phase Returned s
  else if killed s then set_phase (Sleeping false) s
  else if pinned s then set_phase (Prepared None) s
  else
    match invited reply with
    | Refused => set_phase (Sleeping true) s
    | Unusable => set_phase (Sleeping false) s
    | Usable bytes =>
        let path := invite_name suffix in
        match invites s !! path, written with
        | Some _, _ | None, NotCreated => set_phase (Sleeping false) s
        | None, NotWritten partial removed =>
            set_phase (Sleeping false) (if removed then s else set_invites (<[path := partial]> (invites s)) s)
        | None, WrittenOut => set_phase (Prepared (Some path)) (set_invites (<[path := bytes]> (invites s)) s)
        end
    end.
Definition watch (pid : Z) (w : Watch) (invite_file : option string) (now : Z) (event : Event) (s : t) : t :=
  match event with
  | Stdout bytes =>
      let '(heartbeats, w) := listen now bytes w in
      set_phase (Watching pid w invite_file) (if no_elems heartbeats then s else set_retry_delay 1 s)
  | Stderr _ => set_phase (Watching pid (wait_again now w) invite_file) s
  | Terminated _ | Error _ | Closed => set_phase (Broken pid invite_file) s
  | Silence failure =>
      if overdue now w then set_phase (Broken pid invite_file) (set_host (stop_sidecar failure pid (host s)).2 s)
      else set_phase (Watching pid (wait_again now w) invite_file) s
  end.
(** [removed]: whether the invitation could be removed. *)
Definition after_watch (pid : Z) (invite_file : option string) (removed : bool) (s : t) : t :=
  let s := set_host (take_sidecar pid (host s)).2 s in
  let s := match invite_file with
           | Some path => if removed then set_invites (delete path (invites s)) s else s
           | None => s
           end in
  set_phase (if is_fenced (host s) then Returned else Sleeping true) s.
Definition wake (backing_off : bool) (s : t) : t :=
  set_phase Top (if backing_off then set_retry_delay (back_off (retry_delay s)) s else s).

(** ** Moves *)

Inductive Move :=
| Around (x : Turn)
| Policy (killed pinned : bool)
| Check
| Probe (answers : list bool)
| Prepare (dir_ok : bool) (reply : option (Z * option string)) (suffix : string) (written : Written)
| StartFails
| Start (pid : Z)
| Enlist (now : Z)
| Hear (now : Z) (event : Event)
| Finish (removed : bool)
| Wake.
Definition move (m : Move) (s : t) : option t :=
  match m, phase s with
  | Around x, _ => h ← turn x (host s); Some (set_host h s)
  | Policy killed pinned, _ => Some (set_policy killed pinned s)
  | Check, Top => Some (check_top s)
  | Probe answers, Probing => Some (probe answers s)
  | Prepare dir_ok reply suffix written, Ready => Some (prepare dir_ok reply suffix written s)
  | StartFails, Prepared _ => Some (set_phase (Sleeping true) s)
  | Start pid, Prepared invite_file =>
      when (fresh pid (host s)) (set_phase (Spawned pid invite_file) (set_host (spawn pid (host s)) s))
  | Enlist now, Spawned pid invite_file =>
      Some (set_phase (Watching pid (new_watch now) invite_file) (set_host (push pid (host s)) s))
  | Hear now event, Watching pid w invite_file =>
      when (event_fits pid w now event (host s)) (watch pid w invite_file now event s)
  | Finish removed, Broken pid invite_file => Some (after_watch pid invite_file removed s)
  | Wake, Sleeping backing_off => Some (wake backing_off s)
  | _, _ => None
  end.
(** What is killed dies in time, and no event of the agent reports a trouble with its pipes. *)
Definition sure (m : Move) : Prop :=
  match m with
  | Around (Exit sure) => sure = true
  | Hear _ (Silence failure) => failure = None
  | Hear _ (Error _) => False
  | _ => True
  end.
End watching.
End OwnerTask.
