(* ===== verification/SupervisorFacts.v ===== *)
(** * Facts about the supervision of the agent

    Both tasks are instances of one life cycle of a child.  As long as what is killed dies, at
    most one agent runs besides those being killed, over all interleavings; and when the owner
    quits while no start is under way, no service and no agent survives it.  The remaining cases
    are real: a helper process that a command has started outlives the application, an agent that is just being started survives the application, a
    trouble with the pipes of the owner's agent leaves two of them, and a start that fails
    leaves its invitation in the runtime directory. *)

From stdpp Require Import pretty.
From S2P Require Import Prelude.
From S2P Require Import Codec.
From S2P Require Import Text.
From S2P Require Import Contracts.
From S2P Require Import Wire.
From S2P Require Import Desktop.
From S2P Require Import Supervisor.
Import Text Host.
#[local] Open Scope Z_scope.

(** ** Runs *)

Lemma when_some {A} (b : bool) (x y : A) : when b x = Some y → b = true ∧ x = y.
Proof. unfold when. destruct b; [by intros [= ->]|done]. Qed.
Section runs.
Context {M S : Type} (move : M → S → option S) (sure : M → Prop) (I : S → Prop).
(** An invariant of the moves is one of the runs. *)
Lemma run_invariant ms s s' :
  (∀ m s s', I s → sure m → move m s = Some s' → I s') → I s → Forall sure ms → run move ms s = Some s' → I s'.
Proof.
  intros Hstep. revert s. induction ms as [|m ms IH]; intros s Hs Hms Hrun; [by injection Hrun as <-|].
  apply Forall_cons in Hms as [Hm Hms]. cbn in Hrun. destruct (move m s) as [s1|] eqn:Hm1; [|done].
  cbn in Hrun. eapply IH; [|done..]. by eapply Hstep.
Qed.
End runs.

(** ** The list of children *)

Lemma remove_first_elem pid l : pid ∈ l → ∃ l', remove_first pid l = Some l' ∧ l ≡ₚ pid :: l'.
Proof.
  induction l as [|x l IH]; [by intros ?%not_elem_of_nil|]. intros Hin. cbn. destruct (x =? pid) eqn:E.
  - apply Z.eqb_eq in E as ->. eauto.
  - apply Z.eqb_neq in E. apply elem_of_cons in Hin as [->|Hin]; [done|]. destruct (IH Hin) as (l' & -> & Hp). cbn.
    exists (x :: l'). split; [done|]. rewrite Hp. constructor.
Qed.
Lemma remove_first_none pid l : pid ∉ l → remove_first pid l = None.
Proof.
  induction l as [|x l IH]; [done|]. intros [Hx Hl]%not_elem_of_cons. cbn. rewrite (proj2 (Z.eqb_neq _ _)) by congruence. by rewrite IH.
Qed.
(** Taking a child off the list: the list without it, and the rest as it was. *)
Lemma take_sidecar_spec pid h :
  NoDup (sidecars h) → ∃ l, (take_sidecar pid h).2 = set_sidecars l h ∧ NoDup l ∧ (∀ x, x ∈ l ↔ x ∈ sidecars h ∧ x ≠ pid).
Proof.
  intros Hnd. unfold take_sidecar. destruct (decide (pid ∈ sidecars h)) as [Hin|Hin].
  - destruct (remove_first_elem _ _ Hin) as (l & -> & Hp). exists l. rewrite Hp in Hnd. apply NoDup_cons in Hnd as [Hpid Hnd].
    split_and!; [done|done|]. intros x. rewrite Hp, elem_of_cons. split; [|naive_solver]. intros Hx. split; [by right|]. by intros ->.
  - rewrite remove_first_none by done. exists (sidecars h). split_and!; [by destruct h|done|].
    intros x. split; [|naive_solver]. intros Hx. split; [done|]. by intros ->.
Qed.
(** Stopping a child that dies: it is off the list, and it has ended if it was listed. *)
Lemma stop_sidecar_spec pid h :
  NoDup (sidecars h) → ∃ l, (stop_sidecar None pid h).2 =
      set_running (if decide (pid ∈ sidecars h) then running h ∖ {[pid]} else running h) (set_sidecars l h) ∧
    NoDup l ∧ (∀ x, x ∈ l ↔ x ∈ sidecars h ∧ x ≠ pid).
Proof.
  intros Hnd. destruct (take_sidecar_spec pid h Hnd) as (l & Hl & Hndl & Hin). exists l. split; [|done]. revert Hl.
  unfold stop_sidecar, take_sidecar. destruct (decide _) as [Hpid|Hpid].
  - destruct (remove_first_elem _ _ Hpid) as (l' & -> & _). cbn. intros [= ->]. done.
  - rewrite remove_first_none by done. cbn. intros ->. by destruct h.
Qed.

(** ** The life of a child *)

(** What the task knows of its child: none, past the checks, not yet listed, being watched, no
    longer watched; or the task has finished. *)
Inductive Child :=
| Idle
| Starting
| Unlisted (pid : Z)
| Watched (pid : Z)
| Ended (pid : Z)
| Finished.
Inductive life : Child * Host.t → Child * Host.t → Prop :=
| life_turn c x h h' : turn x h = Some h' → x ≠ Exit false → life (c, h) (c, h')
| life_check h : quit h = Open → life (Idle, h) (Starting, h)
| life_give_up h : life (Starting, h) (Idle, h)
| life_finish c h : c = Idle ∨ c = Starting → life (c, h) (Finished, h)
| life_spawn pid h : fresh pid h = true → life (Starting, h) (Unlisted pid, spawn pid h)
| life_enlist pid h : life (Unlisted pid, h) (Watched pid, push pid h)
| life_end pid h : pid ∉ running h → life (Watched pid, h) (Ended pid, h)
| life_stop pid h : life (Watched pid, h) (Ended pid, (stop_sidecar None pid h).2)
| life_forget pid c h : c = Idle ∨ c = Finished → life (Ended pid, h) (c, (take_sidecar pid h).2).
Create HintDb life.
#[export] Hint Constructors life : life.

Definition pid_of (c : Child) : option Z := match c with Unlisted pid | Watched pid | Ended pid => Some pid | _ => None end.
(** The processes that run are the services of the application, which are listed, the child of
    the task, and what is being killed. *)
Section attended.
Context (services : gset Z).
Record attended (c : Child) (h : Host.t) : Prop := {
  listed_once : NoDup (sidecars h);
  sole_child pid : pid ∈ running h → pid ∈ doomed h ∨ pid ∈ services ∨ pid_of c = Some pid;
  listed_known pid : pid ∈ sidecars h → pid ∈ services ∨ c = Watched pid ∨ c = Ended pid;
  services_listed pid : pid ∈ services → pid ∈ running h → pid ∈ sidecars h ∨ pid ∈ doomed h ∨ pid_of c = Some pid;
  watched_listed pid : c = Watched pid → pid ∈ running h → pid ∈ sidecars h ∨ pid ∈ doomed h;
  ended_gone pid : c = Ended pid → pid ∈ running h → pid ∈ doomed h;
  unlisted_new pid : c = Unlisted pid → pid ∉ sidecars h
}.
(** Quitting: when the fence was set, no start was under way. *)
Record quitting (c : Child) (h : Host.t) : Prop := {
  fence_set : quit h ≠ Open;
  no_start : c ≠ Starting ∧ ∀ pid, c ≠ Unlisted pid;
  all_doomed pid : quit h = Draining → pid ∈ running h → pid ∈ doomed h;
  all_gone : quit h = Exited → running h = ∅
}.

Ltac members :=
  rewrite ?elem_of_difference, ?elem_of_union, ?elem_of_singleton, ?elem_of_list_to_set, ?elem_of_app, ?list_elem_of_singleton.
Lemma attended_doom c h q : attended c h → attended c (set_quit q (doom_all h)).
Proof.
  intros [H1 H2 H3 H4 H5 H6 H7]. split; cbn; try (intros pid; members).
  - constructor.
  - intros Hr. destruct (H2 pid Hr) as [?|[?|?]]; tauto.
  - by intros ?%not_elem_of_nil.
  - intros Hs Hr. specialize (H4 pid Hs Hr). tauto.
  - intros Hc Hr. right. specialize (H5 pid Hc Hr). tauto.
  - intros Hc Hr. left. by apply H6.
  - intros _. apply not_elem_of_nil.
Qed.
(** The fewer processes run, the better. *)
Lemma attended_fewer c h r : r ⊆ running h → attended c h → attended c (set_running r h).
Proof. intros Hr [H1 H2 H3 H4 H5 H6 H7]. split; cbn; auto. Qed.
Lemma attended_turn c x h h' : turn x h = Some h' → attended c h → attended c h'.
Proof.
  intros Ht Hat. destruct x as [pid|pid| |pid|pid| | |sure]; cbn in Ht; try apply when_some in Ht as [Hb Ht]; try injection Ht as Ht; subst h'.
  - apply attended_fewer; [set_solver|done].
  - apply bool_decide_eq_true in Hb. destruct Hat as [H1 H2 H3 H4 H5 H6 H7].
    assert (∀ x, x ∈ running h → x ∈ doomed h → x ∈ doomed h ∖ {[pid]}) as Hkeep by set_solver.
    split; cbn; try done; intros x; [intros Hr; destruct (H2 x Hr) as [?|?]|intros Hs Hr; destruct (H4 x Hs Hr) as [?|[?|?]]
      |intros Hs Hr; destruct (H5 x Hs Hr)|]; auto.
  - apply (attended_doom c h (quit h) Hat).
  - destruct Hat. by split.
  - destruct Hat. by split.
  - destruct Hat. by split.
  - by apply attended_doom.
  - destruct Hat. by split.
Qed.
(** Taking the child off the list, when it has ended. *)
Lemma attended_take c c' pid h l :
  attended c h → pid_of c = Some pid → pid_of c' = None ∨ c' = Ended pid → NoDup l →
  (∀ x, x ∈ l ↔ x ∈ sidecars h ∧ x ≠ pid) → (pid ∈ running h → pid ∈ doomed h) → attended c' (set_sidecars l h).
Proof.
  intros [H1 H2 H3 H4 H5 H6 H7] Hc Hc' Hnd Hl Hgone. split; cbn; [done|intros x..].
  - intros Hx. destruct (H2 x Hx) as [?|[?|Hpid]]; [tauto..|]. rewrite Hc in Hpid. injection Hpid as <-. auto.
  - intros [Hx Hne]%Hl. destruct (H3 x Hx) as [?|[->| ->]]; [by left|..]; cbn in Hc; congruence.
  - intros Hs Hr. rewrite Hl. destruct (decide (x = pid)) as [->|]; [tauto|]. specialize (H4 x Hs Hr). rewrite Hc in H4. naive_solver.
  - intros -> _. destruct Hc' as [?|?]; done.
  - intros -> Hr. destruct Hc' as [?|[= ->]]; [done|auto].
  - intros ->. destruct Hc' as [?|?]; done.
Qed.
Lemma attended_idle c c' h : attended c h → pid_of c = None → pid_of c' = None → attended c' h.
Proof.
  intros [H1 H2 H3 H4 H5 H6 H7] Hc Hc'. split; [done|intros x..|intros x|intros x|intros x|intros x].
  - rewrite Hc'. rewrite Hc in H2. apply H2.
  - intros Hx. destruct (H3 x Hx) as [?|[->| ->]]; [by left|done..].
  - rewrite Hc'. rewrite Hc in H4. apply H4.
  - by intros ->.
  - by intros ->.
  - by intros ->.
Qed.
Lemma attended_life c h c' h' : life (c, h) (c', h') → attended c h → attended c' h'.
Proof.
  intros Hlife Hat. pose proof Hat as [H1 H2 H3 H4 H5 H6 H7].
  inversion Hlife as [? x ? ? Ht|? Hopen|?|? ? Hc|pid ? Hfresh|pid ?|pid ? Hend|pid ?|pid ? ? Hc]; subst.
  - by eapply attended_turn.
  - by eapply attended_idle.
  - by eapply attended_idle.
  - eapply attended_idle; [done| |done]. by destruct Hc as [-> | ->].
  - unfold fresh in Hfresh. rewrite !andb_true_iff, !bool_decide_eq_true in Hfresh. destruct Hfresh as [[[Hr Hs] Hd] _].
    split; cbn; try done; intros x; members.
    + intros [->|Hx]; [auto|]. destruct (H2 x Hx) as [?|[?|?]]; [auto..|done].
    + intros Hx. destruct (H3 x Hx) as [?|[?|?]]; [by left|done..].
    + intros Hx [->|Hr']; [auto|]. destruct (H4 x Hx Hr') as [?|[?|?]]; [auto..|done].
    + by intros [= ->].
  - split; cbn; try done; try (intros x; members).
    + apply NoDup_app. split_and!; [done|intros x Hx ->%list_elem_of_singleton; by apply (H7 pid)|apply NoDup_singleton].
    + intros [Hx| ->]; [|auto]. destruct (H3 x Hx) as [?|[?|?]]; [by left|done..].
    + intros Hx Hr. destruct (H4 x Hx Hr) as [?|[?|?]]; auto.
    + intros [= ->]. auto.
  - split; try done; intros x.
    + intros Hx. destruct (H3 x Hx) as [?|[[= ->]|?]]; [by left|by right; right|done].
    + by intros [= ->].
  - destruct (stop_sidecar_spec pid h H1) as (l & -> & Hnd & Hin). 
    replace (set_running _ _) with (set_sidecars l (set_running (if decide (pid ∈ sidecars h) then running h ∖ {[pid]} else running h) h)) by done.
    apply (attended_take (Watched pid) _ pid); try done; cbn; [|by right|].
    + apply attended_fewer; [|done]. destruct (decide _); set_solver.
    + destruct (decide _); [set_solver|]. intros Hr. by destruct (H5 pid eq_refl Hr).
  - destruct (take_sidecar_spec pid h H1) as (l & -> & Hnd & Hin).
    apply (attended_take (Ended pid) _ pid); try done; [|by apply H6]. destruct Hc as [-> | ->]; by left.
Qed.

Lemma quitting_turn c x h h' : turn x h = Some h' → x ≠ Exit false → attended c h → quitting c h → quitting c h'.
Proof.
  intros Ht Hsure Hat [Q0 Q1 Q2 Q3].
  destruct x as [pid|pid| |pid|pid| | |sure]; cbn in Ht; try apply when_some in Ht as [Hb Ht]; try injection Ht as Ht; subst h'.
  - split; cbn; [done..|set_solver|]. intros Hq. rewrite Q3 by done. set_solver.
  - apply bool_decide_eq_true in Hb. split; cbn; [done..| |done]. intros x Hq Hr. specialize (Q2 x Hq Hr). set_solver.
  - split; cbn; [done..| |done]. intros x Hq Hr. specialize (Q2 x Hq Hr). set_solver.
  - by split.
  - by split.
  - by apply bool_decide_eq_true in Hb.
  - destruct Q1 as [Hstart Hunlisted]. split; cbn; [done..| |done].
    intros x _ Hr. rewrite elem_of_union, elem_of_list_to_set.
    assert (pid_of c = Some x → x ∈ sidecars h ∨ x ∈ doomed h) as Hc.
    { intros Hc. destruct c as [| |y|y|y|]; try done; injection Hc as ->; [by destruct (Hunlisted x)|by apply (watched_listed _ _ Hat)|].
      right. by apply (ended_gone _ _ Hat). }
    destruct (sole_child _ _ Hat x Hr) as [?|[Hs|?]]; [by left| |naive_solver].
    destruct (services_listed _ _ Hat x Hs Hr) as [?|[?|?]]; naive_solver.
  - destruct sure; [|done]. apply andb_true_iff in Hb as [Hq Hdead]. apply bool_decide_eq_true in Hq. cbn in Hdead.
    apply bool_decide_eq_true in Hdead. split; cbn; [done..|]. intros _.
    apply set_eq. intros x. split; [|set_solver]. intros Hr. exfalso. apply (Hdead x Hr). by apply Q2.
Qed.
Lemma quitting_life c h c' h' : life (c, h) (c', h') → attended c h → quitting c h → quitting c' h'.
Proof.
  intros Hlife Hat Hquit. pose proof Hat as [H1 _ _ _ _ _ _]. pose proof Hquit as [Q0 [Qs Qu] Q2 Q3].
  inversion Hlife as [? x ? ? Ht|? Hopen|?|? ? Hc|pid ? Hfresh|pid ?|pid ? Hend|pid ?|pid ? ? Hc]; subst; try done; try (by split).
  - by eapply quitting_turn.
  - destruct (stop_sidecar_spec pid h H1) as (l & -> & _). split; cbn; [done..|intros x Hd Hr|intros Hx].
    + apply Q2; [done|]. destruct (decide _); set_solver.
    + rewrite Q3 by done. destruct (decide _); set_solver.
  - destruct (take_sidecar_spec pid h H1) as (l & -> & _). split; cbn; [done| |done..]. by destruct Hc as [-> | ->].
Qed.
End attended.

(** ** The tasks *)

(** What a task shows of itself, and that its moves are moves of a child's life. *)
Class Supervises (M S : Type) := {
  child_of : S → Child;
  host_of : S → Host.t;
  delay_of : S → Z;
  task_move : M → S → option S;
  task_sure : M → Prop;
  task_lives m s s' : task_sure m → task_move m s = Some s' →
    life (child_of s, host_of s) (child_of s', host_of s') ∨ (child_of s, host_of s) = (child_of s', host_of s');
  task_delays m s s' : task_move m s = Some s' → 1 ≤ delay_of s ≤ 10 → 1 ≤ delay_of s' ≤ 10
}.
Section supervises.
Context {M S : Type} {task : Supervises M S} (services : gset Z).
(** The application has just started its services and the task. *)
Definition launched (s : S) : Prop :=
  child_of s = Idle ∧ delay_of s = 1 ∧ NoDup (sidecars (host_of s)) ∧ running (host_of s) = services ∧
  services = list_to_set (sidecars (host_of s)) ∧ doomed (host_of s) = ∅ ∧ quit (host_of s) = Open.

Lemma launched_attended s : launched s → attended services (child_of s) (host_of s).
Proof.
  intros (Hc & _ & Hnd & Hr & Hs & Hd & _). rewrite Hc. split; try done; intros x.
  - rewrite Hr. auto.
  - rewrite Hs, elem_of_list_to_set. auto.
  - intros Hx _. rewrite Hs, elem_of_list_to_set in Hx. auto.
Qed.
Lemma move_attended m s s' :
  attended services (child_of s) (host_of s) → task_sure m → task_move m s = Some s' →
  attended services (child_of s') (host_of s').
Proof. intros Hat Hm Hs. destruct (task_lives _ _ _ Hm Hs) as [?|[= <- <-]]; [by eapply attended_life|done]. Qed.
Lemma run_attended ms s s' :
  launched s → Forall task_sure ms → run task_move ms s = Some s' → attended services (child_of s') (host_of s').
Proof.
  intros Hl. apply (run_invariant _ _ (λ s, attended services (child_of s) (host_of s)) ms).
  - intros m s1 s2. apply move_attended.
  - by apply launched_attended.
Qed.
Lemma run_delays ms s s' :
  launched s → run task_move ms s = Some s' → 1 ≤ delay_of s' ≤ 10.
Proof.
  intros Hl. apply (run_invariant task_move (λ _, True) (λ s, 1 ≤ delay_of s ≤ 10) ms).
  - intros m s1 s2 Hs _ Hm. by eapply task_delays.
  - destruct Hl as (_ & -> & _). lia.
  - by apply Forall_true.
Qed.
(** At most one agent besides the services and what is being killed. *)
Lemma sole_agent ms s s' p q :
  launched s → Forall task_sure ms → run task_move ms s = Some s' →
  p ∈ running (host_of s') ∖ doomed (host_of s') ∖ services →
  q ∈ running (host_of s') ∖ doomed (host_of s') ∖ services → p = q.
Proof.
  intros Hl Hms Hrun Hp Hq. pose proof (run_attended _ _ _ Hl Hms Hrun) as Hat.
  apply elem_of_difference in Hp as [[Hpr Hpd]%elem_of_difference Hps]. apply elem_of_difference in Hq as [[Hqr Hqd]%elem_of_difference Hqs].
  destruct (sole_child _ _ _ Hat p Hpr) as [?|[?|Hp]]; [done..|]. destruct (sole_child _ _ _ Hat q Hqr) as [?|[?|Hq]]; [done..|]. congruence.
Qed.
(** Nothing runs once the application is gone, if no start was under way when the fence was set. *)
Lemma quit_clean ms ms' s s1 s2 s3 :
  launched s → Forall task_sure ms → run task_move ms s = Some s1 →
  child_of s1 ≠ Starting → (∀ pid, child_of s1 ≠ Unlisted pid) →
  child_of s2 = child_of s1 → host_of s2 = set_quit Fenced (host_of s1) →
  Forall task_sure ms' → run task_move ms' s2 = Some s3 → quit (host_of s3) = Exited → running (host_of s3) = ∅.
Proof.
  intros Hl Hms Hrun Hstart Hunlisted Hc2 Hh2 Hms' Hrun' Hexit. pose proof (run_attended _ _ _ Hl Hms Hrun) as Hat.
  set (I s := attended services (child_of s) (host_of s) ∧ quitting (child_of s) (host_of s)).
  assert (I s3) as [_ Hquit]; [|by apply (all_gone _ _ Hquit)].
  apply (run_invariant task_move task_sure I ms' s2); [|split|done..].
  - intros m t t' [Ht Hq] Hm Hmove. split; [by eapply move_attended|].
    destruct (task_lives _ _ _ Hm Hmove) as [?|[= <- <-]]; [by eapply quitting_life|done].
  - rewrite Hc2, Hh2. destruct Hat. by split.
  - rewrite Hc2, Hh2. by split.
Qed.
End supervises.

Lemma unfenced_open h : is_fenced h = false → quit h = Open.
Proof. unfold is_fenced. rewrite negb_false_iff. by intros ?%bool_decide_eq_true. Qed.
Lemma back_off_bounded d : 1 ≤ d ≤ 10 → 1 ≤ back_off d ≤ 10.
Proof. unfold back_off. lia. Qed.

Section worker.
Context {codec : Codec} (take_chars : nat → string → string).
Import WorkerTask.
Abbreviation move := (move take_chars).
Definition worker_child (s : t) : Child :=
  match phase s with
  | Top | Sleeping => Idle
  | Checked => Starting
  | Spawned pid => Unlisted pid
  | Watching pid _ _ => Watched pid
  | Broken pid _ => Ended pid
  | Returned => Finished
  end.
Lemma heard_fields l s :
  host (foldl hear s l) = host s ∧ (1 ≤ retry_delay s ≤ 10 → 1 ≤ retry_delay (foldl hear s l) ≤ 10).
Proof.
  revert s. induction l as [|x l IH]; intros s; [done|]. cbn [foldl]. destruct (IH (hear s x)) as (-> & H).
  split; [done|]. intros _. apply H. cbn. lia.
Qed.
Lemma watch_delays pid w error now event s :
  1 ≤ retry_delay s ≤ 10 → 1 ≤ retry_delay (watch take_chars pid w error now event s) ≤ 10.
Proof.
  intros Hd. destruct event as [bytes|bytes|text|code| |failure]; cbn [watch]; try done.
  - destruct (listen _ _ _) as [l w']. by apply heard_fields.
  - destruct (bounded_worker_retry_message _ _); [|done]. by destruct (ready_announced w).
  - destruct (overdue now w); [|done]. by destruct (stop_sidecar _ _ _).
Qed.
Lemma watch_lives pid w error now event s :
  phase s = Watching pid w error → event_fits pid w now event (host s) = true → (∀ f, event = Silence f → f = None) →
  let s' := watch take_chars pid w error now event s in
  life (Watched pid, host s) (worker_child s', host s') ∨ (Watched pid, host s) = (worker_child s', host s').
Proof.
  intros Hp Hfit Hsure. destruct event as [bytes|bytes|text|code| |failure]; cbn [watch event_fits] in *.
  - destruct (listen _ _ _) as [l w']. right. cbn. by rewrite (proj1 (heard_fields l s)).
  - destruct (bounded_worker_retry_message _ _); [|by right]. destruct (ready_announced w); by right.
  - by right.
  - apply bool_decide_eq_true in Hfit. left. by constructor.
  - apply bool_decide_eq_true in Hfit. left. by constructor.
  - destruct (overdue now w); [|by right]. rewrite (Hsure failure eq_refl).
    destruct (stop_sidecar None pid (host s)) as [stopped h] eqn:Hstop. left. cbn.
    replace h with (stop_sidecar None pid (host s)).2 by by rewrite Hstop. constructor.
Qed.
Lemma worker_lives m s s' :
  sure m → move m s = Some s' → life (worker_child s, host s) (worker_child s', host s') ∨ (worker_child s, host s) = (worker_child s', host s').
Proof.
  intros Hm Hs. destruct m as [x|? ?| |text|pid|now|now event| |].
  - cbn in Hs. destruct (turn x (host s)) as [h|] eqn:Hx; [|done]. injection Hs as <-. left. apply (life_turn _ x); [done|]. by intros ->.
  - injection Hs as <-. by right.
  - unfold worker_child at 1 3. cbn in Hs. destruct (phase s); try done. injection Hs as <-. left. unfold check_top.
    destruct (is_fenced (host s)) eqn:Hf; [cbn; auto with life|]. apply unfenced_open in Hf. destruct (may_share s); cbn; auto with life.
  - unfold worker_child at 1 3. cbn in Hs. destruct (phase s); try done. injection Hs as <-. left. cbn. auto with life.
  - unfold worker_child at 1 3. cbn in Hs. destruct (phase s); try done. apply when_some in Hs as [Hf <-]. left. cbn. auto with life.
  - unfold worker_child at 1 3. cbn in Hs. destruct (phase s); try done. injection Hs as <-. left. cbn. auto with life.
  - unfold worker_child at 1 3. cbn -[watch event_fits] in Hs. destruct (phase s) eqn:Hp; try done. apply when_some in Hs as [Hf <-].
    apply watch_lives; [done..|]. by intros f ->.
  - unfold worker_child at 1 3. cbn in Hs. destruct (phase s); try done. injection Hs as <-. left. unfold after_watch.
    destruct (is_fenced _); [cbn; auto with life|]. destruct (negb _); cbn; auto with life.
  - unfold worker_child at 1 3. cbn in Hs. destruct (phase s); try done. injection Hs as <-. by right.
Qed.
Lemma worker_delays m s s' : move m s = Some s' → 1 ≤ retry_delay s ≤ 10 → 1 ≤ retry_delay s' ≤ 10.
Proof.
  intros Hs Hd. destruct m as [x|? ?| |text|pid|now|now event| |]; cbn -[watch event_fits] in Hs.
  - destruct (turn x (host s)); [|done]. by injection Hs as <-.
  - by injection Hs as <-.
  - destruct (phase s); try done. injection Hs as <-. unfold check_top. by destruct (is_fenced _), (may_share s).
  - destruct (phase s); try done. by injection Hs as <-.
  - destruct (phase s); try done. by apply when_some in Hs as [_ <-].
  - destruct (phase s); try done. by injection Hs as <-.
  - destruct (phase s); try done. apply when_some in Hs as [_ <-]. by apply watch_delays.
  - destruct (phase s); try done. injection Hs as <-. unfold after_watch. destruct (is_fenced _); [done|]. by destruct (negb _).
  - destruct (phase s); try done. injection Hs as <-. by apply back_off_bounded.
Qed.
#[export] Instance worker_supervises : Supervises Move t := {|
  child_of := worker_child; host_of := host; delay_of := retry_delay; task_move := move; task_sure := sure;
  task_lives := worker_lives; task_delays := worker_delays
|}.

(** [C31] On a paired machine, over every interleaving of the task that supervises the agent with
    processes that end, commands that stop the children and an owner that quits, as long as a
    killed process dies: at most one agent runs that is not being killed, and the task waits
    between one and ten seconds before the next start. *)
Theorem one_agent_runs services enrolled killed h ms s :
  NoDup (sidecars h) → running h = services → services = list_to_set (sidecars h) → doomed h = ∅ → quit h = Open →
  Forall sure ms → run move ms (launch_remote_worker h enrolled killed) = Some s →
  (∀ p q, p ∈ running (host s) ∖ doomed (host s) ∖ services → q ∈ running (host s) ∖ doomed (host s) ∖ services → p = q) ∧
  1 ≤ retry_delay s ≤ 10.
Proof.
  intros Hnd Hr Hs Hd Hq Hms Hrun.
  assert (launched services (launch_remote_worker h enrolled killed)) as Hl by (split_and!; done). split.
  - intros p q. by apply (sole_agent services ms _ s p q Hl Hms).
  - by apply (run_delays services ms _ s Hl).
Qed.
End worker.

Section owner.
Context {codec : Codec} (to_vec_pretty : Value → option string).
Import OwnerTask.
Abbreviation move := (move to_vec_pretty).
Definition owner_child (s : t) : Child :=
  match phase s with
  | Top | Sleeping _ => Idle
  | Probing | Ready | Prepared _ => Starting
  | Spawned pid _ => Unlisted pid
  | Watching pid _ _ => Watched pid
  | Broken pid _ => Ended pid
  | Returned => Finished
  end.
(** The preparation leaves the children alone, and prepares a start or gives up. *)
Lemma prepare_spec dir_ok reply suffix written s :
  let s' := prepare to_vec_pretty dir_ok reply suffix written s in
  host s' = host s ∧ retry_delay s' = retry_delay s ∧
  (phase s' = Returned ∨ (∃ b, phase s' = Sleeping b) ∨ (∃ path, phase s' = Prepared path)).
Proof.
  unfold prepare. destruct (negb dir_ok); [cbn; auto|]. destruct (killed s); [cbn; eauto 6|]. destruct (pinned s); [cbn; eauto 6|].
  destruct (invited _ _) as [| |bytes]; [cbn; eauto 6..|]. destruct (invites s !! _); [cbn; eauto 6|].
  destruct written as [|partial []|]; cbn; eauto 6.
Qed.
Lemma owner_watch_delays pid w path now event s :
  1 ≤ retry_delay s ≤ 10 → 1 ≤ retry_delay (watch pid w path now event s) ≤ 10.
Proof.
  intros Hd. destruct event as [bytes|bytes|text|code| |failure]; cbn [watch]; try done.
  - destruct (listen _ _ _) as [l w']. destruct (no_elems l); [done|]. cbn. lia.
  - by destruct (overdue now w).
Qed.
Lemma owner_watch_lives pid w path now event s :
  event_fits pid w now event (host s) = true → (∀ f, event = Silence f → f = None) → (∀ text, event ≠ Error text) →
  let s' := watch pid w path now event s in
  life (Watched pid, host s) (owner_child s', host s') ∨ (Watched pid, host s) = (owner_child s', host s').
Proof.
  intros Hfit Hsure Herror. destruct event as [bytes|bytes|text|code| |failure]; cbn [watch event_fits] in *.
  - destruct (listen _ _ _) as [l w']. right. by destruct (no_elems l).
  - by right.
  - by destruct (Herror text).
  - apply bool_decide_eq_true in Hfit. left. by constructor.
  - apply bool_decide_eq_true in Hfit. left. by constructor.
  - destruct (overdue now w); [|by right]. rewrite (Hsure failure eq_refl). left. cbn. constructor.
Qed.
Lemma owner_lives m s s' :
  sure m → move m s = Some s' → life (owner_child s, host s) (owner_child s', host s') ∨ (owner_child s, host s) = (owner_child s', host s').
Proof.
  intros Hm Hs. destruct m as [x|? ?| |answers|dir_ok reply suffix written| |pid|now|now event|removed|].
  - cbn in Hs. destruct (turn x (host s)) as [h|] eqn:Hx; [|done]. injection Hs as <-. left. apply (life_turn _ x); [done|]. by intros ->.
  - injection Hs as <-. by right.
  - unfold owner_child at 1 3. cbn in Hs. destruct (phase s); try done. injection Hs as <-. left. unfold check_top.
    destruct (is_fenced (host s)) eqn:Hf; [cbn; auto with life|]. apply unfenced_open in Hf. cbn; auto with life.
  - unfold owner_child at 1 3. cbn -[probe] in Hs. destruct (phase s); try done. injection Hs as <-. unfold probe.
    destruct (existsb _ _); [by right|left; cbn; auto with life].
  - unfold owner_child at 1 3. cbn -[prepare] in Hs. destruct (phase s); try done. injection Hs as <-.
    destruct (prepare_spec dir_ok reply suffix written s) as (Hh & _ & Hp). cbv zeta in *. unfold owner_child. rewrite Hh.
    destruct Hp as [->|[[b ->]|[path ->]]]; [left; auto with life..|by right].
  - unfold owner_child at 1 3. cbn in Hs. destruct (phase s); try done. injection Hs as <-. left. cbn. auto with life.
  - unfold owner_child at 1 3. cbn in Hs. destruct (phase s); try done. apply when_some in Hs as [Hf <-]. left. cbn. auto with life.
  - unfold owner_child at 1 3. cbn in Hs. destruct (phase s); try done. injection Hs as <-. left. cbn. auto with life.
  - unfold owner_child at 1 3. cbn -[watch event_fits] in Hs. destruct (phase s) eqn:Hp; try done. apply when_some in Hs as [Hf <-].
    apply owner_watch_lives; [done|by intros f ->|by intros text ->].
  - unfold owner_child at 1 3. cbn in Hs. destruct (phase s) as [| | | | | |pid path| |]; try done. injection Hs as <-. left. unfold after_watch.
    destruct path, removed; cbn; destruct (is_fenced _); auto with life.
  - unfold owner_child at 1 3. cbn in Hs. destruct (phase s) as [| | | | | | |backing_off|]; try done. injection Hs as <-. right. by destruct backing_off.
Qed.
Lemma owner_delays m s s' : move m s = Some s' → 1 ≤ retry_delay s ≤ 10 → 1 ≤ retry_delay s' ≤ 10.
Proof.
  intros Hs Hd. destruct m as [x|? ?| |answers|dir_ok reply suffix written| |pid|now|now event|removed|]; cbn -[watch event_fits probe prepare] in Hs.
  - destruct (turn x (host s)); [|done]. by injection Hs as <-.
  - by injection Hs as <-.
  - destruct (phase s); try done. by injection Hs as <-.
  - destruct (phase s); try done. by injection Hs as <-.
  - destruct (phase s); try done. injection Hs as <-. by rewrite (proj1 (proj2 (prepare_spec dir_ok reply suffix written s))).
  - destruct (phase s); try done. by injection Hs as <-.
  - destruct (phase s); try done. by apply when_some in Hs as [_ <-].
  - destruct (phase s); try done. by injection Hs as <-.
  - destruct (phase s); try done. apply when_some in Hs as [_ <-]. by apply owner_watch_delays.
  - destruct (phase s) as [| | | | | |pid path| |]; try done. injection Hs as <-. by destruct path, removed.
  - destruct (phase s) as [| | | | | | |backing_off|]; try done. injection Hs as <-. destruct backing_off; [by apply back_off_bounded|done].
Qed.
#[export] Instance owner_supervises : Supervises Move t := {|
  child_of := owner_child; host_of := host; delay_of := retry_delay; task_move := move; task_sure := sure;
  task_lives := owner_lives; task_delays := owner_delays
|}.

(** Only a turn that starts a helper adds one. *)
Lemma turn_helpers x h h' pid : turn x h = Some h' → pid ∈ helpers h' → pid ∈ helpers h ∨ x = Assist pid.
Proof.
  intros Ht Hin. destruct x; cbn in Ht; try apply when_some in Ht as [_ Ht]; try injection Ht as Ht; subst h'; cbn in Hin;
    set_unfold in Hin; naive_solver.
Qed.
Lemma take_sidecar_helpers pid h : helpers (take_sidecar pid h).2 = helpers h.
Proof. unfold take_sidecar. by destruct (remove_first _ _). Qed.
Lemma stop_sidecar_helpers failure pid h : helpers (stop_sidecar failure pid h).2 = helpers h.
Proof. unfold stop_sidecar, take_sidecar. by destruct (remove_first _ _), failure. Qed.
Lemma owner_watch_helpers pid w path now event s : helpers (host (watch pid w path now event s)) = helpers (host s).
Proof.
  destruct event as [bytes|bytes|text|code| |failure]; cbn [watch]; try done.
  - destruct (listen _ _ _) as [l w']. by destruct (no_elems l).
  - destruct (overdue now w); [|done]. apply stop_sidecar_helpers.
Qed.
Lemma owner_helpers m s s' pid :
  move m s = Some s' → pid ∈ helpers (host s') → pid ∈ helpers (host s) ∨ m = Around (Assist pid).
Proof.
  intros Hs. destruct m as [x|? ?| |answers|dir_ok reply suffix written| |p|now|now event|removed|];
    cbn -[watch event_fits probe prepare after_watch] in Hs.
  - destruct (turn x (host s)) as [h|] eqn:Hx; [|done]. injection Hs as <-. intros Hin.
    destruct (turn_helpers x (host s) h pid Hx Hin) as [?| ->]; auto.
  - injection Hs as <-. auto.
  - destruct (phase s); try done. injection Hs as <-. auto.
  - destruct (phase s); try done. injection Hs as <-. auto.
  - destruct (phase s); try done. injection Hs as <-. rewrite (proj1 (prepare_spec dir_ok reply suffix written s)). auto.
  - destruct (phase s); try done. injection Hs as <-. auto.
  - destruct (phase s); try done. apply when_some in Hs as [_ <-]. auto.
  - destruct (phase s); try done. injection Hs as <-. auto.
  - destruct (phase s); try done. apply when_some in Hs as [_ <-]. rewrite owner_watch_helpers. auto.
  - destruct (phase s) as [| | | | | |p path| |]; try done. injection Hs as <-. unfold after_watch.
    destruct path, removed; cbn; rewrite take_sidecar_helpers; auto.
  - destruct (phase s) as [| | | | | | |backing_off|]; try done. injection Hs as <-. destruct backing_off; auto.
Qed.
Lemma run_helpers ms s s' pid :
  run move ms s = Some s' → pid ∈ helpers (host s') → pid ∈ helpers (host s) ∨ Around (Assist pid) ∈ ms.
Proof.
  revert s. induction ms as [|m ms IH]; intros s Hrun Hin; cbn in Hrun; [injection Hrun as <-; auto|].
  destruct (move m s) as [s1|] eqn:Hm; [|done]. cbn in Hrun. destruct (IH s1 Hrun Hin) as [H|H]; [|right; by right].
  destruct (owner_helpers m s s1 pid Hm H) as [?| ->]; [by left|right; by left].
Qed.

(** [C32] On the owner's machine, if the owner quits while no start of the agent is under way, then
    however the task, the agent, the services and the commands go on, as long as killed processes
    die and the pipes of the agent work: once the application has gone, no service and no agent
    runs.  The processes that commands start without listing them, such as a benchmark of the
    fabric, are not among these: they are the only ones that may be left. *)
Theorem quitting_leaves_nothing services killed pinned invites h ms ms' s s' :
  NoDup (sidecars h) → running h = services → services = list_to_set (sidecars h) → doomed h = ∅ → quit h = Open →
  helpers h = ∅ → Forall sure ms → run move ms (launch h killed pinned invites) = Some s →
  owner_child s ≠ Starting → (∀ pid, owner_child s ≠ Unlisted pid) →
  Forall sure ms' → run move (Around Fence :: ms') s = Some s' → quit (host s') = Exited →
  running (host s') = ∅ ∧ ∀ pid, pid ∈ helpers (host s') → Around (Assist pid) ∈ ms ++ ms'.
Proof.
  intros Hnd Hr Hs Hd Hq Hh Hms Hrun Hstart Hunlisted Hms' Hrun' Hexit.
  assert (∀ pid, pid ∈ helpers (host s') → Around (Assist pid) ∈ ms ++ ms') as Hleft.
  { intros pid Hin. rewrite elem_of_app. destruct (run_helpers _ _ _ _ Hrun' Hin) as [Hin'|[?|?]%elem_of_cons]; [|done|by right].
    destruct (run_helpers _ _ _ _ Hrun Hin') as [Hin''|?]; [|by left]. cbn in Hin''. rewrite Hh in Hin''. set_solver. }
  cbn in Hrun'. destruct (when _ _) as [h2|] eqn:Hfence; [|done]. apply when_some in Hfence as [_ <-]. cbn in Hrun'.
  assert (launched services (launch h killed pinned invites)) as Hl by (split_and!; done). split; [|exact Hleft].
  apply (quit_clean services ms ms' _ s (set_host (set_quit Fenced (host s)) s) s' Hl); done.
Qed.
End owner.

(** ** Courses of events *)

Module Shifts.
#[local] Instance codec : Codec := Reference.reference_codec.
Definition first_chars (n : nat) (s : string) : string := (split_at n s).1.
Definition pretty_text (v : Value) : option string := Some (json_to_string v).

Module OnWorker.
Import WorkerTask.
Definition alone : Host.t := Host.mk [] ∅ ∅ Open ∅.
Definition start : t := launch_remote_worker alone true false.
Definition after (ms : list Move) : t := default start (run (move first_chars) ms start).
(** An agent that never says anything is restarted, and the second one outlives a stop of all
    children just long enough to be killed. *)
Definition restart : list Move :=
  [Check; Start 7; Enlist 0; Hear (seconds 5) (Silence None); Hear (seconds 10) (Stderr "dialing");
   Hear (seconds 21) (Silence None); Finish; Wake; Check; Start 8; Enlist (seconds 23); Around StopAll].
Lemma one_agent_runs_witness :
  (∀ p q, p ∈ running (host (after restart)) ∖ doomed (host (after restart)) ∖ ∅ →
          q ∈ running (host (after restart)) ∖ doomed (host (after restart)) ∖ ∅ → p = q) ∧
  1 ≤ retry_delay (after restart) ≤ 10.
Proof.
  apply (one_agent_runs first_chars ∅ true false alone restart (after restart)).
  - constructor.
  - reflexivity.
  - reflexivity.
  - reflexivity.
  - reflexivity.
  - repeat constructor.
  - vm_compute. reflexivity.
Defined.
Example second_agent_doomed :
  running (host (after restart)) = {[8]} ∧ doomed (host (after restart)) = {[8]} ∧ retry_delay (after restart) = 2.
Proof. vm_compute. done. Qed.
(** The task has passed its check when the owner quits; the agent it then starts survives. *)
Definition late : list Move := [Check; Around Fence; Around StopAll; Around Drain; Around (Exit true); Start 7].
Example agent_survives_quit : quit (host (after late)) = Exited ∧ running (host (after late)) = {[7]} ∧ Forall sure late.
Proof. vm_compute. repeat constructor. Qed.
(** Output that is no heartbeat puts the restart off: a worker that has never reported but prints
    a line every four seconds is still being watched after an hour. *)
Definition chatter (n : nat) : list Move :=
  (λ k, Hear (seconds (4 * Z.of_nat k)) (Stderr "still dialing")) <$> seq 1 n.
Example chatter_is_no_silence :
  match phase (after ([Check; Start 7; Enlist 0] ++ chatter 900)) with
  | Watching 7 w _ => overdue (seconds 3600) w = true
  | _ => False
  end.
Proof. vm_compute. reflexivity. Qed.
End OnWorker.

Module OnOwner.
Import OwnerTask.
(** The controller is 1, the intelligence service 2. *)
Definition serving : Host.t := Host.mk [1; 2] ∅ {[1; 2]} Open ∅.
Definition start (pinned : bool) : t := launch serving false pinned ∅.
Definition after (pinned : bool) (ms : list Move) : t := default (start pinned) (run (move pretty_text) ms (start pinned)).
Definition prepared : list Move := [Check; Probe [false; true]; Prepare true None "" NotCreated].
Definition at_work : list Move := prepared ++ [Start 7; Enlist 0; Around (Assist 9)].
Definition quits : list Move := [Around StopAll; Around (Die 1); Around (Die 2); Around (Die 7); Around Drain; Around (Exit true); Hear 1 Closed; Finish true].
Definition gone : t := default (after true at_work) (run (move pretty_text) (Around Fence :: quits) (after true at_work)).
Lemma quitting_leaves_nothing_witness :
  running (host gone) = ∅ ∧ ∀ pid, pid ∈ helpers (host gone) → Around (Assist pid) ∈ at_work ++ quits.
Proof.
  apply (quitting_leaves_nothing pretty_text {[1; 2]} false true ∅ serving at_work quits (after true at_work) gone).
  - apply (bool_decide_unpack _). vm_compute. exact I.
  - reflexivity.
  - vm_compute. reflexivity.
  - reflexivity.
  - reflexivity.
  - reflexivity.
  - repeat constructor.
  - vm_compute. reflexivity.
  - vm_compute. done.
  - intros pid. vm_compute. done.
  - repeat constructor.
  - vm_compute. reflexivity.
  - vm_compute. reflexivity.
Defined.
(** The benchmark that was under way when the owner quit, 9, outlives the application. *)
Example benchmark_outlives : quit (host gone) = Exited ∧ helpers (host gone) = {[9]}.
Proof. vm_compute. done. Qed.
(** A trouble with the pipes ends the supervision but not the agent: two of them run. *)
Definition broken_pipe : list Move := at_work ++ [Hear 0 (Error "broken pipe"); Finish true; Wake] ++ prepared ++ [Start 8; Enlist 0].
Example two_agents :
  running (host (after true broken_pipe)) = {[1; 2; 7; 8]} ∧ sidecars (host (after true broken_pipe)) = [1; 2; 8] ∧
  doomed (host (after true broken_pipe)) = ∅.
Proof. vm_compute. done. Qed.
(** A start that fails leaves the invitation that was made for it. *)
Definition invitation : string :=
  json_to_string (VObject [("schema", VString "rampage.enrollment-invite.v1"); ("controller_mesh", VObject [])]).
Definition try_start (suffix : string) : list Move :=
  [Check; Probe [true]; Prepare true (Some (200, Some invitation)) suffix WrittenOut; StartFails; Wake].
Example invitations_left :
  invites (after false (try_start "a" ++ try_start "b")) =
    <[invite_name "a" := invitation]> (<[invite_name "b" := invitation]> ∅).
Proof. vm_compute. reflexivity. Qed.
End OnOwner.
End Shifts.
