(* ===== verification/EdgeApp.v ===== *)
(** * The application on a phone (apps/edge/src-tauri/src/lib.rs, crates/tauri-plugin-rampage-edge)

    The four commands of the application around the edge worker: what the native side is told
    about donation, and when the worker is opened, asked to work and let go.  The native side
    itself is a stream of observations. *)

From S2P Require Import Prelude.
From S2P Require Import Codec.
From S2P Require Import Text.
From S2P Require Import Contracts.
From S2P Require Import Wire.
From S2P Require Import Signing.
From S2P Require Import Storage.
From S2P Require Import Worker.
From S2P Require Import Net.
From S2P Require Import Mesh.
From S2P Require Import Process.
From S2P Require Import Edge.
Import Text Edge.
#[local] Open Scope Z_scope.

Module EdgeDeviceStatus.
Record t := mk {
  platform : string; device_kind : string; foreground : bool; donation_requested : bool; battery_percent : Z;
  on_external_power : bool; low_power_mode : bool; thermal_headroom_percent : Z; screen_kept_awake : bool
}.
Definition eligible (self : t) (minimum_battery minimum_thermal_headroom : Z) : bool :=
  foreground self && donation_requested self && negb (low_power_mode self)
  && (on_external_power self || (minimum_battery <=? battery_percent self))
  && (minimum_thermal_headroom <=? thermal_headroom_percent self).
End EdgeDeviceStatus.
Definition telemetry (status : EdgeDeviceStatus.t) : EdgeTelemetry.t :=
  EdgeTelemetry.mk (EdgeDeviceStatus.platform status) (EdgeDeviceStatus.device_kind status) (EdgeDeviceStatus.foreground status)
    (EdgeDeviceStatus.donation_requested status) (EdgeDeviceStatus.battery_percent status)
    (EdgeDeviceStatus.on_external_power status) (EdgeDeviceStatus.low_power_mode status)
    (EdgeDeviceStatus.thermal_headroom_percent status).

(** The state of the application: what the native side was told last, the worker if it is open,
    and its files. *)
Module App.
Section app.
Context {crypto : Crypto}.
Record t := mk { donation : bool; edge : option EdgeWorker.t; disk : Disk.t }.
Definition set_donation (x : bool) (s : t) : t := mk x (edge s) (disk s).
Definition set_edge (x : option EdgeWorker.t) (s : t) : t := mk (donation s) x (disk s).
Definition set_disk (x : Disk.t) (s : t) : t := mk (donation s) (edge s) x.
End app.
End App.
Module EdgeView.
Record t := mk { native : EdgeDeviceStatus.t; session : option EdgeSessionSnapshot.t; message : string }.
End EdgeView.

Section app.
Context {codec : Codec} {pretty : Pretty} {crypto : Crypto} {ser : Serializer} {vault : Vault}
        {display : Display} {render : Render} {iroh : Iroh} {wire_mesh : MeshWire}
        {wire_receipt : Wire ExecutionReceiptV1.t} {wire_offer : Wire ResourceOfferV1.t}
        {wire_enrollment : Wire EnrollmentRequestV1.t} {wire_claim : Wire WorkClaimV1.t}
        {wire_pin : Wire PinnedControllerV1.t} {wire_identity : Wire PersistentIdentityV1.t}
        {wire_invite : Wire EnrollmentInviteV1.t}.
Context (signing_key_of : string → SigningKey) (version : string).
(** What the native side answers when it is asked for the nth time. *)
Context (native : nat → option EdgeDeviceStatus.t).
Abbreviation A := (P App.t).

Definition ask_native : A EdgeDeviceStatus.t :=
  answer ← draw (λ _, native); obtain answer (Trouble.Complaint "native plugin failed").
Definition status : A EdgeDeviceStatus.t := ask_native.
(** The command reaches the native side, whether its answer comes back or not. *)
Definition set_donation (enabled : bool) : A EdgeDeviceStatus.t :=
  _ ← change (App.set_donation enabled);
  ask_native.
(** A computation over the files, and one over the session of the open worker. *)
Definition on_files {B} (m : P Disk.t B) : A B := λ env w,
  let '(r, w') := m env (mkWorld (draws w) (sent w) (App.disk (state w))) in
  (r, mkWorld (draws w') (sent w') (App.set_disk (state w') (state w))).
Definition on_session {B} (edge : EdgeWorker.t) (m : P Session B) : A B := λ env w,
  let '(r, w') := m env (mkWorld (draws w) (sent w) (mkSession (App.disk (state w)) edge)) in
  (r, mkWorld (draws w') (sent w')
        (App.set_edge (Some (worker (state w'))) (App.set_disk (disk (state w')) (state w)))).

Definition edge_status : A EdgeView.t :=
  device ← status;
  open ← look App.edge;
  mret (EdgeView.mk device ((λ worker, snapshot worker (EdgeTelemetry.eligible (telemetry device))) <$> open)
          "Foreground donation is owner initiated and expires automatically.").
(** The closure of [edge_start]: the worker is opened once, and pulsed. *)
Definition start_session (invitation : option string) (display_name : string) (native_telemetry : EdgeTelemetry.t)
    : A EdgeSessionSnapshot.t :=
  guard ← look App.edge;
  worker ← match guard with
           | Some worker => mret worker
           | None =>
               worker ← on_files (open signing_key_of invitation display_name native_telemetry);
               _ ← change (App.set_edge (Some worker));
               mret worker
           end;
  on_session worker (pulse version native_telemetry).
Definition edge_start (invitation : option string) (display_name : string) : A EdgeView.t :=
  device ← set_donation true;
  no_directory ← draw sight;
  _ ← assert_ (negb no_directory) "no application data directory";
  result ← outcome (start_session invitation display_name (telemetry device));
  match result with
  | Ok session =>
      mret (EdgeView.mk device (Some session) "Signed offer refreshed; waiting only for admitted edge work.")
  | Err error => _ ← outcome (set_donation false); raise error
  end.
Definition edge_pulse : A EdgeView.t :=
  device ← status;
  if negb (EdgeTelemetry.eligible (telemetry device)) then
    _ ← outcome (set_donation false);
    raise (Trouble.Complaint "native foreground, battery, low-power, or thermal policy paused contribution")
  else
    guard ← look App.edge;
    worker ← obtain guard (Trouble.Complaint "edge session is not started");
    session ← on_session worker (pulse version (telemetry device));
    mret (EdgeView.mk device (Some session) "Foreground lease pulse is healthy.").
Definition edge_stop : A EdgeView.t :=
  device ← set_donation false;
  _ ← change (App.set_edge None);
  mret (EdgeView.mk device None "Donation stopped locally; the last short offer will expire without refresh.").

(** ** Facts *)

Lemma turned_off env w : App.donation (state (outcome (set_donation false) env w).2) = false.
Proof. unfold outcome, set_donation, ask_native, mbind, P_bind, change, draw. cbn. by destruct (native (draws w)). Qed.
Lemma asked b env w device : native (draws w) = Some device →
  set_donation b env w = (Ok device, mkWorld (S (draws w)) (sent w) (App.set_donation b (state w))).
Proof. intros Hn. unfold set_donation, ask_native, mbind, P_bind, change, draw. cbn [draws sent state]. by rewrite Hn. Qed.
Lemma bind_run {B D} (m : A B) (f : B → A D) env w b w1 : m env w = (Ok b, w1) → (m ≫= f) env w = f b env w1.
Proof. intros Hm. unfold mbind, P_bind. by rewrite Hm. Qed.
(** Donation ends when it cannot go on: after a start that fails, once the native side has
    answered and the directory is there; after a pulse for which the device is not eligible; and
    after a stop, which also lets the worker go. *)
Theorem donation_ends invitation display_name env w device :
  native (draws w) = Some device →
  (∀ e, (edge_start invitation display_name env w).1 = Err e → sight env (S (draws w)) = false →
     App.donation (state (edge_start invitation display_name env w).2) = false) ∧
  (EdgeTelemetry.eligible (telemetry device) = false → App.donation (state (edge_pulse env w).2) = false) ∧
  App.donation (state (edge_stop env w).2) = false ∧ App.edge (state (edge_stop env w).2) = None.
Proof.
  intros Hn. split_and!.
  - intros e He Hdir. revert He. unfold edge_start. rewrite (bind_run _ _ _ _ _ _ (asked true env w device Hn)).
    erewrite bind_run by reflexivity. cbn [draws]. rewrite Hdir. cbn [negb]. erewrite bind_run by reflexivity.
    unfold mbind at 1 3, P_bind at 1 3. unfold outcome at 1 3. destruct (start_session _ _ _ env _) as [[session|error] w1]; [done|].
    intros _. pose proof (turned_off env w1) as Hoff. unfold mbind, P_bind. by destruct (outcome (set_donation false) env w1) as [[] w2].
  - intros Hel. unfold edge_pulse, status, ask_native at 1, mbind, P_bind, draw at 1. cbn [draws sent state]. rewrite Hn.
    cbn [obtain mret P_ret draws sent state]. rewrite Hel. cbn [negb].
    pose proof (turned_off env (mkWorld (S (draws w)) (sent w) (state w))) as Hoff.
    destruct (outcome (set_donation false) env _) as [[] w2]; exact Hoff.
  - unfold edge_stop, set_donation, ask_native, mbind, P_bind, change, draw. cbn [draws sent state]. rewrite Hn. done.
  - unfold edge_stop, set_donation, ask_native, mbind, P_bind, change, draw. cbn [draws sent state]. rewrite Hn. done.
Qed.
End app.
