(* ===== verification/ControllerFiles.v ===== *)
(** * The controller's own files (crates/rampage-controller/src/main.rs)

    What the controller keeps in its data directory between two starts, and what it reads from
    its environment: the secrets, the port of the mesh and the signed checkpoint of the ledger.
    A key that was made is kept, the port is kept, and a start accepts every ledger the controller
    has written whose payloads read back as printed, whatever the checkpoint file holds. *)

From stdpp Require Import pretty.
From S2P Require Import Prelude.
From S2P Require Import Codec.
From S2P Require Import Text.
From S2P Require Import Contracts.
From S2P Require Import Wire.
From S2P Require Import Signing.
From S2P Require Import Governor.
From S2P Require Import Ledger.
From S2P Require Import Float.
From S2P Require Import RemoteAssist.
From S2P Require Import Net.
From S2P Require Import Mesh.
From S2P Require Import Process.
From S2P Require Import Startup.
From S2P Require Import StartupFacts.
From S2P Require Import Storage.
From S2P Require Import Economics.
From S2P Require Import ControllerState.
From S2P Require Import Controller.
From S2P Require Import Restore.
From S2P Require Import RegistryFacts.
From S2P Require Import History.
Import Text.
#[local] Open Scope Z_scope.

(** [path.is_file()] and [read], which follow links. *)
Definition contents (file : RemoteAssist.path) : option string :=
  match file with RemoteAssist.Regular bytes | RemoteAssist.Irregular (Some bytes) _ => Some bytes | _ => None end.

(** What becomes of an attempt to create a file that must be new: it cannot be created, it was
    created by someone else in between, the write fails and leaves some bytes, or it is written. *)
Inductive Created := CannotCreate | Raced (other : RemoteAssist.path) | Interrupted (partial : string) | CreatedNow.

(** ** Secrets *)

Section secrets.
Context {codec : Codec} {crypto : Crypto}.

Definition read_secret_file : RemoteAssist.path → string → result Trouble.t string := Startup.read_secret_file.
(** [random]: the bytes the system supplies. *)
Definition load_or_create_secret (parent_ok : bool) (random : option string) (created : Created) (file : RemoteAssist.path)
    : result Trouble.t string * RemoteAssist.path :=
  let io := Trouble.Complaint "I/O error" in
  if negb parent_ok then (Err io, file)
  else
    match file, random, created with
    | RemoteAssist.Missing, None, _ => (Err (Trouble.Complaint "no randomness"), file)
    | RemoteAssist.Missing, Some _, CannotCreate => (Err io, file)
    | RemoteAssist.Missing, Some _, Raced other => (read_secret_file other "secret key", other)
    | RemoteAssist.Missing, Some _, Interrupted partial => (Err io, RemoteAssist.Regular partial)
    | RemoteAssist.Missing, Some bytes, CreatedNow => (Ok bytes, RemoteAssist.Regular (hex_encode bytes))
    | file, _, _ => (read_secret_file file "secret key", file)
    end.

Lemma secret_of_file file label bytes :
  read_secret_file file label = Ok bytes → ∃ text, file = RemoteAssist.Regular text.
Proof. destruct file; [done|eauto|done]. Qed.
(** A key that was loaded or made is the one every later start loads, whatever the later start
    would have made. *)
Theorem secret_kept {laws : CryptoLaws codec crypto} random created file bytes file' :
  load_or_create_secret true random created file = (Ok bytes, file') → (∀ r, random = Some r → len r = 32) →
  ∀ random' created', load_or_create_secret true random' created' file' = (Ok bytes, file').
Proof.
  intros H Hlen random' created'.
  assert (read_secret_file file' "secret key" = Ok bytes) as Hread.
  { unfold load_or_create_secret in H. cbn in H. destruct file as [|text|text removable]; [|by injection H as H <-..].
    destruct random as [r|]; [|done]. specialize (Hlen r eq_refl). destruct created as [|other|partial|]; [done|by injection H as H <-|done|].
    injection H as <- <-. unfold read_secret_file, Startup.read_secret_file. rewrite trim_hex by apply hex_digits. rewrite hex_decode_encode.
    unfold len in *. rewrite hex_length, Nat2Z.inj_mul, Hlen. cbn. by rewrite Hlen. }
  destruct (secret_of_file _ _ _ Hread) as [text ->]. unfold load_or_create_secret. cbn [negb]. by rewrite Hread.
Qed.
End secrets.

(** ** The port of the mesh *)

Section port.
Context {codec : Codec}.

Definition DEFAULT_MESH_UDP_PORT : Z := 47838.
Definition u16_max : Z := 65535.
Definition is_ipv4 (address : SocketAddr) : bool := match ip address with V4 _ _ _ _ => true | _ => false end.
Definition mesh_port_from_started_event (event : Ledger.LedgerEvent) : option Z :=
  if Ledger.event_type event != "mesh.started" then None
  else
    let addresses := omap parse_socket_addr (omap as_str (default [] (field "sockets" (Ledger.payload event) ≫= as_array))) in
    address ← head (filter (λ a, is_ipv4 a = true) addresses);
    if port address =? 0 then None else Some (port address).
Definition parse_port (text : string) (zero : string) : result Trouble.t Z :=
  port ← ok_or (Trouble.Complaint "invalid port") (parse_unsigned u16_max text);
  if port =? 0 then Err (Trouble.Complaint zero) else Ok port.
(** [RAMPAGE_MESH_PORT] is the variable of that name. *)
Definition configured_mesh_port (RAMPAGE_MESH_PORT : option string) (file : RemoteAssist.path) (l : Ledger.t) : result Trouble.t Z :=
  match RAMPAGE_MESH_PORT, contents file with
  | Some value, _ => parse_port value "RAMPAGE_MESH_PORT must be non-zero"
  | None, Some text => parse_port (trim text) "stored mesh port must be non-zero"
  | None, None =>
      event ← map_err (λ _, Trouble.Complaint "ledger") (Ledger.latest_event_of_type "mesh.started" l);
      Ok (default DEFAULT_MESH_UDP_PORT (event ≫= mesh_port_from_started_event))
  end.
Definition persist_mesh_port (created : Created) (port : Z) (file : RemoteAssist.path) : result Trouble.t () * RemoteAssist.path :=
  match contents file with
  | Some text =>
      (stored ← ok_or (Trouble.Complaint "invalid port") (parse_unsigned u16_max (trim text));
       if stored =? port then Ok () else Err (Trouble.Complaint "stored mesh port changed during controller startup"), file)
  | None =>
      match file, created with
      | RemoteAssist.Missing, CreatedNow => (Ok (), RemoteAssist.Regular (pretty port +:+ String "010" ""))
      | RemoteAssist.Missing, Raced other => (Err (Trouble.Complaint "file exists"), other)
      | RemoteAssist.Missing, Interrupted partial => (Err (Trouble.Complaint "I/O error"), RemoteAssist.Regular partial)
      | _, _ => (Err (Trouble.Complaint "I/O error"), file)
      end
  end.
End port.

Definition newline : string := String "010" "".
Lemma trim_line s : all_bytes lower_hex_byte s = true → trim (s +:+ newline) = s.
Proof.
  intros H. unfold trim. assert (trim_end (s +:+ newline) = s) as He.
  { induction s as [|a s IH]; [done|]. cbn in H. apply andb_prop in H as [Ha Hs].
    change (String a s +:+ newline) with (String a (s +:+ newline)). cbn [trim_end]. rewrite (hex_not_blank a _ Ha). by rewrite IH. }
  destruct s as [|a s]; [done|]. cbn in H. apply andb_prop in H as [Ha _].
  change (String a s +:+ newline) with (String a (s +:+ newline)) in *. by rewrite hex_trim_start.
Qed.
Lemma pretty_go_digits n s : all_bytes lower_hex_byte s = true → all_bytes lower_hex_byte (pretty_N_go n s) = true.
Proof.
  revert s. induction (N.lt_wf_0 n) as [n _ IH]; intros s Hs. assert (n = 0 ∨ 0 < n)%N as [->|Hn] by lia; [by rewrite pretty_N_go_0|].
  rewrite pretty_N_go_step by done. apply IH; [by apply N.div_lt|]. cbn. apply andb_true_intro. split; [|done].
  pose proof (N.mod_lt n 10 ltac:(done)) as Hm. revert Hm. generalize (n `mod` 10)%N. intros k Hk.
  assert (k = 0 ∨ k = 1 ∨ k = 2 ∨ k = 3 ∨ k = 4 ∨ k = 5 ∨ k = 6 ∨ k = 7 ∨ k = 8 ∨ k = 9)%N as H by lia.
  by repeat destruct H as [->|H]; [..|subst].
Qed.
Lemma pretty_digits (n : Z) : 0 ≤ n → all_bytes lower_hex_byte (pretty n) = true.
Proof.
  intros Hn. destruct n as [|p|p]; [done| |lia]. change (pretty (Z.pos p)) with (pretty (N.pos p)).
  unfold pretty, pretty_N. rewrite decide_False by done. by apply pretty_go_digits.
Qed.
(** The port, once stored, is the one of every later start without the variable, whatever the
    ledger says, and a start with another port is refused. *)
Theorem port_kept {codec : Codec} port created file file' :
  persist_mesh_port created port file = (Ok (), file') →
  0 < port ≤ u16_max →
  (∀ l', configured_mesh_port None file' l' = Ok port) ∧
  ∀ created' port', port' ≠ port → is_ok (persist_mesh_port created' port' file').1 = false.
Proof.
  intros Hpersist Hport.
  assert (∃ text, contents file' = Some text ∧ parse_unsigned u16_max (trim text) = Some port) as (text & Htext & Hparse).
  { unfold persist_mesh_port in Hpersist. destruct (contents file) as [text|] eqn:Hc.
    - injection Hpersist as H <-. exists text. split; [done|].
      destruct (parse_unsigned _ _) as [stored|]; [|done]. cbn in H. destruct (Z.eqb_spec stored port); [by subst|done].
    - destruct file as [|bytes|bytes removable]; [|done|by destruct bytes]. destruct created; try done. injection Hpersist as <-. eexists. split; [done|].
      change (String "010" "") with newline. rewrite trim_line by (apply pretty_digits; lia). apply parse_pretty. lia. }
  split.
  - intros l'. unfold configured_mesh_port. rewrite Htext. unfold parse_port. rewrite Hparse. cbn.
    by rewrite (proj2 (Z.eqb_neq port 0)) by lia.
  - intros created' port' Hne. unfold persist_mesh_port. rewrite Htext, Hparse. cbn. by rewrite (proj2 (Z.eqb_neq port port')) by done.
Qed.

(** ** Configuration from the environment *)

Section environment.
Context {render : Render} {iroh : Iroh}.

(** The project identifiers of a list separated by commas or semicolons. *)
Definition parse_uuid_set_env (value : option string) : result Trouble.t (gset Uuid) :=
  match value with
  | None => Ok ∅
  | Some value =>
      let items := filter (λ s, s ≠ "") (trim <$> split (λ c, (c == ";"%char) || (c == ","%char)) value) in
      list_to_set <$> try_map (λ s, ok_or Trouble.NotUuid (uuid_parse s)) items
  end.
Definition governor_config_from_env (r1 r2 : option string) : result Trouble.t GovernorConfig.t :=
  trusted_autopilot_projects ← parse_uuid_set_env r1;
  autonomous_protected_projects ← parse_uuid_set_env r2;
  let d := GovernorConfig.default in
  Ok (GovernorConfig.mk (GovernorConfig.lease_ttl_seconds d) (GovernorConfig.max_job_ttl_seconds d) (GovernorConfig.trusted_adapters d)
        (GovernorConfig.mobile_adapters d) trusted_autopilot_projects autonomous_protected_projects
        (GovernorConfig.mobile_min_battery_percent d) (GovernorConfig.mobile_min_thermal_headroom_percent d) (GovernorConfig.killed d)).
Definition mesh_config_from_env (RAMPAGE_PRIVATE_RELAYS : option string) (nodes : gmap Uuid NodeIdentityV1.t)
    : result MeshError.t MeshConfig.t :=
  let mode :=
    match RAMPAGE_PRIVATE_RELAYS with
    | Some value =>
        if blank value then MeshMode.LocalOnly
        else MeshMode.PrivateRelay (filter (λ s, s ≠ "") (trim <$> split (λ c, c == ";"%char) value))
    | None => MeshMode.LocalOnly
    end in
  let config := MeshConfig.mk "rampage.mesh-config.v1" mode (list_to_set (NodeIdentityV1.public_key ∘ snd <$> map_to_list nodes)) in
  _ ← validate config;
  Ok config.
(** The mesh admits exactly the enrolled keys, and without a relay that is configured none is
    used. *)
Theorem mesh_config_sound relays nodes config :
  mesh_config_from_env relays nodes = Ok config →
  (∀ key, authorize_peer config key = Ok () ↔ ∃ id node, nodes !! id = Some node ∧ NodeIdentityV1.public_key node = key) ∧
  (relays = None → MeshConfig.mode config = MeshMode.LocalOnly).
Proof.
  unfold mesh_config_from_env. intros (u & _ & [= <-])%bind_ok_inv. split; [|by intros ->].
  intros key. unfold authorize_peer. cbn [MeshConfig.allowed_peer_keys]. case_bool_decide as Hin.
  - split; [intros _|done]. apply elem_of_list_to_set, list_elem_of_fmap in Hin as ([id node] & -> & Hn).
    apply elem_of_map_to_list in Hn. by exists id, node.
  - split; [done|]. intros (id & node & Hn & <-). destruct Hin. apply elem_of_list_to_set, list_elem_of_fmap.
    exists (id, node). split; [done|]. by apply elem_of_map_to_list.
Qed.
End environment.

(** ** The checkpoint of the ledger *)

Section checkpoint.
Context {codec : Codec} {crypto : Crypto} {pretty_print : Pretty} {wire_checkpoint : Wire LedgerCheckpoint.t}.

(** How far the replacement of the file gets: the new text cannot be staged or the old file not
    removed; the staged file cannot be renamed; or it is in place, and the directory is synced or
    not. *)
Inductive Replaced := NotStaged | NotRenamed | InPlace (synced : bool).
Definition checkpoint_of (l : Ledger.t) (key : SigningKey) : result Ledger.LedgerError LedgerCheckpoint.t :=
  events ← Ledger.latest_events 1 l;
  let '(sequence, event_hash) :=
    match last events with Some e => (Ledger.sequence e, Ledger.event_hash e) | None => (0, "GENESIS") end in
  Ok (LedgerCheckpoint.mk Restore.LEDGER_CHECKPOINT_SCHEMA sequence event_hash
        (hex_encode (sign_bytes key (Restore.ledger_checkpoint_message sequence event_hash)))).
Definition persist_ledger_checkpoint (l : Ledger.t) (key : SigningKey) (replaced : Replaced) (file : option string)
    : result () () * option string :=
  match checkpoint_of l key with
  | Err _ => (Err (), file)
  | Ok checkpoint =>
      match replaced with
      | NotStaged => (Err (), file)
      | NotRenamed => (Err (), None)
      | InPlace synced => (if synced then Ok () else Err (), Some (pretty_json checkpoint))
      end
  end.
(** The start: the chain is verified from the checkpoint or from its beginning, and a new
    checkpoint is written if that can be done. *)
Definition verify_ledger_with_checkpoint (l : Ledger.t) (key : SigningKey) (replaced : Replaced) (file : option string)
    : option (result Ledger.LedgerError Z) * option string :=
  match Restore.verify_ledger_with_checkpoint l file key with
  | Some (Ok verified) => (Some (Ok verified), (persist_ledger_checkpoint l key replaced file).2)
  | verified => (verified, file)
  end.

(** What an accepted checkpoint says: nothing of the chain, or the hash of the event of its
    sequence, under the signature of the controller. *)
Lemma checkpoint_accepted l file key c :
  Restore.read_ledger_checkpoint l file key = Ok (Some c) →
  (∃ signature, hex_decode (LedgerCheckpoint.signature c) = Some signature ∧
     verify_bytes (verifying_key key)
       (Restore.ledger_checkpoint_message (LedgerCheckpoint.sequence c) (LedgerCheckpoint.event_hash c)) signature = true) ∧
  (LedgerCheckpoint.sequence c = 0 ∧ LedgerCheckpoint.event_hash c = Ledger.GENESIS_HASH ∨
   ∃ p q r, Ledger.ledger_events l = p ++ q ∧ last p = Some r ∧ Ledger.row_sequence r = LedgerCheckpoint.sequence c ∧
     Ledger.row_event_hash r = LedgerCheckpoint.event_hash c).
Proof.
  unfold Restore.read_ledger_checkpoint. destruct file as [bytes|]; [|done].
  intros (checkpoint & _ & H)%bind_ok_inv. apply bind_ok_inv in H as (signature & Hsig & H).
  destruct (_ || negb _) eqn:Hcheck; [done|]. apply orb_false_iff in Hcheck as [_ Hver]. apply negb_false_iff in Hver.
  destruct (hex_decode _) as [signature'|] eqn:Hdec; [|done]. injection Hsig as ->.
  destruct (LedgerCheckpoint.sequence checkpoint =? 0) eqn:Hz.
  - apply Z.eqb_eq in Hz. destruct (bool_decide_reflect (LedgerCheckpoint.event_hash checkpoint = "GENESIS")); [|done].
    injection H as <-. split; [by exists signature|]. by left.
  - destruct (Ledger.event _ l) as [[event|]|] eqn:Hevent; try done.
    destruct (bool_decide_reflect (Ledger.event_hash event = LedgerCheckpoint.event_hash checkpoint)) as [Hh|]; [|done].
    injection H as <-. split; [by exists signature|]. right. unfold Ledger.event in Hevent. rewrite Hz in Hevent.
    unfold Ledger.bind_u64 in Hevent. destruct (_ <=? i64_max); [|done].
    destruct (list_find _ _) as [[i r]|] eqn:Hfind; [|done]. apply bind_ok_inv in Hevent as (e & He & [= ->]).
    apply list_find_Some in Hfind as (Hi & Hseq & _).
    exists (take (S i) (Ledger.ledger_events l)), (drop (S i) (Ledger.ledger_events l)), r. split_and!; [by rewrite take_drop| |done|].
    + by rewrite (take_S_r _ _ r), last_snoc.
    + rewrite <-Hh. unfold Ledger.decode_row in He. by res_inv.
Qed.

(** What is known of a table that a start accepted with [r]. *)
Definition vetted (l : Ledger.t) (file : option string) (key : SigningKey) (r : result Ledger.LedgerError Z) : Prop :=
  ∀ n, r = Ok n →
    Ledger.verify l = Some (Ok n) ∨
    ∃ c signature p q row, Restore.read_ledger_checkpoint l file key = Ok (Some c) ∧
      hex_decode (LedgerCheckpoint.signature c) = Some signature ∧
      verify_bytes (verifying_key key)
        (Restore.ledger_checkpoint_message (LedgerCheckpoint.sequence c) (LedgerCheckpoint.event_hash c)) signature = true ∧
      Ledger.ledger_events l = p ++ q ∧ last p = Some row ∧ Ledger.row_sequence row = LedgerCheckpoint.sequence c ∧
      Ledger.row_event_hash row = LedgerCheckpoint.event_hash c ∧
      ∀ m, Ledger.check_rows (Ledger.GENESIS_HASH, 0) p = Ok (Ledger.row_event_hash row, m) → Ledger.verify l = Some (Ok (m + n)).

(** [C10] A start from a checkpoint is a start from the beginning.  On every table in key order and
    whatever the checkpoint file holds, the verification at start ends; it accepts the ledger of
    every history of requests and restarts of the controller, in surroundings whose clock stays
    within the years of four digits, if every stored payload reads back as a value that prints
    as the same text, and more generally every such ledger that appends and epoch advances
    wrote; and when it accepts a table, either the whole chain was verified,
    or the controller has signed the hash of an event of the table and, if the rows up to that
    event still verify, so does the whole chain, with the counts added up. *)
Theorem checkpointed_start_sound {laws : CodecLaws codec} l file key replaced :
  Ledger.ascending 0 (Ledger.ledger_events l) →
  ∃ r, (verify_ledger_with_checkpoint l key replaced file).1 = Some r ∧
    (∀ (ser : Serializer) (vault : Vault) (render : Render) (order : HashOrder) (wire : ContractWire) (iroh : Iroh)
       (base64 : Base64) (wire_model_lease : Wire ModelSessionLeaseV1.t) (wire_model_receipt : Wire ModelExecutionReceiptV1.t)
       (wire_desktop_lease : Wire RemoteDesktopLeaseV1.t) (wire_desktop_frame : Wire RemoteDesktopFrameV1.t)
       describe governor store steps,
       Forall (λ step, History.dated step.1) steps →
       l = AppState.ledger (History.run describe steps (0%nat, installed governor store)).2.2 →
       Forall (λ r, Ledger.rereads (Ledger.row_payload_json r)) (Ledger.ledger_events l) → is_ok r = true) ∧
    (Ledger.reachable l → is_ok r = true) ∧
    vetted l file key r.
Proof.
  intros Hasc. cut (∃ r, (verify_ledger_with_checkpoint l key replaced file).1 = Some r ∧
    (Ledger.reachable l → is_ok r = true) ∧ vetted l file key r).
  { intros (r & Hr & Hown & Hvetted). exists r. split; [done|]. split; [|by split].
    intros ??????????? describe governor store steps Hdated -> Hread. apply Hown. split; [|done]. by apply History.run_written. }
  destruct (Ledger.verify_after_ok 0 Ledger.GENESIS_HASH l Hasc) as (full & Hfull & _); [unfold i64_max; lia|].
  change (Ledger.verify_after 0 Ledger.GENESIS_HASH l) with (Ledger.verify l) in Hfull.
  assert (Ledger.reachable l → is_ok full = true) as Hown.
  { intros Hr%Ledger.reachable_wf%Ledger.wf_verify. rewrite Hfull in Hr. by injection Hr as ->. }
  assert (∀ x, Restore.verify_ledger_with_checkpoint l file key = Some x →
            (verify_ledger_with_checkpoint l key replaced file).1 = Some x) as Hfirst.
  { intros x Hx. unfold verify_ledger_with_checkpoint. rewrite Hx. by destruct x. }
  unfold Restore.verify_ledger_with_checkpoint in Hfirst.
  destruct (Restore.read_ledger_checkpoint l file key) as [[c|]|e] eqn:Hread; [|exists full; split_and!; [by auto|done|intros n ->; by left]..].
  destruct (checkpoint_accepted _ _ _ _ Hread) as [(signature & Hdec & Hver) [[Hz Hg]|(p & q & row & Hpq & Hlast & Hseq & Hhash)]].
  - rewrite Hz, Hg in Hfirst. exists full. split_and!; [by auto|done|intros n ->; by left].
  - assert (0 < Ledger.row_sequence row ≤ i64_max) as Hbound.
    { eapply Ledger.ascending_elem; [done|]. rewrite Hpq. apply elem_of_app. left. by apply last_Some_elem_of. }
    destruct (Ledger.verify_after_ok (Ledger.row_sequence row) (Ledger.row_event_hash row) l Hasc) as (tail & Htail & _); [lia|].
    exists tail. rewrite <-Hseq, <-Hhash in Hfirst. split; [auto|]. split.
    + intros Hr%Hown. destruct full as [n|]; [|done].
      apply (Ledger.checkpoint_sound_complete l p q row n Hasc Hpq Hlast) in Hfull as (n2 & _ & Hn2). rewrite Htail in Hn2. by injection Hn2 as ->.
    + intros n ->. right. exists c, signature, p, q, row. split_and!; try done. intros m Hm.
      apply (Ledger.checkpoint_sound_complete l p q row (m + n) Hasc Hpq Hlast). exists n. split; [|done]. rewrite Hm. do 2 f_equal. lia.
Qed.
End checkpoint.

(** ** A start after a start *)

Module Restarted.
#[local] Existing Instances Reference.reference_codec Reference.reference_laws ReferenceCrypto.reference_crypto.
#[local] Instance plain : Pretty := {| json_to_string_pretty := json_to_string |}.
(** A rendering that keeps the file within its bound. *)
Definition packed (s : string) : Value := VString (default "" (hex_decode s)).
#[local] Instance wire : Wire LedgerCheckpoint.t := {|
  to_value c := VArray [VString (LedgerCheckpoint.schema c); VInt (LedgerCheckpoint.sequence c);
                        packed (LedgerCheckpoint.event_hash c); packed (LedgerCheckpoint.signature c)];
  from_value v :=
    match v with
    | VArray [VString schema; VInt n; VString hash; VString signature] =>
        Some (LedgerCheckpoint.mk schema n (hex_encode hash) (hex_encode signature))
    | _ => None
    end
|}.
Import Ledger.Witness.
Definition key : SigningKey := "governor".
(** The file the first start leaves, and the second start, after one more event. *)
Definition file : option string := (verify_ledger_with_checkpoint demo1 key (InPlace true) None).2.
Example only_the_new_event : (verify_ledger_with_checkpoint demo2 key NotRenamed file) = (Some (Ok 1), None).
Proof. vm_compute. reflexivity. Qed.
Lemma checkpointed_start_sound_witness :
  ∃ r, (verify_ledger_with_checkpoint demo2 key NotRenamed file).1 = Some r ∧ is_ok r = true ∧ vetted demo2 file key r.
Proof.
  destruct (checkpointed_start_sound demo2 file key NotRenamed demo2_ascending) as (r & Hr & _ & Hown & Hvetted).
  exists r. split; [exact Hr|]. split; [exact (Hown demo2_reachable)|exact Hvetted].
Defined.
(** A first start that is interrupted while it writes a key: every later start refuses. *)
Example truncated_key :
  match load_or_create_secret true (Some "0123456789abcdef0123456789abcdef") (Interrupted "3031") RemoteAssist.Missing with
  | (Err _, file) => ∀ random created, is_ok (load_or_create_secret true random created file).1 = false
  | _ => False
  end.
Proof. cbn. intros random created. reflexivity. Qed.
End Restarted.
